(* ===== verification/_CoqProject ===== *)
-Q . S2P
Prelude.v
Regex.v
Sha256.v
PyTime.v
PyUrl.v
PyText.v
Search.v
Json.v
JsonFacts.v
JsonSize.v
Packet.v
PacketFacts.v
Demo.v
Tables.v
Store.v
StoreSteps.v
StoreInv.v
StoreSafety.v
StoreReplay.v
Protocol.v
ConfigFacts.v
Submission.v
UrlFacts.v
SubmissionFacts.v
Boundary.v
Ingress.v
Encoding.v
Effects.v
Client.v
Actions.v
ActionFacts.v
ActionDemo.v
Authority.v
Execution.v
App.v
Trust.v
TrustFacts.v
Receipts.v
ReceiptFacts.v
Completion.v
ReceiptDemo.v
Live.v
LiveFacts.v
StoreFrames.v
Service.v
ServiceFacts.v
Handling.v
ServiceDemo.v
Deployment.v
Daemon.v
Connections.v
DaemonDemo.v
Screening.v
Continuity.v
JsonWf.v
JsonSim.v
Ledger.v
ScreeningFacts.v
ContinuityFacts.v
Normalised.v
LedgerFacts.v
Chain.v
ContinuityStore.v
Recovery.v
Append.v
Durability.v
Initialisation.v
Capsule.v
CapsuleFacts.v
ContinuityDemo.v
Ed25519.v
Ed25519Facts.v
ContinuityPolicy.v
ContinuityProtocol.v
ContinuityVerify.v
Importer.v
ImporterStore.v
EnvelopeFacts.v
VerifyFacts.v
VerifyDemo.v
