(* ===== verification/Prelude.v ===== *)
(** * The protected-action broker of john-lomein

    john-lomein runs agents on a repository.  Two actions need authority that
    the agents do not have: marking a pull request ready and resolving a review
    thread.  A separate process, the broker under src/broker/, holds the GitHub
    App's key and performs them: it takes a packet from a Unix socket, checks it
    against its configuration and against the live pull request, charges the
    attempt in a database, calls GitHub, reads the effect back and answers with
    a signed receipt.  This library models the broker and proves what it
    promises.

    ** Files and sources

    Every file is one part; a part's lemmas are in the file named after it with
    [Facts], [Steps], [Inv] and the like.

    - Prelude.v, Effects.v: exceptions, results, the state-and-error monad [M]
      with its weakest preconditions and the relations [keeps] and [safe].
    - Regex.v, Sha256.v, PyTime.v, PyUrl.v, PyText.v, Encoding.v: what the
      sources use of Python's [re], [hashlib], [datetime], [pathlib],
      [urllib.parse], [str], [fnmatch], [base64] and codecs, executable.
    - Json.v, JsonFacts.v, JsonSize.v, JsonTotal.v: JSON values, canonical text
      and its decoder (john_lomein_broker_store.py, ..._protocol.py).
    - Packet.v, Tables.v, Store.v: john_lomein_broker_store.py.  A table is a
      finite map or a list of rows, an operation of [BrokerStore] a function from
      the tables to a result and new tables.  StoreSteps.v gives the same
      operations as a step relation, StoreInv.v their invariant, StoreSafety.v
      and StoreReplay.v their properties over every history, StoreFrames.v what
      the service needs.
    - Protocol.v, Submission.v, Trust.v: john_lomein_broker_protocol.py.  A
      normaliser returns a record; a [..._value] function is the mapping the
      source returns.  Boundary.v and Ingress.v are its properties.
    - Client.v, Actions.v: john_lomein_broker_actions.py over the interface
      [LiveActionClient]; Authority.v and Execution.v are its properties.
    - App.v, Live.v: john_lomein_github_app.py and ..._github_live.py;
      [live_client] is the instance of the interface.
    - Receipts.v: john_lomein_broker_receipts.py; Completion.v its properties.
    - Service.v: john_lomein_broker_service.py over the class [Runtime];
      ServiceFacts.v and Handling.v are its properties, Deployment.v the runtime
      the source builds by default.
    - Daemon.v: john_lomein_broker_daemon.py; Connections.v its properties.
    - Demo.v, ActionDemo.v, ReceiptDemo.v, ServiceDemo.v, DaemonDemo.v: concrete
      worlds on which the theorems are applied.

    The daemon reads a frame and calls [handle]; [handle] normalises the
    submission (Submission.v), looks for a stored receipt, settles what an
    earlier process left (recover_pending), reserves the packet, evaluates a
    live snapshot, charges the attempt, executes it and records the outcome, all
    through the operations of Store.v and one call of the signer per receipt.

    ** What the theorems show

    - The whole: [daemon_run_sound], [effect_sent_at_most_twice],
      [sent_after_charge], [answer_is_final], [service_refines_store]
      (Connections.v, Handling.v), in any world: a call of the world is a
      function on a state nothing is assumed of, and may raise at any point.
    - The store over every history: the invariant, the refinement of an effect's
      life cycle, budgets and rates, the append-only ledger, circuits, replays,
      recovery (StoreSafety.v, StoreReplay.v).
    - The boundary: normal forms, policy, validity interval, canonical URLs,
      agreement with the store's own packet check (Ingress.v).
    - Authority: what an evaluation authorises, which files no change may touch,
      what an execution confirms, what a snapshot is and what a credential was
      granted for (Authority.v, Execution.v, LiveFacts.v, Deployment.v).
    - Receipts and files: what a completion receipt proves, signing and
      verification, which files are trusted (Completion.v, TrustFacts.v).

    ** Bounds and fuel

    Python integers are unbounded and are [Z]; the bounds the sources check are
    checked here, and SHA-256 words wrap at 32 bits.  A function with fuel gets
    a bound that its loop cannot exceed: the JSON decoder twice the text plus two
    ([loads_total]), the reading of files one round per byte plus two and the
    walk to the root one per directory ([trusted_read_terminates]), the reading
    of a socket one per byte ([frame_roundtrip]), the pages of the live client
    the number the source allows.

    ** Not modelled

    Opening and securing the database file and the SQLite settings, binding the
    server socket and its lock file, signal handlers, command lines and TLS
    settings are operating-system configuration.  The library [cryptography]
    (Ed25519, RSA), HTTPS, files, sockets, the clock and the random source are
    classes the definitions take as parameters.  A Python float is kept as the
    text of its literal, and integer literals stop at 4300 digits; the
    interpreter's recursion limit and memory are not modelled.  The repository
    around the broker (release broker, owner gateway, qualification attestor,
    continuity ledger, agents' scripts) is outside this library. *)

From Stdlib Require Export ZArith NArith Lia String Ascii.
From stdpp Require Export base list gmap numbers option strings.

(** ** Python text

    A Python [str] is a sequence of Unicode code points; [str "..."] is an
    ASCII literal.  Keys of mappings are compared by code points. *)

Abbreviation pystr := (list N).

Definition str (s : string) : pystr :=
  map N_of_ascii (list_ascii_of_string s).

Arguments str : simpl never.

(** ** Exceptions

    One constructor per exception class the modelled code raises or lets
    escape.  The message is the source's message; an exception that carries
    data keeps the data instead. *)

Inductive exn :=
(* broker/john_lomein_broker_store.py *)
| BrokerStoreError (m : string)
| UnsafeStoreError (m : string)
| StoreCorruptionError (m : string)
| PacketConflictError (m : string)
| EffectStateError (m : string)
| PendingRecoveryError (m : string)
| CircuitOpenError (action : pystr) (consecutive : Z)
| BudgetExceeded (budget : string) (limit used reset_at : Z)
(* broker/john_lomein_broker_protocol.py, ..._receipts.py *)
| BrokerProtocolError (m : string)
| BrokerReceiptError (m : string)
(* broker/john_lomein_broker_actions.py *)
| BrokerActionError (reason m : string)
| MutationIndeterminate (reason m : string)
(* broker/john_lomein_broker_service.py and the GitHub clients *)
| BrokerServiceError (m : string)
| GitHubAppError (m : string)
| GitHubLiveError (m : string)
| BrokerDaemonError (m : string)
(* scripts/john_lomein_continuity.py, ..._continuity_protocol.py and
   ..._continuity_importer.py *)
| ContinuityError (code m : string)
| ContinuityProtocolError (code : string)
| ContinuityImporterError (code : string)
(* the language and its standard library *)
| ValueError (m : string)
| TypeError (m : string)
| KeyError (k : string)
| IndexError
| AttributeError (m : string)
| AssertionError
| OverflowError
| OSError (m : string)
| FileNotFoundError
| TimeoutError
| JSONDecodeError
| IntegrityError (m : string)
| OutOfFuel.

(** [isa_store e]: the [except BrokerStoreError] clause catches [e]. *)
Definition isa_store (e : exn) : bool :=
  match e with
  | BrokerStoreError _ | UnsafeStoreError _ | StoreCorruptionError _
  | PacketConflictError _ | EffectStateError _ | PendingRecoveryError _
  | CircuitOpenError _ _ | BudgetExceeded _ _ _ _ => true
  | _ => false
  end.

(** [except EffectStateError] also catches its subclass. *)
Definition isa_effect_state (e : exn) : bool :=
  match e with
  | EffectStateError _ | PendingRecoveryError _ => true
  | _ => false
  end.

(** [except BrokerProtocolError]: [BrokerReceiptError] is a subclass. *)
Definition isa_protocol (e : exn) : bool :=
  match e with
  | BrokerProtocolError _ | BrokerReceiptError _ => true
  | _ => false
  end.

(** [except ValueError]: [BrokerProtocolError] and [JSONDecodeError] derive
    from it. *)
Definition isa_value (e : exn) : bool :=
  match e with
  | ValueError _ | JSONDecodeError => true
  | _ => isa_protocol e
  end.

(** [except BrokerActionError]: [MutationIndeterminate] is a subclass. *)
Definition isa_action (e : exn) : bool :=
  match e with
  | BrokerActionError _ _ | MutationIndeterminate _ _ => true
  | _ => false
  end.

(** [except OSError]: [FileNotFoundError] and [TimeoutError] are subclasses. *)
Definition isa_os (e : exn) : bool :=
  match e with
  | OSError _ | FileNotFoundError | TimeoutError => true
  | _ => false
  end.

(** ** Computations that may raise *)

Inductive res (A : Type) : Type :=
| Ok (a : A)
| Raise (e : exn).
Arguments Ok {A} a.
Arguments Raise {A} e.

Declare Scope py_scope.
Delimit Scope py_scope with py.

Notation "'let*' p ':=' c 'in' k" :=
  (match c with Ok p => k | Raise err => Raise err end)
  (at level 10, p pattern, c at level 200, k at level 200,
   format "'[v' 'let*'  p  ':='  c  'in' '/' k ']'") : py_scope.

Notation "'raise_if' b 'with' e ';;' k" :=
  (if b then Raise e else k)
  (at level 10, b at level 200, e at level 0, k at level 200,
   format "'[v' 'raise_if'  b  'with'  e  ';;' '/' k ']'") : py_scope.

Open Scope py_scope.

Definition is_ok {A} (r : res A) : bool :=
  match r with Ok _ => true | Raise _ => false end.

(** [try: r except <catch>: raise (wrap e)] *)
Definition reraise {A} (catch : exn -> bool) (wrap : exn -> exn) (r : res A) :
    res A :=
  match r with
  | Ok a => Ok a
  | Raise e => if catch e then Raise (wrap e) else Raise e
  end.

Fixpoint res_map {A B} (f : A -> res B) (l : list A) : res (list B) :=
  match l with
  | [] => Ok []
  | a :: l' => let* b := f a in let* bs := res_map f l' in Ok (b :: bs)
  end.

#[global] Instance exn_eq_dec : EqDecision exn.
Proof. solve_decision. Defined.

#[global] Instance res_eq_dec {A} `{EqDecision A} : EqDecision (res A).
Proof. solve_decision. Defined.

(** ** Decimal text of integers: [str(n)] *)

Fixpoint digits_fuel (fuel : nat) (n : Z) (acc : pystr) : pystr :=
  match fuel with
  | O => acc
  | S f =>
      let acc' := (48 + Z.to_N (n mod 10))%N :: acc in
      if (n <? 10)%Z then acc' else digits_fuel f (n / 10) acc'
  end.

Definition nat_text (n : Z) : pystr := digits_fuel (S (Z.to_nat (Z.log2 n))) n [].

Definition dec (z : Z) : pystr :=
  if (z <? 0)%Z then str "-" ++ nat_text (- z) else nat_text z.

(** ** Tactics *)

(** Case analysis on the outermost match of a hypothesis that equates a
    computation with a result. *)
Ltac case_res H :=
  match type of H with
  | (match ?x with _ => _ end) = _ =>
      let E := fresh "E" in destruct x eqn:E; try discriminate H
  end.

Definition is_some {A} (o : option A) : bool := match o with Some _ => true | None => false end.

(** [bool(l)] of a list *)
Definition any {A} (l : list A) : bool := match l with [] => false | _ => true end.

Lemma any_false {A} (l : list A) : any l = false -> l = [].
Proof. by destruct l. Qed.

Lemma any_true {A} (l : list A) : any l = true -> l <> [].
Proof. by destruct l. Qed.

Lemma Ok_inj {A} (a b : A) : Ok a = Ok b -> a = b.
Proof. congruence. Qed.

Lemma is_some_false {A} (o : option A) : is_some o = false <-> o = None.
Proof. by destruct o. Qed.

Lemma is_some_true {A} (o : option A) : is_some o = true <-> exists a, o = Some a.
Proof. destruct o; naive_solver. Qed.

(** Boolean side conditions of a successful branch, as propositions. *)
Ltac split_bools :=
  repeat match goal with
  | H : negb _ = false |- _ => apply negb_false_iff in H
  | H : negb _ = true |- _ => apply negb_true_iff in H
  | H : _ || _ = false |- _ => apply orb_false_iff in H as [? ?]
  | H : _ && _ = true |- _ => apply andb_true_iff in H as [? ?]
  | H : bool_decide _ = true |- _ => apply bool_decide_eq_true in H
  | H : bool_decide _ = false |- _ => apply bool_decide_eq_false in H
  | H : is_some _ = false |- _ => apply is_some_false in H
  end.

(** Every branch of a computation known to succeed. *)
Ltac inv_ok H := repeat case_res H; try (injection H as H); simplify_eq; split_bools.

(** The same for every computation of the context that returned. *)
Ltac inv_oks :=
  repeat match goal with
  | H : (match _ with _ => _ end) = Ok _ |- _ => progress inv_ok H
  end.

(** ** Facts about decimal text *)

Lemma digits_fuel_app f n acc : digits_fuel f n acc = digits_fuel f n [] ++ acc.
Proof.
  revert n acc; induction f as [|f IH]; intros n acc; simpl; [done |].
  destruct (n <? 10)%Z; [done |].
  rewrite IH, (IH _ [_]), <- app_assoc. done.
Qed.

Lemma log2_div10 n : (10 <= n)%Z -> (Z.log2 (n / 10) < Z.log2 n)%Z.
Proof.
  intros Hn. pose proof (Z.log2_spec n ltac:(lia)) as [Hl _].
  assert (H0 : (0 < n / 10)%Z) by (apply Z.div_str_pos; lia).
  apply Z.log2_lt_pow2; [done |].
  assert (Hn2 : (Z.log2 n <> 0)%Z).
  { intros E. apply Z.log2_null in E. lia. }
  pose proof (Z.log2_nonneg n). pose proof (Z.log2_spec n ltac:(lia)) as [_ Hu].
  replace (Z.succ (Z.log2 n)) with (Z.log2 n + 1)%Z in Hu by lia.
  rewrite Z.pow_add_r in Hu by lia. apply Z.div_lt_upper_bound; lia.
Qed.

Lemma digits_fuel_enough f g n :
  (0 <= n)%Z -> (Z.to_nat (Z.log2 n) < f)%nat -> (Z.to_nat (Z.log2 n) < g)%nat ->
  digits_fuel f n [] = digits_fuel g n [].
Proof.
  revert g n; induction f as [|f IH]; intros [|g] n H0 Hf Hg; try lia. simpl.
  destruct (Z.ltb_spec n 10) as [|Hn]; [done |].
  rewrite digits_fuel_app, (digits_fuel_app g).
  pose proof (log2_div10 n Hn). pose proof (Z.log2_nonneg (n / 10)).
  rewrite (IH g (n / 10)%Z); [done | apply Z.div_pos; lia | lia | lia].
Qed.

Lemma nat_text_small n : (0 <= n < 10)%Z -> nat_text n = [(48 + Z.to_N n)%N].
Proof.
  intros Hn. unfold nat_text. simpl. destruct (Z.ltb_spec n 10); [|lia].
  by rewrite Z.mod_small.
Qed.

Lemma nat_text_step n :
  (10 <= n)%Z -> nat_text n = nat_text (n / 10) ++ [(48 + Z.to_N (n mod 10))%N].
Proof.
  intros Hn. unfold nat_text at 1. simpl. destruct (Z.ltb_spec n 10); [lia |].
  rewrite digits_fuel_app. f_equal. unfold nat_text.
  pose proof (log2_div10 n Hn). pose proof (Z.log2_nonneg (n / 10)).
  apply digits_fuel_enough; [apply Z.div_pos; lia | lia | lia].
Qed.

(** Induction on a nonnegative integer by dropping its last digit. *)
Lemma digits_ind (P : Z -> Prop) :
  (forall n, (0 <= n < 10)%Z -> P n) ->
  (forall n, (10 <= n)%Z -> P (n / 10)%Z -> P n) ->
  forall n, (0 <= n)%Z -> P n.
Proof.
  intros Hs Hb. apply (Zlt_0_ind P). intros n IH Hn.
  destruct (Z.lt_ge_cases n 10); [apply Hs; lia |].
  apply Hb; [lia |]. apply IH.
  split; [apply Z.div_pos; lia | apply Z.div_lt; lia].
Qed.

Definition is_digit_char (c : N) : bool := ((48 <=? c) && (c <=? 57))%N.

Lemma nat_text_digits n :
  (0 <= n)%Z -> Forall (fun c => is_digit_char c = true) (nat_text n) /\ nat_text n <> [].
Proof.
  revert n. apply digits_ind; intros n Hn.
  - rewrite nat_text_small by done. split; [|done]. repeat constructor.
    unfold is_digit_char. apply andb_true_iff. rewrite !N.leb_le. lia.
  - intros [IH _]. rewrite nat_text_step by done. split; [|by destruct (nat_text _)].
    apply Forall_app. split; [done |]. repeat constructor.
    unfold is_digit_char. apply andb_true_iff. rewrite !N.leb_le.
    pose proof (Z.mod_pos_bound n 10). lia.
Qed.
