(* ===== verification/Regex.v ===== *)
(** * Regular expressions of the [re] module

    The patterns of the broker are anchored and used through [fullmatch], so a
    pattern denotes a set of whole strings.  [fullmatch] decides membership by
    derivatives; [fullmatch_spec] relates it to the usual inductive meaning.
    The second part holds the patterns of
    broker/john_lomein_broker_protocol.py and ..._store.py. *)

From S2P Require Import Prelude.

(** ** Syntax and matching *)

Inductive re :=
| RNone
| REps
| RCls (c : N -> bool)
| RSeq (r1 r2 : re)
| RAlt (r1 r2 : re)
| RRep (r : re) (m n : nat)      (* r{m,n} *)
| RStar (r : re).

Fixpoint nullable (r : re) : bool :=
  match r with
  | RNone | RCls _ => false
  | REps | RStar _ => true
  | RSeq r1 r2 => nullable r1 && nullable r2
  | RAlt r1 r2 => nullable r1 || nullable r2
  | RRep r m n => match m with O => true | _ => (m <=? n)%nat && nullable r end
  end.

Definition rseq (r1 r2 : re) : re :=
  match r1, r2 with
  | RNone, _ | _, RNone => RNone
  | REps, r => r
  | r, _ => RSeq r r2
  end.

Definition ralt (r1 r2 : re) : re :=
  match r1, r2 with
  | RNone, r => r
  | r, RNone => r
  | _, _ => RAlt r1 r2
  end.

Fixpoint deriv (a : N) (r : re) : re :=
  match r with
  | RNone | REps => RNone
  | RCls c => if c a then REps else RNone
  | RSeq r1 r2 =>
      if nullable r1 then ralt (rseq (deriv a r1) r2) (deriv a r2)
      else rseq (deriv a r1) r2
  | RAlt r1 r2 => ralt (deriv a r1) (deriv a r2)
  | RRep r m n =>
      match n with
      | O => RNone
      | S n' =>
          if (m <=? n)%nat then rseq (deriv a r) (RRep r (pred m) n') else RNone
      end
  | RStar r => rseq (deriv a r) (RStar r)
  end.

(** [pattern.fullmatch(s) is not None] *)
Fixpoint fullmatch (r : re) (s : pystr) : bool :=
  match s with
  | [] => nullable r
  | a :: s' => fullmatch (deriv a r) s'
  end.

(** The meaning of a pattern. *)
Inductive matches : re -> pystr -> Prop :=
| M_eps : matches REps []
| M_cls c a : c a = true -> matches (RCls c) [a]
| M_seq r1 r2 s1 s2 : matches r1 s1 -> matches r2 s2 -> matches (RSeq r1 r2) (s1 ++ s2)
| M_alt_l r1 r2 s : matches r1 s -> matches (RAlt r1 r2) s
| M_alt_r r1 r2 s : matches r2 s -> matches (RAlt r1 r2) s
| M_rep_stop r n : matches (RRep r 0 n) []
| M_rep_more r m n s1 s2 : (m <= S n)%nat -> matches r s1 ->
    matches (RRep r (pred m) n) s2 -> matches (RRep r m (S n)) (s1 ++ s2)
| M_star_stop r : matches (RStar r) []
| M_star_more r s1 s2 : matches r s1 -> matches (RStar r) s2 -> matches (RStar r) (s1 ++ s2).

(** ** Building patterns the way the source writes them *)

Definition in_range (lo hi : ascii) (a : N) : bool :=
  ((N_of_ascii lo <=? a) && (a <=? N_of_ascii hi))%N.

Definition one_of (s : string) (a : N) : bool := bool_decide (a ∈ str s).

Definition lower : N -> bool := in_range "a" "z".
Definition upper : N -> bool := in_range "A" "Z".
Definition digit : N -> bool := in_range "0" "9".
Definition alnum (a : N) : bool := lower a || upper a || digit a.
Definition hexdig (a : N) : bool := digit a || in_range "a" "f" a.
Definition alnum_or (s : string) (a : N) : bool := alnum a || one_of s a.

Fixpoint rlit_chars (s : pystr) : re :=
  match s with
  | [] => REps
  | a :: s' => RSeq (RCls (N.eqb a)) (rlit_chars s')
  end.

Definition rlit (s : string) : re := rlit_chars (str s).
Definition ropt (r : re) : re := RRep r 0 1.

(** ** The broker's patterns *)

(** [^jlpa-[0-9a-f]{24}$] *)
Definition PACKET_ID_RE : re := RSeq (rlit "jlpa-") (RRep (RCls hexdig) 24 24).
(** [^[0-9a-f]{64}$] *)
Definition SHA256_RE : re := RRep (RCls hexdig) 64 64.
(** [^[A-Za-z0-9][A-Za-z0-9._-]{0,127}$]; INSTANCE_SLUG_RE in the protocol. *)
Definition INSTANCE_RE : re :=
  RSeq (RCls alnum) (RRep (RCls (alnum_or "._-")) 0 127).
(** [^[A-Za-z0-9](?:[A-Za-z0-9_.-]{0,99})/[A-Za-z0-9](?:[A-Za-z0-9_.-]{0,99})$] *)
Definition REPO_RE : re :=
  RSeq (RCls alnum) (RSeq (RRep (RCls (alnum_or "_.-")) 0 99)
    (RSeq (rlit "/") (RSeq (RCls alnum) (RRep (RCls (alnum_or "_.-")) 0 99)))).
(** [^(?:[0-9a-f]{40}|[0-9a-f]{64})$] *)
Definition OID_RE : re :=
  RAlt (RRep (RCls hexdig) 40 40) (RRep (RCls hexdig) 64 64).
(** [^[A-Za-z0-9][A-Za-z0-9._:@/+~-]{0,255}$]; TOKEN_RE in the protocol. *)
Definition THREAD_ID_RE : re :=
  RSeq (RCls alnum) (RRep (RCls (alnum_or "._:@/+~-")) 0 255).
(** [^[A-Za-z0-9][A-Za-z0-9._:@/+~-]{0,127}$] *)
Definition ATTEMPT_KEY_RE : re :=
  RSeq (RCls alnum) (RRep (RCls (alnum_or "._:@/+~-")) 0 127).
(** [^jle-[0-9a-f]{32}$] *)
Definition EFFECT_KEY_RE : re := RSeq (rlit "jle-") (RRep (RCls hexdig) 32 32).
(** Protocol only. *)
Definition TOKEN_RE : re := THREAD_ID_RE.
Definition INSTANCE_SLUG_RE : re := INSTANCE_RE.
(** [^[A-Za-z0-9][A-Za-z0-9._/-]{0,199}$] *)
Definition BRANCH_RE : re :=
  RSeq (RCls alnum) (RRep (RCls (alnum_or "._/-")) 0 199).
(** [^[A-Za-z0-9][A-Za-z0-9-]{0,98}(?:\[bot\])?$] *)
Definition LOGIN_RE : re :=
  RSeq (RCls alnum) (RSeq (RRep (RCls (alnum_or "-")) 0 98) (ropt (rlit "[bot]"))).
(** [^[a-z0-9](?:[a-z0-9-]{0,98}[a-z0-9])?$] *)
Definition APP_SLUG_RE : re :=
  let c a := lower a || digit a in
  RSeq (RCls c)
    (ropt (RSeq (RRep (RCls (fun a => c a || one_of "-" a)) 0 98) (RCls c))).

(** ** Correctness of the matcher *)

Lemma matches_seq r1 r2 t :
  matches (RSeq r1 r2) t <-> exists s1 s2, t = s1 ++ s2 /\ matches r1 s1 /\ matches r2 s2.
Proof.
  split; [inversion 1; subst; eauto | intros (s1 & s2 & -> & ? & ?); by constructor].
Qed.

Lemma matches_alt r1 r2 t : matches (RAlt r1 r2) t <-> matches r1 t \/ matches r2 t.
Proof.
  split; [inversion 1; subst; auto | intros [?|?]; [by apply M_alt_l | by apply M_alt_r]].
Qed.

Lemma matches_eps t : matches REps t <-> t = [].
Proof. split; [by inversion 1 | intros ->; constructor]. Qed.

Lemma matches_none t : ~ matches RNone t.
Proof. inversion 1. Qed.

Lemma matches_cls c t : matches (RCls c) t <-> exists a, t = [a] /\ c a = true.
Proof. split; [inversion 1; subst; eauto | intros (a & -> & ?); by constructor]. Qed.

Lemma matches_rep r m n t :
  matches (RRep r m n) t <->
  (m = 0%nat /\ t = []) \/
  exists n' s1 s2, n = S n' /\ (m <= n)%nat /\ t = s1 ++ s2 /\
    matches r s1 /\ matches (RRep r (pred m) n') s2.
Proof.
  split.
  - inversion 1; subst; [by left | right]. eauto 9.
  - intros [[-> ->]|(n' & s1 & s2 & -> & ? & -> & ? & ?)]; by constructor.
Qed.

Lemma matches_rseq r1 r2 s : matches (rseq r1 r2) s <-> matches (RSeq r1 r2) s.
Proof.
  rewrite matches_seq.
  assert (H0 : forall r, (exists s1 s2, s = s1 ++ s2 /\ matches REps s1 /\ matches r s2) <->
    matches r s).
  { intros r. split; [intros (s1 & s2 & -> & ->%matches_eps & ?); done |].
    intros ?. exists [], s. repeat split; [constructor | done]. }
  destruct r1, r2; simpl; rewrite ?H0, <- ?matches_seq; try done;
    rewrite ?matches_seq; split;
    first [by intros ?%matches_none | by intros (? & ? & _ & ?%matches_none & _)
          | by intros (? & ? & _ & _ & ?%matches_none)].
Qed.

Lemma matches_ralt r1 r2 s : matches (ralt r1 r2) s <-> matches (RAlt r1 r2) s.
Proof.
  rewrite matches_alt. pose proof (matches_none s).
  destruct r1, r2; simpl; rewrite ?matches_alt; tauto.
Qed.

Lemma nullable_spec r : nullable r = true <-> matches r [].
Proof.
  induction r as [| |c|r1 IH1 r2 IH2|r1 IH1 r2 IH2|r IH m n|r IH]; simpl.
  - split; [done | by intros ?%matches_none].
  - split; [constructor | done].
  - split; [done | by intros (? & ? & _)%matches_cls].
  - rewrite andb_true_iff, IH1, IH2, matches_seq. split.
    + intros [H1 H2]. by exists [], [].
    + intros (s1 & s2 & E & H1 & H2). symmetry in E.
      apply app_eq_nil in E as [-> ->]. done.
  - by rewrite orb_true_iff, IH1, IH2, matches_alt.
  - revert m; induction n as [|n IHn]; intros m; rewrite matches_rep; split.
    + destruct m; [by left | done].
    + intros [[-> _]|(? & ? & ? & ? & _)]; [done | discriminate].
    + destruct m as [|m]; [by left | intros [Hle Hn]%andb_true_iff].
      apply Nat.leb_le in Hle. right. exists n, [], [].
      repeat split; [lia | by apply IH |]. apply IHn. simpl pred.
      destruct m; [done |]. apply andb_true_iff; split; [apply Nat.leb_le; lia | done].
    + intros [[-> _]|(n' & s1 & s2 & [= <-] & Hle & E & H1 & _)]; [done |].
      symmetry in E. apply app_eq_nil in E as [-> ->].
      destruct m; [done |].
      apply andb_true_iff; split; [apply Nat.leb_le; lia | by apply IH].
  - split; [constructor | done].
Qed.

Lemma matches_rep_cons r m n a s :
  matches (RRep r m n) (a :: s) ->
  exists n' s1 s2, n = S n' /\ (m <= n)%nat /\ s = s1 ++ s2 /\
    matches r (a :: s1) /\ matches (RRep r (pred m) n') s2.
Proof.
  remember (RRep r m n) as p eqn:Ep. remember (a :: s) as t eqn:Et.
  intros H; revert m n Ep Et.
  induction H as [| | | | | |r0 m0 n0 s1 s2 Hle H1 _ H2 IH2| |];
    intros m' n' Ep Et; try discriminate.
  injection Ep as -> <- <-. destruct s1 as [|b s1]; simpl in Et.
  - subst s2.
    destruct (IH2 _ _ eq_refl eq_refl) as (n1 & t1 & t2 & -> & Hle' & -> & Ht1 & Ht2).
    exists (S n1), t1, t2. repeat split; try done.
    by apply (M_rep_more _ _ _ [] t2).
  - injection Et as -> <-. eauto 8.
Qed.

Lemma matches_star_cons r a s :
  matches (RStar r) (a :: s) ->
  exists s1 s2, s = s1 ++ s2 /\ matches r (a :: s1) /\ matches (RStar r) s2.
Proof.
  remember (RStar r) as p eqn:Ep. remember (a :: s) as t eqn:Et.
  intros H; revert Ep Et.
  induction H as [| | | | | | | |r0 s1 s2 H1 _ H2 IH2]; intros Ep Et; try discriminate.
  injection Ep as ->. destruct s1 as [|b s1]; simpl in Et; [by apply IH2 |].
  injection Et as -> <-. eauto.
Qed.

Lemma matches_seq_cons r1 r2 a s :
  matches (RSeq r1 r2) (a :: s) <->
  (exists s1 s2, s = s1 ++ s2 /\ matches r1 (a :: s1) /\ matches r2 s2) \/
  (matches r1 [] /\ matches r2 (a :: s)).
Proof.
  rewrite matches_seq. split.
  - intros ([|b s1] & s2 & E & H1 & H2); simpl in E; [subst; by right |].
    injection E as -> ->. left; eauto.
  - intros [(s1 & s2 & -> & H1 & H2)|[H1 H2]]; [by exists (a :: s1), s2 |].
    by exists [], (a :: s).
Qed.

Lemma deriv_spec a r s : matches (deriv a r) s <-> matches r (a :: s).
Proof.
  revert s; induction r as [| |c|r1 IH1 r2 IH2|r1 IH1 r2 IH2|r IH m n|r IH];
    intros s; simpl.
  - split; by intros ?%matches_none.
  - split; [by intros ?%matches_none | by intros ?%matches_eps].
  - rewrite matches_cls. destruct (c a) eqn:E.
    + rewrite matches_eps. split; [intros ->; eauto | by intros (? & [= <- ->] & _)].
    + split; [by intros ?%matches_none | intros (? & [= <- _] & ?); congruence].
  - rewrite matches_seq_cons.
    assert (Hseq : matches (rseq (deriv a r1) r2) s <->
      exists s1 s2, s = s1 ++ s2 /\ matches r1 (a :: s1) /\ matches r2 s2).
    { rewrite matches_rseq, matches_seq. by setoid_rewrite IH1. }
    pose proof (nullable_spec r1) as Hn. destruct (nullable r1).
    + rewrite matches_ralt, matches_alt, Hseq, IH2. tauto.
    + rewrite Hseq. intuition discriminate.
  - by rewrite matches_ralt, !matches_alt, IH1, IH2.
  - destruct n as [|n].
    { split; [by intros ?%matches_none | intros H].
      apply matches_rep_cons in H as (? & ? & ? & ? & _); discriminate. }
    destruct (Nat.leb_spec m (S n)) as [Hle|Hgt].
    + rewrite matches_rseq, matches_seq. split.
      * intros (s1 & s2 & -> & H1%IH & H2).
        apply (M_rep_more _ _ _ (a :: s1)); done.
      * intros H. apply matches_rep_cons in H as (n' & s1 & s2 & [= <-] & _ & -> & H1 & H2).
        exists s1, s2. by rewrite IH.
    + split; [by intros ?%matches_none | intros H].
      apply matches_rep_cons in H as (? & ? & ? & ? & ? & _). lia.
  - rewrite matches_rseq, matches_seq. split.
    + intros (s1 & s2 & -> & H1%IH & H2).
      change (a :: s1 ++ s2) with ((a :: s1) ++ s2). by apply M_star_more.
    + intros H. apply matches_star_cons in H as (s1 & s2 & -> & H1 & H2).
      exists s1, s2. by rewrite IH.
Qed.

Lemma fullmatch_matches r s : fullmatch r s = true <-> matches r s.
Proof.
  revert r; induction s as [|a s IH]; intros r; simpl.
  - apply nullable_spec.
  - rewrite IH. apply deriv_spec.
Qed.

(** ** Shapes of the patterns used as lemmas elsewhere *)

Lemma matches_rep_cls c m n s :
  matches (RRep (RCls c) m n) s <->
  (m <= length s <= n)%nat /\ Forall (fun a => c a = true) s \/ (m = 0%nat /\ s = []).
Proof.
  revert m n; induction s as [|a s IH]; intros m n.
  - rewrite matches_rep. split.
    + intros [[-> _]|(n' & s1 & s2 & -> & Hle & E & (b & -> & _)%matches_cls & _)];
        [by right | discriminate].
    + intros [[[Hm _] _]|[-> _]]; left; simpl in *; [split; [lia | done] | done].
  - split.
    + intros H. apply matches_rep_cons in H as (n' & s1 & s2 & -> & Hle & -> & H1 & H2).
      apply matches_cls in H1 as (b & [= <- ->] & Hb). left.
      simpl in *. apply IH in H2 as [[[Hl1 Hl2] HF]|[Hm ->]]; simpl in *;
        (split; [lia | by constructor]).
    + intros [[[Hl1 Hl2] HF]|[_ ?]]; [|discriminate]. simpl in *.
      destruct n as [|n]; [lia |]. inversion HF; subst.
      change (a :: s) with ([a] ++ s). apply M_rep_more; [lia | by constructor |].
      apply IH. left. split; [lia | done].
Qed.

Lemma matches_rep_exact c n s :
  matches (RRep (RCls c) n n) s <-> length s = n /\ Forall (fun a => c a = true) s.
Proof.
  rewrite matches_rep_cls. split.
  - intros [[? ?]|[-> ->]]; [split; [lia | done] | done].
  - intros [<- ?]; left; split; [lia | done].
Qed.

Lemma matches_lit s t : matches (rlit_chars s) t <-> t = s.
Proof.
  revert t; induction s as [|a s IH]; intros t; simpl; [apply matches_eps |].
  rewrite matches_seq. split.
  - by intros (s1 & s2 & -> & (b & -> & ->%N.eqb_eq)%matches_cls & ->%IH).
  - intros ->. exists [a], s. rewrite IH, matches_cls. repeat split.
    exists a. split; [done | apply N.eqb_refl].
Qed.

Lemma fullmatch_prefix_hex p n s :
  fullmatch (RSeq (rlit p) (RRep (RCls hexdig) n n)) (str p ++ s) = true <->
  length s = n /\ Forall (fun a => hexdig a = true) s.
Proof.
  rewrite fullmatch_matches, matches_seq. split.
  - intros (s1 & s2 & E & H1 & H2). unfold rlit in H1. apply matches_lit in H1 as ->.
    apply app_inv_head in E as ->. by apply matches_rep_exact.
  - intros H. exists (str p), s. split; [done |]. split; [by apply matches_lit |].
    by apply matches_rep_exact.
Qed.

Lemma fullmatch_sha256 s :
  fullmatch SHA256_RE s = true <-> length s = 64%nat /\ Forall (fun a => hexdig a = true) s.
Proof. unfold SHA256_RE. rewrite fullmatch_matches. apply matches_rep_exact. Qed.

(** ** Alphabets *)

(** Every character class of the pattern is inside [p]. *)
Fixpoint cls_within (p : N -> Prop) (r : re) : Prop :=
  match r with
  | RNone | REps => True
  | RCls c => forall a, c a = true -> p a
  | RSeq r1 r2 | RAlt r1 r2 => cls_within p r1 /\ cls_within p r2
  | RRep r _ _ | RStar r => cls_within p r
  end.

Lemma matches_within p r s : cls_within p r -> matches r s -> Forall p s.
Proof.
  intros Hp H. induction H; simpl in Hp; try apply List.Forall_nil;
    try apply List.Forall_app; try (apply List.Forall_cons; [by apply Hp | apply List.Forall_nil]);
    intuition.
Qed.

Lemma fullmatch_within p r s : cls_within p r -> fullmatch r s = true -> Forall p s.
Proof. rewrite fullmatch_matches. apply matches_within. Qed.

(** The printable ASCII characters other than the quote and the backslash. *)
Definition plain (a : N) : Prop := (32 <= a < 127 /\ a <> 34 /\ a <> 92)%N.

Lemma in_range_within lo hi a :
  in_range lo hi a = true -> (N_of_ascii lo <= a <= N_of_ascii hi)%N.
Proof. unfold in_range. rewrite andb_true_iff, !N.leb_le. done. Qed.

Lemma alnum_plain a : alnum a = true -> plain a.
Proof.
  unfold alnum, lower, upper, digit. rewrite !orb_true_iff.
  intros [[H|H]|H]; apply in_range_within in H; unfold plain;
    change (N_of_ascii "a") with 97%N in *; change (N_of_ascii "z") with 122%N in *;
    change (N_of_ascii "A") with 65%N in *; change (N_of_ascii "Z") with 90%N in *;
    change (N_of_ascii "0") with 48%N in *; change (N_of_ascii "9") with 57%N in *; lia.
Qed.

Lemma hexdig_plain a : hexdig a = true -> plain a.
Proof.
  intros H. apply alnum_plain. unfold hexdig in H. unfold alnum.
  apply orb_true_iff in H as [->|H]; [by rewrite orb_true_r |].
  apply in_range_within in H. change (N_of_ascii "a") with 97%N in H.
  change (N_of_ascii "f") with 102%N in H. unfold lower, in_range.
  change (N_of_ascii "a") with 97%N. change (N_of_ascii "z") with 122%N.
  assert (E : ((97 <=? a) && (a <=? 122))%N = true) by (rewrite andb_true_iff, !N.leb_le; lia).
  by rewrite E.
Qed.

Definition plainb (a : N) : bool := ((32 <=? a) && (a <? 127) && negb (a =? 34) && negb (a =? 92))%N.

Lemma plainb_plain a : plainb a = true -> plain a.
Proof.
  unfold plainb. rewrite !andb_true_iff, N.leb_le, N.ltb_lt, !negb_true_iff, !N.eqb_neq.
  unfold plain. lia.
Qed.

Lemma alnum_or_plain s a : forallb plainb (str s) = true -> alnum_or s a = true -> plain a.
Proof.
  rewrite forallb_forall. unfold alnum_or, one_of. intros Hs [H|H]%orb_true_iff;
    [by apply alnum_plain |].
  apply bool_decide_eq_true in H. by apply plainb_plain, Hs, list_elem_of_In.
Qed.

Lemma lit_plain s : Forall plain s -> cls_within plain (rlit_chars s).
Proof.
  induction 1 as [|a s Ha _ IH]; simpl; [done |]. split; [|done].
  intros b Hb. apply N.eqb_eq in Hb. by subst.
Qed.

Lemma hex_plain n : cls_within plain (RRep (RCls hexdig) n n).
Proof. simpl. apply hexdig_plain. Qed.

Lemma sha256_plain s : fullmatch SHA256_RE s = true -> Forall plain s.
Proof. apply fullmatch_within. apply hex_plain. Qed.

Lemma plain_str s : forallb plainb (str s) = true -> Forall plain (str s).
Proof.
  rewrite forallb_forall. intros H. apply Forall_forall. intros a Ha.
  by apply plainb_plain, H, list_elem_of_In.
Qed.

Lemma packet_id_plain s : fullmatch PACKET_ID_RE s = true -> Forall plain s.
Proof.
  apply fullmatch_within. split; [apply lit_plain; by apply plain_str | apply hex_plain].
Qed.

Lemma effect_key_plain s : fullmatch EFFECT_KEY_RE s = true -> Forall plain s.
Proof.
  apply fullmatch_within. split; [apply lit_plain; by apply plain_str | apply hex_plain].
Qed.

Lemma token_plain n t s :
  forallb plainb (str t) = true ->
  fullmatch (RSeq (RCls alnum) (RRep (RCls (alnum_or t)) 0 n)) s = true -> Forall plain s.
Proof.
  intros Ht. apply fullmatch_within. split; [exact alnum_plain |].
  intros a. by apply alnum_or_plain.
Qed.

Lemma attempt_key_plain s : fullmatch ATTEMPT_KEY_RE s = true -> Forall plain s.
Proof. by apply token_plain. Qed.

Lemma thread_id_plain s : fullmatch THREAD_ID_RE s = true -> Forall plain s.
Proof. by apply token_plain. Qed.

Lemma instance_plain s : fullmatch INSTANCE_RE s = true -> Forall plain s.
Proof. by apply token_plain. Qed.

Lemma oid_plain s : fullmatch OID_RE s = true -> Forall plain s.
Proof. apply fullmatch_within. split; apply hex_plain. Qed.

Lemma repo_plain s : fullmatch REPO_RE s = true -> Forall plain s.
Proof.
  apply fullmatch_within. split; [exact alnum_plain |].
  assert (H : forall a, alnum_or "_.-" a = true -> plain a) by (intros a; by apply alnum_or_plain).
  split; [exact H |]. split; [apply lit_plain; by apply plain_str |].
  split; [exact alnum_plain | exact H].
Qed.
