(* ===== verification/Sha256.v ===== *)
(** * [hashlib.sha256] and UTF-8 encoding

    The broker binds packets, effects, bindings and receipts by SHA-256 over
    canonical JSON text.  The digest is modelled by the algorithm itself (words
    are [N] below 2^32, additions wrap), so that witnesses evaluate real
    digests.  [hexdigest_shape] is what the patterns of the broker rely on. *)

From S2P Require Import Prelude Regex.
Local Open Scope N_scope.

(** ** UTF-8: [text.encode("utf-8")]

    Every text the broker encodes is ASCII (canonical JSON escapes the rest),
    where the encoding is the identity ([utf8_ascii]).  A lone surrogate, for
    which Python raises, is encoded by its three-byte form. *)

Definition utf8_char (c : N) : list N :=
  if c <? 128 then [c]
  else if c <? 2048 then [192 + c / 64; 128 + c mod 64]
  else if c <? 65536 then [224 + c / 4096; 128 + (c / 64) mod 64; 128 + c mod 64]
  else [240 + c / 262144; 128 + (c / 4096) mod 64; 128 + (c / 64) mod 64; 128 + c mod 64].

Definition utf8 (s : pystr) : list N := concat (map utf8_char s).

(** ** SHA-256 *)

Definition w32 (x : N) : N := N.land x 4294967295.
Definition add32 (x y : N) : N := w32 (x + y).
Definition rotr (n x : N) : N := N.lor (N.shiftr x n) (w32 (N.shiftl x (32 - n))).
Definition not32 (x : N) : N := N.lxor x 4294967295.
Definition ch (x y z : N) : N := N.lxor (N.land x y) (N.land (not32 x) z).
Definition maj (x y z : N) : N := N.lxor (N.lxor (N.land x y) (N.land x z)) (N.land y z).
Definition bsig0 (x : N) : N := N.lxor (N.lxor (rotr 2 x) (rotr 13 x)) (rotr 22 x).
Definition bsig1 (x : N) : N := N.lxor (N.lxor (rotr 6 x) (rotr 11 x)) (rotr 25 x).
Definition ssig0 (x : N) : N := N.lxor (N.lxor (rotr 7 x) (rotr 18 x)) (N.shiftr x 3).
Definition ssig1 (x : N) : N := N.lxor (N.lxor (rotr 17 x) (rotr 19 x)) (N.shiftr x 10).

Definition round_constants : list N :=
  [1116352408; 1899447441; 3049323471; 3921009573; 961987163; 1508970993;
   2453635748; 2870763221; 3624381080; 310598401; 607225278; 1426881987;
   1925078388; 2162078206; 2614888103; 3248222580; 3835390401; 4022224774;
   264347078; 604807628; 770255983; 1249150122; 1555081692; 1996064986;
   2554220882; 2821834349; 2952996808; 3210313671; 3336571891; 3584528711;
   113926993; 338241895; 666307205; 773529912; 1294757372; 1396182291;
   1695183700; 1986661051; 2177026350; 2456956037; 2730485921; 2820302411;
   3259730800; 3345764771; 3516065817; 3600352804; 4094571909; 275423344;
   430227734; 506948616; 659060556; 883997877; 958139571; 1322822218;
   1537002063; 1747873779; 1955562222; 2024104815; 2227730452; 2361852424;
   2428436474; 2756734187; 3204031479; 3329325298].

Record hstate := HState { ha : N; hb : N; hc : N; hd : N; he : N; hf : N; hg : N; hh : N }.

Definition initial_state : hstate :=
  HState 1779033703 3144134277 1013904242 2773480762 1359893119 2600822924 528734635 1541459225.

(** One round on word [w] with constant [k]. *)
Definition sha_round (s : hstate) (k w : N) : hstate :=
  let t1 := add32 (add32 (add32 (add32 (hh s) (bsig1 (he s))) (ch (he s) (hf s) (hg s))) k) w in
  let t2 := add32 (bsig0 (ha s)) (maj (ha s) (hb s) (hc s)) in
  HState (add32 t1 t2) (ha s) (hb s) (hc s) (add32 (hd s) t1) (he s) (hf s) (hg s).

(** The message schedule is produced while the rounds consume it: [win] is the
    window of the next sixteen words. *)
Fixpoint sha_rounds (ks : list N) (win : list N) (s : hstate) : hstate :=
  match ks with
  | [] => s
  | k :: ks' =>
      match win with
      | w0 :: ((w1 :: _) as rest) =>
          let w16 := add32 (add32 (ssig1 (nth 14 win 0)) (nth 9 win 0))
                           (add32 (ssig0 w1) w0) in
          sha_rounds ks' (rest ++ [w16]) (sha_round s k w0)
      | _ => s
      end
  end.

Definition compress (s : hstate) (block : list N) : hstate :=
  let r := sha_rounds round_constants block s in
  HState (add32 (ha s) (ha r)) (add32 (hb s) (hb r)) (add32 (hc s) (hc r))
         (add32 (hd s) (hd r)) (add32 (he s) (he r)) (add32 (hf s) (hf r))
         (add32 (hg s) (hg r)) (add32 (hh s) (hh r)).

Fixpoint be_words (bs : list N) : list N :=
  match bs with
  | a :: b :: c :: d :: bs' => a * 16777216 + b * 65536 + c * 256 + d :: be_words bs'
  | _ => []
  end.

Definition be_bytes (len : nat) (n : N) : list N :=
  map (fun i => N.land (N.shiftr n (8 * N.of_nat i)) 255) (rev (seq 0 len)).

Definition pad (bs : list N) : list N :=
  let len := length bs in
  let zeros := ((119 - len mod 64) mod 64)%nat in
  bs ++ 128 :: replicate zeros 0 ++ be_bytes 8 (8 * N.of_nat len).

Fixpoint sha_blocks (fuel : nat) (ws : list N) (s : hstate) : hstate :=
  match fuel with
  | O => s
  | S f =>
      match ws with
      | [] => s
      | _ => sha_blocks f (drop 16 ws) (compress s (take 16 ws))
      end
  end.

(** The number of words bounds the number of blocks. *)
Definition sha256_state (bs : list N) : hstate :=
  let ws := be_words (pad bs) in
  sha_blocks (length ws) ws initial_state.

Definition hex_char (n : N) : N := if n <? 10 then 48 + n else 87 + n.

Definition hex_word (w : N) : pystr :=
  map (fun i => hex_char (N.land (N.shiftr w (4 * N.of_nat i)) 15)) (rev (seq 0 8)).

Definition sha256_hex (bs : list N) : pystr :=
  let s := sha256_state bs in
  hex_word (ha s) ++ hex_word (hb s) ++ hex_word (hc s) ++ hex_word (hd s) ++
  hex_word (he s) ++ hex_word (hf s) ++ hex_word (hg s) ++ hex_word (hh s).

(** [hashlib.sha256(text.encode("utf-8")).hexdigest()] *)
Definition sha256_text (s : pystr) : pystr := sha256_hex (utf8 s).

Arguments sha256_hex : simpl never.
Arguments sha256_text : simpl never.

(** ** Facts *)

Lemma utf8_ascii s : Forall (fun c => c < 128) s -> utf8 s = s.
Proof.
  induction 1 as [|c s Hc _ IH]; [done |]. unfold utf8 in *. simpl. rewrite IH.
  unfold utf8_char. destruct (N.ltb_spec c 128); [done | lia].
Qed.

Lemma hex_char_hexdig n : n < 16 -> hexdig (hex_char n) = true.
Proof.
  intros Hn. unfold hex_char, hexdig, digit, in_range.
  change (N_of_ascii "0") with 48. change (N_of_ascii "9") with 57.
  change (N_of_ascii "a") with 97. change (N_of_ascii "f") with 102.
  destruct (N.ltb_spec n 10); apply orb_true_iff; [left | right];
    apply andb_true_iff; rewrite !N.leb_le; lia.
Qed.

Lemma hex_word_length w : length (hex_word w) = 8%nat.
Proof. done. Qed.

Lemma hex_word_hexdig w : Forall (fun a => hexdig a = true) (hex_word w).
Proof.
  unfold hex_word. apply Forall_forall. intros a (i & -> & _)%list_elem_of_fmap.
  apply hex_char_hexdig. change 15 with (N.ones 4).
  rewrite N.land_ones. apply N.mod_lt. done.
Qed.

Lemma sha256_hex_length bs : length (sha256_hex bs) = 64%nat.
Proof. unfold sha256_hex. rewrite !length_app, !hex_word_length. done. Qed.

Lemma sha256_hex_hexdig bs : Forall (fun a => hexdig a = true) (sha256_hex bs).
Proof. unfold sha256_hex. rewrite !Forall_app. repeat split; apply hex_word_hexdig. Qed.

Lemma sha256_hex_re bs : fullmatch SHA256_RE (sha256_hex bs) = true.
Proof.
  apply fullmatch_sha256. split; [apply sha256_hex_length | apply sha256_hex_hexdig].
Qed.

Lemma sha256_text_re s : fullmatch SHA256_RE (sha256_text s) = true.
Proof. apply sha256_hex_re. Qed.

(** A prefix of a digest is hexadecimal: the [digest[:24]] and [digest[:32]]
    identifiers. *)
Lemma sha256_take n s :
  (n <= 64)%nat ->
  length (take n (sha256_text s)) = n /\
  Forall (fun a => hexdig a = true) (take n (sha256_text s)).
Proof.
  intros Hn. unfold sha256_text. split.
  - rewrite length_take, sha256_hex_length. lia.
  - apply Forall_take, sha256_hex_hexdig.
Qed.

Example sha256_abc :
  sha256_text (str "abc") =
  str "ba7816bf8f01cfea414140de5dae2223b00361a396177a9cb410ff61f20015ad".
Proof. vm_compute. reflexivity. Qed.

Example sha256_empty :
  sha256_text [] =
  str "e3b0c44298fc1c149afbf4c8996fb92427ae41e4649b934ca495991b7852b855".
Proof. vm_compute. reflexivity. Qed.

Example sha256_two_blocks :
  sha256_text (str "abcdbcdecdefdefgefghfghighijhijkijkljklmklmnlmnomnopnopq") =
  str "248d6a61d20638b8e5c026930c3e6039a33ce45964ff2167f6ecedd419db06c1".
Proof. vm_compute. reflexivity. Qed.
