(* ===== verification/PyTime.v ===== *)
(** * UTC timestamps: [datetime.strptime] and [strftime]

    The broker's instants are whole UTC seconds; an instant is its epoch in
    [Z].  [strptime] follows CPython's [_strptime] for the one format of the
    broker, including the inputs that format is lenient about (one-digit
    fields, a lower-case [t] or [z], Unicode decimal digits after the first
    digit of a field).  [strptime_utc_text] is the round trip. *)

From S2P Require Import Prelude Regex.
Local Open Scope Z_scope.

(** ** The proleptic Gregorian calendar, as in [datetime] *)

Definition is_leap (y : Z) : bool :=
  (y mod 4 =? 0) && (negb (y mod 100 =? 0) || (y mod 400 =? 0)).

Definition days_before_year (y : Z) : Z :=
  let y := y - 1 in y * 365 + y / 4 - y / 100 + y / 400.

(** Days before the first of month [m] in a common year. *)
Definition dbm_common (m : Z) : Z :=
  nth (Z.to_nat m) [0; 0; 31; 59; 90; 120; 151; 181; 212; 243; 273; 304; 334] 0.

Definition days_before_month (y m : Z) : Z :=
  dbm_common m + (if (2 <? m) && is_leap y then 1 else 0).

Definition ymd2ord (y m d : Z) : Z := days_before_year y + days_before_month y m + d.

Definition dim (leap : bool) (m : Z) : Z :=
  if m =? 2 then (if leap then 29 else 28)
  else if (m =? 4) || (m =? 6) || (m =? 9) || (m =? 11) then 30 else 31.

Definition days_in_month (y m : Z) : Z := dim (is_leap y) m.

(** The month and day of the day [n], from 0, of a year: the estimate
    [(n + 50) >> 5] and its correction in [_ord2ymd]. *)
Definition doy_md (leap : bool) (n : Z) : Z * Z :=
  let before m := dbm_common m + (if (2 <? m) && leap then 1 else 0) in
  let month := Z.shiftr (n + 50) 5 in
  if n <? before month then
    let month := month - 1 in (month, n - (before (month + 1) - dim leap month) + 1)
  else (month, n - before month + 1).

(** [_ord2ymd] on the offset within a 400-year cycle; the year is the offset
    within the cycle, from 1. *)
Definition cycle_ymd (n : Z) : Z * Z * Z :=
  let n100 := n / 36524 in let n := n mod 36524 in
  let n4 := n / 1461 in let n := n mod 1461 in
  let n1 := n / 365 in let n := n mod 365 in
  let year := 1 + n100 * 100 + n4 * 4 + n1 in
  if (n1 =? 4) || (n100 =? 4) then (year - 1, 12, 31)
  else
    let leap := (n1 =? 3) && (negb (n4 =? 24) || (n100 =? 3)) in
    let '(m, d) := doy_md leap n in (year, m, d).

Definition ord2ymd (n : Z) : Z * Z * Z :=
  let '(y, m, d) := cycle_ymd ((n - 1) mod 146097) in
  (400 * ((n - 1) / 146097) + y, m, d).

(** [date(1970, 1, 1).toordinal()] *)
Definition epoch_ordinal : Z := 719163.

(** ** Formatting *)

Definition pad2 (n : Z) : pystr :=
  [(48 + Z.to_N (n / 10))%N; (48 + Z.to_N (n mod 10))%N].

(** [strftime("%Y-%m-%d")]; [%Y] is not padded. *)
Definition day_text (ord : Z) : pystr :=
  let '(y, m, d) := ord2ymd ord in
  dec y ++ str "-" ++ pad2 m ++ str "-" ++ pad2 d.

(** [utc_text]: [strftime("%Y-%m-%dT%H:%M:%SZ")]. *)
Definition utc_text (epoch : Z) : pystr :=
  let s := epoch mod 86400 in
  day_text (epoch / 86400 + epoch_ordinal) ++ str "T" ++
  pad2 (s / 3600) ++ str ":" ++ pad2 (s / 60 mod 60) ++ str ":" ++
  pad2 (s mod 60) ++ str "Z".

(** ** Parsing *)

(** The zero of every block of ten Unicode decimal digits (category Nd). *)
Definition digit_zeros : list N :=
  [48; 1632; 1776; 1984; 2406; 2534; 2662; 2790; 2918;
   3046; 3174; 3302; 3430; 3558; 3664; 3792; 3872; 4160;
   4240; 6112; 6160; 6470; 6608; 6784; 6800; 6992; 7088;
   7232; 7248; 42528; 43216; 43264; 43472; 43504; 43600; 44016;
   65296; 66720; 68912; 69734; 69872; 69942; 70096; 70384; 70736;
   70864; 71248; 71360; 71472; 71904; 72016; 72784; 73040; 73120;
   92768; 92864; 93008; 120782; 120792; 120802; 120812; 120822; 123200;
   123632; 125264; 130032]%N.

(** [int(c)] for a character that matches [\d]. *)
Definition udigit (c : N) : option Z :=
  match List.find (fun z => (z <=? c) && (c <? z + 10))%N digit_zeros with
  | Some z => Some (Z.of_N (c - z))
  | None => None
  end.

Definition adigit (lo hi c : N) : bool := ((48 + lo <=? c) && (c <=? 48 + hi))%N.

(** A field of the format: the two-character alternatives [first, any digit],
    then the one-character alternative. *)
Definition two_then_one (two : N -> N -> bool) (one : N -> bool) (s : pystr) :
    option (Z * pystr) :=
  match s with
  | a :: rest =>
      let single :=
        if one a then option_map (fun v => (v, rest)) (udigit a) else None in
      match rest with
      | b :: rest' =>
          if two a b then
            match udigit a, udigit b with
            | Some x, Some y => Some (10 * x + y, rest')
            | _, _ => single
            end
          else single
      | [] => single
      end
  | [] => None
  end.

Definition isdigit (c : N) : bool := match udigit c with Some _ => true | None => false end.

(** [%m]: [1[0-2]|0[1-9]|[1-9]] *)
Definition field_m : pystr -> option (Z * pystr) :=
  two_then_one (fun a b => (adigit 1 1 a && adigit 0 2 b) || (adigit 0 0 a && adigit 1 9 b))
    (adigit 1 9).
(** [%d]: [3[0-1]|[1-2]\d|0[1-9]|[1-9]| [1-9]] *)
Definition field_d (s : pystr) : option (Z * pystr) :=
  match s with
  | 32%N :: b :: rest => if adigit 1 9 b then option_map (fun v => (v, rest)) (udigit b) else None
  | _ =>
      two_then_one (fun a b => (adigit 3 3 a && adigit 0 1 b) || (adigit 1 2 a && isdigit b) ||
                               (adigit 0 0 a && adigit 1 9 b))
        (adigit 1 9) s
  end.
(** [%H]: [2[0-3]|[0-1]\d|\d] *)
Definition field_H : pystr -> option (Z * pystr) :=
  two_then_one (fun a b => (adigit 2 2 a && adigit 0 3 b) || (adigit 0 1 a && isdigit b)) isdigit.
(** [%M]: [[0-5]\d|\d] *)
Definition field_M : pystr -> option (Z * pystr) :=
  two_then_one (fun a b => adigit 0 5 a && isdigit b) isdigit.
(** [%S]: [6[0-1]|[0-5]\d|\d] *)
Definition field_S : pystr -> option (Z * pystr) :=
  two_then_one (fun a b => (adigit 6 6 a && adigit 0 1 b) || (adigit 0 5 a && isdigit b)) isdigit.
(** [%Y]: [\d\d\d\d] *)
Definition field_Y (s : pystr) : option (Z * pystr) :=
  match s with
  | a :: b :: c :: d :: rest =>
      match udigit a, udigit b, udigit c, udigit d with
      | Some x, Some y, Some z, Some w => Some (1000 * x + 100 * y + 10 * z + w, rest)
      | _, _, _, _ => None
      end
  | _ => None
  end.

(** A literal of the format; [_strptime] compiles it with [IGNORECASE]. *)
Definition lit (c c' : ascii) (s : pystr) : option pystr :=
  match s with
  | a :: rest => if ((a =? N_of_ascii c) || (a =? N_of_ascii c'))%N then Some rest else None
  | [] => None
  end.

Definition valid_date (y m d : Z) : bool := (1 <=? y) && (d <=? days_in_month y m).

(** [datetime.strptime(s, "%Y-%m-%dT%H:%M:%SZ")] as an epoch; [None] is
    [ValueError]. *)
Definition strptime (s : pystr) : option Z :=
  '(y, s) ← field_Y s; s ← lit "-" "-" s;
  '(m, s) ← field_m s; s ← lit "-" "-" s;
  '(d, s) ← field_d s; s ← lit "T" "t" s;
  '(hh, s) ← field_H s; s ← lit ":" ":" s;
  '(mm, s) ← field_M s; s ← lit ":" ":" s;
  '(ss, s) ← field_S s; s ← lit "Z" "z" s;
  match s with
  | [] =>
      if valid_date y m d && (ss <=? 59) then
        Some ((ymd2ord y m d - epoch_ordinal) * 86400 + hh * 3600 + mm * 60 + ss)
      else None
  | _ => None
  end.

(** [datetime.strptime(s, "%Y-%m-%d")]: the epoch of that midnight. *)
Definition strptime_day (s : pystr) : option Z :=
  '(y, s) ← field_Y s; s ← lit "-" "-" s;
  '(m, s) ← field_m s; s ← lit "-" "-" s;
  '(d, s) ← field_d s;
  match s with
  | [] => if valid_date y m d then Some ((ymd2ord y m d - epoch_ordinal) * 86400) else None
  | _ => None
  end.

(** [f] holds on the [fuel] integers from [lo]. *)
Fixpoint forall_up (f : Z -> bool) (fuel : nat) (lo : Z) : bool :=
  match fuel with
  | O => true
  | S k => f lo && forall_up f k (lo + 1)
  end.

(** The instants whose year has four digits, written without padding. *)
Definition in_clock_range (e : Z) : Prop := -30610224000 <= e < 253402300800.

(** ** The calendar inverts *)

#[local] Ltac Zify.zify_post_hook ::= Z.to_euclidean_division_equations.

Lemma forall_up_spec (f : Z -> bool) (fuel : nat) (lo : Z) :
  forall_up f fuel lo = true -> forall n, lo <= n < lo + Z.of_nat fuel -> f n = true.
Proof.
  revert lo; induction fuel as [|k IH]; intros lo H n Hn; [lia |]. simpl in H.
  apply andb_true_iff in H as [H0 H1].
  destruct (decide (n = lo)) as [->|]; [done |]. apply (IH _ H1). lia.
Qed.

(** Every day of a common and of a leap year. *)
Definition doy_ok (leap : bool) (n : Z) : bool :=
  let '(m, d) := doy_md leap n in
  (1 <=? m) && (m <=? 12) && (1 <=? d) && (d <=? dim leap m) &&
  (dbm_common m + (if (2 <? m) && leap then 1 else 0) + d =? n + 1).

Lemma doy_md_ok (leap : bool) (n : Z) :
  0 <= n < (if leap then 366 else 365) -> doy_ok leap n = true.
Proof.
  intros Hn. destruct leap.
  - apply (forall_up_spec (doy_ok true) (Z.to_nat 366) 0); [vm_compute; reflexivity | lia].
  - apply (forall_up_spec (doy_ok false) (Z.to_nat 365) 0); [vm_compute; reflexivity | lia].
Qed.

Lemma doy_md_spec (leap : bool) (n m d : Z) :
  0 <= n < (if leap then 366 else 365) -> doy_md leap n = (m, d) ->
  1 <= m <= 12 /\ 1 <= d <= dim leap m /\
  dbm_common m + (if (2 <? m) && leap then 1 else 0) + d = n + 1.
Proof.
  intros Hn E. pose proof (doy_md_ok leap n Hn) as H. unfold doy_ok in H. rewrite E in H.
  rewrite !andb_true_iff, !Z.leb_le, Z.eqb_eq in H. tauto.
Qed.

(** The years of a cycle: [n1], [n4], [n100] locate a year and its leap rule. *)
Lemma cycle_year n100 n4 n1 :
  0 <= n100 < 4 -> 0 <= n4 < 25 -> 0 <= n1 < 4 ->
  days_before_year (1 + n100 * 100 + n4 * 4 + n1) = 36524 * n100 + 1461 * n4 + 365 * n1 /\
  is_leap (1 + n100 * 100 + n4 * 4 + n1) =
    (n1 =? 3) && (negb (n4 =? 24) || (n100 =? 3)).
Proof.
  intros H1 H2 H3. unfold days_before_year, is_leap. split.
  - cbv zeta. replace (1 + n100 * 100 + n4 * 4 + n1 - 1) with (n100 * 100 + n4 * 4 + n1) by ring.
    assert ((n100 * 100 + n4 * 4 + n1) / 4 = 25 * n100 + n4) as -> by lia.
    assert ((n100 * 100 + n4 * 4 + n1) / 100 = n100) as -> by lia.
    assert ((n100 * 100 + n4 * 4 + n1) / 400 = 0) as -> by lia. lia.
  - apply eq_true_iff_eq.
    rewrite !andb_true_iff, !orb_true_iff, !negb_true_iff, !Z.eqb_neq, !Z.eqb_eq. lia.
Qed.

Lemma cycle_ymd_spec n y m d :
  0 <= n < 146097 -> cycle_ymd n = (y, m, d) ->
  1 <= y <= 400 /\ 1 <= m <= 12 /\ 1 <= d <= days_in_month y m /\ ymd2ord y m d = n + 1.
Proof.
  intros Hn. unfold cycle_ymd, ymd2ord, days_before_month, days_in_month.
  set (n100 := n / 36524). set (r1 := n mod 36524).
  set (n4 := r1 / 1461). set (r4 := r1 mod 1461). set (n1 := r4 / 365). set (r := r4 mod 365).
  assert (Hd : n = 36524 * n100 + 1461 * n4 + 365 * n1 + r) by (subst r n1 r4 n4 r1 n100; lia).
  assert (Hr : 0 <= r < 365) by (subst r; lia).
  assert (H1 : 0 <= n1 <= 4 /\ 0 <= n4 <= 24 /\ 0 <= n100 <= 4)
    by (subst r n1 r4 n4 r1 n100; lia).
  assert (H2 : 0 <= r4 < 1461 /\ 0 <= r1 < 36524) by (subst r4 r1; lia).
  assert (H3 : r4 = 365 * n1 + r /\ r1 = 1461 * n4 + r4) by (subst r n1 r4 n4 r1; lia).
  destruct (Z.eqb_spec n1 4) as [E1|E1]; [|destruct (Z.eqb_spec n100 4) as [E2|E2]]; simpl orb;
    cbv iota.
  - intros [= <- <- <-]. replace (1 + n100 * 100 + n4 * 4 + n1 - 1)
      with (1 + n100 * 100 + n4 * 4 + 3) by lia.
    destruct (cycle_year n100 n4 3) as [-> ->]; [lia..|].
    assert (E4 : n4 <> 24 \/ n100 = 3) by lia.
    replace ((3 =? 3) && (negb (n4 =? 24) || (n100 =? 3))) with true by lia.
    change (dbm_common 12) with 334. change (dim true 12) with 31. simpl. lia.
  - intros [= <- <- <-]. replace (1 + n100 * 100 + n4 * 4 + n1 - 1)
      with (1 + 3 * 100 + 24 * 4 + 3) by lia.
    destruct (cycle_year 3 24 3) as [-> ->]; [lia..|].
    change (dbm_common 12) with 334. change (dim _ 12) with 31. simpl. lia.
  - destruct (doy_md _ r) as [m' d'] eqn:E. intros [= <- <- <-].
    destruct (cycle_year n100 n4 n1) as [-> ->]; [lia..|].
    apply doy_md_spec in E as (? & ? & ?); [lia | case_match; lia].
Qed.

Lemma is_leap_shift k y : is_leap (400 * k + y) = is_leap y.
Proof.
  unfold is_leap.
  replace (400 * k + y) with (y + (100 * k) * 4) at 1 by ring. rewrite Z.mod_add by lia.
  replace (400 * k + y) with (y + (4 * k) * 100) at 1 by ring. rewrite Z.mod_add by lia.
  replace (400 * k + y) with (y + k * 400) by ring. by rewrite Z.mod_add by lia.
Qed.

Lemma ymd2ord_shift k y m d : ymd2ord (400 * k + y) m d = 146097 * k + ymd2ord y m d.
Proof.
  unfold ymd2ord, days_before_month, days_before_year. rewrite is_leap_shift.
  replace (400 * k + y - 1) with (y - 1 + (100 * k) * 4) at 2 by ring.
  rewrite Z.div_add by lia.
  replace (400 * k + y - 1) with (y - 1 + (4 * k) * 100) at 2 by ring.
  rewrite Z.div_add by lia.
  replace (400 * k + y - 1) with (y - 1 + k * 400) at 2 by ring.
  rewrite Z.div_add by lia. ring.
Qed.

Lemma ord2ymd_spec n y m d :
  ord2ymd n = (y, m, d) ->
  ymd2ord y m d = n /\ 1 <= m <= 12 /\ 1 <= d <= days_in_month y m /\
  400 * ((n - 1) / 146097) < y <= 400 * ((n - 1) / 146097) + 400.
Proof.
  unfold ord2ymd. pose proof (Z.mod_pos_bound (n - 1) 146097 ltac:(lia)) as Hr.
  destruct (cycle_ymd _) as [[y0 m0] d0] eqn:E. intros [= <- -> ->].
  apply cycle_ymd_spec in E as (Hy & Hm & Hd & Ho); [|done].
  rewrite ymd2ord_shift. unfold days_in_month in *. rewrite is_leap_shift.
  pose proof (Z.div_mod (n - 1) 146097). lia.
Qed.

(** ** Formatting then parsing *)

(** A bounded integer is a bounded natural, which case analysis enumerates. *)
Lemma Z_to_nat_bound (P : Z -> Prop) (k : nat) :
  (forall i, (i < k)%nat -> P (Z.of_nat i)) -> forall n, 0 <= n < Z.of_nat k -> P n.
Proof.
  intros H n Hn. rewrite <- (Z2Nat.id n) by lia. apply H. lia.
Qed.

Lemma field_M_pad2 s n : 0 <= n < 60 -> field_M (pad2 n ++ s) = Some (n, s).
Proof.
  revert n. apply (Z_to_nat_bound _ 60). intros i Hi.
  do 60 (destruct i as [|i]; [reflexivity |]). lia.
Qed.

Lemma field_S_pad2 s n : 0 <= n < 60 -> field_S (pad2 n ++ s) = Some (n, s).
Proof.
  revert n. apply (Z_to_nat_bound _ 60). intros i Hi.
  do 60 (destruct i as [|i]; [reflexivity |]). lia.
Qed.

Lemma field_H_pad2 s n : 0 <= n < 24 -> field_H (pad2 n ++ s) = Some (n, s).
Proof.
  revert n. apply (Z_to_nat_bound _ 24). intros i Hi.
  do 24 (destruct i as [|i]; [reflexivity |]). lia.
Qed.

Lemma field_m_pad2 s n : 1 <= n <= 12 -> field_m (pad2 n ++ s) = Some (n, s).
Proof.
  intros Hn. cut (0 <= n < 13); [|lia]. revert Hn. revert n.
  refine (fun n H1 H2 => Z_to_nat_bound (fun n => 1 <= n <= 12 -> _) 13 _ n H2 H1).
  intros i Hi H. destruct i as [|i]; [lia |].
  do 12 (destruct i as [|i]; [reflexivity |]). lia.
Qed.

Lemma field_d_pad2 s n : 1 <= n <= 31 -> field_d (pad2 n ++ s) = Some (n, s).
Proof.
  intros Hn. cut (0 <= n < 32); [|lia]. revert Hn. revert n.
  refine (fun n H1 H2 => Z_to_nat_bound (fun n => 1 <= n <= 31 -> _) 32 _ n H2 H1).
  intros i Hi H. destruct i as [|i]; [lia |].
  do 31 (destruct i as [|i]; [reflexivity |]). lia.
Qed.

Lemma udigit_ascii n : 0 <= n < 10 -> udigit (48 + Z.to_N n) = Some n.
Proof.
  revert n. apply (Z_to_nat_bound _ 10). intros i Hi.
  do 10 (destruct i as [|i]; [reflexivity |]). lia.
Qed.

Lemma dec_four y :
  1000 <= y <= 9999 ->
  dec y = [(48 + Z.to_N (y / 10 / 10 / 10))%N; (48 + Z.to_N (y / 10 / 10 mod 10))%N;
           (48 + Z.to_N (y / 10 mod 10))%N; (48 + Z.to_N (y mod 10))%N].
Proof.
  intros Hy. unfold dec. destruct (Z.ltb_spec y 0); [lia |].
  rewrite nat_text_step, nat_text_step, nat_text_step by lia.
  rewrite nat_text_small by lia. done.
Qed.

Lemma field_Y_dec s y : 1000 <= y <= 9999 -> field_Y (dec y ++ s) = Some (y, s).
Proof.
  intros Hy. rewrite dec_four by done. cbn [app field_Y].
  rewrite !udigit_ascii by lia. do 2 f_equal. lia.
Qed.

Lemma lit_str c c' s : lit c c' (str (String c EmptyString) ++ s) = Some s.
Proof. unfold lit, str. cbn [list_ascii_of_string map app]. by rewrite N.eqb_refl. Qed.

Lemma dim_le leap m : dim leap m <= 31.
Proof. unfold dim. repeat case_match; lia. Qed.

Lemma month_end leap m :
  1 <= m <= 12 ->
  0 <= dbm_common m /\
  dbm_common m + (if (2 <? m) && leap then 1 else 0) + dim leap m <=
    (if leap then 366 else 365).
Proof.
  intros Hm. cut (0 <= m < 13); [|lia]. revert Hm. revert m.
  refine (fun n H1 H2 => Z_to_nat_bound (fun n => 1 <= n <= 12 -> _) 13 _ n H2 H1).
  intros i Hi H. destruct i as [|i]; [lia |].
  do 12 (destruct i as [|i]; [destruct leap; vm_compute; split; discriminate |]). lia.
Qed.

(** The year of an instant of the clock range has four digits. *)
Lemma clock_year e y m d :
  in_clock_range e -> ord2ymd (e / 86400 + epoch_ordinal) = (y, m, d) -> 1000 <= y <= 9999.
Proof.
  intros [Hlo Hhi] (Ho & Hm & Hd & Hy)%ord2ymd_spec.
  assert (Hb : 364878 <= e / 86400 + epoch_ordinal <= 3652059) by (unfold epoch_ordinal; lia).
  revert Ho. unfold ymd2ord, days_before_month. unfold days_in_month in Hd.
  pose proof (month_end (is_leap y) m Hm) as [H0 H1].
  unfold days_before_year. cbv zeta. intros Ho.
  assert (0 <= (if (2 <? m) && is_leap y then 1 else 0)) by (case_match; lia).
  assert (is_leap y = true -> y mod 4 = 0) as Hleap.
  { unfold is_leap. rewrite andb_true_iff, Z.eqb_eq. tauto. }
  destruct (is_leap y); [specialize (Hleap eq_refl) | clear Hleap]; lia.
Qed.

Ltac step := cbn [mbind option_bind].

Lemma strptime_utc_text e : in_clock_range e -> strptime (utc_text e) = Some e.
Proof.
  intros He. unfold utc_text, day_text.
  destruct (ord2ymd _) as [[y m] d] eqn:E. pose proof (clock_year _ _ _ _ He E) as Hy.
  apply ord2ymd_spec in E as (Ho & Hm & Hd & _). pose proof (dim_le (is_leap y) m).
  unfold days_in_month in Hd. rewrite <- !app_assoc. unfold strptime.
  rewrite field_Y_dec by done. step. rewrite lit_str. step.
  rewrite field_m_pad2 by done. step. rewrite lit_str. step.
  rewrite field_d_pad2 by lia. step. rewrite lit_str. step.
  rewrite field_H_pad2 by lia. step. rewrite lit_str. step.
  rewrite field_M_pad2 by lia. step. rewrite lit_str. step.
  rewrite field_S_pad2 by lia. step.
  rewrite <- (app_nil_r (str "Z")), lit_str. step.
  unfold valid_date, days_in_month.
  destruct (Z.leb_spec 1 y), (Z.leb_spec d (dim (is_leap y) m)),
    (Z.leb_spec ((e mod 86400) mod 60) 59); simpl; try lia.
  f_equal. rewrite Ho. lia.
Qed.

Lemma strptime_day_text e :
  in_clock_range e ->
  strptime_day (day_text (e / 86400 + epoch_ordinal)) = Some (e / 86400 * 86400).
Proof.
  intros He. unfold day_text.
  destruct (ord2ymd _) as [[y m] d] eqn:E. pose proof (clock_year _ _ _ _ He E) as Hy.
  apply ord2ymd_spec in E as (Ho & Hm & Hd & _). pose proof (dim_le (is_leap y) m).
  unfold days_in_month in Hd. rewrite <- ?app_assoc. unfold strptime_day.
  rewrite field_Y_dec by done. step. rewrite lit_str. step.
  rewrite field_m_pad2 by done. step. rewrite lit_str. step.
  rewrite <- (app_nil_r (pad2 d)), field_d_pad2 by lia. step.
  unfold valid_date, days_in_month.
  destruct (Z.leb_spec 1 y), (Z.leb_spec d (dim (is_leap y) m)); simpl; try lia.
  f_equal. rewrite Ho. lia.
Qed.

(** ** Parsing gives an instant of the calendar *)

Lemma udigit_bound c v : udigit c = Some v -> 0 <= v <= 9.
Proof.
  unfold udigit. destruct (List.find _ _) as [z|] eqn:E; [|done]. intros [= <-].
  apply find_some in E as [_ E]. apply andb_true_iff in E as [E1 E2].
  apply N.leb_le in E1. apply N.ltb_lt in E2. lia.
Qed.

Lemma adigit_bound lo hi c v :
  (hi <= 9)%N -> adigit lo hi c = true -> udigit c = Some v -> Z.of_N lo <= v <= Z.of_N hi.
Proof.
  unfold adigit. rewrite andb_true_iff, !N.leb_le. intros Hhi [H1 H2] Hv.
  unfold udigit, digit_zeros in Hv. cbn [List.find] in Hv.
  rewrite (proj2 (N.leb_le 48 c)), (proj2 (N.ltb_lt c (48 + 10))) in Hv by lia.
  injection Hv as <-. lia.
Qed.

Lemma two_then_one_bound two one lo hi s v rest :
  (forall a b x y, two a b = true -> udigit a = Some x -> udigit b = Some y ->
     lo <= 10 * x + y <= hi) ->
  (forall a x, one a = true -> udigit a = Some x -> lo <= x <= hi) ->
  two_then_one two one s = Some (v, rest) -> lo <= v <= hi.
Proof.
  intros H2 H1. destruct s as [|a [|b s]]; [done | |]; simpl.
  - destruct (one a) eqn:Ea; [|done]. destruct (udigit a) eqn:Ua; [|done].
    intros [= <- _]. eauto.
  - assert (Hs : (if one a then option_map (fun v => (v, b :: s)) (udigit a) else None) =
                 Some (v, rest) -> lo <= v <= hi).
    { destruct (one a) eqn:Ea; [|done]. destruct (udigit a) eqn:Ua; [|done].
      intros [= <- _]. eauto. }
    destruct (two a b) eqn:Eb; [|done].
    destruct (udigit a) eqn:Ua; [|done]. destruct (udigit b) eqn:Ub; [|done].
    intros [= <- _]. eauto.
Qed.

(** Bounds of the characters and digits at hand. *)
Ltac digit_bounds :=
  cbv beta in *;
  repeat match goal with
  | H : _ || _ = true |- _ => apply orb_true_iff in H as [H|H]
  | H : _ && _ = true |- _ => apply andb_true_iff in H as [? ?]
  | H : adigit ?lo ?hi ?c = true, H' : udigit ?c = Some ?v |- _ =>
      pose proof (adigit_bound lo hi c v ltac:(lia) H H'); clear H
  end;
  repeat match goal with
  | H : udigit _ = Some _ |- _ => apply udigit_bound in H
  end; lia.

Lemma field_m_bound s v r : field_m s = Some (v, r) -> 1 <= v <= 12.
Proof. apply two_then_one_bound; intros; digit_bounds. Qed.

Lemma field_d_bound s v r : field_d s = Some (v, r) -> 1 <= v <= 31.
Proof.
  assert (H : forall s, two_then_one (fun a b => (adigit 3 3 a && adigit 0 1 b) ||
      (adigit 1 2 a && isdigit b) || (adigit 0 0 a && adigit 1 9 b)) (adigit 1 9) s = Some (v, r) ->
    1 <= v <= 31) by (intros s'; apply two_then_one_bound; intros; digit_bounds).
  unfold field_d. destruct s as [|a s]; [done |].
  destruct (decide (a = 32%N)) as [->|Ha].
  - destruct s as [|b s]; [done |].
    destruct (adigit 1 9 b) eqn:Eb; [|done]. destruct (udigit b) eqn:Ub; [|done].
    intros [= <- _]. digit_bounds.
  - intros Hs. apply (H (a :: s)). rewrite <- Hs. clear -Ha.
    repeat (destruct a as [|a]; try done). all: repeat (case_match; try done).
Qed.

Lemma field_H_bound s v r : field_H s = Some (v, r) -> 0 <= v <= 23.
Proof. apply two_then_one_bound; intros; digit_bounds. Qed.

Lemma field_M_bound s v r : field_M s = Some (v, r) -> 0 <= v <= 59.
Proof. apply two_then_one_bound; intros; digit_bounds. Qed.

Lemma field_S_bound s v r : field_S s = Some (v, r) -> 0 <= v.
Proof.
  intros H. cut (0 <= v <= 61); [lia |]. revert H.
  apply two_then_one_bound; intros; digit_bounds.
Qed.

Lemma field_Y_bound s v r : field_Y s = Some (v, r) -> v <= 9999.
Proof.
  unfold field_Y. destruct s as [|a [|b [|c [|d s]]]]; try done.
  destruct (udigit a) eqn:?, (udigit b) eqn:?, (udigit c) eqn:?, (udigit d) eqn:?; try done.
  intros [= <- _]. digit_bounds.
Qed.

(** Years 1 to 9999. *)
Definition in_datetime_range (e : Z) : Prop := -62135596800 <= e < 253402300800.

Lemma ymd2ord_range y m d :
  1 <= y <= 9999 -> 1 <= m <= 12 -> 1 <= d <= days_in_month y m -> 1 <= ymd2ord y m d <= 3652059.
Proof.
  intros Hy Hm Hd. unfold ymd2ord, days_before_month. unfold days_in_month in Hd.
  pose proof (month_end (is_leap y) m Hm) as [H0 H1]. unfold days_before_year. cbv zeta.
  assert (0 <= (if (2 <? m) && is_leap y then 1 else 0)) by (case_match; lia).
  assert (is_leap y = true -> y mod 4 = 0) as Hleap.
  { unfold is_leap. rewrite andb_true_iff, Z.eqb_eq. tauto. }
  destruct (is_leap y); [specialize (Hleap eq_refl) | clear Hleap]; lia.
Qed.

Lemma strptime_range s e : strptime s = Some e -> in_datetime_range e.
Proof.
  unfold strptime. intros H.
  repeat match type of H with
  | mbind _ ?o = Some _ =>
      let E := fresh "E" in let p := fresh "p" in
      destruct o as [p|] eqn:E; [|discriminate H]; cbn [mbind option_bind] in H;
      try match type of p with (_ * _)%type => destruct p end
  end.
  case_match; [|done]. destruct (valid_date _ _ _ && _) eqn:Ev; [|done].
  apply andb_true_iff in Ev as [Ev Hs]. unfold valid_date in Ev.
  apply andb_true_iff in Ev as [Hy Hd]. apply Z.leb_le in Hy, Hd, Hs. injection H as <-.
  repeat match goal with
  | E : field_Y _ = _ |- _ => apply field_Y_bound in E
  | E : field_m _ = _ |- _ => apply field_m_bound in E
  | E : field_d _ = _ |- _ => apply field_d_bound in E
  | E : field_H _ = _ |- _ => apply field_H_bound in E
  | E : field_M _ = _ |- _ => apply field_M_bound in E
  | E : field_S _ = _ |- _ => apply field_S_bound in E
  end.
  match goal with |- context [ymd2ord ?y ?m ?d] =>
    pose proof (ymd2ord_range y m d ltac:(lia) ltac:(lia) ltac:(lia)) end.
  unfold in_datetime_range, epoch_ordinal. lia.
Qed.

(** A year below 1000 is written with fewer than four digits, which [%Y] does
    not read. *)
Lemma field_Y_short n s : 0 <= n < 1000 -> field_Y (dec n ++ 45%N :: s) = None.
Proof.
  intros Hn. unfold dec. destruct (Z.ltb_spec n 0); [lia |].
  assert (Hu : udigit 45 = None) by reflexivity.
  destruct (Z.lt_ge_cases n 10); [|destruct (Z.lt_ge_cases n 100)].
  - rewrite nat_text_small by lia. destruct s as [|b [|c s]]; try done.
    cbn [app field_Y]. rewrite Hu. by case_match.
  - rewrite nat_text_step, nat_text_small by lia. destruct s as [|b s]; try done.
    cbn [app field_Y]. rewrite Hu. by repeat case_match.
  - rewrite nat_text_step, nat_text_step, nat_text_small by lia.
    cbn [app field_Y]. rewrite Hu. by repeat case_match.
Qed.

(** A parsed timestamp that is formatted and parsed again is in the clock
    range, so both readings agree. *)
Lemma strptime_stable e e' :
  in_datetime_range e -> strptime (utc_text e) = Some e' -> in_clock_range e /\ e' = e.
Proof.
  intros [Hlo Hhi] H. destruct (Z.lt_ge_cases e (-30610224000)) as [He|He].
  - exfalso. unfold utc_text, day_text in H.
    destruct (ord2ymd _) as [[y m] d] eqn:E.
    assert (Hy : 0 <= y < 1000).
    { apply ord2ymd_spec in E as (Ho & Hm & Hd & Hc). unfold epoch_ordinal in *.
      assert (Hr : 1 <= e / 86400 + 719163 <= 364877) by lia.
      revert Ho. unfold ymd2ord, days_before_month. unfold days_in_month in Hd.
      pose proof (month_end (is_leap y) m Hm) as [H0 H1]. unfold days_before_year. cbv zeta.
      assert (0 <= (if (2 <? m) && is_leap y then 1 else 0)) by (case_match; lia). lia. }
    revert H. rewrite <- !app_assoc. change (str "-") with [45%N]. cbn [app].
    unfold strptime. rewrite field_Y_short by done. done.
  - assert (in_clock_range e) as Hc by done. split; [done |].
    rewrite strptime_utc_text in H by done. congruence.
Qed.

(** ** The text of an instant is plain ASCII *)

Lemma nat_text_plain n : 0 <= n -> Forall plain (nat_text n).
Proof.
  intros Hn. destruct (nat_text_digits n Hn) as [H _]. eapply Forall_impl; [exact H |].
  intros c Hc. unfold is_digit_char in Hc. rewrite andb_true_iff, !N.leb_le in Hc.
  unfold plain. lia.
Qed.

Lemma dec_plain n : Forall plain (dec n).
Proof.
  unfold dec. destruct (Z.ltb_spec n 0); [|by apply nat_text_plain].
  apply Forall_app. split; [by apply plain_str | apply nat_text_plain; lia].
Qed.

Lemma pad2_plain n : 0 <= n < 100 -> Forall plain (pad2 n).
Proof.
  intros Hn. unfold pad2. assert (H1 : 0 <= n / 10 < 10) by lia.
  assert (H2 : 0 <= n mod 10 < 10) by lia.
  generalize dependent (n / 10). generalize dependent (n mod 10). intros r Hr q Hq.
  apply Forall_cons; split; [unfold plain; lia |].
  apply Forall_singleton. unfold plain. lia.
Qed.

Lemma day_text_plain ord : Forall plain (day_text ord).
Proof.
  unfold day_text. destruct (ord2ymd ord) as [[y m] d] eqn:E.
  apply ord2ymd_spec in E as (_ & Hm & Hd & _). pose proof (dim_le (is_leap y) m).
  unfold days_in_month in Hd.
  repeat apply Forall_app_2; try (by apply plain_str); [apply dec_plain | |];
    apply pad2_plain; lia.
Qed.

Lemma utc_text_plain e : Forall plain (utc_text e).
Proof.
  unfold utc_text.
  repeat apply Forall_app_2; try (by apply plain_str); [apply day_text_plain | | |];
    apply pad2_plain; lia.
Qed.

(** ** The length of the text of an instant *)

Lemma day_text_length y m d : 1000 <= y <= 9999 -> length (dec y ++ str "-" ++ pad2 m ++ str "-" ++ pad2 d) = 10%nat.
Proof. intros Hy. rewrite dec_four by done. done. Qed.

Lemma utc_text_length e : in_clock_range e -> length (utc_text e) = 20%nat.
Proof.
  intros He. unfold utc_text, day_text.
  destruct (ord2ymd _) as [[y m] d] eqn:E. pose proof (clock_year _ _ _ _ He E) as Hy.
  rewrite length_app, day_text_length by done. done.
Qed.
