(* ===== verification/PyUrl.v ===== *)
(** * Paths and URLs

    What broker/john_lomein_broker_protocol.py uses of the standard library's
    path and URL parsers: [pathlib.PurePosixPath] (its normal text, [parent],
    [relative_to]), [os.fsencode] and [urllib.parse.urlparse] with the netloc
    checks that make it raise. *)

From S2P Require Import Prelude Regex.
Local Open Scope N_scope.

(** ** Splitting *)

Definition ch_of (a : ascii) : N := N_of_ascii a.

(** [s.partition(c)]: [None] when the separator is absent. *)
Fixpoint cut (c : N) (s : pystr) : option (pystr * pystr) :=
  match s with
  | [] => None
  | a :: s' =>
      if (a =? c) then Some ([], s')
      else match cut c s' with Some (x, y) => Some (a :: x, y) | None => None end
  end.

(** [s.rpartition(c)] *)
Fixpoint rcut (c : N) (s : pystr) : option (pystr * pystr) :=
  match s with
  | [] => None
  | a :: s' =>
      match rcut c s' with
      | Some (x, y) => Some (a :: x, y)
      | None => if (a =? c) then Some ([], s') else None
      end
  end.

(** [s.split(c)] *)
Fixpoint split_on (c : N) (s : pystr) : list pystr :=
  match s with
  | [] => [[]]
  | a :: s' =>
      match split_on c s' with
      | p :: ps => if (a =? c) then [] :: p :: ps else (a :: p) :: ps
      | [] => [[a]]
      end
  end.

Definition has (c : ascii) (s : pystr) : bool := existsb (N.eqb (ch_of c)) s.

(** [s.startswith(p)], [s.endswith(p)] *)
Definition startswith (s p : pystr) : bool := bool_decide (take (length p) s = p).
Definition endswith (s p : pystr) : bool :=
  (length p <=? length s)%nat && bool_decide (drop (length s - length p) s = p).

(** [s.lower()] on ASCII.  No other character lowers to a hexadecimal digit or
    to a letter of ["https"] or ["github.com"], the only texts it is compared
    with. *)
Definition lower_char (a : N) : N := if upper a then a + 32 else a.
Definition lower_text (s : pystr) : pystr := map lower_char s.

(** ** [pathlib.PurePosixPath] *)

(** The root, one slash or exactly two, and the other components. *)
Record path := Path { root : pystr; parts : list pystr }.

#[global] Instance path_eq_dec : EqDecision path.
Proof. solve_decision. Defined.

Definition path_root (s : pystr) : pystr :=
  if startswith s (str "//") && negb (startswith s (str "///")) then str "//"
  else if startswith s (str "/") then str "/"
  else [].

(** [Path(s)]: empty components and single dots are dropped. *)
Definition path_of (s : pystr) : path :=
  Path (path_root s)
    (List.filter (fun p => negb (bool_decide (p = []) || bool_decide (p = str ".")))
       (split_on (ch_of "/") s)).

Fixpoint join_parts (l : list pystr) : pystr :=
  match l with
  | [] => []
  | [p] => p
  | p :: l' => p ++ str "/" ++ join_parts l'
  end.

(** [str(path)] of an absolute path *)
Definition path_text (p : path) : pystr := p.(root) ++ join_parts p.(parts).

Definition is_absolute (p : path) : bool := negb (bool_decide (p.(root) = [])).

(** [path.parent]: the root is its own parent. *)
Definition parent (p : path) : path := Path p.(root) (removelast p.(parts)).

(** [path.relative_to(other)] does not raise. *)
Definition path_within (p other : path) : bool :=
  bool_decide (p.(root) = other.(root)) &&
  bool_decide (take (length other.(parts)) p.(parts) = other.(parts)).

(** [os.fsencode]: UTF-8, where the surrogates of undecodable bytes give the
    byte back and any other surrogate is an encoding error. *)
Definition fsencode_char (c : N) : option N :=
  if (c <? 128) then Some 1
  else if (c <? 2048) then Some 2
  else if (56448 <=? c) && (c <=? 56575) then Some 1
  else if (55296 <=? c) && (c <=? 57343) then None
  else if (c <? 65536) then Some 3
  else Some 4.

(** [len(os.fsencode(s))] *)
Fixpoint fsencode_len (s : pystr) : res Z :=
  match s with
  | [] => Ok 0%Z
  | c :: s' =>
      match fsencode_char c with
      | None => Raise (ValueError "surrogates not allowed")
      | Some n => let* m := fsencode_len s' in Ok (Z.of_N n + m)%Z
      end
  end.

(** ** [ipaddress.IPv6Address], for a host in brackets *)

Definition any_hex (a : N) : bool := hexdig a || in_range "A" "F" a.

(** [_parse_octet] does not raise. *)
Definition octet_ok (s : pystr) : bool :=
  match s with
  | [] => false
  | a :: s' =>
      forallb digit s && (length s <=? 3)%nat &&
      ((bool_decide (s' = [])) || negb (a =? 48)) &&
      (fold_left (fun acc c => 10 * acc + (c - 48)) s 0 <=? 255)
  end.

Definition ipv4_ok (s : pystr) : bool :=
  let octets := split_on (ch_of ".") s in
  (length octets =? 4)%nat && forallb octet_ok octets.

(** [_parse_hextet]: an empty text is refused by [int(text, 16)]. *)
Definition hextet_ok (s : pystr) : bool :=
  negb (bool_decide (s = [])) && forallb any_hex s && (length s <=? 4)%nat.

(** The indices of the empty parts strictly inside the list. *)
Fixpoint empty_inside (i : nat) (l : list pystr) : list nat :=
  match l with
  | [] | [_] => []
  | p :: l' => (if bool_decide (p = []) then [i] else []) ++ empty_inside (S i) l'
  end.

(** [_ip_int_from_string] after the IPv4 suffix has been replaced. *)
Definition hextets_ok (l : list pystr) : bool :=
  if (9 <? length l)%nat then false
  else match empty_inside 1 (tail l) with
  | _ :: _ :: _ => false
  | [i] =>
      let first := bool_decide (hd [] l = []) in
      let final := bool_decide (List.last l [] = []) in
      let hi := if first then (i - 1)%nat else i in
      let lo := (length l - i - 1 - (if final then 1 else 0))%nat in
      negb (first && negb (hi =? 0)%nat) && negb (final && negb (lo =? 0)%nat) &&
      (hi + lo <? 8)%nat &&
      forallb hextet_ok (take hi l) && forallb hextet_ok (take lo (drop (S i) l))
  | [] => (length l =? 8)%nat && forallb hextet_ok l
  end.

Definition ipv6_ok (s : pystr) : bool :=
  let addr := match cut (ch_of "%") s with
    | None => Some s
    | Some (a, scope) =>
        if bool_decide (scope = []) || has "%" scope then None else Some a
    end in
  match addr with
  | None => false
  | Some a =>
      if has "/" s then false else
      let l := split_on (ch_of ":") a in
      if (length l <? 3)%nat then false
      else if has "." (List.last l []) then
        ipv4_ok (List.last l []) && hextets_ok (removelast l ++ [str "0"; str "0"])
      else hextets_ok l
  end.

(** [\Av[a-fA-F0-9]+\..+\Z] *)
Definition ipvfuture_ok (s : pystr) : bool :=
  match s with
  | 118 :: s' =>
      match cut (ch_of ".") s' with
      | Some (v, rest) =>
          negb (bool_decide (v = [])) && forallb any_hex v && negb (bool_decide (rest = []))
      | None => false
      end
  | _ => false
  end.

(** [_check_bracketed_netloc] does not raise. *)
Definition bracketed_netloc_ok (netloc : pystr) : bool :=
  let hostname_and_port := match rcut (ch_of "@") netloc with
    | Some (_, h) => h | None => netloc end in
  let host_ok h := if startswith h (str "v") then ipvfuture_ok h else ipv6_ok h in
  match cut (ch_of "[") hostname_and_port with
  | Some (before, bracketed) =>
      let '(hostname, port) := match cut (ch_of "]") bracketed with
        | Some hp => hp | None => (bracketed, []) end in
      bool_decide (before = []) &&
      (bool_decide (port = []) || startswith port (str ":")) && host_ok hostname
  | None =>
      host_ok (match cut (ch_of ":") hostname_and_port with
               | Some (h, _) => h | None => hostname_and_port end)
  end.

(** ** [urllib.parse.urlparse] *)

(** The characters outside ASCII whose NFKC form has one of [/?#@:]. *)
Definition NFKC_DELIMITERS : list N :=
  [8263; 8264; 8265; 8448; 8449; 8453; 8454; 10868; 65043; 65046; 65109; 65110;
   65119; 65131; 65283; 65295; 65306; 65311; 65312].

(** The two checks on the netloc. *)
Definition check_brackets (netloc : pystr) : res unit :=
  raise_if xorb (has "[" netloc) (has "]" netloc) with (ValueError "Invalid IPv6 URL") ;;
  raise_if has "[" netloc && negb (bracketed_netloc_ok netloc)
    with (ValueError "Invalid IPv6 URL") ;;
  Ok tt.

Definition checknetloc (netloc : pystr) : res unit :=
  raise_if existsb (fun c => bool_decide (c ∈ NFKC_DELIMITERS)) netloc
    with (ValueError "netloc contains invalid characters under NFKC normalization") ;;
  Ok tt.

Record url := Url {
  scheme : pystr; netloc : pystr; url_path : pystr; params : pystr;
  query : pystr; fragment : pystr }.

Definition scheme_char (a : N) : bool := alnum_or "+-." a.

Fixpoint lstrip_c0 (s : pystr) : pystr :=
  match s with
  | a :: s' => if (a <=? 32) then lstrip_c0 s' else s
  | [] => []
  end.

(** Tab, carriage return and newline are removed. *)
Definition url_unsafe (a : N) : bool := (a =? 9) || (a =? 13) || (a =? 10).

(** The scheme and the rest. *)
Definition split_scheme (u : pystr) : pystr * pystr :=
  match cut (ch_of ":") u with
  | Some (a :: pre, rest) =>
      if (lower a || upper a) && forallb scheme_char (a :: pre)
      then (lower_text (a :: pre), rest) else ([], u)
  | _ => ([], u)
  end.

(** [_splitnetloc(url, 2)] after the two slashes. *)
Fixpoint splitnetloc (u : pystr) : pystr * pystr :=
  match u with
  | [] => ([], [])
  | a :: u' =>
      if one_of "/?#" a then ([], u)
      else let '(n, r) := splitnetloc u' in (a :: n, r)
  end.

(** [uses_params] *)
Definition uses_params : list pystr :=
  [[]; str "ftp"; str "hdl"; str "prospero"; str "http"; str "https"; str "shttp";
   str "rtsp"; str "rtsps"; str "sip"; str "sips"; str "mms"; str "sftp"; str "tel"].

(** [_splitparams]: the first semicolon of the last segment. *)
Definition splitparams (p : pystr) : pystr * pystr :=
  match rcut (ch_of "/") p with
  | Some (before, segment) =>
      match cut (ch_of ";") segment with
      | Some (x, y) => (before ++ str "/" ++ x, y)
      | None => (p, [])
      end
  | None => match cut (ch_of ";") p with Some xy => xy | None => (p, []) end
  end.

(** The netloc, when the text starts with two slashes, and the rest. *)
Definition take_netloc (u : pystr) : res (pystr * pystr) :=
  if startswith u (str "//") then
    let '(n, r) := splitnetloc (drop 2 u) in
    let* _ := check_brackets n in
    Ok (n, r)
  else Ok ([], u).

(** [u.split(c, 1)] when the separator is there. *)
Definition cut_off (c : ascii) (u : pystr) : pystr * pystr :=
  match cut (ch_of c) u with Some xy => xy | None => (u, []) end.

Definition urlparse (value : pystr) : res url :=
  let u := List.filter (fun a => negb (url_unsafe a)) (lstrip_c0 value) in
  let '(scheme, u) := split_scheme u in
  let* (netloc, u) := take_netloc u in
  let '(u, fragment) := cut_off "#" u in
  let '(u, query) := cut_off "?" u in
  let* _ := checknetloc netloc in
  let '(p, params) := if bool_decide (scheme ∈ uses_params) then splitparams u else (u, []) in
  Ok (Url scheme netloc p params query fragment).
