(* ===== verification/PyText.v ===== *)
(** * Text operations of the standard library

    What broker/john_lomein_broker_actions.py, ..._github_live.py and
    ..._broker_service.py use of [str]: [splitlines], [count], [upper],
    [rstrip], [strip], [int(text)] and [fnmatch.fnmatchcase].  [path_matches] of
    Actions.v is built on [fnmatchcase], whose pattern is the [re] expression
    [fnmatch.translate] writes. *)

From S2P Require Import Prelude Regex PyTime PyUrl.
Local Open Scope N_scope.

(** ** Lines and occurrences *)

(** The characters [str.splitlines] splits at. *)
Definition is_line_break (c : N) : bool :=
  ((10 <=? c) && (c <=? 13)) || ((28 <=? c) && (c <=? 30)) || (c =? 133) ||
  (c =? 8232) || (c =? 8233).

(** [s.splitlines()[0]] of a non-empty text. *)
Fixpoint first_line (s : pystr) : pystr :=
  match s with
  | [] => []
  | c :: s' => if is_line_break c then [] else c :: first_line s'
  end.

(** [s.count(p)]: occurrences that do not overlap, from the left; [skip] is
    what is left of the last one found. *)
Fixpoint count_from (p : pystr) (skip : nat) (s : pystr) : nat :=
  match s with
  | [] => 0
  | _ :: s' =>
      match skip with
      | S k => count_from p k s'
      | O => if startswith s p then S (count_from p (length p - 1) s') else count_from p 0 s'
      end
  end.

Definition count_text (s p : pystr) : nat :=
  match p with [] => S (length s) | _ => count_from p 0 s end.

(** [p in s] *)
Definition contains (s p : pystr) : bool := negb (count_text s p =? 0)%nat.

(** ** Case and stripping *)

(** [c.upper()] where the result is ASCII; every other character is kept. *)
Definition upper_char (c : N) : pystr :=
  if lower c then [c - 32]
  else if c =? 223 then str "SS"
  else if c =? 305 then str "I"
  else if c =? 383 then str "S"
  else if c =? 64256 then str "FF"
  else if c =? 64257 then str "FI"
  else if c =? 64258 then str "FL"
  else if c =? 64259 then str "FFI"
  else if c =? 64260 then str "FFL"
  else if (c =? 64261) || (c =? 64262) then str "ST"
  else [c].

(** [s.upper()].  The texts it is compared with are configured conclusions and
    the ASCII states of GitHub. *)
Definition upper_text (s : pystr) : pystr := concat (map upper_char s).

(** [s.lstrip(c)], [s.rstrip(c)], [s.strip(c)] of one character *)
Fixpoint lstrip (c : N) (s : pystr) : pystr :=
  match s with
  | a :: s' => if a =? c then lstrip c s' else s
  | [] => []
  end.
Definition rstrip (c : N) (s : pystr) : pystr := rev (lstrip c (rev s)).
Definition strip (c : N) (s : pystr) : pystr := rstrip c (lstrip c s).

(** ** [int(text)] *)

(** [str.isspace] *)
Definition is_space (c : N) : bool :=
  ((9 <=? c) && (c <=? 13)) || ((28 <=? c) && (c <=? 32)) || (c =? 133) || (c =? 160) ||
  (c =? 5760) || ((8192 <=? c) && (c <=? 8202)) || (c =? 8232) || (c =? 8233) ||
  (c =? 8239) || (c =? 8287) || (c =? 12288).

(** The translation of a text that is not ASCII: outside ASCII, white space
    becomes a space and a decimal digit its ASCII digit. *)
Definition int_char (c : N) : N :=
  if c <? 127 then c
  else if is_space c then 32
  else match udigit c with Some d => 48 + Z.to_N d | None => 63 end.

Definition int_prepare (s : pystr) : pystr :=
  if forallb (fun c => c <? 128) s then s else map int_char s.

Definition c_space (c : N) : bool := ((9 <=? c) && (c <=? 13)) || (c =? 32).

Fixpoint drop_spaces (s : pystr) : pystr :=
  match s with
  | c :: s' => if c_space c then drop_spaces s' else s
  | [] => []
  end.

(** Digits with single underscores between them; [under] when the last
    character was one. *)
Fixpoint int_digits (under : bool) (acc : Z) (s : pystr) : option Z :=
  match s with
  | [] => if under then None else Some acc
  | c :: s' =>
      if is_digit_char c then int_digits false (10 * acc + Z.of_N (c - 48)) s'
      else if (c =? 95) && negb under then int_digits true acc s'
      else None
  end.

Definition int_body (s : pystr) : option Z :=
  match s with
  | c :: _ => if is_digit_char c then int_digits false 0 s else None
  | [] => None
  end.

(** [int(s)]; more than 4300 digits raise too. *)
Definition int_text (s : pystr) : res Z :=
  let e := ValueError "invalid literal for int() with base 10" in
  let t := rev (drop_spaces (rev (drop_spaces (int_prepare s)))) in
  raise_if (4300 <? Z.of_nat (length (List.filter is_digit_char t)))%Z with e ;;
  match
    match t with
    | 45 :: t' => option_map Z.opp (int_body t')
    | 43 :: t' => int_body t'
    | _ => int_body t
    end
  with
  | Some z => Ok z
  | None => Raise e
  end.

(** ** [fnmatch.translate] *)

(** Splitting at the closing bracket: [pat[i:j]] and what follows it. *)
Fixpoint until_bracket (s : pystr) : option (pystr * pystr) :=
  match s with
  | [] => None
  | c :: s' =>
      if c =? 93 then Some ([], s')
      else match until_bracket s' with Some (a, b) => Some (c :: a, b) | None => None end
  end.

(** A first character [c], when there is one. *)
Definition take_char (c : N) (s : pystr) : pystr * pystr :=
  match s with
  | a :: r => if a =? c then ([c], r) else ([], s)
  | [] => ([], [])
  end.

(** The text between the brackets: a leading ["!"], then a leading ["]"], do
    not close the set. *)
Definition bracket (s : pystr) : option (pystr * pystr) :=
  let '(h1, s1) := take_char 33 s in
  let '(h2, s2) := take_char 93 s1 in
  match until_bracket s2 with
  | Some (a, b) => Some (h1 ++ h2 ++ a, b)
  | None => None
  end.

(** The chunks between the hyphens that make ranges: [skip] characters cannot
    hold one, [acc] is the current chunk reversed. *)
Fixpoint chunks (skip : nat) (acc : pystr) (s : pystr) : list pystr :=
  match s with
  | [] => [rev acc]
  | c :: s' =>
      match skip with
      | S k => chunks k (c :: acc) s'
      | O => if c =? 45 then rev acc :: chunks 2 [] s' else chunks 0 (c :: acc) s'
      end
  end.

(** [if chunk: chunks.append(chunk) else: chunks[-1] += '-'] *)
Fixpoint close_chunks (l : list pystr) : list pystr :=
  match l with
  | [a; []] => [a ++ [45]]
  | a :: l' => a :: close_chunks l'
  | [] => []
  end.

(** Ranges that would be empty are removed, from the last one. *)
Fixpoint merge_chunks (l : list pystr) : list pystr :=
  match l with
  | [] => []
  | a :: l' =>
      match merge_chunks l' with
      | b :: bs =>
          match last a, b with
          | Some x, y :: b' => if y <? x then (removelast a ++ b') :: bs else a :: b :: bs
          | _, _ => a :: b :: bs
          end
      | [] => [a]
      end
  end.

(** An item of a set: a character or the hyphen of a range. *)
Inductive item := Char (c : N) | Hyphen.

Fixpoint join_chunks (l : list pystr) : list item :=
  match l with
  | [] => []
  | [a] => map Char a
  | a :: l' => map Char a ++ Hyphen :: join_chunks l'
  end.

(** The set, as [re] reads it: a range is a character, the hyphen and a
    character; a hyphen in any other place is a character. *)
Fixpoint in_items (l : list item) (a : N) : bool :=
  match l with
  | [] => false
  | Char lo :: ((Hyphen :: l') as l1) =>
      match l' with
      | Char hi :: l2 => ((lo <=? a) && (a <=? hi)) || in_items l2 a
      | _ => (a =? lo) || in_items l1 a
      end
  | Char c :: l' => (a =? c) || in_items l' a
  | Hyphen :: l' => (a =? 45) || in_items l' a
  end.

Definition set_re (stuff : pystr) : re :=
  let items :=
    if existsb (N.eqb 45) stuff
    then
      join_chunks (merge_chunks (close_chunks
        (chunks (if startswith stuff (str "!") then 2 else 1) [] stuff)))
    else map Char stuff in
  match items with
  | [] => RNone
  | [Char 33] => RCls (fun _ => true)
  | Char 33 :: l => RCls (fun a => negb (in_items l a))
  | _ => RCls (in_items items)
  end.

(** [translate(pat)]: every round removes a character. *)
Fixpoint glob_re (fuel : nat) (pat : pystr) : re :=
  match fuel with
  | O => REps
  | S f =>
      match pat with
      | [] => REps
      | c :: pat' =>
          if c =? 42 then RSeq (RStar (RCls (fun _ => true))) (glob_re f pat')
          else if c =? 63 then RSeq (RCls (fun _ => true)) (glob_re f pat')
          else if c =? 91 then
            match bracket pat' with
            | Some (stuff, rest) => RSeq (set_re stuff) (glob_re f rest)
            | None => RSeq (RCls (N.eqb 91)) (glob_re f pat')
            end
          else RSeq (RCls (N.eqb c)) (glob_re f pat')
      end
  end.

(** [fnmatch.fnmatchcase(name, pat)] *)
Definition fnmatchcase (name pat : pystr) : bool :=
  fullmatch (glob_re (length pat) pat) name.
