(* ===== verification/Search.v ===== *)
(** * Searching with patterns

    [pattern.search(s)] of the [re] module for patterns that look one character
    around: [\b], [^] and a look-behind of one character are assertions on the
    neighbours of a position.  Repetitions are of character classes, as in the
    patterns of scripts/john_lomein_continuity.py,
    ..._public_safety.py and ..._factory_receipts.py.  [search] runs all
    attempts at once by derivatives; [search_spec] relates it to the meaning of
    a pattern.  Whether a repetition is greedy does not matter: only the
    existence of a match is asked. *)

From S2P Require Import Prelude Regex PyText.

(** The neighbours of a position: the character before and after it. *)
Abbreviation neighbour := (option N).

Inductive pat :=
| PNone
| PEps
| PCls (c : N -> bool)
| PAssert (ok : neighbour -> neighbour -> bool)
| PSeq (r1 r2 : pat)
| PAlt (r1 r2 : pat)
| PRep (c : N -> bool) (m n : nat)   (* c{m,n} *)
| PStar (c : N -> bool).

Definition next_of (s : pystr) (n : neighbour) : neighbour :=
  match s with a :: _ => Some a | [] => n end.

Fixpoint prev_of (p : neighbour) (s : pystr) : neighbour :=
  match s with a :: s' => prev_of (Some a) s' | [] => p end.

(** [pmatch p r s n]: [r] matches [s] between the neighbours [p] and [n]. *)
Fixpoint pmatch (p : neighbour) (r : pat) (s : pystr) (n : neighbour) : Prop :=
  match r with
  | PNone => False
  | PEps => s = []
  | PCls c => exists a, s = [a] /\ c a = true
  | PAssert ok => s = [] /\ ok p n = true
  | PSeq r1 r2 => exists s1 s2, s = s1 ++ s2 /\ pmatch p r1 s1 (next_of s2 n) /\
      pmatch (prev_of p s1) r2 s2 n
  | PAlt r1 r2 => pmatch p r1 s n \/ pmatch p r2 s n
  | PRep c m k => Forall (fun a => c a = true) s /\ (m <= length s <= k)%nat
  | PStar c => Forall (fun a => c a = true) s
  end.

(** ** Derivatives *)

Fixpoint empty_at (p n : neighbour) (r : pat) : bool :=
  match r with
  | PNone | PCls _ => false
  | PEps | PStar _ => true
  | PAssert ok => ok p n
  | PSeq r1 r2 => empty_at p n r1 && empty_at p n r2
  | PAlt r1 r2 => empty_at p n r1 || empty_at p n r2
  | PRep _ m _ => (m =? 0)%nat
  end.

Definition pseq (r1 r2 : pat) : pat :=
  match r1 with
  | PNone => PNone
  | PEps => r2
  | _ => PSeq r1 r2
  end.

Definition palt (r1 r2 : pat) : pat :=
  match r1, r2 with
  | PNone, r | r, PNone => r
  | _, _ => PAlt r1 r2
  end.

Fixpoint pderiv (p : neighbour) (a : N) (r : pat) : pat :=
  match r with
  | PNone | PEps | PAssert _ => PNone
  | PCls c => if c a then PEps else PNone
  | PSeq r1 r2 =>
      if empty_at p (Some a) r1 then palt (pseq (pderiv p a r1) r2) (pderiv p a r2)
      else pseq (pderiv p a r1) r2
  | PAlt r1 r2 => palt (pderiv p a r1) (pderiv p a r2)
  | PRep c m k =>
      match k with
      | O => PNone
      | S k' => if c a then PRep c (pred m) k' else PNone
      end
  | PStar c => if c a then PStar c else PNone
  end.

Fixpoint scan (p : neighbour) (r : pat) (s : pystr) : bool :=
  empty_at p (next_of s None) r ||
  match s with
  | a :: s' => scan (Some a) (pderiv p a r) s'
  | [] => false
  end.

(** [pattern.search(s) is not None] *)
Definition search (r : pat) (s : pystr) : bool := scan None (PSeq (PStar (fun _ => true)) r) s.

(** ** Building patterns the way the source writes them *)

Fixpoint palts (l : list pat) : pat :=
  match l with
  | [] => PNone
  | [r] => r
  | r :: l' => PAlt r (palts l')
  end.

Fixpoint pseqs (l : list pat) : pat :=
  match l with
  | [] => PEps
  | [r] => r
  | r :: l' => PSeq r (pseqs l')
  end.

(** The case-insensitive reading of ASCII patterns: [K] and [s] also match the
    Kelvin sign and the long s, [i] the dotted and the dotless one. *)
Definition fold_case (a : N) : N :=
  if upper a then (a + 32)%N
  else if ((a =? 304) || (a =? 305))%N then 105%N
  else if (a =? 383)%N then 115%N
  else if (a =? 8490)%N then 107%N
  else a.

(** A literal, in either case and case-insensitively; [pchars] is a class. *)
Definition plit (s : string) : pat := pseqs (map (fun c => PCls (N.eqb c)) (str s)).
Definition plit_ci (s : string) : pat :=
  pseqs (map (fun c => PCls (fun a => fold_case a =? fold_case c)%N) (str s)).
Definition ci (c : N -> bool) (a : N) : bool :=
  c (fold_case a) || c a || (lower (fold_case a) && c (fold_case a - 32)%N).
Definition popt (r : pat) : pat := PAlt r PEps.
Definition pplus (c : N -> bool) : pat := PSeq (PCls c) (PStar c).
(** [c{m,}] *)
Definition patleast (m : nat) (c : N -> bool) : pat := PSeq (PRep c m m) (PStar c).
Definition pbol : pat := PAssert (fun p _ => negb (is_some p)).
(** [(?<!c)] *)
Definition pnot_after (c : N -> bool) : pat :=
  PAssert (fun p _ => match p with Some a => negb (c a) | None => true end).
Definition none_of (s : string) (a : N) : bool := negb (one_of s a).
Definition not_space (a : N) : bool := negb (is_space a).

(** ** The meaning of [search] *)

Lemma next_of_app s t n : next_of (s ++ t) n = next_of s (next_of t n).
Proof. by destruct s. Qed.

Lemma prev_of_app p s t : prev_of p (s ++ t) = prev_of (prev_of p s) t.
Proof. revert p. induction s as [|a s IH]; intros p; [done | apply IH]. Qed.

Lemma empty_at_spec p n r : empty_at p n r = true <-> pmatch p r [] n.
Proof.
  revert p n. induction r as [| |c|ok|r1 IH1 r2 IH2|r1 IH1 r2 IH2|c m k|c]; intros p n; simpl.
  - done.
  - done.
  - split; [done | by intros (a & [=] & _)].
  - naive_solver.
  - rewrite andb_true_iff, IH1, IH2. split.
    + intros [H1 H2]. by exists [], [].
    + intros (s1 & s2 & E & H1 & H2). symmetry in E. apply app_eq_nil in E as [-> ->]. done.
  - by rewrite orb_true_iff, IH1, IH2.
  - rewrite Nat.eqb_eq. split; [intros ->; split; [constructor | lia] | intros [_ H]; lia].
  - split; [constructor | done].
Qed.

Lemma pmatch_pseq p r1 r2 s n : pmatch p (pseq r1 r2) s n <-> pmatch p (PSeq r1 r2) s n.
Proof.
  destruct r1; try done; simpl.
  - split; [done | by intros (? & ? & _ & [] & _)].
  - split; [intros H; by exists [], s | by intros (s1 & s2 & -> & -> & H)].
Qed.

Lemma pmatch_palt p r1 r2 s n : pmatch p (palt r1 r2) s n <-> pmatch p (PAlt r1 r2) s n.
Proof. destruct r1, r2; simpl; tauto. Qed.

Lemma pderiv_spec p a r s n : pmatch (Some a) (pderiv p a r) s n <-> pmatch p r (a :: s) n.
Proof.
  revert p s n. induction r as [| |c|ok|r1 IH1 r2 IH2|r1 IH1 r2 IH2|c m k|c]; intros p s n;
    cbn [pderiv].
  - done.
  - by simpl.
  - destruct (c a) eqn:E; simpl.
    + split; [intros ->; eauto | by intros (b & [= <- ->] & _)].
    + split; [done | intros (b & [= <- ->] & H); congruence].
  - simpl. split; [done | by intros [[=] _]].
  - assert (Hseq : pmatch (Some a) (pseq (pderiv p a r1) r2) s n <->
      exists s1 s2, s = s1 ++ s2 /\ pmatch p r1 (a :: s1) (next_of s2 n) /\
        pmatch (prev_of (Some a) s1) r2 s2 n).
    { rewrite pmatch_pseq. simpl. by setoid_rewrite IH1. }
    assert (Hcons : pmatch p (PSeq r1 r2) (a :: s) n <->
      (pmatch p r1 [] (Some a) /\ pmatch p r2 (a :: s) n) \/
      pmatch (Some a) (pseq (pderiv p a r1) r2) s n).
    { rewrite Hseq. simpl. split.
      - intros ([|b s1] & s2 & E & H1 & H2); simpl in E.
        + subst s2. left. done.
        + injection E as <- ->. right. by exists s1, s2.
      - intros [[H1 H2] | (s1 & s2 & -> & H1 & H2)]; [by exists [], (a :: s) |].
        by exists (a :: s1), s2. }
    rewrite Hcons. destruct (empty_at p (Some a) r1) eqn:E.
    + apply empty_at_spec in E. rewrite pmatch_palt. simpl pmatch at 1. rewrite IH2. tauto.
    + split; [by right |]. intros [[H _] | H]; [|done].
      apply empty_at_spec in H. congruence.
  - rewrite pmatch_palt. simpl. by rewrite IH1, IH2.
  - destruct k as [|k]; simpl.
    + split; [done | intros [_ H]; lia].
    + destruct (c a) eqn:E; simpl.
      * split; intros [H1 H2]; [split; [by constructor | lia] |].
        inversion H1; subst. split; [done | lia].
      * split; [done | intros [H1 _]; inversion H1; congruence].
  - destruct (c a) eqn:E; simpl.
    + split; [by constructor | intros H; by inversion H].
    + split; [done | intros H; inversion H; congruence].
Qed.

Lemma scan_spec p r s :
  scan p r s = true <-> exists s1 s2, s = s1 ++ s2 /\ pmatch p r s1 (next_of s2 None).
Proof.
  revert p r. induction s as [|a s IH]; intros p r; simpl; rewrite orb_true_iff, empty_at_spec.
  - split; [intros [H|?]; [by exists [], [] | done] |].
    intros (s1 & s2 & E & H). symmetry in E. apply app_eq_nil in E as [-> ->]. by left.
  - rewrite IH. split.
    + intros [H | (s1 & s2 & -> & H)]; [by exists [], (a :: s) |].
      exists (a :: s1), s2. split; [done | by apply pderiv_spec].
    + intros ([|b s1] & s2 & E & H); simpl in E; [left; by subst |].
      injection E as <- ->. right. exists s1, s2. split; [done | by apply pderiv_spec].
Qed.

(** A search succeeds exactly when the pattern matches somewhere. *)
Lemma search_spec r s :
  search r s = true <->
  exists s1 s2 s3, s = s1 ++ s2 ++ s3 /\ pmatch (prev_of None s1) r s2 (next_of s3 None).
Proof.
  unfold search. rewrite scan_spec. split.
  - intros (t & s3 & -> & (s1 & s2 & -> & _ & H)). exists s1, s2, s3. by rewrite <- app_assoc.
  - intros (s1 & s2 & s3 & -> & H). exists (s1 ++ s2), s3. rewrite <- app_assoc.
    split; [done |]. exists s1, s2. split; [done |]. split; [|done].
    by apply Forall_forall.
Qed.
