(* ===== verification/Json.v ===== *)
(** * JSON values, canonical JSON and its decoder

    [value] is a Python object as [json.loads] builds it: mappings keep their
    insertion order, a float is represented by its text.  [canonical_json] is
    the encoder of broker/john_lomein_broker_store.py (the rejected inputs
    included) and [dumps] the [json.dumps] call it wraps; [decode_canonical_json]
    is the fail-closed decoder that accepts canonical text only, on top of a
    model of [json.loads].  JsonFacts.v shows that decoding inverts encoding up to
    key order, JsonSize.v that the decoder's fuel is always enough. *)

From S2P Require Import Prelude Regex Sha256.
Local Open Scope Z_scope.

(** ** Values *)

Inductive value :=
| VNone
| VBool (b : bool)
| VInt (z : Z)
| VFloat (text : pystr)
| VStr (s : pystr)
| VList (l : list value)
| VDict (d : list (pystr * value)).

Notation dict := (list (pystr * value)).

(** Writing literals: a mapping display with ASCII keys, a string. *)
Definition fields (l : list (string * value)) : dict := map (fun '(k, v) => (str k, v)) l.
Definition obj (l : list (string * value)) : value := VDict (fields l).
Definition vstr (s : string) : value := VStr (str s).
Definition vopt {A} (f : A -> value) (o : option A) : value :=
  match o with Some a => f a | None => VNone end.

(** [d[k]] when present *)
Fixpoint dget (k : pystr) (d : dict) : option value :=
  match d with
  | [] => None
  | (k', v) :: d' => if decide (k = k') then Some v else dget k d'
  end.

Definition keys (d : dict) : list pystr := map fst d.

(** [d.get("k")] *)
Definition get (d : dict) (k : string) : value :=
  match dget (str k) d with Some v => v | None => VNone end.

(** [d["k"]] *)
Definition index (d : dict) (k : string) : res value :=
  match dget (str k) d with Some v => Ok v | None => Raise (KeyError k) end.

(** [set(d) == {...}] *)
Definition same_keys (d : dict) (expected : list string) : bool :=
  forallb (fun k => bool_decide (k ∈ map str expected)) (keys d) &&
  forallb (fun k => bool_decide (k ∈ keys d)) (map str expected).

(** [bool(v)] *)
Definition truthy (v : value) : bool :=
  match v with
  | VNone => false
  | VBool b => b
  | VInt z => negb (z =? 0)
  | VFloat t => negb (bool_decide (t = str "0.0") || bool_decide (t = str "-0.0"))
  | VStr s => negb (bool_decide (s = []))
  | VList l => match l with [] => false | _ => true end
  | VDict d => match d with [] => false | _ => true end
  end.

(** [str(v)].  Of a list or a mapping only the opening bracket is given: every
    pattern the code applies to the text rejects it at that character. *)
Definition py_str (v : value) : pystr :=
  match v with
  | VNone => str "None"
  | VBool true => str "True"
  | VBool false => str "False"
  | VInt z => dec z
  | VFloat t => t
  | VStr s => s
  | VList _ => str "["
  | VDict _ => str "{"
  end.

(** [str(v or "")] *)
Definition text_or_empty (v : value) : pystr := if truthy v then py_str v else [].

Definition b2z (b : bool) : Z := if b then 1 else 0.

(** A float equals an integer: by its text, [repr] of an integral float below
    [10**16]. *)
Definition float_is_int (t : pystr) (n : Z) : bool :=
  bool_decide (t = dec n ++ str ".0") || ((n =? 0) && bool_decide (t = str "-0.0")).

(** [a == b] *)
Fixpoint py_eq (a b : value) {struct a} : bool :=
  match a, b with
  | VNone, VNone => true
  | VBool x, VBool y => Bool.eqb x y
  | VBool x, VInt y => b2z x =? y
  | VInt x, VBool y => x =? b2z y
  | VInt x, VInt y => x =? y
  | VFloat x, VFloat y => bool_decide (x = y)
  | VFloat x, VInt y => float_is_int x y
  | VFloat x, VBool y => float_is_int x (b2z y)
  | VInt x, VFloat y => float_is_int y x
  | VBool x, VFloat y => float_is_int y (b2z x)
  | VStr x, VStr y => bool_decide (x = y)
  | VList l, VList m =>
      (fix go l m := match l, m with
        | [], [] => true
        | x :: l', y :: m' => py_eq x y && go l' m'
        | _, _ => false
        end) l m
  | VDict d, VDict e =>
      (length d =? length e)%nat &&
      (fix go d := match d with
        | [] => true
        | (k, x) :: d' =>
            match dget k e with Some y => py_eq x y && go d' | None => false end
        end) d
  | _, _ => false
  end.

(** [v in {...}] for a set of strings: a list or a mapping is unhashable. *)
Definition in_strings (v : value) (l : list pystr) : res bool :=
  match v with
  | VList _ => Raise (TypeError "unhashable type: 'list'")
  | VDict _ => Raise (TypeError "unhashable type: 'dict'")
  | VStr s => Ok (bool_decide (s ∈ l))
  | _ => Ok false
  end.

(** ** Encoding *)

(** Python's order on strings. *)
Fixpoint str_leb (s t : pystr) : bool :=
  match s, t with
  | [], _ => true
  | _ :: _, [] => false
  | a :: s', b :: t' => (a <? b)%N || ((a =? b)%N && str_leb s' t')
  end.

Fixpoint kinsert (k : pystr) (v : value) (d : dict) : dict :=
  match d with
  | [] => [(k, v)]
  | (k', v') :: d' => if str_leb k k' then (k, v) :: d else (k', v') :: kinsert k v d'
  end.

(** [sorted(d.items())]: keys are distinct, so values are never compared. *)
Definition ksort (d : dict) : dict := fold_right (fun '(k, v) d => kinsert k v d) [] d.

(** The value with every mapping in key order: what [sort_keys=True] writes. *)
Fixpoint canon (v : value) : value :=
  match v with
  | VList l => VList (map canon l)
  | VDict d => VDict (ksort (map (fun '(k, x) => (k, canon x)) d))
  | _ => v
  end.

Definition hex4 (n : N) : pystr :=
  map (fun i => hex_char (N.land (N.shiftr n (4 * N.of_nat i)) 15)) [3; 2; 1; 0]%nat.

Definition u4 (n : N) : pystr := str "\u" ++ hex4 n.

(** [ensure_ascii]: the escape of one code point. *)
Definition esc (c : N) : pystr :=
  if (c =? 34)%N then str "\" ++ [34%N]
  else if (c =? 92)%N then str "\\"
  else if (c =? 10)%N then str "\n"
  else if (c =? 13)%N then str "\r"
  else if (c =? 9)%N then str "\t"
  else if (c =? 12)%N then str "\f"
  else if (c =? 8)%N then str "\b"
  else if ((32 <=? c) && (c <=? 126))%N then [c]
  else if (c <? 65536)%N then u4 c
  else
    let n := (c - 65536)%N in
    u4 (55296 + N.land (N.shiftr n 10) 1023)%N ++ u4 (56320 + N.land n 1023)%N.

Definition quote (s : pystr) : pystr := 34%N :: concat (map esc s) ++ [34%N].

Fixpoint join (sep : N) (l : list pystr) : pystr :=
  match l with
  | [] => []
  | [x] => x
  | x :: l' => x ++ sep :: join sep l'
  end.

(** [json.dumps(v, ensure_ascii=True, separators=(",", ":"))] *)
Fixpoint dumps_raw (v : value) : pystr :=
  match v with
  | VNone => str "null"
  | VBool true => str "true"
  | VBool false => str "false"
  | VInt z => dec z
  | VFloat t => t
  | VStr s => quote s
  | VList l => str "[" ++ join 44 (map dumps_raw l) ++ str "]"
  | VDict d =>
      str "{" ++ join 44 (map (fun '(k, x) => quote k ++ str ":" ++ dumps_raw x) d) ++ str "}"
  end.

(** The same with [sort_keys=True]. *)
Definition dumps (v : value) : pystr := dumps_raw (canon v).

Definition MAX_JSON_BYTES : Z := 1048576.
Definition MAX_JSON_DEPTH : Z := 32.
Definition I64_MIN : Z := -9223372036854775808.
Definition I64_MAX : Z := 9223372036854775807.

(** [_normalize_json] *)
Fixpoint normalize_json (depth : Z) (v : value) : res value :=
  raise_if (MAX_JSON_DEPTH <? depth)
    with (ValueError "JSON exceeds the maximum nesting depth") ;;
  match v with
  | VNone | VBool _ | VStr _ => Ok v
  | VInt z =>
      raise_if (z <? I64_MIN) || (I64_MAX <? z)
        with (ValueError "JSON integer is outside the signed 64-bit range") ;;
      Ok v
  | VFloat _ => Raise (ValueError "JSON floating-point values are not accepted")
  | VDict d =>
      let* d' := (fix go d := match d with
        | [] => Ok []
        | (k, x) :: d' =>
            let* y := normalize_json (depth + 1) x in
            let* r := go d' in
            Ok ((k, y) :: r)
        end) d in
      Ok (VDict d')
  | VList l =>
      let* l' := (fix go l := match l with
        | [] => Ok []
        | x :: l' =>
            let* y := normalize_json (depth + 1) x in
            let* r := go l' in
            Ok (y :: r)
        end) l in
      Ok (VList l')
  end.

Definition zlen {A} (l : list A) : Z := Z.of_nat (length l).

Definition canonical_json (v : value) : res pystr :=
  let* normalized := normalize_json 0 v in
  let encoded := dumps normalized in
  raise_if MAX_JSON_BYTES <? zlen (utf8 encoded)
    with (ValueError "canonical JSON exceeds the size limit") ;;
  Ok encoded.

(** [sha256_json] *)
Definition sha256_json (v : value) : res pystr :=
  let* encoded := canonical_json v in
  Ok (sha256_text encoded).

(** ** Decoding: [json.loads] *)

Definition is_ws (c : N) : bool := ((c =? 32) || (c =? 9) || (c =? 10) || (c =? 13))%N.

Fixpoint skip_ws (s : pystr) : pystr :=
  match s with
  | c :: s' => if is_ws c then skip_ws s' else s
  | [] => []
  end.

Definition hex_val (c : N) : option N :=
  if is_digit_char c then Some (c - 48)%N
  else if ((97 <=? c) && (c <=? 102))%N then Some (c - 87)%N
  else if ((65 <=? c) && (c <=? 70))%N then Some (c - 55)%N
  else None.

Definition hex4_val (a b c d : N) : option N :=
  match hex_val a, hex_val b, hex_val c, hex_val d with
  | Some w, Some x, Some y, Some z => Some (4096 * w + 256 * x + 16 * y + z)%N
  | _, _, _, _ => None
  end.

Definition is_high (n : N) : bool := ((55296 <=? n) && (n <=? 56319))%N.
Definition is_low (n : N) : bool := ((56320 <=? n) && (n <=? 57343))%N.

Definition simple_escape (c : N) : option N :=
  if (c =? 34)%N then Some 34%N
  else if (c =? 92)%N then Some 92%N
  else if (c =? 47)%N then Some 47%N
  else if (c =? 98)%N then Some 8%N
  else if (c =? 102)%N then Some 12%N
  else if (c =? 110)%N then Some 10%N
  else if (c =? 114)%N then Some 13%N
  else if (c =? 116)%N then Some 9%N
  else None.

(** Prepends a character to a scanned string. *)
Definition scanned (c : N) (r : res (pystr * pystr)) : res (pystr * pystr) :=
  let* (t, rest) := r in Ok (c :: t, rest).

(** [scanstring] in strict mode, after the opening quote. *)
Fixpoint pstring (s : pystr) : res (pystr * pystr) :=
  match s with
  | [] => Raise JSONDecodeError
  | c :: s1 =>
      if (c =? 34)%N then Ok ([], s1)
      else if (c =? 92)%N then
        match s1 with
        | e :: s2 =>
            if (e =? 117)%N then
              match s2 with
              | h1 :: h2 :: h3 :: h4 :: s3 =>
                  match hex4_val h1 h2 h3 h4 with
                  | None => Raise JSONDecodeError
                  | Some hi =>
                      if is_high hi then
                        match s3 with
                        | 92%N :: 117%N :: l1 :: l2 :: l3 :: l4 :: s4 =>
                            match hex4_val l1 l2 l3 l4 with
                            | None => Raise JSONDecodeError
                            | Some lo =>
                                if is_low lo then
                                  scanned (65536 + (hi - 55296) * 1024 + (lo - 56320))%N
                                    (pstring s4)
                                else scanned hi (pstring s3)
                            end
                        | 92%N :: 117%N :: _ => Raise JSONDecodeError
                        | _ => scanned hi (pstring s3)
                        end
                      else scanned hi (pstring s3)
                  end
              | _ => Raise JSONDecodeError
              end
            else
              match simple_escape e with
              | Some x => scanned x (pstring s2)
              | None => Raise JSONDecodeError
              end
        | [] => Raise JSONDecodeError
        end
      else if (c <? 32)%N then Raise JSONDecodeError
      else scanned c (pstring s1)
  end.

Fixpoint span (p : N -> bool) (s : pystr) : pystr * pystr :=
  match s with
  | c :: s' => if p c then let '(a, b) := span p s' in (c :: a, b) else ([], s)
  | [] => ([], [])
  end.

Definition digits_val (ds : pystr) : Z :=
  fold_left (fun acc c => 10 * acc + Z.of_N (c - 48)) ds 0.

(** The fraction and exponent of a number, when present. *)
Definition pfrac (s : pystr) : pystr * pystr :=
  match s with
  | 46%N :: s1 =>
      let '(ds, r) := span is_digit_char s1 in
      match ds with [] => ([], s) | _ => (46%N :: ds, r) end
  | _ => ([], s)
  end.

Definition pexp (s : pystr) : pystr * pystr :=
  match s with
  | c :: s1 =>
      if (c =? 101)%N || (c =? 69)%N then
        let '(sign, s2) := match s1 with
          | x :: s2 => if (x =? 43)%N || (x =? 45)%N then ([x], s2) else ([], s1)
          | [] => ([], s1)
          end in
        let '(ds, r) := span is_digit_char s2 in
        match ds with [] => ([], s) | _ => (c :: sign ++ ds, r) end
      else ([], s)
  | [] => ([], s)
  end.

(** [int()] of more digits than [sys.get_int_max_str_digits()] raises. *)
Definition MAX_STR_DIGITS : Z := 4300.

(** [_match_number] at a position that starts with the digits [s]. *)
Definition pnumber (neg : bool) (s : pystr) : res (value * pystr) :=
  let '(ds, rest) := match s with
    | 48%N :: r => ([48%N], r)
    | _ => span is_digit_char s
    end in
  match ds with
  | [] => Raise JSONDecodeError
  | _ =>
      let '(frac, r1) := pfrac rest in
      let '(exp, r2) := pexp r1 in
      match frac ++ exp with
      | [] =>
          raise_if MAX_STR_DIGITS <? zlen ds
            with (ValueError "Exceeds the limit for integer string conversion") ;;
          Ok (VInt (if neg then - digits_val ds else digits_val ds), rest)
      | tail => Ok (VFloat ((if neg then [45%N] else []) ++ ds ++ tail), r2)
      end
  end.

(** [lit] is a prefix: the rest. *)
Fixpoint after (lit s : pystr) : option pystr :=
  match lit, s with
  | [], _ => Some s
  | a :: lit', b :: s' => if (a =? b)%N then after lit' s' else None
  | _ :: _, [] => None
  end.

Section Decoder.
(** The conversion of numbers, with the [parse_int] and [parse_float] hooks; what
    the [object_pairs_hook] and the [parse_constant] hook raise. *)
Variable number : bool -> pystr -> res (value * pystr).
Variables dup_exn nonfinite_exn : exn.

(** [_reject_duplicate_keys] *)
Fixpoint reject_duplicate_keys (seen : list pystr) (pairs : dict) : res unit :=
  match pairs with
  | [] => Ok tt
  | (k, _) :: pairs' =>
      raise_if bool_decide (k ∈ seen) with dup_exn ;;
      reject_duplicate_keys (k :: seen) pairs'
  end.

(** [parse_constant] or a scanner error, for what starts with neither a
    bracket, a quote nor a digit. *)
Definition pconstant (s : pystr) : res (value * pystr) :=
  match after (str "null") s, after (str "true") s, after (str "false") s with
  | Some r, _, _ => Ok (VNone, r)
  | _, Some r, _ => Ok (VBool true, r)
  | _, _, Some r => Ok (VBool false, r)
  | None, None, None =>
      match after (str "NaN") s, after (str "Infinity") s, after (str "-Infinity") s with
      | None, None, None => Raise JSONDecodeError
      | _, _, _ => Raise nonfinite_exn
      end
  end.

(** [scan_once] at a position; the two recursive scanners are arguments. *)
Definition value_step (members : pystr -> res (dict * pystr))
    (elements : pystr -> res (list value * pystr)) (s : pystr) : res (value * pystr) :=
  match s with
  | [] => Raise JSONDecodeError
  | c :: s1 =>
      if (c =? 34)%N then let* (t, r) := pstring s1 in Ok (VStr t, r)
      else if (c =? 123)%N then
        match skip_ws s1 with
        | 125%N :: r => Ok (VDict [], r)
        | s2 =>
            let* (d, r) := members s2 in
            let* _ := reject_duplicate_keys [] d in
            Ok (VDict d, r)
        end
      else if (c =? 91)%N then
        match skip_ws s1 with
        | 93%N :: r => Ok (VList [], r)
        | s2 => let* (l, r) := elements s2 in Ok (VList l, r)
        end
      else if is_digit_char c then number false s
      else if (c =? 45)%N then
        match s1 with
        | d :: _ => if is_digit_char d then number true s1 else pconstant s
        | [] => pconstant s
        end
      else pconstant s
  end.

(** [_parse_object] at a member. *)
Definition members_step (pval : pystr -> res (value * pystr))
    (members : pystr -> res (dict * pystr)) (s : pystr) : res (dict * pystr) :=
  match s with
  | 34%N :: s1 =>
      let* (k, s2) := pstring s1 in
      match skip_ws s2 with
      | 58%N :: s3 =>
          let* (v, s4) := pval (skip_ws s3) in
          match skip_ws s4 with
          | 44%N :: s5 => let* (d, r) := members (skip_ws s5) in Ok ((k, v) :: d, r)
          | 125%N :: s5 => Ok ([(k, v)], s5)
          | _ => Raise JSONDecodeError
          end
      | _ => Raise JSONDecodeError
      end
  | _ => Raise JSONDecodeError
  end.

(** [_parse_array] at an element. *)
Definition elements_step (pval : pystr -> res (value * pystr))
    (elements : pystr -> res (list value * pystr)) (s : pystr) :
    res (list value * pystr) :=
  let* (v, s1) := pval s in
  match skip_ws s1 with
  | 44%N :: s2 => let* (l, r) := elements (skip_ws s2) in Ok (v :: l, r)
  | 93%N :: s2 => Ok ([v], s2)
  | _ => Raise JSONDecodeError
  end.

Fixpoint pvalue (fuel : nat) (s : pystr) : res (value * pystr) :=
  match fuel with
  | O => Raise OutOfFuel
  | S f => value_step (pmembers f) (pelements f) s
  end
with pmembers (fuel : nat) (s : pystr) : res (dict * pystr) :=
  match fuel with
  | O => Raise OutOfFuel
  | S f => members_step (pvalue f) (pmembers f) s
  end
with pelements (fuel : nat) (s : pystr) : res (list value * pystr) :=
  match fuel with
  | O => Raise OutOfFuel
  | S f => elements_step (pvalue f) (pelements f) s
  end.

(** [json.loads(raw, object_pairs_hook=..., ...)] *)
Definition loads_with (raw : pystr) : res value :=
  match raw with
  | 65279%N :: _ => Raise JSONDecodeError
  | _ =>
      let* (v, r) := pvalue (2 * length raw + 2) (skip_ws raw) in
      match skip_ws r with [] => Ok v | _ => Raise JSONDecodeError end
  end.
End Decoder.

(** [json.loads(raw, object_pairs_hook=..., parse_constant=...)] *)
Definition loads : exn -> exn -> pystr -> res value := loads_with pnumber.

(** The hooks of the store: [_reject_duplicate_keys], [_reject_nonfinite]. *)
Definition store_loads : pystr -> res value :=
  loads (StoreCorruptionError "persisted JSON contains duplicate object fields")
        (StoreCorruptionError "persisted JSON contains a non-finite number").

(** [_decode_canonical_json] *)
Definition decode_canonical_json (raw : pystr) (field : string) : res dict :=
  raise_if MAX_JSON_BYTES <? zlen (utf8 raw)
    with (StoreCorruptionError (field +:+ " exceeds its size limit")) ;;
  let* v := reraise (fun e => match e with JSONDecodeError => true | _ => false end)
              (fun _ => StoreCorruptionError (field +:+ " is invalid JSON"))
              (store_loads raw) in
  match v with
  | VDict d =>
      let* expected := reraise isa_value
        (fun _ => StoreCorruptionError (field +:+ " violates canonical JSON"))
        (canonical_json v) in
      raise_if negb (bool_decide (raw = expected))
        with (StoreCorruptionError (field +:+ " is not canonical JSON")) ;;
      Ok d
  | _ => Raise (StoreCorruptionError (field +:+ " must contain a JSON object"))
  end.
