(* ===== verification/JsonFacts.v ===== *)
(** * Canonical JSON: round trip, totality and injectivity

    Facts about Json.v.  [loads_dumps] is the round trip of the decoder on the
    encoder's output, [decode_encode] its corollary for the store's pair of
    functions, and [canonical_json_inj] that canonical text identifies a value up to key
    order. *)

From Stdlib Require Import Sorted.
From stdpp Require Import sorting.
From S2P Require Import Prelude Regex Sha256 Json.
Local Open Scope Z_scope.

(** ** Induction over values *)

Section value_ind.
Variable P : value -> Prop.
Hypothesis Hnone : P VNone.
Hypothesis Hbool : forall b, P (VBool b).
Hypothesis Hint : forall z, P (VInt z).
Hypothesis Hfloat : forall t, P (VFloat t).
Hypothesis Hstr : forall s, P (VStr s).
Hypothesis Hlist : forall l, Forall P l -> P (VList l).
Hypothesis Hdict : forall d, Forall (fun kv => P kv.2) d -> P (VDict d).

Fixpoint value_nested_ind (v : value) : P v :=
  match v with
  | VNone => Hnone
  | VBool b => Hbool b
  | VInt z => Hint z
  | VFloat t => Hfloat t
  | VStr s => Hstr s
  | VList l =>
      Hlist l ((fix go l : Forall P l :=
        match l with
        | [] => @List.Forall_nil _ P
        | x :: l' => @List.Forall_cons _ P x l' (value_nested_ind x) (go l')
        end) l)
  | VDict d =>
      Hdict d ((fix go d : Forall (fun kv => P kv.2) d :=
        match d with
        | [] => @List.Forall_nil _ (fun kv : pystr * value => P kv.2)
        | kv :: d' => @List.Forall_cons _ (fun kv => P kv.2) kv d'
                        (value_nested_ind kv.2) (go d')
        end) d)
  end.
End value_ind.

(** ** Strings *)

(** The text [json.loads] returns: code points, and no high surrogate directly
    before a low one (it would have been joined). *)
Fixpoint good_str (s : pystr) : Prop :=
  match s with
  | [] => True
  | c :: s' =>
      (c <= 1114111)%N /\ (is_high c = true -> hd_error s' = None \/
        exists c', hd_error s' = Some c' /\ is_low c' = false) /\ good_str s'
  end.

Lemma hex_val_char d : (d < 16)%N -> hex_val (hex_char d) = Some d.
Proof.
  intros Hd. unfold hex_char. destruct (N.ltb_spec d 10).
  - unfold hex_val, is_digit_char.
    destruct (N.leb_spec 48 (48 + d)), (N.leb_spec (48 + d) 57); simpl; try lia.
    f_equal; lia.
  - unfold hex_val, is_digit_char.
    destruct (N.leb_spec 48 (87 + d)), (N.leb_spec (87 + d) 57); simpl; try lia;
    destruct (N.leb_spec 97 (87 + d)), (N.leb_spec (87 + d) 102); simpl; try lia;
    f_equal; lia.
Qed.

Lemma nibble_div n k : (N.land (N.shiftr n k) 15 = (n / 2 ^ k) mod 16)%N.
Proof. change 15%N with (N.ones 4). rewrite N.land_ones, N.shiftr_div_pow2. done. Qed.

Lemma hex4_val_hex4 n :
  (n < 65536)%N ->
  exists a b c d, hex4 n = [a; b; c; d] /\ hex4_val a b c d = Some n.
Proof.
  intros Hn. unfold hex4. cbn [map]. do 4 eexists. split; [done |].
  unfold hex4_val. rewrite !hex_val_char by (rewrite nibble_div; apply N.mod_lt; done).
  f_equal. rewrite !nibble_div. simpl (4 * N.of_nat _)%N.
  change (2 ^ 12)%N with 4096%N. change (2 ^ 8)%N with 256%N.
  change (2 ^ 4)%N with 16%N. change (2 ^ 0)%N with 1%N.
  zify. Z.to_euclidean_division_equations. lia.
Qed.

Lemma u4_app n t :
  (n < 65536)%N ->
  exists a b c d, u4 n ++ t = 92%N :: 117%N :: a :: b :: c :: d :: t /\
    hex4_val a b c d = Some n.
Proof.
  intros Hn. destruct (hex4_val_hex4 n Hn) as (a & b & c & d & E & Hv).
  exists a, b, c, d. split; [|done]. unfold u4. rewrite E. done.
Qed.

(** What may follow the escape of a lone high surrogate. *)
Definition safe_next (t : pystr) : Prop :=
  match t with
  | 92%N :: 117%N :: l1 :: l2 :: l3 :: l4 :: _ =>
      match hex4_val l1 l2 l3 l4 with Some lo => is_low lo = false | None => False end
  | 92%N :: 117%N :: _ => False
  | _ => True
  end.

Lemma pstring_plain c t :
  (32 <= c)%N -> c <> 34%N -> c <> 92%N -> pstring (c :: t) = scanned c (pstring t).
Proof.
  intros H1 H2 H3. cbn [pstring].
  rewrite (proj2 (N.eqb_neq c 34)), (proj2 (N.eqb_neq c 92)) by done.
  destruct (N.ltb_spec c 32); [lia | done].
Qed.

Lemma pstring_u4 c t :
  (c < 65536)%N -> (is_high c = true -> safe_next t) ->
  pstring (u4 c ++ t) = scanned c (pstring t).
Proof.
  intros Hc Hs. destruct (u4_app c t Hc) as (x1 & x2 & x3 & x4 & E & Hv).
  rewrite E. cbn [pstring]. change (92 =? 34)%N with false. change (92 =? 92)%N with true.
  change (117 =? 117)%N with true. cbv iota. rewrite Hv.
  destruct (is_high c); [|done]. specialize (Hs eq_refl). unfold safe_next in Hs.
  destruct t as [|[|p] t]; [done..|].
  repeat (destruct p as [p|p|]; try done).
  destruct t as [|[|p] t]; [done..|].
  repeat (destruct p as [p|p|]; try done).
  do 4 (destruct t as [|? t]; [done |]).
  destruct (hex4_val _ _ _ _); [|done]. by rewrite Hs.
Qed.

Lemma surrogate_halves c :
  (65536 <= c)%N -> (c <= 1114111)%N ->
  let hi := (55296 + N.land (N.shiftr (c - 65536) 10) 1023)%N in
  let lo := (56320 + N.land (c - 65536) 1023)%N in
  is_high hi = true /\ is_low hi = false /\ is_low lo = true /\ (hi < 65536)%N /\ (lo < 65536)%N /\
  (65536 + (hi - 55296) * 1024 + (lo - 56320))%N = c.
Proof.
  intros H1 H2. cbv zeta. change 1023%N with (N.ones 10).
  rewrite !N.land_ones, N.shiftr_div_pow2. change (2 ^ 10)%N with 1024%N.
  assert (Hq : (((c - 65536) / 1024) mod 1024 = (c - 65536) / 1024)%N).
  { apply N.mod_small. zify. Z.to_euclidean_division_equations. lia. }
  rewrite Hq. pose proof (N.mod_lt (c - 65536) 1024 ltac:(done)).
  assert (((c - 65536) / 1024 < 1024)%N)
    by (zify; Z.to_euclidean_division_equations; lia).
  assert (Hc : (c = 65536 + 1024 * ((c - 65536) / 1024) + (c - 65536) mod 1024)%N)
    by (zify; Z.to_euclidean_division_equations; lia).
  set (q := ((c - 65536) / 1024)%N) in *. set (r := ((c - 65536) mod 1024)%N) in *.
  clearbody q r. unfold is_high, is_low.
  repeat split; rewrite ?andb_true_iff, ?andb_false_iff, ?N.leb_le, ?N.leb_gt; lia.
Qed.

Lemma pstring_pair c t :
  (65536 <= c)%N -> (c <= 1114111)%N -> pstring (esc c ++ t) = scanned c (pstring t).
Proof.
  intros H1 H2. destruct (surrogate_halves c H1 H2) as (Hh & _ & Hl & Hh6 & Hl6 & Hj).
  unfold esc.
  rewrite !(proj2 (N.eqb_neq c _)) by lia.
  destruct (N.leb_spec c 126); [lia |]. rewrite andb_false_r.
  destruct (N.ltb_spec c 65536); [lia |].
  set (hi := (55296 + _)%N) in *. set (lo := (56320 + _)%N) in *. clearbody hi lo.
  rewrite <- app_assoc.
  destruct (u4_app hi (u4 lo ++ t) Hh6) as (x1 & x2 & x3 & x4 & E & Hv). rewrite E.
  destruct (u4_app lo t Hl6) as (y1 & y2 & y3 & y4 & E' & Hv'). rewrite E'.
  cbn [pstring]. change (92 =? 34)%N with false. change (92 =? 92)%N with true.
  change (117 =? 117)%N with true. cbv iota. by rewrite Hv, Hh, Hv', Hl, Hj.
Qed.

(** The seven two-character escapes. *)
Lemma pstring_short e x t :
  simple_escape e = Some x -> e <> 117%N -> pstring (92%N :: e :: t) = scanned x (pstring t).
Proof.
  intros He Hu. cbn [pstring]. change (92 =? 34)%N with false. change (92 =? 92)%N with true.
  cbv iota. rewrite (proj2 (N.eqb_neq e 117)) by done. by rewrite He.
Qed.

Lemma pstring_esc c t :
  (c <= 1114111)%N -> (is_high c = true -> safe_next t) ->
  pstring (esc c ++ t) = scanned c (pstring t).
Proof.
  intros Hc Hs. destruct (N.le_gt_cases 65536 c) as [H6|H6]; [by apply pstring_pair |].
  unfold esc.
  repeat match goal with
  | |- context [(c =? ?k)%N] =>
      destruct (N.eqb_spec c k) as [->|?]; [by apply pstring_short |]
  end.
  destruct (N.leb_spec 32 c), (N.leb_spec c 126); simpl andb; cbv iota.
  - by apply pstring_plain.
  - destruct (N.ltb_spec c 65536); [|lia]. by apply pstring_u4.
  - destruct (N.ltb_spec c 65536); [|lia]. by apply pstring_u4.
  - lia.
Qed.

(** The text of a string that does not start with a low surrogate is safe after
    a high one. *)
Lemma safe_next_esc c t : (c <= 1114111)%N -> is_low c = false -> safe_next (esc c ++ t).
Proof.
  intros Hc Hl. unfold esc.
  repeat match goal with
  | |- context [(c =? ?k)%N] => destruct (N.eqb_spec c k) as [->|?]; [exact I |]
  end.
  destruct ((32 <=? c) && (c <=? 126))%N.
  { unfold safe_next. cbn [app]. destruct c as [|p]; [done |].
    repeat (destruct p as [p|p|]; try done). }
  destruct (N.ltb_spec c 65536) as [H6|H6].
  - destruct (u4_app c t H6) as (x1 & x2 & x3 & x4 & -> & Hv). simpl. by rewrite Hv.
  - destruct (surrogate_halves c H6 Hc) as (_ & Hh & _ & Hh6 & _).
    rewrite <- app_assoc.
    match goal with |- context [u4 ?hi ++ ?r] =>
      destruct (u4_app hi r Hh6) as (x1 & x2 & x3 & x4 & -> & Hv) end.
    simpl. by rewrite Hv.
Qed.

Lemma pstring_quote s rest :
  good_str s -> pstring (concat (map esc s) ++ 34%N :: rest) = Ok (s, rest).
Proof.
  induction s as [|c s IH]; intros Hg; [done |]. destruct Hg as (Hc & Hh & Hg).
  cbn [map concat]. rewrite <- app_assoc, pstring_esc; [by rewrite IH | done |].
  intros Hhigh. destruct s as [|c' s]; [done |].
  destruct (Hh Hhigh) as [?|(c'' & [= <-] & Hl)]; [done |].
  cbn [map concat]. rewrite <- app_assoc. apply safe_next_esc; [apply Hg | done].
Qed.

(** ** Numbers *)

(** What may follow an integer for it to end there. *)
Definition num_stop (t : pystr) : Prop :=
  match t with
  | [] => True
  | c :: _ => is_digit_char c = false /\ c <> 46%N /\ c <> 101%N /\ c <> 69%N
  end.

Lemma span_digits ds t :
  Forall (fun c => is_digit_char c = true) ds -> num_stop t -> span is_digit_char (ds ++ t) = (ds, t).
Proof.
  induction 1 as [|c ds Hc _ IH]; intros Ht; simpl.
  - destruct t as [|c t]; [done |]. simpl. by rewrite (proj1 Ht).
  - by rewrite Hc, IH.
Qed.

Lemma digits_val_snoc ds c : digits_val (ds ++ [c]) = 10 * digits_val ds + Z.of_N (c - 48).
Proof. unfold digits_val. by rewrite fold_left_app. Qed.

Lemma digits_val_nat_text n : 0 <= n -> digits_val (nat_text n) = n.
Proof.
  revert n. apply digits_ind; intros n Hn.
  - rewrite nat_text_small by done. unfold digits_val. simpl. lia.
  - intros IH. rewrite nat_text_step, digits_val_snoc, IH by done.
    pose proof (Z.mod_pos_bound n 10). pose proof (Z.div_mod n 10). lia.
Qed.

(** Only zero is written with a leading zero. *)
Lemma nat_text_zero n : 0 <= n -> forall t, nat_text n = 48%N :: t -> n = 0 /\ t = [].
Proof.
  revert n. apply (digits_ind (fun n => forall t, nat_text n = 48%N :: t -> n = 0 /\ t = []));
    intros n Hn.
  - intros t. rewrite nat_text_small by done. intros [= H <-]. split; [lia | done].
  - intros IH t. rewrite nat_text_step by done.
    destruct (nat_text (n / 10)) as [|c r] eqn:E.
    { destruct (nat_text_digits (n / 10)) as [_ ?]; [apply Z.div_pos; lia | done]. }
    intros [= -> <-]. destruct (IH _ eq_refl) as [H0 _].
    pose proof (Z.div_str_pos n 10). lia.
Qed.

Lemma nat_text_length n k : 0 <= n < 10 ^ Z.of_nat k -> (0 < k)%nat -> (length (nat_text n) <= k)%nat.
Proof.
  revert n; induction k as [|k IH]; intros n Hn Hk; [lia |].
  destruct (Z.lt_ge_cases n 10) as [H|H]; [rewrite nat_text_small by lia; simpl; lia |].
  rewrite nat_text_step, length_app by done. simpl.
  destruct k as [|k]; [simpl in Hn; lia |].
  assert (length (nat_text (n / 10)) <= S k)%nat; [|lia].
  apply IH; [|lia]. split; [apply Z.div_pos; lia |].
  apply Z.div_lt_upper_bound; [lia |].
  replace (10 * 10 ^ Z.of_nat (S k)) with (10 ^ Z.of_nat (S (S k))); [lia |].
  rewrite (Nat2Z.inj_succ (S k)), Z.pow_succ_r by lia. done.
Qed.

Lemma pnumber_nat neg n t :
  0 <= n < 10 ^ 20 -> num_stop t ->
  pnumber neg (nat_text n ++ t) = Ok (VInt (if neg then - n else n), t).
Proof.
  intros Hn Ht. destruct (nat_text_digits n) as [Hd Hne]; [lia |].
  assert (Hlen : zlen (nat_text n) <= MAX_STR_DIGITS).
  { unfold zlen, MAX_STR_DIGITS.
    pose proof (nat_text_length n 20 Hn). lia. }
  assert (Hspan : match nat_text n ++ t with
      | 48%N :: r => ([48%N], r) | _ => span is_digit_char (nat_text n ++ t) end = (nat_text n, t)).
  { rewrite (span_digits (nat_text n) t) by done. destruct (nat_text n) as [|c r] eqn:E; [done |].
    simpl. destruct c as [|p]; [done |].
    repeat (destruct p as [p|p|]; try done).
    apply nat_text_zero in E as [_ ->]; [done | lia]. }
  unfold pnumber. rewrite Hspan.
  destruct (nat_text n) as [|c r] eqn:E; [done |].
  assert (pfrac t = ([], t)) as ->.
  { destruct t as [|x t]; [done |]. destruct Ht as (_ & H1 & _). unfold pfrac.
    destruct x as [|p]; [done |]. repeat (destruct p as [p|p|]; try done). }
  assert (pexp t = ([], t)) as ->.
  { destruct t as [|x t]; [done |]. destruct Ht as (_ & _ & H1 & H2). unfold pexp.
    by rewrite (proj2 (N.eqb_neq x 101)), (proj2 (N.eqb_neq x 69)). }
  simpl app. destruct (Z.ltb_spec MAX_STR_DIGITS (zlen (c :: r))); [lia |].
  rewrite <- E, digits_val_nat_text by lia. done.
Qed.

(** ** Whole values *)

(** The values the broker's canonical JSON ranges over, as [json.loads] builds
    them: 64-bit integers, no floats, distinct keys. *)
Inductive good : value -> Prop :=
| good_none : good VNone
| good_bool b : good (VBool b)
| good_int z : I64_MIN <= z <= I64_MAX -> good (VInt z)
| good_vstr s : good_str s -> good (VStr s)
| good_list l : Forall good l -> good (VList l)
| good_dict d : NoDup (keys d) -> Forall (fun kv => good_str kv.1) d ->
    Forall (fun kv => good kv.2) d -> good (VDict d).

Definition starts_value (s : pystr) : Prop :=
  exists c t, s = c :: t /\ is_ws c = false /\ c <> 93%N /\ c <> 125%N.

Lemma digit_char_range c : is_digit_char c = true -> (48 <= c <= 57)%N.
Proof. unfold is_digit_char. rewrite andb_true_iff, !N.leb_le. done. Qed.

Lemma not_ws c : c <> 32%N -> c <> 9%N -> c <> 10%N -> c <> 13%N -> is_ws c = false.
Proof. intros. unfold is_ws. by rewrite !(proj2 (N.eqb_neq c _)). Qed.

Lemma nat_text_head n :
  0 <= n -> exists c t, nat_text n = c :: t /\ is_digit_char c = true.
Proof.
  intros Hn. destruct (nat_text_digits n Hn) as [HF Hne].
  destruct (nat_text n) as [|c t]; [done |]. inversion HF; subst. eauto.
Qed.

Lemma dumps_raw_starts v : good v -> starts_value (dumps_raw v).
Proof.
  destruct 1 as [|[]|z Hz|s Hs|l|d]; simpl;
    try (by do 2 eexists; repeat split; try done; by apply not_ws).
  unfold dec. destruct (Z.ltb_spec z 0).
  - by do 2 eexists; repeat split; try done; apply not_ws.
  - destruct (nat_text_head z) as (c & t & -> & Hc%digit_char_range); [done |].
    exists c, t. repeat split; try lia. apply not_ws; lia.
Qed.

Lemma skip_ws_starts s t : starts_value s -> skip_ws (s ++ t) = s ++ t.
Proof. intros (c & r & -> & Hc & _). simpl. by rewrite Hc. Qed.

Section Roundtrip.
(** Any conversion that reads the decimal text of a 64-bit integer. *)
Variable number : bool -> pystr -> res (value * pystr).
Hypothesis number_nat : forall (neg : bool) n t, 0 <= n -> I64_MIN <= (if neg then - n else n) <= I64_MAX ->
  num_stop t -> number neg (nat_text n ++ t) = Ok (VInt (if neg then - n else n), t).
Variables dup_exn nonfinite_exn : exn.
Notation pvalue := (pvalue number dup_exn nonfinite_exn).
Notation pmembers := (pmembers number dup_exn nonfinite_exn).
Notation pelements := (pelements number dup_exn nonfinite_exn).

Lemma pvalue_S f s :
  pvalue (S f) s = value_step number dup_exn nonfinite_exn (pmembers f) (pelements f) s.
Proof. done. Qed.
Lemma pmembers_S f s : pmembers (S f) s = members_step (pvalue f) (pmembers f) s.
Proof. done. Qed.
Lemma pelements_S f s : pelements (S f) s = elements_step (pvalue f) (pelements f) s.
Proof. done. Qed.

Definition rt (v : value) : Prop :=
  forall fuel rest, (2 * length (dumps_raw v) < fuel)%nat -> num_stop rest ->
  pvalue fuel (dumps_raw v ++ rest) = Ok (v, rest).

Lemma pelements_rt l :
  l <> [] -> Forall good l -> Forall rt l ->
  forall fuel rest, (2 * length (join 44 (map dumps_raw l)) + 1 < fuel)%nat ->
  pelements fuel (join 44 (map dumps_raw l) ++ 93%N :: rest) = Ok (l, rest).
Proof.
  induction l as [|v [|w l] IH]; intros Hne Hg Hr fuel rest Hf; [done | |];
    inversion Hg; inversion Hr; subst; (destruct fuel as [|fuel]; [lia |]).
  - cbn [map join] in *. rewrite pelements_S. unfold elements_step.
    match goal with H : rt v |- _ => rewrite H; [done | lia | by repeat split] end.
  - change (map dumps_raw (v :: w :: l)) with (dumps_raw v :: map dumps_raw (w :: l)) in *.
    change (join 44 (dumps_raw v :: map dumps_raw (w :: l))) with
      (dumps_raw v ++ 44%N :: join 44 (map dumps_raw (w :: l))) in *.
    rewrite length_app in Hf. cbn [length] in Hf. rewrite <- app_assoc.
    rewrite pelements_S. unfold elements_step.
    match goal with H : rt v |- _ => rewrite H; [|lia | by repeat split] end.
    cbn [skip_ws app]. change (is_ws 44) with false. cbv iota.
    assert (Hs : skip_ws (join 44 (map dumps_raw (w :: l)) ++ 93%N :: rest) =
                 join 44 (map dumps_raw (w :: l)) ++ 93%N :: rest).
    { assert (Hw : starts_value (dumps_raw w)).
      { apply dumps_raw_starts. by match goal with H : Forall good (w :: l) |- _ => inversion H end. }
      cbn [map]. destruct l; cbn [join map].
      - by apply skip_ws_starts.
      - rewrite <- app_assoc. by apply skip_ws_starts. }
    rewrite Hs, IH; [done | done | done | done | lia].
Qed.

Definition member (kv : pystr * value) : pystr := quote kv.1 ++ str ":" ++ dumps_raw kv.2.

Lemma pmembers_rt d :
  d <> [] -> Forall (fun kv => good_str kv.1) d -> Forall (fun kv => good kv.2) d ->
  Forall (fun kv => rt kv.2) d ->
  forall fuel rest, (2 * length (join 44 (map member d)) + 1 < fuel)%nat ->
  pmembers fuel (join 44 (map member d) ++ 125%N :: rest) = Ok (d, rest).
Proof.
  induction d as [|[k v] d IH]; intros Hne Hk Hg Hr fuel rest Hf; [done |].
  inversion Hk; inversion Hg; inversion Hr; subst. destruct fuel as [|fuel]; [lia |].
  assert (Hone : forall fuel' t, (2 * length (member (k, v)) < fuel')%nat -> num_stop t ->
    (let* (k', s2) := pstring (concat (map esc k) ++ 34%N :: str ":" ++ dumps_raw v ++ t) in
     match skip_ws s2 with
     | 58%N :: s3 => let* (v', s4) := pvalue fuel' (skip_ws s3) in Ok (k', v', s4)
     | _ => Raise JSONDecodeError end) = Ok (k, v, t)).
  { intros fuel' t Hf' Ht. rewrite pstring_quote by done.
    change (str ":" ++ dumps_raw v ++ t) with (58%N :: dumps_raw v ++ t).
    cbn [skip_ws]. change (is_ws 58) with false. cbv iota.
    rewrite skip_ws_starts by (by apply dumps_raw_starts).
    match goal with H : rt (_, _).2 |- _ => simpl in H; rewrite H; [done | | done] end.
    unfold member in Hf'. rewrite !length_app in Hf'. simpl in Hf'. lia. }
  assert (Hm : forall t, member (k, v) ++ t =
    34%N :: concat (map esc k) ++ 34%N :: str ":" ++ dumps_raw v ++ t).
  { intros t. unfold member, quote. simpl. by rewrite <- !app_assoc. }
  destruct d as [|kv d].
  - cbn [map join] in *. rewrite Hm, pmembers_S. unfold members_step.
    specialize (Hone fuel (125%N :: rest) ltac:(lia) ltac:(by repeat split)). clear -Hone.
    destruct (pstring _) as [[k' s2]|]; [|done].
    destruct (skip_ws s2) as [|c s3]; [done |].
    destruct (decide (c = 58%N)) as [->|Hc].
    + destruct (pvalue _ _) as [[v' s4]|]; [|done]. by injection Hone as -> -> ->.
    + exfalso. destruct c as [|p]; [done |].
      repeat (destruct p as [p|p|]; try done).
  - change (map member ((k, v) :: kv :: d)) with (member (k, v) :: map member (kv :: d)) in *.
    change (join 44 (member (k, v) :: map member (kv :: d))) with
      (member (k, v) ++ 44%N :: join 44 (map member (kv :: d))) in *.
    rewrite length_app in Hf. cbn [length] in Hf. rewrite <- app_assoc, Hm.
    rewrite pmembers_S. unfold members_step.
    specialize (Hone fuel ((44%N :: join 44 (map member (kv :: d))) ++ 125%N :: rest)
      ltac:(lia) ltac:(by repeat split)).
    assert (Hnext : pmembers fuel (skip_ws (join 44 (map member (kv :: d)) ++ 125%N :: rest)) =
              Ok (kv :: d, rest)).
    { replace (skip_ws (join 44 (map member (kv :: d)) ++ 125%N :: rest)) with
        (join 44 (map member (kv :: d)) ++ 125%N :: rest).
      - apply IH; try done. lia.
      - destruct kv as [k1 v1], d; reflexivity. }
    revert Hone Hnext. generalize (join 44 (map member (kv :: d))) as J.
    intros J Hone Hnext. clear -Hone Hnext.
    destruct (pstring _) as [[k' s2]|]; [|done].
    destruct (skip_ws s2) as [|c s3]; [done |].
    destruct (decide (c = 58%N)) as [->|Hc].
    + destruct (pvalue _ _) as [[v' s4]|]; [|done]. injection Hone as -> -> ->.
      cbn [skip_ws app]. change (is_ws 44) with false. cbv iota. by rewrite Hnext.
    + exfalso. destruct c as [|p]; [done |].
      repeat (destruct p as [p|p|]; try done).
Qed.

Lemma reject_duplicate_keys_ok d seen :
  NoDup (keys d) -> (forall k, k ∈ keys d -> k ∉ seen) ->
  reject_duplicate_keys dup_exn seen d = Ok tt.
Proof.
  revert seen; induction d as [|[k v] d IH]; intros seen Hn Hd; [done |]. simpl in *.
  apply NoDup_cons in Hn as [Hk Hn].
  rewrite bool_decide_false by (apply Hd; left). apply IH; [done |].
  intros k' Hk' [->|?]%elem_of_cons; [done |]. by apply (Hd k'); [right |].
Qed.

Lemma pvalue_num_head f c t n b rest :
  is_digit_char c = true -> number false (c :: t) = Ok (VInt n, rest) ->
  b = false -> pvalue (S f) (c :: t) = Ok (VInt n, rest).
Proof.
  intros Hc Hp _. pose proof (digit_char_range c Hc). rewrite pvalue_S. unfold value_step.
  rewrite !(proj2 (N.eqb_neq c _)) by lia. by rewrite Hc.
Qed.

Lemma rt_int z : I64_MIN <= z <= I64_MAX -> rt (VInt z).
Proof.
  unfold I64_MIN, I64_MAX. intros Hz fuel rest Hf Hr. simpl dumps_raw in *. unfold dec in *.
  destruct fuel as [|fuel]; [lia |].
  destruct (Z.ltb_spec z 0).
  - change (str "-") with [45%N]. rewrite <- app_assoc. cbn [app].
    pose proof (number_nat true (- z) rest ltac:(lia) ltac:(unfold I64_MIN, I64_MAX; lia) Hr) as Hp.
    destruct (nat_text_head (- z)) as (c & t & E & Hc); [lia |].
    rewrite E in *. cbn [app] in *. rewrite pvalue_S. unfold value_step.
    change (45 =? 34)%N with false. change (45 =? 123)%N with false.
    change (45 =? 91)%N with false. change (is_digit_char 45) with false.
    change (45 =? 45)%N with true. cbv iota. rewrite Hc, Hp. do 3 f_equal. lia.
  - pose proof (number_nat false z rest ltac:(lia) ltac:(unfold I64_MIN, I64_MAX; lia) Hr) as Hp.
    destruct (nat_text_head z) as (c & t & E & Hc); [lia |].
    rewrite E in *. cbn [app] in *. by apply (pvalue_num_head _ _ _ _ false).
Qed.

(** A value's text does not close an array or a mapping. *)
Lemma skip_ws_open (A : Type) (s t : pystr) (x : pystr -> A) (f : pystr -> A) (k : N) :
  starts_value s -> k = 93%N \/ k = 125%N ->
  (match skip_ws (s ++ t) with
   | c :: r => if (c =? k)%N then x r else f (s ++ t)
   | [] => f (s ++ t) end) = f (s ++ t).
Proof.
  intros (c & r & -> & Hw & H1 & H2) Hk. simpl. rewrite Hw.
  destruct (N.eqb_spec c k) as [->|]; [|done]. by destruct Hk; subst.
Qed.

Lemma starts_join (l : list value) :
  l <> [] -> Forall good l -> starts_value (join 44 (map dumps_raw l)).
Proof.
  destruct l as [|v [|w l]]; intros Hne Hg; [done | |]; inversion Hg; subst.
  - by apply dumps_raw_starts.
  - destruct (dumps_raw_starts v) as (c & t & E & Hc); [done |].
    exists c. eexists. split; [|done]. cbn [map join]. by rewrite E.
Qed.

Lemma rt_list l : Forall good l -> Forall rt l -> rt (VList l).
Proof.
  intros Hg Hr fuel rest Hf _. destruct fuel as [|fuel]; [lia |].
  cbn [dumps_raw] in *. change (str "[") with [91%N] in *. change (str "]") with [93%N] in *.
  rewrite <- !app_assoc. cbn [app]. rewrite pvalue_S. unfold value_step.
  change (91 =? 34)%N with false. change (91 =? 123)%N with false.
  change (91 =? 91)%N with true. cbv iota.
  destruct l as [|v l]; [done |].
  destruct (starts_join (v :: l)) as (c & t & E & Hc & H1 & H2); [done..|].
  rewrite !length_app in Hf. cbn [length] in Hf.
  pose proof (pelements_rt (v :: l) ltac:(done) Hg Hr fuel rest ltac:(lia)) as He.
  rewrite E in *. cbn [app skip_ws] in *. rewrite Hc.
  destruct c as [|p]; [by rewrite He |].
  repeat (destruct p as [p|p|]; try (by rewrite He); try done).
Qed.

Lemma rt_dict d :
  NoDup (keys d) -> Forall (fun kv => good_str kv.1) d -> Forall (fun kv => good kv.2) d ->
  Forall (fun kv => rt kv.2) d -> rt (VDict d).
Proof.
  intros Hn Hk Hg Hr fuel rest Hf _. destruct fuel as [|fuel]; [lia |].
  assert (Hm : map (fun '(k, x) => quote k ++ str ":" ++ dumps_raw x) d = map member d).
  { apply map_ext. by intros [k x]. }
  cbn [dumps_raw] in *. rewrite Hm in *.
  change (str "{") with [123%N] in *. change (str "}") with [125%N] in *.
  rewrite <- !app_assoc. cbn [app]. rewrite pvalue_S. unfold value_step.
  change (123 =? 34)%N with false. change (123 =? 123)%N with true. cbv iota.
  destruct d as [|[k v] d]; [done |].
  rewrite !length_app in Hf. cbn [length] in Hf.
  pose proof (pmembers_rt ((k, v) :: d) ltac:(done) Hk Hg Hr fuel rest ltac:(lia)) as He.
  assert (E : exists t, join 44 (map member ((k, v) :: d)) = 34%N :: t).
  { destruct d; eexists; reflexivity. }
  destruct E as [t E]. rewrite E in *. cbn [app skip_ws] in *.
  change (is_ws 34) with false. cbv iota. rewrite He.
  rewrite reject_duplicate_keys_ok; [done | done |]. intros ? _. apply not_elem_of_nil.
Qed.

Lemma rt_good v : good v -> rt v.
Proof.
  induction v as [|b|z|t|s|l IH|d IH] using value_nested_ind; intros Hg; inversion Hg; subst.
  - intros [|f] rest Hf _; [lia | reflexivity].
  - intros [|f] rest Hf _; [lia | by destruct b].
  - by apply rt_int.
  - intros [|f] rest Hf _; [lia |]. simpl dumps_raw. unfold quote. rewrite <- app_comm_cons, <- app_assoc.
    cbn [app]. rewrite pvalue_S. unfold value_step. change (34 =? 34)%N with true. cbv iota.
    by rewrite pstring_quote.
  - apply rt_list; [done |]. rewrite Forall_forall in *. auto.
  - apply rt_dict; try done. rewrite Forall_forall in *. auto.
Qed.

Lemma skip_ws_all s : forallb is_ws s = true -> skip_ws s = [].
Proof. induction s as [|c s IH]; [done |]. simpl. rewrite andb_true_iff. intros [-> Hs]. auto. Qed.

Lemma ws_stop s : forallb is_ws s = true -> num_stop s.
Proof.
  destruct s as [|c s]; [done |]. simpl. rewrite andb_true_iff. intros [Hc _]. unfold is_ws in Hc.
  rewrite !orb_true_iff, !N.eqb_eq in Hc. destruct Hc as [[[-> | ->] | ->] | ->]; repeat split; done.
Qed.

(** [json.loads] on the compact text of a value, with white space after it,
    gives the value back. *)
Lemma loads_with_text v rest :
  good v -> forallb is_ws rest = true ->
  loads_with number dup_exn nonfinite_exn (dumps_raw v ++ rest) = Ok v.
Proof.
  intros Hg Hws. unfold loads_with. destruct (dumps_raw_starts v Hg) as (c & t & E & Hc & _).
  pose proof (rt_good v Hg (2 * length (dumps_raw v ++ rest) + 2)%nat rest
    ltac:(rewrite length_app; lia) (ws_stop _ Hws)) as Hr.
  rewrite E in *.
  destruct (decide (c = 65279%N)) as [->|Hbom].
  { exfalso. clear -Hg E. destruct v as [|[]|z|t'|s|l|d]; try done; simpl in E.
    - unfold dec in E. destruct (Z.ltb_spec z 0) as [|Hz]; [done |].
      destruct (nat_text_head z Hz) as (c & r & E' & Hd%digit_char_range).
      rewrite E' in E. injection E as -> _. lia.
    - inversion Hg. }
  rewrite <- app_comm_cons in *. cbn [skip_ws]. rewrite Hc, Hr, skip_ws_all by done.
  destruct c as [|p]; [done |]. by repeat (destruct p as [p|p|]; try done).
Qed.

Lemma loads_with_dumps_raw v :
  good v -> loads_with number dup_exn nonfinite_exn (dumps_raw v) = Ok v.
Proof. intros Hg. rewrite <- (app_nil_r (dumps_raw v)). by apply loads_with_text. Qed.
End Roundtrip.

Lemma pnumber_i64 (neg : bool) n t : 0 <= n -> I64_MIN <= (if neg then - n else n) <= I64_MAX ->
  num_stop t -> pnumber neg (nat_text n ++ t) = Ok (VInt (if neg then - n else n), t).
Proof.
  unfold I64_MIN, I64_MAX. intros Hn Hz Ht. apply pnumber_nat; [|done]. destruct neg; lia.
Qed.

Lemma loads_dumps_raw dup nonfinite v : good v -> loads dup nonfinite (dumps_raw v) = Ok v.
Proof. apply loads_with_dumps_raw, pnumber_i64. Qed.

(** ** Key order *)

Lemma str_leb_refl s : str_leb s s = true.
Proof. induction s as [|a s IH]; simpl; [done |]. by rewrite N.eqb_refl, IH, orb_true_r. Qed.

Lemma str_leb_total s t : str_leb s t = false -> str_leb t s = true.
Proof.
  revert t; induction s as [|a s IH]; intros [|b t]; simpl; try done.
  destruct (N.ltb_spec a b), (N.ltb_spec b a), (N.eqb_spec a b), (N.eqb_spec b a);
    simpl; try lia; auto.
Qed.

Lemma str_leb_antisym s t : str_leb s t = true -> str_leb t s = true -> s = t.
Proof.
  revert t; induction s as [|a s IH]; intros [|b t]; simpl; try done.
  destruct (N.ltb_spec a b), (N.ltb_spec b a), (N.eqb_spec a b), (N.eqb_spec b a);
    simpl; try lia; try done. subst. intros. f_equal. auto.
Qed.

Lemma str_leb_trans s t u : str_leb s t = true -> str_leb t u = true -> str_leb s u = true.
Proof.
  revert t u; induction s as [|a s IH]; intros [|b t] [|c u]; simpl; try done.
  destruct (N.ltb_spec a b), (N.ltb_spec b c), (N.ltb_spec a c),
    (N.eqb_spec a b), (N.eqb_spec b c), (N.eqb_spec a c); simpl; try lia; try done.
  apply IH.
Qed.

Definition kle (a b : pystr * value) : Prop := str_leb a.1 b.1 = true.

#[global] Instance kle_trans : Transitive kle.
Proof. intros a b c. apply str_leb_trans. Qed.

Lemma kinsert_perm k v d : kinsert k v d ≡ₚ (k, v) :: d.
Proof.
  induction d as [|[k' v'] d IH]; simpl; [done |]. destruct (str_leb k k'); [done |].
  rewrite IH. constructor.
Qed.

Lemma ksort_perm d : ksort d ≡ₚ d.
Proof.
  induction d as [|[k v] d IH]; [done |]. simpl. rewrite kinsert_perm. by constructor.
Qed.

Lemma kinsert_sorted k v d : StronglySorted kle d -> StronglySorted kle (kinsert k v d).
Proof.
  induction 1 as [|[k' v'] d Hs IH HF]; simpl; [repeat constructor |].
  destruct (str_leb k k') eqn:E.
  - constructor; [by constructor |]. constructor; [done |].
    eapply Forall_impl; [exact HF |]. intros a Ha. by apply (kle_trans (k, v) (k', v') a).
  - constructor; [done |]. rewrite kinsert_perm. constructor; [|done].
    by apply str_leb_total.
Qed.

Lemma ksort_sorted d : StronglySorted kle (ksort d).
Proof. induction d as [|[k v] d IH]; [constructor |]. by apply kinsert_sorted. Qed.

Lemma ksort_id d : StronglySorted kle d -> ksort d = d.
Proof.
  induction 1 as [|[k v] d Hs IH HF]; [done |]. simpl. rewrite IH.
  destruct d as [|[k' v'] d]; [done |]. simpl. inversion HF as [|? ? Hk]; subst.
  unfold kle in Hk. simpl in Hk. by rewrite Hk.
Qed.

Lemma keys_perm d d' : d ≡ₚ d' -> keys d ≡ₚ keys d'.
Proof. apply Permutation_map. Qed.

Lemma dget_Some_elem k v d : dget k d = Some v -> (k, v) ∈ d.
Proof.
  induction d as [|[k' v'] d IH]; simpl; [done |].
  case_decide; [intros [= ->]; subst; left | intros; right; auto].
Qed.

Lemma dget_elem k v d : NoDup (keys d) -> (k, v) ∈ d -> dget k d = Some v.
Proof.
  induction d as [|[k' v'] d IH]; simpl; intros Hn Hx; [by apply not_elem_of_nil in Hx |].
  apply NoDup_cons in Hn as [Hk Hn]. apply elem_of_cons in Hx as [[= -> ->]|Hx].
  - by rewrite decide_True.
  - rewrite decide_False; [auto |]. intros ->. destruct Hk.
    by apply (list_elem_of_fmap_2 fst d (k', v)).
Qed.

(** The key order of a mapping with distinct keys is unique. *)
Lemma ksort_unique d d' : NoDup (keys d) -> d ≡ₚ d' -> ksort d = ksort d'.
Proof.
  intros Hn Hp. apply (StronglySorted_unique_strong kle); [| apply ksort_sorted..|].
  - intros [k v] [k' v'] Hx Hy H1 H2.
    assert (k = k') as <- by (by apply str_leb_antisym).
    rewrite ksort_perm in Hx, Hy. rewrite <- Hp in Hy. f_equal.
    apply (dget_elem _ _ _ Hn) in Hx, Hy. congruence.
  - by rewrite !ksort_perm.
Qed.

Lemma dget_perm k d d' : NoDup (keys d) -> d ≡ₚ d' -> dget k d = dget k d'.
Proof.
  intros Hn Hp. assert (Hn' : NoDup (keys d')) by (by rewrite <- (keys_perm _ _ Hp)).
  apply option_eq. intros v. split; intros H%dget_Some_elem; apply dget_elem; try done;
    by rewrite ?Hp in *.
Qed.

(** ** Canonical values *)

Lemma canon_dict d :
  canon (VDict d) = VDict (ksort (map (fun kv => (kv.1, canon kv.2)) d)).
Proof. simpl. do 2 f_equal. apply map_ext. by intros [k v]. Qed.

Lemma keys_map_canon (d : dict) : keys (map (fun kv => (kv.1, canon kv.2)) d) = keys d.
Proof. unfold keys. rewrite map_map. done. Qed.

Lemma dget_map k (f : value -> value) d :
  dget k (map (fun kv => (kv.1, f kv.2)) d) = option_map f (dget k d).
Proof. induction d as [|[k' v] d IH]; simpl; [done |]. by case_decide. Qed.

(** The members of a canonical mapping. *)
Lemma dget_canon k d d' :
  NoDup (keys d) -> canon (VDict d) = VDict d' -> dget k d' = option_map canon (dget k d).
Proof.
  intros Hn. rewrite canon_dict. intros [= <-]. rewrite <- dget_map. symmetry.
  apply dget_perm; [by rewrite keys_map_canon | by rewrite ksort_perm].
Qed.

Lemma canon_idem v : canon (canon v) = canon v.
Proof.
  induction v as [| | | | |l IH|d IH] using value_nested_ind; try done.
  - simpl. f_equal. rewrite map_map. apply map_ext_in. rewrite Forall_forall in IH.
    intros x Hx. apply IH. by apply list_elem_of_In.
  - rewrite canon_dict, canon_dict. f_equal.
    assert (E : map (fun kv => (kv.1, canon kv.2)) (ksort (map (fun kv => (kv.1, canon kv.2)) d)) =
                ksort (map (fun kv => (kv.1, canon kv.2)) d)).
    { rewrite <- (map_id (ksort _)) at 2. apply map_ext_in. intros [k x] Hx%list_elem_of_In.
      rewrite ksort_perm in Hx. apply list_elem_of_fmap in Hx as ([k' y] & [= -> ->] & Hy).
      rewrite Forall_forall in IH. simpl. f_equal. by apply (IH (k', y)). }
    rewrite E. apply ksort_id, ksort_sorted.
Qed.

(** A value as [json.loads] builds it: distinct keys, joined surrogates. *)
Inductive wf : value -> Prop :=
| wf_none : wf VNone
| wf_bool b : wf (VBool b)
| wf_int z : wf (VInt z)
| wf_float t : wf (VFloat t)
| wf_str s : good_str s -> wf (VStr s)
| wf_list l : Forall wf l -> wf (VList l)
| wf_dict d : NoDup (keys d) -> Forall (fun kv => good_str kv.1) d ->
    Forall (fun kv => wf kv.2) d -> wf (VDict d).

Lemma wf_dget k d v : wf (VDict d) -> dget k d = Some v -> wf v.
Proof.
  intros Hw Hk%dget_Some_elem. inversion Hw as [| | | | | |d' _ _ Hv]; subst.
  rewrite Forall_forall in Hv. by apply (Hv (k, v)).
Qed.

Lemma wf_get k d : wf (VDict d) -> wf (get d k).
Proof. intros Hw. unfold get. destruct (dget (str k) d) eqn:E; [by apply (wf_dget _ _ _ Hw E) | constructor]. Qed.

Lemma wf_canon v : wf v -> wf (canon v).
Proof.
  induction v as [| | | | |l IH|d IH] using value_nested_ind; intros Hw; try exact Hw;
    inversion Hw; subst.
  - simpl. constructor. rewrite Forall_fmap. rewrite Forall_forall in *. simpl. auto.
  - rewrite canon_dict. constructor.
    + rewrite (keys_perm _ _ (ksort_perm _)), keys_map_canon. done.
    + rewrite ksort_perm, Forall_fmap. done.
    + rewrite ksort_perm, Forall_fmap. rewrite Forall_forall in *. simpl. auto.
Qed.

(** What [_normalize_json] accepts. *)
Fixpoint norm_ok (depth : Z) (v : value) : bool :=
  (depth <=? MAX_JSON_DEPTH) &&
  match v with
  | VInt z => (I64_MIN <=? z) && (z <=? I64_MAX)
  | VFloat _ => false
  | VList l => forallb (norm_ok (depth + 1)) l
  | VDict d => forallb (fun kv => norm_ok (depth + 1) kv.2) d
  | _ => true
  end.

(** [_normalize_json] returns its argument or raises [ValueError]. *)
Lemma normalize_json_spec v depth :
  if norm_ok depth v then normalize_json depth v = Ok v
  else exists m, normalize_json depth v = Raise (ValueError m).
Proof.
  revert depth. induction v as [|b|z|t|s|l IH|d IH] using value_nested_ind; intros depth; simpl;
    destruct (Z.leb_spec depth MAX_JSON_DEPTH), (Z.ltb_spec MAX_JSON_DEPTH depth);
    try lia; simpl; eauto.
  - destruct (Z.leb_spec I64_MIN z), (Z.ltb_spec z I64_MIN), (Z.leb_spec z I64_MAX),
      (Z.ltb_spec I64_MAX z); try lia; simpl; eauto.
  - set (go := fix go l := match l with [] => Ok [] | x :: l' => _ end).
    assert (Hgo : if forallb (norm_ok (depth + 1)) l then go l = Ok l
      else exists m, go l = Raise (ValueError m)).
    { induction IH as [|x l Hx _ IHl]; [done |]. simpl. specialize (Hx (depth + 1)).
      destruct (norm_ok (depth + 1) x); simpl; [|destruct Hx as [m ->]; eauto].
      rewrite Hx. destruct (forallb _ l); [by rewrite IHl |].
      destruct IHl as [m ->]. eauto. }
    destruct (forallb _ l); [by rewrite Hgo | destruct Hgo as [m ->]; eauto].
  - set (go := fix go d := match d with [] => Ok [] | (k, x) :: d' => _ end).
    assert (Hgo : if forallb (fun kv => norm_ok (depth + 1) kv.2) d then go d = Ok d
      else exists m, go d = Raise (ValueError m)).
    { induction IH as [|[k x] d Hx _ IHd]; [done |]. simpl in *. specialize (Hx (depth + 1)).
      destruct (norm_ok (depth + 1) x); simpl; [|destruct Hx as [m ->]; eauto].
      rewrite Hx. destruct (forallb _ d); [by rewrite IHd |].
      destruct IHd as [m ->]. eauto. }
    destruct (forallb _ d); [by rewrite Hgo | destruct Hgo as [m ->]; eauto].
Qed.

Lemma norm_ok_canon v depth : norm_ok depth (canon v) = norm_ok depth v.
Proof.
  revert depth. induction v as [|b|z|t|s|l IH|d IH] using value_nested_ind; intros depth;
    try done.
  - simpl. f_equal. induction IH as [|x l Hx _ IHl]; [done |]. simpl. by rewrite Hx, IHl.
  - rewrite canon_dict. cbn [norm_ok]. f_equal.
    transitivity (forallb (fun kv => norm_ok (depth + 1) kv.2)
      (map (fun kv => (kv.1, canon kv.2)) d)).
    + apply eq_true_iff_eq. rewrite !forallb_forall.
      split; intros H x Hx%list_elem_of_In; apply H, list_elem_of_In;
        by rewrite ?ksort_perm in *.
    + induction IH as [|[k x] d Hx _ IHd]; [done |]. simpl in *. by rewrite Hx, IHd.
Qed.

Lemma good_of_wf v depth : wf v -> norm_ok depth v = true -> good v.
Proof.
  revert depth. induction v as [|b|z|t|s|l IH|d IH] using value_nested_ind;
    intros depth Hw Hn; inversion Hw; subst; simpl in Hn;
    apply andb_true_iff in Hn as [_ Hn]; try constructor; try done.
  - rewrite andb_true_iff, !Z.leb_le in Hn. done.
  - rewrite forallb_forall in Hn. rewrite Forall_forall in *. intros x Hx.
    apply (IH x Hx (depth + 1)); [auto | by apply Hn, list_elem_of_In].
  - rewrite forallb_forall in Hn. rewrite Forall_forall in *. intros x Hx.
    apply (IH x Hx (depth + 1)); [auto | by apply Hn, list_elem_of_In].
Qed.

Lemma canonical_json_inv v t :
  canonical_json v = Ok t ->
  t = dumps v /\ norm_ok 0 v = true /\ zlen (utf8 (dumps v)) <= MAX_JSON_BYTES.
Proof.
  unfold canonical_json. intros H. pose proof (normalize_json_spec v 0) as Hn.
  destruct (norm_ok 0 v) eqn:E; [rewrite Hn in H | destruct Hn as [m Hm]; rewrite Hm in H; discriminate].
  destruct (Z.ltb_spec MAX_JSON_BYTES (zlen (utf8 (dumps v)))); [discriminate |].
  injection H as <-. auto.
Qed.

Lemma canonical_json_intro v :
  norm_ok 0 v = true -> zlen (utf8 (dumps v)) <= MAX_JSON_BYTES -> canonical_json v = Ok (dumps v).
Proof.
  intros Hn Hl. unfold canonical_json. pose proof (normalize_json_spec v 0) as H.
  rewrite Hn in H. rewrite H.
  by destruct (Z.ltb_spec MAX_JSON_BYTES (zlen (utf8 (dumps v)))); [lia |].
Qed.

(** [canonical_json] raises nothing but [ValueError]. *)
Lemma canonical_json_err v e : canonical_json v = Raise e -> exists m, e = ValueError m.
Proof.
  unfold canonical_json. pose proof (normalize_json_spec v 0) as Hn.
  destruct (norm_ok 0 v); [rewrite Hn | destruct Hn as [m Hm]; rewrite Hm; intros [= <-]; eauto].
  destruct (MAX_JSON_BYTES <? _); intros [=]; eauto.
Qed.

Lemma dumps_canon v : dumps (canon v) = dumps v.
Proof. unfold dumps. by rewrite canon_idem. Qed.

Lemma canonical_json_canon v t : canonical_json v = Ok t -> canonical_json (canon v) = Ok t.
Proof.
  intros (-> & Hn & Hl)%canonical_json_inv. rewrite <- (dumps_canon v).
  apply canonical_json_intro; [by rewrite norm_ok_canon | by rewrite dumps_canon].
Qed.

Lemma good_canon v : wf v -> norm_ok 0 v = true -> good (canon v).
Proof. intros Hw Hn. apply (good_of_wf _ 0); [by apply wf_canon | by rewrite norm_ok_canon]. Qed.

Lemma loads_dumps dup nonfinite v :
  wf v -> norm_ok 0 v = true -> loads dup nonfinite (dumps v) = Ok (canon v).
Proof. intros Hw Hn. by apply loads_dumps_raw, good_canon. Qed.

(** The round trip of the store: decoding what was encoded gives the value
    back, its mappings in key order. *)
Lemma decode_encode d t field :
  wf (VDict d) -> canonical_json (VDict d) = Ok t ->
  exists d', canon (VDict d) = VDict d' /\ decode_canonical_json t field = Ok d'.
Proof.
  intros Hw Hc. destruct (canonical_json_inv _ _ Hc) as (-> & Hn & Hl).
  rewrite canon_dict. eexists. split; [done |].
  unfold decode_canonical_json.
  destruct (Z.ltb_spec MAX_JSON_BYTES (zlen (utf8 (dumps (VDict d))))); [lia |].
  unfold store_loads. rewrite loads_dumps by done. cbn [reraise].
  pose proof (canonical_json_canon _ _ Hc) as Hc'.
  rewrite canon_dict in Hc' |- *. rewrite Hc'. cbn [reraise].
  by rewrite bool_decide_true.
Qed.

(** Canonical text identifies a value up to key order. *)
Lemma canonical_json_inj v w t :
  wf v -> wf w -> canonical_json v = Ok t -> canonical_json w = Ok t -> canon v = canon w.
Proof.
  intros Hv Hw (-> & Hn & _)%canonical_json_inv (E & Hn' & _)%canonical_json_inv.
  pose proof (loads_dumps JSONDecodeError JSONDecodeError v Hv Hn) as H1.
  pose proof (loads_dumps JSONDecodeError JSONDecodeError w Hw Hn') as H2.
  rewrite <- E in H2. congruence.
Qed.

(** ** Deciding well-formedness *)

Fixpoint good_strb (s : pystr) : bool :=
  match s with
  | [] => true
  | c :: s' =>
      (c <=? 1114111)%N &&
      (negb (is_high c) || match s' with [] => true | c' :: _ => negb (is_low c') end) &&
      good_strb s'
  end.

Lemma good_strb_good s : good_strb s = true -> good_str s.
Proof.
  induction s as [|c s IH]; [done |]. simpl. rewrite !andb_true_iff.
  intros [[Hc Hh] Hs]. split; [by apply N.leb_le |]. split; [|auto].
  intros E. rewrite E in Hh. destruct s as [|c' s]; [by left | right].
  exists c'. split; [done |]. by apply negb_true_iff.
Qed.

Fixpoint wfb (v : value) : bool :=
  match v with
  | VStr s => good_strb s
  | VList l => forallb wfb l
  | VDict d =>
      bool_decide (NoDup (keys d)) && forallb (fun kv => good_strb kv.1) d &&
      forallb (fun kv => wfb kv.2) d
  | _ => true
  end.

Lemma wfb_wf v : wfb v = true -> wf v.
Proof.
  induction v as [| | | | |l IH|d IH] using value_nested_ind; simpl; try by constructor.
  - intros H. constructor. by apply good_strb_good.
  - rewrite forallb_forall. intros H. constructor. rewrite Forall_forall in *.
    intros x Hx. apply IH; [done |]. by apply H, list_elem_of_In.
  - rewrite !andb_true_iff, !forallb_forall. intros [[Hn Hk] Hv].
    apply bool_decide_eq_true in Hn. rewrite Forall_forall in IH.
    constructor; [done | |]; rewrite Forall_forall; intros kv Hkv.
    + by apply good_strb_good, Hk, list_elem_of_In.
    + apply IH; [done |]. by apply Hv, list_elem_of_In.
Qed.

(** ** Plain text *)

Lemma plain_good s : Forall plain s -> good_str s.
Proof.
  induction 1 as [|c s [Hc _] _ IH]; [done |]. simpl. split; [lia |]. split; [|done].
  unfold is_high. intros H. apply andb_true_iff in H as [H _]. apply N.leb_le in H. lia.
Qed.

Lemma str_good s : forallb plainb (str s) = true -> good_str (str s).
Proof. intros H. by apply plain_good, plain_str. Qed.

(** ** Equality of a decoded value with itself *)

Lemma py_eq_dict_refl d :
  NoDup (keys d) -> Forall (fun kv => py_eq kv.2 kv.2 = true) d -> py_eq (VDict d) (VDict d) = true.
Proof.
  intros Hn Hd. simpl. rewrite Nat.eqb_refl. simpl.
  assert (Hsub : forall kv, kv ∈ d -> dget kv.1 d = Some kv.2)
    by (intros [k v] Hkv; by apply dget_elem).
  clear Hn. revert Hsub. generalize d at 2 3 as e.
  induction Hd as [|[k x] d Hx _ IHd]; intros e Hsub; [done |].
  pose proof (Hsub (k, x) ltac:(by left)) as Hk. simpl in Hk. rewrite Hk. simpl in Hx.
  rewrite Hx. simpl. apply IHd. intros kv Hkv. apply Hsub. by right.
Qed.

Lemma py_eq_refl v : wf v -> py_eq v v = true.
Proof.
  induction v as [|b|z|t|s|l IH|d IH] using value_nested_ind; intros Hw; inversion Hw; subst;
    try (simpl; done); try (by simpl; rewrite ?Bool.eqb_reflx, ?Z.eqb_refl, ?bool_decide_true).
  - simpl. match goal with H : Forall wf l |- _ => rename H into Hl end. clear Hw.
    induction IH as [|x l Hx _ IHl]; [done |]. apply Forall_cons in Hl as [Hwx Hwl].
    rewrite (Hx Hwx). by apply IHl.
  - apply py_eq_dict_refl; [done |].
    match goal with H : Forall (fun kv => wf kv.2) d |- _ => rename H into Hwd end.
    clear -IH Hwd. induction IH as [|[k x] d Hx _ IHd]; constructor.
    + apply Hx. by apply Forall_cons in Hwd as [? _].
    + apply IHd. by apply Forall_cons in Hwd as [_ ?].
Qed.

(** ** Lengths *)

Lemma zlen_app {A} (l m : list A) : zlen (l ++ m) = zlen l + zlen m.
Proof. unfold zlen. rewrite length_app. lia. Qed.

Lemma zlen_pos {A} (l : list A) : 0 <= zlen l.
Proof. unfold zlen. lia. Qed.
