(* ===== verification/JsonSize.v ===== *)
(** * The size of canonical text, and the decoder's fuel

    A bound on the length of the text of a value whose strings are plain
    ASCII, from the lengths of its strings, and a bound on the length of the
    texts a pattern matches: what is needed to show that the values the
    protocol builds stay under the store's limit.  At the end: every scanner of
    the decoder consumes what it reads, so the fuel of [loads] is enough for
    any text ([loads_total]). *)

From S2P Require Import Prelude Regex Sha256 PyTime Json JsonFacts.
Local Open Scope Z_scope.

(** ** Lengths of matched texts *)

Fixpoint re_max (r : re) : option nat :=
  match r with
  | RNone | REps => Some O
  | RCls _ => Some 1%nat
  | RSeq r1 r2 =>
      match re_max r1, re_max r2 with Some a, Some b => Some (a + b)%nat | _, _ => None end
  | RAlt r1 r2 =>
      match re_max r1, re_max r2 with Some a, Some b => Some (Nat.max a b) | _, _ => None end
  | RRep r _ n => match re_max r with Some a => Some (n * a)%nat | None => None end
  | RStar _ => None
  end.

Lemma matches_max r s k : matches r s -> re_max r = Some k -> (length s <= k)%nat.
Proof.
  revert s k; induction r as [| |c|r1 IH1 r2 IH2|r1 IH1 r2 IH2|r IH m n|r IH]; intros s k Hm Hk;
    cbn [re_max] in Hk.
  - by apply matches_none in Hm.
  - apply matches_eps in Hm as ->. simpl. lia.
  - apply matches_cls in Hm as (a & -> & _). injection Hk as <-. done.
  - destruct (re_max r1), (re_max r2); try done. injection Hk as <-.
    apply matches_seq in Hm as (s1 & s2 & -> & H1 & H2). rewrite length_app.
    specialize (IH1 _ _ H1 eq_refl). specialize (IH2 _ _ H2 eq_refl). lia.
  - destruct (re_max r1), (re_max r2); try done. injection Hk as <-.
    apply matches_alt in Hm as [H|H]; [specialize (IH1 _ _ H eq_refl) | specialize (IH2 _ _ H eq_refl)];
      lia.
  - destruct (re_max r) as [a|]; [|done]. injection Hk as <-.
    revert m s Hm; induction n as [|n IHn]; intros m s Hm;
      apply matches_rep in Hm as [[_ ->]|(n' & s1 & s2 & E & _ & -> & H1 & H2)]; simpl; try lia.
    injection E as <-. rewrite length_app. specialize (IH _ _ H1 eq_refl).
    specialize (IHn _ _ H2). lia.
  - done.
Qed.

Lemma fullmatch_max r s k : re_max r = Some k -> fullmatch r s = true -> (length s <= k)%nat.
Proof. rewrite fullmatch_matches. intros Hk H. by eapply matches_max. Qed.

(** ** Lengths of texts *)

(** Strings and keys are plain, integers have at most 19 digits. *)
Inductive plain_value : value -> Prop :=
| PlainNone : plain_value VNone
| PlainBool b : plain_value (VBool b)
| PlainInt z : I64_MIN <= z <= I64_MAX -> plain_value (VInt z)
| PlainStr s : Forall plain s -> plain_value (VStr s)
| PlainList l : Forall plain_value l -> plain_value (VList l)
| PlainDict d :
    NoDup (keys d) -> Forall (fun kv => Forall plain kv.1) d ->
    Forall (fun kv => plain_value kv.2) d -> plain_value (VDict d).

(** An upper bound of the length of the text. *)
Fixpoint size (v : value) : nat :=
  match v with
  | VNone | VBool _ => 5
  | VInt _ => 20
  | VFloat t => length t
  | VStr s => length s + 2
  | VList l => 2 + list_sum (map (fun x => size x + 1) l)
  | VDict d => 2 + list_sum (map (fun kv => length kv.1 + 4 + size kv.2) d)
  end%nat.

Lemma concat_esc s : Forall plain s -> concat (map esc s) = s.
Proof.
  induction 1 as [|c s Hc _ IH]; [done |]. cbn [map concat]. rewrite IH.
  assert (esc c = [c]) as ->; [|done]. unfold plain in Hc. unfold esc.
  rewrite !(proj2 (N.eqb_neq c _)) by lia.
  rewrite (proj2 (N.leb_le 32 c)), (proj2 (N.leb_le c 126)) by lia. done.
Qed.

Lemma quote_length s : Forall plain s -> length (quote s) = (length s + 2)%nat.
Proof. intros H. unfold quote. rewrite concat_esc by done. simpl. rewrite length_app. simpl. lia. Qed.

Lemma join_length sep l :
  (length (join sep l) <= list_sum (map (fun t => length t + 1) l))%nat.
Proof.
  induction l as [|t [|t' l] IH]; [done | simpl; lia |].
  cbn [join] in *. rewrite length_app. simpl in *. lia.
Qed.

Lemma dec_length z : I64_MIN <= z <= I64_MAX -> (length (dec z) <= 20)%nat.
Proof.
  unfold I64_MIN, I64_MAX. intros H.
  unfold dec. destruct (Z.ltb_spec z 0).
  - change (str "-" ++ nat_text (- z)) with (45%N :: nat_text (- z)). simpl.
    pose proof (nat_text_length (- z) 19 ltac:(lia) ltac:(lia)). lia.
  - pose proof (nat_text_length z 20 ltac:(lia) ltac:(lia)). lia.
Qed.

Lemma list_sum_le {A} (f g : A -> nat) l :
  Forall (fun a => (f a <= g a)%nat) l -> (list_sum (map f l) <= list_sum (map g l))%nat.
Proof. induction 1; simpl; lia. Qed.

Lemma dumps_raw_length v : plain_value v -> (length (dumps_raw v) <= size v)%nat.
Proof.
  induction v as [|b|z|t|s|l IH|d IH] using value_nested_ind; intros H; inversion H; subst;
    cbn [dumps_raw size].
  - simpl. lia.
  - destruct b; simpl; lia.
  - by apply dec_length.
  - by rewrite quote_length.
  - rewrite !length_app. change (length (str "[")) with 1%nat. change (length (str "]")) with 1%nat.
    pose proof (join_length 44 (map dumps_raw l)) as Hj. rewrite map_map in Hj.
    enough (list_sum (map (fun x => length (dumps_raw x) + 1) l) <=
            list_sum (map (fun x => size x + 1) l))%nat by lia.
    apply list_sum_le. rewrite Forall_forall in *. intros x Hx.
    specialize (IH x Hx ltac:(auto)). lia.
  - rewrite !length_app. change (length (str "{")) with 1%nat. change (length (str "}")) with 1%nat.
    match goal with |- context [map ?f d] =>
      pose proof (join_length 44 (map f d)) as Hj end. rewrite map_map in Hj.
    match type of Hj with (_ <= ?x)%nat =>
      enough (x <= list_sum (map (fun kv => length kv.1 + 4 + size kv.2) d))%nat by lia end.
    apply list_sum_le. rewrite Forall_forall in *. intros [k x] Hx.
    specialize (IH (k, x) Hx ltac:(auto)). simpl in IH.
    rewrite !length_app, quote_length by (by apply (H2 (k, x))).
    change (length (str ":")) with 1%nat. simpl. lia.
Qed.

Lemma list_sum_perm l l' : l ≡ₚ l' -> list_sum l = list_sum l'.
Proof. induction 1; simpl; lia. Qed.

Lemma size_canon v : size (canon v) = size v.
Proof.
  induction v as [| | | | |l IH|d IH] using value_nested_ind; try done.
  - simpl. rewrite map_map. do 2 f_equal. f_equal. apply map_ext_in. intros x Hx.
    rewrite Forall_forall in IH. rewrite IH; [done |]. by apply list_elem_of_In.
  - rewrite canon_dict. cbn [size].
    rewrite (list_sum_perm _ _ (Permutation_map _ (ksort_perm _))), map_map. do 2 f_equal.
    apply map_ext_in. intros [k x] Hx. simpl. rewrite Forall_forall in IH.
    specialize (IH (k, x)). simpl in IH. rewrite IH; [done |]. by apply list_elem_of_In.
Qed.

Lemma plain_canon v : plain_value v -> plain_value (canon v).
Proof.
  induction v as [| | | | |l IH|d IH] using value_nested_ind; intros H; try done;
    inversion H; subst.
  - simpl. constructor. apply Forall_fmap. rewrite Forall_forall in *. simpl. auto.
  - rewrite canon_dict. constructor.
    + rewrite (keys_perm _ _ (ksort_perm _)), keys_map_canon. done.
    + rewrite ksort_perm, Forall_fmap. done.
    + rewrite ksort_perm, Forall_fmap. rewrite Forall_forall in *. simpl. auto.
Qed.

Lemma plain_wf v : plain_value v -> wf v.
Proof.
  induction v as [| | | | |l IH|d IH] using value_nested_ind; intros H; inversion H; subst;
    constructor; try done; try (by apply plain_good).
  - rewrite Forall_forall in *. auto.
  - eapply Forall_impl; [exact H2 |]. intros kv. apply plain_good.
  - rewrite Forall_forall in *. auto.
Qed.

Definition ascii_text (s : pystr) : Prop := Forall (fun c => (c < 128)%N) s.

Lemma plain_ascii s : Forall plain s -> ascii_text s.
Proof. intros H. eapply Forall_impl; [exact H |]. intros a [Ha _]. lia. Qed.

Lemma str_ascii s : forallb (fun c => c <? 128)%N (str s) = true -> ascii_text (str s).
Proof.
  rewrite forallb_forall. intros H. apply Forall_forall. intros a Ha%list_elem_of_In.
  by apply N.ltb_lt, H.
Qed.

Lemma quote_ascii s : Forall plain s -> ascii_text (quote s).
Proof.
  intros H. unfold quote. rewrite concat_esc by done. constructor; [lia |].
  apply Forall_app. split; [by apply plain_ascii | by repeat constructor].
Qed.

Lemma join_ascii sep l : (sep < 128)%N -> Forall ascii_text l -> ascii_text (join sep l).
Proof.
  intros Hs. induction 1 as [|t l Ht Hl IH]; [constructor |].
  destruct l as [|t' l]; [done |]. cbn [join] in *. apply Forall_app. split; [done |].
  by constructor.
Qed.

Lemma dumps_raw_ascii v : plain_value v -> ascii_text (dumps_raw v).
Proof.
  induction v as [|b|z|t|s|l IH|d IH] using value_nested_ind; intros H; inversion H; subst;
    cbn [dumps_raw].
  - by apply str_ascii.
  - destruct b; by apply str_ascii.
  - apply plain_ascii, dec_plain.
  - by apply quote_ascii.
  - apply Forall_app. split; [by apply str_ascii |]. apply Forall_app. split; [|by apply str_ascii].
    apply join_ascii; [lia |]. apply Forall_fmap. rewrite Forall_forall in *. simpl. auto.
  - apply Forall_app. split; [by apply str_ascii |]. apply Forall_app. split; [|by apply str_ascii].
    apply join_ascii; [lia |]. apply Forall_fmap. rewrite Forall_forall in *.
    intros [k x] Hx. change (ascii_text (quote k ++ str ":" ++ dumps_raw x)).
    apply Forall_app. split; [by apply quote_ascii, (H2 (k, x)) |].
    apply Forall_app. split; [by apply str_ascii |]. by apply (IH (k, x)), (H3 (k, x)).
Qed.

(** ** The store's limits *)

Fixpoint depth (v : value) : Z :=
  match v with
  | VList l => 1 + fold_right (fun x m => Z.max (depth x) m) 0 l
  | VDict d => 1 + fold_right (fun kv m => Z.max (depth kv.2) m) 0 d
  | _ => 0
  end.

Lemma depth_bound {A} (f : A -> Z) l x :
  x ∈ l -> f x <= fold_right (fun a m => Z.max (f a) m) 0 l.
Proof. induction 1; simpl; lia. Qed.

Lemma depth_nonneg {A} (f : A -> Z) l : 0 <= fold_right (fun a m => Z.max (f a) m) 0 l.
Proof. induction l; cbn [fold_right]; lia. Qed.

Lemma norm_ok_plain v k : plain_value v -> k + depth v <= MAX_JSON_DEPTH -> norm_ok k v = true.
Proof.
  revert k; induction v as [|b|z|t|s|l IH|d IH] using value_nested_ind; intros k H Hd;
    inversion H; subst; cbn [norm_ok depth] in *;
    (rewrite (proj2 (Z.leb_le k _)); [simpl |]); try lia; try done.
  - apply forallb_forall. intros x Hx%list_elem_of_In. rewrite Forall_forall in *.
    apply IH; auto. pose proof (depth_bound depth l x Hx). lia.
  - pose proof (depth_nonneg depth l). lia.
  - apply forallb_forall. intros x Hx%list_elem_of_In. rewrite Forall_forall in *.
    apply IH; auto.
    pose proof (depth_bound (fun kv : pystr * value => depth kv.2) d x Hx) as Hm.
    cbv beta in Hm. lia.
  - pose proof (depth_nonneg (fun kv : pystr * value => depth kv.2) d) as Hm. cbv beta in Hm. lia.
Qed.

(** A small plain value is accepted by the store's encoder. *)
Lemma canonical_json_plain v :
  plain_value v -> depth v <= MAX_JSON_DEPTH -> Z.of_nat (size v) <= MAX_JSON_BYTES ->
  canonical_json v = Ok (dumps v).
Proof.
  intros Hp Hd Hs. apply canonical_json_intro; [by apply norm_ok_plain |].
  unfold dumps. pose proof (plain_canon _ Hp) as Hc.
  rewrite utf8_ascii by (by apply dumps_raw_ascii). unfold zlen.
  pose proof (dumps_raw_length _ Hc) as Hl. rewrite size_canon in Hl. lia.
Qed.

(** ** The decoder always answers

    Rest lengths are bounded along the scanners of Json.v in the same order. *)

(** A scanner's result: less text than [n] is left, or a real exception. *)
Definition fits {A} (n : nat) (r : res (A * pystr)) : Prop :=
  match r with
  | Ok (_, t) => (length t < n)%nat
  | Raise e => e <> OutOfFuel
  end.

Lemma fits_le {A} n m (r : res (A * pystr)) : fits n r -> (n <= m)%nat -> fits m r.
Proof. destruct r as [[a t]|e]; simpl; [lia | done]. Qed.

Lemma fits_bind {A B} n (r : res (A * pystr)) (k : A -> pystr -> res (B * pystr)) :
  fits n r -> (forall a t, (length t < n)%nat -> fits n (k a t)) ->
  fits n (let* (a, t) := r in k a t).
Proof. destruct r as [[a t]|e]; simpl; auto. Qed.

Lemma skip_ws_le s : (length (skip_ws s) <= length s)%nat.
Proof. induction s as [|c s IH]; simpl; [lia |]. destruct (is_ws c); simpl; lia. Qed.

Lemma after_le lit s r : after lit s = Some r -> length s = (length lit + length r)%nat.
Proof.
  revert s. induction lit as [|a lit IH]; intros s H; simpl in *; [by injection H as -> |].
  destruct s as [|c s]; [done |]. destruct (a =? c)%N; [|done]. apply IH in H. simpl. lia.
Qed.

Lemma span_le p s : (length (span p s).1 + length (span p s).2 = length s)%nat.
Proof.
  induction s as [|c s IH]; simpl; [done |]. destruct (p c); [|done].
  destruct (span p s) as [a b]. simpl in *. lia.
Qed.

Lemma pfrac_le s : (length (pfrac s).2 <= length s)%nat.
Proof.
  destruct s as [|c s]; [done |]. destruct (decide (c = 46%N)) as [->|Hc].
  - simpl. pose proof (span_le is_digit_char s).
    destruct (span is_digit_char s) as [[|d ds] r]; simpl in *; lia.
  - assert (pfrac (c :: s) = ([], c :: s)) as ->; [|done].
    unfold pfrac. destruct c as [|p]; [done |]. by do 6 (destruct p as [p|p|]; try done).
Qed.

Lemma pexp_le s : (length (pexp s).2 <= length s)%nat.
Proof.
  unfold pexp. destruct s as [|c s]; [done |].
  destruct ((c =? 101)%N || (c =? 69)%N); [|simpl; lia].
  destruct s as [|x s]; [done |]. destruct ((x =? 43)%N || (x =? 45)%N).
  - pose proof (span_le is_digit_char s). destruct (span is_digit_char s) as [[|d ds] r]; simpl in *; lia.
  - pose proof (span_le is_digit_char (x :: s)).
    destruct (span is_digit_char (x :: s)) as [[|d ds] r]; simpl in *; lia.
Qed.

Lemma scanned_fits c n r : fits n r -> fits n (scanned c r).
Proof. destruct r as [[t rest]|e]; done. Qed.

(** Two characters decide between an escape pair and a lone surrogate. *)
Lemma pstring_fits n s : (length s <= n)%nat -> fits (length s) (pstring s).
Proof.
  revert s. induction n as [|n IH]; intros s Hn; [destruct s; [done | simpl in Hn; lia] |].
  destruct s as [|c s]; [done |]. simpl in Hn.
  assert (Hrec : forall t x, (length t <= length s)%nat ->
    fits (S (length s)) (scanned x (pstring t))).
  { intros t x Ht. apply scanned_fits. apply (fits_le (length t)); [apply IH; lia | lia]. }
  assert (Hbad : fits (S (length s)) (@Raise (pystr * pystr) JSONDecodeError)) by done.
  cbn [pstring length].
  destruct (c =? 34)%N; [simpl; lia |]. destruct (c =? 92)%N.
  2:{ destruct (c <? 32)%N; [done |]. by apply Hrec. }
  destruct s as [|e s]; [done |]. destruct (e =? 117)%N.
  2:{ destruct (simple_escape e); [|done]. apply Hrec. simpl; lia. }
  destruct s as [|h1 [|h2 [|h3 [|h4 s]]]]; try done.
  destruct (hex4_val h1 h2 h3 h4) as [hi|]; [|done].
  assert (Hlone : fits (S (length (e :: h1 :: h2 :: h3 :: h4 :: s))) (scanned hi (pstring s))).
  { apply Hrec. simpl; lia. }
  destruct (is_high hi); [|exact Hlone].
  destruct s as [|x s]; [exact Hlone |]. destruct (decide (x = 92%N)) as [->|Hx].
  2:{ destruct x as [|p]; [exact Hlone |]. by do 7 (destruct p as [p|p|]; try exact Hlone). }
  destruct s as [|y s]; [exact Hlone |]. destruct (decide (y = 117%N)) as [->|Hy].
  2:{ destruct y as [|p]; [exact Hlone |]. by do 7 (destruct p as [p|p|]; try exact Hlone). }
  destruct s as [|l1 [|l2 [|l3 [|l4 s]]]]; try done.
  destruct (hex4_val l1 l2 l3 l4) as [lo|]; [|done].
  destruct (is_low lo); [|exact Hlone]. apply Hrec. simpl; lia.
Qed.

Lemma pnumber_fits neg s :
  s <> [] -> fits (length s) (pnumber neg s).
Proof.
  intros Hs. unfold pnumber.
  assert (H : let '(ds, rest) := match s with 48%N :: r => ([48%N], r) | _ => span is_digit_char s end in
    (length ds + length rest = length s)%nat).
  { destruct s as [|c s]; [done |]. pose proof (span_le is_digit_char (c :: s)) as H.
    destruct (decide (c = 48%N)) as [->|Hc]; [done |].
    destruct (span is_digit_char (c :: s)) as [ds r]. simpl in H.
    destruct c as [|p]; [done |]. by do 6 (destruct p as [p|p|]; try done). }
  destruct (match s with 48%N :: r => _ | _ => _ end) as [ds rest].
  destruct ds as [|d ds]; [done |]. simpl in H.
  pose proof (pfrac_le rest) as H1. destruct (pfrac rest) as [frac r1].
  pose proof (pexp_le r1) as H2. destruct (pexp r1) as [exp r2]. simpl in H1, H2.
  destruct (frac ++ exp); [|simpl; lia].
  destruct (MAX_STR_DIGITS <? zlen (d :: ds)); [done | simpl; lia].
Qed.

Section Total.
Context (number : bool -> pystr -> res (value * pystr)) (dup_exn nonfinite_exn : exn).
Context (Hnumber : forall neg s, s <> [] -> fits (length s) (number neg s)).
Context (Hdup : dup_exn <> OutOfFuel) (Hnon : nonfinite_exn <> OutOfFuel).

Lemma duplicates_real seen pairs :
  reject_duplicate_keys dup_exn seen pairs <> Raise OutOfFuel.
Proof.
  revert seen. induction pairs as [|[k v] pairs IH]; intros seen; simpl; [done |].
  case_bool_decide; [congruence | apply IH].
Qed.

Lemma pconstant_fits s : s <> [] -> fits (length s) (pconstant nonfinite_exn s).
Proof.
  intros Hs. unfold pconstant.
  destruct (after (str "null") s) eqn:H1; [apply after_le in H1; simpl in *; lia |].
  destruct (after (str "true") s) eqn:H2; [apply after_le in H2; simpl in *; lia |].
  destruct (after (str "false") s) eqn:H3; [apply after_le in H3; simpl in *; lia |].
  by destruct (after (str "NaN") s), (after (str "Infinity") s), (after (str "-Infinity") s).
Qed.

Lemma value_step_fits members elements s :
  (forall t, (length t < length s)%nat -> fits (length t) (members t)) ->
  (forall t, (length t < length s)%nat -> fits (length t) (elements t)) ->
  fits (length s) (value_step number dup_exn nonfinite_exn members elements s).
Proof.
  intros Hm He. destruct s as [|c s1]; [done |]. cbn [value_step].
  pose proof (skip_ws_le s1) as Hw. set (n := length (c :: s1)).
  assert (Hn : n = S (length s1)) by done.
  destruct (c =? 34)%N.
  { pose proof (pstring_fits _ s1 (le_n _)) as H. destruct (pstring s1) as [[t r]|e]; simpl in *; [lia | done]. }
  destruct (c =? 123)%N.
  { assert (H : fits n (let* (d, r) := members (skip_ws s1) in
                        let* _ := reject_duplicate_keys dup_exn [] d in Ok (VDict d, r))).
    { apply fits_bind.
      - apply (fits_le (length (skip_ws s1))); [apply Hm; simpl; lia | lia].
      - intros d r Hr. pose proof (duplicates_real [] d) as Hd.
        destruct (reject_duplicate_keys dup_exn [] d) as [[]|e]; simpl; [lia | congruence]. }
    destruct (skip_ws s1) as [|x r]; [exact H |]. simpl in Hw.
    assert (Hr : fits n (Ok (VDict [], r))) by (simpl; lia).
    destruct x as [|p]; [exact H |]. by do 7 (destruct p as [p|p|]; try exact H; try exact Hr). }
  destruct (c =? 91)%N.
  { assert (H : fits n (let* (l, r) := elements (skip_ws s1) in Ok (VList l, r))).
    { apply fits_bind.
      - apply (fits_le (length (skip_ws s1))); [apply He; simpl; lia | lia].
      - intros l r Hr. simpl; lia. }
    destruct (skip_ws s1) as [|x r]; [exact H |]. simpl in Hw.
    assert (Hr : fits n (Ok (VList [], r))) by (simpl; lia).
    destruct x as [|p]; [exact H |]. by do 7 (destruct p as [p|p|]; try exact H; try exact Hr). }
  destruct (is_digit_char c); [by apply Hnumber |].
  destruct (c =? 45)%N; [|by apply pconstant_fits].
  destruct s1 as [|d s2]; [by apply pconstant_fits |].
  destruct (is_digit_char d); [|by apply pconstant_fits].
  apply (fits_le (length (d :: s2))); [by apply Hnumber | simpl in *; lia].
Qed.

(** What follows a member or an element: a comma, the closing bracket or an
    error. *)
Lemma members_step_fits pval members s :
  (forall t, (length t < length s)%nat -> fits (length t) (pval t)) ->
  (forall t, (length t < length s)%nat -> fits (length t) (members t)) ->
  fits (length s) (members_step pval members s).
Proof.
  intros Hv Hm. destruct s as [|c s1]; [done |].
  assert (Hd : fits (length (c :: s1)) (@Raise (dict * pystr) JSONDecodeError)) by done.
  destruct (decide (c = 34%N)) as [->|Hc].
  2:{ destruct c as [|p]; [exact Hd |]. by do 6 (destruct p as [p|p|]; try exact Hd). }
  cbn [members_step]. set (n := length _) in *. assert (Hn : n = S (length s1)) by done.
  apply fits_bind; [apply (fits_le (length s1)); [by apply (pstring_fits _ _ (le_n _)) | lia] |].
  intros k s2 Hs2. pose proof (skip_ws_le s2) as Hw2. destruct (skip_ws s2) as [|x s3]; [exact Hd |].
  simpl in Hw2. destruct (decide (x = 58%N)) as [->|Hx].
  2:{ destruct x as [|p]; [exact Hd |]. by do 6 (destruct p as [p|p|]; try exact Hd). }
  pose proof (skip_ws_le s3) as Hw3.
  apply fits_bind; [apply (fits_le (length (skip_ws s3))); [apply Hv; simpl; lia | lia] |].
  intros v s4 Hs4. pose proof (skip_ws_le s4) as Hw4. destruct (skip_ws s4) as [|y s5]; [exact Hd |].
  simpl in Hw4. pose proof (skip_ws_le s5) as Hw5.
  assert (Hend : fits n (Ok ([(k, v)], s5))) by (simpl; lia).
  assert (Hmore : fits n (let* (d, r) := members (skip_ws s5) in Ok ((k, v) :: d, r))).
  { apply fits_bind; [|intros d r Hr; simpl; lia].
    apply (fits_le (length (skip_ws s5))); [apply Hm; simpl; lia | lia]. }
  destruct y as [|p]; [exact Hd |].
  by do 7 (destruct p as [p|p|]; try exact Hd; try exact Hend; try exact Hmore).
Qed.

Lemma elements_step_fits pval elements s :
  fits (length s) (pval s) ->
  (forall t, (length t < length s)%nat -> fits (length t) (elements t)) ->
  fits (length s) (elements_step pval elements s).
Proof.
  intros Hv He. unfold elements_step. apply fits_bind; [exact Hv |]. intros v s1 Hs1.
  assert (Hd : fits (length s) (@Raise (list value * pystr) JSONDecodeError)) by done.
  pose proof (skip_ws_le s1) as Hw. destruct (skip_ws s1) as [|y s2]; [exact Hd |].
  simpl in Hw. pose proof (skip_ws_le s2) as Hw2.
  assert (Hend : fits (length s) (Ok ([v], s2))) by (simpl; lia).
  assert (Hmore : fits (length s) (let* (l, r) := elements (skip_ws s2) in Ok (v :: l, r))).
  { apply fits_bind; [|intros l r Hr; simpl; lia].
    apply (fits_le (length (skip_ws s2))); [apply He; lia | lia]. }
  destruct y as [|p]; [exact Hd |].
  by do 7 (destruct p as [p|p|]; try exact Hd; try exact Hend; try exact Hmore).
Qed.

(** An element spends one unit of fuel before it consumes anything. *)
Lemma scanners_fit f :
  (forall s, (2 * length s < f)%nat -> fits (length s) (pvalue number dup_exn nonfinite_exn f s)) /\
  (forall s, (2 * length s < f)%nat -> fits (length s) (pmembers number dup_exn nonfinite_exn f s)) /\
  (forall s, (2 * length s + 1 < f)%nat -> fits (length s) (pelements number dup_exn nonfinite_exn f s)).
Proof.
  induction f as [|f (IHv & IHm & IHe)]; [split_and!; intros; lia |].
  split_and!; intros s Hf; simpl.
  - apply value_step_fits; intros t Ht; [apply IHm | apply IHe]; lia.
  - apply members_step_fits; intros t Ht; [apply IHv | apply IHm]; lia.
  - apply elements_step_fits; [apply IHv | intros t Ht; apply IHe]; lia.
Qed.

(** The fuel of [loads_with] is enough for every text. *)
Lemma loads_with_total raw : loads_with number dup_exn nonfinite_exn raw <> Raise OutOfFuel.
Proof.
  assert (H : (let* (v, r) := pvalue number dup_exn nonfinite_exn (2 * length raw + 2) (skip_ws raw) in
               match skip_ws r with [] => Ok v | _ => Raise JSONDecodeError end) <> Raise OutOfFuel).
  { pose proof (skip_ws_le raw) as Hw.
    destruct (scanners_fit (2 * length raw + 2)) as [Hv _].
    specialize (Hv (skip_ws raw) ltac:(lia)).
    destruct (pvalue number dup_exn nonfinite_exn (2 * length raw + 2) (skip_ws raw)) as [[v r]|e];
      [by destruct (skip_ws r) | simpl in Hv; congruence]. }
  unfold loads_with. destruct raw as [|c raw]; [exact H |]. destruct c as [|p]; [exact H |].
  do 16 (destruct p as [p|p|]; try exact H).
Qed.
End Total.

Lemma loads_total dup nonfinite raw :
  dup <> OutOfFuel -> nonfinite <> OutOfFuel -> loads dup nonfinite raw <> Raise OutOfFuel.
Proof. intros Hd Hn. apply loads_with_total; [intros neg s; apply pnumber_fits | done | done]. Qed.
