(* ===== verification/Packet.v ===== *)
(** * Protected packets as the store reads them

    The first part of broker/john_lomein_broker_store.py: the limits of the
    trusted policy, the identity of a protected-action packet
    ([_packet_identity], split in its four steps) and the semantic identity of
    the effect it asks for ([_semantic_identity]).  Instants are epochs in [Z];
    leading underscores of the source's names are dropped. *)

From S2P Require Import Prelude Regex Sha256 PyTime Json.
Local Open Scope Z_scope.

(** ** Constants *)

Definition ZERO_HASH : pystr := replicate 64 48%N.
Definition PACKET_SCHEMA : string := "john-lomein.protected-action-packet.v1".
Definition PACKET_AUTHORITY : string := "request_only_no_execution_authority".
Definition EFFECT_SEMANTIC_SCHEMA : string := "john-lomein.broker-effect-semantic.v1".
Definition PACKET_REQUESTER : string := "john-lomein-maintainer".

Definition MARK_PR_READY : pystr := str "mark_pr_ready".
Definition RESOLVE_REVIEW_THREAD : pystr := str "resolve_review_thread".
Definition ALLOWED_ACTIONS : list pystr := [MARK_PR_READY; RESOLVE_REVIEW_THREAD].

Definition MAX_CLOCK_SKEW_SECONDS : Z := 300.
Definition MIN_PACKET_TTL_SECONDS : Z := 60.
Definition MAX_PACKET_TTL_SECONDS : Z := 3600.
Definition REQUEST_WINDOW_SECONDS : Z := 3600.

(** ** Limits *)

Record BudgetLimits := {
  requests_per_hour : Z;
  daily_mutations : Z;
  mark_pr_ready_per_day : Z;
  review_threads_per_day : Z;
  consecutive_indeterminate_limit : Z }.

(** [type(value) is not int or value < lo or value > 1_000_000] *)
Definition limit_field (lo : Z) (v : value) (message : string) : res Z :=
  match v with
  | VInt z => raise_if (z <? lo) || (1000000 <? z) with (ValueError message) ;; Ok z
  | _ => Raise (ValueError message)
  end.

(** The constructor: [__post_init__] on the five fields in order. *)
Definition BudgetLimits_post_init (requests daily ready threads consecutive : value) :
    res BudgetLimits :=
  let range name := (name +:+ " must be an integer between 0 and 1000000")%string in
  let* r := limit_field 0 requests (range "requests_per_hour") in
  let* d := limit_field 0 daily (range "daily_mutations") in
  let* m := limit_field 0 ready (range "mark_pr_ready_per_day") in
  let* t := limit_field 0 threads (range "review_threads_per_day") in
  let* c := limit_field 1 consecutive
    "consecutive_indeterminate_limit must be an integer between 1 and 1000000" in
  Ok {| requests_per_hour := r; daily_mutations := d; mark_pr_ready_per_day := m;
        review_threads_per_day := t; consecutive_indeterminate_limit := c |}.

Definition action_daily_limit (l : BudgetLimits) (action : pystr) : res Z :=
  if bool_decide (action = MARK_PR_READY) then Ok l.(mark_pr_ready_per_day)
  else if bool_decide (action = RESOLVE_REVIEW_THREAD) then Ok l.(review_threads_per_day)
  else Raise (ValueError "unsupported broker action").

(** ** Field checks *)

(** [isinstance(v, str) and PATTERN.fullmatch(v)], or [raise e] *)
Definition text_field (r : re) (v : value) (e : exn) : res pystr :=
  match v with
  | VStr s => raise_if negb (fullmatch r s) with e ;; Ok s
  | _ => Raise e
  end.

Definition parse_utc (v : value) (field : string) : res Z :=
  let e := BrokerStoreError (field +:+ " must be a UTC timestamp") in
  match v with
  | VStr s => match strptime s with Some epoch => Ok epoch | None => Raise e end
  | _ => Raise e
  end.

Definition mapping (v : value) (field : string) : res dict :=
  match v with
  | VDict d => Ok d
  | _ => Raise (BrokerStoreError (field +:+ " must be an object"))
  end.

Definition positive_int (v : value) (field : string) : res Z :=
  let e := BrokerStoreError (field +:+ " must be a positive integer") in
  match v with
  | VInt z => raise_if (z <=? 0) || (2 ^ 31 - 1 <? z) with e ;; Ok z
  | _ => Raise e
  end.

(** ** The identity of a packet *)

Record PacketIdentity := {
  id_packet_id : pystr;
  id_request_digest : pystr;
  id_packet_json : pystr;
  id_instance_slug : pystr;
  id_action : pystr;
  id_repo : pystr;
  id_pr_number : Z;
  id_head_sha : pystr;
  id_thread_node_ids : list pystr;
  id_created_at : Z;
  id_expires_at : Z }.

Definition PACKET_BODY_KEYS : list string :=
  ["schema_version"; "authority"; "requested_by"; "created_at"; "expires_at"; "request"].

Definition PACKET_KEYS : list string := PACKET_BODY_KEYS ++ ["packet_id"; "request_digest"].

(** The fields with one accepted value. *)
Definition packet_header (packet : dict) : res unit :=
  raise_if negb (same_keys packet PACKET_KEYS)
    with (BrokerStoreError "protected-action packet fields are invalid") ;;
  raise_if negb (py_eq (get packet "schema_version") (vstr PACKET_SCHEMA))
    with (BrokerStoreError "protected-action packet schema is unsupported") ;;
  raise_if negb (py_eq (get packet "authority") (vstr PACKET_AUTHORITY))
    with (BrokerStoreError "protected-action packet has no request authority") ;;
  raise_if negb (py_eq (get packet "requested_by") (vstr PACKET_REQUESTER))
    with (BrokerStoreError "protected-action packet requester is invalid") ;;
  Ok tt.

(** [body]: the packet without its identifier and its digest; the header check
    has made sure that every key is there. *)
Definition packet_body (packet : dict) : dict :=
  map (fun k => (str k, get packet k)) PACKET_BODY_KEYS.

(** The packet identifier and the digest it is derived from. *)
Definition packet_digests (packet : dict) : res (pystr * pystr) :=
  let* packet_id := text_field PACKET_ID_RE (get packet "packet_id")
    (BrokerStoreError "protected-action packet id is invalid") in
  let* request_digest := text_field SHA256_RE (get packet "request_digest")
    (BrokerStoreError "protected-action packet digest is invalid") in
  let* computed_digest := sha256_json (VDict (packet_body packet)) in
  raise_if negb (bool_decide (computed_digest = request_digest))
    with (BrokerStoreError "protected-action packet digest does not match") ;;
  raise_if negb (bool_decide (packet_id = str "jlpa-" ++ take 24 computed_digest))
    with (BrokerStoreError "protected-action packet id does not match") ;;
  Ok (packet_id, request_digest).

(** The validity interval against the clock. *)
Definition packet_times (packet : dict) (now_epoch : Z) : res (Z * Z) :=
  let* created_epoch := parse_utc (get packet "created_at") "packet created_at" in
  let* expires_epoch := parse_utc (get packet "expires_at") "packet expires_at" in
  let lifetime := expires_epoch - created_epoch in
  raise_if (lifetime <? MIN_PACKET_TTL_SECONDS) || (MAX_PACKET_TTL_SECONDS <? lifetime)
    with (BrokerStoreError "protected-action packet lifetime is invalid") ;;
  raise_if now_epoch + MAX_CLOCK_SKEW_SECONDS <? created_epoch
    with (BrokerStoreError "protected-action packet is from the future") ;;
  raise_if expires_epoch <=? now_epoch
    with (BrokerStoreError "protected-action packet has expired") ;;
  Ok (created_epoch, expires_epoch).

(** The loop over [thread_node_ids]. *)
Definition normalized_ids : list value -> res (list pystr) :=
  res_map (fun v => text_field THREAD_ID_RE v
    (BrokerStoreError "packet thread target is invalid")).

(** The request's targets, given the action. *)
Definition packet_targets (request : dict) (action : pystr) : res (list pystr) :=
  let* targets := mapping (get request "targets") "packet request targets" in
  let* node_ids := match get targets "thread_node_ids" with
    | VList l => Ok l
    | _ => Raise (BrokerStoreError "packet thread targets must be an array")
    end in
  let* ids := normalized_ids node_ids in
  raise_if negb (bool_decide (NoDup ids))
    with (BrokerStoreError "packet thread targets must be unique") ;;
  raise_if bool_decide (action = MARK_PR_READY) && negb (bool_decide (ids = []))
    with (BrokerStoreError "mark-ready packets cannot target threads") ;;
  raise_if bool_decide (action = RESOLVE_REVIEW_THREAD) && negb (length ids =? 1)%nat
    with (BrokerStoreError
      "broker v1 requires exactly one review-thread target per packet") ;;
  Ok ids.

(** [action not in ALLOWED_ACTIONS]: [in] raises for an unhashable action. *)
Definition packet_action (v : value) : res pystr :=
  let* allowed := in_strings v ALLOWED_ACTIONS in
  raise_if negb allowed with (BrokerStoreError "packet action is unsupported") ;;
  match v with
  | VStr s => Ok s
  | _ => Raise (BrokerStoreError "packet action is unsupported")
  end.

Definition packet_identity (packet : dict) (now_epoch : Z) : res PacketIdentity :=
  let* _ := packet_header packet in
  let* (packet_id, request_digest) := packet_digests packet in
  let* (created_epoch, expires_epoch) := packet_times packet now_epoch in
  let* request := mapping (get packet "request") "packet request" in
  let* instance_slug := text_field INSTANCE_RE (get request "instance_slug")
    (BrokerStoreError "packet instance slug is invalid") in
  let* action := packet_action (get request "action") in
  let* repo := text_field REPO_RE (get request "repo")
    (BrokerStoreError "packet repository is invalid") in
  let* pr := mapping (get request "pr") "packet request pr" in
  let* pr_number := positive_int (get pr "number") "packet pr number" in
  let* head_sha := text_field OID_RE (get pr "head_sha")
    (BrokerStoreError "packet PR head is invalid") in
  let* ids := packet_targets request action in
  let* packet_json := canonical_json (VDict packet) in
  Ok {| id_packet_id := packet_id; id_request_digest := request_digest;
        id_packet_json := packet_json; id_instance_slug := instance_slug;
        id_action := action; id_repo := repo; id_pr_number := pr_number;
        id_head_sha := head_sha; id_thread_node_ids := ids;
        id_created_at := created_epoch; id_expires_at := expires_epoch |}.

(** ** The semantic identity of an effect *)

Definition mark_ready_semantic (identity : PacketIdentity) : value :=
  obj [("schema_version", vstr EFFECT_SEMANTIC_SCHEMA);
       ("action", VStr identity.(id_action));
       ("repo", VStr identity.(id_repo));
       ("pr_number", VInt identity.(id_pr_number));
       ("head_sha", VStr identity.(id_head_sha))].

Definition thread_semantic (identity : PacketIdentity) (thread : pystr) : value :=
  obj [("schema_version", vstr EFFECT_SEMANTIC_SCHEMA);
       ("action", VStr identity.(id_action));
       ("repo", VStr identity.(id_repo));
       ("pr_number", VInt identity.(id_pr_number));
       ("thread_node_id", VStr thread)].

(** The selected thread and the semantic content. *)
Definition semantic_content (identity : PacketIdentity) (thread_node_id : option pystr) :
    res (option pystr * value) :=
  if bool_decide (identity.(id_action) = MARK_PR_READY) then
    match thread_node_id with
    | Some _ => Raise (BrokerStoreError "mark-ready effects cannot select a thread")
    | None => Ok (None, mark_ready_semantic identity)
    end
  else
    let* selected := match thread_node_id with
      | Some t => Ok t
      | None => match identity.(id_thread_node_ids) with
                | t :: _ => Ok t
                | [] => Raise IndexError
                end
      end in
    raise_if negb (bool_decide (selected ∈ identity.(id_thread_node_ids)))
      with (BrokerStoreError "selected thread is not bound by the protected packet") ;;
    Ok (Some selected, thread_semantic identity selected).

Definition effect_key_of (semantic_json : pystr) : pystr :=
  str "jle-" ++ take 32 (sha256_text semantic_json).

Definition semantic_identity (identity : PacketIdentity) (thread_node_id : option pystr) :
    res (pystr * option pystr * pystr) :=
  let* (selected_thread, semantic) := semantic_content identity thread_node_id in
  let* semantic_json := canonical_json semantic in
  Ok (effect_key_of semantic_json, selected_thread, semantic_json).

(** [semantic_effect_key] *)
Definition semantic_effect_key (packet : dict) (thread_node_id : option pystr) (now_epoch : Z) :
    res pystr :=
  let* identity := packet_identity packet now_epoch in
  let* (key, _, _) := semantic_identity identity thread_node_id in
  Ok key.
