(* ===== verification/PacketFacts.v ===== *)
(** * Packets: canonical copies, validity in time, shape of accepted packets

    [identity_canon]: the packet the store decodes from its own canonical text
    has the identity of the packet it encoded.  [identity_window]: the instants
    at which a packet is accepted form an interval.  [identity_inv]: what an
    accepted packet looks like. *)

From S2P Require Import Prelude Regex Sha256 PyTime Json JsonFacts Packet.
Local Open Scope Z_scope.

(** ** Reading a canonical copy *)

Lemma get_canon d d' k :
  NoDup (keys d) -> canon (VDict d) = VDict d' -> get d' k = canon (get d k).
Proof.
  intros Hn Hc. unfold get. rewrite (dget_canon _ _ _ Hn Hc). by destruct (dget (str k) d).
Qed.

Lemma keys_canon d d' : canon (VDict d) = VDict d' -> keys d' ≡ₚ keys d.
Proof.
  rewrite canon_dict. intros [= <-]. rewrite (keys_perm _ _ (ksort_perm _)).
  by rewrite keys_map_canon.
Qed.

Lemma same_keys_perm d d' l : keys d' ≡ₚ keys d -> same_keys d' l = same_keys d l.
Proof.
  intros Hp. unfold same_keys. f_equal.
  - apply eq_true_iff_eq. rewrite !forallb_forall.
    split; intros H x Hx; apply H; revert Hx; rewrite <- !list_elem_of_In; by rewrite Hp.
  - apply eq_true_iff_eq. rewrite !forallb_forall.
    split; intros H x Hx; specialize (H x Hx); revert H; rewrite !bool_decide_eq_true; by rewrite Hp.
Qed.

Lemma py_eq_str_canon v s : py_eq (canon v) (VStr s) = py_eq v (VStr s).
Proof. by destruct v. Qed.

Lemma text_field_canon r v e : text_field r (canon v) e = text_field r v e.
Proof. by destruct v. Qed.

Lemma parse_utc_canon v f : parse_utc (canon v) f = parse_utc v f.
Proof. by destruct v. Qed.

Lemma positive_int_canon v f : positive_int (canon v) f = positive_int v f.
Proof. by destruct v. Qed.

Lemma packet_action_canon v : packet_action (canon v) = packet_action v.
Proof. by destruct v. Qed.

Lemma mapping_inv v f d : mapping v f = Ok d -> v = VDict d.
Proof. by destruct v; intros [=->]. Qed.

Lemma mapping_canon v f d :
  mapping v f = Ok d -> exists d', canon (VDict d) = VDict d' /\ mapping (canon v) f = Ok d'.
Proof. intros ->%mapping_inv. rewrite canon_dict. simpl. eauto. Qed.

Lemma wf_get_dict d k d' : wf (VDict d) -> get d k = VDict d' -> wf (VDict d').
Proof. intros Hw <-. by apply wf_get. Qed.

Lemma wf_nodup d : wf (VDict d) -> NoDup (keys d).
Proof. by inversion 1. Qed.

(** Canonical text does not see the order inside members. *)
Lemma canonical_json_members (f : string -> value) l t :
  canonical_json (VDict (map (fun k => (str k, f k)) l)) = Ok t ->
  canonical_json (VDict (map (fun k => (str k, canon (f k))) l)) = Ok t.
Proof.
  set (d := map (fun k => (str k, f k)) l).
  assert (E : map (fun k => (str k, canon (f k))) l = map (fun kv => (kv.1, canon kv.2)) d)
    by (unfold d; by rewrite map_map).
  rewrite E. set (d' := map (fun kv => (kv.1, canon kv.2)) d).
  assert (Hn : norm_ok 0 (VDict d') = norm_ok 0 (VDict d)).
  { unfold d'. clear. simpl. induction d as [|[k v] d IH]; [done |].
    simpl. by rewrite norm_ok_canon, IH. }
  assert (Hd : dumps (VDict d') = dumps (VDict d)).
  { unfold dumps. f_equal. rewrite !canon_dict. do 2 f_equal. unfold d'. rewrite map_map.
    apply map_ext. intros [k v]. simpl. by rewrite canon_idem. }
  intros (-> & H & Hl)%canonical_json_inv. rewrite <- Hd.
  apply canonical_json_intro; [by rewrite Hn | by rewrite Hd].
Qed.

Lemma normalized_ids_canon l : normalized_ids (map canon l) = normalized_ids l.
Proof.
  unfold normalized_ids. induction l as [|v l IH]; [done |]. simpl.
  by rewrite text_field_canon, IH.
Qed.

Section Canon.
Context (packet packet' : dict) (Hwf : wf (VDict packet)).
Context (Hc : canon (VDict packet) = VDict packet').

#[local] Lemma get_packet k : get packet' k = canon (get packet k).
Proof. apply get_canon; [by apply wf_nodup | done]. Qed.

Lemma packet_header_canon : packet_header packet' = packet_header packet.
Proof.
  unfold packet_header, vstr. rewrite !get_packet, !py_eq_str_canon.
  by rewrite (same_keys_perm packet packet') by (by apply keys_canon).
Qed.

Lemma packet_digests_canon r : packet_digests packet = Ok r -> packet_digests packet' = Ok r.
Proof.
  unfold packet_digests, sha256_json. rewrite !get_packet, !text_field_canon. intros H.
  case_res H. case_res H. case_res H.
  match goal with H : _ = Ok a1 |- _ => rename H into Hs end. case_res Hs.
  unfold packet_body in *. apply canonical_json_members in E1.
  assert (E2 : map (fun k => (str k, get packet' k)) PACKET_BODY_KEYS =
    map (fun k => (str k, canon (get packet k))) PACKET_BODY_KEYS)
    by (apply map_ext; intros k; by rewrite get_packet).
  rewrite E2, E1. by injection Hs as ->.
Qed.

Lemma packet_times_canon now : packet_times packet' now = packet_times packet now.
Proof. unfold packet_times. by rewrite !get_packet, !parse_utc_canon. Qed.
End Canon.

Lemma packet_targets_canon request request' action ids :
  wf (VDict request) -> canon (VDict request) = VDict request' ->
  packet_targets request action = Ok ids -> packet_targets request' action = Ok ids.
Proof.
  intros Hw Hc. unfold packet_targets. rewrite (get_packet request request' Hw Hc). intros H.
  case_res H. destruct (mapping_canon _ _ _ E) as (targets & Hct & ->).
  apply mapping_inv in E. pose proof (wf_get_dict _ _ _ Hw E) as Hwt.
  rewrite (get_packet a targets Hwt Hct). case_res H.
  destruct (get a "thread_node_ids"); try discriminate. simpl. injection E0 as ->.
  by rewrite normalized_ids_canon.
Qed.

(** The identity is that of the canonical copy. *)
Lemma identity_canon packet packet' now id :
  wf (VDict packet) -> canon (VDict packet) = VDict packet' ->
  packet_identity packet now = Ok id -> packet_identity packet' now = Ok id.
Proof.
  intros Hw Hc H. unfold packet_identity in *.
  rewrite (packet_header_canon _ _ Hw Hc). case_res H. case_res H. destruct a0 as [pid digest].
  rewrite (packet_digests_canon _ _ Hw Hc _ E0). case_res H. destruct a0 as [created expires].
  rewrite (packet_times_canon _ _ Hw Hc), E1. rewrite (get_packet _ _ Hw Hc). case_res H.
  rename a0 into request. destruct (mapping_canon _ _ _ E2) as (request' & Hcr & ->).
  apply mapping_inv in E2. pose proof (wf_get_dict _ _ _ Hw E2) as Hwr.
  rewrite !(get_packet _ _ Hwr Hcr), !text_field_canon, packet_action_canon.
  case_res H. case_res H. case_res H. case_res H. rename a3 into pr.
  destruct (mapping_canon _ _ _ E6) as (pr' & Hcp & ->).
  apply mapping_inv in E6. pose proof (wf_get_dict _ _ _ Hwr E6) as Hwp.
  rewrite !(get_packet _ _ Hwp Hcp), positive_int_canon, text_field_canon.
  case_res H. case_res H. case_res H. case_res H.
  rewrite (packet_targets_canon _ _ _ _ Hwr Hcr E9), <- Hc.
  by rewrite (canonical_json_canon _ _ E10).
Qed.

(** ** Validity in time *)

Lemma packet_times_inv packet now created expires :
  packet_times packet now = Ok (created, expires) ->
  parse_utc (get packet "created_at") "packet created_at" = Ok created /\
  parse_utc (get packet "expires_at") "packet expires_at" = Ok expires /\
  MIN_PACKET_TTL_SECONDS <= expires - created <= MAX_PACKET_TTL_SECONDS /\
  created - MAX_CLOCK_SKEW_SECONDS <= now < expires.
Proof.
  unfold packet_times. intros H. case_res H. case_res H. case_res H. case_res H. case_res H.
  injection H as -> ->. repeat match goal with
  | H : _ || _ = false |- _ => apply orb_false_iff in H as [? ?]
  | H : (_ <? _) = false |- _ => apply Z.ltb_ge in H
  | H : (_ <=? _) = false |- _ => apply Z.leb_gt in H
  end. repeat split; lia.
Qed.

Lemma packet_times_intro packet now created expires :
  parse_utc (get packet "created_at") "packet created_at" = Ok created ->
  parse_utc (get packet "expires_at") "packet expires_at" = Ok expires ->
  MIN_PACKET_TTL_SECONDS <= expires - created <= MAX_PACKET_TTL_SECONDS ->
  created - MAX_CLOCK_SKEW_SECONDS <= now < expires ->
  packet_times packet now = Ok (created, expires).
Proof.
  intros Hc He Hl Hn. unfold packet_times. rewrite Hc, He.
  repeat match goal with
  | |- context [?a <? ?b] => destruct (Z.ltb_spec a b); try lia
  | |- context [?a <=? ?b] => destruct (Z.leb_spec a b); try lia
  end. done.
Qed.

(** What an accepted packet looks like. *)
Record identity_spec (packet : dict) (now : Z) (id : PacketIdentity) : Prop := {
  is_header : packet_header packet = Ok tt;
  is_digests : packet_digests packet = Ok (id.(id_packet_id), id.(id_request_digest));
  is_times : packet_times packet now = Ok (id.(id_created_at), id.(id_expires_at));
  is_json : canonical_json (VDict packet) = Ok id.(id_packet_json);
  is_action : id.(id_action) ∈ ALLOWED_ACTIONS;
  is_slug : fullmatch INSTANCE_RE id.(id_instance_slug) = true;
  is_repo : fullmatch REPO_RE id.(id_repo) = true;
  is_head : fullmatch OID_RE id.(id_head_sha) = true;
  is_number : 0 < id.(id_pr_number) <= 2 ^ 31 - 1;
  is_threads : Forall (fun t => fullmatch THREAD_ID_RE t = true) id.(id_thread_node_ids);
  is_ready_threads : id.(id_action) = MARK_PR_READY -> id.(id_thread_node_ids) = [];
  is_one_thread : id.(id_action) = RESOLVE_REVIEW_THREAD ->
    length id.(id_thread_node_ids) = 1%nat }.

Lemma text_field_inv r v e s : text_field r v e = Ok s -> v = VStr s /\ fullmatch r s = true.
Proof.
  unfold text_field. destruct v; try done. intros H. case_res H. injection H as ->.
  by apply negb_false_iff in E.
Qed.

Lemma positive_int_inv v f z : positive_int v f = Ok z -> v = VInt z /\ 0 < z <= 2 ^ 31 - 1.
Proof.
  unfold positive_int. destruct v; try done. intros H. case_res H. injection H as ->.
  apply orb_false_iff in E as [?%Z.leb_gt ?%Z.ltb_ge]. repeat split; lia.
Qed.

Lemma packet_action_inv v a : packet_action v = Ok a -> v = VStr a /\ a ∈ ALLOWED_ACTIONS.
Proof.
  unfold packet_action. intros H. case_res H. case_res H. destruct v; try done.
  injection H as ->. split; [done |]. apply negb_false_iff in E0. subst.
  injection E as E. by apply bool_decide_eq_true in E.
Qed.

Lemma normalized_ids_inv l ids :
  normalized_ids l = Ok ids -> Forall (fun t => fullmatch THREAD_ID_RE t = true) ids.
Proof.
  unfold normalized_ids. revert ids. induction l as [|v l IH]; simpl; intros ids H.
  - injection H as <-. by apply Forall_nil_2.
  - case_res H. case_res H. injection H as <-. apply text_field_inv in E as [_ E].
    apply Forall_cons. auto.
Qed.

Lemma packet_targets_inv request action ids :
  packet_targets request action = Ok ids ->
  Forall (fun t => fullmatch THREAD_ID_RE t = true) ids /\
  (action = MARK_PR_READY -> ids = []) /\
  (action = RESOLVE_REVIEW_THREAD -> length ids = 1%nat).
Proof.
  unfold packet_targets. intros H. do 6 case_res H. injection H as <-.
  split; [by eapply normalized_ids_inv |].
  split; intros ->.
  - rewrite bool_decide_true in E3 by done. simpl in E3.
    apply negb_false_iff in E3. by apply bool_decide_eq_true in E3.
  - rewrite (bool_decide_true (RESOLVE_REVIEW_THREAD = _)) in E4 by done. simpl in E4.
    apply negb_false_iff in E4. by apply Nat.eqb_eq in E4.
Qed.

Lemma identity_inv packet now id : packet_identity packet now = Ok id -> identity_spec packet now id.
Proof.
  unfold packet_identity. intros H.
  case_res H. case_res H. destruct a0. case_res H. destruct a0. do 9 case_res H.
  injection H as <-.
  repeat match goal with
  | H : text_field _ _ _ = Ok _ |- _ => apply text_field_inv in H as [_ H]
  | H : positive_int _ _ = Ok _ |- _ => apply positive_int_inv in H as [_ H]
  | H : packet_action _ = Ok _ |- _ => apply packet_action_inv in H as [_ H]
  | H : packet_targets _ _ = Ok _ |- _ => apply packet_targets_inv in H as (? & ? & ?)
  | u : unit |- _ => destruct u
  end.
  by constructor.
Qed.

(** The instants at which a packet is accepted are an interval. *)
Lemma identity_window packet now now' id :
  packet_identity packet now = Ok id ->
  id.(id_created_at) - MAX_CLOCK_SKEW_SECONDS <= now' < id.(id_expires_at) ->
  packet_identity packet now' = Ok id.
Proof.
  intros H Hn. pose proof (is_times _ _ _ (identity_inv _ _ _ H)) as Ht.
  apply packet_times_inv in Ht as (Hc & He & Hl & _).
  pose proof (packet_times_intro packet now' _ _ Hc He Hl Hn) as Ht'.
  unfold packet_identity in *. case_res H. case_res H. destruct a0. rewrite Ht'.
  case_res H. destruct a0.
  apply packet_times_inv in E1 as (Hc1 & He1 & _). rewrite Hc in Hc1. rewrite He in He1.
  injection Hc1 as <-. injection He1 as <-. exact H.
Qed.

Lemma identity_times packet now id :
  packet_identity packet now = Ok id ->
  id.(id_created_at) - MAX_CLOCK_SKEW_SECONDS <= now < id.(id_expires_at) /\
  MIN_PACKET_TTL_SECONDS <= id.(id_expires_at) - id.(id_created_at) <= MAX_PACKET_TTL_SECONDS.
Proof.
  intros H. pose proof (is_times _ _ _ (identity_inv _ _ _ H)) as Ht.
  by apply packet_times_inv in Ht as (_ & _ & ? & ?).
Qed.

(** The identifier and the digest are those of the body's canonical text. *)
Lemma packet_digests_spec packet pid digest :
  packet_digests packet = Ok (pid, digest) ->
  exists body, canonical_json (VDict (packet_body packet)) = Ok body /\
    digest = sha256_text body /\ pid = str "jlpa-" ++ take 24 digest /\
    fullmatch PACKET_ID_RE pid = true /\
    get packet "packet_id" = VStr pid /\ get packet "request_digest" = VStr digest.
Proof.
  unfold packet_digests, sha256_json. intros H.
  case_res H. apply text_field_inv in E as [Hp Hm]. case_res H. apply text_field_inv in E as [Hd _].
  case_res H. case_res E. injection E as <-. case_res H. case_res H. injection H as -> ->.
  apply negb_false_iff, bool_decide_eq_true in E, E1. eexists. repeat split; try done.
  by subst.
Qed.
