(* ===== verification/Demo.v ===== *)
(** * Concrete inputs

    The policy, the packets and the receipts on which the witnesses of the
    development evaluate the definitions.  [seal] builds a packet the way the
    requester does: the digest of the body gives the identifier. *)

From S2P Require Import Prelude Regex Sha256 PyTime Json JsonFacts Packet.
Local Open Scope Z_scope.

Definition policy : BudgetLimits :=
  {| requests_per_hour := 3; daily_mutations := 3; mark_pr_ready_per_day := 2;
     review_threads_per_day := 2; consecutive_indeterminate_limit := 1 |}.

(** 2026-01-01T00:00:00Z *)
Definition T0 : Z := 1767225600.

Definition body (request : value) (created expires : Z) : dict :=
  [(str "schema_version", vstr PACKET_SCHEMA); (str "authority", vstr PACKET_AUTHORITY);
   (str "requested_by", vstr PACKET_REQUESTER); (str "created_at", VStr (utc_text created));
   (str "expires_at", VStr (utc_text expires)); (str "request", request)].

Definition digest_of (d : dict) : pystr :=
  match sha256_json (VDict d) with Ok h => h | Raise _ => [] end.

Definition seal (d : dict) : dict :=
  d ++ [(str "packet_id", VStr (str "jlpa-" ++ take 24 (digest_of d)));
        (str "request_digest", VStr (digest_of d))].

Definition head : string := "0123456789abcdef0123456789abcdef01234567".

Definition ready_request : value :=
  obj [("instance_slug", vstr "demo"); ("action", vstr "mark_pr_ready");
       ("repo", vstr "octo/repo");
       ("pr", obj [("number", VInt 7); ("head_sha", vstr head)]);
       ("targets", obj [("thread_node_ids", VList [])])].

Definition thread_request : value :=
  obj [("instance_slug", vstr "demo"); ("action", vstr "resolve_review_thread");
       ("repo", vstr "octo/repo");
       ("pr", obj [("number", VInt 7); ("head_sha", vstr head)]);
       ("targets", obj [("thread_node_ids", VList [vstr "PRRT_1"])])].

(** Two packets for the same effect, and one for another. *)
Definition packet1 : dict := Eval vm_compute in seal (body ready_request T0 (T0 + 600)).
Definition packet2 : dict := Eval vm_compute in seal (body ready_request (T0 + 1) (T0 + 600)).
Definition packet3 : dict := Eval vm_compute in seal (body thread_request T0 (T0 + 600)).

Definition text_of (v : value) : pystr := match v with VStr s => s | _ => [] end.
Definition pid1 : pystr := Eval vm_compute in text_of (get packet1 "packet_id").
Definition pid2 : pystr := Eval vm_compute in text_of (get packet2 "packet_id").
Definition pid3 : pystr := Eval vm_compute in text_of (get packet3 "packet_id").

Definition key_of (packet : dict) : pystr :=
  match semantic_effect_key packet None (T0 + 10) with Ok k => k | Raise _ => [] end.
Definition key1 : pystr := Eval vm_compute in key_of packet1.
Definition key3 : pystr := Eval vm_compute in key_of packet3.

Definition attempt1 : pystr := str "attempt-1".
Definition attempt2 : pystr := str "attempt-2".
Definition precondition : pystr := ZERO_HASH.
Definition receipt1 : dict := [(str "outcome", vstr "completed"); (str "n", VInt 1)].
Definition receipt2 : dict := [(str "outcome", vstr "failed")].

Lemma packet1_wf : wf (VDict packet1).
Proof. apply wfb_wf. vm_compute. reflexivity. Qed.
Lemma packet2_wf : wf (VDict packet2).
Proof. apply wfb_wf. vm_compute. reflexivity. Qed.
Lemma packet3_wf : wf (VDict packet3).
Proof. apply wfb_wf. vm_compute. reflexivity. Qed.
