(* ===== verification/Tables.v ===== *)
(** * The tables of the broker database

    The schema of broker/john_lomein_broker_store.py ([_SCHEMA]): a record per
    row, a record of tables, and the SQL statements the store executes as
    functions on the tables.  A statement that violates a CHECK, UNIQUE or
    FOREIGN KEY clause raises [IntegrityError].  [immediate] is the
    [BEGIN IMMEDIATE] block: when its body raises, the tables are what they
    were. *)

From S2P Require Import Prelude Regex Sha256 PyTime Json Packet.
Local Open Scope Z_scope.

(** ** Rows *)

(** The values of the [state] and [terminal_state] columns. *)
Inductive status := Pending | Completed | Reconciled | Indeterminate | Rejected | Failed.

#[global] Instance status_eq_dec : EqDecision status.
Proof. solve_decision. Defined.

Definition status_text (s : status) : pystr :=
  match s with
  | Pending => str "pending" | Completed => str "completed" | Reconciled => str "reconciled"
  | Indeterminate => str "indeterminate" | Rejected => str "rejected" | Failed => str "failed"
  end.

Definition TERMINAL_STATES : list status := [Completed; Reconciled; Indeterminate].
Definition EFFECT_STATES : list status := Pending :: TERMINAL_STATES.

Definition is_terminal (s : status) : bool := bool_decide (s ∈ TERMINAL_STATES).

Record packet_row := {
  p_request_digest : pystr;
  p_instance_slug : pystr;
  p_action : pystr;
  p_repo : pystr;
  p_pr_number : Z;
  p_head_sha : pystr;
  p_packet_json : pystr;
  p_accepted_at : Z;
  p_expires_at : Z }.

Record effect_row := {
  e_effect_key : pystr;
  e_semantic_json : pystr;
  e_instance_slug : pystr;
  e_action : pystr;
  e_repo : pystr;
  e_pr_number : Z;
  e_head_sha : pystr;
  e_thread_node_id : option pystr;
  e_state : status;
  e_first_packet_id : pystr;
  e_last_packet_id : pystr;
  e_active_attempt_key : option pystr;
  e_active_attempt_packet_id : option pystr;
  e_active_precondition_digest : option pystr;
  e_active_attempt_started_at : option Z;
  e_mutation_attempts : Z;
  e_last_reconciliation_json : option pystr;
  e_created_at : Z;
  e_updated_at : Z;
  e_terminal_at : option Z }.

Inductive budget_kind := RequestEvent | MutationEvent.

#[global] Instance budget_kind_eq_dec : EqDecision budget_kind.
Proof. solve_decision. Defined.

Record budget_event := {
  b_event_key : pystr;
  b_kind : budget_kind;
  b_instance_slug : pystr;
  b_action : pystr;
  b_occurred_at : Z;
  b_utc_day : pystr;
  b_packet_id : pystr;
  b_effect_key : option pystr;
  b_attempt_key : option pystr;
  b_detail_json : pystr }.

Record receipt_row := {
  r_receipt_digest : pystr;
  r_effect_key : option pystr;
  r_packet_id : pystr;
  r_terminal_state : status;
  r_receipt_json : pystr;
  r_created_at : Z }.

(** [c_open]: the [state] column is ['open']. *)
Record circuit_row := {
  c_instance_slug : pystr;
  c_action : pystr;
  c_open : bool;
  c_consecutive_indeterminate : Z;
  c_opened_at : option Z;
  c_reason_json : option pystr;
  c_updated_at : Z }.

Record binding_row := {
  binding_digest : pystr;
  binding_json : pystr;
  bound_at : Z }.

(** ** Tables

    Primary keys index the maps; [budget_events] and [receipts] are in
    insertion order, which is the order of [receipt_sequence]. *)

Record db := {
  broker_binding : option binding_row;
  packets : gmap pystr packet_row;
  effects : gmap pystr effect_row;
  budget_events : list budget_event;
  receipts : list receipt_row;
  circuits : gmap pystr circuit_row }.

Definition empty_db : db :=
  {| broker_binding := None; packets := ∅; effects := ∅; budget_events := [];
     receipts := []; circuits := ∅ |}.

Definition with_binding (b : binding_row) (d : db) : db :=
  {| broker_binding := Some b; packets := d.(packets); effects := d.(effects);
     budget_events := d.(budget_events); receipts := d.(receipts); circuits := d.(circuits) |}.
Definition with_packets (m : gmap pystr packet_row) (d : db) : db :=
  {| broker_binding := d.(broker_binding); packets := m; effects := d.(effects);
     budget_events := d.(budget_events); receipts := d.(receipts); circuits := d.(circuits) |}.
Definition with_effects (m : gmap pystr effect_row) (d : db) : db :=
  {| broker_binding := d.(broker_binding); packets := d.(packets); effects := m;
     budget_events := d.(budget_events); receipts := d.(receipts); circuits := d.(circuits) |}.
Definition with_events (l : list budget_event) (d : db) : db :=
  {| broker_binding := d.(broker_binding); packets := d.(packets); effects := d.(effects);
     budget_events := l; receipts := d.(receipts); circuits := d.(circuits) |}.
Definition with_receipts (l : list receipt_row) (d : db) : db :=
  {| broker_binding := d.(broker_binding); packets := d.(packets); effects := d.(effects);
     budget_events := d.(budget_events); receipts := l; circuits := d.(circuits) |}.
Definition with_circuits (m : gmap pystr circuit_row) (d : db) : db :=
  {| broker_binding := d.(broker_binding); packets := d.(packets); effects := d.(effects);
     budget_events := d.(budget_events); receipts := d.(receipts); circuits := m |}.

(** The body of a transaction, and the transaction. *)
Definition txn (A : Type) : Type := db -> res (A * db).

Definition immediate {A} (body : txn A) (d : db) : res A * db :=
  match body d with
  | Ok (a, d') => (Ok a, d')
  | Raise e => (Raise e, d)
  end.

(** ** CHECK clauses *)

Definition action_check (a : pystr) : bool := bool_decide (a ∈ ALLOWED_ACTIONS).

Definition packet_check (p : packet_row) : bool :=
  action_check p.(p_action) && (0 <? p.(p_pr_number)) &&
  (p.(p_accepted_at) <? p.(p_expires_at)).


Definition effect_thread_check (e : effect_row) : bool :=
  (bool_decide (e.(e_action) = MARK_PR_READY) && negb (is_some e.(e_thread_node_id))) ||
  (bool_decide (e.(e_action) = RESOLVE_REVIEW_THREAD) && is_some e.(e_thread_node_id)).

Definition effect_attempt_check (e : effect_row) : bool :=
  (negb (is_some e.(e_active_attempt_key)) && negb (is_some e.(e_active_attempt_packet_id)) &&
   negb (is_some e.(e_active_precondition_digest)) &&
   negb (is_some e.(e_active_attempt_started_at))) ||
  (is_some e.(e_active_attempt_key) && is_some e.(e_active_attempt_packet_id) &&
   is_some e.(e_active_precondition_digest) && is_some e.(e_active_attempt_started_at)).

Definition effect_terminal_check (e : effect_row) : bool :=
  (bool_decide (e.(e_state) = Pending) && negb (is_some e.(e_terminal_at))) ||
  (negb (bool_decide (e.(e_state) = Pending)) && is_some e.(e_terminal_at)).

Definition effect_check (e : effect_row) : bool :=
  action_check e.(e_action) && (0 <? e.(e_pr_number)) &&
  bool_decide (e.(e_state) ∈ EFFECT_STATES) && (0 <=? e.(e_mutation_attempts)) &&
  effect_thread_check e && effect_attempt_check e && effect_terminal_check e.

Definition budget_check (b : budget_event) : bool :=
  action_check b.(b_action) &&
  match b.(b_kind) with
  | RequestEvent => negb (is_some b.(b_effect_key)) && negb (is_some b.(b_attempt_key))
  | MutationEvent => is_some b.(b_effect_key) && is_some b.(b_attempt_key)
  end.

Definition receipt_check (r : receipt_row) : bool :=
  bool_decide (r.(r_terminal_state) ∈ [Completed; Reconciled; Indeterminate; Rejected; Failed]).

Definition circuit_check (c : circuit_row) : bool :=
  action_check c.(c_action) && (0 <=? c.(c_consecutive_indeterminate)) &&
  Bool.eqb c.(c_open) (is_some c.(c_opened_at)).

(** ** FOREIGN KEY clauses *)

Definition packet_ref (d : db) (k : pystr) : bool := is_some (d.(packets) !! k).
Definition effect_ref (d : db) (k : pystr) : bool := is_some (d.(effects) !! k).
Definition null_or {A} (f : A -> bool) (o : option A) : bool :=
  match o with Some a => f a | None => true end.

Definition effect_fk (d : db) (e : effect_row) : bool :=
  packet_ref d e.(e_first_packet_id) && packet_ref d e.(e_last_packet_id) &&
  null_or (packet_ref d) e.(e_active_attempt_packet_id).

Definition CHECK_FAILED : exn := IntegrityError "CHECK constraint failed".
Definition UNIQUE_FAILED : exn := IntegrityError "UNIQUE constraint failed".
Definition FOREIGN_KEY_FAILED : exn := IntegrityError "FOREIGN KEY constraint failed".

(** ** Statements *)

(** The values of a map that satisfy a predicate, in some order. *)
Definition rows {A} (f : A -> bool) (m : gmap pystr A) : list (pystr * A) :=
  List.filter (fun kv => f kv.2) (map_to_list m).

(** [INSERT INTO packets] *)
Definition insert_packet (k : pystr) (p : packet_row) (d : db) : res db :=
  raise_if negb (packet_check p) with CHECK_FAILED ;;
  raise_if is_some (d.(packets) !! k) ||
      any (rows (fun q => bool_decide (q.(p_request_digest) = p.(p_request_digest))) d.(packets))
    with UNIQUE_FAILED ;;
  Ok (with_packets (<[k := p]> d.(packets)) d).

(** [INSERT INTO effects] *)
Definition insert_effect (e : effect_row) (d : db) : res db :=
  raise_if negb (effect_check e) with CHECK_FAILED ;;
  raise_if is_some (d.(effects) !! e.(e_effect_key)) ||
      any (rows (fun q => bool_decide (q.(e_semantic_json) = e.(e_semantic_json))) d.(effects))
    with UNIQUE_FAILED ;;
  raise_if negb (effect_fk d e) with FOREIGN_KEY_FAILED ;;
  Ok (with_effects (<[e.(e_effect_key) := e]> d.(effects)) d).

(** [UPDATE effects SET ... WHERE effect_key = ?]; the [SET] list never names
    the key or a UNIQUE column. *)
Definition update_effect (k : pystr) (set_columns : effect_row -> effect_row) (d : db) :
    res db :=
  match d.(effects) !! k with
  | None => Ok d
  | Some e =>
      let e' := set_columns e in
      raise_if negb (effect_check e') with CHECK_FAILED ;;
      raise_if negb (effect_fk d e') with FOREIGN_KEY_FAILED ;;
      Ok (with_effects (<[k := e']> d.(effects)) d)
  end.

(** [INSERT INTO budget_events] *)
Definition insert_event (b : budget_event) (d : db) : res db :=
  raise_if negb (budget_check b) with CHECK_FAILED ;;
  raise_if existsb (fun c => bool_decide (c.(b_event_key) = b.(b_event_key))) d.(budget_events)
    with UNIQUE_FAILED ;;
  raise_if negb (packet_ref d b.(b_packet_id) && null_or (effect_ref d) b.(b_effect_key))
    with FOREIGN_KEY_FAILED ;;
  Ok (with_events (d.(budget_events) ++ [b]) d).

(** [INSERT INTO receipts]: the sequence number grows with every row. *)
Definition insert_receipt (r : receipt_row) (d : db) : res db :=
  raise_if negb (receipt_check r) with CHECK_FAILED ;;
  raise_if existsb (fun q => bool_decide (q.(r_receipt_digest) = r.(r_receipt_digest)) ||
      bool_decide (q.(r_packet_id) = r.(r_packet_id))) d.(receipts)
    with UNIQUE_FAILED ;;
  raise_if negb (packet_ref d r.(r_packet_id) && null_or (effect_ref d) r.(r_effect_key))
    with FOREIGN_KEY_FAILED ;;
  Ok (with_receipts (d.(receipts) ++ [r]) d).

(** [INSERT INTO circuit_breakers ... ON CONFLICT(circuit_key) DO UPDATE]: the
    update keeps the two identifying columns. *)
Definition upsert_circuit (k : pystr) (c : circuit_row) (d : db) : res db :=
  let row := match d.(circuits) !! k with
    | None => c
    | Some old =>
        {| c_instance_slug := old.(c_instance_slug); c_action := old.(c_action);
           c_open := c.(c_open);
           c_consecutive_indeterminate := c.(c_consecutive_indeterminate);
           c_opened_at := c.(c_opened_at); c_reason_json := c.(c_reason_json);
           c_updated_at := c.(c_updated_at) |}
    end in
  raise_if negb (circuit_check row) with CHECK_FAILED ;;
  raise_if negb (is_some (d.(circuits) !! k)) &&
      any (rows (fun q => bool_decide (q.(c_instance_slug) = c.(c_instance_slug)) &&
        bool_decide (q.(c_action) = c.(c_action))) d.(circuits))
    with UNIQUE_FAILED ;;
  Ok (with_circuits (<[k := row]> d.(circuits)) d).

(** [SELECT ... FROM circuit_breakers WHERE instance_slug = ? AND action = ?] *)
Definition select_circuit (slug action : pystr) (d : db) : option circuit_row :=
  match rows (fun q => bool_decide (q.(c_instance_slug) = slug) &&
      bool_decide (q.(c_action) = action)) d.(circuits) with
  | (_, c) :: _ => Some c
  | [] => None
  end.

(** [SELECT ... FROM receipts WHERE packet_id = ?] *)
Definition select_receipt (packet_id : pystr) (d : db) : option receipt_row :=
  List.find (fun r => bool_decide (r.(r_packet_id) = packet_id)) d.(receipts).

(** Mutation events of an instance on a UTC day. *)
Definition mutation_event_on (slug utc_day : pystr) (b : budget_event) : bool :=
  bool_decide (b.(b_instance_slug) = slug) && bool_decide (b.(b_kind) = MutationEvent) &&
  bool_decide (b.(b_utc_day) = utc_day).

(** Request events of an instance after a cutoff. *)
Definition request_event_after (slug : pystr) (cutoff : Z) (b : budget_event) : bool :=
  bool_decide (b.(b_instance_slug) = slug) && bool_decide (b.(b_kind) = RequestEvent) &&
  (cutoff <? b.(b_occurred_at)).

(** [SELECT count( * )] *)
Definition count {A} (f : A -> bool) (l : list A) : Z := zlen (List.filter f l).
