(* ===== verification/Store.v ===== *)
(** * The durable store of the broker

    The operations of [BrokerStore] in broker/john_lomein_broker_store.py, on
    the tables of Tables.v.  A public operation is a function from the tables
    to its result and the new tables; those that write run in [immediate].
    The clock is the argument [now_epoch].  Opening the database file and its
    permission checks are not modelled. *)

From S2P Require Import Prelude Regex Sha256 PyTime Json Packet Tables.
Local Open Scope Z_scope.

(** ** Results *)

Inductive disposition :=
| reserved | duplicate_pending | receipt_replay | semantic_completed | indeterminate
| charged | already_charged | terminalized.

#[global] Instance disposition_eq_dec : EqDecision disposition.
Proof. solve_decision. Defined.

Record Reservation := {
  rsv_disposition : disposition;
  rsv_packet_id : pystr;
  rsv_effect_key : pystr;
  rsv_action : pystr;
  rsv_state : status;
  rsv_receipt : option dict;
  rsv_receipt_packet_id : option pystr }.

Record MutationReservation := {
  mrv_disposition : disposition;
  mrv_packet_id : pystr;
  mrv_effect_key : pystr;
  mrv_action : pystr;
  mrv_attempt_key : option pystr;
  mrv_charged_at : option pystr;
  mrv_receipt : option dict;
  mrv_receipt_packet_id : option pystr }.

Record Terminalization := {
  trm_disposition : disposition;
  trm_packet_id : pystr;
  trm_effect_key : option pystr;
  trm_action : pystr;
  trm_state : status;
  trm_receipt_digest : pystr;
  trm_receipt : dict }.

Record PendingRecovery := {
  rec_packet_id : pystr;
  rec_effect_key : pystr;
  rec_action : pystr;
  rec_repo : pystr;
  rec_pr_number : Z;
  rec_head_sha : pystr;
  rec_thread_node_id : option pystr;
  rec_attempt_key : pystr;
  rec_precondition_digest : pystr;
  rec_attempt_started_at : pystr;
  rec_mutation_attempts : Z }.

(** A decoded receipt row: digest, packet, state and value. *)
Record persisted := {
  ps_digest : pystr;
  ps_packet_id : pystr;
  ps_state : status;
  ps_value : dict }.

(** ** Runtime binding *)

(** The branch of [bind_runtime] on a bound database. *)
Definition check_binding (row : binding_row) (digest json : pystr) : res unit :=
  raise_if negb (fullmatch SHA256_RE row.(binding_digest)) ||
      negb (bool_decide (sha256_text row.(binding_json) = row.(binding_digest)))
    with (StoreCorruptionError "broker runtime binding is corrupted") ;;
  let* _ := decode_canonical_json row.(binding_json) "broker runtime binding" in
  raise_if negb (bool_decide (row.(binding_digest) = digest)) ||
      negb (bool_decide (row.(binding_json) = json))
    with (StoreCorruptionError "broker database is bound to a different config") ;;
  Ok tt.

Definition durable_rows (d : db) : Z :=
  Z.of_nat (size d.(packets)) + Z.of_nat (size d.(effects)) + zlen d.(budget_events) +
  zlen d.(receipts) + Z.of_nat (size d.(circuits)).

Definition bind_body (digest json : pystr) (now_epoch : Z) : txn pystr := fun d =>
  match d.(broker_binding) with
  | Some row => let* _ := check_binding row digest json in Ok (digest, d)
  | None =>
      raise_if negb (durable_rows d =? 0)
        with (StoreCorruptionError "unbound broker database already contains durable state") ;;
      Ok (digest, with_binding {| binding_digest := digest; binding_json := json;
                                  bound_at := now_epoch |} d)
  end.

Definition bind_runtime (binding : dict) (now_epoch : Z) (d : db) : res pystr * db :=
  match canonical_json (VDict binding) with
  | Raise e => (Raise e, d)
  | Ok json => immediate (bind_body (sha256_text json) json now_epoch) d
  end.

(** ** Circuits and request budget *)

Definition circuit_key (instance_slug action : pystr) : pystr :=
  instance_slug ++ str ":" ++ action.

Definition assert_circuit_closed (instance_slug action : pystr) (d : db) : res unit :=
  match select_circuit instance_slug action d with
  | Some row =>
      raise_if row.(c_open)
        with (CircuitOpenError action row.(c_consecutive_indeterminate)) ;; Ok tt
  | None => Ok tt
  end.

Definition utc_day (epoch : Z) : pystr := day_text (epoch / 86400 + epoch_ordinal).

(** [ORDER BY occurred_at]: the first row. *)
Definition first_occurred (l : list budget_event) : option Z :=
  fold_right (fun b acc => Some (match acc with
    | Some t => Z.min b.(b_occurred_at) t | None => b.(b_occurred_at) end)) None l.

Definition request_event (identity : PacketIdentity) (now_epoch : Z) (detail : pystr) :
    budget_event :=
  {| b_event_key := str "request:" ++ identity.(id_packet_id); b_kind := RequestEvent;
     b_instance_slug := identity.(id_instance_slug); b_action := identity.(id_action);
     b_occurred_at := now_epoch; b_utc_day := utc_day now_epoch;
     b_packet_id := identity.(id_packet_id); b_effect_key := None; b_attempt_key := None;
     b_detail_json := detail |}.

Definition request_budget (identity : PacketIdentity) (limits : BudgetLimits)
    (now_epoch : Z) (d : db) : res db :=
  let cutoff := now_epoch - REQUEST_WINDOW_SECONDS in
  let window :=
    List.filter (request_event_after identity.(id_instance_slug) cutoff) d.(budget_events) in
  let used := zlen window in
  raise_if limits.(requests_per_hour) <=? used
    with (BudgetExceeded "requests_per_hour" limits.(requests_per_hour) used
      match first_occurred window with
      | Some t => Z.max (now_epoch + 1) (t + REQUEST_WINDOW_SECONDS)
      | None => now_epoch + REQUEST_WINDOW_SECONDS
      end) ;;
  let* detail := canonical_json (obj [
    ("kind", vstr "request"); ("limit", VInt limits.(requests_per_hour));
    ("request_digest", VStr identity.(id_request_digest));
    ("window_seconds", VInt REQUEST_WINDOW_SECONDS)]) in
  insert_event (request_event identity now_epoch detail) d.

(** ** Receipts *)

Definition decode_receipt_row (row : receipt_row) : res persisted :=
  let* value := decode_canonical_json row.(r_receipt_json) "broker receipt" in
  let digest := sha256_text row.(r_receipt_json) in
  raise_if negb (bool_decide (digest = row.(r_receipt_digest)))
    with (StoreCorruptionError "broker receipt digest does not match") ;;
  Ok {| ps_digest := digest; ps_packet_id := row.(r_packet_id);
        ps_state := row.(r_terminal_state); ps_value := value |}.

Definition decode_receipt (row : option receipt_row) : res (option persisted) :=
  match row with
  | None => Ok None
  | Some r => let* p := decode_receipt_row r in Ok (Some p)
  end.

Definition load_packet_receipt (packet_id : pystr) (d : db) : res (option persisted) :=
  decode_receipt (select_receipt packet_id d).

(** The receipts of an effect in a terminal state of the effect. *)
Definition effect_receipt (effect_key : pystr) (r : receipt_row) : bool :=
  bool_decide (r.(r_effect_key) = Some effect_key) && is_terminal r.(r_terminal_state).

Definition load_latest_effect_receipt (effect_key : pystr) (d : db) : res (option persisted) :=
  decode_receipt (last (List.filter (effect_receipt effect_key) d.(receipts))).

Definition receipt_for_packet (packet_id : pystr) (d : db) : res (option dict) :=
  raise_if negb (fullmatch PACKET_ID_RE packet_id)
    with (BrokerStoreError "packet id is invalid") ;;
  let* p := load_packet_receipt packet_id d in
  Ok (option_map ps_value p).

Definition latest_receipt_digest (d : db) : res pystr :=
  match last d.(receipts) with
  | None => Ok ZERO_HASH
  | Some row => let* p := decode_receipt_row row in Ok p.(ps_digest)
  end.

(** ** Packets *)

(** The columns of a row agree with the packet's identity. *)
Definition columns_match (identity : PacketIdentity) (row : packet_row) : bool :=
  bool_decide (identity.(id_request_digest) = row.(p_request_digest)) &&
  bool_decide (identity.(id_instance_slug) = row.(p_instance_slug)) &&
  bool_decide (identity.(id_action) = row.(p_action)) &&
  bool_decide (identity.(id_repo) = row.(p_repo)) &&
  (identity.(id_pr_number) =? row.(p_pr_number)) &&
  bool_decide (identity.(id_head_sha) = row.(p_head_sha)).

Definition load_packet (packet_id : pystr) (d : db) : res dict :=
  raise_if negb (fullmatch PACKET_ID_RE packet_id)
    with (BrokerStoreError "packet id is invalid") ;;
  match d.(packets) !! packet_id with
  | None => Raise (BrokerStoreError "accepted packet does not exist")
  | Some row =>
      let* packet := decode_canonical_json row.(p_packet_json) "protected-action packet" in
      let* identity := packet_identity packet (row.(p_expires_at) - 1) in
      raise_if negb (bool_decide (identity.(id_packet_id) = packet_id)) ||
          negb (columns_match identity row)
        with (StoreCorruptionError "accepted packet columns do not match canonical packet") ;;
      Ok packet
  end.

(** ** Reservation *)

Definition replay_reservation (dsp : disposition) (packet_id : pystr) (row : effect_row)
    (state : status) (p : persisted) : Reservation :=
  {| rsv_disposition := dsp; rsv_packet_id := packet_id;
     rsv_effect_key := row.(e_effect_key); rsv_action := row.(e_action);
     rsv_state := state; rsv_receipt := Some p.(ps_value);
     rsv_receipt_packet_id := Some p.(ps_packet_id) |}.

Definition reservation_from_effect (row : effect_row) (packet_id : pystr) (new_effect : bool)
    (d : db) : res Reservation :=
  let state := row.(e_state) in
  let* exact := load_packet_receipt packet_id d in
  match exact with
  | Some p => Ok (replay_reservation receipt_replay packet_id row p.(ps_state) p)
  | None =>
      if bool_decide (state = Completed) || bool_decide (state = Reconciled) then
        let* persisted := load_latest_effect_receipt row.(e_effect_key) d in
        match persisted with
        | None => Raise (StoreCorruptionError "terminal broker effect has no receipt")
        | Some p => Ok (replay_reservation semantic_completed packet_id row state p)
        end
      else if bool_decide (state = Indeterminate) then
        let* persisted := load_latest_effect_receipt row.(e_effect_key) d in
        match persisted with
        | None => Raise (StoreCorruptionError "indeterminate broker effect has no receipt")
        | Some p => Ok (replay_reservation indeterminate packet_id row state p)
        end
      else
        Ok {| rsv_disposition := if new_effect then reserved else duplicate_pending;
              rsv_packet_id := packet_id; rsv_effect_key := row.(e_effect_key);
              rsv_action := row.(e_action); rsv_state := state; rsv_receipt := None;
              rsv_receipt_packet_id := None |}
  end.

Definition packet_row_of (identity : PacketIdentity) (now_epoch : Z) : packet_row :=
  {| p_request_digest := identity.(id_request_digest);
     p_instance_slug := identity.(id_instance_slug); p_action := identity.(id_action);
     p_repo := identity.(id_repo); p_pr_number := identity.(id_pr_number);
     p_head_sha := identity.(id_head_sha); p_packet_json := identity.(id_packet_json);
     p_accepted_at := now_epoch; p_expires_at := identity.(id_expires_at) |}.

(** The first half of [reserve]: the packet is known or accepted now. *)
Definition accept_packet (identity : PacketIdentity) (limits : BudgetLimits) (now_epoch : Z)
    (d : db) : res db :=
  match d.(packets) !! identity.(id_packet_id) with
  | Some row =>
      raise_if negb (bool_decide (row.(p_request_digest) = identity.(id_request_digest))) ||
          negb (bool_decide (row.(p_packet_json) = identity.(id_packet_json)))
        with (PacketConflictError "packet id conflicts with persisted packet content") ;;
      Ok d
  | None =>
      raise_if any (rows (fun q =>
          bool_decide (q.(p_request_digest) = identity.(id_request_digest))) d.(packets))
        with (PacketConflictError "packet digest conflicts with another packet") ;;
      let* _ := assert_circuit_closed identity.(id_instance_slug) identity.(id_action) d in
      let* d := insert_packet identity.(id_packet_id) (packet_row_of identity now_epoch) d in
      request_budget identity limits now_epoch d
  end.

Definition new_effect_row (identity : PacketIdentity) (effect_key semantic_json : pystr)
    (selected_thread : option pystr) (now_epoch : Z) : effect_row :=
  {| e_effect_key := effect_key; e_semantic_json := semantic_json;
     e_instance_slug := identity.(id_instance_slug); e_action := identity.(id_action);
     e_repo := identity.(id_repo); e_pr_number := identity.(id_pr_number);
     e_head_sha := identity.(id_head_sha); e_thread_node_id := selected_thread;
     e_state := Pending; e_first_packet_id := identity.(id_packet_id);
     e_last_packet_id := identity.(id_packet_id); e_active_attempt_key := None;
     e_active_attempt_packet_id := None; e_active_precondition_digest := None;
     e_active_attempt_started_at := None; e_mutation_attempts := 0;
     e_last_reconciliation_json := None; e_created_at := now_epoch;
     e_updated_at := now_epoch; e_terminal_at := None |}.

(** [SET last_packet_id = ?, updated_at = ?] *)
Definition touch_effect (packet_id : pystr) (now_epoch : Z) (e : effect_row) : effect_row :=
  {| e_effect_key := e.(e_effect_key); e_semantic_json := e.(e_semantic_json);
     e_instance_slug := e.(e_instance_slug); e_action := e.(e_action); e_repo := e.(e_repo);
     e_pr_number := e.(e_pr_number); e_head_sha := e.(e_head_sha);
     e_thread_node_id := e.(e_thread_node_id); e_state := e.(e_state);
     e_first_packet_id := e.(e_first_packet_id); e_last_packet_id := packet_id;
     e_active_attempt_key := e.(e_active_attempt_key);
     e_active_attempt_packet_id := e.(e_active_attempt_packet_id);
     e_active_precondition_digest := e.(e_active_precondition_digest);
     e_active_attempt_started_at := e.(e_active_attempt_started_at);
     e_mutation_attempts := e.(e_mutation_attempts);
     e_last_reconciliation_json := e.(e_last_reconciliation_json);
     e_created_at := e.(e_created_at); e_updated_at := now_epoch;
     e_terminal_at := e.(e_terminal_at) |}.

(** The second half of [reserve]: the effect is created or touched; the result
    says whether it is new. *)
Definition ensure_effect (identity : PacketIdentity) (effect_key semantic_json : pystr)
    (selected_thread : option pystr) (now_epoch : Z) (d : db) : res (bool * db) :=
  match d.(effects) !! effect_key with
  | None =>
      let* _ := assert_circuit_closed identity.(id_instance_slug) identity.(id_action) d in
      let* d := insert_effect
        (new_effect_row identity effect_key semantic_json selected_thread now_epoch) d in
      Ok (true, d)
  | Some effect =>
      raise_if negb (bool_decide (effect.(e_semantic_json) = semantic_json))
        with (StoreCorruptionError "semantic effect key collides with different content") ;;
      raise_if negb (bool_decide (effect.(e_instance_slug) = identity.(id_instance_slug)))
        with (EffectStateError "semantic effect is owned by another broker instance") ;;
      let* d := update_effect effect_key (touch_effect identity.(id_packet_id) now_epoch) d in
      Ok (false, d)
  end.

Definition reserve_body (identity : PacketIdentity) (effect_key semantic_json : pystr)
    (selected_thread : option pystr) (limits : BudgetLimits) (now_epoch : Z) :
    txn Reservation := fun d =>
  let* d := accept_packet identity limits now_epoch d in
  let* (new_effect, d) :=
    ensure_effect identity effect_key semantic_json selected_thread now_epoch d in
  match d.(effects) !! effect_key with
  | None => Raise AssertionError
  | Some effect =>
      let* r := reservation_from_effect effect identity.(id_packet_id) new_effect d in
      Ok (r, d)
  end.

Definition reserve (packet : dict) (limits : BudgetLimits) (thread_node_id : option pystr)
    (now_epoch : Z) (d : db) : res Reservation * db :=
  match
    (let* identity := packet_identity packet now_epoch in
     let* s := semantic_identity identity thread_node_id in
     Ok (identity, s))
  with
  | Raise e => (Raise e, d)
  | Ok (identity, (effect_key, selected_thread, semantic_json)) =>
      immediate
        (reserve_body identity effect_key semantic_json selected_thread limits now_epoch) d
  end.

(** ** Mutation charges *)

Definition packet_belongs_to_effect (packet_id : pystr) (effect : effect_row) (now_epoch : Z)
    (allow_expired : bool) (d : db) : res PacketIdentity :=
  match d.(packets) !! packet_id with
  | None => Raise (EffectStateError "mutation packet is not accepted")
  | Some row =>
      let* packet := decode_canonical_json row.(p_packet_json) "protected-action packet" in
      let* expires_at := index packet "expires_at" in
      let* expires := parse_utc expires_at "packet expires_at" in
      let validation_epoch := if allow_expired then Z.min now_epoch (expires - 1)
                              else now_epoch in
      let* identity := packet_identity packet validation_epoch in
      let* (expected_key, _, _) := semantic_identity identity effect.(e_thread_node_id) in
      raise_if negb (bool_decide (expected_key = effect.(e_effect_key))) ||
          negb (bool_decide (identity.(id_instance_slug) = effect.(e_instance_slug)))
        with (EffectStateError "mutation packet does not bind the semantic effect") ;;
      Ok identity
  end.

(** [datetime.strptime(utc_day, "%Y-%m-%d") + timedelta(days=1)] *)
Definition next_midnight (day : pystr) : res Z :=
  match strptime_day day with
  | Some midnight => Ok (midnight + 86400)
  | None => Raise (ValueError "time data does not match format '%Y-%m-%d'")
  end.

Definition mutation_event_key (effect_key attempt_key : pystr) : pystr :=
  str "mutation:" ++ effect_key ++ str ":" ++ attempt_key.

Definition mutation_event (effect : effect_row) (packet_id attempt_key : pystr)
    (now_epoch : Z) (detail : pystr) : budget_event :=
  {| b_event_key := mutation_event_key effect.(e_effect_key) attempt_key;
     b_kind := MutationEvent; b_instance_slug := effect.(e_instance_slug);
     b_action := effect.(e_action); b_occurred_at := now_epoch;
     b_utc_day := utc_day now_epoch; b_packet_id := packet_id;
     b_effect_key := Some effect.(e_effect_key); b_attempt_key := Some attempt_key;
     b_detail_json := detail |}.

(** The charge is refused when the day's count has reached the limit. *)
Definition within_daily (budget : string) (limit used : Z) (day : pystr) : res unit :=
  if limit <=? used then
    let* reset := next_midnight day in
    Raise (BudgetExceeded budget limit used reset)
  else Ok tt.

Definition mutation_budget (effect : effect_row) (packet_id attempt_key : pystr)
    (precondition_digest : pystr) (limits : BudgetLimits) (now_epoch : Z) (d : db) : res db :=
  let day := utc_day now_epoch in
  let on_day := mutation_event_on effect.(e_instance_slug) day in
  let* _ := within_daily "daily_mutations" limits.(daily_mutations)
    (count on_day d.(budget_events)) day in
  let* action_limit := action_daily_limit limits effect.(e_action) in
  let* _ := within_daily
    (if bool_decide (effect.(e_action) = MARK_PR_READY) then "mark_pr_ready_per_day"
     else "review_threads_per_day")
    action_limit
    (count (fun b => on_day b && bool_decide (b.(b_action) = effect.(e_action)))
      d.(budget_events)) day in
  let* detail := canonical_json (obj [
    ("action_limit", VInt action_limit); ("attempt_key", VStr attempt_key);
    ("daily_mutations_limit", VInt limits.(daily_mutations));
    ("effect_key", VStr effect.(e_effect_key)); ("kind", vstr "mutation");
    ("precondition_digest", VStr precondition_digest)]) in
  insert_event (mutation_event effect packet_id attempt_key now_epoch detail) d.

(** [SET active_... = ?, mutation_attempts = mutation_attempts + 1, updated_at = ?] *)
Definition charge_effect (attempt_key packet_id precondition_digest : pystr) (now_epoch : Z)
    (e : effect_row) : effect_row :=
  {| e_effect_key := e.(e_effect_key); e_semantic_json := e.(e_semantic_json);
     e_instance_slug := e.(e_instance_slug); e_action := e.(e_action); e_repo := e.(e_repo);
     e_pr_number := e.(e_pr_number); e_head_sha := e.(e_head_sha);
     e_thread_node_id := e.(e_thread_node_id); e_state := e.(e_state);
     e_first_packet_id := e.(e_first_packet_id); e_last_packet_id := e.(e_last_packet_id);
     e_active_attempt_key := Some attempt_key;
     e_active_attempt_packet_id := Some packet_id;
     e_active_precondition_digest := Some precondition_digest;
     e_active_attempt_started_at := Some now_epoch;
     e_mutation_attempts := e.(e_mutation_attempts) + 1;
     e_last_reconciliation_json := e.(e_last_reconciliation_json);
     e_created_at := e.(e_created_at); e_updated_at := now_epoch;
     e_terminal_at := e.(e_terminal_at) |}.

(** The attempt is the active one, under the same precondition. *)
Definition same_attempt (effect : effect_row) (attempt_key packet_id digest : pystr) : bool :=
  bool_decide (effect.(e_active_attempt_key) = Some attempt_key) &&
  bool_decide (effect.(e_active_attempt_packet_id) = Some packet_id) &&
  bool_decide (effect.(e_active_precondition_digest) = Some digest).

(** [SELECT 1 FROM budget_events WHERE kind = 'mutation' ...] *)
Definition attempt_consumed (effect_key attempt_key : pystr) (d : db) : bool :=
  existsb (fun b => bool_decide (b.(b_kind) = MutationEvent) &&
    bool_decide (b.(b_effect_key) = Some effect_key) &&
    bool_decide (b.(b_attempt_key) = Some attempt_key)) d.(budget_events).

Definition replay_mutation (dsp : disposition) (packet_id effect_key : pystr)
    (effect : effect_row) (p : persisted) : MutationReservation :=
  {| mrv_disposition := dsp; mrv_packet_id := packet_id; mrv_effect_key := effect_key;
     mrv_action := effect.(e_action); mrv_attempt_key := None; mrv_charged_at := None;
     mrv_receipt := Some p.(ps_value); mrv_receipt_packet_id := Some p.(ps_packet_id) |}.

Definition attempt_reservation (dsp : disposition) (packet_id effect_key : pystr)
    (effect : effect_row) (attempt_key : pystr) (at_epoch : Z) : MutationReservation :=
  {| mrv_disposition := dsp; mrv_packet_id := packet_id; mrv_effect_key := effect_key;
     mrv_action := effect.(e_action); mrv_attempt_key := Some attempt_key;
     mrv_charged_at := Some (utc_text at_epoch); mrv_receipt := None;
     mrv_receipt_packet_id := None |}.

(** [begin_mutation] on a pending effect without an active attempt: the charge. *)
Definition charge_attempt (effect : effect_row) (effect_key packet_id attempt_key : pystr)
    (limits : BudgetLimits) (precondition_digest : pystr) (now_epoch : Z) :
    txn MutationReservation := fun d =>
  raise_if 2 <=? effect.(e_mutation_attempts)
    with (EffectStateError ("semantic effect exhausted its single absent-state retry; " +:+
      "terminalize it as indeterminate")) ;;
  raise_if attempt_consumed effect_key attempt_key d
    with (EffectStateError "mutation attempt key was already consumed") ;;
  let* _ := assert_circuit_closed effect.(e_instance_slug) effect.(e_action) d in
  let* d := mutation_budget effect packet_id attempt_key precondition_digest limits
    now_epoch d in
  let* d := update_effect effect_key
    (charge_effect attempt_key packet_id precondition_digest now_epoch) d in
  Ok (attempt_reservation charged packet_id effect_key effect attempt_key now_epoch, d).

(** [begin_mutation] on a pending effect: an active attempt is either this one
    or must be recovered first. *)
Definition begin_pending (effect : effect_row) (effect_key packet_id attempt_key : pystr)
    (limits : BudgetLimits) (precondition_digest : pystr) (now_epoch : Z) :
    txn MutationReservation := fun d =>
  let* _ := packet_belongs_to_effect packet_id effect now_epoch false d in
  if is_some effect.(e_active_attempt_key) then
    if same_attempt effect attempt_key packet_id precondition_digest then
      match effect.(e_active_attempt_started_at) with
      | Some started =>
          Ok (attempt_reservation already_charged packet_id effect_key effect attempt_key
            started, d)
      | None => Raise (TypeError "int() argument must not be NoneType")
      end
    else Raise (PendingRecoveryError "semantic effect already has a charged pending attempt")
  else charge_attempt effect effect_key packet_id attempt_key limits precondition_digest
    now_epoch d.

Definition begin_body (effect_key packet_id attempt_key : pystr) (limits : BudgetLimits)
    (precondition_digest : pystr) (now_epoch : Z) : txn MutationReservation := fun d =>
  match d.(effects) !! effect_key with
  | None => Raise (EffectStateError "semantic effect is not reserved")
  | Some effect =>
      let* exact_receipt := load_packet_receipt packet_id d in
      match exact_receipt with
      | Some p => Ok (replay_mutation receipt_replay packet_id effect_key effect p, d)
      | None =>
          if is_terminal effect.(e_state) then
            let* persisted := load_latest_effect_receipt effect_key d in
            match persisted with
            | None => Raise (StoreCorruptionError "terminal broker effect has no receipt")
            | Some p =>
                Ok (replay_mutation
                  (if bool_decide (effect.(e_state) = Indeterminate) then indeterminate
                   else semantic_completed) packet_id effect_key effect p, d)
            end
          else begin_pending effect effect_key packet_id attempt_key limits
            precondition_digest now_epoch d
      end
  end.

(** The identifier checks the mutating operations share. *)
Definition check_keys (effect_key packet_id attempt_key : pystr) : res unit :=
  raise_if negb (fullmatch EFFECT_KEY_RE effect_key)
    with (BrokerStoreError "effect key is invalid") ;;
  raise_if negb (fullmatch PACKET_ID_RE packet_id)
    with (BrokerStoreError "packet id is invalid") ;;
  raise_if negb (fullmatch ATTEMPT_KEY_RE attempt_key)
    with (BrokerStoreError "mutation attempt key is invalid") ;;
  Ok tt.

Definition begin_mutation (effect_key packet_id attempt_key : pystr) (limits : BudgetLimits)
    (precondition_digest : pystr) (now_epoch : Z) (d : db) : res MutationReservation * db :=
  match
    (let* _ := check_keys effect_key packet_id attempt_key in
     raise_if negb (fullmatch SHA256_RE precondition_digest)
       with (BrokerStoreError "precondition digest is invalid") ;; Ok tt)
  with
  | Raise e => (Raise e, d)
  | Ok _ => immediate
      (begin_body effect_key packet_id attempt_key limits precondition_digest now_epoch) d
  end.

(** ** Reconciliation *)

(** [SET active_... = NULL, last_reconciliation_json = ?, updated_at = ?] *)
Definition clear_attempt (reconciliation_json : pystr) (now_epoch : Z) (e : effect_row) :
    effect_row :=
  {| e_effect_key := e.(e_effect_key); e_semantic_json := e.(e_semantic_json);
     e_instance_slug := e.(e_instance_slug); e_action := e.(e_action); e_repo := e.(e_repo);
     e_pr_number := e.(e_pr_number); e_head_sha := e.(e_head_sha);
     e_thread_node_id := e.(e_thread_node_id); e_state := e.(e_state);
     e_first_packet_id := e.(e_first_packet_id); e_last_packet_id := e.(e_last_packet_id);
     e_active_attempt_key := None; e_active_attempt_packet_id := None;
     e_active_precondition_digest := None; e_active_attempt_started_at := None;
     e_mutation_attempts := e.(e_mutation_attempts);
     e_last_reconciliation_json := Some reconciliation_json;
     e_created_at := e.(e_created_at); e_updated_at := now_epoch;
     e_terminal_at := e.(e_terminal_at) |}.

Inductive reconciliation := reconciled_absent | already_reconciled_absent.

(** Without an active attempt only an exact replay succeeds. *)
Definition replay_reconciliation (effect : effect_row) (packet_id attempt_key : pystr)
    (evidence : dict) : res reconciliation :=
  let fail := EffectStateError "effect has no attempt to reconcile" in
  match effect.(e_last_reconciliation_json) with
  | None => Raise fail
  | Some json =>
      let* previous := decode_canonical_json json "last reconciliation" in
      if py_eq (get previous "attempt_key") (VStr attempt_key) &&
         py_eq (get previous "packet_id") (VStr packet_id) &&
         py_eq (get previous "result") (vstr "absent") &&
         py_eq (get previous "evidence") (VDict evidence)
      then Ok already_reconciled_absent else Raise fail
  end.

Definition reconciliation_record (effect : effect_row) (packet_id attempt_key : pystr)
    (evidence : dict) (now_epoch : Z) : value :=
  obj [("attempt_key", VStr attempt_key); ("evidence", VDict evidence);
       ("observed_at", VStr (utc_text now_epoch)); ("packet_id", VStr packet_id);
       ("precondition_digest", vopt VStr effect.(e_active_precondition_digest));
       ("result", vstr "absent")].

Definition absent_body (effect_key packet_id attempt_key : pystr) (evidence : dict)
    (now_epoch : Z) : txn reconciliation := fun d =>
  let closed := EffectStateError "only a pending effect can reconcile an absent attempt" in
  match d.(effects) !! effect_key with
  | None => Raise closed
  | Some effect =>
      raise_if negb (bool_decide (effect.(e_state) = Pending)) with closed ;;
      if is_some effect.(e_active_attempt_key) then
        raise_if negb (bool_decide (effect.(e_active_attempt_key) = Some attempt_key)) ||
            negb (bool_decide (effect.(e_active_attempt_packet_id) = Some packet_id))
          with (EffectStateError "reconciliation does not match the active attempt") ;;
        raise_if 2 <=? effect.(e_mutation_attempts)
          with (EffectStateError ("the retry attempt cannot be recycled; terminalize the " +:+
            "effect as indeterminate")) ;;
        let* json := canonical_json
          (reconciliation_record effect packet_id attempt_key evidence now_epoch) in
        let* d := update_effect effect_key (clear_attempt json now_epoch) d in
        Ok (reconciled_absent, d)
      else
        let* r := replay_reconciliation effect packet_id attempt_key evidence in Ok (r, d)
  end.

(** A mapping after an encoding and decoding round trip, its text and digest. *)
Definition canonical_copy (v : dict) (field : string) : res (pystr * dict) :=
  let* json := canonical_json (VDict v) in
  let* copy := decode_canonical_json json field in
  Ok (json, copy).

Definition reconcile_absent (effect_key packet_id attempt_key : pystr) (evidence : dict)
    (now_epoch : Z) (d : db) : res reconciliation * db :=
  match
    (let* _ := check_keys effect_key packet_id attempt_key in
     canonical_copy evidence "reconciliation evidence")
  with
  | Raise e => (Raise e, d)
  | Ok (_, evidence_value) =>
      immediate (absent_body effect_key packet_id attempt_key evidence_value now_epoch) d
  end.

(** ** Terminal outcomes *)

(** [excluded.*]: the row [_record_terminal_circuit] writes; without limits
    an indeterminate outcome is refused. *)
Definition terminal_circuit_row (effect : effect_row) (old : option circuit_row)
    (state : status) (limits : option BudgetLimits) (now_epoch : Z) : res circuit_row :=
  let row opened count opened_at reason :=
    {| c_instance_slug := effect.(e_instance_slug); c_action := effect.(e_action);
       c_open := opened; c_consecutive_indeterminate := count; c_opened_at := opened_at;
       c_reason_json := reason; c_updated_at := now_epoch |} in
  if bool_decide (state = Indeterminate) then
    match limits with
    | None => Raise (EffectStateError "indeterminate terminalization requires circuit limits")
    | Some l =>
        let count := match old with
          | Some c => c.(c_consecutive_indeterminate) + 1 | None => 1 end in
        let opened := l.(consecutive_indeterminate_limit) <=? count in
        let opened_at := if opened then Some now_epoch else None in
        let* reason := canonical_json (obj [
          ("effect_key", VStr effect.(e_effect_key));
          ("limit", VInt l.(consecutive_indeterminate_limit));
          ("reason", vstr "consecutive_indeterminate_effects")]) in
        Ok (row opened count opened_at (Some reason))
    end
  else Ok (row false 0 None None).

Definition record_terminal_circuit (effect : effect_row) (state : status)
    (limits : option BudgetLimits) (now_epoch : Z) (d : db) : res db :=
  let k := circuit_key effect.(e_instance_slug) effect.(e_action) in
  let* row := terminal_circuit_row effect (d.(circuits) !! k) state limits now_epoch in
  upsert_circuit k row d.

(** [SET state = ?, active_... = NULL, updated_at = ?, terminal_at = ?] *)
Definition terminate_effect (state : status) (now_epoch : Z) (e : effect_row) : effect_row :=
  {| e_effect_key := e.(e_effect_key); e_semantic_json := e.(e_semantic_json);
     e_instance_slug := e.(e_instance_slug); e_action := e.(e_action); e_repo := e.(e_repo);
     e_pr_number := e.(e_pr_number); e_head_sha := e.(e_head_sha);
     e_thread_node_id := e.(e_thread_node_id); e_state := state;
     e_first_packet_id := e.(e_first_packet_id); e_last_packet_id := e.(e_last_packet_id);
     e_active_attempt_key := None; e_active_attempt_packet_id := None;
     e_active_precondition_digest := None; e_active_attempt_started_at := None;
     e_mutation_attempts := e.(e_mutation_attempts);
     e_last_reconciliation_json := e.(e_last_reconciliation_json);
     e_created_at := e.(e_created_at); e_updated_at := now_epoch;
     e_terminal_at := Some now_epoch |}.

(** [SET state = 'reconciled', updated_at = ?, terminal_at = ?] *)
Definition reconcile_effect (now_epoch : Z) (e : effect_row) : effect_row :=
  {| e_effect_key := e.(e_effect_key); e_semantic_json := e.(e_semantic_json);
     e_instance_slug := e.(e_instance_slug); e_action := e.(e_action); e_repo := e.(e_repo);
     e_pr_number := e.(e_pr_number); e_head_sha := e.(e_head_sha);
     e_thread_node_id := e.(e_thread_node_id); e_state := Reconciled;
     e_first_packet_id := e.(e_first_packet_id); e_last_packet_id := e.(e_last_packet_id);
     e_active_attempt_key := e.(e_active_attempt_key);
     e_active_attempt_packet_id := e.(e_active_attempt_packet_id);
     e_active_precondition_digest := e.(e_active_precondition_digest);
     e_active_attempt_started_at := e.(e_active_attempt_started_at);
     e_mutation_attempts := e.(e_mutation_attempts);
     e_last_reconciliation_json := e.(e_last_reconciliation_json);
     e_created_at := e.(e_created_at); e_updated_at := now_epoch;
     e_terminal_at := Some now_epoch |}.

Definition receipt_of (digest : pystr) (effect_key : option pystr) (packet_id : pystr)
    (state : status) (json : pystr) (now_epoch : Z) : receipt_row :=
  {| r_receipt_digest := digest; r_effect_key := effect_key; r_packet_id := packet_id;
     r_terminal_state := state; r_receipt_json := json; r_created_at := now_epoch |}.

Definition terminalization (dsp : disposition) (packet_id : pystr) (effect_key : option pystr)
    (action : pystr) (state : status) (digest : pystr) (receipt : dict) : Terminalization :=
  {| trm_disposition := dsp; trm_packet_id := packet_id; trm_effect_key := effect_key;
     trm_action := action; trm_state := state; trm_receipt_digest := digest;
     trm_receipt := receipt |}.

(** [except sqlite3.IntegrityError] around the insertion of a packet receipt. *)
Definition is_integrity (e : exn) : bool :=
  match e with IntegrityError _ => true | _ => false end.

(** The packet already has a receipt: only its exact replay succeeds. *)
Definition replay_packet_receipt (action packet_id : pystr) (effect_key : option pystr)
    (state : status) (digest : pystr) (existing : persisted) (row : option receipt_row) :
    res Terminalization :=
  raise_if negb (bool_decide (existing.(ps_digest) = digest)) ||
      negb (bool_decide (existing.(ps_state) = state)) ||
      negb (bool_decide ((row ≫= r_effect_key) = effect_key))
    with (EffectStateError "packet conflicts with its persisted receipt") ;;
  Ok (terminalization receipt_replay packet_id effect_key action state digest
        existing.(ps_value)).

(** The effect a packet receipt names, and whether the receipt may be written. *)
Definition receipt_effect (packet_id : pystr) (effect_key : option pystr) (state : status)
    (now_epoch : Z) (d : db) : res (option effect_row) :=
  match effect_key with
  | None => Ok None
  | Some k =>
      match d.(effects) !! k with
      | None => Raise (EffectStateError "packet receipt semantic effect does not exist")
      | Some effect =>
          let* _ := packet_belongs_to_effect packet_id effect now_epoch true d in
          if bool_decide (state = Reconciled) then
            raise_if bool_decide (effect.(e_state) = Indeterminate)
              with (EffectStateError
                "an indeterminate effect cannot be rewritten as reconciled") ;;
            raise_if bool_decide (effect.(e_state) = Pending) &&
                is_some effect.(e_active_attempt_key)
              with (EffectStateError
                "an already-satisfied reconciliation cannot hide a charged attempt") ;;
            Ok (Some effect)
          else
            raise_if is_some effect.(e_active_attempt_key)
              with (EffectStateError "pre-mutation receipt cannot hide a charged attempt") ;;
            Ok (Some effect)
      end
  end.

(** A reconciled receipt makes its pending effect reconciled. *)
Definition reconcile_pending (effect : option effect_row) (effect_key : option pystr)
    (state : status) (now_epoch : Z) (d : db) : res db :=
  match effect, effect_key with
  | Some e, Some k =>
      if bool_decide (state = Reconciled) && bool_decide (e.(e_state) = Pending) then
        let* d := update_effect k (reconcile_effect now_epoch) d in
        record_terminal_circuit e Reconciled None now_epoch d
      else Ok d
  | _, _ => Ok d
  end.

Definition packet_receipt_body (packet_id : pystr) (state : status) (json : pystr)
    (value : dict) (effect_key : option pystr) (now_epoch : Z) : txn Terminalization := fun d =>
  let digest := sha256_text json in
  match d.(packets) !! packet_id with
  | None => Raise (EffectStateError "packet receipt requires an accepted packet")
  | Some packet =>
      let* existing := load_packet_receipt packet_id d in
      match existing with
      | Some p =>
          let* t := replay_packet_receipt packet.(p_action) packet_id effect_key state digest
            p (select_receipt packet_id d) in
          Ok (t, d)
      | None =>
          let* effect := receipt_effect packet_id effect_key state now_epoch d in
          let* d := reraise is_integrity
            (fun _ => EffectStateError "packet receipt conflicts with durable receipt state")
            (insert_receipt (receipt_of digest effect_key packet_id state json now_epoch) d) in
          let* d := reconcile_pending effect effect_key state now_epoch d in
          Ok (terminalization terminalized packet_id effect_key packet.(p_action) state digest
                value, d)
      end
  end.

(** The argument checks of [record_packet_receipt]. *)
Definition check_packet_receipt (packet_id : pystr) (state : status)
    (effect_key : option pystr) : res unit :=
  raise_if negb (fullmatch PACKET_ID_RE packet_id)
    with (BrokerStoreError "packet id is invalid") ;;
  raise_if negb (bool_decide (state ∈ [Rejected; Failed; Reconciled]))
    with (BrokerStoreError "packet receipt state is invalid") ;;
  raise_if negb (null_or (fullmatch EFFECT_KEY_RE) effect_key)
    with (BrokerStoreError "effect key is invalid") ;;
  raise_if bool_decide (state = Reconciled) && negb (is_some effect_key)
    with (BrokerStoreError "a reconciled packet receipt requires a semantic effect") ;;
  Ok tt.

Definition record_packet_receipt (packet_id : pystr) (state : status) (receipt : dict)
    (effect_key : option pystr) (now_epoch : Z) (d : db) : res Terminalization * db :=
  match
    (let* _ := check_packet_receipt packet_id state effect_key in
     canonical_copy receipt "broker receipt")
  with
  | Raise e => (Raise e, d)
  | Ok (json, value) =>
      immediate (packet_receipt_body packet_id state json value effect_key now_epoch) d
  end.

(** [terminalize] on a terminal effect: only the exact replay succeeds. *)
Definition replay_terminal (effect : effect_row) (effect_key packet_id : pystr)
    (state : status) (digest : pystr) (d : db) : res Terminalization :=
  let* persisted := load_packet_receipt packet_id d in
  match persisted with
  | None => Raise (EffectStateError ("semantic effect is already terminal; record a " +:+
      "packet-bound reconciled receipt instead"))
  | Some p =>
      raise_if negb (bool_decide (p.(ps_digest) = digest)) ||
          negb (bool_decide (p.(ps_packet_id) = packet_id)) ||
          negb (bool_decide (p.(ps_state) = state))
        with (EffectStateError "terminal effect conflicts with persisted receipt") ;;
      Ok (terminalization receipt_replay packet_id (Some effect_key) effect.(e_action) state
            digest p.(ps_value))
  end.

Definition terminalize_body (effect_key packet_id attempt_key : pystr) (state : status)
    (json : pystr) (value : dict) (limits : BudgetLimits) (now_epoch : Z) :
    txn Terminalization := fun d =>
  let digest := sha256_text json in
  match d.(effects) !! effect_key with
  | None => Raise (EffectStateError "semantic effect is not reserved")
  | Some effect =>
      if is_terminal effect.(e_state) then
        let* t := replay_terminal effect effect_key packet_id state digest d in Ok (t, d)
      else
        let* _ := packet_belongs_to_effect packet_id effect now_epoch true d in
        raise_if negb (bool_decide (effect.(e_active_attempt_key) = Some attempt_key)) ||
            negb (bool_decide (effect.(e_active_attempt_packet_id) = Some packet_id))
          with (EffectStateError "terminal receipt does not match the charged attempt") ;;
        let* d := insert_receipt
          (receipt_of digest (Some effect_key) packet_id state json now_epoch) d in
        let* d := update_effect effect_key (terminate_effect state now_epoch) d in
        let* d := record_terminal_circuit effect state (Some limits) now_epoch d in
        Ok (terminalization terminalized packet_id (Some effect_key) effect.(e_action) state
              digest value, d)
  end.

Definition terminalize (effect_key packet_id attempt_key : pystr) (state : status)
    (receipt : dict) (limits : BudgetLimits) (now_epoch : Z) (d : db) :
    res Terminalization * db :=
  match
    (let* _ := check_keys effect_key packet_id attempt_key in
     raise_if negb (is_terminal state)
       with (BrokerStoreError "terminal broker state is invalid") ;;
     canonical_copy receipt "broker receipt")
  with
  | Raise e => (Raise e, d)
  | Ok (json, value) => immediate
      (terminalize_body effect_key packet_id attempt_key state json value limits now_epoch) d
  end.

(** ** Recovery, circuits and counts *)

(** The row of one charged pending effect joined with its packet; [None] when
    the effect is not selected. *)
Definition recovery_row (d : db) (e : effect_row) : option (Z * PendingRecovery) :=
  match e.(e_state), e.(e_active_attempt_key), e.(e_active_attempt_packet_id),
        e.(e_active_precondition_digest), e.(e_active_attempt_started_at) with
  | Pending, Some attempt_key, Some packet_id, Some precondition, Some started =>
      match d.(packets) !! packet_id with
      | Some p => Some (started,
          {| rec_packet_id := packet_id; rec_effect_key := e.(e_effect_key);
             rec_action := e.(e_action); rec_repo := e.(e_repo);
             rec_pr_number := e.(e_pr_number); rec_head_sha := p.(p_head_sha);
             rec_thread_node_id := e.(e_thread_node_id); rec_attempt_key := attempt_key;
             rec_precondition_digest := precondition;
             rec_attempt_started_at := utc_text started;
             rec_mutation_attempts := e.(e_mutation_attempts) |})
      | None => None
      end
  | _, _, _, _, _ => None
  end.

(** [ORDER BY active_attempt_started_at, effect_key] *)
Definition recovery_leb (a b : Z * PendingRecovery) : bool :=
  (a.1 <? b.1) || ((a.1 =? b.1) && str_leb a.2.(rec_effect_key) b.2.(rec_effect_key)).

Fixpoint insert_recovery (a : Z * PendingRecovery) (l : list (Z * PendingRecovery)) :
    list (Z * PendingRecovery) :=
  match l with
  | [] => [a]
  | b :: l' => if recovery_leb a b then a :: l else b :: insert_recovery a l'
  end.

Definition pending_recovery (d : db) : list PendingRecovery :=
  map snd (fold_right insert_recovery []
    (omap (fun kv => recovery_row d kv.2) (map_to_list d.(effects)))).

(** [if not INSTANCE_RE.fullmatch(...) ... if action not in ALLOWED_ACTIONS ...] *)
Definition check_circuit_args (instance_slug action : pystr) : res unit :=
  raise_if negb (fullmatch INSTANCE_RE instance_slug)
    with (BrokerStoreError "instance slug is invalid") ;;
  raise_if negb (bool_decide (action ∈ ALLOWED_ACTIONS))
    with (BrokerStoreError "broker action is unsupported") ;;
  Ok tt.

Definition circuit_status (instance_slug action : pystr) (d : db) : res value :=
  let* _ := check_circuit_args instance_slug action in
  match select_circuit instance_slug action d with
  | None => Ok (obj [("state", vstr "closed"); ("consecutive_indeterminate", VInt 0);
                     ("opened_at", VNone); ("reason", VNone)])
  | Some row =>
      let* reason := match row.(c_reason_json) with
        | Some json => let* r := decode_canonical_json json "circuit reason" in Ok (VDict r)
        | None => Ok VNone
        end in
      Ok (obj [("state", vstr (if row.(c_open) then "open" else "closed"));
               ("consecutive_indeterminate", VInt row.(c_consecutive_indeterminate));
               ("opened_at", vopt (fun t => VStr (utc_text t)) row.(c_opened_at));
               ("reason", reason);
               ("updated_at", VStr (utc_text row.(c_updated_at)))])
  end.

Definition close_circuit (instance_slug action : pystr) (now_epoch : Z) (d : db) :
    res unit * db :=
  match check_circuit_args instance_slug action with
  | Raise e => (Raise e, d)
  | Ok _ => immediate (fun d =>
      let* d := upsert_circuit (circuit_key instance_slug action)
        {| c_instance_slug := instance_slug; c_action := action; c_open := false;
           c_consecutive_indeterminate := 0; c_opened_at := None; c_reason_json := None;
           c_updated_at := now_epoch |} d in
      Ok (tt, d)) d
  end.

Definition counts (d : db) : value :=
  obj [("packets", VInt (Z.of_nat (size d.(packets))));
       ("effects", VInt (Z.of_nat (size d.(effects))));
       ("budget_events", VInt (zlen d.(budget_events)));
       ("receipts", VInt (zlen d.(receipts)));
       ("circuit_breakers", VInt (Z.of_nat (size d.(circuits))))].
