(* ===== verification/StoreSteps.v ===== *)
(** * The store as a transition system

    [step] lists the state changes of the store, one constructor per kind of
    row written; [op] the public operations that write, [run] their effect on
    the tables.  [run_steps] is the refinement: whatever an operation does is a
    sequence of steps, and an operation that raises changes nothing. *)

From S2P Require Import Prelude Regex Sha256 PyTime Json JsonFacts Packet Tables Store.
Local Open Scope Z_scope.

(** ** Statements that succeed *)

Lemma any_rows {A} (f : A -> bool) (m : gmap pystr A) :
  any (rows f m) = false <-> forall k v, m !! k = Some v -> f v = false.
Proof.
  unfold rows. split.
  - intros H k v Hk. apply not_true_is_false. intros Hf.
    assert (Hin : (k, v) ∈ List.filter (fun kv => f kv.2) (map_to_list m)).
    { apply list_elem_of_In, filter_In. split; [|done].
      by apply list_elem_of_In, elem_of_map_to_list. }
    destruct (List.filter _ _); [by apply not_elem_of_nil in Hin | done].
  - intros H. destruct (List.filter _ _) as [|[k v] l] eqn:E; [done |].
    assert (Hin : In (k, v) (List.filter (fun kv => f kv.2) (map_to_list m)))
      by (rewrite E; by left).
    apply filter_In in Hin as [Hin%list_elem_of_In%elem_of_map_to_list Hf].
    simpl in Hf. by rewrite (H k v Hin) in Hf.
Qed.

Lemma insert_packet_inv k p d d' :
  insert_packet k p d = Ok d' ->
  packet_check p = true /\ d.(packets) !! k = None /\
  (forall k' q, d.(packets) !! k' = Some q -> q.(p_request_digest) <> p.(p_request_digest)) /\
  d' = with_packets (<[k := p]> d.(packets)) d.
Proof.
  unfold insert_packet. intros H. inv_ok H. repeat split; try done.
  intros k' q Hq Hd. match goal with H : any _ = false |- _ => rewrite any_rows in H;
    specialize (H k' q Hq); simpl in H; by rewrite bool_decide_true in H end.
Qed.

Lemma insert_effect_inv e d d' :
  insert_effect e d = Ok d' ->
  effect_check e = true /\ d.(effects) !! e.(e_effect_key) = None /\ effect_fk d e = true /\
  d' = with_effects (<[e.(e_effect_key) := e]> d.(effects)) d.
Proof. unfold insert_effect. intros H. by inv_ok H. Qed.

Lemma update_effect_inv k f e d d' :
  d.(effects) !! k = Some e -> update_effect k f d = Ok d' ->
  effect_check (f e) = true /\ effect_fk d (f e) = true /\
  d' = with_effects (<[k := f e]> d.(effects)) d.
Proof. unfold update_effect. intros -> H. by inv_ok H. Qed.

(** An UPDATE of a row known by [Hl] that succeeded. *)
Ltac inv_update Hl :=
  match goal with
  | H : update_effect ?k ?f ?d = Ok ?d' |- _ =>
      match type of Hl with
      | _ = Some ?e =>
          let Hc := fresh "Hc" in let Hf := fresh "Hf" in let Hd := fresh "Hd" in
          destruct (update_effect_inv k f e d d' Hl H) as (Hc & Hf & Hd); clear H; subst
      end
  end.

Lemma existsb_false {A} (f : A -> bool) l :
  existsb f l = false <-> forall x, x ∈ l -> f x = false.
Proof.
  rewrite <- not_true_iff_false, existsb_exists. split.
  - intros H x Hx. apply not_true_is_false. intros Hf. apply H. exists x.
    by rewrite <- list_elem_of_In.
  - intros H (x & Hx & Hf). rewrite <- list_elem_of_In in Hx. by rewrite H in Hf.
Qed.

Lemma insert_event_inv b d d' :
  insert_event b d = Ok d' ->
  budget_check b = true /\
  (forall c, c ∈ d.(budget_events) -> c.(b_event_key) <> b.(b_event_key)) /\
  packet_ref d b.(b_packet_id) = true /\ null_or (effect_ref d) b.(b_effect_key) = true /\
  d' = with_events (d.(budget_events) ++ [b]) d.
Proof.
  unfold insert_event. intros H. inv_ok H. repeat split; try done.
  match goal with H : existsb _ _ = false |- _ => rewrite existsb_false in H;
    intros c Hc; specialize (H c Hc); by apply bool_decide_eq_false in H end.
Qed.

Lemma insert_receipt_inv r d d' :
  insert_receipt r d = Ok d' ->
  (forall q, q ∈ d.(receipts) -> q.(r_receipt_digest) <> r.(r_receipt_digest)) /\
  (forall q, q ∈ d.(receipts) -> q.(r_packet_id) <> r.(r_packet_id)) /\
  packet_ref d r.(r_packet_id) = true /\ null_or (effect_ref d) r.(r_effect_key) = true /\
  d' = with_receipts (d.(receipts) ++ [r]) d.
Proof.
  unfold insert_receipt. intros H. inv_ok H.
  match goal with H : existsb _ _ = false |- _ => rewrite existsb_false in H; rename H into HE end.
  repeat split; try done; intros q Hq; specialize (HE q Hq); by split_bools.
Qed.

Lemma upsert_circuit_inv k c d d' :
  upsert_circuit k c d = Ok d' ->
  exists row, d' = with_circuits (<[k := row]> d.(circuits)) d /\
    circuit_check row = true /\
    row.(c_open) = c.(c_open) /\
    row.(c_consecutive_indeterminate) = c.(c_consecutive_indeterminate) /\
    row.(c_opened_at) = c.(c_opened_at) /\ row.(c_reason_json) = c.(c_reason_json) /\
    (d.(circuits) !! k = None -> row = c) /\
    (forall old, d.(circuits) !! k = Some old ->
      row.(c_instance_slug) = old.(c_instance_slug) /\ row.(c_action) = old.(c_action)).
Proof.
  unfold upsert_circuit. destruct (d.(circuits) !! k) as [old|] eqn:E; intros H; inv_ok H;
    eexists; repeat split; naive_solver.
Qed.

(** ** Steps *)

(** A packet receipt that leaves its effect alone: the effect, when named, is
    already terminal (for a reconciled receipt) or has no charged attempt. *)
Definition receipt_allowed (packet_id : pystr) (k : option pystr) (state : status) (now : Z)
    (d : db) : Prop :=
  match k with
  | None => state <> Reconciled
  | Some k => exists e id, d.(effects) !! k = Some e /\
      packet_belongs_to_effect packet_id e now true d = Ok id /\
      if decide (state = Reconciled) then e.(e_state) <> Pending /\ e.(e_state) <> Indeterminate
      else e.(e_active_attempt_key) = None
  end.

(** A receipt row that may be inserted. *)
Definition fresh_receipt (r : receipt_row) (d : db) : Prop :=
  insert_receipt r d = Ok (with_receipts (d.(receipts) ++ [r]) d) /\
  select_receipt r.(r_packet_id) d = None /\
  r.(r_receipt_digest) = sha256_text r.(r_receipt_json) /\
  exists v, decode_canonical_json r.(r_receipt_json) "broker receipt" = Ok v.

(** What [P] says of the limits holds of every policy in use; [now] is the
    instant of the step. *)
Inductive step (P : BudgetLimits -> Prop) (now : Z) (d : db) : db -> Prop :=
| step_bind b : d.(broker_binding) = None -> durable_rows d = 0 -> step P now d (with_binding b d)
| step_accept packet identity limits detail :
    P limits -> wf (VDict packet) -> packet_identity packet now = Ok identity ->
    let row := packet_row_of identity now in
    let event := request_event identity now detail in
    insert_packet identity.(id_packet_id) row d =
      Ok (with_packets (<[identity.(id_packet_id) := row]> d.(packets)) d) ->
    assert_circuit_closed identity.(id_instance_slug) identity.(id_action) d = Ok tt ->
    count (request_event_after identity.(id_instance_slug) (now - REQUEST_WINDOW_SECONDS))
      d.(budget_events) < limits.(requests_per_hour) ->
    (forall b, b ∈ d.(budget_events) -> b.(b_event_key) <> event.(b_event_key)) ->
    step P now d (with_events (d.(budget_events) ++ [event])
      (with_packets (<[identity.(id_packet_id) := row]> d.(packets)) d))
| step_new_effect identity thread k selected semantic_json :
    semantic_identity identity thread = Ok (k, selected, semantic_json) ->
    let e := new_effect_row identity k semantic_json selected now in
    insert_effect e d = Ok (with_effects (<[k := e]> d.(effects)) d) ->
    assert_circuit_closed identity.(id_instance_slug) identity.(id_action) d = Ok tt ->
    step P now d (with_effects (<[k := e]> d.(effects)) d)
| step_touch k e packet_id :
    d.(effects) !! k = Some e ->
    effect_fk d (touch_effect packet_id now e) = true ->
    step P now d (with_effects (<[k := touch_effect packet_id now e]> d.(effects)) d)
| step_charge k e packet_id attempt_key precondition limits action_limit detail identity :
    P limits -> d.(effects) !! k = Some e -> is_terminal e.(e_state) = false ->
    e.(e_active_attempt_key) = None -> e.(e_mutation_attempts) < 2 ->
    select_receipt packet_id d = None ->
    packet_belongs_to_effect packet_id e now false d = Ok identity ->
    attempt_consumed k attempt_key d = false ->
    assert_circuit_closed e.(e_instance_slug) e.(e_action) d = Ok tt ->
    action_daily_limit limits e.(e_action) = Ok action_limit ->
    let on_day := mutation_event_on e.(e_instance_slug) (utc_day now) in
    count on_day d.(budget_events) < limits.(daily_mutations) ->
    count (fun b => on_day b && bool_decide (b.(b_action) = e.(e_action))) d.(budget_events) <
      action_limit ->
    let event := mutation_event e packet_id attempt_key now detail in
    (forall b, b ∈ d.(budget_events) -> b.(b_event_key) <> event.(b_event_key)) ->
    effect_check (charge_effect attempt_key packet_id precondition now e) = true ->
    effect_fk d (charge_effect attempt_key packet_id precondition now e) = true ->
    step P now d (with_effects
      (<[k := charge_effect attempt_key packet_id precondition now e]> d.(effects))
      (with_events (d.(budget_events) ++ [event]) d))
| step_absent k e packet_id attempt_key json :
    d.(effects) !! k = Some e -> e.(e_state) = Pending ->
    e.(e_active_attempt_key) = Some attempt_key ->
    e.(e_active_attempt_packet_id) = Some packet_id -> e.(e_mutation_attempts) < 2 ->
    effect_check (clear_attempt json now e) = true ->
    effect_fk d (clear_attempt json now e) = true ->
    step P now d (with_effects (<[k := clear_attempt json now e]> d.(effects)) d)
| step_receipt packet_id k state json :
    state ∈ [Rejected; Failed; Reconciled] ->
    let r := receipt_of (sha256_text json) k packet_id state json now in
    fresh_receipt r d -> receipt_allowed packet_id k state now d ->
    step P now d (with_receipts (d.(receipts) ++ [r]) d)
| step_reconcile packet_id k e json identity d' :
    d.(effects) !! k = Some e -> e.(e_state) = Pending -> e.(e_active_attempt_key) = None ->
    packet_belongs_to_effect packet_id e now true d = Ok identity ->
    let r := receipt_of (sha256_text json) (Some k) packet_id Reconciled json now in
    fresh_receipt r d ->
    effect_check (reconcile_effect now e) = true ->
    effect_fk d (reconcile_effect now e) = true ->
    record_terminal_circuit e Reconciled None now
      (with_effects (<[k := reconcile_effect now e]> d.(effects))
        (with_receipts (d.(receipts) ++ [r]) d)) = Ok d' ->
    step P now d d'
| step_terminal packet_id k e attempt_key state json limits identity d' :
    P limits -> d.(effects) !! k = Some e -> is_terminal e.(e_state) = false ->
    e.(e_active_attempt_key) = Some attempt_key ->
    e.(e_active_attempt_packet_id) = Some packet_id -> is_terminal state = true ->
    packet_belongs_to_effect packet_id e now true d = Ok identity ->
    let r := receipt_of (sha256_text json) (Some k) packet_id state json now in
    insert_receipt r d = Ok (with_receipts (d.(receipts) ++ [r]) d) ->
    (exists v, decode_canonical_json json "broker receipt" = Ok v) ->
    effect_check (terminate_effect state now e) = true ->
    effect_fk d (terminate_effect state now e) = true ->
    record_terminal_circuit e state (Some limits) now
      (with_effects (<[k := terminate_effect state now e]> d.(effects))
        (with_receipts (d.(receipts) ++ [r]) d)) = Ok d' ->
    step P now d d'
| step_close slug action row d' :
    action ∈ ALLOWED_ACTIONS -> row.(c_instance_slug) = slug -> row.(c_action) = action ->
    upsert_circuit (circuit_key slug action) row d = Ok d' ->
    step P now d d'.

(** ** Operations that write *)

Inductive op :=
| Bind (binding : dict) (now : Z)
| Reserve (packet : dict) (limits : BudgetLimits) (thread : option pystr) (now : Z)
| Begin (effect_key packet_id attempt_key : pystr) (limits : BudgetLimits)
    (precondition : pystr) (now : Z)
| Absent (effect_key packet_id attempt_key : pystr) (evidence : dict) (now : Z)
| PacketReceipt (packet_id : pystr) (state : status) (receipt : dict)
    (effect_key : option pystr) (now : Z)
| Terminal (effect_key packet_id attempt_key : pystr) (state : status) (receipt : dict)
    (limits : BudgetLimits) (now : Z)
| CloseCircuit (slug action : pystr) (now : Z).

(** The tables after the operation, whatever it returns or raises. *)
Definition run (o : op) (d : db) : db :=
  match o with
  | Bind b now => (bind_runtime b now d).2
  | Reserve p l t now => (reserve p l t now d).2
  | Begin k p a l c now => (begin_mutation k p a l c now d).2
  | Absent k p a v now => (reconcile_absent k p a v now d).2
  | PacketReceipt p s v k now => (record_packet_receipt p s v k now d).2
  | Terminal k p a s v l now => (terminalize k p a s v l now d).2
  | CloseCircuit s a now => (close_circuit s a now d).2
  end.

Definition run_all (ops : list op) (d : db) : db := fold_left (fun d o => run o d) ops d.

Definition op_now (o : op) : Z :=
  match o with
  | Bind _ now | Reserve _ _ _ now | Begin _ _ _ _ _ now | Absent _ _ _ _ now
  | PacketReceipt _ _ _ _ now | Terminal _ _ _ _ _ _ now | CloseCircuit _ _ now => now
  end.

(** The limits of the operation satisfy [P], and a packet is a value
    [json.loads] can build. *)
Definition op_ok (P : BudgetLimits -> Prop) (o : op) : Prop :=
  match o with
  | Reserve p l _ _ => P l /\ wf (VDict p)
  | Begin _ _ _ l _ _ | Terminal _ _ _ _ _ l _ => P l
  | _ => True
  end.

(** ** Operations are sequences of steps *)

Lemma immediate_spec {A} (body : txn A) d :
  (exists a d', body d = Ok (a, d') /\ immediate body d = (Ok a, d')) \/
  (exists e, body d = Raise e /\ immediate body d = (Raise e, d)).
Proof. unfold immediate. destruct (body d) as [[a d']|e]; eauto. Qed.

Lemma immediate_rel {A} (R : db -> db -> Prop) (body : txn A) d :
  (forall d, R d d) -> (forall a d', body d = Ok (a, d') -> R d d') -> R d (immediate body d).2.
Proof.
  intros Hr H. destruct (immediate_spec body d) as [(a & d' & E & ->)|(e & _ & ->)]; simpl; eauto.
Qed.

(** At most one step. *)
Inductive rc {A} (R : A -> A -> Prop) (x : A) : A -> Prop :=
| rc_refl : rc R x x
| rc_once y : R x y -> rc R x y.
#[local] Hint Constructors rc : core.

Lemma rc_rtc {A} (R : A -> A -> Prop) x y : rc R x y -> rtc R x y.
Proof. destruct 1; [done | by apply rtc_once]. Qed.

#[global] Instance rc_reflexive {A} (R : A -> A -> Prop) : Reflexive (rc R).
Proof. constructor. Qed.

Section Steps.
Context (P : BudgetLimits -> Prop).

#[local] Notation steps now := (rc (step P now)).

Lemma bind_steps digest json now d a d' :
  bind_body digest json now d = Ok (a, d') -> steps now d d'.
Proof.
  unfold bind_body. intros H. inv_ok H; [done |].
  apply rc_once. apply step_bind; [done | by apply Z.eqb_eq].
Qed.

Lemma request_budget_inv identity limits now d d' :
  request_budget identity limits now d = Ok d' ->
  count (request_event_after identity.(id_instance_slug) (now - REQUEST_WINDOW_SECONDS))
    d.(budget_events) < limits.(requests_per_hour) /\
  exists detail, insert_event (request_event identity now detail) d = Ok d'.
Proof.
  unfold request_budget. intros H. inv_ok H. split; [|eauto].
  unfold count. by apply Z.leb_gt.
Qed.

Lemma accept_steps packet identity limits now d d' :
  P limits -> wf (VDict packet) -> packet_identity packet now = Ok identity ->
  accept_packet identity limits now d = Ok d' ->
  steps now d d' /\ circuits d' = circuits d /\ effects d' = effects d.
Proof.
  intros HP Hw Hid H. unfold accept_packet in H. case_res H; [inv_ok H; by repeat split |].
  case_res H. case_res H. case_res H.
  apply request_budget_inv in H as (Hc & detail & Hi).
  match goal with H : insert_packet _ _ _ = Ok _ |- _ =>
    pose proof H as Hp; apply insert_packet_inv in H as (_ & _ & _ & ->) end.
  apply insert_event_inv in Hi as (_ & Hk & _ & _ & ->).
  split; [|done]. apply rc_once. destruct a. by eapply (step_accept P now d packet).
Qed.

Lemma ensure_steps identity thread k selected sj now d b d' :
  semantic_identity identity thread = Ok (k, selected, sj) ->
  ensure_effect identity k sj selected now d = Ok (b, d') ->
  steps now d d' /\ budget_events d' = budget_events d.
Proof.
  intros Hs H. unfold ensure_effect in H. case_res H.
  - case_res H. case_res H. case_res H. injection H as <- <-.
    inv_update E.
    split; [|done]. apply rc_once. by eapply step_touch.
  - case_res H. case_res H. injection H as <- <-.
    match goal with H : insert_effect _ _ = Ok _ |- _ =>
      pose proof H as Hi; apply insert_effect_inv in H as (_ & _ & _ & ->) end.
    split; [|done]. apply rc_once. destruct a. by eapply step_new_effect.
Qed.

(** An operation takes at most two steps: [reserve] accepts the packet, then
    creates or touches the effect.  The first changes no circuit, the second
    charges nothing. *)
Definition two_steps (now : Z) (d d' : db) : Prop :=
  exists d1, steps now d d1 /\ circuits d1 = circuits d /\
    steps now d1 d' /\ budget_events d' = budget_events d1 /\
    (effects d1 = effects d \/ d' = d1).

Lemma step_circuits_or_events now d d' :
  step P now d d' -> circuits d' = circuits d \/ budget_events d' = budget_events d.
Proof.
  destruct 1; auto; right.
  - match goal with H : record_terminal_circuit _ _ _ _ _ = Ok _ |- _ =>
      unfold record_terminal_circuit in H; case_res H;
      by apply upsert_circuit_inv in H as (row & -> & _) end.
  - match goal with H : record_terminal_circuit _ _ _ _ _ = Ok _ |- _ =>
      unfold record_terminal_circuit in H; case_res H;
      by apply upsert_circuit_inv in H as (row' & -> & _) end.
  - match goal with H : upsert_circuit _ _ _ = Ok _ |- _ =>
      by apply upsert_circuit_inv in H as (row' & -> & _) end.
Qed.

Lemma one_step now d d' : steps now d d' -> two_steps now d d'.
Proof.
  intros [|y Hs]; [exists d; repeat split; auto |].
  destruct (step_circuits_or_events now d y Hs); [exists y | exists d]; repeat split; auto.
Qed.

Lemma two_steps_rtc now d d' : two_steps now d d' -> rtc (step P now) d d'.
Proof. intros (d1 & H1 & _ & H2 & _ & _). etrans; by apply rc_rtc. Qed.

Lemma reserve_steps packet identity thread k selected sj limits now d r d' :
  P limits -> wf (VDict packet) -> packet_identity packet now = Ok identity ->
  semantic_identity identity thread = Ok (k, selected, sj) ->
  reserve_body identity k sj selected limits now d = Ok (r, d') -> two_steps now d d'.
Proof.
  intros HP Hw Hid Hs H. unfold reserve_body in H.
  case_res H. case_res H. destruct a0 as [b d2]. case_res H. case_res H.
  injection H as <- <-.
  match goal with H : accept_packet _ _ _ _ = Ok ?d1 |- _ => exists d1;
    destruct (accept_steps _ _ _ _ _ _ HP Hw Hid H) as (? & ? & ?) end.
  match goal with H : ensure_effect _ _ _ _ _ _ = Ok _ |- _ =>
    destruct (ensure_steps _ _ _ _ _ _ _ _ _ Hs H) end.
  repeat split; auto.
Qed.

Lemma within_daily_inv budget limit used day u :
  within_daily budget limit used day = Ok u -> used < limit.
Proof. unfold within_daily. intros H. inv_ok H. by apply Z.leb_gt. Qed.

Lemma mutation_budget_inv e packet_id attempt_key pre limits now d d' :
  mutation_budget e packet_id attempt_key pre limits now d = Ok d' ->
  exists action_limit detail,
    action_daily_limit limits e.(e_action) = Ok action_limit /\
    let on_day := mutation_event_on e.(e_instance_slug) (utc_day now) in
    count on_day d.(budget_events) < limits.(daily_mutations) /\
    count (fun b => on_day b && bool_decide (b.(b_action) = e.(e_action))) d.(budget_events) <
      action_limit /\
    insert_event (mutation_event e packet_id attempt_key now detail) d = Ok d'.
Proof.
  unfold mutation_budget. intros H. case_res H. case_res H. case_res H. case_res H.
  repeat match goal with H : within_daily _ _ _ _ = Ok _ |- _ => apply within_daily_inv in H end.
  eauto 10.
Qed.

Lemma load_none packet_id d :
  load_packet_receipt packet_id d = Ok None -> select_receipt packet_id d = None.
Proof.
  unfold load_packet_receipt. destruct (select_receipt packet_id d) as [r|]; [|done].
  simpl. by destruct (decode_receipt_row r).
Qed.

Lemma begin_steps k packet_id attempt_key limits pre now d r d' :
  P limits -> begin_body k packet_id attempt_key limits pre now d = Ok (r, d') ->
  steps now d d'.
Proof.
  intros HP H. unfold begin_body in H. case_res H. case_res H. case_res H.
  { by injection H as <- <-. }
  case_res H. { inv_ok H. done. }
  unfold begin_pending in H. case_res H. case_res H. { inv_ok H. done. }
  unfold charge_attempt in H. case_res H. case_res H. case_res H. case_res H. case_res H.
  injection H as <- <-.
  match goal with H : mutation_budget _ _ _ _ _ _ _ = Ok _ |- _ =>
    apply mutation_budget_inv in H as (limit & detail & Hl & Hd & Ha & Hi) end.
  apply insert_event_inv in Hi as (_ & Hk & _ & _ & ->).
  inv_update E.
  apply rc_once. destruct a1. split_bools.
  eapply (step_charge P now d k e packet_id attempt_key pre limits limit detail); try done.
  - by apply Z.leb_gt.
  - subst. by apply load_none.
Qed.

Lemma absent_steps k packet_id attempt_key evidence now d r d' :
  absent_body k packet_id attempt_key evidence now d = Ok (r, d') -> steps now d d'.
Proof.
  intros H. unfold absent_body in H. case_res H. case_res H. case_res H; [|by inv_ok H].
  case_res H. case_res H. case_res H. case_res H. injection H as <- <-.
  inv_update E.
  split_bools. apply rc_once. eapply step_absent; try done. by apply Z.leb_gt.
Qed.

Lemma canonical_copy_inv v field json copy :
  canonical_copy v field = Ok (json, copy) ->
  canonical_json (VDict v) = Ok json /\ decode_canonical_json json field = Ok copy.
Proof. unfold canonical_copy. intros H. case_res H. case_res H. by simplify_eq. Qed.

Lemma receipt_effect_inv packet_id k state now d effect :
  receipt_effect packet_id k state now d = Ok effect ->
  (k = None /\ effect = None) \/
  exists k' e id, k = Some k' /\ effect = Some e /\ d.(effects) !! k' = Some e /\
    packet_belongs_to_effect packet_id e now true d = Ok id /\
    if decide (state = Reconciled)
    then e.(e_state) <> Indeterminate /\ (e.(e_state) = Pending -> e.(e_active_attempt_key) = None)
    else e.(e_active_attempt_key) = None.
Proof.
  unfold receipt_effect. intros H. destruct k as [k'|]; [|inv_ok H; by left].
  right. case_res H. case_res H. case_bool_decide; inv_ok H; do 3 eexists;
    repeat split; try done; case_decide; try done; split_bools.
  match goal with H : _ && _ = false |- _ => apply andb_false_iff in H as [?|?] end;
    split_bools; naive_solver.
Qed.

Lemma packet_receipt_steps packet_id state json value k now d r d' :
  state ∈ [Rejected; Failed; Reconciled] ->
  (state = Reconciled -> is_some k = true) ->
  decode_canonical_json json "broker receipt" = Ok value ->
  packet_receipt_body packet_id state json value k now d = Ok (r, d') -> steps now d d'.
Proof.
  intros Hst Hk Hv H. unfold packet_receipt_body in H. case_res H. case_res H.
  case_res H; [by inv_ok H |].
  case_res H. case_res H. case_res H. injection H as <- <-.
  match goal with H : reraise _ _ _ = Ok ?d1 |- _ => rename H into Hi end.
  unfold reraise in Hi. case_res Hi; [|by case_res Hi]. injection Hi as ->.
  match goal with H : insert_receipt _ _ = Ok _ |- _ => rename H into Hi end.
  pose proof (insert_receipt_inv _ _ _ Hi) as (_ & _ & _ & _ & ->).
  apply rc_once.
  match goal with H : load_packet_receipt _ _ = Ok _ |- _ => subst; apply load_none in H end.
  assert (Hf : fresh_receipt (receipt_of (sha256_text json) k packet_id state json now) d)
    by (repeat split; eauto).
  match goal with H : receipt_effect _ _ _ _ _ = Ok _ |- _ =>
    apply receipt_effect_inv in H as [[-> ->]|(k' & e & id & -> & -> & He & Hb & Hs)] end.
  - match goal with H : reconcile_pending _ _ _ _ _ = Ok _ |- _ => injection H as <- end.
    apply step_receipt; try done. simpl. intros ->. by specialize (Hk eq_refl).
  - unfold reconcile_pending in *.
    match goal with H : (if ?b then _ else _) = Ok _ |- _ => rename H into Hr end.
    case_res Hr.
    + split_bools. subst. case_res Hr.
      inv_update He.
      rewrite decide_True in Hs by done. destruct Hs as [_ Hs].
      eapply step_reconcile; eauto.
    + injection Hr as <-. apply step_receipt; try done. exists e, id. repeat split; try done.
      case_decide; [|done]. split; [|naive_solver]. intros Hp.
      subst. by rewrite !bool_decide_true in *.
Qed.

Lemma terminalize_steps k packet_id attempt_key state json value limits now d r d' :
  P limits -> is_terminal state = true ->
  decode_canonical_json json "broker receipt" = Ok value ->
  terminalize_body k packet_id attempt_key state json value limits now d = Ok (r, d') ->
  steps now d d'.
Proof.
  intros HP Hst Hv H. unfold terminalize_body in H. case_res H. case_res H; [by inv_ok H |].
  case_res H. case_res H. case_res H. case_res H. case_res H. injection H as <- <-.
  match goal with H : insert_receipt _ _ = Ok _ |- _ =>
    pose proof H as Hi; apply insert_receipt_inv in Hi as (_ & _ & _ & _ & ->) end.
  inv_update E.
  split_bools. apply rc_once. eapply step_terminal; eauto.
Qed.

Lemma close_steps slug action now d :
  check_circuit_args slug action = Ok () -> two_steps now d (close_circuit slug action now d).2.
Proof.
  intros H. unfold close_circuit. rewrite H. apply immediate_rel; [intros; by apply one_step |].
  intros [] d' Hb. case_res Hb. injection Hb as <-. apply one_step, rc_once.
  unfold check_circuit_args in H. inv_ok H.
  eapply step_close; [| | |exact E]; done.
Qed.

(** Whatever an operation does to the tables is a sequence of steps. *)
Theorem run_steps o d : op_ok P o -> two_steps (op_now o) d (run o d).
Proof.
  assert (Hr : forall now d, two_steps now d d) by (intros; by apply one_step).
  destruct o; simpl; intros Hok.
  - unfold bind_runtime. case_match; [|done]. apply immediate_rel; [done |].
    intros r d' Hb. apply one_step. by eapply bind_steps.
  - destruct Hok as [HP Hw]. unfold reserve. case_match; [|done]. 
    match goal with H : (let* _ := _ in _) = Ok _ |- _ => rename H into Hi end.
    case_res Hi. case_res Hi. injection Hi as <-. destruct a1 as [[k selected] sj].
    apply immediate_rel; [done |]. intros r d'. by eapply reserve_steps.
  - unfold begin_mutation. case_match; [|done]. apply immediate_rel; [done |].
    intros r d' Hb. apply one_step. by eapply begin_steps.
  - unfold reconcile_absent. case_match; [|done]. destruct a as [json v].
    apply immediate_rel; [done |].
    intros r d' Hb. apply one_step. by eapply absent_steps.
  - unfold record_packet_receipt. case_match; [|done].
    match goal with H : (let* _ := _ in _) = Ok _ |- _ => rename H into Hi end.
    case_res Hi. destruct a as [json v]. apply canonical_copy_inv in Hi as [_ Hv].
    apply immediate_rel; [done |]. intros r d'.
    match goal with H : check_packet_receipt _ _ _ = Ok _ |- _ => 
      unfold check_packet_receipt in H; inv_ok H end.
    intros Hb. apply one_step. eapply packet_receipt_steps; try done. intros ->.
    match goal with H : _ && _ = false |- _ => apply andb_false_iff in H as [?|?] end; by split_bools.
  - unfold terminalize. case_match; [|done].
    match goal with H : (let* _ := _ in _) = Ok _ |- _ => rename H into Hi end.
    case_res Hi. case_res Hi. destruct a as [json v]. apply canonical_copy_inv in Hi as [_ Hv].
    apply immediate_rel; [done |]. intros r d' Hb. apply one_step.
    eapply terminalize_steps; [done | | done | done]. by split_bools.
  - unfold close_circuit at 1. destruct (check_circuit_args slug action) as [[]|e] eqn:E; [|done].
    pose proof (close_steps slug action now d E) as Hs. unfold close_circuit in Hs. by rewrite E in Hs.
Qed.
End Steps.
