(* ===== verification/StoreInv.v ===== *)
(** * The invariant of the store

    [Inv] is the well-formedness of the tables: every packet row is the image
    of a packet that was accepted, every effect row carries its own key and
    satisfies the schema, a mutation charge is counted once, a terminal effect
    has a receipt and a pending one has none, receipts are canonical text with
    their digest, one per packet.  [Inv_step] and [Inv_reachable] show that the
    operations keep it. *)

From S2P Require Import Prelude Regex Sha256 PyTime Json JsonFacts Packet Tables Store StoreSteps.
Local Open Scope Z_scope.

(** ** What one step changes, table by table *)

Lemma record_terminal_circuit_inv e state limits now d d' :
  record_terminal_circuit e state limits now d = Ok d' ->
  exists c, terminal_circuit_row e (d.(circuits) !! circuit_key e.(e_instance_slug) e.(e_action))
              state limits now = Ok c /\
    upsert_circuit (circuit_key e.(e_instance_slug) e.(e_action)) c d = Ok d'.
Proof. unfold record_terminal_circuit. intros H. case_res H. eauto. Qed.

(** The tables other than the circuits are untouched by a circuit update. *)
Lemma upsert_circuit_frame k c d d' :
  upsert_circuit k c d = Ok d' ->
  packets d' = packets d /\ effects d' = effects d /\ budget_events d' = budget_events d /\
  receipts d' = receipts d /\ broker_binding d' = broker_binding d.
Proof. by intros (row & -> & _)%upsert_circuit_inv. Qed.

Lemma record_terminal_circuit_frame e state limits now d d' :
  record_terminal_circuit e state limits now d = Ok d' ->
  packets d' = packets d /\ effects d' = effects d /\ budget_events d' = budget_events d /\
  receipts d' = receipts d /\ broker_binding d' = broker_binding d.
Proof. intros (c & _ & H)%record_terminal_circuit_inv. by eapply upsert_circuit_frame. Qed.

(** Case analysis on a step, with the shape of the new tables. *)
Ltac step_cases H :=
  destruct H as
    [ b Hbind Hzero
    | packet identity limits detail HP Hwf Hid row event Hins Hclosed Hused Hfresh
    | identity thread k selected sj Hsem e Hins Hclosed
    | k e pid He Hfk
    | k e pid att pre limits limit detail identity HP He Hst Hact Hatt Hsel Hbel Hcons
        Hclosed Hlim on_day Hday Hkind event Hfresh Hchk Hfk
    | k e pid att json He Hst Hact Hpid Hatt Hchk Hfk
    | pid k state json Hst r Hfr Hal
    | pid k e json identity d' He Hst Hact Hbel r Hfr Hchk Hfk Hrec
    | pid k e att state json limits identity d' HP He Hst Hact Hpid Hterm Hbel r Hins Hdec
        Hchk Hfk Hrec
    | slug action row d' Hal Hslug Haction Hup ];
  try (destruct (record_terminal_circuit_frame _ _ _ _ _ _ Hrec) as
         (Hpk & Hef & Hev & Hre & Hbi));
  try (destruct (upsert_circuit_frame _ _ _ _ Hup) as (Hpk & Hef & Hev & Hre & Hbi)).

Section Shapes.
Context (P : BudgetLimits -> Prop) (now : Z) (d d' : db) (Hstep : step P now d d').

Lemma step_packets :
  packets d' = packets d \/
  exists packet identity, wf (VDict packet) /\ packet_identity packet now = Ok identity /\
    insert_packet identity.(id_packet_id) (packet_row_of identity now) d =
      Ok (with_packets (packets d') d).
Proof. step_cases Hstep; simpl in *; auto. right. subst row. eauto 6. Qed.

Lemma step_events :
  budget_events d' = budget_events d \/
  exists b, budget_events d' = budget_events d ++ [b] /\
    (forall c, c ∈ budget_events d -> c.(b_event_key) <> b.(b_event_key)) /\
    ((exists identity detail, b = request_event identity now detail /\
       packets d !! identity.(id_packet_id) = None /\
       packets d' = <[identity.(id_packet_id) := packet_row_of identity now]> (packets d) /\
       effects d' = effects d) \/
     (exists k e pid att pre detail, b = mutation_event e pid att now detail /\
       effects d !! k = Some e /\
       effects d' = <[k := charge_effect att pid pre now e]> (effects d) /\
       packets d' = packets d)).
Proof.
  step_cases Hstep; simpl in *; auto; right.
  - eexists. repeat split; [done |]. left. apply insert_packet_inv in Hins as (_ & Hn & _ & _).
    eauto 8.
  - eexists. repeat split; [done |]. right. do 6 eexists. repeat split; eauto.
Qed.

Lemma step_receipts :
  receipts d' = receipts d \/
  exists r, receipts d' = receipts d ++ [r] /\
    insert_receipt r d = Ok (with_receipts (receipts d ++ [r]) d) /\
    r.(r_receipt_digest) = sha256_text r.(r_receipt_json) /\
    (exists v, decode_canonical_json r.(r_receipt_json) "broker receipt" = Ok v).
Proof.
  step_cases Hstep; simpl in *; auto; right; rewrite ?Hre; eexists; repeat split;
    try (destruct Hfr as (? & ? & ? & ?)); done.
Qed.
End Shapes.

(** ** Tables only grow *)

Lemma step_packets_mono P now d d' k p :
  step P now d d' -> packets d !! k = Some p -> packets d' !! k = Some p.
Proof.
  intros [->|(packet & id & _ & _ & Hi)]%step_packets Hk; [done |].
  apply insert_packet_inv in Hi as (_ & Hn & _ & E). injection E as ->.
  rewrite lookup_insert_ne; [done | naive_solver].
Qed.

(** ** The life of an effect row *)

Inductive change (now : Z) (e : effect_row) : effect_row -> Prop :=
| change_touch packet_id : change now e (touch_effect packet_id now e)
| change_charge attempt_key packet_id precondition :
    is_terminal e.(e_state) = false -> e.(e_active_attempt_key) = None ->
    e.(e_mutation_attempts) < 2 ->
    change now e (charge_effect attempt_key packet_id precondition now e)
| change_clear attempt_key json :
    e.(e_state) = Pending -> e.(e_active_attempt_key) = Some attempt_key ->
    e.(e_mutation_attempts) < 2 ->
    change now e (clear_attempt json now e)
| change_reconcile :
    e.(e_state) = Pending -> e.(e_active_attempt_key) = None ->
    change now e (reconcile_effect now e)
| change_terminate attempt_key state :
    is_terminal e.(e_state) = false -> e.(e_active_attempt_key) = Some attempt_key ->
    is_terminal state = true ->
    change now e (terminate_effect state now e).

Lemma effect_check_touch packet_id now e :
  effect_check (touch_effect packet_id now e) = effect_check e.
Proof. done. Qed.

Lemma step_effects P now d d' :
  step P now d d' ->
  effects d' = effects d \/
  (exists identity thread k selected sj,
     semantic_identity identity thread = Ok (k, selected, sj) /\
     insert_effect (new_effect_row identity k sj selected now) d =
       Ok (with_effects (effects d') d) /\ effects d !! k = None /\
     effects d' = <[k := new_effect_row identity k sj selected now]> (effects d)) \/
  (exists k e e', effects d !! k = Some e /\ effects d' = <[k := e']> (effects d) /\
     change now e e' /\ (effect_check e = true -> effect_check e' = true) /\
     effect_fk d e' = true).
Proof.
  intros H. step_cases H; simpl in *; auto; right.
  - left. pose proof (insert_effect_inv _ _ _ Hins) as (_ & Hn & _ & _). eauto 10.
  - right. do 3 eexists. repeat split; [done.. | constructor | done | done].
  - right. do 3 eexists. repeat split; [done.. | by constructor | done | done].
  - right. do 3 eexists. repeat split; [done.. | by econstructor | done | done].
  - right. do 3 eexists. repeat split; [done.. | by constructor | done | done].
  - right. do 3 eexists. repeat split; [done.. | by econstructor | done | done].
Qed.

Lemma step_effects_mono P now d d' k e :
  step P now d d' -> effects d !! k = Some e ->
  exists e', effects d' !! k = Some e' /\ (e' = e \/ change now e e').
Proof.
  intros [->|[(? & ? & k' & ? & ? & _ & _ & Hn & ->)|(k' & e1 & e2 & H1 & -> & Hc & _)]]%step_effects He;
    [eauto | |].
  - rewrite lookup_insert_ne by naive_solver. eauto.
  - destruct (decide (k' = k)) as [->|Hk].
    + simplify_eq. rewrite lookup_insert_eq. eauto.
    + rewrite lookup_insert_ne by done. eauto.
Qed.

(** A row that satisfies the schema and the store's discipline. *)
Record row_ok (k : pystr) (e : effect_row) : Prop := {
  row_key : e.(e_effect_key) = k;
  row_check : effect_check e = true;
  row_semantic : k = effect_key_of e.(e_semantic_json);
  row_attempts : 0 <= e.(e_mutation_attempts) <= 2;
  row_terminal : e.(e_state) <> Pending -> e.(e_active_attempt_key) = None;
  row_active : e.(e_active_attempt_key) <> None -> 1 <= e.(e_mutation_attempts) }.

Lemma effect_check_states e : effect_check e = true -> e.(e_state) ∈ EFFECT_STATES.
Proof. unfold effect_check. intros H. by split_bools. Qed.

Lemma effect_check_state e :
  effect_check e = true -> is_terminal e.(e_state) = false -> e.(e_state) = Pending.
Proof.
  unfold effect_check, EFFECT_STATES, is_terminal. intros H Ht. split_bools.
  set_solver.
Qed.

Lemma pending_not_terminal s : s = Pending -> is_terminal s = false.
Proof. by intros ->. Qed.

Lemma row_ok_change now k e e' :
  row_ok k e -> change now e e' -> (effect_check e = true -> effect_check e' = true) ->
  row_ok k e'.
Proof.
  intros [Hk Hc Hs Ha Ht Hact] Hch Hcheck. specialize (Hcheck Hc).
  destruct Hch; constructor; simpl; auto; try lia; try done.
  - intros Hp. by rewrite (effect_check_state e) in Hp.
Qed.

Lemma semantic_identity_inv identity thread k selected sj :
  semantic_identity identity thread = Ok (k, selected, sj) ->
  exists semantic, semantic_content identity thread = Ok (selected, semantic) /\
    canonical_json semantic = Ok sj /\ k = effect_key_of sj.
Proof.
  unfold semantic_identity. intros H. case_res H. case_res H. subst. case_res H. simplify_eq. eauto.
Qed.

Lemma row_ok_new identity thread k selected sj now d d' :
  semantic_identity identity thread = Ok (k, selected, sj) ->
  insert_effect (new_effect_row identity k sj selected now) d = Ok d' ->
  row_ok k (new_effect_row identity k sj selected now).
Proof.
  intros (? & _ & _ & ->)%semantic_identity_inv (Hc & _)%insert_effect_inv.
  constructor; simpl; done.
Qed.

(** ** The invariant *)

(** The charges recorded against an effect. *)
Definition charge_of (k : pystr) (b : budget_event) : bool :=
  bool_decide (b.(b_kind) = MutationEvent) && bool_decide (b.(b_effect_key) = Some k).

Definition request_of (packet_id : pystr) (b : budget_event) : bool :=
  bool_decide (b.(b_kind) = RequestEvent) && bool_decide (b.(b_packet_id) = packet_id).

(** The row of a packet that [packet_identity] accepted. *)
Definition accepted_row (k : pystr) (p : packet_row) : Prop :=
  exists packet now identity, wf (VDict packet) /\ packet_identity packet now = Ok identity /\
    k = identity.(id_packet_id) /\ p = packet_row_of identity now.

Record receipt_ok (d : db) (r : receipt_row) : Prop := {
  receipt_packet : packet_ref d r.(r_packet_id) = true;
  receipt_effect_ref : null_or (effect_ref d) r.(r_effect_key) = true;
  receipt_digest_ok : r.(r_receipt_digest) = sha256_text r.(r_receipt_json);
  receipt_decodes : exists v, decode_canonical_json r.(r_receipt_json) "broker receipt" = Ok v }.

Record Inv (d : db) : Prop := {
  inv_packets : forall k p, packets d !! k = Some p -> accepted_row k p;
  inv_effects : forall k e, effects d !! k = Some e -> row_ok k e /\ effect_fk d e = true;
  inv_charges : forall k, count (charge_of k) (budget_events d) =
    match effects d !! k with Some e => e.(e_mutation_attempts) | None => 0 end;
  inv_event_keys : NoDup (map b_event_key (budget_events d));
  inv_requests : forall k, count (request_of k) (budget_events d) =
    if decide (is_Some (packets d !! k)) then 1 else 0;
  inv_receipt_digests : NoDup (map r_receipt_digest (receipts d));
  inv_receipt_packets : NoDup (map r_packet_id (receipts d));
  inv_receipts : Forall (receipt_ok d) (receipts d);
  inv_terminal : forall k e, effects d !! k = Some e -> e.(e_state) <> Pending ->
    exists r, r ∈ receipts d /\ effect_receipt k r = true /\ r.(r_terminal_state) = e.(e_state);
  inv_pending : forall k e, effects d !! k = Some e -> e.(e_state) = Pending ->
    forall r, r ∈ receipts d -> effect_receipt k r = false;
  inv_circuits : forall k c, circuits d !! k = Some c ->
    k = circuit_key c.(c_instance_slug) c.(c_action) /\ circuit_check c = true }.

Lemma Inv_empty : Inv empty_db.
Proof.
  constructor; simpl; try done; try constructor; intros *; try by rewrite lookup_empty.
Qed.

(** ** Every step keeps it *)

Lemma count_app {A} (f : A -> bool) l1 l2 : count f (l1 ++ l2) = count f l1 + count f l2.
Proof. unfold count, zlen. rewrite List.filter_app, length_app. lia. Qed.

Lemma count_one {A} (f : A -> bool) x : count f [x] = if f x then 1 else 0.
Proof. unfold count. simpl. by destruct (f x). Qed.

Lemma count_nonneg {A} (f : A -> bool) l : 0 <= count f l.
Proof. unfold count, zlen. lia. Qed.

Lemma count_zero {A} (f : A -> bool) l : (forall x, x ∈ l -> f x = false) -> count f l = 0.
Proof.
  unfold count, zlen. induction l as [|x l IH]; intros H; [done |]. simpl.
  rewrite (H x) by left. apply IH. intros y Hy. apply H. by right.
Qed.

Lemma packet_ref_mono P now d d' k :
  step P now d d' -> packet_ref d k = true -> packet_ref d' k = true.
Proof.
  intros Hs. unfold packet_ref. rewrite !is_some_true. intros [p Hp].
  exists p. by eapply step_packets_mono.
Qed.

Lemma effect_ref_mono P now d d' k :
  step P now d d' -> effect_ref d k = true -> effect_ref d' k = true.
Proof.
  intros Hs. unfold effect_ref. rewrite !is_some_true. intros [e He].
  destruct (step_effects_mono P now d d' k e Hs He) as (e' & ? & _). eauto.
Qed.

Lemma null_or_mono {A} (f g : A -> bool) o :
  (forall a, f a = true -> g a = true) -> null_or f o = true -> null_or g o = true.
Proof. destruct o; simpl; auto. Qed.

Lemma effect_fk_mono P now d d' e :
  step P now d d' -> effect_fk d e = true -> effect_fk d' e = true.
Proof.
  intros Hs. unfold effect_fk. rewrite !andb_true_iff. intros [[H1 H2] H3].
  pose proof (fun k => packet_ref_mono P now d d' k Hs). repeat split; eauto.
  by eapply null_or_mono.
Qed.

(** The charge counter of every effect is the count of its events. *)
Definition attempts (m : gmap pystr effect_row) (k : pystr) : Z :=
  match m !! k with Some e => e.(e_mutation_attempts) | None => 0 end.

Lemma attempts_update m k0 e e' k :
  m !! k0 = Some e -> e'.(e_mutation_attempts) = e.(e_mutation_attempts) ->
  attempts (<[k0 := e']> m) k = attempts m k.
Proof.
  intros H0 Ha. unfold attempts. destruct (decide (k = k0)) as [->|Hk].
  - by rewrite lookup_insert_eq, H0.
  - by rewrite lookup_insert_ne.
Qed.

Lemma charge_of_request now key identity detail :
  charge_of key (request_event identity now detail) = false.
Proof. done. Qed.

(** A receipt row of an effect names that effect. *)
Lemma effect_receipt_of k (r : receipt_row) :
  effect_receipt k r = true <-> r.(r_effect_key) = Some k /\ is_terminal r.(r_terminal_state) = true.
Proof. unfold effect_receipt. by rewrite andb_true_iff, bool_decide_eq_true. Qed.

(** No receipt names an effect that does not exist. *)
Lemma no_orphan_receipt d k r :
  Inv d -> effects d !! k = None -> r ∈ receipts d -> effect_receipt k r = false.
Proof.
  intros Hinv Hn Hr. apply not_true_is_false. intros [He _]%effect_receipt_of.
  pose proof (inv_receipts d Hinv) as HF. rewrite Forall_forall in HF.
  destruct (HF r Hr) as [_ Href _ _]. rewrite He in Href. simpl in Href.
  unfold effect_ref in Href. by rewrite Hn in Href.
Qed.

Definition settled (m : gmap pystr effect_row) (l : list receipt_row) : Prop :=
  forall k e, m !! k = Some e ->
    (e.(e_state) <> Pending -> exists r, r ∈ l /\ effect_receipt k r = true /\
       r.(r_terminal_state) = e.(e_state)) /\
    (e.(e_state) = Pending -> forall r, r ∈ l -> effect_receipt k r = false).

(** A row replaced by one of the same state. *)
Lemma settled_update m l k e e' :
  settled m l -> m !! k = Some e -> e'.(e_state) = e.(e_state) -> settled (<[k := e']> m) l.
Proof.
  intros H He Hst k0 e0 [[<- <-]|[_ H0]]%lookup_insert_Some; [|by apply H].
  rewrite Hst. by apply H.
Qed.

(** A receipt for an effect together with its new state. *)
Lemma settled_terminal m l k e e' r :
  settled m l -> m !! k = Some e -> r.(r_effect_key) = Some k ->
  e'.(e_state) = r.(r_terminal_state) -> is_terminal r.(r_terminal_state) = true ->
  settled (<[k := e']> m) (l ++ [r]).
Proof.
  intros H He Hk Hst Ht k0 e0 [[<- <-]|[Hne H0]]%lookup_insert_Some.
  - rewrite Hst. split; [|intros E; by rewrite E in Ht].
    intros _. exists r. rewrite effect_receipt_of. set_solver.
  - destruct (H k0 e0 H0) as [H1 H2]. split.
    + intros Hp. destruct (H1 Hp) as (r0 & ? & ? & ?). exists r0. set_solver.
    + intros Hp r0 [Hr| ->%list_elem_of_singleton]%elem_of_app; [by apply H2 |].
      apply not_true_is_false. rewrite effect_receipt_of. naive_solver.
Qed.

Lemma settled_receipt m l r :
  settled m l ->
  (forall k e, r.(r_effect_key) = Some k -> is_terminal r.(r_terminal_state) = true ->
    m !! k = Some e -> e.(e_state) <> Pending) ->
  settled m (l ++ [r]).
Proof.
  intros H Hr k e He. destruct (H k e He) as [H1 H2]. split.
  - intros Hp. destruct (H1 Hp) as (r0 & ? & ? & ?). exists r0. set_solver.
  - intros Hp r0 [Hr0| ->%list_elem_of_singleton]%elem_of_app; [by apply H2 |].
    apply not_true_is_false. rewrite effect_receipt_of. naive_solver.
Qed.

Section InvStep.
Context (P : BudgetLimits -> Prop) (now : Z) (d d' : db).
Context (Hinv : Inv d) (Hs : step P now d d').

Lemma keep_packets k p : packets d' !! k = Some p -> accepted_row k p.
Proof.
  destruct (step_packets P now d d' Hs) as [->|(packet & id & Hw & Hid & Hi)];
    [apply Hinv |].
  apply insert_packet_inv in Hi as (_ & _ & _ & E). injection E as ->.
  intros [[<- <-]|[_ Hk]]%lookup_insert_Some; [|by apply Hinv].
  exists packet, now, id. done.
Qed.

Lemma keep_effects k e : effects d' !! k = Some e -> row_ok k e /\ effect_fk d' e = true.
Proof.
  destruct (step_effects P now d d' Hs) as
    [->|[(id & t & k0 & sel & sj & Hsem & Hi & Hn & ->)|(k0 & e0 & e1 & H0 & -> & Hc & Hck & Hf)]].
  - intros [? ?]%(inv_effects d Hinv). split; [done | by eapply effect_fk_mono].
  - intros [[<- <-]|[_ Hk]]%lookup_insert_Some.
    + split; [by eapply row_ok_new |]. eapply effect_fk_mono; [done |].
      by apply insert_effect_inv in Hi as (_ & _ & ? & _).
    + apply (inv_effects d Hinv) in Hk as [? ?]. split; [done | by eapply effect_fk_mono].
  - intros [[<- <-]|[_ Hk]]%lookup_insert_Some.
    + split; [|by eapply effect_fk_mono]. eapply row_ok_change; try done.
      by apply (inv_effects d Hinv) in H0 as [? _].
    + apply (inv_effects d Hinv) in Hk as [? ?]. split; [done | by eapply effect_fk_mono].
Qed.

Lemma keep_event_keys : NoDup (map b_event_key (budget_events d')).
Proof.
  destruct (step_events P now d d' Hs) as [->|(b & -> & Hf & _)]; [apply Hinv |].
  rewrite map_app. apply NoDup_app. split; [apply Hinv |]. split; [|apply NoDup_singleton].
  intros k (c & -> & Hc)%list_elem_of_fmap E%list_elem_of_singleton. by apply (Hf c).
Qed.

Lemma keep_receipt_keys :
  NoDup (map r_receipt_digest (receipts d')) /\ NoDup (map r_packet_id (receipts d')).
Proof.
  destruct (step_receipts P now d d' Hs) as [->|(r & -> & Hi & _)]; [split; apply Hinv |].
  apply insert_receipt_inv in Hi as (H1 & H2 & _).
  split; rewrite map_app; apply NoDup_app; (split; [apply Hinv |]);
    (split; [|apply NoDup_singleton]);
    intros k (c & -> & Hc)%list_elem_of_fmap E%list_elem_of_singleton; naive_solver.
Qed.

Lemma keep_receipts : Forall (receipt_ok d') (receipts d').
Proof.
  assert (Hm : forall r, receipt_ok d r -> receipt_ok d' r).
  { intros r [H1 H2 H3 H4]. constructor; try done; [by eapply packet_ref_mono |].
    eapply null_or_mono; [|exact H2]. intros a. by eapply effect_ref_mono. }
  pose proof (inv_receipts d Hinv) as HF.
  destruct (step_receipts P now d d' Hs) as [->|(r & -> & Hi & Hd & Hv)].
  - eapply Forall_impl; [exact HF | done].
  - apply insert_receipt_inv in Hi as (_ & _ & Hp & Hk & _).
    apply Forall_app. split; [eapply Forall_impl; [exact HF | done] |].
    apply Forall_singleton, Hm. by constructor.
Qed.

Lemma keep_circuits key c : circuits d' !! key = Some c ->
  key = circuit_key c.(c_instance_slug) c.(c_action) /\ circuit_check c = true.
Proof.
  pose proof (inv_circuits d Hinv) as Hc.
  assert (Hkeep : forall k0 c0 d0, circuits d0 = circuits d -> upsert_circuit k0 c0 d0 = Ok d' ->
    k0 = circuit_key c0.(c_instance_slug) c0.(c_action) -> circuits d' !! key = Some c ->
    key = circuit_key c.(c_instance_slug) c.(c_action) /\ circuit_check c = true).
  { intros k0 c0 d0 E (row & -> & Hk & _ & _ & _ & _ & Hnew & Hold)%upsert_circuit_inv Hk0.
    simpl. rewrite E in *. intros [[<- <-]|[_ ?]]%lookup_insert_Some; [|by apply Hc].
    split; [|done]. destruct (circuits d !! k0) as [old|] eqn:Ho.
    - destruct (Hold _ eq_refl) as [-> ->]. by apply Hc in Ho as [-> _].
    - by rewrite (Hnew eq_refl). }
  step_cases Hs; simpl; try apply Hc.
  - apply record_terminal_circuit_inv in Hrec as (c0 & Hrow & Hu). eapply Hkeep; [|exact Hu|]; [done |].
    unfold terminal_circuit_row in Hrow. by inv_ok Hrow.
  - apply record_terminal_circuit_inv in Hrec as (c0 & Hrow & Hu). eapply Hkeep; [|exact Hu|]; [done |].
    unfold terminal_circuit_row in Hrow. by inv_ok Hrow.
  - eapply Hkeep; [|exact Hup|]; [done |]. by rewrite Hslug, Haction.
Qed.

Lemma keep_charges key : count (charge_of key) (budget_events d') = attempts (effects d') key.
Proof.
  pose proof (inv_charges d Hinv key) as Hc. fold (attempts (effects d) key) in Hc.
  step_cases Hs; rewrite ?Hev, ?Hef; simpl; try done; try (by rewrite attempts_update with (e := e)).
  - rewrite count_app, Hc, count_one. unfold event. rewrite charge_of_request. lia.
  - rewrite Hc. unfold attempts.
    pose proof (insert_effect_inv _ _ _ Hins) as (_ & Hn & _). simpl in Hn.
    destruct (decide (key = k)) as [->|Hk]; [by rewrite lookup_insert_eq, Hn |].
    by rewrite lookup_insert_ne.
  - rewrite count_app, Hc, count_one. unfold attempts.
    destruct (inv_effects d Hinv k e He) as [[Hkey _ _ _ _ _] _].
    unfold event, charge_of. simpl. rewrite Hkey.
    destruct (decide (key = k)) as [->|Hk].
    + rewrite lookup_insert_eq, He, bool_decide_true by done. simpl. lia.
    + rewrite lookup_insert_ne, bool_decide_false by naive_solver. lia.
Qed.

Lemma keep_requests key :
  count (request_of key) (budget_events d') = if decide (is_Some (packets d' !! key)) then 1 else 0.
Proof.
  pose proof (inv_requests d Hinv key) as Hc.
  step_cases Hs; rewrite ?Hev, ?Hpk; simpl; try done.
  - rewrite count_app, Hc, count_one. unfold event, request_of. simpl.
    pose proof (insert_packet_inv _ _ _ _ Hins) as (_ & Hn & _).
    destruct (decide (id_packet_id identity = key)) as [<-|Hk].
    + rewrite lookup_insert_eq, Hn, bool_decide_true by done.
      repeat case_decide; try done; naive_solver.
    + rewrite lookup_insert_ne, bool_decide_false by done. lia.
  - rewrite count_app, Hc, count_one. unfold event, request_of. simpl. lia.
Qed.

Lemma keep_settled : settled (effects d') (receipts d').
Proof.
  assert (H0 : settled (effects d) (receipts d)).
  { intros k e He. split; intros; [by eapply inv_terminal | by eapply inv_pending]. }
  step_cases Hs; rewrite ?Hef, ?Hre; simpl; try done;
    try (by apply settled_update with (e := e));
    try (apply settled_terminal with (e := e); try done).
  - intros k0 e0 [[<- <-]|[_ Hk]]%lookup_insert_Some; [|by apply H0].
    split; [done |]. intros _ q Hq. apply (no_orphan_receipt d); [done | |done].
    by apply insert_effect_inv in Hins as (_ & ? & _).
  - apply settled_receipt; [done |]. intros k0 e0 Hk Ht He. subst r. simpl in *. subst k.
    destruct Hal as (e1 & id & He1 & _ & Hif). simplify_eq.
    case_decide; [by destruct Hif |]. set_solver.
Qed.

(** One step keeps the invariant. *)
Theorem Inv_step : Inv d'.
Proof.
  pose proof keep_settled as Hset. constructor.
  - apply keep_packets.
  - apply keep_effects.
  - apply keep_charges.
  - apply keep_event_keys.
  - apply keep_requests.
  - apply keep_receipt_keys.
  - apply keep_receipt_keys.
  - apply keep_receipts.
  - intros k e He. by apply Hset.
  - intros k e He. by apply Hset.
  - apply keep_circuits.
Qed.
End InvStep.

Lemma Inv_steps P now d d' : Inv d -> rtc (step P now) d d' -> Inv d'.
Proof. intros Hi Hs. revert Hi. induction Hs; eauto using Inv_step. Qed.

(** The tables an operation leaves satisfy the invariant. *)
Lemma Inv_run P o d : op_ok P o -> Inv d -> Inv (run o d).
Proof. intros Ho Hi. eapply Inv_steps; [done |]. by eapply two_steps_rtc, run_steps. Qed.

Lemma Inv_run_all P ops d : Forall (op_ok P) ops -> Inv d -> Inv (run_all ops d).
Proof.
  intros HF. revert d. induction HF as [|o ops Ho _ IH]; intros d Hi; [done |].
  apply IH. by eapply Inv_run.
Qed.
