(* ===== verification/StoreSafety.v ===== *)
(** * Safety of the store over every history of operations

    Properties of the tables after any sequence of operations from the empty
    database: the invariant, the bounds on charges and requests, terminal
    states, the append-only ledger, circuits, and the refinement of the effect
    life cycle. *)

From Stdlib Require Import Sorted.
From S2P Require Import Prelude Regex Sha256 PyTime Json JsonFacts Packet Demo Tables Store StoreSteps StoreInv.
Local Open Scope Z_scope.

Definition any_limits : BudgetLimits -> Prop := fun _ => True.

(** A history for the witnesses: two packets for one effect and one for
    another, a charge, its absence, the retry, an indeterminate outcome, a
    rejection and a request that the open circuit refuses. *)
Definition history : list op :=
  [Reserve packet1 policy None (T0 + 10);
   Begin key1 pid1 attempt1 policy precondition (T0 + 20);
   Absent key1 pid1 attempt1 receipt2 (T0 + 30);
   Begin key1 pid1 attempt2 policy precondition (T0 + 40);
   Terminal key1 pid1 attempt2 Indeterminate receipt1 policy (T0 + 50);
   Reserve packet2 policy None (T0 + 60);
   Reserve packet3 policy None (T0 + 70);
   PacketReceipt pid3 Rejected receipt2 (Some key3) (T0 + 80)].

Lemma history_ok (P : BudgetLimits -> Prop) : P policy -> Forall (op_ok P) history.
Proof.
  intros HP. unfold history. repeat (apply Forall_cons; split); try apply Forall_nil;
    simpl; auto using packet1_wf, packet2_wf, packet3_wf.
Qed.

(** The database after the history. *)
Definition final : db := run_all history empty_db.

(** ** Charges *)

Lemma charges_bounded d k : Inv d -> count (charge_of k) (budget_events d) <= 2.
Proof.
  intros Hi. rewrite (inv_charges d Hi). destruct (effects d !! k) as [e|] eqn:E; [|lia].
  apply (inv_effects d Hi) in E as [[_ _ _ [_ H2] _ _] _]. lia.
Qed.

(** ** Terminal effects *)

Lemma change_terminal now e e' :
  effect_check e = true -> e.(e_state) <> Pending -> change now e e' ->
  exists packet_id, e' = touch_effect packet_id now e.
Proof.
  intros Hc Hst Hch. destruct Hch; try contradiction; eauto.
  - by apply effect_check_state in H; [contradiction |].
  - by apply effect_check_state in H; [contradiction |].
Qed.

(** What a terminal effect keeps. *)
Definition same_outcome (e e' : effect_row) : Prop :=
  e'.(e_state) = e.(e_state) /\ e'.(e_mutation_attempts) = e.(e_mutation_attempts) /\
  e'.(e_terminal_at) = e.(e_terminal_at) /\ e'.(e_action) = e.(e_action).

Lemma terminal_steps P now d d' k e :
  Inv d -> rtc (step P now) d d' -> effects d !! k = Some e -> e.(e_state) <> Pending ->
  exists e', effects d' !! k = Some e' /\ same_outcome e e'.
Proof.
  intros Hi Hs. revert e. induction Hs as [d|d d1 d' Hs _ IH]; intros e He Hst.
  { exists e. by repeat split. }
  destruct (step_effects_mono _ _ _ _ _ _ Hs He) as (e1 & He1 & Hch).
  assert (H1 : same_outcome e e1).
  { destruct Hch as [->|Hch]; [by repeat split |].
    pose proof (inv_effects d Hi k e He) as [[_ Hc _ _ _ _] _].
    destruct (change_terminal now e e1 Hc Hst Hch) as [pid ->]. by repeat split. }
  destruct H1 as (E1 & E2 & E3 & E4).
  destruct (IH ltac:(by eapply Inv_step) e1 He1 ltac:(congruence)) as (e' & He' & E1' & E2' & E3' & E4').
  exists e'. split; [done |]. repeat split; congruence.
Qed.

Lemma terminal_effect_all ops d k e :
  Inv d -> Forall (op_ok any_limits) ops -> effects d !! k = Some e -> e.(e_state) <> Pending ->
  exists e', effects (run_all ops d) !! k = Some e' /\ same_outcome e e'.
Proof.
  intros Hi HF. revert d e Hi. induction HF as [|o ops Ho _ IH]; intros d e Hi He Hst.
  { exists e. by repeat split. }
  assert (Hs : rtc (step any_limits (op_now o)) d (run o d)) by (by apply two_steps_rtc, run_steps).
  destruct (terminal_steps _ _ _ _ _ _ Hi Hs He Hst) as (e1 & He1 & E1 & E2 & E3 & E4).
  destruct (IH (run o d) e1 ltac:(by eapply Inv_steps) He1 ltac:(congruence))
    as (e' & He' & E1' & E2' & E3' & E4').
  exists e'. split; [done |]. repeat split; congruence.
Qed.

(** ** The ledger only grows *)

Lemma ledger_steps P now d d' :
  rtc (step P now) d d' ->
  receipts d `prefix_of` receipts d' /\ budget_events d `prefix_of` budget_events d' /\
  packets d ⊆ packets d'.
Proof.
  induction 1 as [d|d d1 d' Hs _ (IH1 & IH2 & IH3)]; [done |].
  assert (H : receipts d `prefix_of` receipts d1 /\ budget_events d `prefix_of` budget_events d1 /\
    packets d ⊆ packets d1).
  { split; [|split].
    - destruct (step_receipts P now d d1 Hs) as [->|(r & -> & _)]; [done | by eexists].
    - destruct (step_events P now d d1 Hs) as [->|(b & -> & _)]; [done | by eexists].
    - apply map_subseteq_spec. intros k p. by apply step_packets_mono with (P := P) (now := now). }
  destruct H as (H1 & H2 & H3). repeat split; by etrans.
Qed.

Lemma ledger_run_all ops d :
  Forall (op_ok any_limits) ops ->
  receipts d `prefix_of` receipts (run_all ops d) /\
  budget_events d `prefix_of` budget_events (run_all ops d) /\
  packets d ⊆ packets (run_all ops d).
Proof.
  intros HF. revert d. induction HF as [|o ops Ho _ IH]; intros d; [done |].
  destruct (ledger_steps any_limits (op_now o) d (run o d)) as (H1 & H2 & H3).
  { by apply two_steps_rtc, run_steps. }
  destruct (IH (run o d)) as (H1' & H2' & H3'). repeat split; by etrans.
Qed.

Lemma select_receipt_prefix packet_id d d' r :
  receipts d `prefix_of` receipts d' -> select_receipt packet_id d = Some r ->
  select_receipt packet_id d' = Some r.
Proof.
  intros [l E] H. unfold select_receipt in *. rewrite E. clear E. revert H.
  induction (receipts d) as [|q rs IH]; simpl; [done |]. by case_bool_decide.
Qed.

(** ** Daily budgets *)

Definition within_limits (limits : BudgetLimits) (d : db) : Prop :=
  forall slug day,
    count (mutation_event_on slug day) (budget_events d) <= limits.(daily_mutations) /\
    forall action limit, action_daily_limit limits action = Ok limit ->
      count (fun b => mutation_event_on slug day b && bool_decide (b.(b_action) = action))
        (budget_events d) <= limit.

Lemma count_snoc {A} (f : A -> bool) l x :
  count f (l ++ [x]) = count f l + (if f x then 1 else 0).
Proof. by rewrite count_app, count_one. Qed.

Lemma mutation_event_on_charge slug day e pid att now detail :
  mutation_event_on slug day (mutation_event e pid att now detail) = true <->
  slug = e.(e_instance_slug) /\ day = utc_day now.
Proof.
  unfold mutation_event_on. simpl. rewrite !andb_true_iff, !bool_decide_eq_true. naive_solver.
Qed.

Lemma within_limits_step L now d d' :
  step (eq L) now d d' -> within_limits L d -> within_limits L d'.
Proof.
  intros Hs Hw. intros sl dy. destruct (Hw sl dy) as [H1 H2]. clear Hw.
  step_cases Hs; rewrite ?Hev; simpl; try (by split).
  - assert (E : mutation_event_on sl dy event = false).
    { unfold mutation_event_on. simpl. by rewrite andb_false_r. }
    setoid_rewrite count_snoc. rewrite E. split; [lia |].
    intros a l Hl. specialize (H2 a l Hl). simpl. lia.
  - subst limits. rewrite count_snoc. split.
    + destruct (mutation_event_on sl dy event) eqn:E; [|lia].
      apply mutation_event_on_charge in E as [-> ->]. fold on_day. lia.
    + intros a l Hl. rewrite count_snoc. specialize (H2 a l Hl).
      destruct (mutation_event_on sl dy event) eqn:E; [|simpl; lia].
      apply mutation_event_on_charge in E as [-> ->]. simpl.
      case_bool_decide as Ha; [|lia]. rewrite <- Ha in *.
      assert (l = limit) as -> by congruence. unfold on_day in Hkind. simpl in *. lia.
Qed.

Lemma run_all_ind (I : db -> Prop) P ops d :
  (forall now d d', step P now d d' -> I d -> I d') ->
  Forall (op_ok P) ops -> I d -> I (run_all ops d).
Proof.
  intros Hstep HF. revert d. induction HF as [|o ops Ho _ IH]; intros d Hi; [done |].
  apply IH. assert (Hs : rtc (step P (op_now o)) d (run o d)) by (by apply two_steps_rtc, run_steps).
  clear -Hs Hi Hstep. induction Hs; eauto.
Qed.

(** ** The request window *)

(** Requests of an instance in the [REQUEST_WINDOW_SECONDS] that end at [t]. *)
Definition in_window (slug : pystr) (t : Z) (b : budget_event) : bool :=
  request_event_after slug (t - REQUEST_WINDOW_SECONDS) b && (b.(b_occurred_at) <=? t).

Definition window_ok (limits : BudgetLimits) (clock : Z) (d : db) : Prop :=
  Forall (fun b => b.(b_occurred_at) <= clock) (budget_events d) /\
  forall slug t, count (in_window slug t) (budget_events d) <= limits.(requests_per_hour).

Lemma count_le {A} (f g : A -> bool) l :
  (forall x, x ∈ l -> f x = true -> g x = true) -> count f l <= count g l.
Proof.
  unfold count, zlen. induction l as [|x l IH]; intros H; simpl; [lia |].
  assert (IH' : Z.of_nat (length (List.filter f l)) <= Z.of_nat (length (List.filter g l)))
    by (apply IH; intros y Hy; apply H; by right).
  pose proof (H x ltac:(by left)) as Hx. destruct (f x); [rewrite Hx by done; simpl; lia |].
  destruct (g x); simpl; lia.
Qed.

(** A recorded request was within the limit of its window. *)
Lemma request_step L now d d' ev :
  step (eq L) now d d' -> budget_events d' = budget_events d ++ [ev] ->
  ev.(b_kind) = RequestEvent ->
  ev.(b_occurred_at) = now /\
  count (request_event_after ev.(b_instance_slug) (now - REQUEST_WINDOW_SECONDS))
    (budget_events d) < L.(requests_per_hour).
Proof.
  intros Hs E Hreq. step_cases Hs; simpl in *; rewrite ?Hev in E; simpl in E;
    try (apply (f_equal length) in E; rewrite length_app in E; simpl in E; lia);
    apply app_inv_head in E; injection E as <-; [by subst | done].
Qed.

Lemma window_step L clock now d d' :
  clock <= now -> step (eq L) now d d' -> window_ok L clock d -> window_ok L now d'.
Proof.
  intros Hle Hs [HF Hw].
  assert (HF' : Forall (fun b => b.(b_occurred_at) <= now) (budget_events d))
    by (eapply Forall_impl; [exact HF |]; simpl; lia).
  destruct (step_events _ _ _ _ Hs) as [E|(b & E & _ & Hb)]; [by split; rewrite E |].
  assert (Hnow : b.(b_occurred_at) = now)
    by (destruct Hb as [(? & ? & -> & _)|(? & ? & ? & ? & ? & ? & -> & _)]; done).
  split; rewrite E.
  { apply Forall_app. split; [done |]. apply Forall_singleton. lia. }
  intros slug t. rewrite count_snoc.
  destruct (in_window slug t b) eqn:Hin; [|specialize (Hw slug t); lia].
  unfold in_window, request_event_after in Hin. split_bools. subst slug.
  repeat match goal with H : (_ <? _) = true |- _ => apply Z.ltb_lt in H
    | H : (_ <=? _) = true |- _ => apply Z.leb_le in H end.
  destruct (request_step L now d d' b Hs E ltac:(done)) as [_ Hc].
  match goal with |- count ?f _ + 1 <= _ => assert (count f (budget_events d) <=
    count (request_event_after b.(b_instance_slug) (now - REQUEST_WINDOW_SECONDS))
      (budget_events d)); [|lia] end.
  apply count_le. intros c Hc' Hcin. rewrite Forall_forall in HF'. specialize (HF' c Hc').
  unfold in_window, request_event_after in *. rewrite !andb_true_iff in *.
  destruct Hcin as (((? & ?) & Hlt) & _). apply Z.ltb_lt in Hlt. repeat split; try done.
  apply Z.ltb_lt. unfold REQUEST_WINDOW_SECONDS in *. lia.
Qed.

(** ** Circuits *)

(** A recorded event belongs to an instance and an action whose circuit was
    closed. *)
Lemma event_step P now d d' ev :
  step P now d d' -> budget_events d' = budget_events d ++ [ev] ->
  assert_circuit_closed ev.(b_instance_slug) ev.(b_action) d = Ok tt.
Proof.
  intros Hs E. step_cases Hs; simpl in *; rewrite ?Hev in E; simpl in E;
    try (apply (f_equal length) in E; rewrite length_app in E; simpl in E; lia);
    apply app_inv_head in E; by injection E as <-.
Qed.

Lemma select_circuit_congr slug action d d' :
  circuits d' = circuits d -> select_circuit slug action d' = select_circuit slug action d.
Proof. unfold select_circuit. by intros ->. Qed.

Lemma assert_circuit_open slug action d c :
  select_circuit slug action d = Some c -> c.(c_open) = true ->
  assert_circuit_closed slug action d =
    Raise (CircuitOpenError action c.(c_consecutive_indeterminate)).
Proof. unfold assert_circuit_closed. by intros -> ->. Qed.

Lemma steps_one_event P now d d' ev :
  two_steps P now d d' -> budget_events d' = budget_events d ++ [ev] ->
  assert_circuit_closed ev.(b_instance_slug) ev.(b_action) d = Ok tt.
Proof.
  intros (d1 & H1 & _ & _ & E & _) He. rewrite E in He. destruct H1 as [|d1 H1].
  - apply (f_equal length) in He. rewrite length_app in He. simpl in He. lia.
  - by eapply event_step.
Qed.

(** ** The life cycle of an effect, abstractly *)

Inductive phase :=
| Absent_ (* not reserved *)
| Open_ (attempts : Z) (* pending, no charged attempt *)
| Charged_ (attempts : Z) (* pending, one charged attempt *)
| Done_ (outcome : status) (attempts : Z).

Definition phase_of (d : db) (k : pystr) : phase :=
  match effects d !! k with
  | None => Absent_
  | Some e =>
      if bool_decide (e.(e_state) = Pending) then
        if is_some e.(e_active_attempt_key) then Charged_ e.(e_mutation_attempts)
        else Open_ e.(e_mutation_attempts)
      else Done_ e.(e_state) e.(e_mutation_attempts)
  end.

(** What the store promises of an effect: reserve, charge at most twice,
    recycle the first attempt only, end once. *)
Inductive phase_step : phase -> phase -> Prop :=
| phase_reserve : phase_step Absent_ (Open_ 0)
| phase_charge n : n < 2 -> phase_step (Open_ n) (Charged_ (n + 1))
| phase_recycle n : n < 2 -> phase_step (Charged_ n) (Open_ n)
| phase_satisfied n : phase_step (Open_ n) (Done_ Reconciled n)
| phase_outcome n s : is_terminal s = true -> phase_step (Charged_ n) (Done_ s n).

Lemma phase_insert d k e key :
  phase_of (with_effects (<[k := e]> (effects d)) d) key =
  if decide (key = k) then phase_of (with_effects {[ k := e ]} d) k else phase_of d key.
Proof.
  unfold phase_of. simpl. case_decide as E.
  - subst. by rewrite lookup_insert_eq, lookup_singleton_eq.
  - by rewrite lookup_insert_ne.
Qed.

Lemma phase_change now e e' d k :
  effect_check e = true -> change now e e' ->
  rc phase_step (phase_of (with_effects {[ k := e ]} d) k)
    (phase_of (with_effects {[ k := e' ]} d) k).
Proof.
  intros Hc Hch. unfold phase_of. simpl. rewrite !lookup_singleton_eq.
  destruct Hch; simpl;
    repeat match goal with
    | H : is_terminal (e_state e) = false |- _ => apply (effect_check_state e Hc) in H
    end;
    repeat match goal with H : e_state e = _ |- _ => rewrite H end;
    repeat match goal with H : e_active_attempt_key e = _ |- _ => rewrite H end; simpl;
    try constructor; try by constructor.
  rewrite (bool_decide_false (state = Pending)); [by constructor |].
  intros ->. done.
Qed.

Lemma phase_effects d d' k : effects d' = effects d -> phase_of d' k = phase_of d k.
Proof. unfold phase_of. by intros ->. Qed.

Lemma phase_refines_step P now d d' k :
  Inv d -> step P now d d' -> rc phase_step (phase_of d k) (phase_of d' k).
Proof.
  intros Hi Hs.
  destruct (step_effects P now d d' Hs) as
    [E|[(id & t & k0 & sel & sj & _ & _ & Hn & E)|(k0 & e0 & e1 & H0 & E & Hc & _)]].
  - rewrite (phase_effects _ _ _ E). constructor.
  - rewrite (phase_effects (with_effects (effects d') d) d' k eq_refl), E, phase_insert.
    case_decide as Hk; [|constructor]. subst. unfold phase_of at 1. rewrite Hn.
    unfold phase_of. simpl. rewrite lookup_singleton_eq. repeat constructor.
  - rewrite (phase_effects (with_effects (effects d') d) d' k eq_refl), E, phase_insert.
    case_decide as Hk; [|constructor]. subst.
    assert (E0 : phase_of d k0 = phase_of (with_effects {[ k0 := e0 ]} d) k0)
      by (unfold phase_of; simpl; by rewrite H0, lookup_singleton_eq).
    rewrite E0. eapply phase_change; [|exact Hc].
    by apply (inv_effects d Hi) in H0 as [[_ ? _ _ _ _] _].
Qed.

(** ** Limits of a validated policy *)

Lemma limit_field_inv lo v m z : limit_field lo v m = Ok z -> v = VInt z /\ lo <= z <= 1000000.
Proof.
  unfold limit_field. destruct v; try done. intros H. inv_ok H.
  repeat match goal with H : (_ <? _) = false |- _ => apply Z.ltb_ge in H end. done.
Qed.

Lemma post_init_inv r d m t c limits :
  BudgetLimits_post_init r d m t c = Ok limits ->
  0 <= limits.(requests_per_hour) /\ 0 <= limits.(daily_mutations) /\
  0 <= limits.(mark_pr_ready_per_day) /\ 0 <= limits.(review_threads_per_day) /\
  1 <= limits.(consecutive_indeterminate_limit).
Proof.
  unfold BudgetLimits_post_init. intros H. do 5 case_res H. injection H as <-. simpl.
  repeat match goal with H : limit_field _ _ _ = Ok _ |- _ => apply limit_field_inv in H as [_ ?] end.
  lia.
Qed.

(** * The properties *)

(** C7: the invariant of the tables holds after every sequence of operations
    from the empty database, whatever the operations returned or raised. *)
Theorem store_invariant ops : Forall (op_ok any_limits) ops -> Inv (run_all ops empty_db).
Proof. intros H. eapply Inv_run_all; [exact H | apply Inv_empty]. Qed.

Lemma store_invariant_witness : Inv final.
Proof. apply (store_invariant history). by apply history_ok. Defined.

(** No history charges a semantic effect more than twice: at most two
    mutation events are ever recorded for one effect key. *)
Theorem at_most_two_charges ops k :
  Forall (op_ok any_limits) ops -> count (charge_of k) (budget_events (run_all ops empty_db)) <= 2.
Proof. intros H. apply charges_bounded. eapply Inv_run_all; [exact H | apply Inv_empty]. Qed.

Lemma at_most_two_charges_witness :
  count (charge_of key1) (budget_events final) = 2 /\
  count (charge_of key1) (budget_events final) <= 2.
Proof.
  split; [vm_compute; reflexivity |]. apply (at_most_two_charges history). by apply history_ok.
Defined.

(** C8: every operation refines the abstract life cycle of each effect: it is
    left alone or makes one abstract transition (reserve, charge, recycle the
    first attempt, be satisfied, or end). *)
Theorem effect_life_refines o d k :
  Inv d -> op_ok any_limits o -> rc phase_step (phase_of d k) (phase_of (run o d) k).
Proof.
  intros Hi Ho. destruct (run_steps any_limits o d Ho) as (d1 & H1 & _ & H2 & _ & Heq).
  destruct Heq as [E| ->].
  - rewrite <- (phase_effects d d1 k E). destruct H2 as [|d2 H2]; [constructor |].
    eapply phase_refines_step; [|exact H2]. destruct H1 as [|d1 H1]; [done | by eapply Inv_step].
  - destruct H1 as [|d1 H1]; [constructor | by eapply phase_refines_step].
Qed.

Lemma effect_life_refines_witness :
  let d := run (Reserve packet1 policy None (T0 + 10)) empty_db in
  phase_of d key1 = Open_ 0 /\
  phase_of (run (Begin key1 pid1 attempt1 policy precondition (T0 + 20)) d) key1 = Charged_ 1 /\
  rc phase_step (phase_of d key1)
    (phase_of (run (Begin key1 pid1 attempt1 policy precondition (T0 + 20)) d) key1).
Proof.
  split; [vm_compute; reflexivity |]. split; [vm_compute; reflexivity |].
  apply effect_life_refines; [|exact I].
  apply (Inv_run any_limits); [split; [exact I | apply packet1_wf] | apply Inv_empty].
Defined.

(** An effect that reached a terminal state keeps it, with its number of
    attempts and the time of its outcome, through every later history, and no
    further mutation is ever charged to it. *)
Theorem terminal_effect_absorbing ops d k e :
  Inv d -> Forall (op_ok any_limits) ops -> effects d !! k = Some e -> e.(e_state) <> Pending ->
  (exists e', effects (run_all ops d) !! k = Some e' /\ same_outcome e e') /\
  count (charge_of k) (budget_events (run_all ops d)) = count (charge_of k) (budget_events d).
Proof.
  intros Hi HF He Hst.
  pose proof (terminal_effect_all ops d k e Hi HF He Hst) as H.
  split; [done |]. destruct H as (e' & He' & _ & Ha & _).
  rewrite (inv_charges _ (Inv_run_all _ _ _ HF Hi)), (inv_charges d Hi), He, He'. done.
Qed.

(** The state after the indeterminate outcome of the history. *)
Definition ended : db := run_all (take 5 history) empty_db.

Lemma ended_inv : Inv ended.
Proof.
  eapply (Inv_run_all any_limits); [|apply Inv_empty]. apply Forall_take. by apply history_ok.
Qed.

Lemma terminal_effect_absorbing_witness :
  exists e, effects ended !! key1 = Some e /\ e.(e_state) <> Pending /\
    (exists e', effects (run_all history ended) !! key1 = Some e' /\ same_outcome e e') /\
    count (charge_of key1) (budget_events (run_all history ended)) =
    count (charge_of key1) (budget_events ended).
Proof.
  assert (H : is_some (effects ended !! key1) = true) by (vm_compute; reflexivity).
  destruct (effects ended !! key1) as [e|] eqn:E; [|discriminate H]. exists e.
  assert (Hst : e.(e_state) <> Pending).
  { assert (H' : option_map e_state (effects ended !! key1) = Some Indeterminate)
      by (vm_compute; reflexivity).
    rewrite E in H'. injection H' as ->. discriminate. }
  split; [reflexivity |]. split; [exact Hst |].
  apply (terminal_effect_absorbing history ended key1 e ended_inv); [|exact E | exact Hst].
  by apply history_ok.
Defined.

(** C33: the ledger is append-only: no operation changes or removes a packet, a
    budget event or a receipt, and the receipt a packet replays stays the same
    through every later history. *)
Theorem ledger_append_only ops d :
  Forall (op_ok any_limits) ops ->
  receipts d `prefix_of` receipts (run_all ops d) /\
  budget_events d `prefix_of` budget_events (run_all ops d) /\
  packets d ⊆ packets (run_all ops d) /\
  forall packet_id v, receipt_for_packet packet_id d = Ok (Some v) ->
    receipt_for_packet packet_id (run_all ops d) = Ok (Some v).
Proof.
  intros HF. destruct (ledger_run_all ops d HF) as (H1 & H2 & H3). repeat split; try done.
  intros packet_id v. unfold receipt_for_packet, load_packet_receipt.
  destruct (negb _); [done |]. destruct (select_receipt packet_id d) as [r|] eqn:E; [|done].
  by rewrite (select_receipt_prefix _ _ _ _ H1 E).
Qed.

Lemma ledger_append_only_witness :
  Forall (op_ok any_limits) history /\
  receipt_for_packet pid1 ended = receipt_for_packet pid1 (run_all history ended) /\
  receipts ended `prefix_of` receipts (run_all history ended).
Proof.
  assert (H : Forall (op_ok any_limits) history) by (by apply history_ok).
  destruct (ledger_append_only history ended H) as (H1 & _ & _ & H4).
  split; [exact H |]. split; [|exact H1].
  assert (H5 : is_ok (receipt_for_packet pid1 ended) = true /\
    match receipt_for_packet pid1 ended with Ok o => is_some o | Raise _ => false end = true)
    by (vm_compute; split; reflexivity).
  destruct H5 as [H5 H6]. destruct (receipt_for_packet pid1 ended) as [[v|]|e] eqn:E;
    [|discriminate H6 | discriminate H5].
  symmetry. apply H4. exact E.
Defined.

(** C18: under one trusted policy no UTC day ever records more mutations of an
    instance than [daily_mutations], nor more of one action than its own daily
    limit, whatever the order of the operations. *)
Theorem daily_budgets_hold requests daily ready threads consecutive limits ops slug day :
  BudgetLimits_post_init requests daily ready threads consecutive = Ok limits ->
  Forall (op_ok (eq limits)) ops ->
  let events := budget_events (run_all ops empty_db) in
  count (mutation_event_on slug day) events <= limits.(daily_mutations) /\
  count (fun b => mutation_event_on slug day b && bool_decide (b.(b_action) = MARK_PR_READY))
    events <= limits.(mark_pr_ready_per_day) /\
  count (fun b => mutation_event_on slug day b &&
      bool_decide (b.(b_action) = RESOLVE_REVIEW_THREAD)) events <=
    limits.(review_threads_per_day).
Proof.
  intros Hp HF.
  destruct (post_init_inv _ _ _ _ _ _ Hp) as (_ & Hl1 & Hl2 & Hl3 & _).
  assert (Hw : within_limits limits (run_all ops empty_db)).
  { apply (run_all_ind (within_limits limits) (eq limits)); [|done|].
    - intros now d d'. by apply within_limits_step.
    - intros s t. unfold count, zlen. simpl. split; [lia |]. intros a l.
      unfold action_daily_limit. repeat case_bool_decide; intros [= <-]; lia. }
  destruct (Hw slug day) as [H1 H2]. split; [done |]. split; apply H2.
  - done.
  - unfold action_daily_limit. by rewrite bool_decide_false, bool_decide_true by done.
Qed.

Lemma daily_budgets_hold_witness :
  count (mutation_event_on (str "demo") (utc_day T0)) (budget_events final) = 2 /\
  count (mutation_event_on (str "demo") (utc_day T0)) (budget_events final) <=
    policy.(daily_mutations).
Proof.
  split; [vm_compute; reflexivity |].
  assert (H : Forall (op_ok (eq policy)) history) by (by apply history_ok).
  destruct (daily_budgets_hold (VInt 3) (VInt 3) (VInt 2) (VInt 2) (VInt 1) policy history
    (str "demo") (utc_day T0) eq_refl H) as [H1 _]. exact H1.
Defined.

(** C20: under one trusted policy and a clock that does not go back, every
    window of 3600 seconds records at most [requests_per_hour] accepted packets
    of an instance, wherever the window starts. *)
Theorem request_rate_bounded requests daily ready threads consecutive limits ops slug t :
  BudgetLimits_post_init requests daily ready threads consecutive = Ok limits ->
  Forall (op_ok (eq limits)) ops -> StronglySorted Z.le (map op_now ops) ->
  count (in_window slug t) (budget_events (run_all ops empty_db)) <= limits.(requests_per_hour).
Proof.
  intros Hp HF Hsort.
  destruct (post_init_inv _ _ _ _ _ _ Hp) as (Hl & _).
  assert (Hw : forall clock, Forall (fun o => clock <= op_now o) ops ->
    forall d, window_ok limits clock d -> exists clock', window_ok limits clock' (run_all ops d)).
  { clear Hp Hl. induction HF as [|o ops Ho _ IH]; intros clock Hc d Hd; [by exists clock |].
    simpl in Hsort. apply StronglySorted_inv in Hsort as [Hsort Hge].
    apply Forall_cons in Hc as [Hc _]. apply (IH Hsort (op_now o)).
    - by rewrite Forall_fmap in Hge.
    - destruct (two_steps_rtc _ _ _ _ (run_steps _ o d Ho)) as [d|d d1 d2 H1 H2].
      + destruct Hd as [HF' ?]. split; [|done]. eapply Forall_impl; [exact HF' |]. simpl. lia.
      + apply (window_step _ _ _ _ _ Hc H1) in Hd. clear H1.
        induction H2 as [d2|d2 d3 d4 H3 _ IH2]; [done |].
        apply IH2. by apply (window_step _ (op_now o) _ d2). }
  destruct ops as [|o ops]; [unfold count, zlen; simpl; lia |].
  destruct (Hw (op_now o)) with (d := empty_db) as (clock' & _ & H); [| |apply H].
  - simpl in Hsort. apply StronglySorted_inv in Hsort as [_ Hge]. rewrite Forall_fmap in Hge.
    apply Forall_cons. split; [lia | done].
  - split; [apply Forall_nil_2 |]. intros. unfold count, zlen. simpl. lia.
Qed.

Lemma request_rate_bounded_witness :
  count (in_window (str "demo") (T0 + 100)) (budget_events final) = 2 /\
  count (in_window (str "demo") (T0 + 100)) (budget_events final) <=
    policy.(requests_per_hour).
Proof.
  split; [vm_compute; reflexivity |].
  apply (request_rate_bounded (VInt 3) (VInt 3) (VInt 2) (VInt 2) (VInt 1) policy history
    (str "demo") (T0 + 100) eq_refl); [by apply history_ok |].
  repeat constructor; vm_compute; discriminate.
Defined.

(** C34: while the circuit of an instance and an action is open, no operation
    accepts one of its packets or charges one of its effects. *)
Theorem open_circuit_freezes o d slug action c :
  op_ok any_limits o -> select_circuit slug action d = Some c -> c.(c_open) = true ->
  forall b, budget_events (run o d) = budget_events d ++ [b] ->
    (b.(b_instance_slug), b.(b_action)) <> (slug, action).
Proof.
  intros Ho Hc Hopen b E [= H1 H2].
  pose proof (steps_one_event _ _ _ _ _ (run_steps _ o d Ho) E) as H.
  rewrite H1, H2, (assert_circuit_open _ _ _ _ Hc Hopen) in H. discriminate.
Qed.

Lemma open_circuit_freezes_witness :
  exists c, select_circuit (str "demo") MARK_PR_READY ended = Some c /\ c.(c_open) = true /\
    run (Reserve packet2 policy None (T0 + 60)) ended = ended /\
    (forall b, budget_events (run (Reserve packet2 policy None (T0 + 60)) ended) =
      budget_events ended ++ [b] -> (b.(b_instance_slug), b.(b_action)) <> (str "demo", MARK_PR_READY)).
Proof.
  destruct (select_circuit (str "demo") MARK_PR_READY ended) as [c|] eqn:E.
  2: { assert (H : is_some (select_circuit (str "demo") MARK_PR_READY ended) = true)
         by (vm_compute; reflexivity). rewrite E in H. discriminate H. }
  assert (Hopen : c.(c_open) = true).
  { assert (H : option_map c_open (select_circuit (str "demo") MARK_PR_READY ended) = Some true)
      by (vm_compute; reflexivity). rewrite E in H. injection H as ->. reflexivity. }
  exists c. split; [reflexivity |]. split; [exact Hopen |]. split; [vm_compute; reflexivity |].
  apply (open_circuit_freezes (Reserve packet2 policy None (T0 + 60)) ended
    (str "demo") MARK_PR_READY c); [split; [exact I | exact packet2_wf] | exact E | exact Hopen].
Defined.
