(* ===== verification/StoreReplay.v ===== *)
(** * Replays, recovery and outcomes of the store

    Functional behaviour of the operations on every table the store can reach:
    a packet is read back, a charged attempt is exclusive and its retry is
    free, an outcome is replayed, an absent attempt is recycled once, the
    circuit counts outcomes, recovery lists exactly the charged effects, a
    database is bound to one configuration. *)

From Stdlib Require Import Sorted.
From S2P Require Import Prelude Regex Sha256 PyTime Json JsonFacts Packet PacketFacts Demo Tables Store StoreSteps StoreInv StoreSafety.
Local Open Scope Z_scope.

(** ** Accepted packets are read back *)

(** The packet a row stores, decoded. *)
Lemma accepted_decodes k p field :
  accepted_row k p ->
  exists packet identity now0,
    decode_canonical_json p.(p_packet_json) field = Ok packet /\
    canonical_json (VDict packet) = Ok p.(p_packet_json) /\
    packet_identity packet now0 = Ok identity /\
    k = identity.(id_packet_id) /\ p = packet_row_of identity now0.
Proof.
  intros (packet & now0 & id & Hw & Hid & -> & ->).
  pose proof (is_json _ _ _ (identity_inv _ _ _ Hid)) as Hj.
  destruct (decode_encode packet _ field Hw Hj) as (packet' & Hc & Hd).
  exists packet', id, now0. repeat split; try done.
  - simpl. rewrite <- Hc. by apply canonical_json_canon.
  - by eapply identity_canon.
Qed.

Lemma load_packet_accepted d k p :
  packets d !! k = Some p -> accepted_row k p ->
  exists packet, load_packet k d = Ok packet /\
    canonical_json (VDict packet) = Ok p.(p_packet_json).
Proof.
  intros Hk Ha.
  destruct (accepted_decodes k p "protected-action packet" Ha) as (packet & id & t & Hd & Hj & Hid & -> & ->).
  exists packet. split; [|done]. unfold load_packet. rewrite Hk, Hd.
  pose proof (identity_inv _ _ _ Hid) as Hs.
  destruct (packet_digests_spec _ _ _ (is_digests _ _ _ Hs)) as (_ & _ & _ & _ & Hre & _).
  rewrite Hre. simpl. destruct (identity_times _ _ _ Hid) as [Ht Hl].
  rewrite (identity_window _ _ (id_expires_at id - 1) _ Hid).
  2: { unfold MAX_CLOCK_SKEW_SECONDS, MIN_PACKET_TTL_SECONDS, MAX_PACKET_TTL_SECONDS in *. lia. }
  rewrite bool_decide_true by done. unfold columns_match. simpl.
  rewrite !bool_decide_true, Z.eqb_refl by done. done.
Qed.

(** ** The packet of an effect, at a later instant *)

Lemma belongs_inv packet_id e now allow d id :
  packet_belongs_to_effect packet_id e now allow d = Ok id ->
  exists p packet t,
    packets d !! packet_id = Some p /\
    decode_canonical_json p.(p_packet_json) "protected-action packet" = Ok packet /\
    packet_identity packet t = Ok id /\ (allow = false -> t = now).
Proof.
  unfold packet_belongs_to_effect. intros H. repeat case_res H. injection H as ->. exists p, a, (if allow then Z.min now (a1 - 1) else now).
  split; [done |]. split; [done |]. split; [done |]. by destruct allow.
Qed.

Lemma belongs_later packet_id e e' now now' d d' id p :
  packet_belongs_to_effect packet_id e now false d = Ok id ->
  accepted_row packet_id p -> packets d !! packet_id = Some p ->
  packets d' !! packet_id = Some p ->
  e'.(e_effect_key) = e.(e_effect_key) -> e'.(e_instance_slug) = e.(e_instance_slug) ->
  e'.(e_thread_node_id) = e.(e_thread_node_id) ->
  now <= now' < p.(p_expires_at) ->
  packet_belongs_to_effect packet_id e' now' false d' = Ok id.
Proof.
  intros H Ha Hp Hp' Hk Hs Ht Hn. unfold packet_belongs_to_effect in *.
  rewrite Hp in H. rewrite Hp'.
  destruct (accepted_decodes _ _ "protected-action packet" Ha) as (packet & id0 & t0 & Hd & _ & Hid & _ & Hrow).
  rewrite Hd in *. case_res H. case_res H. case_res H.
  assert (id0 = a1) as ->.
  { destruct (identity_times _ _ _ Hid) as [H1 H2]. destruct (identity_times _ _ _ E1) as [H3 H4].
    pose proof (is_times _ _ _ (identity_inv _ _ _ Hid)) as T1.
    pose proof (is_times _ _ _ (identity_inv _ _ _ E1)) as T2.
    apply packet_times_inv in T1 as (C1 & X1 & _). apply packet_times_inv in T2 as (C2 & X2 & _).
    assert (id_expires_at id0 = id_expires_at a1) as E3 by congruence.
    assert (id_created_at id0 = id_created_at a1) as E4 by congruence.
    pose proof (identity_window _ _ now _ Hid ltac:(lia)). congruence. }
  destruct (identity_times _ _ _ E1) as [H1 _].
  rewrite (identity_window _ now now' a1 E1) by (subst p; simpl in *; lia).
  by rewrite Ht, Hk, Hs.
Qed.

(** ** Charges *)

(** A charge: its preconditions and the tables it leaves. *)
Lemma begin_charged_inv k packet_id attempt_key limits pre now d r d' :
  begin_mutation k packet_id attempt_key limits pre now d = (Ok r, d') ->
  r.(mrv_disposition) = charged ->
  check_keys k packet_id attempt_key = Ok tt /\ fullmatch SHA256_RE pre = true /\
  exists e id detail, effects d !! k = Some e /\ select_receipt packet_id d = None /\
    is_terminal e.(e_state) = false /\ e.(e_active_attempt_key) = None /\
    packet_belongs_to_effect packet_id e now false d = Ok id /\
    r = attempt_reservation charged packet_id k e attempt_key now /\
    d' = with_effects (<[k := charge_effect attempt_key packet_id pre now e]> (effects d))
      (with_events (budget_events d ++ [mutation_event e packet_id attempt_key now detail]) d).
Proof.
  unfold begin_mutation. intros H Hr.
  match type of H with match ?x with _ => _ end = _ => destruct x eqn:Hk; [|done] end.
  case_res Hk. case_res Hk. apply negb_false_iff in E0. destruct a0. split; [done |]. split; [done |].
  destruct (immediate_spec (begin_body k packet_id attempt_key limits pre now) d)
    as [(r0 & d0 & Hb & Hi)|(x & _ & Hi)]; rewrite Hi in H; [|done]. injection H as -> ->. clear Hi.
  unfold begin_body in Hb. case_res Hb. case_res Hb. case_res Hb.
  { injection Hb as <- <-. done. }
  subst. apply load_none in E2. case_res Hb.
  { case_res Hb. case_res Hb. injection Hb as <- <-. simpl in Hr. by case_bool_decide. }
  unfold begin_pending in Hb. case_res Hb. case_res Hb.
  { case_res Hb. case_res Hb. injection Hb as <- <-. done. }
  unfold charge_attempt in Hb. do 5 case_res Hb. injection Hb as <- <-.
  match goal with H : mutation_budget _ _ _ _ _ _ _ = Ok _ |- _ =>
    apply mutation_budget_inv in H as (limit & detail & _ & _ & _ & Hi) end.
  apply insert_event_inv in Hi as (_ & _ & _ & _ & ->).
  inv_update E1. exists e, a0, detail. split_bools. done.
Qed.

(** An active attempt makes [begin_mutation] a pure query. *)
Lemma begin_active_frozen k packet_id attempt_key limits pre now d e :
  effects d !! k = Some e -> e.(e_active_attempt_key) <> None ->
  (begin_mutation k packet_id attempt_key limits pre now d).2 = d.
Proof.
  intros He Ha. unfold begin_mutation.
  match goal with |- context [match ?x with Ok _ => immediate _ _ | _ => _ end] => destruct x; [|done] end.
  apply immediate_rel; [done |]. intros r d' H. unfold begin_body in H. rewrite He in H.
  case_res H. case_res H; [by injection H as _ <- |]. case_res H.
  { case_res H. case_res H. by injection H as _ <-. }
  unfold begin_pending in H. case_res H.
  destruct (e_active_attempt_key e); [|done]. simpl in H.
  case_res H. case_res H. by injection H as _ <-.
Qed.

(** ** Outcomes *)

Lemma select_receipt_snoc r d :
  select_receipt r.(r_packet_id) d = None ->
  select_receipt r.(r_packet_id) (with_receipts (receipts d ++ [r]) d) = Some r.
Proof.
  unfold select_receipt. simpl. induction (receipts d) as [|q l IH]; simpl.
  - by rewrite bool_decide_true.
  - by case_bool_decide.
Qed.

Lemma fresh_select r d :
  (forall q, q ∈ receipts d -> q.(r_packet_id) <> r.(r_packet_id)) ->
  select_receipt r.(r_packet_id) d = None.
Proof.
  unfold select_receipt. intros H. destruct (List.find _ _) as [q|] eqn:E; [|done].
  apply find_some in E as [Hq E]. apply list_elem_of_In in Hq.
  apply bool_decide_eq_true in E. by destruct (H q Hq).
Qed.

(** What an outcome leaves. *)
Lemma terminalized_inv k packet_id attempt_key state receipt limits now d t d' :
  terminalize k packet_id attempt_key state receipt limits now d = (Ok t, d') ->
  t.(trm_disposition) = terminalized ->
  check_keys k packet_id attempt_key = Ok tt /\ is_terminal state = true /\
  exists e json value,
    canonical_copy receipt "broker receipt" = Ok (json, value) /\
    effects d !! k = Some e /\ is_terminal e.(e_state) = false /\
    e.(e_active_attempt_key) = Some attempt_key /\
    e.(e_active_attempt_packet_id) = Some packet_id /\
    t = terminalization terminalized packet_id (Some k) e.(e_action) state (sha256_text json) value /\
    let r := receipt_of (sha256_text json) (Some k) packet_id state json now in
    select_receipt packet_id d = None /\
    record_terminal_circuit e state (Some limits) now
      (with_effects (<[k := terminate_effect state now e]> (effects d))
        (with_receipts (receipts d ++ [r]) d)) = Ok d'.
Proof.
  unfold terminalize. intros H Ht.
  match type of H with match ?x with _ => _ end = _ => destruct x eqn:Hk; [|done] end. destruct a as [json value].
  case_res Hk. case_res Hk. apply negb_false_iff in E0. destruct a. split; [done |]. split; [done |].
  destruct (immediate_spec (terminalize_body k packet_id attempt_key state json value limits now) d)
    as [(r0 & d0 & Hb & Hi)|(x & _ & Hi)]; rewrite Hi in H; [|done]. injection H as -> ->. clear Hi.
  unfold terminalize_body in Hb. case_res Hb. case_res Hb.
  { case_res Hb. injection Hb as <- <-. unfold replay_terminal in E3. case_res E3. case_res E3.
    case_res E3. by injection E3 as <-. }
  case_res Hb. case_res Hb. case_res Hb. case_res Hb. case_res Hb. injection Hb as <- <-.
  pose proof (insert_receipt_inv _ _ _ E5) as (_ & Hf & _ & _ & ->).
  inv_update E1. exists e, json, value. split_bools. repeat split; try done.
  by apply (fresh_select (receipt_of (sha256_text json) (Some k) packet_id state json now)).
Qed.

(** A decoded receipt of the store has the digest of its row. *)
Lemma load_receipt_ok d packet_id r :
  Inv d -> select_receipt packet_id d = Some r ->
  exists v, decode_canonical_json r.(r_receipt_json) "broker receipt" = Ok v /\
    load_packet_receipt packet_id d = Ok (Some {| ps_digest := r.(r_receipt_digest);
      ps_packet_id := packet_id; ps_state := r.(r_terminal_state); ps_value := v |}).
Proof.
  intros Hi H. unfold load_packet_receipt. rewrite H. simpl.
  unfold select_receipt in H. apply find_some in H as [Hin Hp].
  apply list_elem_of_In in Hin. apply bool_decide_eq_true in Hp.
  pose proof (inv_receipts d Hi) as HF. rewrite Forall_forall in HF.
  destruct (HF r Hin) as [_ _ Hd [v Hv]]. exists v. split; [done |].
  unfold decode_receipt_row. rewrite Hv, <- Hd, bool_decide_true by done. simpl. by subst.
Qed.

(** ** Reservations *)

Lemma reservation_ids e packet_id b d r :
  reservation_from_effect e packet_id b d = Ok r ->
  r.(rsv_packet_id) = packet_id /\ r.(rsv_effect_key) = e.(e_effect_key).
Proof. unfold reservation_from_effect. intros H. repeat case_res H; by injection H as <-. Qed.

Lemma reserve_inv packet limits thread now d r d' :
  reserve packet limits thread now d = (Ok r, d') ->
  exists id k sel sj d1 b e,
    packet_identity packet now = Ok id /\ semantic_identity id thread = Ok (k, sel, sj) /\
    accept_packet id limits now d = Ok d1 /\ ensure_effect id k sj sel now d1 = Ok (b, d') /\
    effects d' !! k = Some e /\ reservation_from_effect e id.(id_packet_id) b d' = Ok r /\
    r.(rsv_packet_id) = id.(id_packet_id).
Proof.
  unfold reserve. intros H.
  match type of H with match ?x with _ => _ end = _ => destruct x eqn:Hk; [|done] end.
  case_res Hk. case_res Hk. injection Hk as <-. destruct a1 as [[k sel] sj].
  match type of H with immediate ?b d = _ =>
    destruct (immediate_spec b d) as [(r0 & d0 & Hb & Hm)|(x & _ & Hm)]; rewrite Hm in H; [|done] end.
  injection H as -> ->. unfold reserve_body in Hb.
  case_res Hb. case_res Hb. destruct a1 as [b d2]. case_res Hb. case_res Hb. injection Hb as -> ->.
  do 7 eexists. repeat split; try done. by eapply reservation_ids.
Qed.

(** The row of the accepted packet. *)
Lemma accept_packet_row id limits now d d1 :
  accept_packet id limits now d = Ok d1 ->
  exists p, packets d1 !! id.(id_packet_id) = Some p /\ p.(p_packet_json) = id.(id_packet_json).
Proof.
  unfold accept_packet. intros H. case_res H.
  - case_res H. injection H as <-. split_bools. eauto.
  - do 3 case_res H. apply request_budget_inv in H as (_ & det & Hev).
    apply insert_event_inv in Hev as (_ & _ & _ & _ & ->).
    match goal with H : insert_packet _ _ _ = Ok _ |- _ => apply insert_packet_inv in H as (_ & _ & _ & ->) end.
    simpl. rewrite lookup_insert_eq. eauto.
Qed.

Lemma ensure_effect_packets id k sj sel now d b d' :
  ensure_effect id k sj sel now d = Ok (b, d') -> packets d' = packets d.
Proof.
  unfold ensure_effect. intros H. case_res H.
  - do 3 case_res H. injection H as <- <-. by inv_update E.
  - do 2 case_res H. injection H as <- <-.
    match goal with H : insert_effect _ _ = Ok _ |- _ => by apply insert_effect_inv in H as (_ & _ & _ & ->) end.
Qed.

(** A packet the store accepted is read back for ever: after any later
    history [load_packet] returns a packet whose canonical text is the text
    that was accepted, and which still passes every check. *)
Theorem load_packet_roundtrip packet limits thread now d r ops :
  Inv d -> wf (VDict packet) -> Forall (op_ok any_limits) ops ->
  (reserve packet limits thread now d).1 = Ok r ->
  exists packet', load_packet r.(rsv_packet_id) (run_all ops (reserve packet limits thread now d).2) = Ok packet' /\
    canonical_json (VDict packet') = canonical_json (VDict packet).
Proof.
  intros Hi Hw HF Hr.
  assert (Hi' : Inv (run_all ops (reserve packet limits thread now d).2)).
  { eapply Inv_run_all; [exact HF |].
    by apply (Inv_run any_limits (Reserve packet limits thread now)). }
  assert (H : exists p, packets (reserve packet limits thread now d).2 !! r.(rsv_packet_id) = Some p /\
    canonical_json (VDict packet) = Ok p.(p_packet_json)).
  { destruct (reserve packet limits thread now d) as [x d'] eqn:E. simpl in *. subst x.
    destruct (reserve_inv _ _ _ _ _ _ _ E) as (id & k & sel & sj & d1 & b & e & Hid & _ & Ha & He & _ & _ & ->).
    destruct (accept_packet_row _ _ _ _ _ Ha) as (p & Hp & Hj).
    exists p. rewrite (ensure_effect_packets _ _ _ _ _ _ _ _ He), Hj.
    split; [done |]. apply (is_json _ _ _ (identity_inv _ _ _ Hid)). }
  destruct H as (p & Hp & Hj).
  destruct (ledger_run_all ops (reserve packet limits thread now d).2 HF) as (_ & _ & Hsub).
  pose proof (lookup_weaken _ _ _ _ Hp Hsub) as Hp'.
  destruct (load_packet_accepted _ _ _ Hp' (inv_packets _ Hi' _ _ Hp')) as (packet' & Hl & Hj').
  exists packet'. by rewrite Hj, Hj'.
Qed.

Lemma load_packet_roundtrip_witness :
  exists r packet', (reserve packet1 policy None (T0 + 10) empty_db).1 = Ok r /\
    load_packet r.(rsv_packet_id) (run_all history (reserve packet1 policy None (T0 + 10) empty_db).2)
      = Ok packet' /\
    canonical_json (VDict packet') = canonical_json (VDict packet1).
Proof.
  destruct (reserve packet1 policy None (T0 + 10) empty_db).1 as [r|e] eqn:E.
  2: { assert (H : is_ok (reserve packet1 policy None (T0 + 10) empty_db).1 = true)
         by (vm_compute; reflexivity). rewrite E in H. discriminate H. }
  assert (H : Forall (op_ok any_limits) history) by (by apply history_ok).
  destruct (load_packet_roundtrip packet1 policy None (T0 + 10) empty_db r history
    Inv_empty packet1_wf H E) as (packet' & H1 & H2).
  exists r, packet'. split; [reflexivity |]. split; [exact H1 | exact H2].
Defined.

(** A charged attempt is exclusive: while it is active [begin_mutation] on
    its effect never changes the tables, whatever its arguments; the same
    attempt repeated before its packet expires answers [already_charged] with
    the time of the charge and costs nothing. *)
Theorem charged_attempt_exclusive k packet_id attempt_key limits pre now d r d' p :
  Inv d -> begin_mutation k packet_id attempt_key limits pre now d = (Ok r, d') ->
  r.(mrv_disposition) = charged -> packets d !! packet_id = Some p ->
  (forall packet_id' attempt_key' limits' pre' now',
     (begin_mutation k packet_id' attempt_key' limits' pre' now' d').2 = d') /\
  (forall limits' now', now <= now' < p.(p_expires_at) ->
     begin_mutation k packet_id attempt_key limits' pre now' d' =
       (Ok {| mrv_disposition := already_charged; mrv_packet_id := packet_id;
              mrv_effect_key := k; mrv_action := r.(mrv_action);
              mrv_attempt_key := Some attempt_key; mrv_charged_at := Some (utc_text now);
              mrv_receipt := None; mrv_receipt_packet_id := None |}, d')).
Proof.
  intros Hi H Hr Hp.
  destruct (begin_charged_inv _ _ _ _ _ _ _ _ _ H Hr) as
    (Hk & Hpre & e & id & detail & He & Hsel & Hst & Hact & Hb & -> & ->).
  split.
  - intros. eapply begin_active_frozen; [by apply lookup_insert_eq | done].
  - intros limits' now' Hn. unfold begin_mutation. rewrite Hk, Hpre. simpl.
    unfold immediate, begin_body. simpl. rewrite lookup_insert_eq.
    assert (Hl : load_packet_receipt packet_id (with_effects
      (<[k := charge_effect attempt_key packet_id pre now e]> (effects d))
      (with_events (budget_events d ++ [mutation_event e packet_id attempt_key now detail]) d)) = Ok None).
    { unfold load_packet_receipt. change (select_receipt packet_id _) with (select_receipt packet_id d).
      by rewrite Hsel. }
    rewrite Hl. simpl. rewrite Hst. unfold begin_pending.
    rewrite (belongs_later _ e _ now now' d _ id p Hb (inv_packets d Hi _ _ Hp) Hp) by done.
    simpl. unfold same_attempt. simpl. by rewrite !bool_decide_true.
Qed.

(** The tables after the first packet of the history is reserved. *)
Definition reserved_db : db := run (Reserve packet1 policy None (T0 + 10)) empty_db.

Lemma reserved_db_inv : Inv reserved_db.
Proof. apply (Inv_run any_limits); [split; [exact I | apply packet1_wf] | apply Inv_empty]. Qed.

Lemma charged_attempt_exclusive_witness :
  exists r d' p,
    begin_mutation key1 pid1 attempt1 policy precondition (T0 + 20) reserved_db = (Ok r, d') /\
    r.(mrv_disposition) = charged /\ packets reserved_db !! pid1 = Some p /\
    T0 + 20 <= T0 + 30 < p.(p_expires_at) /\
    (begin_mutation key1 pid1 attempt2 policy precondition (T0 + 30) d').2 = d' /\
    (begin_mutation key1 pid1 attempt1 policy precondition (T0 + 30) d').2 = d'.
Proof.
  destruct (begin_mutation key1 pid1 attempt1 policy precondition (T0 + 20) reserved_db)
    as [[r|e] d'] eqn:E.
  2: { assert (H : is_ok (begin_mutation key1 pid1 attempt1 policy precondition (T0 + 20)
         reserved_db).1 = true) by (vm_compute; reflexivity). rewrite E in H. discriminate H. }
  assert (Hr : r.(mrv_disposition) = charged).
  { assert (H : match (begin_mutation key1 pid1 attempt1 policy precondition (T0 + 20)
      reserved_db).1 with Ok r => r.(mrv_disposition) | Raise _ => reserved end = charged)
      by (vm_compute; reflexivity). rewrite E in H. exact H. }
  destruct (packets reserved_db !! pid1) as [p|] eqn:Ep.
  2: { assert (H : is_some (packets reserved_db !! pid1) = true) by (vm_compute; reflexivity).
       rewrite Ep in H. discriminate H. }
  assert (Hx : p.(p_expires_at) = T0 + 600).
  { assert (H : option_map p_expires_at (packets reserved_db !! pid1) = Some (T0 + 600))
      by (vm_compute; reflexivity). rewrite Ep in H. injection H as ->. reflexivity. }
  assert (Ht : T0 + 20 <= T0 + 30 < p.(p_expires_at)) by (rewrite Hx; lia).
  destruct (charged_attempt_exclusive key1 pid1 attempt1 policy precondition (T0 + 20)
    reserved_db r d' p reserved_db_inv E Hr Ep) as [H1 H2].
  exists r, d', p. repeat split; try exact Hr; try lia.
  - apply H1.
  - rewrite (H2 policy (T0 + 30) Ht). reflexivity.
Defined.

(** C35: an outcome is replayed for ever: once [terminalize] has recorded a
    receipt, the same call answers [receipt_replay] with the same digest and
    receipt after any later history, under any limits and clock, and changes
    nothing; a different receipt or state for that packet is refused. *)
Theorem terminalize_replay k packet_id attempt_key state receipt limits now d t d' ops :
  Inv d -> Forall (op_ok any_limits) ops -> op_ok any_limits (Terminal k packet_id attempt_key state receipt limits now) ->
  terminalize k packet_id attempt_key state receipt limits now d = (Ok t, d') ->
  t.(trm_disposition) = terminalized ->
  (forall limits' now', terminalize k packet_id attempt_key state receipt limits' now' (run_all ops d') =
    (Ok (terminalization receipt_replay packet_id t.(trm_effect_key) t.(trm_action) state
       t.(trm_receipt_digest) t.(trm_receipt)), run_all ops d')) /\
  (forall state' receipt' limits' now' json', canonical_json (VDict receipt') = Ok json' ->
    (sha256_text json', state') <> (t.(trm_receipt_digest), state) ->
    is_ok (terminalize k packet_id attempt_key state' receipt' limits' now' (run_all ops d')).1 = false).
Proof.
  intros Hi HF Ho H Ht.
  destruct (terminalized_inv _ _ _ _ _ _ _ _ _ _ H Ht) as
    (Hk & Hst & e & json & value & Hcopy & He & Hnt & Hact & Hpid & -> & Hsel & Hrec).
  assert (Hi' : Inv d').
  { pose proof (Inv_run any_limits _ d Ho Hi) as Hr. simpl in Hr. by rewrite H in Hr. }
  assert (Hi2 : Inv (run_all ops d')) by (by eapply Inv_run_all).
  destruct (record_terminal_circuit_frame _ _ _ _ _ _ Hrec) as (_ & Hef & _ & Hre & _).
  set (r := receipt_of (sha256_text json) (Some k) packet_id state json now) in *.
  assert (Hs' : select_receipt packet_id d' = Some r).
  { unfold select_receipt. rewrite Hre. by apply (select_receipt_snoc r d). }
  destruct (ledger_run_all ops d' HF) as (Hpre & _).
  pose proof (select_receipt_prefix _ _ _ _ Hpre Hs') as Hs2.
  destruct (load_receipt_ok _ _ _ Hi2 Hs2) as (v & Hv & Hl).
  assert (He' : effects d' !! k = Some (terminate_effect state now e))
    by (rewrite Hef; simpl; apply lookup_insert_eq).
  destruct (terminal_effect_all ops d' k _ Hi' HF He') as (e2 & He2 & Hst2 & _ & _ & Hact2).
  { simpl. by intros ->. }
  destruct (canonical_copy_inv _ _ _ _ Hcopy) as [Hj Hval].
  assert (v = value) as ->.
  { simpl in Hv. congruence. }
  split.
  - intros limits' now'. unfold terminalize. rewrite Hk, Hst, Hcopy. cbn [negb].
    unfold immediate, terminalize_body. rewrite He2, Hst2. cbn [terminate_effect e_state]. rewrite Hst.
    unfold replay_terminal. rewrite Hl. cbn [ps_digest ps_packet_id ps_state ps_value r receipt_of r_receipt_digest r_terminal_state]. rewrite !bool_decide_true by reflexivity. cbn [negb orb].
    rewrite Hact2. reflexivity.
  - intros state' receipt' limits' now' json' Hj' Hne. unfold terminalize.
    match goal with |- context [match ?x with Ok _ => _ | Raise _ => _ end] => destruct x eqn:Hc; [|done] end.
    destruct a as [json2 value2]. case_res Hc. case_res Hc.
    destruct (canonical_copy_inv _ _ _ _ Hc) as [Hj2 _].
    unfold immediate, terminalize_body. rewrite He2, Hst2. cbn [terminate_effect e_state]. rewrite Hst.
    unfold replay_terminal. rewrite Hl. cbn [ps_digest ps_packet_id ps_state ps_value r receipt_of r_receipt_digest r_terminal_state]. rewrite Hj' in Hj2. injection Hj2 as <-.
    destruct (decide (sha256_text json' = sha256_text json)) as [E2|E2].
    + rewrite (bool_decide_false (state = state')); [by rewrite orb_true_r |].
      intros E3. apply Hne. simpl. by rewrite E2, E3.
    + by rewrite (bool_decide_false (sha256_text json = sha256_text json')) by congruence.
Qed.

(** The database with the first attempt charged. *)
Definition charged_db : db := run_all (take 2 history) empty_db.

Lemma charged_db_inv : Inv charged_db.
Proof.
  eapply (Inv_run_all any_limits); [|apply Inv_empty]. apply Forall_take. by apply history_ok.
Qed.

Lemma terminalize_replay_witness :
  exists t d', terminalize key1 pid1 attempt1 Completed receipt1 policy (T0 + 30) charged_db = (Ok t, d') /\
    t.(trm_disposition) = terminalized /\
    terminalize key1 pid1 attempt1 Completed receipt1 policy (T0 + 9000) (run_all history d') =
      (Ok (terminalization receipt_replay pid1 t.(trm_effect_key) t.(trm_action) Completed
        t.(trm_receipt_digest) t.(trm_receipt)), run_all history d').
Proof.
  destruct (terminalize key1 pid1 attempt1 Completed receipt1 policy (T0 + 30) charged_db)
    as [[t|e] d'] eqn:E.
  2: { assert (H : is_ok (terminalize key1 pid1 attempt1 Completed receipt1 policy (T0 + 30)
         charged_db).1 = true) by (vm_compute; reflexivity). rewrite E in H. discriminate H. }
  assert (Ht : t.(trm_disposition) = terminalized).
  { assert (H : match (terminalize key1 pid1 attempt1 Completed receipt1 policy (T0 + 30)
      charged_db).1 with Ok t => t.(trm_disposition) | Raise _ => reserved end = terminalized)
      by (vm_compute; reflexivity). rewrite E in H. exact H. }
  assert (HF : Forall (op_ok any_limits) history) by (by apply history_ok).
  destruct (terminalize_replay key1 pid1 attempt1 Completed receipt1 policy (T0 + 30)
    charged_db t d' history charged_db_inv HF I E Ht) as [H _].
  exists t, d'. split; [reflexivity |]. split; [exact Ht |]. apply H.
Defined.

(** ** Circuits *)

Lemma circuit_key_inj s a s' a' :
  a ∈ ALLOWED_ACTIONS -> a' ∈ ALLOWED_ACTIONS ->
  circuit_key s a = circuit_key s' a' -> s = s' /\ a = a'.
Proof.
  intros Ha Ha' E.
  assert (a = a') as ->.
  { apply (f_equal (fun l => hd_error (rev l))) in E. unfold circuit_key in E.
    rewrite !rev_app_distr in E. revert E.
    unfold ALLOWED_ACTIONS in *. rewrite !elem_of_cons, elem_of_nil in *.
    destruct Ha as [->|[->|[]]], Ha' as [->|[->|[]]]; done. }
  split; [|done]. unfold circuit_key in E. by apply app_inv_tail in E.
Qed.

Lemma circuit_row_action d k c :
  Inv d -> circuits d !! k = Some c -> c.(c_action) ∈ ALLOWED_ACTIONS.
Proof.
  intros Hi [_ H]%(inv_circuits d Hi). unfold circuit_check, action_check in H. by split_bools.
Qed.

(** The circuit of an instance and an action is the row of its key. *)
Lemma select_circuit_lookup d slug action :
  Inv d -> action ∈ ALLOWED_ACTIONS ->
  select_circuit slug action d = circuits d !! circuit_key slug action.
Proof.
  intros Hi Ha. unfold select_circuit.
  set (f := fun q => bool_decide (c_instance_slug q = slug) && bool_decide (c_action q = action)).
  destruct (rows f (circuits d)) as [|[k c] l] eqn:E.
  - destruct (circuits d !! circuit_key slug action) as [c|] eqn:Hc; [|done].
    assert (Hn : any (rows f (circuits d)) = false) by (by rewrite E).
    rewrite any_rows in Hn. specialize (Hn _ _ Hc). unfold f in Hn.
    pose proof (inv_circuits d Hi _ _ Hc) as [Hk _].
    apply circuit_key_inj in Hk as [-> ->]; [|done | by eapply circuit_row_action].
    by rewrite !bool_decide_true in Hn.
  - assert (Hin : In (k, c) (rows f (circuits d))) by (rewrite E; by left).
    unfold rows in Hin. apply filter_In in Hin as [Hin%list_elem_of_In%elem_of_map_to_list Hf].
    unfold f in Hf. simpl in Hf. split_bools. subst.
    by pose proof (inv_circuits d Hi _ _ Hin) as [<- _].
Qed.

Definition indeterminate_count (slug action : pystr) (d : db) : Z :=
  match select_circuit slug action d with Some c => c.(c_consecutive_indeterminate) | None => 0 end.

(** Every recorded outcome counts: an indeterminate one adds one to the
    consecutive count of its instance and action and opens the circuit when
    the count reaches the limit of the policy; any other outcome closes the
    circuit and resets the count. *)
Theorem outcome_counts k packet_id attempt_key state receipt limits now d t d' :
  Inv d -> terminalize k packet_id attempt_key state receipt limits now d = (Ok t, d') ->
  t.(trm_disposition) = terminalized ->
  exists e c, effects d !! k = Some e /\
    select_circuit e.(e_instance_slug) e.(e_action) d' = Some c /\
    if decide (state = Indeterminate) then
      let count := indeterminate_count e.(e_instance_slug) e.(e_action) d + 1 in
      c.(c_consecutive_indeterminate) = count /\
      c.(c_open) = (limits.(consecutive_indeterminate_limit) <=? count)
    else c.(c_consecutive_indeterminate) = 0 /\ c.(c_open) = false.
Proof.
  intros Hi H Ht.
  assert (Hi' : Inv d').
  { pose proof (Inv_run any_limits (Terminal k packet_id attempt_key state receipt limits now) d I Hi) as Hr.
    simpl in Hr. by rewrite H in Hr. }
  destruct (terminalized_inv _ _ _ _ _ _ _ _ _ _ H Ht) as
    (_ & _ & e & json & value & _ & He & _ & _ & _ & _ & _ & Hrec).
  assert (Ha : e.(e_action) ∈ ALLOWED_ACTIONS).
  { apply (inv_effects d Hi) in He as [[_ Hc _ _ _ _] _].
    unfold effect_check, action_check in Hc. by split_bools. }
  apply record_terminal_circuit_inv in Hrec as (c & Hrow & Hup). simpl in Hrow.
  apply upsert_circuit_inv in Hup as (row & -> & _ & Hopen & Hcount & _).
  exists e, row. split; [done |]. rewrite select_circuit_lookup by done. simpl.
  rewrite lookup_insert_eq. split; [done |].
  unfold indeterminate_count. rewrite (select_circuit_lookup d) by done.
  rewrite Hopen, Hcount. unfold terminal_circuit_row in Hrow.
  case_decide as Hs.
  - rewrite bool_decide_true in Hrow by done. case_res Hrow. injection Hrow as <-. simpl.
    by destruct (circuits d !! _).
  - rewrite bool_decide_false in Hrow by done. by injection Hrow as <-.
Qed.

Lemma outcome_counts_witness :
  exists t d' e c,
    terminalize key1 pid1 attempt1 Indeterminate receipt1 policy (T0 + 30) charged_db = (Ok t, d') /\
    t.(trm_disposition) = terminalized /\ effects charged_db !! key1 = Some e /\
    select_circuit e.(e_instance_slug) e.(e_action) d' = Some c /\
    c.(c_consecutive_indeterminate) = indeterminate_count e.(e_instance_slug) e.(e_action) charged_db + 1.
Proof.
  destruct (terminalize key1 pid1 attempt1 Indeterminate receipt1 policy (T0 + 30) charged_db)
    as [[t|e] d'] eqn:E.
  2: { assert (H : is_ok (terminalize key1 pid1 attempt1 Indeterminate receipt1 policy (T0 + 30)
         charged_db).1 = true) by (vm_compute; reflexivity). rewrite E in H. discriminate H. }
  assert (Ht : t.(trm_disposition) = terminalized).
  { assert (H : match (terminalize key1 pid1 attempt1 Indeterminate receipt1 policy (T0 + 30)
      charged_db).1 with Ok t => t.(trm_disposition) | Raise _ => reserved end = terminalized)
      by (vm_compute; reflexivity). rewrite E in H. exact H. }
  destruct (outcome_counts key1 pid1 attempt1 Indeterminate receipt1 policy (T0 + 30)
    charged_db t d' charged_db_inv E Ht) as (e & c & He & Hc & Hcount).
  rewrite decide_True in Hcount by reflexivity. destruct Hcount as [Hcount _].
  exists t, d', e, c. exact (conj eq_refl (conj Ht (conj He (conj Hc Hcount)))).
Defined.

(** ** Reservations, branch by branch *)

Lemma accept_packet_frame id limits now d d1 :
  accept_packet id limits now d = Ok d1 ->
  effects d1 = effects d /\ receipts d1 = receipts d /\
  (is_some (packets d !! id.(id_packet_id)) = true -> d1 = d).
Proof.
  unfold accept_packet. intros H. case_res H.
  - case_res H. by injection H as <-.
  - do 3 case_res H. apply request_budget_inv in H as (_ & det & Hev).
    apply insert_event_inv in Hev as (_ & _ & _ & _ & ->).
    match goal with H : insert_packet _ _ _ = Ok _ |- _ => apply insert_packet_inv in H as (_ & _ & _ & ->) end.
    done.
Qed.

Lemma ensure_effect_inv id k sj sel now d b d' e :
  ensure_effect id k sj sel now d = Ok (b, d') -> effects d' !! k = Some e ->
  receipts d' = receipts d /\ budget_events d' = budget_events d /\
  match effects d !! k with
  | None => b = true /\ e = new_effect_row id k sj sel now
  | Some e0 => b = false /\ e = touch_effect id.(id_packet_id) now e0
  end.
Proof.
  unfold ensure_effect. intros H He. case_res H.
  - do 3 case_res H. injection H as <- <-. inv_update E. simpl in He.
    rewrite lookup_insert_eq in He. by injection He as <-.
  - do 2 case_res H. injection H as <- <-.
    match goal with H : insert_effect _ _ = Ok _ |- _ => apply insert_effect_inv in H as (_ & _ & _ & ->) end.
    simpl in He. rewrite lookup_insert_eq in He. by injection He as <-.
Qed.

(** The answer of [reserve], as a function of the receipt of the packet and of
    the phase of the effect before the call. *)
Definition expected_disposition (receipt : option receipt_row) (p : phase) : disposition :=
  match receipt with
  | Some _ => receipt_replay
  | None =>
      match p with
      | Absent_ => reserved
      | Open_ _ | Charged_ _ => duplicate_pending
      | Done_ s _ => if decide (s = Indeterminate) then indeterminate else semantic_completed
      end
  end.

(** [reserve] answers by the packet's receipt first and by the phase of the
    semantic effect next: a new effect is reserved, a pending one is a
    duplicate, a finished one is reported with its receipt.  A packet that was
    accepted before costs no request budget and leaves the ledger as it was. *)
Theorem reserve_answers packet limits thread now d r d' :
  Inv d -> reserve packet limits thread now d = (Ok r, d') ->
  r.(rsv_disposition) = expected_disposition (select_receipt r.(rsv_packet_id) d)
    (phase_of d r.(rsv_effect_key)) /\
  receipts d' = receipts d /\
  (is_some (packets d !! r.(rsv_packet_id)) = true -> budget_events d' = budget_events d).
Proof.
  intros Hi H.
  destruct (reserve_inv _ _ _ _ _ _ _ H) as (id & k & sel & sj & d1 & b & e & Hid & Hsem & Ha & Hens & He & Hr & Hp).
  destruct (accept_packet_frame _ _ _ _ _ Ha) as (Hef & Hre & Hknown).
  destruct (ensure_effect_inv _ _ _ _ _ _ _ _ _ Hens He) as (Hre' & Hev & Hrow).
  destruct (reservation_ids _ _ _ _ _ Hr) as [_ Hek].
  assert (Hkey : e.(e_effect_key) = k).
  { rewrite Hef in Hrow. destruct (effects d !! k) as [e0|] eqn:E0; destruct Hrow as [_ ->]; [|done].
    by apply (inv_effects d Hi) in E0 as [[<- _ _ _ _ _] _]. }
  rewrite Hp, Hek, Hkey. split; [|split; [congruence |]].
  2: { intros Hk. by rewrite Hev, (Hknown Hk). }
  assert (Hsel : select_receipt (id_packet_id id) d' = select_receipt (id_packet_id id) d)
    by (unfold select_receipt; congruence).
  unfold reservation_from_effect in Hr. case_res Hr. unfold load_packet_receipt in E.
  rewrite Hsel in E. rewrite Hef in Hrow. unfold phase_of.
  destruct (select_receipt (id_packet_id id) d) as [q|].
  { simpl in E. case_res E. injection E as <-. by injection Hr as <-. }
  injection E as <-. simpl.
  destruct (effects d !! k) as [e0|] eqn:E0; destruct Hrow as [-> ->]; simpl in Hr.
  - apply (inv_effects d Hi) in E0 as [[_ Hc _ _ _ _] _].
    destruct (e_state e0) eqn:Es; simpl in *; repeat case_res Hr; injection Hr as <-; try done.
    + by destruct (e_active_attempt_key e0).
    + apply effect_check_states in Hc. rewrite Es in Hc. by apply (bool_decide_eq_true_2 _) in Hc.
    + apply effect_check_states in Hc. rewrite Es in Hc. by apply (bool_decide_eq_true_2 _) in Hc.
  - by injection Hr as <-.
Qed.

Lemma reserve_answers_witness :
  exists r d', reserve packet2 policy None (T0 + 30) charged_db = (Ok r, d') /\
    r.(rsv_disposition) = expected_disposition (select_receipt r.(rsv_packet_id) charged_db)
      (phase_of charged_db r.(rsv_effect_key)) /\
    r.(rsv_disposition) = duplicate_pending.
Proof.
  destruct (reserve packet2 policy None (T0 + 30) charged_db) as [[r|e] d'] eqn:E.
  2: { assert (H : is_ok (reserve packet2 policy None (T0 + 30) charged_db).1 = true)
         by (vm_compute; reflexivity). rewrite E in H. discriminate H. }
  destruct (reserve_answers packet2 policy None (T0 + 30) charged_db r d' charged_db_inv E) as [H _].
  exists r, d'. split; [reflexivity |]. split; [exact H |].
  assert (H2 : match (reserve packet2 policy None (T0 + 30) charged_db).1 with
    | Ok r => r.(rsv_disposition) | Raise _ => reserved end = duplicate_pending)
    by (vm_compute; reflexivity).
  rewrite E in H2. exact H2.
Defined.

(** ** Recovery *)

Lemma recovery_row_phase d k e :
  Inv d -> effects d !! k = Some e ->
  is_some (recovery_row d e) = true <-> exists n, phase_of d k = Charged_ n.
Proof.
  intros Hi He. unfold phase_of. rewrite He.
  destruct (inv_effects d Hi k e He) as [[Hk Hc _ _ _ _] Hfk].
  unfold effect_check, effect_attempt_check in Hc. split_bools.
  unfold recovery_row. destruct (e_state e); simpl; try (split; [done | by intros [? ?]]).
  destruct (e_active_attempt_key e), (e_active_attempt_packet_id e) as [pid|] eqn:Ep,
    (e_active_precondition_digest e), (e_active_attempt_started_at e);
    simpl in *; try discriminate; [|split; [done | by intros [? ?]]].
  unfold effect_fk in Hfk. rewrite Ep in Hfk. simpl in Hfk. split_bools.
  unfold packet_ref in *. destruct (packets d !! pid); [|done].
  simpl. split; eauto.
Qed.

Lemma recovery_row_key d e t r : recovery_row d e = Some (t, r) -> r.(rec_effect_key) = e.(e_effect_key).
Proof. unfold recovery_row. intros H. repeat case_match; try done. by injection H as <- <-. Qed.

Lemma insert_recovery_perm a l : insert_recovery a l ≡ₚ a :: l.
Proof.
  induction l as [|b l IH]; simpl; [done |]. destruct (recovery_leb a b); [done |].
  rewrite IH. constructor.
Qed.

Lemma recovery_perm l : fold_right insert_recovery [] l ≡ₚ l.
Proof. induction l as [|a l IH]; simpl; [done |]. by rewrite insert_recovery_perm, IH. Qed.

Lemma recovery_leb_total a b : recovery_leb a b = false -> recovery_leb b a = true.
Proof.
  unfold recovery_leb. destruct (Z.ltb_spec a.1 b.1), (Z.ltb_spec b.1 a.1), (Z.eqb_spec a.1 b.1),
    (Z.eqb_spec b.1 a.1); simpl; try lia; try done. apply str_leb_total.
Qed.

Lemma recovery_leb_trans a b c :
  recovery_leb a b = true -> recovery_leb b c = true -> recovery_leb a c = true.
Proof.
  unfold recovery_leb.
  destruct (Z.ltb_spec a.1 b.1), (Z.ltb_spec b.1 c.1), (Z.ltb_spec a.1 c.1), (Z.eqb_spec a.1 b.1),
    (Z.eqb_spec b.1 c.1), (Z.eqb_spec a.1 c.1); simpl; try lia; try done. apply str_leb_trans.
Qed.

Definition recovery_le (a b : Z * PendingRecovery) : Prop := recovery_leb a b = true.

Lemma recovery_sorted l : StronglySorted recovery_le (fold_right insert_recovery [] l).
Proof.
  induction l as [|a l IH]; simpl; [constructor |].
  induction IH as [|b m Hs IHm HF]; simpl; [repeat constructor |].
  destruct (recovery_leb a b) eqn:E.
  - constructor; [by constructor |]. constructor; [done |].
    eapply Forall_impl; [exact HF |]. intros c Hc. by apply (recovery_leb_trans a b c).
  - constructor; [done |]. rewrite insert_recovery_perm. constructor; [|done].
    by apply recovery_leb_total.
Qed.

(** Recovery is complete and exact: [pending_recovery] lists one entry for
    every effect with a charged attempt and for no other, in the order of the
    charges. *)
Theorem pending_recovery_complete d :
  Inv d ->
  (forall k, k ∈ map rec_effect_key (pending_recovery d) <-> exists n, phase_of d k = Charged_ n) /\
  NoDup (map rec_effect_key (pending_recovery d)) /\
  exists l, pending_recovery d = map snd l /\ StronglySorted recovery_le l.
Proof.
  intros Hi. unfold pending_recovery.
  set (l := omap (fun kv => recovery_row d kv.2) (map_to_list (effects d))).
  split; [|split].
  - intros k. rewrite map_map, (Permutation_map _ (recovery_perm l)). split.
    + intros ([t r] & -> & Hin)%list_elem_of_fmap. unfold l in Hin.
      apply list_elem_of_omap in Hin as ([k e] & Hke & Hrow). simpl in *.
      apply elem_of_map_to_list in Hke. rewrite (recovery_row_key _ _ _ _ Hrow).
      destruct (inv_effects d Hi k e Hke) as [[-> _ _ _ _ _] _].
      apply (recovery_row_phase d k e Hi Hke). by rewrite Hrow.
    + intros [n Hn]. destruct (effects d !! k) as [e|] eqn:He; [|unfold phase_of in Hn; by rewrite He in Hn].
      destruct (recovery_row d e) as [[t r]|] eqn:Hrow.
      2: { assert (H : is_some (recovery_row d e) = true)
             by (apply (recovery_row_phase d k e Hi He); eauto). by rewrite Hrow in H. }
      apply list_elem_of_fmap. exists (t, r). simpl. rewrite (recovery_row_key _ _ _ _ Hrow).
      destruct (inv_effects d Hi k e He) as [[-> _ _ _ _ _] _]. split; [done |].
      apply list_elem_of_omap. exists (k, e). split; [by apply elem_of_map_to_list | done].
  - rewrite map_map, (Permutation_map _ (recovery_perm l)).
    assert (Hsub : forall m : list (pystr * effect_row), NoDup (map fst m) ->
      (forall k e, (k, e) ∈ m -> e.(e_effect_key) = k) ->
      NoDup (map (fun x => rec_effect_key x.2) (omap (fun kv => recovery_row d kv.2) m))).
    { induction m as [|[k e] m IH]; intros Hn Hk; [constructor |].
      simpl in Hn. apply NoDup_cons in Hn as [Hnk Hn]. simpl.
      assert (IH' := IH Hn ltac:(intros; apply Hk; by right)).
      destruct (recovery_row d e) as [[t r]|] eqn:Hrow; [|done]. simpl.
      apply NoDup_cons. split; [|done]. rewrite (recovery_row_key _ _ _ _ Hrow), (Hk k e) by left.
      intros ([t' r'] & E & Hin)%list_elem_of_fmap.
      apply list_elem_of_omap in Hin as ([k' e'] & Hin & Hrow'). simpl in *.
      rewrite (recovery_row_key _ _ _ _ Hrow'), (Hk k' e') in E by (by right). subst k'.
      apply Hnk. by apply (list_elem_of_fmap_2 fst m (k, e')). }
    apply Hsub; [apply NoDup_fst_map_to_list |].
    intros k e Hke%elem_of_map_to_list. by destruct (inv_effects d Hi k e Hke) as [[? _ _ _ _ _] _].
  - eexists. split; [done | apply recovery_sorted].
Qed.

Lemma pending_recovery_complete_witness :
  map rec_effect_key (pending_recovery charged_db) = [key1] /\
  (key1 ∈ map rec_effect_key (pending_recovery charged_db) <-> exists n, phase_of charged_db key1 = Charged_ n).
Proof.
  split; [vm_compute; reflexivity |].
  destruct (pending_recovery_complete charged_db charged_db_inv) as [H _]. apply H.
Defined.

(** ** Absent attempts *)

Lemma reconciled_inv k packet_id attempt_key evidence now d d' :
  reconcile_absent k packet_id attempt_key evidence now d = (Ok reconciled_absent, d') ->
  check_keys k packet_id attempt_key = Ok tt /\
  exists e json0 copy json,
    canonical_copy evidence "reconciliation evidence" = Ok (json0, copy) /\
    effects d !! k = Some e /\ e.(e_state) = Pending /\ e.(e_mutation_attempts) < 2 /\
    canonical_json (reconciliation_record e packet_id attempt_key copy now) = Ok json /\
    d' = with_effects (<[k := clear_attempt json now e]> (effects d)) d.
Proof.
  unfold reconcile_absent. intros H.
  match type of H with match ?x with _ => _ end = _ => destruct x eqn:Hk; [|done] end.
  destruct a as [json0 copy]. case_res Hk. destruct a. split; [done |].
  match type of H with immediate ?b d = _ =>
    destruct (immediate_spec b d) as [(r0 & d0 & Hb & Hm)|(x & _ & Hm)]; rewrite Hm in H; [|done] end.
  injection H as -> ->. unfold absent_body in Hb. case_res Hb. case_res Hb. case_res Hb.
  - do 4 case_res Hb. injection Hb as <-. inv_update E0. split_bools.
    match goal with H : (2 <=? _) = false |- _ => apply Z.leb_gt in H end. eauto 12.
  - case_res Hb. injection Hb as -> <-. unfold replay_reconciliation in *.
    match goal with H : _ = Ok reconciled_absent |- _ => do 3 case_res H end.
Qed.

Lemma canonical_copy_wf v field json copy :
  wf (VDict v) -> canonical_copy v field = Ok (json, copy) ->
  canon (VDict v) = VDict copy /\ canon (VDict copy) = VDict copy /\ wf (VDict copy).
Proof.
  intros Hw [Hj Hd]%canonical_copy_inv.
  destruct (decode_encode v json field Hw Hj) as (c & Hc & Hd'). rewrite Hd in Hd'.
  injection Hd' as <-. split; [done |]. rewrite <- Hc. split; [apply canon_idem | by apply wf_canon].
Qed.

(** The decoded record of a reconciliation answers its own replay. *)
Lemma replay_record e packet_id attempt_key copy now json :
  wf (VDict copy) -> canon (VDict copy) = VDict copy ->
  Forall plain packet_id -> Forall plain attempt_key ->
  (forall s, e.(e_active_precondition_digest) = Some s -> Forall plain s) ->
  canonical_json (reconciliation_record e packet_id attempt_key copy now) = Ok json ->
  replay_reconciliation (clear_attempt json now e) packet_id attempt_key copy =
    Ok already_reconciled_absent.
Proof.
  intros Hw Hcopy Hp Ha He Hj. unfold replay_reconciliation. simpl.
  set (rec := [(str "attempt_key", VStr attempt_key); (str "evidence", VDict copy);
    (str "observed_at", VStr (utc_text now)); (str "packet_id", VStr packet_id);
    (str "precondition_digest", vopt VStr e.(e_active_precondition_digest));
    (str "result", vstr "absent")]).
  change (reconciliation_record e packet_id attempt_key copy now) with (VDict rec) in Hj.
  assert (Hrw : wf (VDict rec)).
  { constructor.
    - unfold rec. cbn [keys map fst]. by apply (bool_decide_eq_true _).
    - unfold rec. repeat (apply Forall_cons; split; [by apply str_good |]). by apply Forall_nil.
    - unfold rec. repeat (apply Forall_cons; split); try (by apply Forall_nil); simpl; try done;
        try (constructor; apply plain_good; first [done | apply utc_text_plain | by apply plain_str]).
      destruct (e_active_precondition_digest e) as [s|]; simpl; constructor. apply plain_good. auto. }
  destruct (decode_encode rec json "last reconciliation" Hrw Hj) as (prev & Hc & Hd).
  rewrite Hd.
  assert (Hget : forall key, get prev key = canon (get rec key))
    by (intros key; apply get_canon; [by apply wf_nodup | done]).
  rewrite !Hget. change (get rec "attempt_key") with (VStr attempt_key).
  change (get rec "packet_id") with (VStr packet_id). change (get rec "result") with (vstr "absent").
  change (get rec "evidence") with (VDict copy). rewrite Hcopy, (py_eq_refl (VDict copy) Hw).
  simpl. by rewrite !bool_decide_true.
Qed.

Lemma check_keys_inv k packet_id attempt_key :
  check_keys k packet_id attempt_key = Ok tt ->
  fullmatch EFFECT_KEY_RE k = true /\ fullmatch PACKET_ID_RE packet_id = true /\
  fullmatch ATTEMPT_KEY_RE attempt_key = true.
Proof. unfold check_keys. intros H. inv_ok H. done. Qed.

(** An attempt proved absent is recycled once and never refunded: the
    effect is open again after one attempt, the charge stays in the ledger,
    the same proof may be repeated at any time without effect, and the
    consumed attempt key can never be charged again. *)
Theorem absent_attempt_recycled k packet_id attempt_key limits pre now d r d1 evidence now1 d2 :
  Inv d -> wf (VDict evidence) ->
  begin_mutation k packet_id attempt_key limits pre now d = (Ok r, d1) ->
  r.(mrv_disposition) = charged ->
  reconcile_absent k packet_id attempt_key evidence now1 d1 = (Ok reconciled_absent, d2) ->
  phase_of d2 k = Open_ 1 /\ budget_events d2 = budget_events d1 /\
  count (charge_of k) (budget_events d2) = 1 /\
  (forall now2, reconcile_absent k packet_id attempt_key evidence now2 d2 =
    (Ok already_reconciled_absent, d2)) /\
  (forall limits' pre' now', is_ok (begin_mutation k packet_id attempt_key limits' pre' now' d2).1 = false).
Proof.
  intros Hi Hw Hb Hr Ha.
  assert (Hi1 : Inv d1).
  { pose proof (Inv_run any_limits (Begin k packet_id attempt_key limits pre now) d I Hi) as H.
    simpl in H. by rewrite Hb in H. }
  assert (Hi2 : Inv d2).
  { pose proof (Inv_run any_limits (Absent k packet_id attempt_key evidence now1) d1 I Hi1) as H.
    simpl in H. by rewrite Ha in H. }
  destruct (begin_charged_inv _ _ _ _ _ _ _ _ _ Hb Hr) as
    (Hk & Hpre & e & id & detail & He & Hsel & Hst & Hact & _ & _ & E1).
  destruct (reconciled_inv _ _ _ _ _ _ _ Ha) as
    (_ & e1 & json0 & copy & json & Hcopy & He1 & Hst1 & Hatt & Hj & E2).
  destruct (inv_effects d Hi k e He) as [[Hkey _ _ Hrange _ _] _].
  rewrite E1 in He1. simpl in He1. rewrite lookup_insert_eq in He1. injection He1 as <-.
  simpl in Hatt. assert (Hz : e.(e_mutation_attempts) = 0) by lia.
  assert (Hph : phase_of d2 k = Open_ 1).
  { rewrite E2. unfold phase_of. simpl. rewrite lookup_insert_eq. simpl in *. by rewrite Hst1, Hz. }
  assert (Hev : budget_events d2 = budget_events d1) by (by rewrite E2).
  split; [done |]. split; [done |]. split.
  { rewrite (inv_charges d2 Hi2), E2. simpl. rewrite lookup_insert_eq. simpl. lia. }
  destruct (canonical_copy_wf _ _ _ _ Hw Hcopy) as (_ & Hcc & Hwc).
  destruct (check_keys_inv _ _ _ Hk) as (_ & Hpid & Hatk).
  split.
  - intros now2. unfold reconcile_absent. rewrite Hk, Hcopy. unfold immediate, absent_body.
    rewrite E2. cbn [with_effects effects]. rewrite lookup_insert_eq.
    cbn [clear_attempt e_state e_active_attempt_key]. rewrite Hst1. cbn [is_some negb].
    rewrite bool_decide_true by done. cbn [negb].
    rewrite (replay_record (charge_effect attempt_key packet_id pre now e) packet_id attempt_key copy now1 json);
      try done; [by apply packet_id_plain | by apply attempt_key_plain |].
    intros s [= <-]. by apply sha256_plain.
  - intros limits' pre' now'. unfold begin_mutation. rewrite Hk.
    destruct (negb (fullmatch SHA256_RE pre')); [done |].
    unfold immediate, begin_body. rewrite E2, E1. cbn [with_effects effects with_events].
    rewrite lookup_insert_eq. unfold load_packet_receipt.
    change (select_receipt packet_id _) with (select_receipt packet_id d). rewrite Hsel. simpl.
    simpl in Hst1. rewrite Hst1. simpl. unfold begin_pending.
    destruct (packet_belongs_to_effect _ _ _ _ _) as [id'|]; [|done]. simpl.
    unfold charge_attempt. simpl. rewrite Hz. simpl.
    assert (Hc : forall d0, attempt_consumed k attempt_key
      (with_events (budget_events d ++ [mutation_event e packet_id attempt_key now detail]) d0) = true).
    { intros d0. unfold attempt_consumed. simpl. rewrite existsb_app. simpl.
      rewrite Hkey, !bool_decide_true by done. by rewrite orb_true_r. }
    unfold attempt_consumed in *. simpl in *. by rewrite (Hc d).
Qed.

Lemma absent_attempt_recycled_witness :
  exists r d1 d2,
    begin_mutation key1 pid1 attempt1 policy precondition (T0 + 20) reserved_db = (Ok r, d1) /\
    r.(mrv_disposition) = charged /\
    reconcile_absent key1 pid1 attempt1 receipt2 (T0 + 30) d1 = (Ok reconciled_absent, d2) /\
    phase_of d2 key1 = Open_ 1 /\
    reconcile_absent key1 pid1 attempt1 receipt2 (T0 + 90) d2 = (Ok already_reconciled_absent, d2).
Proof.
  set (b := begin_mutation key1 pid1 attempt1 policy precondition (T0 + 20) reserved_db).
  assert (Hb : match b.1 with Ok r => Some r.(mrv_disposition) | Raise _ => None end = Some charged)
    by (vm_compute; reflexivity).
  assert (Ha : (reconcile_absent key1 pid1 attempt1 receipt2 (T0 + 30) b.2).1 = Ok reconciled_absent)
    by (vm_compute; reflexivity).
  destruct b as [[r|x] d1] eqn:E; [|discriminate Hb]. unfold b in E. simpl in Ha, Hb.
  injection Hb as Hb.
  destruct (reconcile_absent key1 pid1 attempt1 receipt2 (T0 + 30) d1) as [a d2] eqn:E2.
  simpl in Ha. subst a.
  assert (Hw : wf (VDict receipt2)) by (apply wfb_wf; vm_compute; reflexivity).
  destruct (absent_attempt_recycled key1 pid1 attempt1 policy precondition (T0 + 20) reserved_db r d1
    receipt2 (T0 + 30) d2 reserved_db_inv Hw E Hb E2) as (H1 & _ & _ & H2 & _).
  exists r, d1, d2. split; [reflexivity |]. split; [exact Hb |]. split; [exact E2 |].
  split; [exact H1 | apply H2].
Defined.

(** ** Runtime binding *)

Lemma binding_op d ops : broker_binding d <> None ->
  Forall (op_ok any_limits) ops -> broker_binding (run_all ops d) = broker_binding d.
Proof.
  intros Hb HF. revert d Hb. induction HF as [|o ops Ho _ IH]; intros d Hb; [done |].
  assert (E : broker_binding (run o d) = broker_binding d).
  { pose proof (two_steps_rtc _ _ _ _ (run_steps any_limits o d Ho)) as Hs. clear -Hs Hb.
    induction Hs as [d|d d1 d2 Hs _ IH]; [done |].
    assert (E : broker_binding d1 = broker_binding d)
      by (step_cases Hs; simpl in *; congruence).
    rewrite IH; congruence. }
  simpl. rewrite IH; congruence.
Qed.

(** A database is bound to one configuration for ever: after the first
    successful [bind_runtime] and any later history, binding the same
    configuration again succeeds and changes nothing, and binding one with a
    different canonical text is refused. *)
Theorem binding_permanent binding now d digest d' ops :
  wf (VDict binding) -> Forall (op_ok any_limits) ops ->
  broker_binding d = None -> bind_runtime binding now d = (Ok digest, d') ->
  (forall now2, bind_runtime binding now2 (run_all ops d') = (Ok digest, run_all ops d')) /\
  (forall other now2, canonical_json (VDict other) <> canonical_json (VDict binding) ->
    is_ok (bind_runtime other now2 (run_all ops d')).1 = false /\
    (bind_runtime other now2 (run_all ops d')).2 = run_all ops d').
Proof.
  intros Hw HF Hn H. unfold bind_runtime in H.
  destruct (canonical_json (VDict binding)) as [json|x] eqn:Hj; [|done].
  unfold immediate, bind_body in H. rewrite Hn in H.
  destruct (negb (durable_rows d =? 0)) eqn:Ez; [done |]. injection H as <- <-.
  set (row := {| binding_digest := sha256_text json; binding_json := json; bound_at := now |}) in *.
  assert (Hb : broker_binding (run_all ops (with_binding row d)) = Some row)
    by (by apply (binding_op (with_binding row d))).
  destruct (decode_encode binding json "broker runtime binding" Hw Hj) as (copy & _ & Hd).
  split.
  - intros now2. unfold bind_runtime. rewrite Hj. unfold immediate, bind_body. rewrite Hb.
    unfold check_binding, row. cbn [binding_digest binding_json].
    rewrite sha256_text_re, Hd, !bool_decide_true by reflexivity. reflexivity.
  - intros other now2 Hne. unfold bind_runtime.
    destruct (canonical_json (VDict other)) as [json'|x]; [|done].
    unfold immediate, bind_body. rewrite Hb. unfold check_binding, row.
    cbn [binding_digest binding_json].
    rewrite sha256_text_re, Hd, bool_decide_true by reflexivity.
    rewrite (bool_decide_false (json = json')) by congruence. cbn [negb orb].
    by rewrite orb_true_r.
Qed.

Lemma binding_permanent_witness :
  exists digest d', bind_runtime receipt1 T0 empty_db = (Ok digest, d') /\
    bind_runtime receipt1 (T0 + 100) (run_all history d') = (Ok digest, run_all history d') /\
    is_ok (bind_runtime receipt2 (T0 + 100) (run_all history d')).1 = false.
Proof.
  destruct (bind_runtime receipt1 T0 empty_db) as [[digest|e] d'] eqn:E.
  2: { assert (H : is_ok (bind_runtime receipt1 T0 empty_db).1 = true) by (vm_compute; reflexivity).
       rewrite E in H. discriminate H. }
  assert (HF : Forall (op_ok any_limits) history) by (by apply history_ok).
  assert (Hw : wf (VDict receipt1)) by (apply wfb_wf; vm_compute; reflexivity).
  destruct (binding_permanent receipt1 T0 empty_db digest d' history Hw HF eq_refl E) as [H1 H2].
  exists digest, d'. split; [reflexivity |]. split; [apply H1 |].
  apply (H2 receipt2 (T0 + 100)). vm_compute. discriminate.
Defined.

(** ** A receipt that names no effect *)


