(* ===== verification/Protocol.v ===== *)
(** * The protocol boundary: field checks and the broker's configuration

    The first part of broker/john_lomein_broker_protocol.py: canonical JSON as
    the protocol writes it, the checks of single fields, [normalize_config]
    split along the sections of the configuration, [config_digest] and
    [validate_requester_uid].  A normalised configuration is a record;
    [config_value] is the mapping the source returns.  Leading underscores of
    the source's names are dropped. *)

From S2P Require Import Prelude Regex Sha256 PyUrl Json.
Local Open Scope Z_scope.

(** ** Constants *)

Definition CONFIG_SCHEMA : string := "john-lomein.protected-broker-config.v1".
Definition MARK_PR_READY : pystr := str "mark_pr_ready".
Definition RESOLVE_REVIEW_THREAD : pystr := str "resolve_review_thread".
Definition ALLOWED_ACTIONS : list pystr := [MARK_PR_READY; RESOLVE_REVIEW_THREAD].
Definition GITHUB_API_BASE_URL : string := "https://api.github.com".
Definition TRANSPORT_KIND : string := "unix_socket".
Definition PEER_CREDENTIAL_PROTOCOL : string := "os_peer_credentials_v1".
Definition MAX_CONFIG_BYTES : Z := 128 * 1024.
Definition MAX_SUBMISSION_BYTES : Z := 512 * 1024.
Definition MAX_KEY_BYTES : Z := 64 * 1024.
Definition MIN_PACKET_TTL_SECONDS : Z := 60.
Definition MAX_PACKET_TTL_SECONDS : Z := 3600.
Definition MAX_CLOCK_SKEW_SECONDS : Z := 300.
Definition MAX_SOCKET_PATH_BYTES : Z := 100.
Definition ACCEPTED_GREEN_CHECK_CONCLUSIONS : list pystr :=
  [str "NEUTRAL"; str "SKIPPED"; str "SUCCESS"].

(** ** Canonical JSON *)

(** [json.dumps(..., allow_nan=False)] accepts the value. *)
Fixpoint finite (v : value) : bool :=
  match v with
  | VFloat t => negb (bool_decide (t ∈ [str "nan"; str "inf"; str "-inf"]))
  | VList l => forallb finite l
  | VDict d => forallb (fun kv => finite kv.2) d
  | _ => true
  end.

Definition canonical_json (v : value) : res pystr :=
  raise_if negb (finite v) with (BrokerProtocolError "value is not canonical JSON") ;;
  Ok (dumps v).

Definition sha256_json (v : value) : res pystr :=
  let* encoded := canonical_json v in
  Ok (sha256_text encoded).

(** ** Field checks *)

Definition mapping (v : value) (field : string) : res dict :=
  match v with
  | VDict d => Ok d
  | _ => Raise (BrokerProtocolError (field +:+ " must be an object"))
  end.

(** Unknown fields are reported before missing ones. *)
Definition strict_keys (d : dict) (field : string) (allowed : list string) : res unit :=
  raise_if negb (forallb (fun k => bool_decide (k ∈ map str allowed)) (keys d))
    with (BrokerProtocolError (field +:+ " contains unknown fields")) ;;
  raise_if negb (forallb (fun k => bool_decide (k ∈ keys d)) (map str allowed))
    with (BrokerProtocolError (field +:+ " is missing required fields")) ;;
  Ok tt.

Definition INT64_MAX : Z := 2 ^ 63 - 1.

Definition int_between (lo : Z) (v : value) (field : string) (maximum : Z) : res Z :=
  match v with
  | VInt z =>
      raise_if (z <? lo) || (maximum <? z)
        with (BrokerProtocolError (field +:+ " is outside the allowed range")) ;;
      Ok z
  | _ => Raise (BrokerProtocolError (field +:+ " must be an integer"))
  end.

Definition positive_int : value -> string -> Z -> res Z := int_between 1.
Definition nonnegative_int : value -> string -> Z -> res Z := int_between 0.

Definition id_number (kind : string) (v : value) (field : string) : res Z :=
  let e := BrokerProtocolError (field +:+ " must be a " +:+ kind) in
  match v with
  | VInt z => raise_if (z <? 0) || (2 ^ 31 - 1 <? z) with e ;; Ok z
  | _ => Raise e
  end.

Definition uid : value -> string -> res Z := id_number "UID".
Definition gid : value -> string -> res Z := id_number "GID".

Definition boolean (v : value) (field : string) : res bool :=
  match v with
  | VBool b => Ok b
  | _ => Raise (BrokerProtocolError (field +:+ " must be boolean"))
  end.

Definition safe_text (v : value) (field : string) (maximum : Z) : res pystr :=
  let e := BrokerProtocolError (field +:+ " is invalid") in
  match v with
  | VStr s =>
      raise_if bool_decide (s = []) || (maximum <? zlen s) || existsb (fun c => c <? 32)%N s
        with e ;;
      Ok s
  | _ => Raise e
  end.

(** [sorted(l)] of strings *)
Fixpoint sinsert (s : pystr) (l : list pystr) : list pystr :=
  match l with
  | [] => [s]
  | t :: l' => if str_leb s t then s :: l else t :: sinsert s l'
  end.

Definition sort_strings (l : list pystr) : list pystr := fold_right sinsert [] l.

Definition sorted_unique_strings (v : value) (field : string) (maximum_items maximum_length : Z)
    (allow_empty : bool) : res (list pystr) :=
  match v with
  | VList l =>
      raise_if (negb allow_empty && bool_decide (zlen l = 0)) || (maximum_items <? zlen l)
        with (BrokerProtocolError (field +:+ " has an invalid item count")) ;;
      let* normalized :=
        res_map (fun item => safe_text item (field +:+ " item") maximum_length) l in
      raise_if negb (bool_decide (normalized = sort_strings normalized)) ||
               negb (bool_decide (NoDup normalized))
        with (BrokerProtocolError (field +:+ " must be sorted and unique")) ;;
      Ok normalized
  | _ => Raise (BrokerProtocolError (field +:+ " must be an array"))
  end.

Definition lexical_absolute_path (v : value) (field : string) : res path :=
  let e := BrokerProtocolError (field +:+ " must be an absolute path") in
  match v with
  | VStr s =>
      raise_if bool_decide (s = []) || bool_decide (0%N ∈ s) with e ;;
      let p := path_of s in
      raise_if negb (is_absolute p) || bool_decide (str ".." ∈ p.(parts)) with e ;;
      raise_if negb (bool_decide (path_text p = s))
        with (BrokerProtocolError (field +:+ " must be normalized")) ;;
      Ok p
  | _ => Raise e
  end.

Definition absolute_path_text (v : value) (field : string) : res pystr :=
  let* p := lexical_absolute_path v field in Ok (path_text p).

Definition forbidden_prefix (s : pystr) (field : string) : res pystr :=
  let e := BrokerProtocolError (field +:+ " is invalid") in
  raise_if startswith s (str "/") || startswith s (str "./") || endswith s (str "/") ||
           has "\" s || has "*" s || has "?" s
    with e ;;
  raise_if existsb (fun p => bool_decide (p ∈ [[]; str "."; str ".."])) (split_on (ch_of "/") s)
    with e ;;
  Ok s.

(** [text = str(v or "")], [PATTERN.fullmatch(text)], or [raise] *)
Definition text_matching (r : re) (v : value) (message : string) : res pystr :=
  let s := text_or_empty v in
  raise_if negb (fullmatch r s) with (BrokerProtocolError message) ;;
  Ok s.

(** [v != expected] raises. *)
Definition constant_field (v : value) (expected : string) (message : string) : res unit :=
  raise_if negb (py_eq v (vstr expected)) with (BrokerProtocolError message) ;;
  Ok tt.

(** ** The configuration *)

Record Transport := {
  socket_path : pystr; requester_uid : Z; submit_gid : Z;
  max_request_bytes : Z; request_timeout_seconds : Z }.

Record GithubApp := {
  app_id : Z; app_slug : pystr; installation_id : Z; github_private_key_path : pystr }.

Record ReceiptSigning := {
  key_id : pystr; receipt_private_key_path : pystr; receipt_public_key_path : pystr;
  public_key_sha256 : pystr }.

Record Repository := {
  full_name : pystr; repository_id : Z; default_branch : pystr }.

Record Policy := {
  allowed_actions : list pystr;
  expected_author : pystr;
  required_checks : list pystr;
  allow_no_checks : bool;
  forbidden_prefixes : list pystr;
  maximum_clock_skew : Z;
  accepted_conclusions : list pystr;
  maximum_changed_files : Z;
  minimum_rate_limit_remaining : Z;
  maximum_packet_ttl : Z }.

Record Budgets := {
  budget_requests_per_hour : Z; mutation_attempts_per_day : Z;
  daily_mark_ready : Z; daily_resolve : Z;
  consecutive_indeterminate : Z }.

Record Config := {
  enabled : bool; broker_id : pystr; broker_uid : Z;
  transport : Transport; github_app : GithubApp; receipt_signing : ReceiptSigning;
  database_path : pystr;
  slug : pystr; repository : Repository; policy : Policy; budgets : Budgets }.

Definition CONFIG_KEYS : list string :=
  ["schema_version"; "enabled"; "broker_id"; "broker_uid"; "transport"; "github_app";
   "receipt_signing"; "state"; "instance"].

Definition config_header (config : dict) : res (bool * pystr * Z) :=
  let* _ := strict_keys config "broker config" CONFIG_KEYS in
  let* _ := constant_field (get config "schema_version") CONFIG_SCHEMA
    "broker config schema is unsupported" in
  let* enabled := boolean (get config "enabled") "broker config enabled" in
  let* broker_id := text_matching TOKEN_RE (get config "broker_id")
    "broker config broker_id is invalid" in
  let* broker_uid := uid (get config "broker_uid") "broker config broker_uid" in
  Ok (enabled, broker_id, broker_uid).

Definition TRANSPORT_KEYS : list string :=
  ["kind"; "peer_credentials"; "socket_path"; "requester_uid"; "submit_gid";
   "max_request_bytes"; "request_timeout_seconds"].

Definition config_transport (v : value) (broker_uid : Z) : res Transport :=
  let* transport := mapping v "broker config transport" in
  let* _ := strict_keys transport "broker config transport" TRANSPORT_KEYS in
  let* _ := constant_field (get transport "kind") TRANSPORT_KIND
    "broker transport kind is unsupported" in
  let* _ := constant_field (get transport "peer_credentials") PEER_CREDENTIAL_PROTOCOL
    "broker peer-credential protocol is unsupported" in
  let* socket_path := absolute_path_text (get transport "socket_path")
    "broker transport socket_path" in
  let* encoded_length := fsencode_len socket_path in
  raise_if MAX_SOCKET_PATH_BYTES <? encoded_length
    with (BrokerProtocolError "broker socket path is too long") ;;
  let* requester_uid := uid (get transport "requester_uid") "broker transport requester_uid" in
  raise_if requester_uid =? broker_uid
    with (BrokerProtocolError "broker and requester UIDs must be different") ;;
  let* submit_gid := gid (get transport "submit_gid") "broker transport submit_gid" in
  let* max_request_bytes := positive_int (get transport "max_request_bytes")
    "broker transport max_request_bytes" MAX_SUBMISSION_BYTES in
  raise_if max_request_bytes <? 1024
    with (BrokerProtocolError "broker transport max_request_bytes is too small") ;;
  let* request_timeout_seconds := positive_int (get transport "request_timeout_seconds")
    "broker transport request_timeout_seconds" 60 in
  Ok {| socket_path := socket_path; requester_uid := requester_uid; submit_gid := submit_gid;
        max_request_bytes := max_request_bytes;
        request_timeout_seconds := request_timeout_seconds |}.

Definition GITHUB_APP_KEYS : list string :=
  ["app_id"; "app_slug"; "installation_id"; "private_key_path"; "api_base_url"].

Definition config_github_app (v : value) : res GithubApp :=
  let* github_app := mapping v "broker config github_app" in
  let* _ := strict_keys github_app "broker config github_app" GITHUB_APP_KEYS in
  let* app_id := positive_int (get github_app "app_id") "broker GitHub App app_id" INT64_MAX in
  let* app_slug := text_matching APP_SLUG_RE (get github_app "app_slug")
    "broker GitHub App app_slug is invalid" in
  let* installation_id := positive_int (get github_app "installation_id")
    "broker GitHub App installation_id" INT64_MAX in
  let* private_key_path := absolute_path_text (get github_app "private_key_path")
    "broker GitHub App private_key_path" in
  let* _ := constant_field (get github_app "api_base_url") GITHUB_API_BASE_URL
    "broker GitHub API base URL is unsupported" in
  Ok {| app_id := app_id; app_slug := app_slug; installation_id := installation_id;
        github_private_key_path := private_key_path |}.

Definition RECEIPT_SIGNING_KEYS : list string :=
  ["key_id"; "private_key_path"; "public_key_path"; "public_key_sha256"].

Definition config_receipt_signing (v : value) (github_private_key_path : pystr) :
    res ReceiptSigning :=
  let* receipt_signing := mapping v "broker config receipt_signing" in
  let* _ := strict_keys receipt_signing "broker config receipt_signing" RECEIPT_SIGNING_KEYS in
  let* key_id := text_matching TOKEN_RE (get receipt_signing "key_id")
    "broker receipt signing key_id is invalid" in
  let* private_path := absolute_path_text (get receipt_signing "private_key_path")
    "broker receipt private_key_path" in
  let* public_path := absolute_path_text (get receipt_signing "public_key_path")
    "broker receipt public_key_path" in
  let* public_key_sha256 := text_matching SHA256_RE (get receipt_signing "public_key_sha256")
    "broker receipt public-key fingerprint is invalid" in
  raise_if negb (bool_decide (NoDup [github_private_key_path; private_path; public_path]))
    with (BrokerProtocolError "broker key paths must be distinct") ;;
  Ok {| key_id := key_id; receipt_private_key_path := private_path;
        receipt_public_key_path := public_path; public_key_sha256 := public_key_sha256 |}.

(** [state]: the paths of the keys and of the socket are [others]. *)
Definition config_state (v : value) (others : list pystr) : res pystr :=
  let* state := mapping v "broker config state" in
  let* _ := strict_keys state "broker config state" ["database_path"] in
  let* database_path := absolute_path_text (get state "database_path")
    "broker state database_path" in
  raise_if bool_decide (database_path ∈ others)
    with (BrokerProtocolError "broker state path must be distinct from keys and transport") ;;
  Ok database_path.

Definition config_repository (v : value) : res Repository :=
  let* repository := mapping v "broker config instance repository" in
  let* _ := strict_keys repository "broker config instance repository"
    ["full_name"; "id"; "default_branch"] in
  let* full_name := text_matching REPO_RE (get repository "full_name")
    "broker repository name is invalid" in
  let* repository_id := positive_int (get repository "id") "broker repository id" INT64_MAX in
  let* default_branch := text_matching BRANCH_RE (get repository "default_branch")
    "broker repository default branch is invalid" in
  Ok {| full_name := full_name; repository_id := repository_id;
        default_branch := default_branch |}.

Definition POLICY_KEYS : list string :=
  ["allowed_actions"; "expected_pr_author_login"; "required_checks";
   "allow_no_required_checks"; "forbidden_path_prefixes"; "require_same_repository_head";
   "resolve_outdated_threads_only"; "require_evidence_marker";
   "maximum_packet_ttl_seconds"; "maximum_clock_skew_seconds";
   "accepted_check_conclusions"; "maximum_changed_files"; "minimum_rate_limit_remaining"].

(** Who may ask for what, and which checks count. *)
Definition policy_subjects (policy : dict) : res (list pystr * pystr * list pystr * bool) :=
  let* actions := sorted_unique_strings (get policy "allowed_actions")
    "broker policy allowed_actions" (zlen ALLOWED_ACTIONS) 64 false in
  raise_if negb (forallb (fun a => bool_decide (a ∈ ALLOWED_ACTIONS)) actions)
    with (BrokerProtocolError "broker policy contains an unsupported action") ;;
  let* expected_author := text_matching LOGIN_RE (get policy "expected_pr_author_login")
    "broker policy expected PR author is invalid" in
  let* required_checks := sorted_unique_strings (get policy "required_checks")
    "broker policy required_checks" 128 256 true in
  let* allow_no_checks := boolean (get policy "allow_no_required_checks")
    "broker policy allow_no_required_checks" in
  raise_if bool_decide (required_checks = []) && negb allow_no_checks
    with (BrokerProtocolError
      "broker policy must name required checks or explicitly allow none") ;;
  Ok (actions, expected_author, required_checks, allow_no_checks).

(** [_boolean(...) is not True] raises. *)
Definition remains_enabled (policy : dict) (field : string) : res unit :=
  let* b := boolean (get policy field) ("broker policy " +:+ field) in
  raise_if negb b
    with (BrokerProtocolError ("broker policy " +:+ field +:+ " must remain enabled in v1")) ;;
  Ok tt.

Definition policy_paths (policy : dict) : res (list pystr) :=
  let* prefixes := sorted_unique_strings (get policy "forbidden_path_prefixes")
    "broker policy forbidden_path_prefixes" 128 512 false in
  let* forbidden :=
    res_map (fun p => forbidden_prefix p "broker policy forbidden path prefix") prefixes in
  let* _ := res_map (remains_enabled policy)
    ["require_same_repository_head"; "resolve_outdated_threads_only";
     "require_evidence_marker"] in
  Ok forbidden.

Definition policy_conclusions (policy : dict) : res (list pystr) :=
  let* accepted := sorted_unique_strings (get policy "accepted_check_conclusions")
    "broker policy accepted_check_conclusions" (zlen ACCEPTED_GREEN_CHECK_CONCLUSIONS) 32
    false in
  raise_if negb (bool_decide (str "SUCCESS" ∈ accepted)) ||
           negb (forallb (fun c => bool_decide (c ∈ ACCEPTED_GREEN_CHECK_CONCLUSIONS)) accepted)
    with (BrokerProtocolError "broker policy accepted check conclusions are unsafe") ;;
  Ok accepted.

Definition config_policy (v : value) : res Policy :=
  let* policy := mapping v "broker config instance policy" in
  let* _ := strict_keys policy "broker config instance policy" POLICY_KEYS in
  let* (actions, expected_author, required_checks, allow_no_checks) := policy_subjects policy in
  let* forbidden := policy_paths policy in
  let* skew := nonnegative_int (get policy "maximum_clock_skew_seconds")
    "broker policy maximum_clock_skew_seconds" MAX_CLOCK_SKEW_SECONDS in
  let* accepted := policy_conclusions policy in
  let* changed := positive_int (get policy "maximum_changed_files")
    "broker policy maximum_changed_files" 10000 in
  let* remaining := positive_int (get policy "minimum_rate_limit_remaining")
    "broker policy minimum_rate_limit_remaining" 100000 in
  let* ttl := positive_int (get policy "maximum_packet_ttl_seconds")
    "broker policy maximum_packet_ttl_seconds" MAX_PACKET_TTL_SECONDS in
  raise_if ttl <? MIN_PACKET_TTL_SECONDS
    with (BrokerProtocolError "broker policy packet TTL is outside the allowed range") ;;
  Ok {| allowed_actions := actions; expected_author := expected_author;
        required_checks := required_checks; allow_no_checks := allow_no_checks;
        forbidden_prefixes := forbidden; maximum_clock_skew := skew;
        accepted_conclusions := accepted; maximum_changed_files := changed;
        minimum_rate_limit_remaining := remaining; maximum_packet_ttl := ttl |}.

Definition BUDGET_KEYS : list string :=
  ["requests_per_hour"; "mutation_attempts_per_day"; "daily_mark_pr_ready";
   "daily_resolve_review_thread"; "max_threads_per_submission";
   "consecutive_indeterminate_limit"].

Definition config_budgets (v : value) : res Budgets :=
  let* budgets := mapping v "broker config instance budgets" in
  let* _ := strict_keys budgets "broker config instance budgets" BUDGET_KEYS in
  let* requests_per_hour := positive_int (get budgets "requests_per_hour")
    "broker budget requests_per_hour" 10000 in
  let* mutation_attempts_per_day := positive_int (get budgets "mutation_attempts_per_day")
    "broker budget mutation_attempts_per_day" 10000 in
  let* daily_mark_ready := positive_int (get budgets "daily_mark_pr_ready")
    "broker budget daily_mark_pr_ready" 10000 in
  let* daily_resolve := positive_int (get budgets "daily_resolve_review_thread")
    "broker budget daily_resolve_review_thread" 10000 in
  raise_if (mutation_attempts_per_day <? daily_mark_ready) ||
           (mutation_attempts_per_day <? daily_resolve)
    with (BrokerProtocolError "broker per-action budget exceeds mutation budget") ;;
  let* max_threads := positive_int (get budgets "max_threads_per_submission")
    "broker budget max_threads_per_submission" 1 in
  raise_if negb (max_threads =? 1)
    with (BrokerProtocolError "broker v1 requires one thread per submission") ;;
  let* consecutive := positive_int (get budgets "consecutive_indeterminate_limit")
    "broker budget consecutive_indeterminate_limit" 20 in
  Ok {| budget_requests_per_hour := requests_per_hour;
        mutation_attempts_per_day := mutation_attempts_per_day;
        daily_mark_ready := daily_mark_ready; daily_resolve := daily_resolve;
        consecutive_indeterminate := consecutive |}.

Definition config_instance (v : value) : res (pystr * Repository * Policy * Budgets) :=
  let* instance := mapping v "broker config instance" in
  let* _ := strict_keys instance "broker config instance"
    ["slug"; "repository"; "policy"; "budgets"] in
  let* slug := text_matching INSTANCE_SLUG_RE (get instance "slug")
    "broker instance slug is invalid" in
  let* repository := config_repository (get instance "repository") in
  let* policy := config_policy (get instance "policy") in
  let* budgets := config_budgets (get instance "budgets") in
  Ok (slug, repository, policy, budgets).

Definition normalize_config (raw : value) : res Config :=
  let* config := mapping raw "broker config" in
  let* (enabled, broker_id, broker_uid) := config_header config in
  let* transport := config_transport (get config "transport") broker_uid in
  let* github_app := config_github_app (get config "github_app") in
  let* receipt_signing := config_receipt_signing (get config "receipt_signing")
    github_app.(github_private_key_path) in
  let* database_path := config_state (get config "state")
    [github_app.(github_private_key_path); receipt_signing.(receipt_private_key_path);
     receipt_signing.(receipt_public_key_path); transport.(socket_path)] in
  let* (slug, repository, policy, budgets) := config_instance (get config "instance") in
  Ok {| enabled := enabled; broker_id := broker_id; broker_uid := broker_uid;
        transport := transport; github_app := github_app; receipt_signing := receipt_signing;
        database_path := database_path; slug := slug; repository := repository;
        policy := policy; budgets := budgets |}.

(** ** The normalised configuration as a mapping *)

Definition vstrs (l : list pystr) : value := VList (map VStr l).

Definition transport_value (t : Transport) : value :=
  obj [("kind", vstr TRANSPORT_KIND);
       ("peer_credentials", vstr PEER_CREDENTIAL_PROTOCOL);
       ("socket_path", VStr t.(socket_path));
       ("requester_uid", VInt t.(requester_uid));
       ("submit_gid", VInt t.(submit_gid));
       ("max_request_bytes", VInt t.(max_request_bytes));
       ("request_timeout_seconds", VInt t.(request_timeout_seconds))].

Definition github_app_value (g : GithubApp) : value :=
  obj [("app_id", VInt g.(app_id));
       ("app_slug", VStr g.(app_slug));
       ("installation_id", VInt g.(installation_id));
       ("private_key_path", VStr g.(github_private_key_path));
       ("api_base_url", vstr GITHUB_API_BASE_URL)].

Definition receipt_signing_value (s : ReceiptSigning) : value :=
  obj [("key_id", VStr s.(key_id));
       ("private_key_path", VStr s.(receipt_private_key_path));
       ("public_key_path", VStr s.(receipt_public_key_path));
       ("public_key_sha256", VStr s.(public_key_sha256))].

Definition repository_value (r : Repository) : value :=
  obj [("full_name", VStr r.(full_name));
       ("id", VInt r.(repository_id));
       ("default_branch", VStr r.(default_branch))].

Definition policy_value (p : Policy) : value :=
  obj [("allowed_actions", vstrs p.(allowed_actions));
       ("expected_pr_author_login", VStr p.(expected_author));
       ("required_checks", vstrs p.(required_checks));
       ("allow_no_required_checks", VBool p.(allow_no_checks));
       ("forbidden_path_prefixes", vstrs p.(forbidden_prefixes));
       ("require_same_repository_head", VBool true);
       ("resolve_outdated_threads_only", VBool true);
       ("require_evidence_marker", VBool true);
       ("maximum_packet_ttl_seconds", VInt p.(maximum_packet_ttl));
       ("maximum_clock_skew_seconds", VInt p.(maximum_clock_skew));
       ("accepted_check_conclusions", vstrs p.(accepted_conclusions));
       ("maximum_changed_files", VInt p.(maximum_changed_files));
       ("minimum_rate_limit_remaining", VInt p.(minimum_rate_limit_remaining))].

Definition budgets_value (b : Budgets) : value :=
  obj [("requests_per_hour", VInt b.(budget_requests_per_hour));
       ("mutation_attempts_per_day", VInt b.(mutation_attempts_per_day));
       ("daily_mark_pr_ready", VInt b.(daily_mark_ready));
       ("daily_resolve_review_thread", VInt b.(daily_resolve));
       ("max_threads_per_submission", VInt 1);
       ("consecutive_indeterminate_limit", VInt b.(consecutive_indeterminate))].

Definition config_value (c : Config) : value :=
  obj [("schema_version", vstr CONFIG_SCHEMA);
       ("enabled", VBool c.(enabled));
       ("broker_id", VStr c.(broker_id));
       ("broker_uid", VInt c.(broker_uid));
       ("transport", transport_value c.(transport));
       ("github_app", github_app_value c.(github_app));
       ("receipt_signing", receipt_signing_value c.(receipt_signing));
       ("state", obj [("database_path", VStr c.(database_path))]);
       ("instance", obj [("slug", VStr c.(slug));
                         ("repository", repository_value c.(repository));
                         ("policy", policy_value c.(policy));
                         ("budgets", budgets_value c.(budgets))])].

(** The mappings of the configuration and of its policy. *)
Definition config_dict (c : Config) : dict :=
  match config_value c with VDict d => d | _ => [] end.
Definition policy_dict (p : Policy) : dict :=
  match policy_value p with VDict d => d | _ => [] end.

Definition config_digest (config : value) : res pystr :=
  let* c := normalize_config config in
  sha256_json (config_value c).

Definition validate_requester_uid (config peer_uid : value) : res Z :=
  let* normalized := normalize_config config in
  let* actual := uid peer_uid "broker peer UID" in
  raise_if negb (actual =? normalized.(transport).(requester_uid))
    with (BrokerProtocolError "broker requester UID is not authorized") ;;
  raise_if actual =? normalized.(broker_uid)
    with (BrokerProtocolError "broker requester cannot share the broker identity") ;;
  Ok actual.
