(* ===== verification/ConfigFacts.v ===== *)
(** * What an accepted configuration satisfies

    Each section of a configuration has a validity predicate; [..._sound] says
    that what [normalize_config] returns is valid and [..._complete] that the
    mapping of a valid record is accepted and gives the record back. *)

From S2P Require Import Prelude Regex PyUrl Json JsonFacts Protocol.
Local Open Scope Z_scope.

(** ** Mapping displays *)

Lemma ascii_inj a b : N_of_ascii a = N_of_ascii b -> a = b.
Proof. intros H. rewrite <- (ascii_N_embedding a), <- (ascii_N_embedding b). by rewrite H. Qed.

Lemma str_inj s t : str s = str t -> s = t.
Proof.
  revert t; induction s as [|a s IH]; intros [|b t] H; try discriminate H; [done |].
  unfold str in *. cbn in H. injection H as Ha Hs. f_equal; [by apply ascii_inj | by apply IH].
Qed.

#[global] Instance str_injective : Inj (=) (=) str.
Proof. exact str_inj. Qed.

Fixpoint sget (l : list (string * value)) (k : string) : value :=
  match l with
  | [] => VNone
  | (k', v) :: l' => if String.eqb k k' then v else sget l' k
  end.

Lemma get_obj (l : list (string * value)) k : get (fields l) k = sget l k.
Proof.
  unfold get, fields. induction l as [|[k' v] l IH]; [done |]. cbn [map dget sget].
  destruct (String.eqb_spec k k') as [->|Hk]; [by rewrite decide_True |].
  rewrite decide_False; [done |]. by intros ->%str_inj.
Qed.

Lemma keys_obj (l : list (string * value)) : keys (fields l) = map str (map fst l).
Proof. unfold keys, fields. rewrite !map_map. apply map_ext. by intros [k v]. Qed.

Lemma forallb_self (l : list pystr) : forallb (fun k => bool_decide (k ∈ l)) l = true.
Proof. apply forallb_forall. intros k Hk. apply bool_decide_eq_true. by apply list_elem_of_In. Qed.

Lemma strict_keys_obj (l : list (string * value)) field allowed :
  map fst l = allowed -> strict_keys (fields l) field allowed = Ok tt.
Proof. intros <-. unfold strict_keys. rewrite keys_obj, !forallb_self. done. Qed.

(** The fields of a display are read back. *)
Ltac read_fields :=
  rewrite ?get_obj; cbn [sget String.eqb Ascii.eqb Bool.eqb].

(** ** Field checks *)

Lemma mapping_dict v f d : mapping v f = Ok d -> v = VDict d.
Proof. by destruct v; intros [=->]. Qed.

Lemma constant_field_inv v s m u : constant_field v s m = Ok u -> v = vstr s.
Proof.
  unfold constant_field, vstr. intros H. inv_ok H. destruct v; simpl in *; split_bools; congruence.
Qed.

Lemma constant_field_ok s m : constant_field (vstr s) s m = Ok tt.
Proof. unfold constant_field, vstr. simpl. by rewrite bool_decide_true. Qed.

Lemma int_between_inv lo v f m z : int_between lo v f m = Ok z -> v = VInt z /\ lo <= z <= m.
Proof. destruct v; simpl; intros H; inv_ok H. split; [done | lia]. Qed.

Lemma int_between_ok lo f m z : lo <= z <= m -> int_between lo (VInt z) f m = Ok z.
Proof.
  intros H. simpl. rewrite (proj2 (Z.ltb_ge z lo)), (proj2 (Z.ltb_ge m z)) by lia. done.
Qed.

Definition UID_MAX : Z := 2 ^ 31 - 1.

Lemma id_number_inv k v f z : id_number k v f = Ok z -> v = VInt z /\ 0 <= z <= UID_MAX.
Proof. unfold UID_MAX. destruct v; simpl; intros H; inv_ok H. split; [done | lia]. Qed.

Lemma id_number_ok k f z : 0 <= z <= UID_MAX -> id_number k (VInt z) f = Ok z.
Proof.
  unfold UID_MAX. intros H. simpl.
  rewrite (proj2 (Z.ltb_ge z 0)), (proj2 (Z.ltb_ge _ z)) by lia. done.
Qed.

Lemma text_or_empty_str s : text_or_empty (VStr s) = s.
Proof. unfold text_or_empty. simpl. by case_bool_decide as E. Qed.

Lemma text_matching_inv r v m s : text_matching r v m = Ok s -> fullmatch r s = true.
Proof. unfold text_matching. intros H. inv_ok H. done. Qed.

Lemma text_matching_ok r m s : fullmatch r s = true -> text_matching r (VStr s) m = Ok s.
Proof. unfold text_matching. rewrite text_or_empty_str. by intros ->. Qed.

Lemma boolean_inv v f b : boolean v f = Ok b -> v = VBool b.
Proof. by destruct v; intros [=->]. Qed.

(** Non-empty, bounded, without control characters. *)
Definition safe (maximum : Z) (s : pystr) : Prop :=
  s <> [] /\ zlen s <= maximum /\ Forall (fun c => 32 <= c)%N s.

Lemma safe_text_inv v f m s : safe_text v f m = Ok s -> v = VStr s /\ safe m s.
Proof.
  destruct v; simpl; intros H; inv_ok H. split; [done |]. repeat split; [done | lia |].
  apply Forall_forall. intros c Hc. apply N.ltb_ge.
  match goal with H : existsb _ _ = false |- _ => rename H into He end.
  destruct (c <? 32)%N eqn:E; [|done]. rewrite (proj2 (existsb_exists _ s)) in He; [done |].
  exists c. split; [by apply list_elem_of_In | done].
Qed.

Lemma safe_text_ok f m s : safe m s -> safe_text (VStr s) f m = Ok s.
Proof.
  intros (Hs & Hl & Hc). simpl. rewrite bool_decide_false by done.
  rewrite (proj2 (Z.ltb_ge m _)) by lia.
  destruct (existsb _ s) eqn:E; [|done]. apply existsb_exists in E as (c & Hin & Hlt).
  rewrite Forall_forall in Hc. apply list_elem_of_In, Hc in Hin. apply N.ltb_lt in Hlt. lia.
Qed.

Lemma res_map_inv {A B} (f : A -> res B) l l' :
  res_map f l = Ok l' -> Forall2 (fun a b => f a = Ok b) l l'.
Proof.
  revert l'; induction l as [|a l IH]; intros l' H; simpl in H; inv_ok H; constructor; auto.
Qed.

Lemma res_map_ok {A B} (f : A -> res B) l l' :
  Forall2 (fun a b => f a = Ok b) l l' -> res_map f l = Ok l'.
Proof. induction 1 as [|a b l l' Hab _ IH]; [done |]. simpl. by rewrite Hab, IH. Qed.

(** What [sorted_unique_strings] accepts. *)
Record strings_ok (items len : Z) (allow_empty : bool) (l : list pystr) : Prop := StringsOk {
  strings_some : allow_empty = false -> l <> [];
  strings_count : zlen l <= items;
  strings_safe : Forall (safe len) l;
  strings_sorted : l = sort_strings l;
  strings_unique : NoDup l }.

Lemma sorted_unique_strings_inv v f items len b l :
  sorted_unique_strings v f items len b = Ok l -> v = vstrs l /\ strings_ok items len b l.
Proof.
  destruct v as [| | | | |vs|]; simpl; intros H; inv_ok H.
  match goal with H : res_map _ _ = Ok _ |- _ => apply res_map_inv in H as HF end.
  assert (vs = map VStr l /\ Forall (safe len) l) as [-> Hs].
  { clear -HF. induction HF as [|v s vs l Hvs _ [-> IH]]; [done |].
    apply safe_text_inv in Hvs as [-> Hs]. split; [done | by constructor]. }
  assert (Hl : zlen (map VStr l) = zlen l) by (unfold zlen; by rewrite length_map).
  split; [done |]. constructor; try done; [|lia].
  intros -> ->. by match goal with H : negb false && _ = false |- _ => vm_compute in H end.
Qed.

Lemma sorted_unique_strings_ok f items len b l :
  strings_ok items len b l -> sorted_unique_strings (vstrs l) f items len b = Ok l.
Proof.
  intros [H1 H2 H3 H4 H5]. unfold sorted_unique_strings, vstrs.
  assert (Hl : zlen (map VStr l) = zlen l) by (unfold zlen; by rewrite length_map).
  rewrite Hl, (proj2 (Z.ltb_ge items _)) by lia.
  assert (E : negb b && bool_decide (zlen l = 0) = false).
  { destruct b; [done |]. simpl. apply bool_decide_eq_false. unfold zlen.
    destruct l; [by specialize (H1 eq_refl) | simpl; lia]. }
  rewrite E. simpl. rewrite (res_map_ok _ _ l).
  2: { clear -H3. induction H3 as [|s l Hs _ IH]; constructor; [by apply safe_text_ok | done]. }
  rewrite (bool_decide_true (l = _)), (bool_decide_true (NoDup l)) by done. done.
Qed.

(** A normalised absolute path: what [absolute_path_text] accepts. *)
Definition normal_path (s : pystr) : Prop :=
  s <> [] /\ 0%N ∉ s /\ is_absolute (path_of s) = true /\
  str ".." ∉ (path_of s).(parts) /\ path_text (path_of s) = s.

Lemma lexical_absolute_path_inv v f p :
  lexical_absolute_path v f = Ok p ->
  exists s, v = VStr s /\ p = path_of s /\ normal_path s.
Proof.
  destruct v as [| | | |t| |]; simpl; intros H; inv_ok H.
  exists t. by repeat split.
Qed.

Lemma absolute_path_text_inv v f s :
  absolute_path_text v f = Ok s -> v = VStr s /\ normal_path s.
Proof.
  unfold absolute_path_text. intros H. inv_ok H.
  apply lexical_absolute_path_inv in E as (s & -> & -> & Hs).
  pose proof Hs as (_ & _ & _ & _ & ->). done.
Qed.

Lemma absolute_path_text_ok f s : normal_path s -> absolute_path_text (VStr s) f = Ok s.
Proof.
  intros (H1 & H2 & H3 & H4 & H5). unfold absolute_path_text, lexical_absolute_path.
  rewrite !bool_decide_false by done. rewrite H3. cbn [orb negb].
  rewrite bool_decide_true by done. cbn [negb]. by rewrite H5.
Qed.

(** ** Sections of the configuration *)

#[local] Hint Resolve constant_field_ok int_between_ok id_number_ok text_matching_ok
  absolute_path_text_ok sorted_unique_strings_ok : config.

(** Reads every field of a display and discharges its check. *)
Ltac accept_step :=
  read_fields;
  first
    [ rewrite strict_keys_obj by reflexivity
    | rewrite constant_field_ok
    | rewrite absolute_path_text_ok by eauto
    | rewrite text_matching_ok by eauto
    | rewrite sorted_unique_strings_ok by eauto
    | rewrite int_between_ok by lia
    | rewrite id_number_ok by (unfold UID_MAX in *; lia) ].

Ltac accept := unfold positive_int, nonnegative_int, uid, gid, boolean in *; repeat accept_step.

(** Inverts the checks of a section. *)
Ltac facts :=
  unfold positive_int, nonnegative_int, uid, gid in *;
  repeat match goal with
  | H : mapping _ _ = Ok _ |- _ => apply mapping_dict in H
  | H : constant_field _ _ _ = Ok _ |- _ => apply constant_field_inv in H
  | H : int_between _ _ _ _ = Ok _ |- _ => apply int_between_inv in H as [? ?]
  | H : id_number _ _ _ = Ok _ |- _ => apply id_number_inv in H as [? ?]
  | H : boolean _ _ = Ok _ |- _ => apply boolean_inv in H
  | H : text_matching _ _ _ = Ok _ |- _ => apply text_matching_inv in H
  | H : absolute_path_text _ _ = Ok _ |- _ => apply absolute_path_text_inv in H as [? ?]
  | H : sorted_unique_strings _ _ _ _ _ = Ok _ |- _ =>
      apply sorted_unique_strings_inv in H as [? ?]
  end.

Record transport_ok (broker_uid : Z) (t : Transport) : Prop := TransportOk {
  socket_normal : normal_path t.(socket_path);
  socket_short : exists n, fsencode_len t.(socket_path) = Ok n /\ n <= MAX_SOCKET_PATH_BYTES;
  requester_range : 0 <= t.(requester_uid) <= UID_MAX;
  requester_separate : t.(requester_uid) <> broker_uid;
  gid_range : 0 <= t.(submit_gid) <= UID_MAX;
  request_size : 1024 <= t.(max_request_bytes) <= MAX_SUBMISSION_BYTES;
  timeout_range : 1 <= t.(request_timeout_seconds) <= 60 }.

Lemma transport_sound v b t : config_transport v b = Ok t -> transport_ok b t.
Proof.
  unfold config_transport. intros H. inv_ok H. facts.
  constructor; simpl; try done; try lia. eexists; split; [eassumption | lia].
Qed.

Lemma transport_complete b t : transport_ok b t -> config_transport (transport_value t) b = Ok t.
Proof.
  intros [H1 [n [H2 H2']] H3 H4 H5 H6 H7]. unfold config_transport, transport_value, obj.
  cbn [mapping]. accept. rewrite H2. rewrite (proj2 (Z.ltb_ge _ n)) by done.
  accept. rewrite (proj2 (Z.eqb_neq _ b)) by done. accept.
  rewrite (proj2 (Z.ltb_ge _ 1024)) by lia. accept. by destruct t.
Qed.

Record github_app_ok (g : GithubApp) : Prop := GithubAppOk {
  app_id_range : 1 <= g.(app_id) <= INT64_MAX;
  app_slug_shape : fullmatch APP_SLUG_RE g.(app_slug) = true;
  installation_range : 1 <= g.(installation_id) <= INT64_MAX;
  github_key_normal : normal_path g.(github_private_key_path) }.

Lemma github_app_sound v g : config_github_app v = Ok g -> github_app_ok g.
Proof. unfold config_github_app. intros H. inv_ok H. facts. by constructor. Qed.

Lemma github_app_complete g : github_app_ok g -> config_github_app (github_app_value g) = Ok g.
Proof.
  intros [H1 H2 H3 H4]. unfold config_github_app, github_app_value, obj.
  cbn [mapping]. accept. by destruct g.
Qed.

Record receipt_signing_ok (github_key : pystr) (s : ReceiptSigning) : Prop := ReceiptSigningOk {
  key_id_shape : fullmatch TOKEN_RE s.(key_id) = true;
  private_key_normal : normal_path s.(receipt_private_key_path);
  public_key_normal : normal_path s.(receipt_public_key_path);
  fingerprint_shape : fullmatch SHA256_RE s.(public_key_sha256) = true;
  keys_distinct : NoDup [github_key; s.(receipt_private_key_path); s.(receipt_public_key_path)] }.

Lemma receipt_signing_sound v k s : config_receipt_signing v k = Ok s -> receipt_signing_ok k s.
Proof. unfold config_receipt_signing. intros H. inv_ok H. facts. by constructor. Qed.

Lemma receipt_signing_complete k s :
  receipt_signing_ok k s -> config_receipt_signing (receipt_signing_value s) k = Ok s.
Proof.
  intros [H1 H2 H3 H4 H5]. unfold config_receipt_signing, receipt_signing_value, obj.
  cbn [mapping]. accept. rewrite bool_decide_true by done. by destruct s.
Qed.

Lemma state_sound v others p : config_state v others = Ok p -> normal_path p /\ p ∉ others.
Proof. unfold config_state. intros H. inv_ok H. facts. done. Qed.

Lemma state_complete others p :
  normal_path p -> p ∉ others -> config_state (obj [("database_path", VStr p)]) others = Ok p.
Proof.
  intros H1 H2. unfold config_state, obj. cbn [mapping]. accept.
  by rewrite bool_decide_false.
Qed.

Record repository_ok (r : Repository) : Prop := RepositoryOk {
  full_name_shape : fullmatch REPO_RE r.(full_name) = true;
  repository_id_range : 1 <= r.(repository_id) <= INT64_MAX;
  branch_shape : fullmatch BRANCH_RE r.(default_branch) = true }.

Lemma repository_sound v r : config_repository v = Ok r -> repository_ok r.
Proof. unfold config_repository. intros H. inv_ok H. facts. by constructor. Qed.

Lemma repository_complete r : repository_ok r -> config_repository (repository_value r) = Ok r.
Proof.
  intros [H1 H2 H3]. unfold config_repository, repository_value, obj.
  cbn [mapping]. accept. by destruct r.
Qed.

(** A relative path prefix without wildcards, empty components or dots. *)
Definition prefix_ok (s : pystr) : Prop :=
  forall field, forbidden_prefix s field = Ok s.

Lemma forbidden_prefix_inv s f t : forbidden_prefix s f = Ok t -> t = s /\ prefix_ok s.
Proof.
  unfold prefix_ok, forbidden_prefix. intros H. inv_ok H. split; [done |]. intros f'.
  repeat match goal with H : _ = false |- _ => rewrite H; clear H end. done.
Qed.

Record policy_ok (p : Policy) : Prop := PolicyOk {
  actions_ok : strings_ok (zlen ALLOWED_ACTIONS) 64 false p.(allowed_actions);
  actions_known : Forall (fun a => a ∈ ALLOWED_ACTIONS) p.(allowed_actions);
  author_shape : fullmatch LOGIN_RE p.(expected_author) = true;
  checks_ok : strings_ok 128 256 true p.(required_checks);
  checks_named : p.(required_checks) <> [] \/ p.(allow_no_checks) = true;
  prefixes_ok : strings_ok 128 512 false p.(forbidden_prefixes);
  prefixes_shape : Forall prefix_ok p.(forbidden_prefixes);
  skew_range : 0 <= p.(maximum_clock_skew) <= MAX_CLOCK_SKEW_SECONDS;
  conclusions_ok :
    strings_ok (zlen ACCEPTED_GREEN_CHECK_CONCLUSIONS) 32 false p.(accepted_conclusions);
  success_accepted : str "SUCCESS" ∈ p.(accepted_conclusions);
  conclusions_green : Forall (fun c => c ∈ ACCEPTED_GREEN_CHECK_CONCLUSIONS) p.(accepted_conclusions);
  changed_range : 1 <= p.(maximum_changed_files) <= 10000;
  remaining_range : 1 <= p.(minimum_rate_limit_remaining) <= 100000;
  ttl_range : MIN_PACKET_TTL_SECONDS <= p.(maximum_packet_ttl) <= MAX_PACKET_TTL_SECONDS }.

Lemma forallb_in (l m : list pystr) :
  forallb (fun a => bool_decide (a ∈ m)) l = true <-> Forall (fun a => a ∈ m) l.
Proof.
  rewrite forallb_forall, Forall_forall.
  split; intros H x Hx; specialize (H x); rewrite <- list_elem_of_In in *.
  - by apply (bool_decide_eq_true (x ∈ m)), H.
  - by apply bool_decide_eq_true, H.
Qed.

Lemma policy_subjects_sound d actions author checks none :
  policy_subjects d = Ok (actions, author, checks, none) ->
  strings_ok (zlen ALLOWED_ACTIONS) 64 false actions /\
  Forall (fun a => a ∈ ALLOWED_ACTIONS) actions /\ fullmatch LOGIN_RE author = true /\
  strings_ok 128 256 true checks /\ (checks <> [] \/ none = true).
Proof.
  unfold policy_subjects. intros H. inv_ok H. facts. split_and!; try done.
  - by apply forallb_in.
  - destruct none; [by right | left]. intros ->.
    by match goal with H : bool_decide _ && _ = false |- _ => vm_compute in H end.
Qed.

Lemma policy_paths_sound d prefixes :
  policy_paths d = Ok prefixes ->
  strings_ok 128 512 false prefixes /\ Forall prefix_ok prefixes.
Proof.
  unfold policy_paths. intros H. inv_ok H. facts.
  match goal with H : res_map (fun _ => forbidden_prefix _ _) _ = _ |- _ =>
    apply res_map_inv in H as HF end.
  assert (prefixes = a /\ Forall prefix_ok a) as [-> Hp]; [|done].
  match goal with H : strings_ok _ _ _ _ |- _ => clear - HF end.
  induction HF as [|s t l l' Hs _ [-> IH]]; [done |].
  apply forbidden_prefix_inv in Hs as [-> Hs]. split; [done | by constructor].
Qed.

Lemma policy_conclusions_sound d l :
  policy_conclusions d = Ok l ->
  strings_ok (zlen ACCEPTED_GREEN_CHECK_CONCLUSIONS) 32 false l /\
  str "SUCCESS" ∈ l /\ Forall (fun c => c ∈ ACCEPTED_GREEN_CHECK_CONCLUSIONS) l.
Proof.
  unfold policy_conclusions. intros H. inv_ok H. facts. split_and!; try done.
  by apply forallb_in.
Qed.

Lemma policy_sound v p : config_policy v = Ok p -> policy_ok p.
Proof.
  unfold config_policy. intros H. inv_ok H. facts.
  repeat match goal with
  | H : policy_subjects _ = Ok _ |- _ => apply policy_subjects_sound in H as (? & ? & ? & ? & ?)
  | H : policy_paths _ = Ok _ |- _ => apply policy_paths_sound in H as (? & ?)
  | H : policy_conclusions _ = Ok _ |- _ => apply policy_conclusions_sound in H as (? & ? & ?)
  end.
  constructor; simpl; try done; lia.
Qed.

(** The three switches of a display. *)
Lemma remains_enabled_ok (l : list (string * value)) f :
  sget l f = VBool true -> remains_enabled (fields l) f = Ok tt.
Proof. intros H. unfold remains_enabled. by rewrite get_obj, H. Qed.

Lemma policy_complete p : policy_ok p -> config_policy (policy_value p) = Ok p.
Proof.
  intros [H1 H2 H3 H4 H5 H6 H7 H8 H9 H10 H11 H12 H13 H14].
  assert (Httl : 1 <= maximum_packet_ttl p) by (unfold MIN_PACKET_TTL_SECONDS in *; lia).
  unfold config_policy, policy_value, obj. cbn [mapping].
  unfold policy_subjects, policy_paths, policy_conclusions. accept.
  rewrite (proj2 (forallb_in _ _)) by done. cbn [negb]. accept.
  assert (E : bool_decide (required_checks p = []) && negb (allow_no_checks p) = false).
  { destruct H5 as [H5|H5]; [by rewrite bool_decide_false | by rewrite H5, andb_false_r]. }
  rewrite E. accept. rewrite (res_map_ok _ _ (forbidden_prefixes p)).
  2: { clear -H7. induction H7 as [|s l Hs _ IH]; constructor; [apply Hs | done]. }
  cbn [res_map]. rewrite !remains_enabled_ok by reflexivity. accept.
  rewrite bool_decide_true, (proj2 (forallb_in _ _)) by done. cbn [negb orb]. accept.
  rewrite (proj2 (Z.ltb_ge _ MIN_PACKET_TTL_SECONDS)) by lia. by destruct p.
Qed.

Record budgets_ok (b : Budgets) : Prop := BudgetsOk {
  requests_range : 1 <= b.(budget_requests_per_hour) <= 10000;
  mutations_range : 1 <= b.(mutation_attempts_per_day) <= 10000;
  ready_range : 1 <= b.(daily_mark_ready) <= b.(mutation_attempts_per_day);
  resolve_range : 1 <= b.(daily_resolve) <= b.(mutation_attempts_per_day);
  consecutive_range : 1 <= b.(consecutive_indeterminate) <= 20 }.

Lemma budgets_sound v b : config_budgets v = Ok b -> budgets_ok b.
Proof. unfold config_budgets. intros H. inv_ok H. facts. constructor; simpl; lia. Qed.

Lemma budgets_complete b : budgets_ok b -> config_budgets (budgets_value b) = Ok b.
Proof.
  intros [H1 H2 H3 H4 H5]. unfold config_budgets, budgets_value, obj. cbn [mapping]. accept.
  rewrite (proj2 (Z.ltb_ge _ (daily_mark_ready b))), (proj2 (Z.ltb_ge _ (daily_resolve b)))
    by lia.
  cbn [orb]. accept. by destruct b.
Qed.

(** ** The whole configuration *)

Record config_ok (c : Config) : Prop := ConfigOk {
  broker_id_shape : fullmatch TOKEN_RE c.(broker_id) = true;
  broker_uid_range : 0 <= c.(broker_uid) <= UID_MAX;
  transport_valid : transport_ok c.(broker_uid) c.(transport);
  github_app_valid : github_app_ok c.(github_app);
  receipt_signing_valid :
    receipt_signing_ok c.(github_app).(github_private_key_path) c.(receipt_signing);
  database_normal : normal_path c.(database_path);
  database_separate : c.(database_path) ∉
    [c.(github_app).(github_private_key_path); c.(receipt_signing).(receipt_private_key_path);
     c.(receipt_signing).(receipt_public_key_path); c.(transport).(socket_path)];
  slug_shape : fullmatch INSTANCE_SLUG_RE c.(slug) = true;
  repository_valid : repository_ok c.(repository);
  policy_valid : policy_ok c.(policy);
  budgets_valid : budgets_ok c.(budgets) }.

Lemma config_sound raw c : normalize_config raw = Ok c -> config_ok c.
Proof.
  unfold normalize_config, config_header, config_instance. intros H. inv_ok H.
  repeat match goal with H : _ = Ok _ |- _ => progress inv_ok H end. facts.
  repeat match goal with
  | H : config_transport _ _ = Ok _ |- _ => apply transport_sound in H
  | H : config_github_app _ = Ok _ |- _ => apply github_app_sound in H
  | H : config_receipt_signing _ _ = Ok _ |- _ => apply receipt_signing_sound in H
  | H : config_state _ _ = Ok _ |- _ => apply state_sound in H as [? ?]
  | H : config_repository _ = Ok _ |- _ => apply repository_sound in H
  | H : config_policy _ = Ok _ |- _ => apply policy_sound in H
  | H : config_budgets _ = Ok _ |- _ => apply budgets_sound in H
  end.
  by constructor.
Qed.

Lemma config_complete c : config_ok c -> normalize_config (config_value c) = Ok c.
Proof.
  intros [H1 H2 H3 H4 H5 H6 H7 H8 H9 H10 H11].
  unfold normalize_config, config_value, obj. cbn [mapping].
  unfold config_header, config_instance. accept.
  rewrite transport_complete by done. accept. rewrite github_app_complete by done. accept.
  rewrite receipt_signing_complete by done. accept.
  change (VDict (fields [("database_path"%string, VStr (database_path c))]))
    with (obj [("database_path"%string, VStr (database_path c))]).
  rewrite state_complete by done. read_fields. cbn [mapping]. accept.
  rewrite repository_complete, policy_complete, budgets_complete by done. by destruct c.
Qed.
