(* ===== verification/Submission.v ===== *)
(** * Protected packets and submissions at the protocol boundary

    The second part of broker/john_lomein_broker_protocol.py: [_github_url],
    [_normalize_packet_request] split along the parts of a request,
    [verify_protected_packet], [normalize_submission] and the evidence marker.
    A parsed timestamp is an epoch in seconds; the clock is read in
    microseconds, the resolution of [datetime].  Normalised packets are records;
    [packet_value] is the mapping the source returns. *)

From S2P Require Import Prelude Regex Sha256 PyTime PyUrl Json Protocol.
From stdpp Require Import pretty.
Local Open Scope Z_scope.

(** ** Constants *)

Definition SUBMISSION_SCHEMA : string := "john-lomein.protected-broker-submit.v1".
Definition PACKET_INPUT_SCHEMA : string := "john-lomein.protected-action-input.v1".
Definition PACKET_SCHEMA : string := "john-lomein.protected-action-packet.v1".
Definition PACKET_AUTHORITY : string := "request_only_no_execution_authority".
Definition PACKET_REQUESTER : string := "john-lomein-maintainer".
Definition EVIDENCE_MARKER_PREFIX : string := "<!-- john-lomein-protected-evidence:v1 ".
Definition MAX_PACKET_EVIDENCE_AGE_SECONDS : Z := 3600.

(** ** Time *)

Definition parse_utc (v : value) (field : string) : res Z :=
  let e := BrokerProtocolError (field +:+ " must be a UTC timestamp") in
  match v with
  | VStr s => match strptime s with Some epoch => Ok epoch | None => Raise e end
  | _ => Raise e
  end.

(** Microseconds of an epoch in seconds. *)
Definition us (seconds : Z) : Z := seconds * 1000000.

(** [datetime + timedelta(seconds=s)]: years 1 to 9999. *)
Definition add_seconds (instant s : Z) : res Z :=
  let r := instant + us s in
  raise_if (r <? us (-62135596800)) || (us 253402300800 <=? r) with OverflowError ;;
  Ok r.

(** The [now] argument: absent, a timezone-aware [datetime] (its UTC instant in
    microseconds), or anything else. *)
Inductive clock :=
| Unset
| Aware (instant : Z)
| Unaware.

(** [utcnow] is what [datetime.now(timezone.utc)] reads. *)
Definition current_utc (now : clock) (utcnow : Z) : res Z :=
  match now with
  | Unset => Ok utcnow
  | Aware instant => Ok instant
  | Unaware => Raise (BrokerProtocolError "broker clock value must be timezone-aware")
  end.

(** ** URLs of the bound pull request *)

Inductive url_kind := UrlPr | UrlEvidence | UrlThread.

Definition positive_decimal : re :=
  RSeq (RCls (in_range "1" "9")) (RStar (RCls digit)).

Definition fragment_re (kind : url_kind) : option re :=
  match kind with
  | UrlPr => None
  | UrlEvidence => Some (RSeq (rlit "issuecomment-") positive_decimal)
  | UrlThread => Some (RSeq (rlit "discussion_r") positive_decimal)
  end.

Definition expected_path (repo : pystr) (pr_number : Z) : pystr :=
  str "/" ++ repo ++ str "/pull/" ++ dec pr_number.

(** [user] and [password]: the netloc has an ["@"]; its text before the last
    one is split at the first colon. *)
Definition userinfo (netloc : pystr) : pystr * pystr :=
  match rcut (ch_of "@") netloc with
  | Some (info, _) => match cut (ch_of ":") info with Some up => up | None => (info, []) end
  | None => ([], [])
  end.

Definition non_empty (s : pystr) : bool := negb (bool_decide (s = [])).

Definition github_url (v : value) (field : string) (repo : pystr) (pr_number : Z)
    (kind : url_kind) : res pystr :=
  let e := BrokerProtocolError (field +:+ " must be a GitHub URL") in
  let* s := match v with
    | VStr s => raise_if 2048 <? zlen s with e ;; Ok s
    | _ => Raise e
    end in
  let* parsed := urlparse s in
  raise_if negb (bool_decide (parsed.(scheme) = str "https")) ||
           negb (bool_decide (lower_text parsed.(netloc) = str "github.com")) ||
           negb (bool_decide (parsed.(url_path) = expected_path repo pr_number)) ||
           non_empty (userinfo parsed.(netloc)).1 ||
           non_empty (userinfo parsed.(netloc)).2 ||
           non_empty parsed.(query) || non_empty parsed.(params) ||
           match fragment_re kind with
           | None => non_empty parsed.(fragment)
           | Some r => negb (fullmatch r parsed.(fragment))
           end
    with (BrokerProtocolError (field +:+ " must target the bound PR")) ;;
  let suffix := if non_empty parsed.(fragment) then str "#" ++ parsed.(fragment) else [] in
  Ok (str "https://github.com" ++ expected_path repo pr_number ++ suffix).

(** ** Requests *)

Record PullRequest := {
  pr_number : Z; pr_url : pystr; base_branch : pystr; head_sha : pystr;
  author_login : pystr; is_draft : bool }.

Record Preconditions := {
  checks_state : pystr; thread_count : Z; commands_sha256 : pystr; result_sha256 : pystr;
  evidence_url : pystr }.

Record Request := {
  instance_slug : pystr; action : pystr; observed_at : pystr; repo : pystr;
  pr : PullRequest; preconditions : Preconditions;
  thread_node_ids : list pystr; thread_urls : list pystr }.

Definition REQUEST_KEYS : list string :=
  ["schema_version"; "instance_slug"; "action"; "observed_at"; "repo"; "pr";
   "preconditions"; "targets"].

(** The first fields: instance, action, instant of observation, repository. *)
Definition request_header (request : dict) : res (pystr * pystr * pystr * pystr) :=
  let* _ := strict_keys request "protected-action request" REQUEST_KEYS in
  let* _ := constant_field (get request "schema_version") PACKET_INPUT_SCHEMA
    "protected-action request schema is unsupported" in
  let* instance_slug := text_matching INSTANCE_SLUG_RE (get request "instance_slug")
    "protected-action instance slug is invalid" in
  let action := text_or_empty (get request "action") in
  raise_if negb (bool_decide (action ∈ ALLOWED_ACTIONS))
    with (BrokerProtocolError "protected action is unsupported") ;;
  let* observed := parse_utc (get request "observed_at") "protected-action observed_at" in
  let* repo := text_matching REPO_RE (get request "repo")
    "protected-action repository is invalid" in
  Ok (instance_slug, action, utc_text observed, repo).

Definition PR_KEYS : list string :=
  ["number"; "url"; "base_branch"; "head_sha"; "author_login"; "is_draft"].

Definition request_pr (v : value) (repo : pystr) : res PullRequest :=
  let* pr := mapping v "protected-action PR" in
  let* _ := strict_keys pr "protected-action PR" PR_KEYS in
  let* pr_number := positive_int (get pr "number") "protected-action PR number" INT64_MAX in
  let* pr_url := github_url (get pr "url") "protected-action PR URL" repo pr_number UrlPr in
  let* base_branch := text_matching BRANCH_RE (get pr "base_branch")
    "protected-action base branch is invalid" in
  let head_sha := lower_text (text_or_empty (get pr "head_sha")) in
  raise_if negb (fullmatch OID_RE head_sha)
    with (BrokerProtocolError "protected-action head SHA is invalid") ;;
  let* author_login := text_matching LOGIN_RE (get pr "author_login")
    "protected-action PR author is invalid" in
  let* is_draft := boolean (get pr "is_draft") "protected-action PR is_draft" in
  Ok {| pr_number := pr_number; pr_url := pr_url; base_branch := base_branch;
        head_sha := head_sha; author_login := author_login; is_draft := is_draft |}.

(** [v is True] *)
Definition is_true (v : value) : bool := match v with VBool true => true | _ => false end.

Definition PRECONDITION_KEYS : list string :=
  ["checks_state"; "unresolved_thread_count"; "forbidden_paths_clear";
   "bot_authorship_verified"; "verification"; "evidence_comment_url"].

Definition unresolved_count (v : value) : res Z :=
  let e := BrokerProtocolError "protected-action unresolved thread count is invalid" in
  match v with
  | VInt z => raise_if (z <? 0) || (10000 <? z) with e ;; Ok z
  | _ => Raise e
  end.

(** The [verification] member: the digests of the commands and of the result. *)
Definition request_verification (v : value) : res (pystr * pystr) :=
  let* verification := mapping v "protected-action verification" in
  let* _ := strict_keys verification "protected-action verification"
    ["passed"; "commands_sha256"; "result_sha256"] in
  raise_if negb (is_true (get verification "passed"))
    with (BrokerProtocolError "protected-action verification must have passed") ;;
  let commands_sha256 := text_or_empty (get verification "commands_sha256") in
  let result_sha256 := text_or_empty (get verification "result_sha256") in
  raise_if negb (fullmatch SHA256_RE commands_sha256) || negb (fullmatch SHA256_RE result_sha256)
    with (BrokerProtocolError "protected-action verification digest is invalid") ;;
  Ok (commands_sha256, result_sha256).

Definition request_preconditions (v : value) (repo : pystr) (pr_number : Z) :
    res Preconditions :=
  let* preconditions := mapping v "protected-action preconditions" in
  let* _ := strict_keys preconditions "protected-action preconditions" PRECONDITION_KEYS in
  let checks_state := text_or_empty (get preconditions "checks_state") in
  raise_if negb (bool_decide (checks_state ∈ [str "success"; str "none"]))
    with (BrokerProtocolError "protected-action checks state is invalid") ;;
  let* thread_count := unresolved_count (get preconditions "unresolved_thread_count") in
  raise_if negb (is_true (get preconditions "forbidden_paths_clear"))
    with (BrokerProtocolError "protected-action forbidden-path proof is required") ;;
  raise_if negb (is_true (get preconditions "bot_authorship_verified"))
    with (BrokerProtocolError "protected-action bot-authorship proof is required") ;;
  let* (commands_sha256, result_sha256) :=
    request_verification (get preconditions "verification") in
  let* evidence_url := github_url (get preconditions "evidence_comment_url")
    "protected-action evidence comment URL" repo pr_number UrlEvidence in
  Ok {| checks_state := checks_state; thread_count := thread_count;
        commands_sha256 := commands_sha256; result_sha256 := result_sha256;
        evidence_url := evidence_url |}.

(** The loop over [enumerate(node_ids)]; the lists have the same length. *)
Fixpoint normalize_targets (repo : pystr) (pr_number : Z) (index : N)
    (node_ids urls : list value) : res (list pystr * list pystr) :=
  match node_ids, urls with
  | [], _ => Ok ([], [])
  | _ :: _, [] => Raise IndexError
  | node_id :: node_ids', u :: urls' =>
      let e := BrokerProtocolError
        ("protected-action thread node id " +:+ pretty index +:+ " is invalid") in
      let* id := match node_id with
        | VStr s => raise_if negb (fullmatch TOKEN_RE s) with e ;; Ok s
        | _ => Raise e
        end in
      let* url := github_url u ("protected-action thread URL " +:+ pretty index)
        repo pr_number UrlThread in
      let* (ids, us) := normalize_targets repo pr_number (index + 1) node_ids' urls' in
      Ok (id :: ids, url :: us)
  end.

Definition request_targets (v : value) (repo : pystr) (pr_number : Z) :
    res (list pystr * list pystr) :=
  let* targets := mapping v "protected-action targets" in
  let* _ := strict_keys targets "protected-action targets" ["thread_node_ids"; "thread_urls"] in
  match get targets "thread_node_ids", get targets "thread_urls" with
  | VList node_ids, VList urls =>
      raise_if negb (length node_ids =? length urls)%nat || (50 <? length node_ids)%nat
        with (BrokerProtocolError "protected-action thread targets are inconsistent") ;;
      let* (ids, us) := normalize_targets repo pr_number 0 node_ids urls in
      raise_if negb (bool_decide (NoDup ids))
        with (BrokerProtocolError "protected-action thread node IDs must be unique") ;;
      Ok (ids, us)
  | _, _ => Raise (BrokerProtocolError "protected-action thread targets must be arrays")
  end.

(** The action against the preconditions and the targets. *)
Definition action_consistent (action : pystr) (is_draft : bool) (thread_count : Z)
    (ids : list pystr) : res unit :=
  if bool_decide (action = MARK_PR_READY) then
    raise_if negb is_draft || negb (thread_count =? 0) || negb (bool_decide (ids = []))
      with (BrokerProtocolError "mark_pr_ready packet preconditions are inconsistent") ;;
    Ok tt
  else
    raise_if bool_decide (ids = []) || (thread_count <? zlen ids)
      with (BrokerProtocolError "resolve_review_thread packet targets are inconsistent") ;;
    Ok tt.

Definition normalize_packet_request (raw : value) : res Request :=
  let* request := mapping raw "protected-action request" in
  let* (instance_slug, action, observed_at, repo) := request_header request in
  let* pr := request_pr (get request "pr") repo in
  let* preconditions := request_preconditions (get request "preconditions") repo pr.(pr_number) in
  let* (ids, urls) := request_targets (get request "targets") repo pr.(pr_number) in
  let* _ := action_consistent action pr.(is_draft) preconditions.(thread_count) ids in
  Ok {| instance_slug := instance_slug; action := action; observed_at := observed_at;
        repo := repo; pr := pr; preconditions := preconditions;
        thread_node_ids := ids; thread_urls := urls |}.

Definition pr_value (p : PullRequest) : value :=
  obj [("number", VInt p.(pr_number));
       ("url", VStr p.(pr_url));
       ("base_branch", VStr p.(base_branch));
       ("head_sha", VStr p.(head_sha));
       ("author_login", VStr p.(author_login));
       ("is_draft", VBool p.(is_draft))].

Definition preconditions_value (p : Preconditions) : value :=
  obj [("checks_state", VStr p.(checks_state));
       ("unresolved_thread_count", VInt p.(thread_count));
       ("forbidden_paths_clear", VBool true);
       ("bot_authorship_verified", VBool true);
       ("verification", obj [("passed", VBool true);
                             ("commands_sha256", VStr p.(commands_sha256));
                             ("result_sha256", VStr p.(result_sha256))]);
       ("evidence_comment_url", VStr p.(evidence_url))].

Definition targets_value (r : Request) : value :=
  obj [("thread_node_ids", vstrs r.(thread_node_ids));
       ("thread_urls", vstrs r.(thread_urls))].

Definition request_value (r : Request) : value :=
  obj [("schema_version", vstr PACKET_INPUT_SCHEMA);
       ("instance_slug", VStr r.(instance_slug));
       ("action", VStr r.(action));
       ("observed_at", VStr r.(observed_at));
       ("repo", VStr r.(repo));
       ("pr", pr_value r.(pr));
       ("preconditions", preconditions_value r.(preconditions));
       ("targets", targets_value r)].

(** ** Packets *)

Record Packet := {
  created_at : pystr; expires_at : pystr; request : Request;
  packet_id : pystr; request_digest : pystr }.

Definition PACKET_KEYS : list string :=
  ["schema_version"; "authority"; "requested_by"; "created_at"; "expires_at"; "request";
   "packet_id"; "request_digest"].

Definition packet_header (packet : dict) : res unit :=
  let* _ := strict_keys packet "protected-action packet" PACKET_KEYS in
  let* _ := constant_field (get packet "schema_version") PACKET_SCHEMA
    "protected-action packet schema is unsupported" in
  let* _ := constant_field (get packet "authority") PACKET_AUTHORITY
    "protected-action packet authority is invalid" in
  constant_field (get packet "requested_by") PACKET_REQUESTER
    "protected-action packet requester is invalid".

(** Creation and expiry, and the lifetime between them. *)
Definition packet_window (packet : dict) : res (Z * Z) :=
  let* created := parse_utc (get packet "created_at") "protected-action packet created_at" in
  let* expires := parse_utc (get packet "expires_at") "protected-action packet expires_at" in
  let ttl_seconds := expires - created in
  raise_if (ttl_seconds <? MIN_PACKET_TTL_SECONDS) || (MAX_PACKET_TTL_SECONDS <? ttl_seconds)
    with (BrokerProtocolError "protected-action packet lifetime is invalid") ;;
  Ok (created, expires).

(** The observation against the creation: [or] evaluates its second operand
    only when the first is false. *)
Definition evidence_fresh (observed created : Z) : res unit :=
  let e := BrokerProtocolError "protected-action evidence is outside the freshness window" in
  let* latest := add_seconds (us created) MAX_CLOCK_SKEW_SECONDS in
  raise_if latest <? us observed with e ;;
  let* earliest := add_seconds (us created) (- MAX_PACKET_EVIDENCE_AGE_SECONDS) in
  raise_if us observed <? earliest with e ;;
  Ok tt.

Definition packet_body (created_at expires_at : pystr) (request : Request) :
    list (string * value) :=
  [("schema_version", vstr PACKET_SCHEMA);
   ("authority", vstr PACKET_AUTHORITY);
   ("requested_by", vstr PACKET_REQUESTER);
   ("created_at", VStr created_at);
   ("expires_at", VStr expires_at);
   ("request", request_value request)].

Definition packet_dict (p : Packet) : dict :=
  fields (packet_body p.(created_at) p.(expires_at) p.(request) ++
          [("packet_id", VStr p.(packet_id)); ("request_digest", VStr p.(request_digest))]).

Definition packet_value (p : Packet) : value := VDict (packet_dict p).

(** The packet against the clock. *)
Definition packet_current (created expires current : Z) : res unit :=
  let* horizon := add_seconds current MAX_CLOCK_SKEW_SECONDS in
  raise_if horizon <? us created
    with (BrokerProtocolError "protected-action packet creation time is in the future") ;;
  raise_if us expires <=? current
    with (BrokerProtocolError "protected-action packet has expired") ;;
  Ok tt.

Definition verify_protected_packet (raw : value) (now : clock) (utcnow : Z) : res Packet :=
  let* packet := mapping raw "protected-action packet" in
  let* _ := packet_header packet in
  let* (created, expires) := packet_window packet in
  let* request := normalize_packet_request (get packet "request") in
  let* observed := parse_utc (VStr request.(observed_at)) "protected-action observed_at" in
  let* _ := evidence_fresh observed created in
  let body := packet_body (utc_text created) (utc_text expires) request in
  let* digest := sha256_json (obj body) in
  let packet_id := str "jlpa-" ++ take 24 digest in
  raise_if negb (py_eq (get packet "request_digest") (VStr digest))
    with (BrokerProtocolError "protected-action packet digest does not match") ;;
  raise_if negb (py_eq (get packet "packet_id") (VStr packet_id))
    with (BrokerProtocolError "protected-action packet ID does not match") ;;
  let* current := current_utc now utcnow in
  let* _ := packet_current created expires current in
  Ok {| created_at := utc_text created; expires_at := utc_text expires; request := request;
        packet_id := packet_id; request_digest := digest |}.

(** ** Submissions *)

(** The request against the configured instance and its policy. *)
Definition submission_policy (request : Request) (config : Config) : res unit :=
  let policy := config.(policy) in
  let repository := config.(repository) in
  raise_if negb (bool_decide (request.(instance_slug) = config.(slug)))
    with (BrokerProtocolError "broker submission instance does not match") ;;
  raise_if negb (bool_decide (request.(repo) = repository.(full_name)))
    with (BrokerProtocolError "broker submission repository does not match") ;;
  raise_if negb (bool_decide (request.(pr).(base_branch) = repository.(default_branch)))
    with (BrokerProtocolError "broker submission default branch does not match") ;;
  raise_if negb (bool_decide (request.(pr).(author_login) = policy.(expected_author)))
    with (BrokerProtocolError "broker submission PR author does not match policy") ;;
  raise_if negb (bool_decide (request.(action) ∈ policy.(allowed_actions)))
    with (BrokerProtocolError "broker submission action is not allowed") ;;
  raise_if bool_decide (request.(preconditions).(checks_state) = str "none") &&
           negb policy.(allow_no_checks)
    with (BrokerProtocolError "broker submission cannot claim absent checks") ;;
  Ok tt.

(** The packet's times against the policy; the clock is read again. *)
Definition submission_times (packet : Packet) (policy : Policy) (now : clock) (utcnow : Z) :
    res unit :=
  let* created := parse_utc (VStr packet.(created_at)) "protected-action packet created_at" in
  let* expires := parse_utc (VStr packet.(expires_at)) "protected-action packet expires_at" in
  raise_if policy.(maximum_packet_ttl) <? expires - created
    with (BrokerProtocolError "broker submission packet exceeds the policy TTL") ;;
  let* current := current_utc now utcnow in
  let* horizon := add_seconds current policy.(maximum_clock_skew) in
  raise_if horizon <? us created
    with (BrokerProtocolError "broker submission exceeds the policy clock skew") ;;
  Ok tt.

Definition submission_threads (request : Request) : res unit :=
  if bool_decide (request.(action) = RESOLVE_REVIEW_THREAD) then
    raise_if negb (length request.(thread_node_ids) =? 1)%nat
      with (BrokerProtocolError "broker v1 requires exactly one review thread") ;;
    Ok tt
  else
    raise_if negb (bool_decide (request.(thread_node_ids) = []))
      with (BrokerProtocolError "mark_pr_ready cannot contain review-thread targets") ;;
    Ok tt.

(** [utcnow1] and [utcnow2] are the two reads of the system clock made when
    [now] is absent. *)
Definition normalize_submission (raw config : value) (now : clock) (utcnow1 utcnow2 : Z) :
    res Packet :=
  let* normalized_config := normalize_config config in
  let* submission := mapping raw "broker submission" in
  let* _ := strict_keys submission "broker submission" ["schema_version"; "packet"] in
  let* _ := constant_field (get submission "schema_version") SUBMISSION_SCHEMA
    "broker submission schema is unsupported" in
  raise_if negb normalized_config.(enabled)
    with (BrokerProtocolError "protected broker is disabled") ;;
  let* packet := verify_protected_packet (get submission "packet") now utcnow1 in
  let* _ := submission_policy packet.(request) normalized_config in
  let* _ := submission_times packet normalized_config.(policy) now utcnow2 in
  let* _ := submission_threads packet.(request) in
  Ok packet.

(** What [normalize_submission] returns. *)
Definition submission_value (p : Packet) : value :=
  obj [("schema_version", vstr SUBMISSION_SCHEMA); ("packet", packet_value p)].

(** ** The evidence marker *)

Definition evidence_marker (request : Request) : pystr :=
  str EVIDENCE_MARKER_PREFIX ++
  str "instance=" ++ request.(instance_slug) ++
  str " action=" ++ request.(action) ++
  str " head=" ++ request.(pr).(head_sha) ++
  str " commands=" ++ request.(preconditions).(commands_sha256) ++
  str " result=" ++ request.(preconditions).(result_sha256) ++ str " -->".

Definition evidence_marker_for_packet (packet : value) : res pystr :=
  let* d := mapping packet "protected-action packet" in
  let* created := parse_utc (get d "created_at") "protected-action packet created_at" in
  let* verified := verify_protected_packet packet (Aware (us created)) 0 in
  Ok (evidence_marker verified.(request)).
