(* ===== verification/UrlFacts.v ===== *)
(** * The URLs the protocol writes are the ones it accepts

    Parsing the canonical URL of a pull request, of one of its comments or of
    a review thread gives its parts back; [github_url] returns canonical URLs
    only and is the identity on them. *)

From S2P Require Import Prelude Regex PyTime PyUrl Json JsonFacts Protocol ConfigFacts Submission.
Local Open Scope Z_scope.

(** ** Alphabets *)

Lemma ascii_cases (f g : N -> bool) :
  forallb (fun a => implb (f a) (g a)) (map N.of_nat (seq 0 128)) = true ->
  forall a, (a < 128)%N -> f a = true -> g a = true.
Proof.
  rewrite forallb_forall. intros H a Ha Hf. specialize (H a).
  rewrite Hf in H. apply H. apply in_map_iff. exists (N.to_nat a).
  split; [by rewrite N2Nat.id | apply in_seq; lia].
Qed.

Definition urlsafe : N -> bool := alnum_or "_.-/".

Lemma urlsafe_lt a : urlsafe a = true -> (a < 128)%N.
Proof.
  intros H. assert (plain a) as [? _]; [|lia].
  by apply (alnum_or_plain "_.-/" a).
Qed.

(** What the URL parser treats specially. *)
Definition special (a : N) : bool := (a <=? 32)%N || one_of "#?:;[]@%" a.

Lemma urlsafe_not_special a : urlsafe a = true -> special a = false.
Proof.
  intros H. apply negb_true_iff.
  apply (ascii_cases urlsafe (fun a => negb (special a))); [vm_compute; reflexivity | | done].
  by apply urlsafe_lt.
Qed.

Lemma alnum_urlsafe a : alnum a = true -> urlsafe a = true.
Proof. unfold urlsafe, alnum_or. by intros ->. Qed.

Lemma alnum_or_urlsafe s a :
  forallb urlsafe (str s) = true -> alnum_or s a = true -> urlsafe a = true.
Proof.
  rewrite forallb_forall. unfold alnum_or at 1, one_of. intros Hs [H|H]%orb_true_iff;
    [by apply alnum_urlsafe |].
  apply bool_decide_eq_true in H. by apply Hs, list_elem_of_In.
Qed.

Notation safe_url s := (Forall (fun a => urlsafe a = true) s).

Lemma safe_str s : forallb urlsafe (str s) = true -> safe_url (str s).
Proof. rewrite forallb_forall. intros H. apply Forall_forall. intros a Ha. by apply H, list_elem_of_In. Qed.

Lemma lit_within p s : Forall p s -> cls_within p (rlit_chars s).
Proof.
  induction 1 as [|a s Ha _ IH]; simpl; [done |]. split; [|done].
  intros b Hb. apply N.eqb_eq in Hb. by subst.
Qed.

Lemma repo_safe s : fullmatch REPO_RE s = true -> safe_url s.
Proof.
  apply fullmatch_within. split; [exact alnum_urlsafe |].
  assert (H : forall a, alnum_or "_.-" a = true -> urlsafe a = true)
    by (intros a; by apply alnum_or_urlsafe).
  split; [exact H |]. split; [apply lit_within; by apply safe_str |].
  split; [exact alnum_urlsafe | exact H].
Qed.

Lemma digit_safe a : digit a = true -> urlsafe a = true.
Proof. intros H. apply alnum_urlsafe. unfold alnum. by rewrite H, orb_true_r. Qed.

Lemma decimal_within : cls_within (fun a => urlsafe a = true) positive_decimal.
Proof.
  split; simpl; [|apply digit_safe]. intros a H.
  apply (ascii_cases (in_range "1" "9") urlsafe); [vm_compute; reflexivity | | done].
  apply in_range_within in H. change (N_of_ascii "9") with 57%N in H. lia.
Qed.

Lemma fragment_safe kind r s : fragment_re kind = Some r -> fullmatch r s = true -> safe_url s.
Proof.
  intros Hk. apply fullmatch_within. destruct kind; simpl in Hk; simplify_eq;
    split; try exact decimal_within; apply lit_within; by apply safe_str.
Qed.

(** A fragment that matches is not empty. *)
Lemma fragment_some kind r s : fragment_re kind = Some r -> fullmatch r s = true -> s <> [].
Proof. intros Hk H Hs. subst s. destruct kind; simpl in Hk; simplify_eq; by vm_compute in H. Qed.

Lemma is_digit_char_digit a : is_digit_char a = digit a.
Proof. done. Qed.

Lemma dec_safe n : 0 <= n -> safe_url (dec n).
Proof.
  intros Hn. unfold dec. destruct (Z.ltb_spec n 0) as [|_]; [lia |].
  destruct (nat_text_digits n Hn) as [Hd _]. eapply Forall_impl; [exact Hd |].
  intros a Ha. by apply digit_safe.
Qed.

Lemma path_safe repo n : safe_url repo -> 0 <= n -> safe_url (expected_path repo n).
Proof.
  intros Hr Hn. unfold expected_path. apply Forall_app. split; [by apply safe_str |].
  apply Forall_app. split; [done |]. apply Forall_app. split; [by apply safe_str | by apply dec_safe].
Qed.

(** ** The parser on safe text *)

Lemma safe_free c s : special c = true -> safe_url s -> c ∉ s.
Proof.
  intros Hc Hs Hin. rewrite Forall_forall in Hs. apply Hs, urlsafe_not_special in Hin. congruence.
Qed.

Lemma cut_none c s : c ∉ s -> cut c s = None.
Proof.
  induction s as [|a s IH]; intros H; [done |]. simpl.
  apply not_elem_of_cons in H as [Ha H]. rewrite (proj2 (N.eqb_neq a c)) by done.
  by rewrite IH.
Qed.

Lemma cut_app c s t : c ∉ s -> cut c (s ++ c :: t) = Some (s, t).
Proof.
  induction s as [|a s IH]; intros H; simpl; [by rewrite N.eqb_refl |].
  apply not_elem_of_cons in H as [Ha H]. rewrite (proj2 (N.eqb_neq a c)) by done.
  by rewrite IH.
Qed.

Lemma rcut_none c s : c ∉ s -> rcut c s = None.
Proof.
  induction s as [|a s IH]; intros H; [done |]. simpl.
  apply not_elem_of_cons in H as [Ha H]. rewrite IH by done.
  by rewrite (proj2 (N.eqb_neq a c)).
Qed.

Lemma rcut_inv c s x y : rcut c s = Some (x, y) -> s = x ++ c :: y.
Proof.
  revert x; induction s as [|a s IH]; intros x H; [done |]. simpl in H.
  destruct (rcut c s) as [[x' y']|].
  - injection H as <- <-. simpl. f_equal. by apply IH.
  - destruct (N.eqb_spec a c); [|done]. by injection H as <- <-; subst.
Qed.

Lemma splitparams_none p : 59%N ∉ p -> splitparams p = (p, []).
Proof.
  intros H. unfold splitparams. change (ch_of ";") with 59%N.
  destruct (rcut _ p) as [[x y]|] eqn:E; [|by rewrite cut_none].
  rewrite cut_none; [done |]. apply rcut_inv in E. intros Hy. apply H. subst.
  apply elem_of_app. right. by right.
Qed.

Lemma filter_true {A} (f : A -> bool) l : Forall (fun a => f a = true) l -> List.filter f l = l.
Proof. induction 1 as [|a l Ha _ IH]; [done |]. simpl. by rewrite Ha, IH. Qed.

Definition canonical_url (path frag : pystr) : pystr :=
  str "https://github.com" ++ path ++ (if non_empty frag then str "#" ++ frag else []).

(** The host ends where the path starts. *)
Lemma splitnetloc_host t :
  splitnetloc (str "github.com" ++ 47%N :: t) = (str "github.com", 47%N :: t).
Proof. vm_compute. reflexivity. Qed.

Lemma kept a : urlsafe a = true \/ a = 35%N -> negb (url_unsafe a) = true.
Proof.
  intros [H| ->]; [|done]. apply urlsafe_not_special in H. unfold special in H.
  apply orb_false_iff in H as [H _]. apply N.leb_gt in H. unfold url_unsafe.
  rewrite !(proj2 (N.eqb_neq a _)) by lia. done.
Qed.

Lemma urlparse_canonical path frag :
  safe_url path -> safe_url frag -> head path = Some 47%N ->
  urlparse (canonical_url path frag) =
    Ok (Url (str "https") (str "github.com") path [] [] frag).
Proof.
  intros Hp Hf Hh. destruct path as [|c path]; [done |]. injection Hh as ->.
  set (suffix := if non_empty frag then str "#" ++ frag else []).
  assert (Hk : Forall (fun a => negb (url_unsafe a) = true) (47%N :: path ++ suffix)).
  { apply (Forall_app _ (47%N :: path)). split.
    - eapply Forall_impl; [exact Hp |]. intros a Ha. apply kept. by left.
    - unfold suffix. destruct (non_empty frag); [|constructor].
      constructor; [done |]. eapply Forall_impl; [exact Hf |]. intros a Ha. apply kept. by left. }
  unfold urlparse, canonical_url. fold suffix.
  change (lstrip_c0 (str "https://github.com" ++ (47%N :: path) ++ suffix))
    with (str "https://github.com" ++ (47%N :: path) ++ suffix).
  rewrite List.filter_app. rewrite (filter_true _ ((47%N :: path) ++ suffix)) by exact Hk.
  change (List.filter _ (str "https://github.com")) with (str "https://github.com").
  change (split_scheme (str "https://github.com" ++ (47%N :: path) ++ suffix))
    with (str "https", 47%N :: 47%N :: str "github.com" ++ 47%N :: (path ++ suffix)).
  cbv iota beta. unfold take_netloc.
  change (startswith _ _) with true. cbn [skipn].
  rewrite drop_0, splitnetloc_host.
  change (check_brackets (str "github.com")) with (@Ok unit tt). cbv iota beta.
  assert (E : cut_off "#" (47%N :: path ++ suffix) = (47%N :: path, frag)).
  { unfold cut_off, suffix, non_empty. change (ch_of "#") with 35%N.
    change (47%N :: path ++ ?t) with ((47%N :: path) ++ t).
    case_bool_decide as Ef; cbn [negb].
    - subst. rewrite app_nil_r, cut_none by (by apply safe_free). done.
    - change (str "#" ++ frag) with (35%N :: frag). rewrite cut_app by (by apply safe_free). done. }
  rewrite E. unfold cut_off at 1. rewrite cut_none by (by apply safe_free).
  change (checknetloc (str "github.com")) with (@Ok unit tt). cbv iota beta.
  rewrite bool_decide_true by (vm_compute; do 5 right; left).
  rewrite splitparams_none by (by apply safe_free). done.
Qed.

(** ** The parts are no longer than the text *)

Lemma cut_inv c s x y : cut c s = Some (x, y) -> s = x ++ c :: y.
Proof.
  revert x; induction s as [|a s IH]; intros x H; [done |]. simpl in H.
  destruct (N.eqb_spec a c) as [->|]; [by injection H as <- <- |].
  destruct (cut c s) as [[x' y']|]; [|done]. injection H as <- <-. simpl. f_equal. by apply IH.
Qed.

Lemma splitnetloc_inv s x y : splitnetloc s = (x, y) -> s = x ++ y.
Proof.
  revert x; induction s as [|a s IH]; intros x H; simpl in H; [by injection H as <- <- |].
  destruct (one_of _ a); [by injection H as <- <- |].
  destruct (splitnetloc s) as [x' y'] eqn:E. injection H as <- <-. simpl. f_equal. by apply IH.
Qed.

Lemma lstrip_length s : (length (lstrip_c0 s) <= length s)%nat.
Proof. induction s as [|a s IH]; [done |]. simpl. destruct (a <=? 32)%N; simpl; lia. Qed.

Lemma split_scheme_inv u sch rest :
  split_scheme u = (sch, rest) -> sch <> [] -> length u = (length sch + 1 + length rest)%nat.
Proof.
  unfold split_scheme. destruct (cut _ u) as [[[|a pre] r]|] eqn:E; try (intros [= <- <-]; done).
  destruct (_ && _); intros [= <- <-] Hs; [|done].
  apply cut_inv in E. subst u. unfold lower_text.
  simpl. rewrite length_app, length_map. simpl. lia.
Qed.

Lemma splitparams_length p x y : splitparams p = (x, y) -> (length x <= length p)%nat.
Proof.
  unfold splitparams. destruct (rcut _ p) as [[b seg]|] eqn:E.
  - apply rcut_inv in E. destruct (cut _ seg) as [[s t]|] eqn:E2; intros [= <- <-]; [|done].
    apply cut_inv in E2. subst. rewrite !length_app. simpl. rewrite !length_app. simpl. lia.
  - destruct (cut _ p) as [[s t]|] eqn:E2; intros [= <- <-]; [|done].
    apply cut_inv in E2. subst. rewrite length_app. lia.
Qed.

(** Text cut at the first separator: the second part is charged one more when
    it is not empty. *)
Lemma cut_off_length c u x y :
  cut_off c u = (x, y) ->
  (length x + length y + (if non_empty y then 1 else 0) <= length u)%nat.
Proof.
  unfold cut_off. destruct (cut _ u) as [[s t]|] eqn:E; intros [= <- <-].
  - apply cut_inv in E. subst. rewrite length_app. simpl. destruct (non_empty t); lia.
  - simpl. lia.
Qed.

Lemma take_netloc_length u n r :
  take_netloc u = Ok (n, r) -> n <> [] -> (length n + length r + 2 <= length u)%nat.
Proof.
  unfold take_netloc, startswith. case_bool_decide as E; [|by intros [= <- <-]].
  destruct (splitnetloc (drop 2 u)) as [x y] eqn:Es. intros H _. inv_ok H.
  apply splitnetloc_inv in Es. rewrite <- (take_drop 2 u), length_app, Es, length_app.
  change (length (str "//")) with 2%nat in E. rewrite E. simpl. lia.
Qed.

Lemma urlparse_length v p :
  urlparse v = Ok p -> p.(scheme) <> [] -> p.(netloc) <> [] ->
  (length p.(scheme) + 3 + length p.(netloc) + length p.(url_path) + length p.(fragment) +
   (if non_empty p.(fragment) then 1 else 0) <= length v)%nat.
Proof.
  unfold urlparse. set (u0 := List.filter _ _).
  assert (Hu0 : (length u0 <= length v)%nat).
  { unfold u0. etransitivity; [apply List.filter_length_le | apply lstrip_length]. }
  destruct (split_scheme u0) as [sch u1] eqn:Es. intros H Hs Hn. case_res H.
  destruct a as [n r]. destruct (cut_off "#" r) as [u2 frag] eqn:Ef.
  destruct (cut_off "?" u2) as [u3 q] eqn:Eq. case_res H.
  destruct (if bool_decide _ then _ else _) as [x y] eqn:Ep.
  injection H as <-. cbn [scheme netloc url_path fragment] in *.
  apply split_scheme_inv in Es; [|done]. apply take_netloc_length in E; [|done].
  apply cut_off_length in Ef, Eq.
  assert (length x <= length u3)%nat; [|destruct (non_empty q); lia].
  case_bool_decide; [by eapply splitparams_length | by injection Ep as <- <-].
Qed.

(** ** [github_url] *)

Definition fragment_ok (kind : url_kind) (frag : pystr) : Prop :=
  match fragment_re kind with
  | None => frag = []
  | Some r => fullmatch r frag = true
  end.

(** The canonical URLs of a kind for a pull request. *)
Definition url_ok (repo : pystr) (n : Z) (kind : url_kind) (u : pystr) : Prop :=
  exists frag, u = canonical_url (expected_path repo n) frag /\ fragment_ok kind frag /\
    zlen u <= 2048.

Lemma fragment_ok_safe kind frag : fragment_ok kind frag -> safe_url frag.
Proof.
  unfold fragment_ok. destruct (fragment_re kind) as [r|] eqn:E; [by eapply fragment_safe |].
  by intros ->.
Qed.

Lemma github_url_inv v f repo n kind u : github_url v f repo n kind = Ok u -> url_ok repo n kind u.
Proof.
  unfold github_url. intros H. case_res H. destruct v as [| | | |s| |]; try discriminate E.
  inv_ok E. case_res H. rename E into Hp. rename a0 into p. case_res H.
  assert (Hu : u = canonical_url (expected_path repo n) p.(fragment))
    by (unfold canonical_url; congruence).
  clear H. subst u. repeat rewrite orb_false_iff in E. destruct E as [[[[[[[Hs Hn] Hpa] _] _] _] _] Hf].
  split_bools. exists p.(fragment). split; [done |]. split.
  - unfold fragment_ok. destruct (fragment_re kind); split_bools; [done |].
    unfold non_empty in Hf. by split_bools.
  - apply urlparse_length in Hp; rewrite ?Hs in *; [|done|].
    2: { intros Hnil. rewrite Hnil in Hn. discriminate Hn. }
    apply (f_equal length) in Hn. unfold lower_text in Hn. rewrite length_map in Hn.
    rewrite Hpa in Hp.  unfold zlen, canonical_url in *. rewrite !length_app.
    change (length (str "https://github.com")) with 18%nat.
    change (length (str "github.com")) with 10%nat in Hn.
    change (length (str "https")) with 5%nat in Hp.
    destruct (non_empty p.(fragment));
      [rewrite length_app; change (length (str "#")) with 1%nat | cbn [length]]; lia.
Qed.

Lemma github_url_ok f repo n kind u :
  safe_url repo -> 0 <= n -> url_ok repo n kind u -> github_url (VStr u) f repo n kind = Ok u.
Proof.
  intros Hr Hn (frag & -> & Hf & Hl). unfold github_url.
  rewrite (proj2 (Z.ltb_ge 2048 _)) by done.
  rewrite urlparse_canonical; [|by apply path_safe | by eapply fragment_ok_safe | done].
  cbn [scheme netloc url_path params query fragment].
  change (lower_text (str "github.com")) with (str "github.com").
  change (userinfo (str "github.com")) with (@nil N, @nil N).
  rewrite !bool_decide_true by done. cbn [negb orb fst snd].
  change (non_empty []) with false. cbn [orb].
  assert (E : match fragment_re kind with
              | Some r => negb (fullmatch r frag) | None => non_empty frag end = false).
  { unfold fragment_ok in Hf. destruct (fragment_re kind); [by rewrite Hf | by rewrite Hf]. }
  by rewrite E.
Qed.
