(* ===== verification/SubmissionFacts.v ===== *)
(** * What an accepted packet or submission satisfies

    As for the configuration: a validity predicate per part of a request, the
    normaliser's results are valid, and the mapping of a valid record is
    accepted and gives the record back. *)

From S2P Require Import Prelude Regex Sha256 PyTime PyUrl Json JsonFacts Protocol ConfigFacts Submission UrlFacts.
Local Open Scope Z_scope.

(** ** Requests *)

Record pr_ok (repo : pystr) (p : PullRequest) : Prop := PrOk {
  number_range : 1 <= p.(pr_number) <= INT64_MAX;
  pr_url_shape : url_ok repo p.(pr_number) UrlPr p.(pr_url);
  base_shape : fullmatch BRANCH_RE p.(base_branch) = true;
  head_shape : fullmatch OID_RE p.(head_sha) = true;
  login_shape : fullmatch LOGIN_RE p.(author_login) = true }.

Lemma lower_oid s : fullmatch OID_RE s = true -> lower_text s = s.
Proof.
  intros H. assert (HF : Forall (fun a => hexdig a = true) s)
    by (revert H; apply fullmatch_within; split; simpl; done).
  clear H. induction HF as [|a s Ha _ IH]; [done |]. simpl. f_equal; [|done].
  unfold lower_char. destruct (upper a) eqn:Hu; [|done].
  enough (Hn : negb (hexdig a) = true) by (by rewrite Ha in Hn).
  apply (ascii_cases upper (fun a => negb (hexdig a))); [vm_compute; reflexivity | | done].
  apply hexdig_plain in Ha. destruct Ha; lia.
Qed.

Lemma pr_sound v repo p : request_pr v repo = Ok p -> pr_ok repo p.
Proof.
  unfold request_pr. intros H. inv_ok H. facts.
  match goal with H : github_url _ _ _ _ _ = Ok _ |- _ => apply github_url_inv in H end.
  by constructor.
Qed.

Lemma pr_complete repo p :
  safe_url repo -> pr_ok repo p -> request_pr (pr_value p) repo = Ok p.
Proof.
  intros Hr [H1 H2 H3 H4 H5]. unfold request_pr, pr_value, obj. cbn [mapping]. accept.
  rewrite github_url_ok by (try done; lia). accept.
  rewrite text_or_empty_str, lower_oid, H4 by done. cbn [negb]. accept. by destruct p.
Qed.

Record preconditions_ok (repo : pystr) (n : Z) (p : Preconditions) : Prop := PreconditionsOk {
  checks_known : p.(checks_state) ∈ [str "success"; str "none"];
  count_range : 0 <= p.(thread_count) <= 10000;
  commands_shape : fullmatch SHA256_RE p.(commands_sha256) = true;
  result_shape : fullmatch SHA256_RE p.(result_sha256) = true;
  evidence_shape : url_ok repo n UrlEvidence p.(evidence_url) }.

Lemma unresolved_count_inv v z : unresolved_count v = Ok z -> v = VInt z /\ 0 <= z <= 10000.
Proof. destruct v; simpl; intros H; inv_ok H. split; [done | lia]. Qed.

Lemma request_verification_inv v c r :
  request_verification v = Ok (c, r) ->
  fullmatch SHA256_RE c = true /\ fullmatch SHA256_RE r = true.
Proof. unfold request_verification. intros H. inv_ok H. done. Qed.

Lemma preconditions_sound v repo n p :
  request_preconditions v repo n = Ok p -> preconditions_ok repo n p.
Proof.
  unfold request_preconditions. intros H. inv_ok H. facts.
  repeat match goal with
  | H : github_url _ _ _ _ _ = Ok _ |- _ => apply github_url_inv in H
  | H : unresolved_count _ = Ok _ |- _ => apply unresolved_count_inv in H as [? ?]
  | H : request_verification _ = Ok _ |- _ => apply request_verification_inv in H as [? ?]
  end.
  by constructor.
Qed.

Lemma preconditions_complete repo n p :
  safe_url repo -> 0 <= n -> preconditions_ok repo n p ->
  request_preconditions (preconditions_value p) repo n = Ok p.
Proof.
  intros Hr Hn [H1 H2 H3 H4 H5].
  unfold request_preconditions, preconditions_value, obj. cbn [mapping]. accept.
  rewrite text_or_empty_str, bool_decide_true by done. cbn [negb]. accept.
  unfold unresolved_count.
  rewrite (proj2 (Z.ltb_ge _ 0)), (proj2 (Z.ltb_ge 10000 _)) by lia. cbn [orb].
  accept. cbn [is_true negb]. accept. cbn [is_true negb]. accept.
  unfold request_verification. cbn [mapping]. accept. cbn [is_true negb]. accept.
  rewrite !text_or_empty_str, H3, H4. cbn [negb orb].
  rewrite github_url_ok by done. by destruct p.
Qed.

Record targets_ok (repo : pystr) (n : Z) (ids urls : list pystr) : Prop := TargetsOk {
  ids_shape : Forall (fun i => fullmatch TOKEN_RE i = true) ids;
  urls_shape : Forall (url_ok repo n UrlThread) urls;
  same_length : length ids = length urls;
  at_most_50 : (length ids <= 50)%nat;
  ids_unique : NoDup ids }.

Lemma normalize_targets_inv repo n vs ws i ids urls :
  normalize_targets repo n i vs ws = Ok (ids, urls) ->
  Forall (fun i => fullmatch TOKEN_RE i = true) ids /\
  Forall (url_ok repo n UrlThread) urls /\ length ids = length urls /\ length ids = length vs.
Proof.
  revert ws i ids urls; induction vs as [|v vs IH]; intros [|w ws] i ids urls H; simpl in H;
    inv_ok H; try done.
  destruct v; try done. inv_ok E. apply github_url_inv in E0. apply IH in E1 as (? & ? & ? & ?).
  simpl. by split_and!; try constructor; try lia.
Qed.

Lemma normalize_targets_ok repo n i ids urls :
  safe_url repo -> 0 <= n ->
  Forall (fun i => fullmatch TOKEN_RE i = true) ids ->
  Forall (url_ok repo n UrlThread) urls -> length ids = length urls ->
  normalize_targets repo n i (map VStr ids) (map VStr urls) = Ok (ids, urls).
Proof.
  intros Hr Hn Hi. revert i urls; induction Hi as [|x ids Hx _ IH]; intros i urls Hu Hl;
    destruct urls as [|u urls]; try done.
  apply Forall_cons in Hu as [Hu1 Hu]. simpl. rewrite Hx. cbn [negb].
  rewrite github_url_ok by done. rewrite IH; [done | done |]. simpl in Hl. lia.
Qed.

Lemma targets_sound v repo n ids urls :
  request_targets v repo n = Ok (ids, urls) -> targets_ok repo n ids urls.
Proof.
  unfold request_targets. intros H. inv_ok H.
  match goal with H : normalize_targets _ _ _ _ _ = Ok _ |- _ =>
    apply normalize_targets_inv in H as (? & ? & ? & Hl) end.
  constructor; try done.
  match goal with H : (50 <? _)%nat = false |- _ => apply Nat.ltb_ge in H end. by rewrite Hl.
Qed.

Lemma targets_complete repo n ids urls r :
  safe_url repo -> 0 <= n -> targets_ok repo n ids urls ->
  thread_node_ids r = ids -> thread_urls r = urls ->
  request_targets (targets_value r) repo n = Ok (ids, urls).
Proof.
  intros Hr Hn [H1 H2 H3 H4 H5] <- <-. unfold request_targets, targets_value, obj.
  cbn [mapping]. accept. unfold vstrs. rewrite !length_map, H3, Nat.eqb_refl.
  rewrite <- H3, (proj2 (Nat.ltb_ge 50 _)) by done. cbn [negb orb].
  rewrite normalize_targets_ok by done. by rewrite bool_decide_true.
Qed.

Lemma actions_differ : MARK_PR_READY <> RESOLVE_REVIEW_THREAD.
Proof. by vm_compute. Qed.

Lemma action_cases a : a ∈ ALLOWED_ACTIONS -> a = MARK_PR_READY \/ a = RESOLVE_REVIEW_THREAD.
Proof.
  unfold ALLOWED_ACTIONS. rewrite !elem_of_cons.
  intros [?|[?|H]]; [by left | by right | by apply not_elem_of_nil in H].
Qed.

(** The action against the rest of the request. *)
Definition action_ok (a : pystr) (draft : bool) (count : Z) (ids : list pystr) : Prop :=
  (a = MARK_PR_READY -> draft = true /\ count = 0 /\ ids = []) /\
  (a = RESOLVE_REVIEW_THREAD -> ids <> [] /\ zlen ids <= count).

Lemma action_sound a draft count ids u :
  action_consistent a draft count ids = Ok u -> action_ok a draft count ids.
Proof.
  pose proof actions_differ as Hne. unfold action_consistent. intros H'. inv_ok H'.
  - split; [intros _ | intros E'; destruct Hne; congruence]. split_and!; try done. by apply Z.eqb_eq.
  - split; [done |]. intros ->. split; [done | lia].
Qed.

Lemma action_complete a draft count ids :
  a ∈ ALLOWED_ACTIONS -> action_ok a draft count ids -> action_consistent a draft count ids = Ok tt.
Proof.
  intros [-> | ->]%action_cases [H1 H2]; unfold action_consistent.
  - destruct (H1 eq_refl) as (-> & -> & ->). done.
  - destruct (H2 eq_refl) as [Hi Hc].
    rewrite !bool_decide_false, (proj2 (Z.ltb_ge _ _)) by (try done; apply not_eq_sym, actions_differ).
    done.
Qed.

Record request_ok (r : Request) : Prop := RequestOk {
  instance_shape : fullmatch INSTANCE_SLUG_RE r.(instance_slug) = true;
  action_known : r.(action) ∈ ALLOWED_ACTIONS;
  repo_shape : fullmatch REPO_RE r.(repo) = true;
  pr_valid : pr_ok r.(repo) r.(pr);
  preconditions_valid : preconditions_ok r.(repo) r.(pr).(pr_number) r.(preconditions);
  targets_valid : targets_ok r.(repo) r.(pr).(pr_number) r.(thread_node_ids) r.(thread_urls);
  action_valid :
    action_ok r.(action) r.(pr).(is_draft) r.(preconditions).(thread_count) r.(thread_node_ids) }.

Lemma parse_utc_inv v f e : parse_utc v f = Ok e -> exists s, v = VStr s /\ strptime s = Some e.
Proof.
  destruct v as [| | | |s| |]; simpl; try done. intros H. exists s. split; [done |].
  destruct (strptime s); [by injection H as -> | done].
Qed.

Lemma request_sound v r :
  normalize_packet_request v = Ok r ->
  request_ok r /\ exists s e, strptime s = Some e /\ r.(observed_at) = utc_text e.
Proof.
  unfold normalize_packet_request, request_header. intros H. inv_ok H.
  repeat match goal with H : _ = Ok _ |- _ => progress inv_ok H end. facts.
  repeat match goal with
  | H : request_pr _ _ = Ok _ |- _ => apply pr_sound in H
  | H : request_preconditions _ _ _ = Ok _ |- _ => apply preconditions_sound in H
  | H : request_targets _ _ _ = Ok _ |- _ => apply targets_sound in H
  | H : action_consistent _ _ _ _ = Ok _ |- _ => apply action_sound in H
  | H : parse_utc _ _ = Ok _ |- _ => apply parse_utc_inv in H as (? & ? & ?)
  end.
  split; [by constructor | eauto].
Qed.

Lemma parse_utc_text f e : in_clock_range e -> parse_utc (VStr (utc_text e)) f = Ok e.
Proof. intros H. unfold parse_utc. by rewrite strptime_utc_text. Qed.

Lemma request_complete r e :
  request_ok r -> in_clock_range e -> r.(observed_at) = utc_text e ->
  normalize_packet_request (request_value r) = Ok r.
Proof.
  intros [H1 H2 H3 H4 H5 H6 H7] He Ho. pose proof (repo_safe _ H3) as Hr.
  assert (Hn : 0 <= r.(pr).(pr_number)) by (destruct H4; lia).
  unfold normalize_packet_request, request_value, obj. cbn [mapping].
  unfold request_header. accept. rewrite text_or_empty_str, bool_decide_true by done. cbn [negb].
  accept. rewrite Ho, parse_utc_text by done. accept.
  rewrite pr_complete by done. accept. rewrite preconditions_complete by done. accept.
  rewrite (targets_complete _ _ _ _ r Hr Hn H6) by done.
  rewrite action_complete by done. rewrite <- Ho. by destruct r.
Qed.

(** ** Packets *)

Lemma add_seconds_inv i s r : add_seconds i s = Ok r -> r = i + us s.
Proof. unfold add_seconds. intros H. by inv_ok H. Qed.

Definition in_us_range (i : Z) : Prop := us (-62135596800) <= i < us 253402300800.

Lemma add_seconds_ok i s : in_us_range (i + us s) -> add_seconds i s = Ok (i + us s).
Proof.
  unfold in_us_range, add_seconds. intros H.
  rewrite (proj2 (Z.ltb_ge _ _)), (proj2 (Z.leb_gt _ _)) by lia. done.
Qed.

(** What [verify_protected_packet] establishes of a packet at an instant. *)
Record packet_ok (p : Packet) (created expires observed current : Z) : Prop := PacketOk {
  request_valid : request_ok p.(request);
  created_text : p.(created_at) = utc_text created;
  expires_text : p.(expires_at) = utc_text expires;
  observed_text : p.(request).(observed_at) = utc_text observed;
  created_range : in_datetime_range created;
  expires_range : in_datetime_range expires;
  observed_range : in_clock_range observed;
  lifetime : MIN_PACKET_TTL_SECONDS <= expires - created <= MAX_PACKET_TTL_SECONDS;
  evidence_age :
    created - MAX_PACKET_EVIDENCE_AGE_SECONDS <= observed <= created + MAX_CLOCK_SKEW_SECONDS;
  evidence_bounds : in_us_range (us created + us MAX_CLOCK_SKEW_SECONDS) /\
    in_us_range (us created + us (- MAX_PACKET_EVIDENCE_AGE_SECONDS));
  digest_bound :
    sha256_json (obj (packet_body p.(created_at) p.(expires_at) p.(request))) =
      Ok p.(request_digest);
  id_bound : p.(packet_id) = str "jlpa-" ++ take 24 p.(request_digest);
  not_future : us created <= current + us MAX_CLOCK_SKEW_SECONDS;
  horizon_bound : in_us_range (current + us MAX_CLOCK_SKEW_SECONDS);
  not_expired : current < us expires }.

Lemma add_seconds_range i s r : add_seconds i s = Ok r -> in_us_range (i + us s).
Proof. unfold add_seconds, in_us_range. intros H. inv_ok H. lia. Qed.

Lemma packet_window_inv d c e :
  packet_window d = Ok (c, e) ->
  in_datetime_range c /\ in_datetime_range e /\
  MIN_PACKET_TTL_SECONDS <= e - c <= MAX_PACKET_TTL_SECONDS.
Proof.
  unfold packet_window. intros H. inv_ok H.
  repeat match goal with
  | H : parse_utc _ _ = Ok _ |- _ => apply parse_utc_inv in H as (? & ? & ?%strptime_range)
  end.
  split_and!; try done; lia.
Qed.

Lemma evidence_fresh_inv o c u :
  evidence_fresh o c = Ok u ->
  c - MAX_PACKET_EVIDENCE_AGE_SECONDS <= o <= c + MAX_CLOCK_SKEW_SECONDS /\
  in_us_range (us c + us MAX_CLOCK_SKEW_SECONDS) /\
  in_us_range (us c + us (- MAX_PACKET_EVIDENCE_AGE_SECONDS)).
Proof.
  unfold evidence_fresh. intros H. inv_ok H.
  repeat match goal with
  | H : add_seconds _ _ = Ok _ |- _ =>
      pose proof (add_seconds_range _ _ _ H); apply add_seconds_inv in H; subst
  end.
  split_and!; try done; unfold us in *; lia.
Qed.

Lemma packet_current_inv c e t u :
  packet_current c e t = Ok u ->
  us c <= t + us MAX_CLOCK_SKEW_SECONDS /\ in_us_range (t + us MAX_CLOCK_SKEW_SECONDS) /\
  t < us e.
Proof.
  unfold packet_current. intros H. inv_ok H.
  match goal with
  | H : add_seconds _ _ = Ok _ |- _ =>
      pose proof (add_seconds_range _ _ _ H); apply add_seconds_inv in H; subst
  end.
  split_and!; try done; lia.
Qed.

(** Acceptance depends on the clock through [packet_current] only. *)
Lemma verify_inv raw now utcnow p :
  verify_protected_packet raw now utcnow = Ok p ->
  exists created expires observed current,
    current_utc now utcnow = Ok current /\ packet_ok p created expires observed current /\
    forall now' utcnow' t, current_utc now' utcnow' = Ok t ->
      verify_protected_packet raw now' utcnow' =
        (let* _ := packet_current created expires t in Ok p).
Proof.
  unfold verify_protected_packet. intros H. inv_ok H.
  match goal with
  | H1 : packet_window _ = Ok (?c, ?e), H2 : parse_utc _ _ = Ok ?o,
    H3 : current_utc _ _ = Ok ?t |- _ => exists c, e, o, t
  end.
  split; [done |]. split; cycle 1.
  { intros now' utcnow' t Ht. cbn [mapping].
    repeat match goal with
    | H : ?x = _ |- context [?x] => rewrite H; cbn [negb]
    end. done. }
  repeat match goal with
  | H : packet_window _ = Ok _ |- _ => apply packet_window_inv in H as (? & ? & ?)
  | H : normalize_packet_request _ = Ok _ |- _ =>
      apply request_sound in H as (? & s & o & Ho & Htext)
  | H : evidence_fresh _ _ = Ok _ |- _ => apply evidence_fresh_inv in H as (? & ? & ?)
  | H : packet_current _ _ _ = Ok _ |- _ => apply packet_current_inv in H as (? & ? & ?)
  | H : parse_utc _ _ = Ok _ |- _ => apply parse_utc_inv in H as (t & [= <-] & ?)
  end.
  match goal with H : strptime (observed_at _) = Some _ |- _ =>
    rewrite Htext in H; destruct (strptime_stable _ _ (strptime_range _ _ Ho) H) as [? ->] end.
  by constructor.
Qed.

(** The times of a verified packet are those its mapping is read with. *)
Lemma verify_window raw now utcnow p :
  verify_protected_packet raw now utcnow = Ok p ->
  exists d created expires, raw = VDict d /\
    parse_utc (get d "created_at") "protected-action packet created_at" = Ok created /\
    in_datetime_range created /\ in_datetime_range expires /\
    p.(created_at) = utc_text created /\ p.(expires_at) = utc_text expires.
Proof.
  unfold verify_protected_packet. intros H. inv_ok H.
  match goal with H : mapping _ _ = Ok _ |- _ => apply mapping_dict in H as -> end.
  match goal with H : packet_window ?d = Ok (?c, ?e) |- _ =>
    exists d, c, e; pose proof (packet_window_inv _ _ _ H) as (? & ? & _);
    unfold packet_window in H; inv_ok H end.
  done.
Qed.

Lemma evidence_fresh_ok o c :
  c - MAX_PACKET_EVIDENCE_AGE_SECONDS <= o <= c + MAX_CLOCK_SKEW_SECONDS ->
  in_us_range (us c + us MAX_CLOCK_SKEW_SECONDS) ->
  in_us_range (us c + us (- MAX_PACKET_EVIDENCE_AGE_SECONDS)) ->
  evidence_fresh o c = Ok tt.
Proof.
  intros Ho H1 H2. unfold evidence_fresh. rewrite !add_seconds_ok by done.
  rewrite !(proj2 (Z.ltb_ge _ _)) by (unfold us; lia). done.
Qed.

Lemma packet_current_ok c e t :
  us c <= t + us MAX_CLOCK_SKEW_SECONDS -> in_us_range (t + us MAX_CLOCK_SKEW_SECONDS) ->
  t < us e -> packet_current c e t = Ok tt.
Proof.
  intros H1 H2 H3. unfold packet_current. rewrite add_seconds_ok by done.
  rewrite (proj2 (Z.ltb_ge _ _)), (proj2 (Z.leb_gt _ _)) by done. done.
Qed.

Lemma verify_complete p created expires observed current now utcnow :
  packet_ok p created expires observed current ->
  in_clock_range created -> in_clock_range expires ->
  current_utc now utcnow = Ok current ->
  verify_protected_packet (packet_value p) now utcnow = Ok p.
Proof.
  intros [H1 H2 H3 H4 H5 H6 H7 H8 H9 [H10 H11] H12 H13 H14 H15 H16] Hc He Hnow.
  unfold obj, packet_body in H12.
  unfold verify_protected_packet, packet_value, packet_dict, obj, packet_body. cbn [mapping app].
  unfold packet_header, packet_window. accept. rewrite H2. rewrite parse_utc_text by done.
  accept. rewrite H3, parse_utc_text by done.
  rewrite !(proj2 (Z.ltb_ge _ _)) by lia. cbn [orb]. accept.
  rewrite (request_complete _ observed) by done. rewrite H4, parse_utc_text by done.
  rewrite evidence_fresh_ok by done. rewrite <- H2, <- H3, H12. read_fields. cbn [py_eq].
  rewrite H13, !bool_decide_true by done. cbn [negb]. read_fields. cbn [py_eq].
  rewrite ?bool_decide_true by done. cbn [negb]. rewrite Hnow, packet_current_ok by done.
  rewrite <- H13. by destruct p.
Qed.
