(* ===== verification/Boundary.v ===== *)
(** * From the protocol boundary to the store

    A packet the protocol accepts, seen by the store: its text is plain and
    small, its digest and identifier are the ones the store computes, and
    [packet_identity] reads the same fields from it. *)

From S2P Require Import Prelude Regex Sha256 PyTime PyUrl Json JsonFacts JsonSize Packet Protocol ConfigFacts Submission UrlFacts SubmissionFacts.
Local Open Scope Z_scope.

(** ** Displays *)

Definition keys_plain (l : list string) : bool :=
  bool_decide (NoDup (map str l)) && forallb (fun k => forallb plainb (str k)) l.

Lemma plain_obj l :
  keys_plain (map fst l) = true -> Forall (fun kv => plain_value kv.2) l -> plain_value (obj l).
Proof.
  unfold keys_plain. intros [Hn Hk]%andb_true_iff Hv. apply bool_decide_eq_true in Hn.
  constructor.
  - by rewrite keys_obj.
  - unfold fields. apply Forall_fmap, Forall_forall. intros [k v] Hin. simpl.
    apply plain_str. rewrite forallb_forall in Hk. apply Hk.
    apply in_map_iff. exists (k, v). split; [done | by apply list_elem_of_In].
  - unfold fields. apply Forall_fmap. eapply Forall_impl; [exact Hv |]. by intros [k v].
Qed.

Lemma length_str s : length (str s) = String.length s.
Proof.
  unfold str. rewrite length_map. induction s as [|a s IH]; [done |]. simpl. by rewrite IH.
Qed.

Lemma size_obj l :
  size (obj l) = (2 + list_sum (map (fun kv => String.length kv.1 + 4 + size kv.2) l))%nat.
Proof.
  unfold obj, fields. cbn [size]. rewrite map_map.
  erewrite map_ext; [reflexivity |]. intros [k v]. cbn [fst snd]. by rewrite length_str.
Qed.

Lemma size_vstrs m l :
  Forall (fun s => (length s <= m)%nat) l -> (size (vstrs l) <= 2 + length l * (m + 3))%nat.
Proof.
  intros H. unfold vstrs. cbn [size]. rewrite map_map.
  enough (list_sum (map (fun x => size (VStr x) + 1) l) <= length l * (m + 3))%nat by lia.
  induction H as [|s l Hs _ IH]; [done |]. simpl in *. lia.
Qed.

Lemma depth_vstrs l : depth (vstrs l) = 1.
Proof.
  unfold vstrs. cbn [depth]. assert (fold_right (fun x m => Z.max (depth x) m) 0 (map VStr l) = 0)
    as ->; [|done]. induction l as [|s l IH]; [done |]. cbn [map fold_right]. by rewrite IH.
Qed.

Lemma plain_vstrs l : Forall (Forall plain) l -> plain_value (vstrs l).
Proof.
  intros H. constructor. apply Forall_fmap. eapply Forall_impl; [exact H |].
  intros s Hs. by constructor.
Qed.

(** ** Plain and short fields *)

Lemma safe_url_plain s : safe_url s -> Forall plain s.
Proof.
  intros H. eapply Forall_impl; [exact H |]. intros a. by apply (alnum_or_plain "_.-/").
Qed.

Lemma branch_plain s : fullmatch BRANCH_RE s = true -> Forall plain s.
Proof. by apply token_plain. Qed.

Lemma login_plain s : fullmatch LOGIN_RE s = true -> Forall plain s.
Proof.
  apply fullmatch_within. split; [exact alnum_plain |].
  split; [intros a; by apply alnum_or_plain |].
  change (cls_within plain (rlit_chars (str "[bot]"))). apply lit_plain. by apply plain_str.
Qed.

Lemma url_plain repo n kind u :
  safe_url repo -> 0 <= n -> url_ok repo n kind u -> Forall plain u /\ (length u <= 2048)%nat.
Proof.
  intros Hr Hn (frag & -> & Hf & Hl). split; [|unfold zlen in Hl; lia].
  unfold canonical_url. apply Forall_app. split; [by apply plain_str |].
  apply Forall_app. split; [by apply safe_url_plain, path_safe |].
  destruct (non_empty frag); [|constructor].
  apply Forall_app. split; [by apply plain_str |].
  by apply safe_url_plain, (fragment_ok_safe kind).
Qed.

Lemma action_plain a : a ∈ Protocol.ALLOWED_ACTIONS -> Forall plain a /\ (length a <= 32)%nat.
Proof.
  intros [-> | ->]%action_cases; split; try (by apply plain_str); vm_compute; lia.
Qed.

(** ** The request *)

Section Request.
Context (r : Request) (Hr : request_ok r) (o : Z).
Context (Ho : in_clock_range o) (Hobs : r.(observed_at) = utc_text o).

Lemma repo_is_safe : safe_url r.(repo).
Proof. apply repo_safe, Hr. Qed.

Lemma number_pos : 0 <= r.(pr).(pr_number).
Proof. destruct (pr_valid _ Hr) as [H _]. lia. Qed.

#[local] Hint Resolve repo_is_safe number_pos : core.

Lemma threads_plain :
  Forall (Forall plain) r.(thread_node_ids) /\ Forall (Forall plain) r.(thread_urls).
Proof.
  destruct (targets_valid _ Hr) as [Hi Hu _ _ _]. split.
  - eapply Forall_impl; [exact Hi |]. intros s. apply thread_id_plain.
  - eapply Forall_impl; [exact Hu |]. intros s Hs. by eapply url_plain in Hs as [? _].
Qed.

Lemma request_plain : plain_value (request_value r).
Proof.
  destruct Hr as [H1 H2 H3 H4 H5 H6 _]. destruct threads_plain as [Hti Htu].
  destruct H4 as [Hn Hpu Hb Hh Hl]. destruct H5 as [Hc Hk Hcs Hrs He].
  apply url_plain in Hpu as [Hpu _], He as [He _]; auto.
  unfold request_value, pr_value, preconditions_value, targets_value, vstr.
  repeat first [apply plain_obj; [vm_compute; reflexivity |] | apply plain_vstrs; done | constructor];
    cbn [snd].
  all: try (by apply plain_str);
    try (by apply instance_plain); try (by apply repo_plain); try (by apply branch_plain);
    try (by apply oid_plain); try (by apply login_plain); try (by apply sha256_plain); try done.
  all: try (unfold I64_MIN, I64_MAX, INT64_MAX in *; lia).
  - by apply action_plain.
  - rewrite Hobs. apply utc_text_plain.
  - revert Hc. rewrite !elem_of_cons. intros [-> | [-> | Hc]];
      [by apply plain_str | by apply plain_str | by apply not_elem_of_nil in Hc].
Qed.

Lemma request_depth : depth (request_value r) = 3.
Proof.
  unfold request_value, pr_value, preconditions_value, targets_value, obj, fields.
  cbn [map depth fold_right snd]. by rewrite !depth_vstrs.
Qed.

Lemma request_size : Z.of_nat (size (request_value r)) <= 200000.
Proof.
  destruct Hr as [H1 H2 H3 H4 H5 H6 _]. destruct H4 as [Hn Hpu Hb Hh Hl].
  destruct H5 as [Hc Hk Hcs Hrs He]. destruct H6 as [Hi Hu Hlen H50 _].
  apply url_plain in Hpu as [_ Hpu], He as [_ He]; auto.
  apply (fullmatch_max INSTANCE_SLUG_RE _ 128 eq_refl) in H1. apply (fullmatch_max REPO_RE _ 201 eq_refl) in H3.
  apply (fullmatch_max BRANCH_RE _ 200 eq_refl) in Hb. apply (fullmatch_max OID_RE _ 64 eq_refl) in Hh.
  apply (fullmatch_max LOGIN_RE _ 104 eq_refl) in Hl.
  apply (fullmatch_max SHA256_RE _ 64 eq_refl) in Hcs, Hrs.
  apply action_plain in H2 as [_ H2]. pose proof (utc_text_length o Ho) as Hol.
  assert (Hcl : (length r.(preconditions).(checks_state) <= 7)%nat).
  { revert Hc. rewrite !elem_of_cons. intros [-> | [-> | Hc]];
      [vm_compute; lia | vm_compute; lia | by apply not_elem_of_nil in Hc]. }
  assert (Hsi : (size (vstrs r.(thread_node_ids)) <= 2 + length r.(thread_node_ids) * (256 + 3))%nat).
  { apply size_vstrs. eapply Forall_impl; [exact Hi |]. intros s Hs.
    by apply (fullmatch_max TOKEN_RE _ 256 eq_refl) in Hs. }
  assert (Hsu : (size (vstrs r.(thread_urls)) <= 2 + length r.(thread_urls) * (2048 + 3))%nat).
  { apply size_vstrs. eapply Forall_impl; [exact Hu |]. intros s Hs.
    by apply url_plain in Hs as [_ ?]; auto. }
  unfold request_value, pr_value, preconditions_value, targets_value, vstr.
  rewrite !size_obj. cbn [map fst snd]. rewrite !size_obj. cbn [map fst snd].
  rewrite !size_obj. cbn [map fst snd size]. rewrite Hobs, Hol, !length_str.
  unfold PACKET_INPUT_SCHEMA. cbn [String.length list_sum fold_right]. lia.
Qed.
End Request.

(** ** The packet *)

Section Packet.
Context (p : Submission.Packet) (created expires observed current : Z).
Context (Hp : packet_ok p created expires observed current).
Context (Hc : in_clock_range created) (He : in_clock_range expires).

#[local] Notation body := (Submission.packet_body p.(created_at) p.(expires_at) p.(request)).

Lemma digest_text : p.(request_digest) = sha256_text (dumps (obj body)).
Proof.
  pose proof (digest_bound _ _ _ _ _ Hp) as H.
  unfold Protocol.sha256_json, Protocol.canonical_json in H. case_res H. inv_ok E. congruence.
Qed.

Lemma request_facts :
  plain_value (request_value p.(request)) /\ depth (request_value p.(request)) = 3 /\
  Z.of_nat (size (request_value p.(request))) <= 200000.
Proof.
  destruct Hp. split_and!.
  - by eapply request_plain.
  - apply request_depth.
  - by eapply request_size.
Qed.

Lemma body_values : Forall (fun kv => plain_value kv.2) body.
Proof.
  destruct request_facts as (Hr & _ & _). unfold Submission.packet_body.
  rewrite (created_text _ _ _ _ _ Hp), (expires_text _ _ _ _ _ Hp).
  unfold vstr. repeat (apply List.Forall_cons; [cbn [snd] |]); [..| apply List.Forall_nil].
  all: first [done | constructor; by apply plain_str | constructor; apply utc_text_plain].
Qed.

Lemma body_size : Z.of_nat (list_sum (map (fun kv => String.length kv.1 + 4 + size kv.2)%nat body)) <= 201000.
Proof.
  destruct request_facts as (_ & _ & Hs). unfold Submission.packet_body, vstr.
  rewrite (created_text _ _ _ _ _ Hp), (expires_text _ _ _ _ _ Hp).
  pose proof (utc_text_length _ Hc). pose proof (utc_text_length _ He).
  cbn [map fst snd size]. rewrite !length_str.
  unfold Submission.PACKET_SCHEMA, Submission.PACKET_AUTHORITY, Submission.PACKET_REQUESTER.
  cbn [String.length list_sum fold_right]. lia.
Qed.

Lemma body_json : Json.canonical_json (obj body) = Ok (dumps (obj body)).
Proof.
  destruct request_facts as (Hr & Hd & Hs). apply canonical_json_plain.
  - apply plain_obj; [vm_compute; reflexivity | apply body_values].
  - unfold obj, fields, Submission.packet_body, vstr. cbn [map depth fold_right snd].
    rewrite Hd. done.
  - rewrite size_obj. pose proof body_size. unfold MAX_JSON_BYTES. lia.
Qed.

Lemma id_shape : fullmatch PACKET_ID_RE p.(packet_id) = true.
Proof. 
  rewrite (id_bound _ _ _ _ _ Hp), digest_text. apply fullmatch_prefix_hex, sha256_take. lia.
Qed.

Lemma body_of_packet : Packet.packet_body (packet_dict p) = fields body.
Proof.
  unfold Packet.packet_body, packet_dict, PACKET_BODY_KEYS. cbn [map]. rewrite !get_obj. done.
Qed.

Lemma header_accepted : Packet.packet_header (packet_dict p) = Ok tt.
Proof.
  unfold Packet.packet_header.
  assert (Hk : same_keys (packet_dict p) Packet.PACKET_KEYS = true).
  { unfold same_keys, packet_dict. rewrite keys_obj.
    change (map fst (_ ++ _)) with Packet.PACKET_KEYS. by rewrite forallb_self. }
  rewrite Hk. unfold packet_dict, Submission.packet_body. cbn [app]. read_fields.
  unfold vstr. cbn [py_eq negb]. by rewrite !bool_decide_true.
Qed.

Lemma digests_accepted :
  Packet.packet_digests (packet_dict p) = Ok (p.(packet_id), p.(request_digest)).
Proof.
  unfold Packet.packet_digests. rewrite body_of_packet. fold (obj body).
  unfold Json.sha256_json. rewrite body_json.
  unfold packet_dict, Submission.packet_body at 1 2. cbn [app]. read_fields.
  cbn [text_field]. rewrite id_shape, digest_text, sha256_text_re. cbn [negb].
  rewrite !bool_decide_true; [done | | done].
  by rewrite (id_bound _ _ _ _ _ Hp), digest_text.
Qed.

Lemma times_accepted t :
  current = us t -> Packet.packet_times (packet_dict p) t = Ok (created, expires).
Proof.
  intros ->. destruct Hp as [_ H1 H2 _ _ _ _ H3 _ _ _ _ H4 _ H5].
  unfold Packet.packet_times, packet_dict, Submission.packet_body. cbn [app]. read_fields.
  unfold Packet.parse_utc. rewrite H1, H2, !strptime_utc_text by done.
  unfold us, Packet.MIN_PACKET_TTL_SECONDS, Packet.MAX_PACKET_TTL_SECONDS,
    Packet.MAX_CLOCK_SKEW_SECONDS, MIN_PACKET_TTL_SECONDS, MAX_PACKET_TTL_SECONDS,
    MAX_CLOCK_SKEW_SECONDS in *.
  rewrite !(proj2 (Z.ltb_ge _ _)), (proj2 (Z.leb_gt _ _)) by lia. done.
Qed.

Lemma targets_accepted d :
  submission_threads p.(request) = Ok tt ->
  get d "targets" = targets_value p.(request) ->
  Packet.packet_targets d p.(request).(action) = Ok p.(request).(thread_node_ids).
Proof.
  destruct (targets_valid _ (request_valid _ _ _ _ _ Hp)) as [Hi _ _ _ Hn].
  unfold submission_threads, Packet.packet_targets. intros Hs ->.
  unfold targets_value, obj. cbn [Packet.mapping]. read_fields. unfold vstrs.
  assert (E : normalized_ids (map VStr p.(request).(thread_node_ids)) =
              Ok p.(request).(thread_node_ids)).
  { unfold normalized_ids. clear -Hi. induction Hi as [|x l Hx _ IH]; [done |].
    cbn [map]. cbn [res_map]. rewrite IH. unfold text_field.
    change THREAD_ID_RE with TOKEN_RE. by rewrite Hx. }
  rewrite E, bool_decide_true by done. cbn [negb].
  change Packet.MARK_PR_READY with MARK_PR_READY.
  change Packet.RESOLVE_REVIEW_THREAD with RESOLVE_REVIEW_THREAD.
  pose proof actions_differ as Hne.
  destruct (action_cases _ (action_known _ (request_valid _ _ _ _ _ Hp))) as [Ha|Ha]; rewrite Ha in *.
  - rewrite (bool_decide_false (MARK_PR_READY = _)) in * by done. inv_ok Hs.
    by rewrite andb_false_r, (bool_decide_false (_ = RESOLVE_REVIEW_THREAD)).
  - rewrite (bool_decide_false (RESOLVE_REVIEW_THREAD = MARK_PR_READY)) by congruence.
    rewrite (bool_decide_true (RESOLVE_REVIEW_THREAD = _)) in * by done.
    cbn [andb]. by destruct (negb (length _ =? 1)%nat).
Qed.

(** The fields the store reads from a packet the protocol accepted. *)
Definition store_identity (json : pystr) : PacketIdentity :=
  {| id_packet_id := p.(packet_id); id_request_digest := p.(request_digest);
     id_packet_json := json; id_instance_slug := p.(request).(instance_slug);
     id_action := p.(request).(action); id_repo := p.(request).(repo);
     id_pr_number := p.(request).(pr).(pr_number); id_head_sha := p.(request).(pr).(head_sha);
     id_thread_node_ids := p.(request).(thread_node_ids);
     id_created_at := created; id_expires_at := expires |}.

Lemma packet_values : plain_value (packet_value p) /\ depth (packet_value p) <= MAX_JSON_DEPTH /\
  Z.of_nat (size (packet_value p)) <= MAX_JSON_BYTES.
Proof.
  pose proof body_values as Hv. pose proof body_size as Hs.
  pose proof (fullmatch_max PACKET_ID_RE _ 29 eq_refl id_shape) as Hi.
  assert (Hd : length p.(request_digest) = 64%nat) by (rewrite digest_text; apply sha256_hex_length).
  unfold packet_value, packet_dict. fold (obj (body ++
    [("packet_id"%string, VStr p.(packet_id)); ("request_digest"%string, VStr p.(request_digest))])).
  split_and!.
  - apply plain_obj; [vm_compute; reflexivity |]. apply Forall_app. split; [done |].
    repeat constructor; [apply packet_id_plain, id_shape |].
    rewrite digest_text. apply sha256_plain, sha256_text_re.
  - unfold obj, fields, Submission.packet_body, vstr. cbn [app map depth fold_right snd].
    rewrite (proj1 (proj2 request_facts)). done.
  - rewrite size_obj, map_app, list_sum_app.
    cbn [map fst snd size String.length]. rewrite Hd. cbn [list_sum fold_right].
    unfold MAX_JSON_BYTES. lia.
Qed.

Lemma packet_wf : wf (packet_value p).
Proof. apply plain_wf, packet_values. Qed.

Lemma submission_identity t :
  current = us t -> submission_threads p.(request) = Ok tt ->
  packet_identity (packet_dict p) t =
    if (p.(request).(pr).(pr_number) <=? 2 ^ 31 - 1)%Z
    then Ok (store_identity (dumps (packet_value p)))
    else Raise (BrokerStoreError "packet pr number must be a positive integer").
Proof.
  intros Ht Hs. pose proof (request_valid _ _ _ _ _ Hp) as Hr.
  pose proof Hr as [H1 H2 H3 H4 H5 H6 H7].
  unfold packet_identity. rewrite header_accepted, digests_accepted, times_accepted by done.
  assert (E : get (packet_dict p) "request" = request_value p.(request)).
  { unfold packet_dict, Submission.packet_body. cbn [app]. by read_fields. }
  rewrite E. unfold request_value at 1, obj. cbn [Packet.mapping]. read_fields.
  unfold text_field. change INSTANCE_RE with INSTANCE_SLUG_RE. rewrite H1. cbn [negb].
  assert (Ha : packet_action (VStr p.(request).(action)) = Ok p.(request).(action)).
  { unfold packet_action, in_strings. rewrite bool_decide_true; [done |].
    by destruct (action_cases _ H2) as [-> | ->]; [left | right; left]. }
  rewrite Ha, H3. cbn [negb]. unfold pr_value, obj. cbn [Packet.mapping]. read_fields.
  destruct H4 as [Hn Hu Hb Hh Hl]. unfold Packet.positive_int.
  destruct (Z.leb_spec p.(request).(pr).(pr_number) (2 ^ 31 - 1)) as [Hle|Hgt].
  - rewrite (proj2 (Z.leb_gt _ 0)), (proj2 (Z.ltb_ge (2 ^ 31 - 1) _)) by lia. cbn [orb].
    read_fields. rewrite Hh. cbn [negb]. rewrite targets_accepted; [|done | by read_fields].
    destruct packet_values as (Hpv & Hd & Hz).
    fold (packet_value p). rewrite canonical_json_plain by done. done.
  - rewrite (proj2 (Z.ltb_lt (2 ^ 31 - 1) _)) by lia. by rewrite orb_true_r.
Qed.
End Packet.
