(* ===== verification/Ingress.v ===== *)
(** * The ingress of the broker: what passes the protocol boundary

    The properties of Protocol.v and Submission.v: normal forms, the trust and
    budget facts of a configuration, the validity interval of a packet, the
    policy a submission satisfies, and the agreement with the store. *)

From S2P Require Import Prelude Regex Sha256 PyTime PyUrl Json JsonFacts JsonSize Packet Protocol ConfigFacts Submission UrlFacts SubmissionFacts Boundary.
Local Open Scope Z_scope.

(** ** A concrete configuration and packet *)

Definition demo_config : Config :=
  {| enabled := true; broker_id := str "broker-1"; broker_uid := 900;
     transport := {| socket_path := str "/run/broker.sock"; requester_uid := 901;
                     submit_gid := 902; max_request_bytes := 65536;
                     request_timeout_seconds := 30 |};
     github_app := {| app_id := 1; app_slug := str "lomein"; installation_id := 2;
                      github_private_key_path := str "/etc/broker/app.pem" |};
     receipt_signing := {| key_id := str "key-1";
                           receipt_private_key_path := str "/etc/broker/receipt.pem";
                           receipt_public_key_path := str "/etc/broker/receipt.pub";
                           public_key_sha256 := replicate 64 48%N |};
     database_path := str "/var/lib/broker/state.db";
     slug := str "demo";
     repository := {| full_name := str "octo/repo"; repository_id := 5;
                      default_branch := str "main" |};
     policy := {| allowed_actions := ALLOWED_ACTIONS; expected_author := str "lomein[bot]";
                  required_checks := [str "ci"]; allow_no_checks := false;
                  forbidden_prefixes := [str ".github"]; maximum_clock_skew := 60;
                  accepted_conclusions := [str "SUCCESS"]; maximum_changed_files := 100;
                  minimum_rate_limit_remaining := 10; maximum_packet_ttl := 900 |};
     budgets := {| budget_requests_per_hour := 20; mutation_attempts_per_day := 10;
                   daily_mark_ready := 5; daily_resolve := 8;
                   consecutive_indeterminate := 3 |} |}.

(** 2026-01-01T00:00:00Z *)
Definition T0 : Z := 1767225600.

Definition demo_request (n : Z) : Request :=
  {| instance_slug := str "demo"; action := MARK_PR_READY; observed_at := utc_text T0;
     repo := str "octo/repo";
     pr := {| pr_number := n; pr_url := canonical_url (expected_path (str "octo/repo") n) [];
              base_branch := str "main";
              head_sha := str "0123456789abcdef0123456789abcdef01234567";
              author_login := str "lomein[bot]"; is_draft := true |};
     preconditions := {| checks_state := str "success"; thread_count := 0;
                         commands_sha256 := replicate 64 49%N;
                         result_sha256 := replicate 64 50%N;
                         evidence_url := canonical_url (expected_path (str "octo/repo") n)
                                           (str "issuecomment-12") |};
     thread_node_ids := []; thread_urls := [] |}.

(** The packet of a request, sealed with its digest. *)
Definition seal_packet (r : Request) (created expires : Z) : Submission.Packet :=
  let digest := match sha256_json (obj (Submission.packet_body (utc_text created)
                                          (utc_text expires) r)) with
                | Ok h => h | Raise _ => [] end in
  {| created_at := utc_text created; expires_at := utc_text expires; request := r;
     packet_id := str "jlpa-" ++ take 24 digest; request_digest := digest |}.

Definition demo_packet : Submission.Packet :=
  Eval vm_compute in seal_packet (demo_request 7) T0 (T0 + 600).
Definition large_packet : Submission.Packet :=
  Eval vm_compute in seal_packet (demo_request (2 ^ 31)) T0 (T0 + 600).

Definition demo_now : clock := Aware (us (T0 + 10)).

(** Decides an acceptance on concrete inputs. *)
Ltac accepted := vm_compute; reflexivity.

Example demo_config_accepted : normalize_config (config_value demo_config) = Ok demo_config.
Proof. accepted. Qed.

Example demo_packet_accepted :
  verify_protected_packet (packet_value demo_packet) demo_now 0 = Ok demo_packet.
Proof. accepted. Qed.

Example demo_submission_accepted :
  normalize_submission (submission_value demo_packet) (config_value demo_config) demo_now 0 0 =
    Ok demo_packet.
Proof. accepted. Qed.

Example large_submission_accepted :
  normalize_submission (submission_value large_packet) (config_value demo_config) demo_now 0 0 =
    Ok large_packet.
Proof. accepted. Qed.

(** ** Configuration *)

(** A configuration that is accepted is valid, and its normalised mapping
    is a fixed point: it is accepted, gives the same record, and has the digest
    the store is bound to. *)
Theorem config_normal_form raw c (H : normalize_config raw = Ok c) :
  config_ok c /\ normalize_config (config_value c) = Ok c /\
  config_digest (config_value c) = config_digest raw.
Proof.
  pose proof (config_sound _ _ H) as Hc. split; [done |].
  pose proof (config_complete _ Hc) as Hn. split; [done |].
  unfold config_digest. by rewrite H, Hn.
Qed.

Example config_normal_form_witness :
  normalize_config (config_value demo_config) = Ok demo_config /\
  config_digest (config_value demo_config) = config_digest (config_value demo_config).
Proof.
  assert (H : normalize_config (config_value demo_config) = Ok demo_config) by accepted.
  destruct (config_normal_form _ _ H) as (_ & H1 & H2). split; [exact H1 | exact H2].
Defined.

(** The budgets of an accepted configuration are limits the store's
    constructor takes, no action's daily limit exceeds the daily mutation limit,
    and a single indeterminate outcome is always within the circuit's limit. *)
Theorem configured_limits_valid raw c (H : normalize_config raw = Ok c) :
  exists l,
    BudgetLimits_post_init
      (VInt c.(budgets).(budget_requests_per_hour))
      (VInt c.(budgets).(mutation_attempts_per_day))
      (VInt c.(budgets).(daily_mark_ready)) (VInt c.(budgets).(daily_resolve))
      (VInt c.(budgets).(consecutive_indeterminate)) = Ok l /\
    (forall a limit, action_daily_limit l a = Ok limit -> 1 <= limit <= l.(daily_mutations)) /\
    1 <= l.(requests_per_hour) /\ 1 <= l.(consecutive_indeterminate_limit) <= 20.
Proof.
  pose proof (budgets_valid _ (config_sound _ _ H)) as [H1 H2 H3 H4 H5].
  eexists. split.
  - unfold BudgetLimits_post_init, limit_field.
    rewrite !(proj2 (Z.ltb_ge _ _)) by lia. cbn [orb]. reflexivity.
  - split_and!; simpl; try lia. intros a limit Ha. unfold action_daily_limit in Ha.
    cbn in Ha. inv_ok Ha; lia.
Qed.

Example configured_limits_valid_witness :
  exists l, 1 <= l.(requests_per_hour) /\ 1 <= l.(consecutive_indeterminate_limit) <= 20.
Proof.
  assert (H : normalize_config (config_value demo_config) = Ok demo_config) by accepted.
  destruct (configured_limits_valid _ _ H) as (l & _ & _ & H1 & H2). exists l. split; [exact H1 | exact H2].
Defined.

(** A peer is authorised exactly when its user id is the configured
    requester, which is never the broker's own identity. *)
Theorem requester_authorized config peer u :
  validate_requester_uid config peer = Ok u <->
  exists c, normalize_config config = Ok c /\ peer = VInt u /\
    u = c.(transport).(requester_uid) /\ u <> c.(broker_uid).
Proof.
  unfold validate_requester_uid. split.
  - intros H. inv_ok H. apply id_number_inv in E0 as [-> Hu]. eexists. split; [done |].
    split; [done |]. split; [by apply Z.eqb_eq | by apply Z.eqb_neq].
  - intros (c & Hn & -> & -> & Hne).
    pose proof (requester_range _ _ (transport_valid _ (config_sound _ _ Hn))) as Hr.
    rewrite Hn. unfold uid. rewrite id_number_ok by done.
    rewrite Z.eqb_refl, (proj2 (Z.eqb_neq _ _)) by done. done.
Qed.

(** ** Packets *)

(** The acceptance of a text as a packet depends on the clock only through
    an interval of at most 300 + 3600 seconds around its creation: once
    accepted, the same text is accepted at every instant from 300 seconds before
    its creation until its expiry, with the same result, and at no other. *)
Theorem packet_validity_interval raw now utcnow p
    (H : verify_protected_packet raw now utcnow = Ok p) :
  exists created expires,
    p.(created_at) = utc_text created /\ p.(expires_at) = utc_text expires /\
    60 <= expires - created <= 3600 /\
    forall t utcnow', in_us_range (t + us 300) ->
      (us (created - 300) <= t < us expires ->
         verify_protected_packet raw (Aware t) utcnow' = Ok p) /\
      (~ us (created - 300) <= t < us expires ->
         exists m, verify_protected_packet raw (Aware t) utcnow' = Raise (BrokerProtocolError m)).
Proof.
  destruct (verify_inv _ _ _ _ H) as (c & e & o & t0 & _ & Hp & Hall).
  exists c, e. split_and!; try apply Hp. intros t u' Hr.
  specialize (Hall (Aware t) u' t eq_refl). rewrite Hall. split.
  - intros [H1 H2]. rewrite packet_current_ok; try done. unfold us, MAX_CLOCK_SKEW_SECONDS in *. lia.
  - intros Hn. unfold packet_current. rewrite add_seconds_ok by done.
    destruct (Z.ltb_spec (t + us MAX_CLOCK_SKEW_SECONDS) (us c)); [by eexists |].
    destruct (Z.leb_spec (us e) t); [by eexists |].
    exfalso. apply Hn. unfold us, MAX_CLOCK_SKEW_SECONDS in *. lia.
Qed.

Example packet_validity_interval_witness :
  verify_protected_packet (packet_value demo_packet) (Aware (us (T0 - 300))) 0 = Ok demo_packet /\
  exists created expires, 60 <= expires - created <= 3600 /\
    demo_packet.(created_at) = utc_text created.
Proof.
  assert (H : verify_protected_packet (packet_value demo_packet) demo_now 0 = Ok demo_packet)
    by accepted.
  split; [accepted |].
  destruct (packet_validity_interval _ _ _ _ H) as (c & e & Hc & _ & Hl & _).
  exists c, e. split; [exact Hl | exact Hc].
Defined.

(** The clock is past the year 1000, where the timestamps the protocol writes
    have four-digit years. *)
Definition clock_sane (current : Z) : Prop := us (-30610220400) <= current.

Lemma packet_in_clock_range p c e o t :
  packet_ok p c e o t -> clock_sane t -> in_clock_range c /\ in_clock_range e.
Proof.
  intros [_ _ _ _ [_ Hc] [_ He] _ Hl _ _ _ _ _ _ Hx] Ht.
  unfold clock_sane, us, in_clock_range, MIN_PACKET_TTL_SECONDS, MAX_PACKET_TTL_SECONDS in *. lia.
Qed.

(** C37: a verified packet is in normal form: its rebuilt mapping is accepted at
    the same instant and gives the packet back, its request satisfies the shape
    and consistency rules, and its identifier and digest are those of its body. *)
Theorem packet_normal_form raw now utcnow p t
    (H : verify_protected_packet raw now utcnow = Ok p) (Hnow : current_utc now utcnow = Ok t)
    (Ht : clock_sane t) :
  verify_protected_packet (packet_value p) now utcnow = Ok p /\
  request_ok p.(request) /\
  p.(request_digest) =
    sha256_text (dumps (obj (Submission.packet_body p.(created_at) p.(expires_at) p.(request)))) /\
  p.(packet_id) = str "jlpa-" ++ take 24 p.(request_digest).
Proof.
  destruct (verify_inv _ _ _ _ H) as (c & e & o & t' & Hnow' & Hp & _).
  rewrite Hnow in Hnow'. injection Hnow' as <-.
  destruct (packet_in_clock_range _ _ _ _ _ Hp Ht) as [Hc He].
  split; [by eapply verify_complete |].
  split; [apply Hp |]. split; [by eapply digest_text | apply Hp].
Qed.

Example packet_normal_form_witness :
  clock_sane (us (T0 + 10)) /\
  verify_protected_packet (packet_value demo_packet) demo_now 0 = Ok demo_packet /\
  request_ok demo_packet.(request).
Proof.
  assert (H : verify_protected_packet (packet_value demo_packet) demo_now 0 = Ok demo_packet)
    by accepted.
  assert (Ht : clock_sane (us (T0 + 10))) by (vm_compute; discriminate).
  destruct (packet_normal_form _ _ _ _ _ H eq_refl Ht) as (H1 & H2 & _).
  split; [exact Ht | split; [exact H1 | exact H2]].
Defined.

(** Every URL the boundary lets through is a canonical URL of the bound
    pull request, whatever the spelling of the submitted one, and canonical URLs
    are fixed points. *)
Theorem github_url_canonical v field repo n kind u
    (Hr : fullmatch REPO_RE repo = true) (Hn : 0 <= n)
    (H : github_url v field repo n kind = Ok u) :
  (exists frag, u = str "https://github.com/" ++ repo ++ str "/pull/" ++ dec n ++
                    (if non_empty frag then str "#" ++ frag else []) /\ fragment_ok kind frag) /\
  github_url (VStr u) field repo n kind = Ok u.
Proof.
  apply github_url_inv in H. split.
  - destruct H as (frag & -> & Hf & _). exists frag. split; [|done].
    unfold canonical_url, expected_path. rewrite <- !app_assoc. done.
  - apply github_url_ok; [by apply repo_safe | done | done].
Qed.

Definition odd_url : value :=
  vstr "  HTTPS://GitHub.COM/octo/repo/pull/7;?#issuecomment-12".

Example github_url_canonical_witness :
  github_url odd_url "url" (str "octo/repo") 7 UrlEvidence =
    Ok (str "https://github.com/octo/repo/pull/7#issuecomment-12") /\
  github_url (vstr "https://github.com/octo/repo/pull/7#issuecomment-12") "url"
    (str "octo/repo") 7 UrlEvidence =
    Ok (str "https://github.com/octo/repo/pull/7#issuecomment-12").
Proof.
  assert (Hr : fullmatch REPO_RE (str "octo/repo") = true) by accepted.
  assert (H : github_url odd_url "url" (str "octo/repo") 7 UrlEvidence =
    Ok (str "https://github.com/octo/repo/pull/7#issuecomment-12")) by accepted.
  assert (Hn : 0 <= 7) by lia.
  split; [exact H |]. apply (github_url_canonical _ _ _ _ _ _ Hr Hn H).
Defined.

(** ** Submissions *)

Lemma submission_inv raw config now u1 u2 p :
  normalize_submission raw config now u1 u2 = Ok p ->
  exists c d, normalize_config config = Ok c /\ raw = VDict d /\
    strict_keys d "broker submission" ["schema_version"; "packet"] = Ok tt /\
    get d "schema_version" = vstr SUBMISSION_SCHEMA /\ c.(enabled) = true /\
    verify_protected_packet (get d "packet") now u1 = Ok p /\
    submission_policy p.(request) c = Ok tt /\
    submission_times p c.(policy) now u2 = Ok tt /\
    submission_threads p.(request) = Ok tt.
Proof.
  unfold normalize_submission. intros H. inv_ok H. facts.
  repeat match goal with u : unit |- _ => destruct u end.
  do 2 eexists. split_and!; done.
Qed.

Lemma submission_complete raw config now u1 u2 p c d :
  normalize_config config = Ok c -> raw = VDict d ->
  strict_keys d "broker submission" ["schema_version"; "packet"] = Ok tt ->
  get d "schema_version" = vstr SUBMISSION_SCHEMA -> c.(enabled) = true ->
  verify_protected_packet (get d "packet") now u1 = Ok p ->
  submission_policy p.(request) c = Ok tt ->
  submission_times p c.(policy) now u2 = Ok tt ->
  submission_threads p.(request) = Ok tt ->
  normalize_submission raw config now u1 u2 = Ok p.
Proof.
  intros H1 -> H2 H3 H4 H5 H6 H7 H8. unfold normalize_submission. rewrite H1. cbn [mapping].
  rewrite H2, H3, constant_field_ok, H4. cbn [negb]. by rewrite H5, H6, H7, H8.
Qed.

(** What the policy lets a packet ask for. *)
Record within_policy (c : Config) (r : Request) : Prop := WithinPolicy {
  same_instance : r.(instance_slug) = c.(slug);
  same_repo : r.(repo) = c.(repository).(full_name);
  same_base : r.(pr).(base_branch) = c.(repository).(default_branch);
  same_author : r.(pr).(author_login) = c.(policy).(expected_author);
  action_allowed : r.(action) ∈ c.(policy).(allowed_actions);
  checks_claimed : r.(preconditions).(checks_state) = str "success" \/
    c.(policy).(allow_no_checks) = true;
  one_target : (r.(action) = MARK_PR_READY /\ r.(thread_node_ids) = []) \/
    (r.(action) = RESOLVE_REVIEW_THREAD /\ exists thread, r.(thread_node_ids) = [thread]) }.

(** C9: an accepted submission comes from an enabled broker and asks, within the
    configured instance, repository, branch, author and actions, for one effect
    on at most one thread; its lifetime and its clock skew respect the policy. *)
Theorem submission_enforces_policy raw config t u1 u2 p
    (H : normalize_submission raw config (Aware t) u1 u2 = Ok p) :
  exists c created expires,
    normalize_config config = Ok c /\ c.(enabled) = true /\ within_policy c p.(request) /\
    strptime p.(created_at) = Some created /\ strptime p.(expires_at) = Some expires /\
    60 <= expires - created <= c.(policy).(maximum_packet_ttl) /\
    us created <= t + us c.(policy).(maximum_clock_skew) /\ t < us expires.
Proof.
  apply submission_inv in H as (c & d & Hc & -> & _ & _ & Hen & Hv & Hpol & Ht & Hthr).
  destruct (verify_inv _ _ _ _ Hv) as (cr & ex & ob & t' & [= <-] & Hp & _).
  pose proof (request_valid _ _ _ _ _ Hp) as Hr.
  unfold submission_times in Ht. inv_ok Ht.
  repeat match goal with
  | H : parse_utc _ _ = Ok _ |- _ => apply parse_utc_inv in H as (? & [= <-] & ?)
  end.
  match goal with H : current_utc _ _ = Ok _ |- _ => injection H as <- end.
  match goal with H : add_seconds _ _ = Ok _ |- _ => apply add_seconds_inv in H end. subst.
  pose proof (created_range _ _ _ _ _ Hp) as [Hcr _].
  exists c, a, a0. split_and!; try done.
  - unfold submission_policy in Hpol. inv_ok Hpol. constructor; try done.
    + destruct Hr as [_ _ _ _ [Hk _ _ _ _] _ _]. revert Hk. rewrite !elem_of_cons.
      intros [Hk|[Hk|Hk]]; [by left | right | by apply not_elem_of_nil in Hk].
      match goal with H : bool_decide _ && negb _ = false |- _ =>
        rewrite Hk, bool_decide_true in H by done; by apply negb_false_iff in H end.
    + unfold submission_threads in Hthr.
      destruct (action_cases _ (action_known _ Hr)) as [Ha|Ha]; rewrite Ha in *.
      * left. split; [done |].
        destruct (action_valid _ Hr) as [Hmark _]. by apply Hmark.
      * right. split; [done |]. inv_ok Hthr.
        match goal with H : (length _ =? 1)%nat = true |- _ => apply Nat.eqb_eq in H end.
        destruct (thread_node_ids _) as [|x [|y l]]; try done. by exists x.
  - assert (a = cr /\ a0 = ex) as [-> ->]; [|apply Hp].
    rewrite (created_text _ _ _ _ _ Hp) in H1. rewrite (expires_text _ _ _ _ _ Hp) in H0.
    destruct (strptime_stable _ _ (created_range _ _ _ _ _ Hp) H1) as [_ ->].
    by destruct (strptime_stable _ _ (expires_range _ _ _ _ _ Hp) H0) as [_ ->].
  - lia.
  - lia.
  - assert (a0 = ex) as ->; [|apply Hp].
    rewrite (expires_text _ _ _ _ _ Hp) in H0.
    by destruct (strptime_stable _ _ (expires_range _ _ _ _ _ Hp) H0) as [_ ->].
Qed.

Example submission_enforces_policy_witness :
  normalize_submission (submission_value demo_packet) (config_value demo_config) demo_now 0 0 =
    Ok demo_packet /\
  exists c, normalize_config (config_value demo_config) = Ok c /\
    within_policy c demo_packet.(request).
Proof.
  assert (H : normalize_submission (submission_value demo_packet) (config_value demo_config)
    demo_now 0 0 = Ok demo_packet) by accepted.
  split; [exact H |].
  destruct (submission_enforces_policy _ _ _ _ _ _ H) as (c & _ & _ & Hc & _ & Hw & _).
  exists c. split; [exact Hc | exact Hw].
Defined.

(** A submission that is accepted, judged again at its packet's creation. *)
Lemma submission_at_creation raw config now u1 u2 p :
  normalize_submission raw config now u1 u2 = Ok p ->
  exists c d dp created expires observed t1 t2,
    normalize_config config = Ok c /\ raw = VDict d /\ get d "packet" = VDict dp /\
    parse_utc (get dp "created_at") "protected-action packet created_at" = Ok created /\
    current_utc now u1 = Ok t1 /\ current_utc now u2 = Ok t2 /\
    packet_ok p created expires observed t1 /\
    in_clock_range created /\ in_clock_range expires /\
    us created <= t2 + us c.(policy).(maximum_clock_skew) /\
    submission_policy p.(request) c = Ok tt /\
    forall v1 v2, normalize_submission raw config (Aware (us created)) v1 v2 = Ok p.
Proof.
  intros H. apply submission_inv in H as (c & d & Hc & -> & Hk & Hs & Hen & Hv & Hpol & Ht & Hthr).
  destruct (verify_inv _ _ _ _ Hv) as (cr & ex & ob & t' & Hnow & Hp & Hall).
  destruct (verify_window _ _ _ _ Hv) as (dp & cr' & ex' & Hdp & Hcr & Hr1 & Hr2 & Hw1 & Hw2).
  pose proof (skew_range _ (policy_valid _ (config_sound _ _ Hc))) as Hskew.
  pose proof (evidence_bounds _ _ _ _ _ Hp) as [Hb1 Hb2].
  assert (Ht' := Ht). unfold submission_times in Ht'. inv_ok Ht'.
  repeat match goal with
  | H : parse_utc (VStr _) _ = Ok _ |- _ => apply parse_utc_inv in H as (? & [= <-] & ?)
  | H : add_seconds _ _ = Ok _ |- _ => apply add_seconds_inv in H; subst
  end.
  match goal with H1 : strptime (created_at p) = Some _, H2 : strptime (expires_at p) = Some _ |- _ =>
    rename H1 into Hs1, H2 into Hs2 end.
  pose proof Hs1 as Hs1'. rewrite Hw1 in Hs1'. apply strptime_stable in Hs1' as [_ Eq1]; [|done].
  rewrite (created_text _ _ _ _ _ Hp) in Hs1. rewrite (expires_text _ _ _ _ _ Hp) in Hs2.
  apply strptime_stable in Hs1 as [Hc1 Eq2], Hs2 as [Hc2 Eq3]; try by apply Hp.
  assert (cr' = cr) as -> by congruence.
  match goal with H : current_utc now u2 = Ok ?t |- _ =>
    exists c, d, dp, cr, ex, ob, t', t end.
  split_and!; try done; [unfold us in *; lia |]. intros v1 v2. eapply submission_complete; try done.
  - rewrite (Hall (Aware (us cr)) v1 (us cr) eq_refl). rewrite packet_current_ok; [done | | done |].
    + unfold us, MAX_CLOCK_SKEW_SECONDS. lia.
    + pose proof (lifetime _ _ _ _ _ Hp). unfold us, MIN_PACKET_TTL_SECONDS in *. lia.
  - unfold submission_times in *. case_res Ht. case_res Ht. case_res Ht. cbn [current_utc].
    match goal with E : parse_utc (VStr (created_at p)) _ = Ok ?x |- _ =>
      rename E into Ep; assert (x = cr) as -> end.
    { apply parse_utc_inv in Ep as (s & [= <-] & Hps). rewrite (created_text _ _ _ _ _ Hp) in Hps.
      by destruct (strptime_stable _ _ (created_range _ _ _ _ _ Hp) Hps). }
    rewrite add_seconds_ok.
    + rewrite (proj2 (Z.ltb_ge _ _)); [done |]. unfold us. lia.
    + unfold in_us_range, us, MAX_CLOCK_SKEW_SECONDS, MAX_PACKET_EVIDENCE_AGE_SECONDS in *. lia.
Qed.

(** The lookup of earlier receipts is never stricter than the submission
    itself: a submission that is accepted now is also accepted, with the same
    packet, at the packet's own creation time, the instant the service uses to
    find the receipt of a packet that may have expired since. *)
Theorem replay_admits raw config now u1 u2 p
    (H : normalize_submission raw config now u1 u2 = Ok p) :
  exists created,
    p.(created_at) = utc_text created /\
    forall v1 v2, normalize_submission raw config (Aware (us created)) v1 v2 = Ok p.
Proof.
  apply submission_at_creation in H
    as (c & d & dp & created & ex & ob & t1 & t2 & _ & _ & _ & _ & _ & _ & Hp & _ & _ & _ & _ & Hall).
  exists created. split; [apply Hp | exact Hall].
Qed.

Example replay_admits_witness :
  exists created, demo_packet.(created_at) = utc_text created /\
    normalize_submission (submission_value demo_packet) (config_value demo_config)
      (Aware (us created)) 0 0 = Ok demo_packet.
Proof.
  assert (H : normalize_submission (submission_value demo_packet) (config_value demo_config)
    demo_now 0 0 = Ok demo_packet) by accepted.
  destruct (replay_admits _ _ _ _ _ _ H) as (c & Hc & Hr).
  exists c. split; [exact Hc | exact (Hr 0 0)].
Defined.

(** C27: agreement with the store. A submission the protocol accepts at a whole
    second is accepted by the store's own packet check at that second, which
    reads exactly the verified fields, unless the pull request number is beyond
    the store's 31-bit bound: then the store refuses it, although the protocol
    does not.  Either way the packet is one the store's encoding round-trips. *)
Theorem ingress_meets_store raw config t u1 u2 p
    (H : normalize_submission raw config (Aware (us t)) u1 u2 = Ok p) (Ht : clock_sane (us t)) :
  wf (packet_value p) /\
  exists created expires,
    strptime p.(created_at) = Some created /\ strptime p.(expires_at) = Some expires /\
    packet_identity (packet_dict p) t =
      if (p.(request).(pr).(pr_number) <=? 2 ^ 31 - 1)%Z
      then Ok (store_identity p created expires (dumps (packet_value p)))
      else Raise (BrokerStoreError "packet pr number must be a positive integer").
Proof.
  apply submission_inv in H as (c & d & _ & -> & _ & _ & _ & Hv & _ & _ & Hthr).
  destruct (verify_inv _ _ _ _ Hv) as (cr & ex & ob & t' & [= <-] & Hp & _).
  destruct (packet_in_clock_range _ _ _ _ _ Hp Ht) as [Hcr Hex].
  split; [by eapply packet_wf |]. exists cr, ex.
  rewrite (created_text _ _ _ _ _ Hp), (expires_text _ _ _ _ _ Hp), !strptime_utc_text by done.
  split_and!; try done. by eapply submission_identity.
Qed.

Example ingress_meets_store_witness :
  normalize_submission (submission_value large_packet) (config_value demo_config) demo_now 0 0 =
    Ok large_packet /\
  packet_identity (packet_dict large_packet) (T0 + 10) =
    Raise (BrokerStoreError "packet pr number must be a positive integer") /\
  is_ok (packet_identity (packet_dict demo_packet) (T0 + 10)) = true.
Proof.
  assert (H1 : normalize_submission (submission_value large_packet) (config_value demo_config)
    demo_now 0 0 = Ok large_packet) by accepted.
  assert (H2 : normalize_submission (submission_value demo_packet) (config_value demo_config)
    demo_now 0 0 = Ok demo_packet) by accepted.
  assert (Ht : clock_sane (us (T0 + 10))) by (vm_compute; discriminate).
  destruct (ingress_meets_store _ _ _ _ _ _ H1 Ht) as (_ & c1 & e1 & _ & _ & E1).
  destruct (ingress_meets_store _ _ _ _ _ _ H2 Ht) as (_ & c2 & e2 & _ & _ & E2).
  split; [exact H1 |]. split; [exact E1 | rewrite E2; reflexivity].
Defined.

(** ** The evidence marker *)

Lemma cut_unique (s1 s2 t1 t2 : pystr) :
  32%N ∉ s1 -> 32%N ∉ s2 -> s1 ++ 32%N :: t1 = s2 ++ 32%N :: t2 -> s1 = s2 /\ t1 = t2.
Proof.
  intros H1 H2 E. pose proof (cut_app 32 s1 t1 H1) as C1. pose proof (cut_app 32 s2 t2 H2) as C2.
  rewrite E in C1. by simplify_eq.
Qed.

Lemma hex_safe a : hexdig a = true -> urlsafe a = true.
Proof.
  intros H. apply (ascii_cases hexdig urlsafe); [vm_compute; reflexivity | | done].
  apply hexdig_plain in H. destruct H; lia.
Qed.

Lemma sha256_safe s : fullmatch SHA256_RE s = true -> safe_url s.
Proof. apply fullmatch_within. simpl. apply hex_safe. Qed.

Lemma oid_safe s : fullmatch OID_RE s = true -> safe_url s.
Proof. apply fullmatch_within. split; simpl; apply hex_safe. Qed.

Lemma slug_safe s : fullmatch INSTANCE_SLUG_RE s = true -> safe_url s.
Proof.
  apply fullmatch_within. split; [exact alnum_urlsafe |]. intros a. by apply alnum_or_urlsafe.
Qed.

Lemma action_safe a : a ∈ ALLOWED_ACTIONS -> safe_url a.
Proof. intros [-> | ->]%action_cases; by apply safe_str. Qed.

(** The evidence marker identifies what it vouches for: valid requests with
    the same marker agree on instance, action, head commit, verification
    commands and verification result. *)
Theorem evidence_marker_injective r1 r2
    (H1 : request_ok r1) (H2 : request_ok r2) (E : evidence_marker r1 = evidence_marker r2) :
  r1.(instance_slug) = r2.(instance_slug) /\ r1.(action) = r2.(action) /\
  r1.(pr).(head_sha) = r2.(pr).(head_sha) /\
  r1.(preconditions).(commands_sha256) = r2.(preconditions).(commands_sha256) /\
  r1.(preconditions).(result_sha256) = r2.(preconditions).(result_sha256).
Proof.
  destruct H1 as [A1 A2 _ [_ _ _ A3 _] [_ _ A4 A5 _] _ _].
  destruct H2 as [B1 B2 _ [_ _ _ B3 _] [_ _ B4 B5 _] _ _].
  apply slug_safe in A1, B1. apply action_safe in A2, B2. apply oid_safe in A3, B3.
  apply sha256_safe in A4, A5, B4, B5. unfold evidence_marker in E.
  do 2 apply app_inv_head in E.
  change (str " action=") with (32%N :: str "action=") in E.
  change (str " head=") with (32%N :: str "head=") in E.
  change (str " commands=") with (32%N :: str "commands=") in E.
  change (str " result=") with (32%N :: str "result=") in E.
  change (str " -->") with (32%N :: str "-->") in E. cbn [app] in E.
  apply cut_unique in E as [-> E]; [|by apply safe_free..]. apply app_inv_head in E.
  apply cut_unique in E as [-> E]; [|by apply safe_free..]. apply app_inv_head in E.
  apply cut_unique in E as [-> E]; [|by apply safe_free..]. apply app_inv_head in E.
  apply cut_unique in E as [-> E]; [|by apply safe_free..]. apply app_inv_head in E.
  apply cut_unique in E as [-> _]; [|by apply safe_free..]. done.
Qed.

Example evidence_marker_injective_witness :
  evidence_marker_for_packet (packet_value demo_packet) =
    Ok (evidence_marker demo_packet.(request)) /\
  demo_packet.(request).(action) = (demo_request 8).(action).
Proof.
  assert (H : verify_protected_packet (packet_value demo_packet) demo_now 0 = Ok demo_packet)
    by accepted.
  assert (R1 : request_ok demo_packet.(request)).
  { destruct (verify_inv _ _ _ _ H) as (c & e & o & t & _ & Hp & _). exact (request_valid _ _ _ _ _ Hp). }
  assert (R2 : request_ok (demo_request 8)).
  { assert (H8 : verify_protected_packet (packet_value (seal_packet (demo_request 8) T0 (T0 + 600)))
      demo_now 0 = Ok (seal_packet (demo_request 8) T0 (T0 + 600))) by accepted.
    destruct (verify_inv _ _ _ _ H8) as (c & e & o & t & _ & Hp & _).
    exact (request_valid _ _ _ _ _ Hp). }
  split; [accepted |].
  apply (evidence_marker_injective _ _ R1 R2). accepted.
Defined.
