(* ===== verification/Encoding.v ===== *)
(** * Bytes and text

    What [json.loads] does with bytes ([detect_encoding] and the decoders with
    [surrogatepass]), and base64 as receipts and tokens use it.  Bytes are
    [N]s below 256.  [b64_roundtrip] relates the two directions of base64. *)

From S2P Require Import Prelude Regex Sha256 PyUrl.
Local Open Scope N_scope.

Abbreviation bytes := (list N).

Definition UnicodeDecodeError : exn := ValueError "codec can't decode byte".

(** ** Decoding *)

Definition cont (b : N) : bool := (128 <=? b) && (b <=? 191).

(** [b.decode("utf-8", "surrogatepass")]: the shortest forms, up to U+10FFFF;
    three-byte forms of surrogates are let through. *)
Fixpoint utf8_decode (b : bytes) : res pystr :=
  match b with
  | [] => Ok []
  | a :: b1 =>
      if a <? 128 then let* s := utf8_decode b1 in Ok (a :: s)
      else if a <? 194 then Raise UnicodeDecodeError
      else if a <? 224 then
        match b1 with
        | x :: b2 =>
            if cont x then
              let* s := utf8_decode b2 in Ok (((a - 192) * 64 + (x - 128)) :: s)
            else Raise UnicodeDecodeError
        | _ => Raise UnicodeDecodeError
        end
      else if a <? 240 then
        match b1 with
        | x :: y :: b3 =>
            let c := (a - 224) * 4096 + (x - 128) * 64 + (y - 128) in
            if cont x && cont y && (2048 <=? c) then
              let* s := utf8_decode b3 in Ok (c :: s)
            else Raise UnicodeDecodeError
        | _ => Raise UnicodeDecodeError
        end
      else if a <? 245 then
        match b1 with
        | x :: y :: z :: b4 =>
            let c := (a - 240) * 262144 + (x - 128) * 4096 + (y - 128) * 64 + (z - 128) in
            if cont x && cont y && cont z && (65536 <=? c) && (c <=? 1114111) then
              let* s := utf8_decode b4 in Ok (c :: s)
            else Raise UnicodeDecodeError
        | _ => Raise UnicodeDecodeError
        end
      else Raise UnicodeDecodeError
  end.

(** The 16-bit and 32-bit units of a text; [le]: little-endian. *)
Fixpoint units16 (le : bool) (b : bytes) : res (list N) :=
  match b with
  | [] => Ok []
  | [_] => Raise UnicodeDecodeError
  | x :: y :: b' =>
      let* l := units16 le b' in
      Ok ((if le then y * 256 + x else x * 256 + y) :: l)
  end.

Fixpoint units32 (le : bool) (b : bytes) : res pystr :=
  match b with
  | [] => Ok []
  | x :: y :: z :: w :: b' =>
      let c := if le then w * 16777216 + z * 65536 + y * 256 + x
               else x * 16777216 + y * 65536 + z * 256 + w in
      raise_if 1114111 <? c with UnicodeDecodeError ;;
      let* l := units32 le b' in
      Ok (c :: l)
  | _ => Raise UnicodeDecodeError
  end.

Definition high_half (n : N) : bool := (55296 <=? n) && (n <=? 56319).
Definition low_half (n : N) : bool := (56320 <=? n) && (n <=? 57343).

(** Surrogate pairs are joined; a surrogate alone is let through. *)
Fixpoint join_halves (l : list N) : pystr :=
  match l with
  | [] => []
  | h :: ((lo :: l2) as l1) =>
      if high_half h && low_half lo
      then (65536 + (h - 55296) * 1024 + (lo - 56320)) :: join_halves l2
      else h :: join_halves l1
  | [h] => [h]
  end.

Definition utf16_decode (le : bool) (b : bytes) : res pystr :=
  let* l := units16 le b in Ok (join_halves l).

(** [b.startswith(p)] *)
Definition bstarts (b p : bytes) : bool := startswith b p.

(** [b.decode(detect_encoding(b), "surrogatepass")] of [json.loads] *)
Definition json_decode (b : bytes) : res pystr :=
  if bstarts b [0; 0; 254; 255] then units32 false (drop 4 b)
  else if bstarts b [255; 254; 0; 0] then units32 true (drop 4 b)
  else if bstarts b [254; 255] then utf16_decode false (drop 2 b)
  else if bstarts b [255; 254] then utf16_decode true (drop 2 b)
  else if bstarts b [239; 187; 191] then utf8_decode (drop 3 b)
  else
    match b with
    | x :: y :: z :: w :: _ =>
        if x =? 0 then if y =? 0 then units32 false b else utf16_decode false b
        else if y =? 0 then
          if (z =? 0) && (w =? 0) then units32 true b else utf16_decode true b
        else utf8_decode b
    | [x; y] =>
        if x =? 0 then utf16_decode false b
        else if y =? 0 then utf16_decode true b
        else utf8_decode b
    | _ => utf8_decode b
    end.

(** ** Base64 *)

(** The character of a 6-bit value; [c62] and [c63] are ["+/"] or ["-_"]. *)
Definition b64_char (c62 c63 : N) (v : N) : N :=
  if v <? 26 then 65 + v
  else if v <? 52 then 97 + (v - 26)
  else if v <? 62 then 48 + (v - 52)
  else if v =? 62 then c62
  else c63.

Definition b64_val (c : N) : option N :=
  if upper c then Some (c - 65)
  else if lower c then Some (c - 97 + 26)
  else if digit c then Some (c - 48 + 52)
  else if c =? 43 then Some 62
  else if c =? 47 then Some 63
  else None.

Section Encode.
Context (c62 c63 : N).
#[local] Notation chr := (b64_char c62 c63).

Fixpoint b64_encode (b : bytes) : pystr :=
  match b with
  | [] => []
  | [x] => [chr (x / 4); chr ((x mod 4) * 16); 61; 61]
  | [x; y] => [chr (x / 4); chr ((x mod 4) * 16 + y / 16); chr ((y mod 16) * 4); 61]
  | x :: y :: z :: b' =>
      chr (x / 4) :: chr ((x mod 4) * 16 + y / 16) :: chr ((y mod 16) * 4 + z / 64) ::
      chr (z mod 64) :: b64_encode b'
  end.
End Encode.

(** [base64.b64encode(b).decode("ascii")] *)
Definition b64encode : bytes -> pystr := b64_encode 43 47.

(** [base64.urlsafe_b64encode(b).rstrip(b"=").decode("ascii")] *)
Definition base64url (b : bytes) : pystr :=
  List.filter (fun c => negb (c =? 61)) (b64_encode 45 95 b).

Definition Base64Error : exn := ValueError "Only base64 data is allowed".

Definition b64_get (c : N) : res N :=
  match b64_val c with Some v => Ok v | None => Raise Base64Error end.

(** Groups of four characters; only the last one has padding, but any number of
    ["="] may follow complete groups ([started]). *)
Fixpoint b64_groups (started : bool) (s : pystr) : res bytes :=
  if started && forallb (N.eqb 61) s then Ok []
  else
    match s with
    | [] => Ok []
    | a :: b :: c :: d :: s' =>
        let* x := b64_get a in
        let* y := b64_get b in
        if (c =? 61) && (d =? 61) && bool_decide (s' = []) then Ok [x * 4 + y / 16]
        else
          let* z := b64_get c in
          if (d =? 61) && bool_decide (s' = []) then
            Ok [x * 4 + y / 16; (y mod 16) * 16 + z / 4]
          else
            let* w := b64_get d in
            let* r := b64_groups true s' in
            Ok (x * 4 + y / 16 :: (y mod 16) * 16 + z / 4 :: (z mod 4) * 64 + w :: r)
    | _ => Raise Base64Error
    end.

(** [base64.b64decode(s.encode("ascii"), validate=True)] *)
Definition b64decode : pystr -> res bytes := b64_groups false.

(** ** Decoding inverts encoding *)

Lemma below_64 (P : N -> bool) v :
  forallb (fun n => P (N.of_nat n)) (seq 0 64) = true -> v < 64 -> P v = true.
Proof.
  intros H Hv. rewrite forallb_forall in H. rewrite <- (N2Nat.id v). apply H, in_seq. lia.
Qed.

Lemma b64_get_char v : v < 64 -> b64_get (b64_char 43 47 v) = Ok v.
Proof.
  intros Hv.
  pose proof (below_64 (fun v => bool_decide (b64_get (b64_char 43 47 v) = Ok v)) v) as H.
  eapply bool_decide_eq_true, H; [vm_compute; reflexivity | done].
Qed.

Lemma b64_char_pad v : v < 64 -> (b64_char 43 47 v =? 61) = false.
Proof.
  intros Hv. apply negb_true_iff.
  apply (below_64 (fun v => negb (b64_char 43 47 v =? 61)) v); [vm_compute; reflexivity | done].
Qed.

(** Three bytes at a time. *)
Lemma triples_ind (P : bytes -> Prop) :
  P [] -> (forall x, P [x]) -> (forall x y, P [x; y]) ->
  (forall x y z b, P b -> P (x :: y :: z :: b)) -> forall b, P b.
Proof.
  intros H0 H1 H2 H3. fix IH 1. intros [|x [|y [|z b]]]; [exact H0 | exact (H1 x) | exact (H2 x y) | exact (H3 x y z b (IH b))].
Qed.

Ltac sextets := rewrite ?b64_get_char, ?b64_char_pad by
  first [ apply N.mod_lt; lia
        | apply N.Div0.div_lt_upper_bound; lia
        | zify; Z.to_euclidean_division_equations; lia ].

Lemma b64_groups_encode started b :
  Forall (fun x => x < 256) b -> b64_groups started (b64encode b) = Ok b.
Proof.
  unfold b64encode. revert started. induction b as [|x|x y|x y z b IH] using triples_ind;
    intros started Hb; rewrite ?Forall_cons in Hb.
  - by destruct started.
  - destruct Hb as [Hx _]. cbn [b64_encode b64_groups forallb].
    rewrite (N.eqb_sym 61), b64_char_pad by (apply N.Div0.div_lt_upper_bound; lia).
    rewrite andb_false_r. sextets. cbn [N.eqb Pos.eqb andb]. rewrite bool_decide_true by done.
    do 2 f_equal. zify; Z.to_euclidean_division_equations; lia.
  - destruct Hb as (Hx & Hy & _). cbn [b64_encode b64_groups forallb].
    rewrite (N.eqb_sym 61), b64_char_pad by (apply N.Div0.div_lt_upper_bound; lia).
    rewrite andb_false_r. sextets. cbn [N.eqb Pos.eqb andb]. rewrite bool_decide_true by done.
    cbn [andb]. do 2 f_equal; [|f_equal]; zify; Z.to_euclidean_division_equations; lia.
  - destruct Hb as (Hx & Hy & Hz & Hb). cbn [b64_encode b64_groups forallb].
    rewrite (N.eqb_sym 61), b64_char_pad by (apply N.Div0.div_lt_upper_bound; lia).
    rewrite andb_false_r. sextets. cbn [andb]. rewrite IH by done.
    do 2 f_equal; [|f_equal; [|f_equal]]; zify; Z.to_euclidean_division_equations; lia.
Qed.

Lemma b64_roundtrip b : Forall (fun x => x < 256) b -> b64decode (b64encode b) = Ok b.
Proof. apply b64_groups_encode. Qed.

Lemma b64_char_plain v : v < 64 -> plain (b64_char 43 47 v).
Proof.
  intros Hv. apply plainb_plain.
  apply (below_64 (fun v => plainb (b64_char 43 47 v)) v); [vm_compute; reflexivity | done].
Qed.
