(* ===== verification/Effects.v ===== *)
(** * Computations with effects

    The broker's handlers call a clock, GitHub, a signer and the store, and
    catch exceptions.  [M S A] is a computation that returns or raises and
    passes a state [S] on: the state of whatever the calls reach, and for the
    service also the database and the calls made so far.  Nothing is assumed of
    the environment: its operations are functions on a state the development
    never looks into.  [wp] is the weakest precondition, with a rule per
    construct. *)

From S2P Require Import Prelude.

Section Effects.
Context {S : Type}.

Definition M (A : Type) : Type := S -> res A * S.

Definition ret {A} (a : A) : M A := fun s => (Ok a, s).
Definition throw {A} (e : exn) : M A := fun s => (Raise e, s).
(** A step without effects. *)
Definition lift {A} (r : res A) : M A := fun s => (r, s).

Definition bind {A B} (m : M A) (k : A -> M B) : M B := fun s =>
  match m s with
  | (Ok a, s') => k a s'
  | (Raise e, s') => (Raise e, s')
  end.

(** [try: a = m except ...: return h] followed by [k a]; [h] gives the handler
    of the exceptions the clauses catch. *)
Definition attempt {A B} (m : M A) (h : exn -> option (M B)) (k : A -> M B) : M B := fun s =>
  match m s with
  | (Ok a, s') => k a s'
  | (Raise e, s') => match h e with Some handler => handler s' | None => (Raise e, s') end
  end.

(** [try: m except <catch>: raise (wrap e)] *)
Definition rethrow {A} (catch : exn -> bool) (wrap : exn -> exn) (m : M A) : M A := fun s =>
  let '(r, s') := m s in (reraise catch wrap r, s').

(** [try: m finally: cleanup]: what [cleanup] raises replaces the result. *)
Definition ensure {A} (m : M A) (cleanup : M unit) : M A := fun s =>
  let '(r, s') := m s in
  match cleanup s' with
  | (Ok _, s'') => (r, s'')
  | (Raise e, s'') => (Raise e, s'')
  end.

(** ** Weakest preconditions *)

Definition wp {A} (m : M A) (Q : res A -> S -> Prop) (s : S) : Prop := Q (m s).1 (m s).2.

Lemma wp_run {A} (m : M A) Q s r s' : wp m Q s -> m s = (r, s') -> Q r s'.
Proof. unfold wp. intros H E. by rewrite E in H. Qed.

Lemma wp_ret {A} (a : A) (Q : res A -> S -> Prop) s : Q (Ok a) s -> wp (ret a) Q s.
Proof. done. Qed.

Lemma wp_throw {A} e (Q : res A -> S -> Prop) s : Q (Raise e) s -> wp (throw e) Q s.
Proof. done. Qed.

Lemma wp_lift {A} (r : res A) (Q : res A -> S -> Prop) s : Q r s -> wp (lift r) Q s.
Proof. done. Qed.

Lemma wp_bind {A B} (m : M A) (k : A -> M B) Q s :
  wp m (fun r s' => match r with Ok a => wp (k a) Q s' | Raise e => Q (Raise e) s' end) s ->
  wp (bind m k) Q s.
Proof. unfold wp, bind. by destruct (m s) as [[a|e] s']. Qed.

Lemma wp_attempt {A B} (m : M A) (h : exn -> option (M B)) (k : A -> M B) Q s :
  wp m (fun r s' => match r with
    | Ok a => wp (k a) Q s'
    | Raise e => match h e with Some handler => wp handler Q s' | None => Q (Raise e) s' end
    end) s ->
  wp (attempt m h k) Q s.
Proof.
  unfold wp, attempt. destruct (m s) as [[a|e] s']; simpl; [done |]. by destruct (h e).
Qed.

Lemma wp_rethrow {A} catch wrap (m : M A) Q s :
  wp m (fun r s' => Q (reraise catch wrap r) s') s -> wp (rethrow catch wrap m) Q s.
Proof. unfold wp, rethrow. by destruct (m s). Qed.

Lemma wp_mono {A} (m : M A) (Q Q' : res A -> S -> Prop) s :
  wp m Q s -> (forall r s', Q r s' -> Q' r s') -> wp m Q' s.
Proof. unfold wp. auto. Qed.

Lemma wp_and {A} (m : M A) (Q Q' : res A -> S -> Prop) s :
  wp m Q s -> wp m Q' s -> wp m (fun r s' => Q r s' /\ Q' r s') s.
Proof. done. Qed.

(** ** Computations that relate their first and last states *)

Section Keeps.
Context (R : S -> S -> Prop) `{!PreOrder R}.

Definition keeps {A} (m : M A) : Prop := forall s, R s (m s).2.

Lemma keeps_ret {A} (a : A) : keeps (ret a).
Proof. intros s. reflexivity. Qed.

Lemma keeps_throw {A} e : keeps (throw (A := A) e).
Proof. intros s. reflexivity. Qed.

Lemma keeps_lift {A} (r : res A) : keeps (lift r).
Proof. intros s. reflexivity. Qed.

Lemma keeps_bind {A B} (m : M A) (k : A -> M B) :
  keeps m -> (forall a, keeps (k a)) -> keeps (bind m k).
Proof.
  intros Hm Hk s. unfold bind. specialize (Hm s). destruct (m s) as [[a|e] s']; simpl in *; [|done].
  etransitivity; [exact Hm | apply Hk].
Qed.

Lemma keeps_attempt {A B} (m : M A) (h : exn -> option (M B)) (k : A -> M B) :
  keeps m -> (forall e handler, h e = Some handler -> keeps handler) -> (forall a, keeps (k a)) ->
  keeps (attempt m h k).
Proof.
  intros Hm Hh Hk s. unfold attempt. specialize (Hm s).
  destruct (m s) as [[a|e] s']; simpl in *; [etransitivity; [exact Hm | apply Hk] |].
  destruct (h e) as [handler|] eqn:E; [|done]. etransitivity; [exact Hm | by apply (Hh e)].
Qed.

Lemma keeps_rethrow {A} catch wrap (m : M A) : keeps m -> keeps (rethrow catch wrap m).
Proof. intros Hm s. unfold rethrow. specialize (Hm s). by destruct (m s). Qed.
End Keeps.
End Effects.

Arguments M S A : clear implicits.

Notation "'let!' p ':=' m 'in' k" := (bind m (fun x => match x with p => k end))
  (at level 10, p pattern, m at level 200, k at level 200,
   format "'[v' 'let!'  p  ':='  m  'in' '/' k ']'") : py_scope.

(** [try: p = m except: ...] with the rest of the function. *)
Notation "'try!' p ':=' m 'except' h 'in' k" := (attempt m h (fun x => match x with p => k end))
  (at level 10, p pattern, m at level 200, h at level 200, k at level 200,
   format "'[v' 'try!'  p  ':='  m  'except'  h  'in' '/' k ']'") : py_scope.

Create HintDb keeps.
#[export] Hint Resolve keeps_ret keeps_throw keeps_lift keeps_rethrow : keeps.

(** ** Computations that returned *)

Section Runs.
Context {S : Type}.

Lemma bind_inv {A B} (m : M S A) (k : A -> M S B) s b s' :
  bind m k s = (Ok b, s') -> exists a s1, m s = (Ok a, s1) /\ k a s1 = (Ok b, s').
Proof. unfold bind. destruct (m s) as [[a|e] s1]; [eauto | done]. Qed.

Lemma rethrow_inv {A} catch wrap (m : M S A) s a s' :
  rethrow catch wrap m s = (Ok a, s') -> m s = (Ok a, s').
Proof.
  unfold rethrow. destruct (m s) as [[x|e] s1]; simpl; [done |]. by destruct (catch e).
Qed.

Lemma lift_inv {A} (r : res A) (s : S) a s' : lift r s = (Ok a, s') -> r = Ok a /\ s' = s.
Proof. unfold lift. naive_solver. Qed.

Lemma reraise_inv {A} catch wrap (r : res A) a : reraise catch wrap r = Ok a -> r = Ok a.
Proof. destruct r as [|e]; simpl; [done |]. by destruct (catch e). Qed.
End Runs.

(** The steps of a computation that returned. *)
Ltac run_inv :=
  repeat match goal with
  | H : bind _ _ _ = (Ok _, _) |- _ =>
      apply bind_inv in H; let a := fresh "a" in let s := fresh "s" in
      let H1 := fresh "Hrun" in let H2 := fresh "Hrun" in destruct H as (a & s & H1 & H2)
  | H : lift _ _ = (Ok _, _) |- _ => apply lift_inv in H as [? ?]; subst
  | H : rethrow _ _ _ _ = (Ok _, _) |- _ => apply rethrow_inv in H
  | H : ret _ _ = (Ok _, _) |- _ => unfold ret in H; simplify_eq
  | H : throw _ _ = (Ok _, _) |- _ => discriminate H
  | H : (if ?b then throw _ else _) _ = (Ok _, _) |- _ =>
      let E := fresh "Eb" in destruct b eqn:E; [discriminate H |]
  end.

Create HintDb safe.

(** [safe P m]: when [m] returns, [P] of its first state gives [P] of its last
    one; nothing is said of a computation that raises. *)
Section Safe.
Context {S : Type} (P : S -> Prop).

Definition safe {A} (m : M S A) : Prop := forall s a s', P s -> m s = (Ok a, s') -> P s'.

Lemma safe_ret {A} (a : A) : safe (ret a).
Proof. by intros s x s' H [= _ <-]. Qed.

Lemma safe_throw {A} e : safe (throw (A := A) e).
Proof. by intros s x s' H [=]. Qed.

Lemma safe_lift {A} (r : res A) : safe (lift r).
Proof. intros s x s' H E. by apply lift_inv in E as [_ ->]. Qed.

Lemma safe_rethrow {A} catch wrap (m : M S A) : safe m -> safe (rethrow catch wrap m).
Proof. intros Hm s x s' H E%rethrow_inv. by eapply Hm. Qed.

Lemma safe_bind {A B} (m : M S A) (k : A -> M S B) :
  safe m -> (forall a, safe (k a)) -> safe (bind m k).
Proof. intros Hm Hk s x s' H E. run_inv. eapply Hk; [|done]. by eapply Hm. Qed.
End Safe.

#[export] Hint Resolve safe_ret safe_throw safe_lift safe_rethrow : safe.

(** Computations built of safe ones. *)
Ltac keep_safe :=
  repeat match goal with
  | |- safe _ (bind _ _) => apply safe_bind; [|intros ?]
  | |- safe _ (match ?x with _ => _ end) => destruct x
  | |- safe _ (rethrow _ _ _) => apply safe_rethrow
  | _ => solve [eauto with safe]
  end.
