(* ===== verification/Client.v ===== *)
(** * The interface between the broker and GitHub

    [LiveSnapshot] of broker/john_lomein_github_live.py and the
    [LiveActionClient] protocol of broker/john_lomein_broker_actions.py: the
    state of a pull request as the broker reads it and the three operations of
    a live client.  Actions.v and Service.v are proved against any client;
    Live.v is the one the broker uses. *)

From S2P Require Import Prelude Json Effects.
Local Open Scope Z_scope.

(** ** More of a mapping *)

(** [d.get("k", default)] *)
Definition get_default (d : dict) (k : string) (default : value) : value :=
  match dget (str k) d with Some v => v | None => default end.

(** [isinstance(v, Mapping)] *)
Definition as_mapping (v : value) : option dict :=
  match v with VDict d => Some d | _ => None end.

(** [v["k"]] of any object *)
Definition subscript (v : value) (k : string) : res value :=
  match v with
  | VDict d => index d k
  | VList _ => Raise (TypeError "list indices must be integers or slices")
  | VStr _ => Raise (TypeError "string indices must be integers")
  | _ => Raise (TypeError "object is not subscriptable")
  end.

(** [v[0]] of any object; the keys of a mapping are strings. *)
Definition subscript0 (v : value) : res value :=
  match v with
  | VList (x :: _) => Ok x
  | VList [] => Raise IndexError
  | VStr (c :: _) => Ok (VStr [c])
  | VStr [] => Raise IndexError
  | VDict _ => Raise (KeyError "0")
  | _ => Raise (TypeError "object is not subscriptable")
  end.

(** [isinstance(v, list) and all(isinstance(item, str) and item for item in v)]:
    the items. *)
Fixpoint texts (l : list value) : option (list pystr) :=
  match l with
  | [] => Some []
  | VStr ((_ :: _) as s) :: l' =>
      match texts l' with Some r => Some (s :: r) | None => None end
  | _ :: _ => None
  end.

Definition text_list (v : value) : option (list pystr) :=
  match v with VList l => texts l | _ => None end.

(** ** Snapshots *)

Record LiveSnapshot := {
  ls_repository : pystr;
  ls_repository_id : Z;
  ls_pr : dict;
  ls_files : list pystr;
  ls_checks : list dict;
  ls_evidence_comment : dict;
  ls_threads : list dict;
  ls_unresolved_thread_count : Z;
  ls_minimum_rate_limit_remaining : Z }.

Definition as_dict (s : LiveSnapshot) : dict :=
  fields [("repository", VStr s.(ls_repository));
          ("repository_id", VInt s.(ls_repository_id));
          ("pr", VDict s.(ls_pr));
          ("files", VList (map VStr s.(ls_files)));
          ("checks", VList (map VDict s.(ls_checks)));
          ("evidence_comment", VDict s.(ls_evidence_comment));
          ("threads", VList (map VDict s.(ls_threads)));
          ("unresolved_thread_count", VInt s.(ls_unresolved_thread_count));
          ("minimum_rate_limit_remaining", VInt s.(ls_minimum_rate_limit_remaining))].

(** ** Operations *)

(** [S] is the state of what the client talks to, [L] the client object.  The
    pull request number and the URL come out of a packet, so the client gets
    them as they are. *)
Class LiveActionClient (S L : Type) := {
  fetch_snapshot (live : L) (pr_number evidence_comment_url : value) : M S LiveSnapshot;
  mark_pr_ready (live : L) (pr_node_id client_mutation_id : pystr) : M S dict;
  resolve_review_thread (live : L) (thread_id : value) (client_mutation_id : pystr) : M S dict }.

(** [datetime.now(timezone.utc)], in microseconds. *)
Class SystemClock (S : Type) := { utcnow : S -> Z * S }.

Definition read_clock {S} `{SystemClock S} : M S Z := fun s =>
  let '(t, s') := utcnow s in (Ok t, s').

Lemma read_clock_inv {S} `{!SystemClock S} (s : S) t s' : read_clock s = (Ok t, s') -> t = (utcnow s).1.
Proof. unfold read_clock. destruct (utcnow s). by intros [= <- _]. Qed.
