(* ===== verification/Actions.v ===== *)
(** * Preconditions of the protected actions and their execution

    broker/john_lomein_broker_actions.py.  [evaluate_snapshot] compares a
    packet with a live snapshot and the configured policy, function by function
    as the source does it; [desired_state_observed] reads the effect off a
    snapshot; [execute_evaluated_action] calls the mutation and reads it back,
    over any [LiveActionClient].  Objects are [value]s: the packet and the
    configuration are the normalised mappings, but nothing is assumed of them.
    Leading underscores of the source's names are dropped. *)

From S2P Require Import Prelude Regex Sha256 PyTime PyUrl PyText Json Protocol Submission Client Effects.
Local Open Scope Z_scope.

(** ** Constants *)

Definition HARD_FORBIDDEN_PATTERNS : list pystr :=
  [str ".github/workflows/**"; str ".github/actions/**"; str ".github/CODEOWNERS";
   str "CODEOWNERS"; str ".env"; str ".env.*"; str ".npmrc"; str ".gitmodules"].

(** [json.dumps(..., sort_keys=True)] digested *)
Definition digest_json (v : value) : pystr := sha256_text (dumps v).

(** ** Small readers *)

Definition is_false (v : value) : bool := match v with VBool false => true | _ => false end.

Definition utc (v : value) (field : string) : res Z :=
  let e := BrokerActionError "invalid_timestamp" (field +:+ " is invalid") in
  match v with
  | VStr s => match strptime s with Some t => Ok t | None => Raise e end
  | _ => Raise e
  end.

(** The argument [LiveSnapshot | Mapping[str, Any]]. *)
Inductive snapshot_arg := Live (s : LiveSnapshot) | Raw (v : value).

(** A mapping is copied through JSON; its keys are distinct and its numbers
    finite, as in every response the client decodes. *)
Definition snapshot_dict (s : snapshot_arg) : res dict :=
  match s with
  | Live s => Ok (as_dict s)
  | Raw (VDict d) =>
      let* v := loads JSONDecodeError JSONDecodeError (dumps_raw (VDict d)) in
      match v with VDict d' => Ok d' | _ => Raise JSONDecodeError end
  | Raw _ => Raise (BrokerActionError "invalid_live_snapshot" "live snapshot is invalid")
  end.

Definition instance (config : dict) : res dict :=
  match as_mapping (get config "instance") with
  | Some d => Ok d
  | None => Raise (BrokerActionError "invalid_broker_config" "broker instance config is missing")
  end.

Definition repository_config (config : dict) : res dict :=
  let* d := instance config in
  match as_mapping (get d "repository") with
  | Some r => Ok r
  | None => Raise (BrokerActionError "invalid_broker_config" "broker repository config is missing")
  end.

Definition policy_config (config : dict) : res dict :=
  let* d := instance config in
  match as_mapping (get d "policy") with
  | Some p => Ok p
  | None => Raise (BrokerActionError "invalid_broker_config" "broker policy is missing")
  end.

Definition allowed_authors (policy : dict) : res (list pystr) :=
  match text_list (get policy "allowed_pr_authors") with
  | Some authors => Ok authors
  | None =>
      match get policy "expected_pr_author_login" with
      | VStr ((_ :: _) as expected) => Ok [expected]
      | _ => Raise (BrokerActionError "invalid_broker_config"
               "broker PR-author policy is missing")
      end
  end.

(** ** Changed files *)

(** [str(PurePosixPath(path))]: the empty path is a dot. *)
Definition pure_path_text (p : path) : pystr :=
  if bool_decide (root p = []) && bool_decide (parts p = []) then str "." else path_text p.

Definition safe_repo_path (v : value) : res pystr :=
  let e := BrokerActionError "unsafe_changed_path" "changed path is invalid" in
  match v with
  | VStr path =>
      raise_if bool_decide (path = []) || existsb (N.eqb 0) path || has "\" path ||
               startswith path (str "/") with e ;;
      let parsed := path_of path in
      raise_if existsb (fun part => bool_decide (part ∈ [[]; str "."; str ".."])) (parts parsed)
        with e ;;
      raise_if negb (bool_decide (pure_path_text parsed = path))
        with (BrokerActionError "unsafe_changed_path" "changed path is not canonical") ;;
      Ok path
  | _ => Raise e
  end.

(** [tuple(dict.fromkeys(l))] *)
Fixpoint fromkeys (seen l : list pystr) : list pystr :=
  match l with
  | [] => []
  | x :: l' => if bool_decide (x ∈ seen) then fromkeys seen l' else x :: fromkeys (x :: seen) l'
  end.

Definition forbidden_patterns (policy : dict) : res (list pystr) :=
  let configured := match get policy "forbidden_paths" with
    | VList l => VList l
    | _ => get_default policy "forbidden_path_prefixes" (VList [])
    end in
  match text_list configured with
  | Some l => Ok (fromkeys [] (HARD_FORBIDDEN_PATTERNS ++ l))
  | None => Raise (BrokerActionError "invalid_broker_config" "forbidden-path policy is invalid")
  end.

Definition path_matches (path pattern : pystr) : bool :=
  if endswith pattern (str "/") && startswith path pattern then true
  else if negb (existsb (one_of "*?[") pattern) then
    bool_decide (path = pattern) || startswith path (rstrip (ch_of "/") pattern ++ str "/")
  else fnmatchcase path pattern.

Definition int_at_least_one (v : value) : option Z :=
  match v with VInt z => if 0 <? z then Some z else None | _ => None end.

Definition validate_paths (files : value) (policy : dict) : res (list pystr) :=
  match files with
  | VList l =>
      let* normalized := res_map safe_repo_path l in
      raise_if negb (bool_decide (NoDup normalized))
        with (BrokerActionError "duplicate_changed_path"
          "live changed files contain duplicates") ;;
      let* patterns := forbidden_patterns policy in
      raise_if existsb (fun path => existsb (path_matches path) patterns) normalized
        with (BrokerActionError "forbidden_path_changed"
          "pull request changes a broker-forbidden path") ;;
      let e := BrokerActionError "changed_file_limit"
        "pull request changed-file count exceeds broker policy" in
      match int_at_least_one (get_default policy "maximum_changed_files" (VInt 1000)) with
      | Some maximum => raise_if maximum <? zlen normalized with e ;; Ok normalized
      | None => Raise e
      end
  | _ => Raise (BrokerActionError "invalid_live_snapshot" "live changed files are invalid")
  end.

(** ** Checks *)

Definition accepted_conclusions (policy : dict) : res (list pystr) :=
  match text_list (get_default policy "accepted_check_conclusions"
          (VList [vstr "SUCCESS"; vstr "NEUTRAL"; vstr "SKIPPED"])) with
  | Some l => Ok (map upper_text l)
  | None => Raise (BrokerActionError "invalid_broker_config" "accepted-check policy is invalid")
  end.

(** One iteration of the loop: the context's name. *)
Definition validate_check (accepted : list pystr) (raw : value) : res pystr :=
  match raw with
  | VDict raw =>
      let* name := match get raw "name" with
        | VStr ((_ :: _) as name) => Ok name
        | _ => Raise (BrokerActionError "invalid_live_snapshot" "status context name is invalid")
        end in
      if py_eq (get raw "kind") (vstr "check_run") then
        let e := BrokerActionError "check_not_successful"
          "a GitHub check run is pending or unsuccessful" in
        raise_if negb (py_eq (get raw "status") (vstr "COMPLETED")) with e ;;
        let* ok := in_strings (get raw "conclusion") accepted in
        raise_if negb ok with e ;;
        Ok name
      else if py_eq (get raw "kind") (vstr "commit_status") then
        raise_if negb (py_eq (get raw "status") (vstr "SUCCESS"))
          with (BrokerActionError "check_not_successful"
            "a GitHub commit status is pending or unsuccessful") ;;
        Ok name
      else Raise (BrokerActionError "invalid_live_snapshot" "status context kind is invalid")
  | _ => Raise (BrokerActionError "invalid_live_snapshot" "status context is invalid")
  end.

Definition required_checks (policy : dict) : res (list pystr) :=
  let required := match get policy "required_check_contexts" with
    | VList l => VList l
    | _ => get_default policy "required_checks" (VList [])
    end in
  match text_list required with
  | Some l => Ok l
  | None => Raise (BrokerActionError "invalid_broker_config" "required-check policy is invalid")
  end.

Definition validate_checks (checks : value) (policy : dict) : res pystr :=
  match checks with
  | VList l =>
      let* required := required_checks policy in
      let allow_none := truthy (get_default policy "allow_no_checks"
        (get_default policy "allow_no_required_checks" (VBool false))) in
      match l with
      | [] =>
          raise_if negb (bool_decide (required = [])) || negb allow_none
            with (BrokerActionError "required_checks_missing"
              "GitHub returned no status contexts") ;;
          Ok (str "none")
      | _ =>
          let* accepted := accepted_conclusions policy in
          let* names := res_map (validate_check accepted) l in
          raise_if negb (forallb (fun r => bool_decide (r ∈ names)) required)
            with (BrokerActionError "required_checks_missing"
              "one or more configured required checks are missing") ;;
          Ok (str "success")
      end
  | _ => Raise (BrokerActionError "invalid_live_snapshot" "live checks are invalid")
  end.

(** ** Evidence *)

(** The body carries the marker on its first line and nowhere else. *)
Definition marker_bound (body : value) (marker : pystr) : res unit :=
  match body with
  | VStr body =>
      raise_if bool_decide (body = []) || negb (bool_decide (first_line body = marker)) ||
               negb (count_text body marker =? 1)%nat
        with (BrokerActionError "evidence_marker_missing"
          "evidence comment does not carry the exact broker marker") ;;
      Ok tt
  | _ => Raise (BrokerActionError "evidence_marker_missing" "evidence comment body is invalid")
  end.

(** The comment's creation against the packet's times, in microseconds. *)
Definition evidence_window (observed created comment_created skew : Z) : res unit :=
  let e := BrokerActionError "evidence_timestamp_mismatch"
    "evidence comment timestamp is outside the packet window" in
  let* earliest := add_seconds (us observed) (- skew) in
  raise_if us comment_created <? earliest with e ;;
  let* latest := add_seconds (us created) skew in
  raise_if latest <? us comment_created with e ;;
  Ok tt.

Definition validate_evidence (packet : dict) (comment : value) (authors : list pystr)
    (maximum_clock_skew_seconds : Z) : res value :=
  match comment with
  | VDict comment =>
      let* request := index packet "request" in
      let* preconditions := subscript request "preconditions" in
      let* expected_url := subscript preconditions "evidence_comment_url" in
      raise_if negb (py_eq (get comment "url") expected_url)
        with (BrokerActionError "evidence_comment_mismatch"
          "evidence comment URL does not match the packet") ;;
      let* allowed := in_strings (get comment "author_login") authors in
      raise_if negb allowed
        with (BrokerActionError "evidence_author_mismatch"
          "evidence comment author is not an allowed bot identity") ;;
      let* marker := evidence_marker_for_packet (VDict packet) in
      let* _ := marker_bound (get comment "body") marker in
      let* observed_at := subscript request "observed_at" in
      let* observed := utc observed_at "packet observation timestamp" in
      let* created_at := index packet "created_at" in
      let* created := utc created_at "packet creation timestamp" in
      let* comment_created := utc (get comment "created_at") "evidence comment timestamp" in
      let* _ := evidence_window observed created comment_created maximum_clock_skew_seconds in
      let* author := index comment "author_login" in
      let* comment_created_at := index comment "created_at" in
      Ok (obj [("url", expected_url); ("author_login", author);
               ("created_at", comment_created_at);
               ("marker_sha256", VStr (sha256_text marker))])
  | _ => Raise (BrokerActionError "invalid_live_snapshot" "evidence comment is invalid")
  end.

(** ** Review threads *)

Definition thread_error (m : string) : exn := BrokerActionError "invalid_live_snapshot" m.

(** The loop; [ids] are the threads seen. *)
Fixpoint validate_threads (ids : list pystr) (l : list value) : res (list dict) :=
  match l with
  | [] => Ok []
  | VDict raw :: l' =>
      let* id := match get raw "id" with
        | VStr ((_ :: _) as id) =>
            raise_if bool_decide (id ∈ ids)
              with (thread_error "live review-thread id is invalid") ;; Ok id
        | _ => Raise (thread_error "live review-thread id is invalid")
        end in
      raise_if negb (is_true (get raw "is_resolved") || is_false (get raw "is_resolved"))
        with (thread_error "live review-thread resolved state is invalid") ;;
      raise_if negb (is_true (get raw "is_outdated") || is_false (get raw "is_outdated"))
        with (thread_error "live review-thread outdated state is invalid") ;;
      raise_if negb (is_some (text_list (get raw "urls")))
        with (thread_error "review-thread URLs are invalid") ;;
      let* rest := validate_threads (id :: ids) l' in
      Ok (raw :: rest)
  | _ :: _ => Raise (thread_error "live review thread is invalid")
  end.

Definition threads_of (v : value) : res (list dict) :=
  match v with
  | VList l => validate_threads [] l
  | _ => Raise (thread_error "live review threads are invalid")
  end.

(** [[item for item in threads if not item["is_resolved"]]]: the field is a
    boolean. *)
Definition unresolved_of (threads : list dict) : list dict :=
  List.filter (fun t => negb (truthy (get t "is_resolved"))) threads.

Definition matching (target : value) (threads : list dict) : list dict :=
  List.filter (fun t => py_eq (get t "id") target) threads.

(** ** Evaluation *)

Record EvaluatedAction := {
  ev_action : pystr;
  ev_repository : pystr;
  ev_pr_number : Z;
  ev_pr_node_id : pystr;
  ev_head_sha : pystr;
  ev_target_thread_id : value;      (* [VNone] for [None] *)
  ev_already_satisfied : bool;
  ev_before_digest : pystr;
  ev_before : dict }.

(** [int(x)] of a float whose [repr] has no exponent. *)
Definition float_trunc (t : pystr) : Z :=
  if startswith t (str "-") then - digits_val (span is_digit_char (drop 1 t)).1
  else digits_val (span is_digit_char t).1.

(** [int(v)] *)
Definition py_int (v : value) : res Z :=
  match v with
  | VInt z => Ok z
  | VBool b => Ok (b2z b)
  | VStr s => int_text s
  | VFloat t => Ok (float_trunc t)
  | _ => Raise (TypeError "int() argument must be a string or a number")
  end.

(** The repository of the snapshot, of the packet and of the configuration: the
    configured name and id. *)
Definition same_repository (live request repository : dict) : res (value * value) :=
  let expected_repository := get_default repository "full_name" (get repository "repo") in
  let expected_repository_id := get_default repository "id" (get repository "repository_id") in
  raise_if negb (py_eq (get live "repository") expected_repository) ||
           negb (py_eq (get live "repository_id") expected_repository_id) ||
           negb (py_eq (get request "repo") expected_repository)
    with (BrokerActionError "repository_mismatch"
      "live repository does not match broker config") ;;
  Ok (expected_repository, expected_repository_id).

Definition EXACT_PR_FIELDS : list string :=
  ["number"; "url"; "base_branch"; "head_sha"; "author_login"].

(** The loop over [exact_pr_fields]. *)
Fixpoint exact_pr_fields (pr packet_pr : dict) (l : list string) : res unit :=
  match l with
  | [] => Ok tt
  | field :: l' =>
      raise_if negb (py_eq (get pr field) (get packet_pr field))
        with (BrokerActionError ("pr_" +:+ field +:+ "_mismatch")
          ("live pull request " +:+ field +:+ " does not match the packet")) ;;
      exact_pr_fields pr packet_pr l'
  end.

(** The pull request is the packet's, open, on the configured branch, of an
    allowed author and of this repository: its head commit. *)
Definition pr_eligible (pr packet_pr repository policy : dict) (ready_already : bool) :
    res pystr :=
  let* _ := exact_pr_fields pr packet_pr EXACT_PR_FIELDS in
  raise_if negb (py_eq (get pr "is_draft") (get packet_pr "is_draft")) && negb ready_already
    with (BrokerActionError "pr_is_draft_mismatch"
      "live pull request is_draft does not match the packet") ;;
  raise_if negb (py_eq (get pr "state") (vstr "OPEN"))
    with (BrokerActionError "pr_not_open" "pull request is not open") ;;
  raise_if negb (py_eq (get pr "base_branch") (get repository "default_branch"))
    with (BrokerActionError "base_branch_mismatch"
      "pull request base branch does not match broker config") ;;
  let* authors := allowed_authors policy in
  let* allowed := in_strings (get pr "author_login") authors in
  raise_if negb allowed
    with (BrokerActionError "pr_author_mismatch"
      "pull request author is not allowed by broker policy") ;;
  raise_if negb (is_true (get pr "same_repository_head"))
    with (BrokerActionError "cross_repository_head"
      "cross-repository pull requests are not eligible") ;;
  let e := BrokerActionError "invalid_live_snapshot" "live pull request head SHA is invalid" in
  match get pr "head_sha" with
  | VStr head_sha => raise_if negb (fullmatch OID_RE head_sha) with e ;; Ok head_sha
  | _ => Raise e
  end.

(** [maximum_clock_skew_seconds] of the policy *)
Definition policy_skew (policy : dict) : res Z :=
  let e := BrokerActionError "invalid_broker_config" "broker clock-skew policy is invalid" in
  match get_default policy "maximum_clock_skew_seconds" (VInt 300) with
  | VInt skew => raise_if (skew <? 0) || (3600 <? skew) with e ;; Ok skew
  | _ => Raise e
  end.

(** Files, checks and evidence: the changed paths and the evidence. *)
Definition content_eligible (packet live request pr policy : dict) :
    res (list pystr * dict * value) :=
  let* files := validate_paths (get live "files") policy in
  raise_if negb (py_eq (get pr "changed_files") (VInt (zlen files)))
    with (BrokerActionError "changed_file_count_mismatch"
      "live pull request changed-file count is inconsistent") ;;
  let* checks_state := validate_checks (get live "checks") policy in
  match get request "preconditions" with
  | VDict preconditions =>
      raise_if negb (py_eq (get preconditions "checks_state") (VStr checks_state))
        with (BrokerActionError "checks_state_mismatch"
          "live checks state does not match the packet") ;;
      let* authors := allowed_authors policy in
      let* skew := policy_skew policy in
      let* evidence := validate_evidence packet (get live "evidence_comment") authors skew in
      Ok (files, preconditions, evidence)
  | _ => Raise (BrokerActionError "invalid_packet" "packet preconditions are invalid")
  end.

Definition live_threads (live : dict) : res (list dict) :=
  let* threads := threads_of (get live "threads") in
  raise_if negb (py_eq (get live "unresolved_thread_count") (VInt (zlen (unresolved_of threads))))
    with (BrokerActionError "thread_count_inconsistent"
      "live unresolved-thread count is internally inconsistent") ;;
  Ok threads.

Definition packet_target_lists (request : dict) : res (list value * list value) :=
  match get request "targets" with
  | VDict targets =>
      match get targets "thread_node_ids", get targets "thread_urls" with
      | VList ids, VList urls => Ok (ids, urls)
      | _, _ => Raise (BrokerActionError "invalid_packet" "packet targets are invalid")
      end
  | _ => Raise (BrokerActionError "invalid_packet" "packet targets are invalid")
  end.

Definition mark_ready_target (pr : dict) (threads : list dict) (ids urls : list value)
    (ready_already : bool) : res (value * value * bool) :=
  raise_if negb (is_true (get pr "is_draft")) && negb ready_already
    with (BrokerActionError "pr_not_draft" "pull request is no longer draft") ;;
  raise_if any (unresolved_of threads) || any ids || any urls
    with (BrokerActionError "mark_ready_threads_present"
      "mark-ready requires zero unresolved review threads") ;;
  Ok (VNone, VNone, ready_already).

(** [url not in urls] for the URLs of a live thread. *)
Definition in_list (v l : value) : bool :=
  match v, text_list l with
  | VStr s, Some urls => bool_decide (s ∈ urls)
  | _, _ => false
  end.

Definition resolve_target (policy : dict) (threads : list dict) (ids urls : list value)
    (allow_already_satisfied : bool) : res (value * value * bool) :=
  match ids, urls with
  | [target_thread_id], [target_url] =>
      match matching target_thread_id threads with
      | [target] =>
          let already := allow_already_satisfied && is_true (get target "is_resolved") in
          raise_if truthy (get target "is_resolved") && negb already
            with (BrokerActionError "thread_already_resolved"
              "target review thread is already resolved") ;;
          raise_if negb (in_list target_url (get target "urls"))
            with (BrokerActionError "thread_url_mismatch"
              "target review-thread URL does not match live GitHub state") ;;
          let outdated_only := get_default policy "resolve_outdated_threads_only"
            (VBool (py_eq (get policy "resolve_policy") (vstr "outdated_only"))) in
          raise_if negb (is_true outdated_only) || negb (is_true (get target "is_outdated"))
            with (BrokerActionError "current_thread_requires_verifier"
              "current review threads require independent verifier authority") ;;
          Ok (target_thread_id, target_url, already)
      | _ => Raise (BrokerActionError "thread_not_found"
               "target review thread does not belong to this pull request")
      end
  | _, _ => Raise (BrokerActionError "invalid_thread_target"
              "broker v1 requires exactly one review-thread target")
  end.

(** The target of the action: thread, URL and whether the effect is there. *)
Definition action_target (request pr policy : dict) (threads : list dict)
    (ready_already allow_already_satisfied : bool) : res (value * value * bool) :=
  let* (ids, urls) := packet_target_lists request in
  let action := get request "action" in
  if py_eq action (VStr MARK_PR_READY) then mark_ready_target pr threads ids urls ready_already
  else if py_eq action (VStr RESOLVE_REVIEW_THREAD) then
    resolve_target policy threads ids urls allow_already_satisfied
  else Raise (BrokerActionError "unsupported_action" "protected action is unsupported").

(** The thread count of the packet, one less when its thread is resolved. *)
Definition expected_thread_count (action count : value) (already : bool) : value :=
  if already && py_eq action (VStr RESOLVE_REVIEW_THREAD) then
    match count with
    | VInt z => VInt (z - 1)
    | VBool b => VInt (b2z b - 1)
    | v => v
    end
  else count.

Definition before_value (expected_repository expected_repository_id : value) (live pr : dict)
    (head_sha : pystr) (files : list pystr) (evidence : value) (threads : list dict)
    (target_thread_id target_url : value) (already : bool) : list (string * value) :=
  [("repository", expected_repository);
   ("repository_id", expected_repository_id);
   ("pr", obj [("id", get pr "id"); ("number", get pr "number"); ("url", get pr "url");
               ("state", get pr "state"); ("is_draft", get pr "is_draft");
               ("head_sha", VStr head_sha); ("base_branch", get pr "base_branch");
               ("author_login", get pr "author_login")]);
   ("changed_files_sha256", VStr (digest_json (VList (map VStr files))));
   ("checks_sha256", VStr (digest_json (get live "checks")));
   ("evidence", evidence);
   ("unresolved_thread_count", VInt (zlen (unresolved_of threads)));
   ("target_thread", match target_thread_id with
      | VNone => VNone
      | _ => obj [("id", target_thread_id); ("is_resolved", VBool already);
                  ("is_outdated", VBool true); ("url", target_url)]
      end)].

(** A mark-ready effect that is already there. *)
Definition mark_ready_already (action : value) (pr packet_pr : dict) (allow : bool) : bool :=
  py_eq action (VStr MARK_PR_READY) && allow && is_true (get packet_pr "is_draft") &&
  is_false (get pr "is_draft").

Definition evaluate_live (config packet live : dict) (allow_already_satisfied : bool) :
    res EvaluatedAction :=
  match get packet "request" with
  | VDict request =>
      let action := get request "action" in
      let* repository := repository_config config in
      let* policy := policy_config config in
      let* (expected_repository, expected_repository_id) :=
        same_repository live request repository in
      match get live "pr", get request "pr" with
      | VDict pr, VDict packet_pr =>
          let ready_already := mark_ready_already action pr packet_pr allow_already_satisfied in
          let* head_sha := pr_eligible pr packet_pr repository policy ready_already in
          let* (files, preconditions, evidence) :=
            content_eligible packet live request pr policy in
          let* threads := live_threads live in
          let* (target_thread_id, target_url, already) :=
            action_target request pr policy threads ready_already allow_already_satisfied in
          raise_if negb (py_eq (expected_thread_count action
              (get preconditions "unresolved_thread_count") already)
              (VInt (zlen (unresolved_of threads))))
            with (BrokerActionError "thread_count_mismatch"
              "live unresolved-thread count does not match the packet") ;;
          let before := before_value expected_repository expected_repository_id live pr head_sha
            files evidence threads target_thread_id target_url already in
          let* number := index pr "number" in
          let* pr_number := py_int number in
          let* id := index pr "id" in
          Ok {| ev_action := py_str action; ev_repository := py_str expected_repository;
                ev_pr_number := pr_number; ev_pr_node_id := py_str id; ev_head_sha := head_sha;
                ev_target_thread_id := target_thread_id; ev_already_satisfied := already;
                ev_before_digest := digest_json (obj before); ev_before := fields before |}
      | _, _ => Raise (BrokerActionError "invalid_live_snapshot"
                  "pull request identity is invalid")
      end
  | _ => Raise (BrokerActionError "invalid_packet" "protected-action request is missing")
  end.

Definition evaluate_snapshot (config packet : dict) (snapshot : snapshot_arg)
    (allow_already_satisfied : bool) : res EvaluatedAction :=
  let* live := snapshot_dict snapshot in
  evaluate_live config packet live allow_already_satisfied.

(** ** The desired state *)

(** [a] and [b] then [c]: the subscripts of a condition are evaluated in order
    and only when reached. *)
Definition desired_pr (pr : dict) (request : value) : res bool :=
  let* packet_pr := subscript request "pr" in
  let* number := subscript packet_pr "number" in
  if negb (py_eq (get pr "number") number) then Ok false
  else
    let* url := subscript packet_pr "url" in
    if negb (py_eq (get pr "url") url) then Ok false
    else
      let* head_sha := subscript packet_pr "head_sha" in
      Ok (py_eq (get pr "head_sha") head_sha && py_eq (get pr "state") (vstr "OPEN")).

Definition thread_resolved (target_id threads : value) : bool :=
  match threads_of threads with
  | Raise _ => false
  | Ok threads =>
      match matching target_id threads with
      | [t] => is_true (get t "is_resolved")
      | _ => false
      end
  end.

Definition desired_state_observed (packet : dict) (snapshot : snapshot_arg) : res bool :=
  let* live := snapshot_dict snapshot in
  let* request := index packet "request" in
  match get live "pr" with
  | VDict pr =>
      let* same := desired_pr pr request in
      if negb same then Ok false
      else
        let* action := subscript request "action" in
        if py_eq action (VStr MARK_PR_READY) then Ok (is_false (get pr "is_draft"))
        else
          let* targets := subscript request "targets" in
          let* ids := subscript targets "thread_node_ids" in
          let* target_id := subscript0 ids in
          Ok (thread_resolved target_id (get live "threads"))
  | _ => Ok false
  end.

(** ** Execution *)

Section Execute.
Context {S L : Type} `{!LiveActionClient S L} `{!SystemClock S}.

(** [except MutationIndeterminate: raise; except GitHubLiveError: raise
    MutationIndeterminate(...)] *)
Definition is_live_error (e : exn) : bool :=
  match e with GitHubLiveError _ => true | _ => false end.

Definition response_mismatch (m : string) : exn :=
  MutationIndeterminate "mutation_response_mismatch" m.

Definition call_mark_pr_ready (live : L) (evaluated : EvaluatedAction) (attempt_id : pystr) :
    M S dict :=
  let! result := mark_pr_ready live evaluated.(ev_pr_node_id) attempt_id in
  if negb (py_eq (get result "id") (VStr evaluated.(ev_pr_node_id))) ||
     negb (py_eq (get result "number") (VInt evaluated.(ev_pr_number))) ||
     negb (py_eq (get result "head_sha") (VStr evaluated.(ev_head_sha))) ||
     negb (py_eq (get result "state") (vstr "OPEN")) ||
     negb (is_false (get result "is_draft"))
  then throw (response_mismatch "mark-ready mutation returned an unexpected result")
  else ret result.

Definition call_resolve_review_thread (live : L) (evaluated : EvaluatedAction)
    (attempt_id : pystr) : M S dict :=
  match evaluated.(ev_target_thread_id) with
  | VNone => throw AssertionError
  | thread_id =>
      let! result := resolve_review_thread live thread_id attempt_id in
      if negb (py_eq (get result "id") thread_id) || negb (is_true (get result "is_resolved"))
      then throw (response_mismatch "resolve-thread mutation returned an unexpected result")
      else ret result
  end.

Definition call_mutation (live : L) (evaluated : EvaluatedAction) (attempt_id : pystr) :
    M S dict :=
  rethrow is_live_error
    (fun _ => MutationIndeterminate "mutation_transport_indeterminate"
      "GitHub mutation did not return a trustworthy result")
    (if bool_decide (evaluated.(ev_action) = MARK_PR_READY)
     then call_mark_pr_ready live evaluated attempt_id
     else call_resolve_review_thread live evaluated attempt_id).

(** [packet["request"]["preconditions"]["evidence_comment_url"]] *)
Definition packet_evidence_url (packet : dict) : res value :=
  let* request := index packet "request" in
  let* preconditions := subscript request "preconditions" in
  subscript preconditions "evidence_comment_url".

Definition fetch_readback (live : L) (packet : dict) (evaluated : EvaluatedAction) :
    M S LiveSnapshot :=
  rethrow is_live_error
    (fun _ => MutationIndeterminate "readback_unavailable"
      "GitHub mutation could not be read back")
    (let! url := lift (packet_evidence_url packet) in
     fetch_snapshot live (VInt evaluated.(ev_pr_number)) url).

(** The pull request of the readback is the evaluated one. *)
Definition readback_identity (readback packet : dict) (evaluated : EvaluatedAction) : res dict :=
  match get readback "pr" with
  | VDict pr =>
      let e := MutationIndeterminate "head_changed_during_mutation"
        "pull request identity or head changed during mutation" in
      raise_if negb (py_eq (get pr "id") (VStr evaluated.(ev_pr_node_id))) ||
               negb (py_eq (get pr "number") (VInt evaluated.(ev_pr_number))) with e ;;
      let* request := index packet "request" in
      let* packet_pr := subscript request "pr" in
      let* url := subscript packet_pr "url" in
      raise_if negb (py_eq (get pr "url") url) ||
               negb (py_eq (get pr "state") (vstr "OPEN")) ||
               negb (py_eq (get pr "head_sha") (VStr evaluated.(ev_head_sha))) with e ;;
      Ok pr
  | _ => Raise (MutationIndeterminate "readback_invalid" "GitHub mutation readback is invalid")
  end.

(** The readback satisfies the authorised preconditions and shows the effect. *)
Definition confirm (config packet readback : dict) : res unit :=
  let* confirmed := reraise isa_action
    (fun _ => MutationIndeterminate "readback_preconditions_changed"
      "GitHub readback no longer satisfies the authorized preconditions")
    (evaluate_snapshot config packet (Raw (VDict readback)) true) in
  let e := MutationIndeterminate "readback_not_satisfied"
    "GitHub readback did not prove the requested state" in
  raise_if negb confirmed.(ev_already_satisfied) with e ;;
  let* desired := desired_state_observed packet (Raw (VDict readback)) in
  raise_if negb desired with e ;;
  Ok tt.

(** [next(({...} for item in threads if item.get("id") == target), None)]: the
    readback has been evaluated, so its threads are mappings. *)
Definition after_thread (target : value) (readback : dict) : value :=
  match target, get readback "threads" with
  | VNone, _ => VNone
  | _, VList threads =>
      match List.find (fun t => match t with VDict t => py_eq (get t "id") target | _ => false end)
              threads with
      | Some (VDict t) =>
          obj [("id", get t "id"); ("is_resolved", get t "is_resolved")]
      | _ => VNone
      end
  | _, _ => VNone
  end.

Definition after_value (pr readback : dict) (evaluated : EvaluatedAction) : value :=
  obj [("pr", obj [("id", get pr "id"); ("number", get pr "number"); ("state", get pr "state");
                   ("is_draft", get pr "is_draft"); ("head_sha", get pr "head_sha")]);
       ("target_thread", after_thread evaluated.(ev_target_thread_id) readback)].

Definition execute_evaluated_action (live : L) (config packet : dict)
    (evaluated : EvaluatedAction) (attempt_id : pystr) : M S dict :=
  let! now := read_clock in
  let! mutation_result := call_mutation live evaluated attempt_id in
  let! snapshot := fetch_readback live packet evaluated in
  let readback := as_dict snapshot in
  let! pr := lift (readback_identity readback packet evaluated) in
  let! _ := lift (confirm config packet readback) in
  let after := after_value pr readback evaluated in
  ret (fields [
    ("action", VStr evaluated.(ev_action));
    ("attempt_id", VStr attempt_id);
    ("mutation_started_at", VStr (utc_text (now / 1000000)));
    ("mutation", VDict mutation_result);
    ("before", VDict evaluated.(ev_before));
    ("before_digest", VStr evaluated.(ev_before_digest));
    ("after", after);
    ("after_digest", VStr (digest_json after));
    ("readback_verified", VBool true)]).
End Execute.
