(* ===== verification/ActionFacts.v ===== *)
(** * What the checks of the protected actions establish

    Inversion of the checks of Actions.v, from the glob matcher up to the
    evaluation of a snapshot: each lemma says what holds of the snapshot's
    fields when the check passes. *)

From S2P Require Import Prelude Regex Sha256 PyTime PyUrl PyText Json JsonFacts Protocol ConfigFacts Submission UrlFacts SubmissionFacts Client Effects Actions.
Local Open Scope Z_scope.

(** ** Shell patterns *)

Lemma until_bracket_shorter s a b :
  until_bracket s = Some (a, b) -> (length b < length s)%nat.
Proof.
  revert a b; induction s as [|c s IH]; simpl; intros a b H; [done |].
  destruct (c =? 93)%N; [injection H as <- <-; simpl; lia |].
  destruct (until_bracket s) as [[x y]|]; [|done]. injection H as <- <-.
  specialize (IH _ _ eq_refl). lia.
Qed.

Lemma take_char_shorter c s h r : take_char c s = (h, r) -> (length r <= length s)%nat.
Proof.
  destruct s as [|a s]; simpl; [by intros [= <- <-] |].
  destruct (a =? c)%N; intros [= <- <-]; simpl; lia.
Qed.

Lemma bracket_shorter s a b : bracket s = Some (a, b) -> (length b < length s)%nat.
Proof.
  unfold bracket. destruct (take_char 33 s) as [h1 s1] eqn:E1.
  destruct (take_char 93 s1) as [h2 s2] eqn:E2. intros H.
  destruct (until_bracket s2) as [[x y]|] eqn:E; [|done]. injection H as <- <-.
  apply take_char_shorter in E1, E2. apply until_bracket_shorter in E. lia.
Qed.

(** The meaning of a shell pattern, read directly off the pattern. *)
Inductive glob : pystr -> pystr -> Prop :=
| glob_nil : glob [] []
| glob_star pat s1 s2 : glob pat s2 -> glob (42%N :: pat) (s1 ++ s2)
| glob_any pat a s : glob pat s -> glob (63%N :: pat) (a :: s)
| glob_set pat stuff rest a s :
    bracket pat = Some (stuff, rest) -> matches (set_re stuff) [a] -> glob rest s ->
    glob (91%N :: pat) (a :: s)
| glob_open pat s : bracket pat = None -> glob pat s -> glob (91%N :: pat) (91%N :: s)
| glob_char c pat s : c <> 42%N -> c <> 63%N -> c <> 91%N -> glob pat s -> glob (c :: pat) (c :: s).

Lemma set_re_one stuff s : matches (set_re stuff) s -> exists a, s = [a].
Proof.
  unfold set_re. intros Hm. repeat case_match;
    first [by apply matches_none in Hm | apply matches_cls in Hm as (a & -> & _); eauto].
Qed.

Lemma matches_any_star s : matches (RStar (RCls (fun _ => true))) s.
Proof.
  induction s as [|a s IH]; [constructor |]. change (a :: s) with ([a] ++ s).
  by apply M_star_more; [constructor |].
Qed.

(** [translate] is correct: its expression matches what the pattern means. *)
Lemma glob_re_spec f pat s :
  (length pat <= f)%nat -> matches (glob_re f pat) s <-> glob pat s.
Proof.
  revert pat s; induction f as [|f IH]; intros [|c pat] s Hf; simpl in Hf; try lia.
  1, 2: simpl; rewrite matches_eps; split; [intros ->; constructor | by inversion 1].
  simpl. assert (Hl : (length pat <= f)%nat) by lia.
  destruct (N.eqb_spec c 42) as [->|H1]; [|destruct (N.eqb_spec c 63) as [->|H2];
    [|destruct (N.eqb_spec c 91) as [->|H3]]].
  - rewrite matches_seq. setoid_rewrite (IH pat _ Hl). split.
    + intros (s1 & s2 & -> & _ & H). by constructor.
    + inversion 1; subst; [|done]. eexists _, _. split; [done |]. split; [apply matches_any_star | done].
  - rewrite matches_seq. setoid_rewrite (IH pat _ Hl). split.
    + intros (s1 & s2 & -> & (a & -> & _)%matches_cls & H). by constructor.
    + inversion 1; subst; [|done]. exists [a], s0. split; [done |]. split; [by constructor | done].
  - destruct (bracket pat) as [[stuff rest]|] eqn:E.
    + pose proof (bracket_shorter _ _ _ E) as Hs. rewrite matches_seq. split.
      * intros (s1 & s2 & -> & Ha & H). destruct (set_re_one _ _ Ha) as [a ->].
        eapply glob_set; [done | done |]. by apply IH; [lia |].
      * inversion 1; subst; simplify_eq. exists [a], s0. split; [done |]. split; [done |].
        apply IH; [lia | done].
    + rewrite matches_seq. setoid_rewrite (IH pat _ Hl). split.
      * intros (s1 & s2 & -> & (a & -> & Ha%N.eqb_eq)%matches_cls & H). subst. by constructor.
      * inversion 1; subst; simplify_eq. exists [91%N], s0. split; [done |]. split; [by constructor | done].
  - rewrite matches_seq. setoid_rewrite (IH pat _ Hl). split.
    + intros (s1 & s2 & -> & (a & -> & Ha%N.eqb_eq)%matches_cls & H). subst. by constructor.
    + inversion 1; subst; try done. exists [c], s0. split; [done |].
      split; [constructor; apply N.eqb_refl | done].
Qed.

Lemma fnmatchcase_glob name pat : fnmatchcase name pat = true <-> glob pat name.
Proof. unfold fnmatchcase. rewrite fullmatch_matches. by apply glob_re_spec. Qed.

Lemma startswith_app s p : startswith s p = true <-> exists rest, s = p ++ rest.
Proof.
  unfold startswith. rewrite bool_decide_eq_true. split.
  - intros E. exists (drop (length p) s). rewrite <- E at 1. by rewrite take_drop.
  - intros [rest ->]. by rewrite take_app_length.
Qed.

(** A literal text as a pattern with a tail. *)
Lemma glob_literal p pat s :
  forallb (fun c => negb (one_of "*?[" c)) p = true ->
  glob (p ++ pat) s <-> exists rest, s = p ++ rest /\ glob pat rest.
Proof.
  intros Hp. revert s; induction p as [|c p IH]; intros s; simpl in *.
  - split; [eauto | by intros (? & -> & ?)].
  - apply andb_true_iff in Hp as [Hc Hp]. apply negb_true_iff in Hc. unfold one_of in Hc.
    apply bool_decide_eq_false in Hc.
    assert (c <> 42%N /\ c <> 63%N /\ c <> 91%N) as (H1 & H2 & H3).
    { split_and!; intros ->; apply Hc; vm_compute; repeat constructor. }
    specialize (IH Hp). split.
    + inversion 1; subst; try done. match goal with H : glob (p ++ pat) _ |- _ =>
        apply IH in H as (rest & -> & ?) end. eauto.
    + intros (rest & -> & H). constructor; try done. apply IH. eauto.
Qed.

Lemma glob_star_all s : glob [42%N] s.
Proof. rewrite <- (app_nil_r s). constructor. constructor. Qed.

(** ** Reading values *)

Lemma py_eq_str v s : py_eq v (VStr s) = true -> v = VStr s.
Proof. destruct v; simpl; try done. intros H. split_bools. by subst. Qed.

Lemma py_eq_vstr v s : py_eq v (vstr s) = true -> v = vstr s.
Proof. apply py_eq_str. Qed.

Lemma py_eq_true v : py_eq v (VBool true) = true -> v <> VBool false.
Proof. by intros H ->. Qed.

Lemma is_true_inv v : is_true v = true -> v = VBool true.
Proof. by destruct v as [|[]| | | | |]. Qed.

Lemma is_false_inv v : is_false v = true -> v = VBool false.
Proof. by destruct v as [|[]| | | | |]. Qed.

Lemma index_get d k v : index d k = Ok v -> get d k = v.
Proof. unfold index, get. destruct (dget (str k) d); [by intros [= ->] | done]. Qed.

Lemma in_strings_inv v l : in_strings v l = Ok true -> exists s, v = VStr s /\ s ∈ l.
Proof.
  destruct v; simpl; try done. intros [= H]. apply bool_decide_eq_true in H. eauto.
Qed.

Lemma texts_inv l r : texts l = Some r -> l = map VStr r /\ Forall (fun s => s <> []) r.
Proof.
  revert r; induction l as [|v l IH]; simpl; intros r H; [by injection H as <- |].
  destruct v as [| | | |[|c s]| |]; try done.
  destruct (texts l) as [r'|]; [|done]. injection H as <-.
  destruct (IH _ eq_refl) as [-> HF]. split; [done | by constructor].
Qed.

Lemma map_VStr_inj l r : map VStr l = map VStr r -> l = r.
Proof. revert r; induction l as [|x l IH]; intros [|y r]; simpl; intros [=]; f_equal; auto. Qed.

Lemma text_list_inv v r : text_list v = Some r -> v = VList (map VStr r) /\ Forall (fun s => s <> []) r.
Proof. destruct v; simpl; try done. intros H%texts_inv. naive_solver. Qed.

Lemma text_list_strs l r : text_list (VList (map VStr l)) = Some r -> r = l.
Proof. intros [[= E%map_VStr_inj] _]%text_list_inv. done. Qed.

(** ** Changed files *)

Lemma fromkeys_elem x l : forall seen, x ∈ fromkeys seen l <-> x ∈ l /\ x ∉ seen.
Proof.
  induction l as [|y l IH]; intros seen; simpl.
  - split; [by intros ?%not_elem_of_nil | by intros [?%not_elem_of_nil _]].
  - destruct (bool_decide_reflect (y ∈ seen)) as [Hy|Hy].
    + rewrite IH, elem_of_cons. naive_solver.
    + rewrite !elem_of_cons, IH, not_elem_of_cons. destruct (decide (x = y)); naive_solver.
Qed.

Lemma safe_repo_path_inv v f : safe_repo_path v = Ok f -> v = VStr f /\ f <> [].
Proof.
  unfold safe_repo_path. intros H. destruct v; try done. inv_ok H. done.
Qed.

Lemma safe_paths vs l : res_map safe_repo_path vs = Ok l -> vs = map VStr l.
Proof.
  intros H%res_map_inv.
  induction H as [|v f vs l [-> _]%safe_repo_path_inv _ IH]; [done | simpl; by rewrite IH].
Qed.

Lemma existsb_Forall {A} (f : A -> bool) l : existsb f l = false <-> Forall (fun x => f x = false) l.
Proof.
  induction l as [|x l IH]; simpl; [done |].
  rewrite orb_false_iff, List.Forall_cons_iff, IH. done.
Qed.

(** The patterns in force under a policy. *)
Definition in_force (policy : dict) (pattern : pystr) : Prop :=
  exists l, forbidden_patterns policy = Ok l /\ pattern ∈ l.

Lemma hard_in_force policy l pattern :
  forbidden_patterns policy = Ok l -> pattern ∈ HARD_FORBIDDEN_PATTERNS -> pattern ∈ l.
Proof.
  unfold forbidden_patterns. intros H Hp. case_res H. apply Ok_inj in H as <-. apply fromkeys_elem.
  split; [apply elem_of_app; by left | by apply not_elem_of_nil].
Qed.

Lemma validate_paths_inv v policy l :
  validate_paths v policy = Ok l ->
  v = VList (map VStr l) /\ NoDup l /\
  (exists patterns, forbidden_patterns policy = Ok patterns /\
    Forall (fun path => Forall (fun p => path_matches path p = false) patterns) l) /\
  exists maximum, get_default policy "maximum_changed_files" (VInt 1000) = VInt maximum /\
    zlen l <= maximum.
Proof.
  unfold validate_paths. intros H. destruct v; try done. inv_ok H.
  match goal with H : res_map _ _ = Ok _ |- _ => apply safe_paths in H as -> end.
  match goal with H : existsb _ _ = false |- _ => apply existsb_Forall in H as HF end.
  split_and!; try done.
  - eexists. split; [done |]. eapply Forall_impl; [exact HF |]. intros x Hx. by apply existsb_Forall.
  - unfold int_at_least_one in *. repeat case_match; simplify_eq. eexists. split; [done | lia].
Qed.

(** ** Checks *)

(** A context that counts as successful. *)
Definition check_passed (accepted : list pystr) (d : dict) (name : pystr) : Prop :=
  get d "name" = VStr name /\
  ((get d "kind" = vstr "check_run" /\ get d "status" = vstr "COMPLETED" /\
    exists conclusion, get d "conclusion" = VStr conclusion /\ conclusion ∈ accepted) \/
   (get d "kind" = vstr "commit_status" /\ get d "status" = vstr "SUCCESS")).

Lemma validate_check_inv accepted v name :
  validate_check accepted v = Ok name -> exists d, v = VDict d /\ check_passed accepted d name.
Proof.
  unfold validate_check. intros H. destruct v as [| | | | | |d]; try done. exists d.
  split; [done |]. unfold check_passed.
  destruct (get d "name") as [| | | |[|c s]| |]; try done.
  inv_ok H; subst; repeat match goal with
  | H : py_eq _ (vstr _) = true |- _ => apply py_eq_vstr in H
  | H : in_strings _ _ = Ok true |- _ => apply in_strings_inv in H
  end; split; try done; [by left | by right].
Qed.

Lemma checks_passed accepted vs names :
  Forall2 (fun v n => validate_check accepted v = Ok n) vs names ->
  exists checks, vs = map VDict checks /\ Forall2 (check_passed accepted) checks names.
Proof.
  intros HF. induction HF as [|v n vs ns Hv _ (ds & -> & IH)]; [by exists [] |].
  apply validate_check_inv in Hv as (d & -> & Hd). exists (d :: ds). split; [done |].
  by constructor.
Qed.

Lemma validate_checks_inv v policy state :
  validate_checks v policy = Ok state ->
  exists required, required_checks policy = Ok required /\
  ((v = VList [] /\ state = str "none" /\ required = []) \/
   (exists accepted checks names, v = VList (map VDict checks) /\ checks <> [] /\
     state = str "success" /\ accepted_conclusions policy = Ok accepted /\
     Forall2 (check_passed accepted) checks names /\ Forall (fun r => r ∈ names) required)).
Proof.
  unfold validate_checks. intros H. destruct v as [| | | | |l|]; try done. case_res H.
  exists a. split; [done |]. destruct l as [|x l].
  - left. inv_ok H. by split_and!.
  - right. inv_ok H. match goal with H : res_map _ _ = Ok _ |- _ => apply res_map_inv in H as HF end.
    apply checks_passed in HF as (checks & Ec & Hc).
    exists a0, checks, a1. split_and!; try done.
    + by rewrite Ec.
    + by intros ->.
    + by apply forallb_in.
Qed.

(** ** Evidence *)

Lemma marker_bound_inv body marker u :
  marker_bound body marker = Ok u ->
  exists text, body = VStr text /\ first_line text = marker /\ count_text text marker = 1%nat.
Proof.
  unfold marker_bound. intros H. destruct body as [| | | |text| |]; try done. inv_ok H.
  exists text. split_and!; try done. by apply Nat.eqb_eq.
Qed.

Lemma evidence_window_inv observed created comment skew u :
  evidence_window observed created comment skew = Ok u ->
  observed - skew <= comment <= created + skew.
Proof.
  unfold evidence_window. intros H. inv_ok H.
  repeat match goal with H : add_seconds _ _ = Ok _ |- _ => apply add_seconds_inv in H end.
  subst. unfold us in *. lia.
Qed.

Lemma utc_inv v field t : utc v field = Ok t -> exists s, v = VStr s /\ strptime s = Some t.
Proof.
  unfold utc. intros H. destruct v; try done. inv_ok H. eauto.
Qed.

(** What holds of an evidence comment that passes. *)
Record evidence_bound (packet comment : dict) (authors : list pystr) (skew : Z) : Prop :=
  EvidenceBound {
    bound_marker : exists marker text, evidence_marker_for_packet (VDict packet) = Ok marker /\
      get comment "body" = VStr text /\ first_line text = marker /\
      count_text text marker = 1%nat;
    bound_url : exists request preconditions url, index packet "request" = Ok request /\
      subscript request "preconditions" = Ok preconditions /\
      subscript preconditions "evidence_comment_url" = Ok url /\
      py_eq (get comment "url") url = true;
    bound_author : exists author, get comment "author_login" = VStr author /\ author ∈ authors;
    bound_time : exists request s o c observed created at_time,
      index packet "request" = Ok request /\
      subscript request "observed_at" = Ok (VStr o) /\ strptime o = Some observed /\
      index packet "created_at" = Ok (VStr c) /\ strptime c = Some created /\
      get comment "created_at" = VStr s /\ strptime s = Some at_time /\
      observed - skew <= at_time <= created + skew }.

Lemma validate_evidence_inv packet v authors skew ev :
  validate_evidence packet v authors skew = Ok ev ->
  exists comment, v = VDict comment /\ evidence_bound packet comment authors skew.
Proof.
  unfold validate_evidence. intros H. destruct v as [| | | | | |comment]; try done.
  exists comment. split; [done |]. inv_ok H. subst.
  repeat match goal with
  | H : in_strings _ _ = Ok true |- _ => apply in_strings_inv in H
  | H : utc _ _ = Ok _ |- _ => apply utc_inv in H as (? & ? & ?)
  | H : evidence_window _ _ _ _ = Ok _ |- _ => apply evidence_window_inv in H
  | H : marker_bound _ _ = Ok _ |- _ => apply marker_bound_inv in H as (? & ? & ? & ?)
  end. subst.
  constructor; [eauto 10 | eauto 10 | eauto |].
  do 7 eexists. split_and!; eauto; lia.
Qed.

(** ** Review threads *)

(** A review thread as the broker reads it. *)
Record thread_shape (t : dict) (id : pystr) (resolved outdated : bool) (urls : list pystr) :
    Prop := ThreadShape {
  shape_id : get t "id" = VStr id;
  shape_resolved : get t "is_resolved" = VBool resolved;
  shape_outdated : get t "is_outdated" = VBool outdated;
  shape_urls : get t "urls" = VList (map VStr urls) }.

Definition thread_id_of (t : dict) : pystr :=
  match get t "id" with VStr id => id | _ => [] end.

Lemma bool_of v : is_true v || is_false v = true -> exists b, v = VBool b.
Proof. destruct v as [|[]| | | | |]; try done; eauto. Qed.

Lemma validate_threads_inv ids vs l :
  validate_threads ids vs = Ok l ->
  vs = map VDict l /\
  Forall (fun t => exists id r o urls, thread_shape t id r o urls) l /\
  NoDup (map thread_id_of l) /\ Forall (fun t => thread_id_of t ∉ ids) l.
Proof.
  revert ids l; induction vs as [|v vs IH]; intros ids l H; simpl in H.
  { inv_ok H. split_and!; try done; constructor. }
  destruct v as [| | | | | |raw]; try done.
  destruct (get raw "id") as [| | | |[|c s]| |] eqn:Eid; try done. inv_ok H. inv_ok E.
  match goal with H : validate_threads _ _ = Ok _ |- _ => apply IH in H as (-> & HF & HN & Hs) end.
  assert (Ht : thread_id_of raw = c :: s) by (unfold thread_id_of; by rewrite Eid).
  split_and!.
  - done.
  - constructor; [|done].
    match goal with H : is_true (get raw "is_resolved") || _ = _ |- _ =>
      apply bool_of in H as [r Hr] end.
    match goal with H : is_true (get raw "is_outdated") || _ = _ |- _ =>
      apply bool_of in H as [o Ho] end.
    match goal with H : is_some (text_list _) = true |- _ =>
      apply is_some_true in H as [urls Hu%text_list_inv] end.
    destruct Hu as [Hu _]. by exists (c :: s), r, o, urls.
  - simpl. constructor; [|done]. rewrite Ht. intros (t & Et & Hin)%list_elem_of_fmap.
    rewrite Forall_forall in Hs. apply (Hs t Hin). rewrite <- Et. rewrite elem_of_cons. by left.
  - constructor; [by rewrite Ht |]. eapply Forall_impl; [exact Hs |].
    intros t Hn Hin. apply Hn. rewrite elem_of_cons. by right.
Qed.

Lemma threads_of_inv v l :
  threads_of v = Ok l ->
  v = VList (map VDict l) /\
  Forall (fun t => exists id r o urls, thread_shape t id r o urls) l /\
  NoDup (map thread_id_of l).
Proof.
  unfold threads_of. intros H. destruct v; try done.
  apply validate_threads_inv in H as (-> & ? & ? & _). done.
Qed.

Lemma map_VDict_inj l r : map VDict l = map VDict r -> l = r.
Proof. revert r; induction l as [|x l IH]; intros [|y r]; simpl; intros [=]; f_equal; auto. Qed.
