(* ===== verification/ActionDemo.v ===== *)
(** * A concrete pull request, before and after its effect

    Snapshots on which the theorems about evaluation and execution apply, for
    the configuration and the packet of Ingress.v and for a packet that resolves
    a review thread. *)

From S2P Require Import Prelude Regex Sha256 PyTime PyUrl Json Protocol Submission UrlFacts Ingress Client Effects Actions.
Local Open Scope Z_scope.

Definition demo_head : pystr := str "0123456789abcdef0123456789abcdef01234567".

(** The identity of the pull request as a client reads it. *)
Definition demo_pr (draft : bool) : dict :=
  fields [("id", vstr "PR_7"); ("number", VInt 7);
          ("url", VStr demo_packet.(request).(pr).(pr_url));
          ("state", vstr "OPEN"); ("is_draft", VBool draft); ("head_sha", VStr demo_head);
          ("base_branch", vstr "main"); ("author_login", vstr "lomein[bot]");
          ("same_repository_head", VBool true); ("changed_files", VInt 2)].

Definition demo_check : dict :=
  fields [("kind", vstr "check_run"); ("name", vstr "ci"); ("status", vstr "COMPLETED");
          ("conclusion", vstr "SUCCESS"); ("producer", vstr "actions")].

Definition demo_comment (p : Packet) : dict :=
  fields [("id", VInt 12); ("url", VStr p.(request).(preconditions).(evidence_url));
          ("author_login", vstr "lomein[bot]");
          ("body", VStr (evidence_marker p.(request) ++ [10%N] ++ str "verified"));
          ("created_at", VStr (utc_text T0))].

Definition demo_thread (resolved : bool) : dict :=
  fields [("id", vstr "T_1"); ("is_resolved", VBool resolved); ("is_outdated", VBool true);
          ("urls", VList [VStr (canonical_url (expected_path (str "octo/repo") 7)
                                  (str "discussion_r3"))])].

Definition demo_snapshot (p : Packet) (draft : bool) (files : list pystr) (threads : list dict)
    (unresolved : Z) : LiveSnapshot :=
  {| ls_repository := str "octo/repo"; ls_repository_id := 5; ls_pr := demo_pr draft;
     ls_files := files; ls_checks := [demo_check]; ls_evidence_comment := demo_comment p;
     ls_threads := threads; ls_unresolved_thread_count := unresolved;
     ls_minimum_rate_limit_remaining := 4000 |}.

Definition demo_files : list pystr := [str "src/main.py"; str "docs/notes.md"].

(** The pull request of [demo_packet], as a draft and ready for review. *)
Definition draft_snapshot : LiveSnapshot := demo_snapshot demo_packet true demo_files [] 0.
Definition ready_snapshot : LiveSnapshot := demo_snapshot demo_packet false demo_files [] 0.
(** The same with a change to a workflow. *)
Definition workflow_snapshot : LiveSnapshot :=
  demo_snapshot demo_packet true [str "src/main.py"; str ".github/workflows/ci.yml"] [] 0.

(** A packet that resolves the thread [T_1], and its pull request before and
    after. *)
Definition thread_request : Request :=
  {| instance_slug := str "demo"; action := RESOLVE_REVIEW_THREAD; observed_at := utc_text T0;
     repo := str "octo/repo"; pr := (demo_request 7).(pr);
     preconditions := {| checks_state := str "success"; thread_count := 1;
                         commands_sha256 := replicate 64 49%N;
                         result_sha256 := replicate 64 50%N;
                         evidence_url := (demo_request 7).(preconditions).(evidence_url) |};
     thread_node_ids := [str "T_1"];
     thread_urls := [canonical_url (expected_path (str "octo/repo") 7) (str "discussion_r3")] |}.

Definition thread_packet : Packet :=
  Eval vm_compute in seal_packet thread_request T0 (T0 + 600).

Definition open_snapshot : LiveSnapshot :=
  demo_snapshot thread_packet true demo_files [demo_thread false] 1.
Definition resolved_snapshot : LiveSnapshot :=
  demo_snapshot thread_packet true demo_files [demo_thread true] 0.

(** The target of an evaluation and whether the effect is there. *)
Definition outcome (r : res EvaluatedAction) : option (value * bool) :=
  match r with
  | Ok e => Some (e.(ev_target_thread_id), e.(ev_already_satisfied))
  | Raise _ => None
  end.

Notation demo_evaluation p s allow :=
  (evaluate_snapshot (config_dict demo_config) (packet_dict p) (Live s) allow).

Lemma outcome_inv r t b :
  outcome r = Some (t, b) ->
  exists e, r = Ok e /\ e.(ev_target_thread_id) = t /\ e.(ev_already_satisfied) = b.
Proof. destruct r; simpl; [intros [= <- <-]; eauto | done]. Qed.

Example draft_evaluated :
  exists e, demo_evaluation demo_packet draft_snapshot true = Ok e /\
    e.(ev_target_thread_id) = VNone /\ e.(ev_already_satisfied) = false.
Proof. apply outcome_inv. vm_compute. reflexivity. Qed.

Example ready_evaluated :
  exists e, demo_evaluation demo_packet ready_snapshot true = Ok e /\
    e.(ev_target_thread_id) = VNone /\ e.(ev_already_satisfied) = true.
Proof. apply outcome_inv. vm_compute. reflexivity. Qed.

Example open_evaluated :
  exists e, demo_evaluation thread_packet open_snapshot true = Ok e /\
    e.(ev_target_thread_id) = vstr "T_1" /\ e.(ev_already_satisfied) = false.
Proof. apply outcome_inv. vm_compute. reflexivity. Qed.

Example resolved_evaluated :
  exists e, demo_evaluation thread_packet resolved_snapshot true = Ok e /\
    e.(ev_target_thread_id) = vstr "T_1" /\ e.(ev_already_satisfied) = true.
Proof. apply outcome_inv. vm_compute. reflexivity. Qed.

(** A client of a pull request that is a draft ([true]) or ready. *)
#[export] Instance demo_client : LiveActionClient bool unit := {|
  fetch_snapshot := fun _ _ _ (draft : bool) =>
    (Ok (if draft then draft_snapshot else ready_snapshot), draft);
  mark_pr_ready := fun _ id _ (_ : bool) =>
    (Ok (fields [("id", VStr id); ("number", VInt 7); ("is_draft", VBool false);
                 ("head_sha", VStr demo_head); ("state", vstr "OPEN");
                 ("updated_at", VStr (utc_text T0))]), false);
  resolve_review_thread := fun _ _ _ (draft : bool) => (Raise (GitHubLiveError "no such thread"), draft) |}.

#[export] Instance demo_clock : SystemClock bool := {| utcnow := fun s => (us T0, s) |}.
