(* ===== verification/Authority.v ===== *)
(** * What the broker is authorised to do

    The properties of Actions.v.  An evaluation that succeeds authorises one
    effect on a pull request that is the packet's, within the policy, with its
    files, checks, evidence and threads as required; the desired-state test
    agrees with it; an execution that succeeds has called one mutation and read
    its effect back; forbidden paths mean what their patterns say. *)

From S2P Require Import Prelude Regex Sha256 PyTime PyUrl PyText Json JsonFacts Protocol ConfigFacts Submission UrlFacts SubmissionFacts Ingress Client Effects Actions ActionFacts ActionDemo.
Local Open Scope Z_scope.

(** ** The fields of a verified packet as they are in its mapping *)

Record raw_request (request prd pre tgt : dict) (r : Request) : Prop := RawRequest {
  raw_action : text_or_empty (get request "action") = r.(action);
  raw_repo : text_or_empty (get request "repo") = r.(repo);
  raw_pr : get request "pr" = VDict prd;
  raw_number : get prd "number" = VInt r.(pr).(pr_number);
  raw_base : text_or_empty (get prd "base_branch") = r.(pr).(base_branch);
  raw_head : lower_text (text_or_empty (get prd "head_sha")) = r.(pr).(head_sha);
  raw_author : text_or_empty (get prd "author_login") = r.(pr).(author_login);
  raw_draft : get prd "is_draft" = VBool r.(pr).(is_draft);
  raw_preconditions : get request "preconditions" = VDict pre;
  raw_checks : text_or_empty (get pre "checks_state") = r.(preconditions).(checks_state);
  raw_count : get pre "unresolved_thread_count" = VInt r.(preconditions).(thread_count);
  raw_targets : get request "targets" = VDict tgt;
  raw_ids : get tgt "thread_node_ids" = VList (map VStr r.(thread_node_ids)) }.

Lemma text_matching_text r v m s : text_matching r v m = Ok s -> text_or_empty v = s.
Proof. unfold text_matching. intros H. by inv_ok H. Qed.

Lemma normalize_targets_raw repo n i vs ws ids urls :
  normalize_targets repo n i vs ws = Ok (ids, urls) -> vs = map VStr ids.
Proof.
  revert ws i ids urls; induction vs as [|v vs IH]; intros [|w ws] i ids urls H; simpl in H;
    inv_ok H; try done.
  destruct v; try done. inv_ok E. apply IH in E1. simpl. by rewrite E1.
Qed.

Lemma request_targets_raw v repo n ids urls :
  request_targets v repo n = Ok (ids, urls) ->
  exists tgt, v = VDict tgt /\ get tgt "thread_node_ids" = VList (map VStr ids).
Proof.
  unfold request_targets. intros H. inv_ok H. facts. subst. eexists. split; [done |].
  match goal with H : normalize_targets _ _ _ _ _ = Ok _ |- _ =>
    apply normalize_targets_raw in H as -> end. done.
Qed.

Lemma request_pr_raw v repo r :
  request_pr v repo = Ok r ->
  exists prd, v = VDict prd /\ get prd "number" = VInt r.(pr_number) /\
    text_or_empty (get prd "base_branch") = r.(base_branch) /\
    lower_text (text_or_empty (get prd "head_sha")) = r.(head_sha) /\
    text_or_empty (get prd "author_login") = r.(author_login) /\
    get prd "is_draft" = VBool r.(is_draft).
Proof.
  unfold request_pr. intros H. inv_ok H.
  repeat match goal with
  | H : text_matching _ _ _ = Ok _ |- _ => apply text_matching_text in H
  end. facts. eexists. by split_and!.
Qed.

Lemma request_preconditions_raw v repo n r :
  request_preconditions v repo n = Ok r ->
  exists pre, v = VDict pre /\
    text_or_empty (get pre "checks_state") = r.(checks_state) /\
    get pre "unresolved_thread_count" = VInt r.(thread_count).
Proof.
  unfold request_preconditions. intros H. inv_ok H.
  match goal with H : unresolved_count _ = Ok _ |- _ => apply unresolved_count_inv in H as [? ?] end.
  facts. eexists. by split_and!.
Qed.

Lemma normalize_request_raw v r :
  normalize_packet_request v = Ok r ->
  exists rq prd pre tgt, v = VDict rq /\ raw_request rq prd pre tgt r.
Proof.
  unfold normalize_packet_request, request_header. intros H. inv_ok H.
  match goal with H : _ = Ok (_, _, _, _) |- _ => inv_ok H end.
  repeat match goal with
  | H : text_matching _ _ _ = Ok _ |- _ => apply text_matching_text in H
  | H : mapping _ _ = Ok _ |- _ => apply mapping_dict in H
  | H : request_pr _ _ = Ok _ |- _ => apply request_pr_raw in H as (prd & ? & ? & ? & ? & ? & ?)
  | H : request_preconditions _ _ _ = Ok _ |- _ =>
      apply request_preconditions_raw in H as (pre & ? & ? & ?)
  | H : request_targets _ _ _ = Ok _ |- _ => apply request_targets_raw in H as (tgt & ? & ?)
  end.
  eexists _, prd, pre, tgt. split; [done |]. by constructor.
Qed.

Lemma verified_raw packet now utcnow p :
  verify_protected_packet (VDict packet) now utcnow = Ok p ->
  exists rq prd pre tgt,
    get packet "request" = VDict rq /\ raw_request rq prd pre tgt p.(request) /\
    request_ok p.(request).
Proof.
  intros H. destruct (verify_inv _ _ _ _ H) as (c & e & o & t & _ & Hp & _).
  unfold verify_protected_packet in H. inv_ok H. apply mapping_dict in E as [= <-].
  match goal with H : normalize_packet_request _ = Ok ?r |- _ =>
    apply normalize_request_raw in H as (rq & prd & pre & tgt & ? & ?) end.
  exists rq, prd, pre, tgt. split_and!; [done | done | apply Hp].
Qed.

(** ** Reading the configuration *)

Fixpoint sfind (l : list (string * value)) (k : string) : option value :=
  match l with
  | [] => None
  | (k', v) :: l' => if String.eqb k k' then Some v else sfind l' k
  end.

Lemma dget_fields l k : dget (str k) (fields l) = sfind l k.
Proof.
  induction l as [|[k' v] l IH]; [done |]. simpl. destruct (String.eqb_spec k k') as [->|Hn].
  - by destruct (decide _).
  - destruct (decide (str k = str k')) as [E|]; [by apply str_inj in E | done].
Qed.

Lemma get_default_obj l k d :
  get_default (fields l) k d = match sfind l k with Some v => v | None => d end.
Proof. unfold get_default. by rewrite dget_fields. Qed.

Ltac read_defaults :=
  rewrite ?get_default_obj, ?get_obj; cbn [sfind sget String.eqb Ascii.eqb Bool.eqb].

Lemma config_instance_read c :
  repository_config (config_dict c) = Ok (match repository_value c.(repository) with
    VDict d => d | _ => [] end) /\
  policy_config (config_dict c) = Ok (policy_dict c.(policy)).
Proof.
  unfold repository_config, policy_config, instance, config_dict, config_value, obj.
  read_fields. cbn [as_mapping]. read_fields. done.
Qed.

Section Policy.
Context (pol : Policy).

Lemma policy_authors l : allowed_authors (policy_dict pol) = Ok l -> l = [pol.(expected_author)].
Proof.
  unfold allowed_authors, policy_dict, policy_value, obj. read_fields. cbn [text_list].
  intros H. inv_ok H. done.
Qed.

Lemma policy_patterns l :
  forbidden_patterns (policy_dict pol) = Ok l ->
  forall p, p ∈ l <-> p ∈ HARD_FORBIDDEN_PATTERNS ++ pol.(forbidden_prefixes).
Proof.
  unfold forbidden_patterns, policy_dict, policy_value, obj. read_defaults. unfold vstrs.
  intros H. case_res H. apply text_list_strs in E as ->. apply Ok_inj in H as <-. intros p.
  rewrite fromkeys_elem. split; [by intros [? _] | intros ?; split; [done | by apply not_elem_of_nil]].
Qed.

Lemma policy_maximum : get_default (policy_dict pol) "maximum_changed_files" (VInt 1000) =
  VInt pol.(maximum_changed_files).
Proof. unfold policy_dict, policy_value, obj. by read_defaults. Qed.

Lemma policy_required l : required_checks (policy_dict pol) = Ok l -> l = pol.(Protocol.required_checks).
Proof.
  unfold required_checks, policy_dict, policy_value, obj. read_defaults. unfold vstrs.
  intros H. case_res H. apply text_list_strs in E as ->. by apply Ok_inj in H.
Qed.

Lemma policy_accepted l :
  accepted_conclusions (policy_dict pol) = Ok l -> l = map upper_text pol.(Protocol.accepted_conclusions).
Proof.
  unfold accepted_conclusions, policy_dict, policy_value, obj. read_defaults. unfold vstrs.
  intros H. case_res H. apply text_list_strs in E as ->. by apply Ok_inj in H.
Qed.

Lemma policy_skew_read z : policy_skew (policy_dict pol) = Ok z -> z = pol.(maximum_clock_skew).
Proof. unfold policy_skew, policy_dict, policy_value, obj. read_defaults. intros H. by inv_ok H. Qed.
End Policy.

(** ** Numbers *)

Lemma span_all ds t :
  Forall (fun c => is_digit_char c = true) ds -> span is_digit_char (ds ++ 46%N :: t) = (ds, 46%N :: t).
Proof.
  induction 1 as [|c ds Hc _ IH]; [done |]. simpl. by rewrite Hc, IH.
Qed.

(** A number that equals an integer converts to it. *)
Lemma py_int_eq v n z : py_eq v (VInt n) = true -> 0 < n -> py_int v = Ok z -> z = n.
Proof.
  intros He Hn H. destruct v as [|b|x|t| | |]; simpl in He, H; try done; simplify_eq.
  - by apply Z.eqb_eq.
  - by apply Z.eqb_eq.
  - unfold float_is_int in He. rewrite (proj2 (Z.eqb_neq n 0)) in He by lia.
    rewrite orb_false_r in He. apply bool_decide_eq_true in He as ->.
    unfold dec. rewrite (proj2 (Z.ltb_ge n 0)) by lia. unfold float_trunc.
    destruct (nat_text_head n) as (c & t & E & Hc); [lia |].
    assert (Hs : startswith (nat_text n ++ str ".0") (str "-") = false).
    { rewrite E. unfold startswith. apply bool_decide_eq_false. intros [= ->]. done. }
    rewrite Hs. change (str ".0") with (46%N :: str "0").
    rewrite span_all by (apply nat_text_digits; lia). simpl. apply digits_val_nat_text. lia.
Qed.

(** ** What an evaluation authorises *)

(** The live pull request is the one of the request, within the policy. *)
Record pr_bound (c : Config) (r : Request) (live_pr : dict) : Prop := PrBound {
  bound_number : py_eq (get live_pr "number") (VInt r.(pr).(pr_number)) = true;
  bound_head : get live_pr "head_sha" = VStr r.(pr).(head_sha);
  bound_base : get live_pr "base_branch" = VStr c.(repository).(default_branch);
  bound_pr_author : get live_pr "author_login" = VStr c.(policy).(expected_author);
  bound_open : get live_pr "state" = vstr "OPEN";
  bound_same_repository : get live_pr "same_repository_head" = VBool true }.

(** Every changed path is clear of the forbidden patterns. *)
Definition files_clear (pol : Policy) (live : dict) : Prop :=
  exists files, get live "files" = VList (map VStr files) /\ NoDup files /\
    zlen files <= pol.(maximum_changed_files) /\
    forall file pattern, file ∈ files ->
      pattern ∈ HARD_FORBIDDEN_PATTERNS ++ pol.(forbidden_prefixes) ->
      path_matches file pattern = false.

(** Every status context passed and the required ones are among them; a packet
    that claims no checks is for a commit that has and needs none. *)
Definition checks_green (pol : Policy) (r : Request) (live : dict) : Prop :=
  (r.(preconditions).(checks_state) = str "none" /\ get live "checks" = VList [] /\
   pol.(Protocol.required_checks) = []) \/
  (r.(preconditions).(checks_state) = str "success" /\
   exists checks names, get live "checks" = VList (map VDict checks) /\ checks <> [] /\
     Forall2 (check_passed (map upper_text pol.(Protocol.accepted_conclusions))) checks names /\
     Forall (fun required => required ∈ names) pol.(Protocol.required_checks)).

(** The evidence comment is by the expected author and carries the marker of
    this very request, on its first line and nowhere else. *)
Definition evidence_present (pol : Policy) (r : Request) (live : dict) : Prop :=
  exists comment text, get live "evidence_comment" = VDict comment /\
    get comment "author_login" = VStr pol.(expected_author) /\
    get comment "body" = VStr text /\ first_line text = evidence_marker r /\
    count_text text (evidence_marker r) = 1%nat.

(** The effect that is authorised: the packet's action on its target, and
    whether it is there already. *)
Definition effect_bound (r : Request) (live_pr : dict) (threads : list dict) (target : value)
    (already : bool) : Prop :=
  (r.(action) = MARK_PR_READY /\ target = VNone /\
   Forall (fun t => get t "is_resolved" = VBool true) threads /\
   get live_pr "is_draft" = VBool (negb already)) \/
  (r.(action) = RESOLVE_REVIEW_THREAD /\ exists id thread urls,
     r.(thread_node_ids) = [id] /\ target = VStr id /\
     matching (VStr id) threads = [thread] /\ thread_shape thread id already true urls).

Record authorised (c : Config) (p : Submission.Packet) (live : dict) (allow : bool)
    (e : EvaluatedAction) : Prop := Authorised {
  auth_repository : get live "repository" = VStr c.(repository).(full_name) /\
    p.(request).(repo) = c.(repository).(full_name) /\
    py_eq (get live "repository_id") (VInt c.(repository).(repository_id)) = true;
  auth_files : files_clear c.(policy) live;
  auth_checks : checks_green c.(policy) p.(request) live;
  auth_evidence : evidence_present c.(policy) p.(request) live;
  auth_effect : exists live_pr threads, get live "pr" = VDict live_pr /\
    get live "threads" = VList (map VDict threads) /\
    pr_bound c p.(request) live_pr /\ 
    effect_bound p.(request) live_pr threads e.(ev_target_thread_id) e.(ev_already_satisfied) /\
    zlen (unresolved_of threads) = p.(request).(preconditions).(thread_count) -
      (if bool_decide (p.(request).(action) = RESOLVE_REVIEW_THREAD) && e.(ev_already_satisfied)
       then 1 else 0);
  auth_allowed : e.(ev_already_satisfied) = true -> allow = true;
  auth_result : e.(ev_action) = p.(request).(action) /\
    e.(ev_pr_number) = p.(request).(pr).(pr_number) /\
    e.(ev_head_sha) = p.(request).(pr).(head_sha) /\
    e.(ev_repository) = c.(repository).(full_name) /\
    e.(ev_before_digest) = digest_json (VDict e.(ev_before)) }.

(** ** Inversion of the evaluation *)

Lemma exact_pr_fields_inv live_pr packet_pr l u :
  exact_pr_fields live_pr packet_pr l = Ok u ->
  Forall (fun f => py_eq (get live_pr f) (get packet_pr f) = true) l.
Proof.
  induction l as [|f l IH]; simpl; intros H; [constructor |]. inv_ok H. constructor; auto.
Qed.

Lemma pr_eligible_inv c rq prd pre tgt r live_pr repository_dict ready h :
  raw_request rq prd pre tgt r -> request_ok r ->
  get repository_dict "default_branch" = VStr c.(repository).(default_branch) ->
  pr_eligible live_pr prd repository_dict (policy_dict c.(policy)) ready = Ok h ->
  pr_bound c r live_pr /\ h = r.(pr).(head_sha) /\
  (py_eq (get live_pr "is_draft") (VBool r.(pr).(is_draft)) = true \/ ready = true).
Proof.
  intros Hraw Hr Hb H. unfold pr_eligible in H. inv_ok H. subst.
  match goal with H : exact_pr_fields _ _ _ = Ok _ |- _ =>
    apply exact_pr_fields_inv in H; unfold EXACT_PR_FIELDS in H; rewrite !List.Forall_cons_iff in H;
    destruct H as (Hn & _ & _ & Hh & _ & _) end.
  match goal with H : allowed_authors _ = Ok _ |- _ => apply policy_authors in H as -> end.
  match goal with H : in_strings _ _ = Ok true |- _ =>
    apply in_strings_inv in H as (s & Hs & Hin) end.
  apply list_elem_of_singleton in Hin as ->.
  match goal with H : get live_pr "head_sha" = VStr _ |- _ => rename H into Hl end.
  rewrite Hl in Hh. destruct (get prd "head_sha") as [| | | |h'| |] eqn:Eh; try done.
  simpl in Hh. apply bool_decide_eq_true in Hh as <-.
  pose proof (raw_head _ _ _ _ _ Hraw) as Hhead. rewrite Eh, text_or_empty_str, lower_oid in Hhead
    by done. rewrite (raw_number _ _ _ _ _ Hraw) in Hn. rewrite (raw_draft _ _ _ _ _ Hraw) in *.
  split_and!; try done.
  - constructor; try done.
    + by rewrite <- Hhead.
    + match goal with H : py_eq _ (get repository_dict _) = true |- _ =>
        rewrite Hb in H; by apply py_eq_str end.
    + by apply py_eq_vstr.
    + by apply is_true_inv.
  - match goal with H : negb _ && negb ready = false |- _ =>
      apply andb_false_iff in H as [H|H]; apply negb_false_iff in H end; auto.
Qed.

Lemma content_eligible_inv pol packet live rq prd pre tgt live_pr r files pre' ev :
  raw_request rq prd pre tgt r -> request_ok r ->
  content_eligible packet live rq live_pr (policy_dict pol) = Ok (files, pre', ev) ->
  files_clear pol live /\ checks_green pol r live /\ pre' = pre /\
  get live "files" = VList (map VStr files) /\
  exists comment, get live "evidence_comment" = VDict comment /\
    evidence_bound packet comment [pol.(expected_author)] pol.(maximum_clock_skew).
Proof.
  intros Hraw Hr H. unfold content_eligible in H. inv_ok H.
  match goal with H : get rq "preconditions" = _ |- _ =>
    rewrite (raw_preconditions _ _ _ _ _ Hraw) in H; injection H as -> end.
  match goal with H : allowed_authors _ = Ok _ |- _ => apply policy_authors in H as -> end.
  match goal with H : policy_skew _ = Ok _ |- _ => apply policy_skew_read in H as -> end.
  match goal with H : validate_paths _ _ = Ok _ |- _ =>
    apply validate_paths_inv in H as (Hf & Hnd & (patterns & Hp & Hclear) & m & Hm & Hmax) end.
  rewrite policy_maximum in Hm. injection Hm as <-.
  match goal with H : validate_evidence _ _ _ _ = Ok _ |- _ =>
    apply validate_evidence_inv in H as (comment & Hc & Hev) end.
  split_and!; try done; [| |by exists comment].
  - eexists. split_and!; try done. intros file pattern Hin Hpat.
    apply (policy_patterns _ _ Hp) in Hpat. rewrite Forall_forall in Hclear.
    specialize (Hclear _ Hin). rewrite Forall_forall in Hclear. auto.
  - match goal with H : validate_checks _ _ = Ok ?s, H' : py_eq (get _ "checks_state") _ = true |- _ =>
      apply validate_checks_inv in H as (required & Hreq & Hcases);
      apply py_eq_str in H' as Hst; pose proof (raw_checks _ _ _ _ _ Hraw) as Hst' end.
    rewrite Hst, text_or_empty_str in Hst'. subst. apply policy_required in Hreq as ->.
    unfold checks_green. destruct Hcases as [(Hv & -> & Hnone)|(acc & cks & names & Hv & Hne & -> & Ha & HF & Hall)].
    + left. by split_and!.
    + apply policy_accepted in Ha as ->. right. split; [done |]. by exists cks, names.
Qed.

Lemma live_threads_inv live threads :
  live_threads live = Ok threads ->
  get live "threads" = VList (map VDict threads) /\
  Forall (fun t => exists id r o urls, thread_shape t id r o urls) threads /\
  NoDup (map thread_id_of threads).
Proof. unfold live_threads. intros H. inv_ok H. by apply threads_of_inv. Qed.

Lemma none_unresolved threads :
  Forall (fun t => exists id r o urls, thread_shape t id r o urls) threads ->
  any (unresolved_of threads) = false ->
  Forall (fun t => get t "is_resolved" = VBool true) threads.
Proof.
  unfold unresolved_of. intros HF. induction HF as [|t l (id & r & o & urls & Ht) _ IH]; simpl;
    [constructor |]. intros H.
  rewrite (shape_resolved _ _ _ _ _ Ht) in *. destruct r; simpl in H; [|done].
  constructor; [apply Ht | by apply IH].
Qed.

Lemma matching_in v threads t : matching v threads = [t] -> t ∈ threads.
Proof.
  intros H. apply list_elem_of_In. assert (Hin : In t (matching v threads)) by (rewrite H; by left).
  by apply filter_In in Hin as [? _].
Qed.

Lemma action_text rq prd pre tgt r a :
  raw_request rq prd pre tgt r -> a <> [] -> py_eq (get rq "action") (VStr a) = true ->
  get rq "action" = VStr a /\ r.(action) = a.
Proof.
  intros Hraw Ha H%py_eq_str. split; [done |].
  pose proof (raw_action _ _ _ _ _ Hraw) as E. by rewrite H, text_or_empty_str in E.
Qed.

Lemma mark_ready_target_inv live_pr threads ids urls ready target url already :
  Forall (fun t => exists id r o urls, thread_shape t id r o urls) threads ->
  (ready = true -> get live_pr "is_draft" = VBool false) ->
  mark_ready_target live_pr threads ids urls ready = Ok (target, url, already) ->
  target = VNone /\ already = ready /\
  Forall (fun t => get t "is_resolved" = VBool true) threads /\
  get live_pr "is_draft" = VBool (negb already).
Proof.
  intros Hs Hready H. unfold mark_ready_target in H. inv_ok H.
  split_and!; try done; [by apply none_unresolved |].
  destruct already; [by apply Hready |].
  match goal with H : negb (is_true _) && _ = false |- _ =>
    rewrite andb_true_r in H; apply negb_false_iff, is_true_inv in H end. done.
Qed.

Lemma resolve_target_inv pol threads ids urls allow target url already :
  Forall (fun t => exists id r o urls, thread_shape t id r o urls) threads ->
  resolve_target pol threads ids urls allow = Ok (target, url, already) ->
  ids = [target] /\ (already = true -> allow = true) /\
  exists thread id us, target = VStr id /\ matching (VStr id) threads = [thread] /\
    thread_shape thread id already true us.
Proof.
  intros Hs H. unfold resolve_target in H.
  destruct ids as [|i [|]]; try done. destruct urls as [|w [|]]; try done.
  destruct (matching i threads) as [|t [|]] eqn:Em; try done. inv_ok H.
  pose proof (matching_in _ _ _ Em) as Hin. rewrite Forall_forall in Hs.
  destruct (Hs _ Hin) as (id & r & o & us & Ht).
  match goal with H : is_true (get t "is_outdated") = true |- _ =>
    rewrite (shape_outdated _ _ _ _ _ Ht) in H; destruct o; [|done] end.
  match goal with H : truthy _ && negb _ = false |- _ =>
    rewrite (shape_resolved _ _ _ _ _ Ht) in *; rename H into Hr end.
  assert (Hid : target = VStr id).
  { assert (Hf : py_eq (get t "id") target = true).
    { assert (Hl : In t (matching target threads)) by (rewrite Em; by left).
      by apply filter_In in Hl as [_ ?]. }
    rewrite (shape_id _ _ _ _ _ Ht) in Hf. destruct target; simpl in Hf; try done.
    apply bool_decide_eq_true in Hf. by subst. }
  subst. split; [done |]. split; [by destruct allow |].
  assert (Ea : r = allow && is_true (VBool r)) by (destruct r, allow; done).
  exists t, id, us. rewrite <- Ea. by split_and!.
Qed.

Lemma action_target_inv pol rq prd pre tgt r live_pr threads allow target url already :
  raw_request rq prd pre tgt r ->
  Forall (fun t => exists id r o urls, thread_shape t id r o urls) threads ->
  action_target rq live_pr pol threads (mark_ready_already (get rq "action") live_pr prd allow)
    allow = Ok (target, url, already) ->
  effect_bound r live_pr threads target already /\ (already = true -> allow = true) /\
  get rq "action" = VStr r.(action).
Proof.
  intros Hraw Hs H. unfold action_target in H.
  destruct (packet_target_lists rq) as [[ids urls]|] eqn:E; [|done].
  unfold packet_target_lists in E. inv_ok E.
  match goal with H : get rq "targets" = _ |- _ =>
    rewrite (raw_targets _ _ _ _ _ Hraw) in H; injection H as -> end.
  match goal with H : get _ "thread_node_ids" = _ |- _ =>
    rewrite (raw_ids _ _ _ _ _ Hraw) in H; injection H as <- end.
  case_res H.
  - apply (action_text _ _ _ _ _ _ Hraw) in E as [Ea Er]; [|done].
    apply mark_ready_target_inv in H as (-> & Hal & Hres & Hd); [|done |].
    + split_and!; [|intros ->; unfold mark_ready_already in Hal; by destruct allow;
        rewrite ?andb_false_r in Hal | by rewrite Ea, Er].
      left. by split_and!.
    + unfold mark_ready_already. intros Hm. split_bools. by apply is_false_inv.
  - case_res H. apply (action_text _ _ _ _ _ _ Hraw) in E0 as [Ea Er]; [|done].
    apply resolve_target_inv in H as (Hids & Hal & t & id & us & -> & Hm & Ht); [|done].
    split_and!; [|done | by rewrite Ea, Er]. right. split; [done |]. exists id, t, us.
    split_and!; try done. by apply (map_VStr_inj _ [id]).
Qed.

Lemma marker_verified packet marker :
  evidence_marker_for_packet (VDict packet) = Ok marker ->
  exists created p, parse_utc (get packet "created_at") "protected-action packet created_at" =
      Ok created /\
    verify_protected_packet (VDict packet) (Aware (us created)) 0 = Ok p /\
    marker = evidence_marker p.(request).
Proof. unfold evidence_marker_for_packet. cbn [mapping]. intros H. inv_ok H. eauto. Qed.

(** The evaluation has verified the packet. *)
Lemma content_verified packet live rq live_pr pol out :
  content_eligible packet live rq live_pr pol = Ok out ->
  exists created p,
    parse_utc (get packet "created_at") "protected-action packet created_at" = Ok created /\
    verify_protected_packet (VDict packet) (Aware (us created)) 0 = Ok p /\
    evidence_marker_for_packet (VDict packet) = Ok (evidence_marker p.(request)).
Proof.
  unfold content_eligible. intros H. inv_ok H.
  match goal with H : validate_evidence _ _ _ _ = Ok _ |- _ =>
    apply validate_evidence_inv in H as (cm & _ & [(mk & tx & Hmk & _) _ _ _]) end.
  destruct (marker_verified _ _ Hmk) as (cr & p & Hcr & Hv & ->). eauto 6.
Qed.

Lemma same_repository_inv live rq r repository erep eid :
  text_or_empty (get rq "repo") = r.(repo) ->
  same_repository live rq (match repository_value repository with VDict d => d | _ => [] end) =
    Ok (erep, eid) ->
  get live "repository" = VStr repository.(full_name) /\ r.(repo) = repository.(full_name) /\
  py_eq (get live "repository_id") (VInt repository.(repository_id)) = true /\
  erep = VStr repository.(full_name) /\
  get (match repository_value repository with VDict d => d | _ => [] end) "default_branch" =
    VStr repository.(default_branch).
Proof.
  intros Hrepo. unfold same_repository, repository_value, obj. read_defaults.
  intros H. inv_ok H.
  repeat match goal with H : py_eq _ (VStr _) = true |- _ => apply py_eq_str in H end.
  match goal with H : get rq "repo" = _ |- _ => rewrite H, text_or_empty_str in Hrepo end.
  by split_and!.
Qed.

Lemma expected_count action n already :
  expected_thread_count (VStr action) (VInt n) already =
  VInt (n - if bool_decide (action = RESOLVE_REVIEW_THREAD) && already then 1 else 0).
Proof.
  unfold expected_thread_count. cbn [py_eq]. rewrite andb_comm.
  destruct (bool_decide _ && already); [done | f_equal; lia].
Qed.

Lemma evidence_bound_present pol packet live r comment skew :
  get live "evidence_comment" = VDict comment ->
  evidence_bound packet comment [pol.(expected_author)] skew ->
  evidence_marker_for_packet (VDict packet) = Ok (evidence_marker r) ->
  evidence_present pol r live.
Proof.
  intros Hc [(mk & text & Hmk & Hb & Hf & Hn) _ (author & Ha & Hin) _] Hm.
  rewrite Hm in Hmk. injection Hmk as <-. apply list_elem_of_singleton in Hin as ->.
  by exists comment, text.
Qed.

Lemma evaluate_live_inv c packet live allow e :
  evaluate_live (config_dict c) packet live allow = Ok e ->
  exists created p,
    parse_utc (get packet "created_at") "protected-action packet created_at" = Ok created /\
    verify_protected_packet (VDict packet) (Aware (us created)) 0 = Ok p /\
    authorised c p live allow e.
Proof.
  destruct (config_instance_read c) as [Hrep Hpol]. unfold evaluate_live. rewrite Hrep, Hpol.
  intros H. destruct (get packet "request") as [| | | | | |rq] eqn:Erq; try done.
  destruct (same_repository live rq _) as [[erep eid]|] eqn:Erep; [|done].
  destruct (get live "pr") as [| | | | | |live_pr] eqn:El; try done.
  destruct (get rq "pr") as [| | | | | |packet_pr] eqn:Ep; try done.
  destruct (pr_eligible live_pr packet_pr _ _ _) as [h|] eqn:Epr; [|done].
  destruct (content_eligible packet live rq live_pr _) as [[[files pre'] ev]|] eqn:Econ; [|done].
  destruct (live_threads live) as [threads|] eqn:Eth; [|done].
  destruct (action_target rq live_pr _ _ _ _) as [[[target turl] already]|] eqn:Etg; [|done].
  destruct (content_verified _ _ _ _ _ _ Econ) as (created & p & Hcr & Hv & Hmk).
  exists created, p. split; [done |]. split; [done |].
  destruct (verified_raw _ _ _ _ Hv) as (rq' & prd & pre & tgt & Erq' & Hraw & Hr).
  rewrite Erq in Erq'. injection Erq' as <-.
  rewrite (raw_pr _ _ _ _ _ Hraw) in Ep. injection Ep as <-.
  apply (same_repository_inv _ _ p.(request)) in Erep as (Hr1 & Hr2 & Hr3 & -> & Hdef);
    [|apply (raw_repo _ _ _ _ _ Hraw)].
  destruct (pr_eligible_inv _ _ _ _ _ _ _ _ _ _ Hraw Hr Hdef Epr) as (Hpr & -> & _).
  destruct (content_eligible_inv _ _ _ _ _ _ _ _ _ _ _ _ Hraw Hr Econ)
    as (Hfiles & Hchecks & -> & _ & comment & Hcom & Hev).
  destruct (live_threads_inv _ _ Eth) as (Hthreads & Hshape & _).
  destruct (action_target_inv _ _ _ _ _ _ _ _ _ _ _ _ Hraw Hshape Etg) as (Heff & Hal & Hact).
  rewrite Hact, (raw_count _ _ _ _ _ Hraw), expected_count in H. inv_ok H.
  match goal with H : py_eq (VInt _) _ = true |- _ => apply Z.eqb_eq in H; rename H into Hcount end.
  assert (Hnum : a0 = p.(request).(pr).(pr_number)).
  { match goal with H : index live_pr "number" = Ok _ |- _ => apply index_get in H; subst end.
    eapply py_int_eq; [apply Hpr | | done].
    destruct (pr_valid _ Hr) as [[? _] _ _ _ _]. lia. }
  constructor; simpl; try done.
  - by eapply evidence_bound_present.
  - exists live_pr, threads. by split_and!.
Qed.

Lemma evaluate_inv c packet s allow e :
  evaluate_snapshot (config_dict c) packet s allow = Ok e ->
  exists live created p, snapshot_dict s = Ok live /\
    parse_utc (get packet "created_at") "protected-action packet created_at" = Ok created /\
    verify_protected_packet (VDict packet) (Aware (us created)) 0 = Ok p /\
    authorised c p live allow e.
Proof.
  unfold evaluate_snapshot. intros H. case_res H.
  destruct (evaluate_live_inv _ _ _ _ _ H) as (cr & p & ? & ? & ?). eauto 8.
Qed.

(** ** Properties *)

(** C13: an evaluation that succeeds authorises exactly the packet's effect.  The
    packet is verified; the repository, pull request, head commit, branch and
    author are the packet's and the configuration's; no changed path is
    forbidden; the checks are green; the evidence comment carries the marker of
    this request; the target is the packet's, and the effect is already there
    only where the caller allows it.  It holds of every packet and every
    snapshot, whatever their shape. *)
Theorem evaluation_authorizes c packet s allow e
    (H : evaluate_snapshot (config_dict c) packet s allow = Ok e) :
  exists live created p, snapshot_dict s = Ok live /\
    verify_protected_packet (VDict packet) (Aware (us created)) 0 = Ok p /\
    authorised c p live allow e.
Proof.
  destruct (evaluate_inv _ _ _ _ _ H) as (live & cr & p & ? & _ & ? & ?). by exists live, cr, p.
Qed.

Example evaluation_authorizes_witness :
  exists e live p,
    demo_evaluation thread_packet open_snapshot true = Ok e /\
    e.(ev_target_thread_id) = vstr "T_1" /\ authorised demo_config p live true e.
Proof.
  destruct open_evaluated as (e & H & Ht & _).
  destruct (evaluation_authorizes _ _ _ _ _ H) as (live & _ & p & _ & _ & Ha).
  exists e, live, p. split; [exact H | split; [exact Ht | exact Ha]].
Defined.

(** The paths a pattern covers. *)
Definition wildcard (pattern : pystr) : bool := existsb (one_of "*?[") pattern.

Definition covers (pattern path : pystr) : Prop :=
  (endswith pattern (str "/") = true /\ exists rest, path = pattern ++ rest) \/
  (wildcard pattern = false /\
   (path = pattern \/ exists rest, path = rstrip (ch_of "/") pattern ++ str "/" ++ rest)) \/
  (wildcard pattern = true /\ glob pattern path).

(** The matcher of forbidden paths agrees with its reference: a pattern
    without wildcards covers itself and everything below it, any other pattern
    what the shell pattern means. *)
Theorem path_matches_covers path pattern :
  path_matches path pattern = true <-> covers pattern path.
Proof.
  unfold path_matches, covers. fold (wildcard pattern).
  destruct (endswith pattern (str "/") && startswith path pattern) eqn:E.
  - apply andb_true_iff in E as [E1 E2]. apply startswith_app in E2. split; [by left; auto | done].
  - assert (H1 : ~ (endswith pattern (str "/") = true /\ exists rest, path = pattern ++ rest)).
    { intros [E1 E2%startswith_app]. by rewrite E1, E2 in E. }
    destruct (wildcard pattern); cbn [negb].
    + rewrite fnmatchcase_glob. split; [auto 10 |]. naive_solver.
    + rewrite orb_true_iff, bool_decide_eq_true, startswith_app. setoid_rewrite <- app_assoc.
      split; [auto 10 | naive_solver].
Qed.

(** What the broker never lets a pull request change, whatever the policy. *)
Definition hard_protected (path : pystr) : Prop :=
  path ∈ [str ".github/CODEOWNERS"; str "CODEOWNERS"; str ".env"; str ".npmrc";
          str ".gitmodules"] \/
  exists rest, path ∈ [str ".github/workflows/" ++ rest; str ".github/actions/" ++ rest;
                       str ".env." ++ rest; str ".env/" ++ rest].

Lemma literal_covered path pattern :
  pattern ∈ HARD_FORBIDDEN_PATTERNS -> wildcard pattern = false ->
  path = pattern \/ (exists rest, path = rstrip (ch_of "/") pattern ++ str "/" ++ rest) ->
  exists pattern, pattern ∈ HARD_FORBIDDEN_PATTERNS /\ path_matches path pattern = true.
Proof.
  intros Hin Hw Hp. exists pattern. split; [done |]. apply path_matches_covers.
  right; left. done.
Qed.

Lemma star_covered path pattern p :
  pattern ∈ HARD_FORBIDDEN_PATTERNS -> wildcard pattern = true ->
  forallb (fun c => negb (one_of "*?[" c)) p = true ->
  (pattern = p ++ [42%N] \/ pattern = p ++ [42%N; 42%N]) ->
  (exists rest, path = p ++ rest) ->
  exists pattern, pattern ∈ HARD_FORBIDDEN_PATTERNS /\ path_matches path pattern = true.
Proof.
  intros Hin Hw Hlit Hpat [rest ->]. exists pattern. split; [done |]. apply path_matches_covers.
  right; right. split; [done |]. destruct Hpat as [-> | ->]; apply glob_literal; try done;
    exists rest; (split; [done |]); [apply glob_star_all |].
  apply (glob_star _ [] rest), glob_star_all.
Qed.

Lemma hard_protected_matched path :
  hard_protected path ->
  exists pattern, pattern ∈ HARD_FORBIDDEN_PATTERNS /\ path_matches path pattern = true.
Proof.
  unfold hard_protected. intros [H|[rest H]];
    repeat (apply elem_of_cons in H as [-> | H]); try by apply not_elem_of_nil in H.
  - apply (literal_covered _ (str ".github/CODEOWNERS")); [set_solver | done | by left].
  - apply (literal_covered _ (str "CODEOWNERS")); [set_solver | done | by left].
  - apply (literal_covered _ (str ".env")); [set_solver | done | by left].
  - apply (literal_covered _ (str ".npmrc")); [set_solver | done | by left].
  - apply (literal_covered _ (str ".gitmodules")); [set_solver | done | by left].
  - apply (star_covered _ (str ".github/workflows/**") (str ".github/workflows/"));
      [set_solver | done | done | by right | eauto].
  - apply (star_covered _ (str ".github/actions/**") (str ".github/actions/"));
      [set_solver | done | done | by right | eauto].
  - apply (star_covered _ (str ".env.*") (str ".env.")); [set_solver | done | done | by left | eauto].
  - apply (literal_covered _ (str ".env")); [set_solver | done | right; by exists rest].
Qed.

(** C30: no pull request with an authorised evaluation changes a protected file:
    neither those the broker always protects (workflows, actions, code owners,
    environment files, package and submodule configuration) nor any file a
    configured prefix covers. *)
Theorem protected_files_unreachable c packet s allow e
    (H : evaluate_snapshot (config_dict c) packet s allow = Ok e) :
  exists live files, snapshot_dict s = Ok live /\ get live "files" = VList (map VStr files) /\
    forall file, file ∈ files -> ~ hard_protected file /\
      forall prefix, prefix ∈ c.(policy).(forbidden_prefixes) -> ~ covers prefix file.
Proof.
  destruct (evaluate_inv _ _ _ _ _ H) as (live & cr & p & Hs & _ & _ & Ha).
  destruct (auth_files _ _ _ _ _ Ha) as (files & Hf & _ & _ & Hclear).
  exists live, files. split; [done |]. split; [done |]. intros file Hin. split.
  - intros (pattern & Hp & Hm)%hard_protected_matched.
    rewrite (Hclear file pattern) in Hm; [done | done |]. apply elem_of_app. by left.
  - intros prefix Hp Hc%path_matches_covers.
    rewrite (Hclear file prefix) in Hc; [done | done |]. apply elem_of_app. by right.
Qed.

Example protected_files_unreachable_witness :
  demo_evaluation demo_packet workflow_snapshot true =
    Raise (BrokerActionError "forbidden_path_changed"
      "pull request changes a broker-forbidden path") /\
  exists live files, snapshot_dict (Live draft_snapshot) = Ok live /\
    get live "files" = VList (map VStr files) /\ forall f, f ∈ files -> ~ hard_protected f.
Proof.
  split; [vm_compute; reflexivity |].
  destruct draft_evaluated as (e & H & _).
  destruct (protected_files_unreachable _ _ _ _ _ H) as (live & files & Hs & Hf & Hall).
  exists live, files. split; [exact Hs |]. split; [exact Hf |]. intros f Hin. apply (Hall f Hin).
Defined.

(** ** The desired state *)

Lemma subscript_get d k v : get d k = v -> v <> VNone -> subscript (VDict d) k = Ok v.
Proof.
  unfold subscript, index, get. destruct (dget (str k) d); [by intros -> | by intros <- ?].
Qed.

Lemma index_of_get d k v : get d k = v -> v <> VNone -> index d k = Ok v.
Proof. apply subscript_get. Qed.

Lemma github_url_str v f repo n k u : github_url v f repo n k = Ok u -> exists s, v = VStr s.
Proof. unfold github_url. intros H. case_res H. inv_ok E; eauto. Qed.

Lemma verified_url packet now utcnow p :
  verify_protected_packet (VDict packet) now utcnow = Ok p ->
  exists rq prd url, get packet "request" = VDict rq /\ get rq "pr" = VDict prd /\
    get prd "url" = VStr url.
Proof.
  unfold verify_protected_packet. intros H. inv_ok H. apply mapping_dict in E as [= <-].
  match goal with H : normalize_packet_request _ = Ok _ |- _ =>
    unfold normalize_packet_request in H; inv_ok H end.
  match goal with H : request_pr _ _ = Ok _ |- _ => unfold request_pr in H; inv_ok H end.
  repeat match goal with H : mapping _ _ = Ok _ |- _ => apply mapping_dict in H end.
  match goal with H : github_url _ _ _ _ _ = Ok _ |- _ => apply github_url_str in H as [url Hu] end.
  eauto 8.
Qed.

Lemma evaluate_live_exact c packet live allow e :
  evaluate_live (config_dict c) packet live allow = Ok e ->
  exists rq prd live_pr, get packet "request" = VDict rq /\ get rq "pr" = VDict prd /\
    get live "pr" = VDict live_pr /\
    Forall (fun f => py_eq (get live_pr f) (get prd f) = true) EXACT_PR_FIELDS.
Proof.
  unfold evaluate_live. intros H.
  destruct (get packet "request") as [| | | | | |rq] eqn:Erq; try done. inv_ok H.
  match goal with H : pr_eligible _ _ _ _ _ = Ok _ |- _ => unfold pr_eligible in H; inv_ok H end.
  match goal with H : exact_pr_fields _ _ _ = Ok _ |- _ => apply exact_pr_fields_inv in H end.
  do 3 eexists. by split_and!.
Qed.

(** A packet and the fields both functions compare. *)
Record compared (p : Submission.Packet) (packet rq live_pr : dict) : Prop := Compared {
  cmp_request : get packet "request" = VDict rq;
  cmp_pr : exists prd head url, subscript (VDict rq) "pr" = Ok (VDict prd) /\
    subscript (VDict prd) "number" = Ok (VInt p.(request).(pr).(pr_number)) /\
    subscript (VDict prd) "url" = Ok (VStr url) /\ get live_pr "url" = VStr url /\
    subscript (VDict prd) "head_sha" = Ok (VStr head) /\ get live_pr "head_sha" = VStr head;
  cmp_action : subscript (VDict rq) "action" = Ok (VStr p.(request).(action));
  cmp_targets : exists tgt, subscript (VDict rq) "targets" = Ok (VDict tgt) /\
    subscript (VDict tgt) "thread_node_ids" = Ok (VList (map VStr p.(request).(thread_node_ids))) }.

Lemma evaluate_compared c packet live allow e :
  evaluate_live (config_dict c) packet live allow = Ok e ->
  exists created p rq live_pr,
    verify_protected_packet (VDict packet) (Aware (us created)) 0 = Ok p /\
    authorised c p live allow e /\ get live "pr" = VDict live_pr /\
    compared p packet rq live_pr.
Proof.
  intros H. destruct (evaluate_live_inv _ _ _ _ _ H) as (cr & p & _ & Hv & Ha).
  destruct (evaluate_live_exact _ _ _ _ _ H) as (rq & prd & live_pr & Erq & Epr & El & Hex).
  destruct (verified_raw _ _ _ _ Hv) as (rq' & prd' & pre & tgt & Erq' & Hraw & Hr).
  destruct (verified_url _ _ _ _ Hv) as (rq'' & prd'' & url & Erq'' & Epr'' & Eurl).
  rewrite Erq in Erq', Erq''. injection Erq' as <-. injection Erq'' as <-.
  rewrite Epr in Epr''. injection Epr'' as <-. pose proof (raw_pr _ _ _ _ _ Hraw) as Epr'.
  rewrite Epr in Epr'. injection Epr' as <-.
  unfold EXACT_PR_FIELDS in Hex. rewrite !List.Forall_cons_iff in Hex.
  destruct Hex as (Hn & Hu & _ & Hh & _ & _). rewrite Eurl in Hu. apply py_eq_str in Hu.
  destruct (auth_effect _ _ _ _ _ Ha) as (pr' & ths & El' & _ & Hb & Heff & _).
  rewrite El in El'. injection El' as <-. rewrite (bound_head _ _ _ Hb) in Hh.
  destruct (get prd "head_sha") as [| | | |head| |] eqn:Eh; try done.
  simpl in Hh. apply bool_decide_eq_true in Hh as <-.
  exists cr, p, rq, live_pr. split_and!; try done. constructor; [done | | |].
  - exists prd, p.(request).(pr).(head_sha), url. split_and!; try done; try by apply subscript_get.
    + apply subscript_get; [apply Hraw | done].
    + apply Hb.
  - apply subscript_get; [|done]. pose proof (raw_action _ _ _ _ _ Hraw) as Et.
    unfold evaluate_live in H. rewrite Erq in H. inv_ok H.
    match goal with H : action_target _ _ _ _ _ _ = Ok _ |- _ =>
      unfold action_target in H; inv_ok H end;
    repeat match goal with H : py_eq (get rq "action") _ = true |- _ =>
      apply py_eq_str in H; rewrite H, text_or_empty_str in Et; congruence end.
  - exists tgt. split; apply subscript_get; try done; apply Hraw.
Qed.

Lemma py_eq_str_refl s : py_eq (VStr s) (VStr s) = true.
Proof. simpl. by apply bool_decide_eq_true. Qed.

Lemma threads_of_ok live c packet allow e threads :
  evaluate_live (config_dict c) packet live allow = Ok e ->
  get live "threads" = VList (map VDict threads) -> threads_of (get live "threads") = Ok threads.
Proof.
  unfold evaluate_live. intros H Hl. destruct (get packet "request"); try done. inv_ok H.
  match goal with H : live_threads _ = Ok ?t |- _ => unfold live_threads in H; inv_ok H end.
  match goal with H : threads_of _ = Ok ?t |- _ =>
    destruct (threads_of_inv _ _ H) as [E' _] end.
  rewrite Hl in E'. injection E' as E'%map_VDict_inj. by subst.
Qed.

(** C38: the two readings of a snapshot agree.  When the evaluation that allows
    an existing effect succeeds, the desired-state test returns, and it returns
    what the evaluation says of the effect; so recovery, which asks both, never
    finds them inconsistent. *)
Theorem desired_state_agrees c packet s e
    (H : evaluate_snapshot (config_dict c) packet s true = Ok e) :
  desired_state_observed packet s = Ok e.(ev_already_satisfied).
Proof.
  unfold evaluate_snapshot in H. case_res H. rename a into live.
  destruct (evaluate_compared _ _ _ _ _ H) as (cr & p & rq & live_pr & Hv & Ha & El & Hc).
  destruct Hc as [Erq (prd & head & url & S1 & S2 & S3 & U & S4 & Hh) S5 (tgt & S6 & S7)].
  destruct (auth_effect _ _ _ _ _ Ha) as (pr' & ths & El' & Eth & Hb & Heff & _).
  rewrite El in El'. injection El' as <-.
  unfold desired_state_observed. rewrite E, (index_of_get _ _ _ Erq), El by done.
  unfold desired_pr. rewrite S1, S2, (bound_number _ _ _ Hb). cbn [negb].
  rewrite S3, U, py_eq_str_refl. cbn [negb]. rewrite S4, Hh, py_eq_str_refl.
  rewrite (bound_open _ _ _ Hb). unfold vstr. rewrite py_eq_str_refl. cbn [andb negb].
  rewrite S5. pose proof actions_differ as Hne.
  destruct Heff as [(Hact & _ & _ & Hd)|(Hact & id & t & urls & Hids & _ & Hm & Ht)]; rewrite Hact.
  - rewrite py_eq_str_refl, Hd. by destruct (ev_already_satisfied e).
  - assert (En : py_eq (VStr RESOLVE_REVIEW_THREAD) (VStr MARK_PR_READY) = false)
      by (vm_compute; reflexivity).
    rewrite En, S6, S7, Hids. cbn [map subscript0]. unfold thread_resolved.
    rewrite (threads_of_ok _ _ _ _ _ _ H Eth), Hm, (shape_resolved _ _ _ _ _ Ht).
    by destruct (ev_already_satisfied e).
Qed.

Example desired_state_agrees_witness :
  desired_state_observed (packet_dict thread_packet) (Live resolved_snapshot) = Ok true /\
  desired_state_observed (packet_dict demo_packet) (Live draft_snapshot) = Ok false.
Proof.
  split.
  - destruct resolved_evaluated as (e & H & _ & E). rewrite <- E. apply (desired_state_agrees _ _ _ _ H).
  - destruct draft_evaluated as (e & H & _ & E). rewrite <- E. apply (desired_state_agrees _ _ _ _ H).
Defined.
