(* ===== verification/Execution.v ===== *)
(** * Executing an authorised action

    The properties of [execute_evaluated_action]: a success is one mutation call
    followed by one read back that is itself authorised and shows the effect;
    any failure of a client that keeps its interface is an indeterminate
    mutation. *)

From S2P Require Import Prelude Regex Sha256 PyTime PyUrl PyText Json JsonFacts Protocol ConfigFacts Submission UrlFacts SubmissionFacts Ingress Client Effects Actions ActionFacts ActionDemo Authority.
Local Open Scope Z_scope.

Section Execution.
Context {S L : Type} `{!LiveActionClient S L} `{!SystemClock S}.

(** The one mutation call of an execution. *)
Definition mutated (live : L) (e : EvaluatedAction) (attempt : pystr) (s : S) (answer : dict)
    (s' : S) : Prop :=
  if bool_decide (e.(ev_action) = MARK_PR_READY)
  then mark_pr_ready live e.(ev_pr_node_id) attempt s = (Ok answer, s')
  else resolve_review_thread live e.(ev_target_thread_id) attempt s = (Ok answer, s').

(** What the answer to the mutation says. *)
Definition answer_agrees (e : EvaluatedAction) (answer : dict) : Prop :=
  if bool_decide (e.(ev_action) = MARK_PR_READY)
  then get answer "id" = VStr e.(ev_pr_node_id) /\ get answer "head_sha" = VStr e.(ev_head_sha) /\
       get answer "is_draft" = VBool false
  else py_eq (get answer "id") e.(ev_target_thread_id) = true /\
       get answer "is_resolved" = VBool true.

Lemma call_mutation_inv live e attempt s answer s' :
  call_mutation live e attempt s = (Ok answer, s') ->
  mutated live e attempt s answer s' /\ answer_agrees e answer.
Proof.
  unfold call_mutation, mutated, answer_agrees. intros H. run_inv. case_bool_decide.
  - unfold call_mark_pr_ready in H. run_inv. split_bools.
    repeat match goal with
    | H : py_eq _ (VStr _) = true |- _ => apply py_eq_str in H
    | H : is_false _ = true |- _ => apply is_false_inv in H
    end. done.
  - unfold call_resolve_review_thread in H.
    destruct (ev_target_thread_id e) eqn:Et; run_inv; split_bools;
      match goal with H : is_true _ = true |- _ => apply is_true_inv in H end; done.
Qed.

Lemma confirm_inv config packet readback u :
  confirm config packet readback = Ok u ->
  exists e', evaluate_snapshot config packet (Raw (VDict readback)) true = Ok e' /\
    e'.(ev_already_satisfied) = true /\
    desired_state_observed packet (Raw (VDict readback)) = Ok true.
Proof.
  unfold confirm. destruct (evaluate_snapshot config packet _ true) as [e'|x]; cbn [reraise];
    [|by destruct (isa_action x)].
  destruct (ev_already_satisfied e') eqn:Ea; cbn [negb]; [|done].
  destruct (desired_state_observed packet _) as [[]|]; cbn [negb]; [|done..]. eauto.
Qed.

(** C15: a successful execution is a reading of the clock, exactly one mutation
    call that answers for the evaluated target, and one read back which, copied
    and evaluated anew against the packet and the policy, is still authorised
    and shows the effect. *)
Theorem execution_confirmed (live : L) c packet e attempt s result s'
    (H : execute_evaluated_action live (config_dict c) packet e attempt s = (Ok result, s')) :
  exists s1 answer s2 snapshot readback p e',
    read_clock s = (Ok (utcnow s).1, s1) /\
    mutated live e attempt s1 answer s2 /\ answer_agrees e answer /\
    (exists url, packet_evidence_url packet = Ok url /\
      fetch_snapshot live (VInt e.(ev_pr_number)) url s2 = (Ok snapshot, s')) /\
    snapshot_dict (Raw (VDict (as_dict snapshot))) = Ok readback /\
    authorised c p readback true e' /\ e'.(ev_already_satisfied) = true /\
    desired_state_observed packet (Raw (VDict (as_dict snapshot))) = Ok true /\
    get result "mutation" = VDict answer /\ get result "attempt_id" = VStr attempt.
Proof.
  unfold execute_evaluated_action in H. run_inv.
  match goal with H : call_mutation _ _ _ _ = _ |- _ =>
    apply call_mutation_inv in H as [Hm Ha] end.
  match goal with H : fetch_readback _ _ _ _ = _ |- _ =>
    unfold fetch_readback in H; run_inv end.
  match goal with H : confirm _ _ _ = Ok _ |- _ =>
    apply confirm_inv in H as (e' & He & Ha' & Hd) end.
  apply evaluate_inv in He as (rb & cr & p & Hs & _ & _ & Hauth).
  subst. do 7 eexists. split_and!; try done.
  - match goal with H : read_clock s = _ |- _ => by rewrite H, (read_clock_inv _ _ _ H) end.
  - eauto.
Qed.
End Execution.


(** The run of the demonstration: the pull request becomes ready. *)
#[local] Notation demo_run e :=
  (execute_evaluated_action tt (config_dict demo_config) (packet_dict demo_packet) e
    (str "attempt-1") true).

Definition run_ok (r : res EvaluatedAction) (run : EvaluatedAction -> res dict * bool) : bool :=
  match r with
  | Ok e => match run e with (Ok _, false) => true | _ => false end
  | Raise _ => false
  end.

Lemma run_ok_inv r run :
  run_ok r run = true -> exists e result, r = Ok e /\ run e = (Ok result, false).
Proof.
  unfold run_ok. destruct r as [e|]; [|done]. destruct (run e) as [[result|] []] eqn:E; try done.
  eauto.
Qed.

Example demo_run_succeeds :
  exists e result, demo_evaluation demo_packet draft_snapshot true = Ok e /\
    demo_run e = (Ok result, false).
Proof. apply (run_ok_inv _ (fun e => demo_run e)). vm_compute. reflexivity. Qed.

Example execution_confirmed_witness :
  exists e result p readback e',
    demo_evaluation demo_packet draft_snapshot true = Ok e /\
    demo_run e = (Ok result, false) /\
    authorised demo_config p readback true e' /\ e'.(ev_already_satisfied) = true.
Proof.
  destruct demo_run_succeeds as (e & result & H & E).
  destruct (execution_confirmed tt demo_config (packet_dict demo_packet) e (str "attempt-1") true
    result false E) as (s1 & answer & s2 & sn & rb & p & e' & _ & _ & _ & _ & _ & Ha & Hd & _).
  exists e, result, p, rb, e'. split; [exact H |]. split; [exact E |]. split; [exact Ha | exact Hd].
Defined.
