(* ===== verification/App.v ===== *)
(** * The GitHub App client

    broker/john_lomein_github_app.py: the fixed transport, JSON requests,
    GraphQL calls and the authentication of an installation.  The network and
    the signature of the App's private key are the class [Network]; every
    other step is the code's.  TLS settings, the reading of the key file and the
    constructor's checks of already validated configuration fields are not
    modelled. *)

From S2P Require Import Prelude Regex Sha256 PyTime PyUrl PyText Json Encoding Effects Client.
Local Open Scope Z_scope.

(** ** Constants *)

Definition API_VERSION : string := "2022-11-28".
Definition USER_AGENT : string := "john-lomein-protected-broker/1".
Definition MAX_RESPONSE_BYTES : Z := 4 * 1024 * 1024.
Definition MAX_TOKEN_LIFETIME_SECONDS : Z := 3700.
Definition REQUESTED_PERMISSIONS : list (string * string) :=
  [("checks", "read"); ("issues", "read"); ("pull_requests", "write"); ("statuses", "read")].
Definition ALLOWED_RETURNED_PERMISSIONS : list (string * string) :=
  REQUESTED_PERMISSIONS ++ [("metadata", "read")].

(** ** The transport *)

(** A mapping of texts, in insertion order. *)
Abbreviation texts_map := (list (pystr * pystr)).

Fixpoint set_text (k v : pystr) (m : texts_map) : texts_map :=
  match m with
  | [] => [(k, v)]
  | (k', v') :: m' => if decide (k = k') then (k, v) :: m' else (k', v') :: set_text k v m'
  end.

Definition lookup_text (k : pystr) (m : texts_map) : option pystr :=
  option_map snd (List.find (fun kv => bool_decide (kv.1 = k)) m).

Record HTTPResponse := { status : Z; headers : texts_map; body : bytes }.

(** [exchange] is one HTTPS request on the fixed origin: method, path, headers,
    body; [None] is an [OSError], [SSLError] or [HTTPException], the response
    has its status, its headers in order and at most [MAX_RESPONSE_BYTES + 1]
    bytes of its body.  [sign_rs256] reads the App's private key and signs. *)
Class Network (S : Type) := {
  exchange : pystr -> pystr -> texts_map -> option pystr -> S ->
    option (Z * texts_map * bytes) * S;
  sign_rs256 : pystr -> S -> res bytes * S }.

Definition path_allowed (path : pystr) : bool :=
  startswith path (str "/") && negb (startswith path (str "//")) &&
  negb (contains path (str "://")) && negb (existsb (N.eqb 13) path) &&
  negb (existsb (N.eqb 10) path).

(** Header values are sent as Latin-1. *)
Definition latin1 (m : texts_map) : bool := forallb (fun kv => forallb (fun c => c <? 256)%N kv.2) m.

Definition lower_keys (m : texts_map) : texts_map :=
  fold_left (fun acc kv => set_text (lower_text kv.1) kv.2 acc) m [].

Record AppClient := {
  app_id : Z; installation_id : Z; app_slug : pystr; repository_id : Z }.

Record InstallationCredential := {
  token : pystr; expires_at : Z; cred_repository_id : Z; cred_installation_id : Z;
  cred_app_slug : pystr; permissions : texts_map }.

Definition app_error {A} (m : string) : res A := Raise (GitHubAppError m).

Section App.
Context {S : Type} `{!Network S}.

(** [FixedGitHubTransport.request] *)
Definition transport_request (method path : pystr) (hdrs : texts_map) (payload : option pystr) :
    M S HTTPResponse := fun s =>
  if negb (path_allowed path) then (app_error "GitHub API path is invalid", s)
  else if negb (latin1 hdrs) then (Raise (ValueError "'latin-1' codec can't encode"), s)
  else
    match exchange method path hdrs payload s with
    | (None, s') => (app_error "GitHub API transport failed", s')
    | (Some (code, hs, raw), s') =>
        if MAX_RESPONSE_BYTES <? zlen raw
        then (app_error "GitHub API response exceeds size limit", s')
        else (Ok {| status := code; headers := lower_keys hs; body := raw |}, s')
    end.

(** ** JSON *)

(** [_json_loads] with its two hooks. *)
Definition json_loads (raw : bytes) : res value :=
  let invalid := GitHubAppError "GitHub API returned invalid JSON" in
  let* text := reraise (fun _ => true) (fun _ => invalid) (json_decode raw) in
  reraise (fun e => match e with JSONDecodeError => true | _ => false end) (fun _ => invalid)
    (loads (GitHubAppError "GitHub API returned duplicate JSON fields")
           (GitHubAppError "GitHub API returned a non-finite JSON number") text).

Definition request_headers (token : pystr) : texts_map :=
  [(str "Accept", str "application/vnd.github+json");
   (str "X-GitHub-Api-Version", str API_VERSION); (str "User-Agent", str USER_AGENT)] ++
  match token with [] => [] | _ => [(str "Authorization", str "Bearer " ++ token)] end.

Definition request_json (method : string) (path token : pystr) (payload : option value)
    (expected_status : Z) : M S (value * texts_map) :=
  let content := match payload with
    | Some _ => [(str "Content-Type", str "application/json")] | None => [] end in
  let! response := transport_request (str method) path (request_headers token ++ content)
    (option_map dumps payload) in
  if negb (response.(status) =? expected_status) then
    throw (GitHubAppError "GitHub API request failed")
  else
    let! data := lift (json_loads response.(body)) in
    ret (data, response.(headers)).

Definition graphql_payload (query : string) (variables : dict) : value :=
  obj [("query", vstr query); ("variables", VDict variables)].

(** What a GraphQL response means. *)
Definition graphql_result (data : value) : res dict :=
  match data with
  | VDict data =>
      raise_if truthy (get data "errors")
        with (GitHubAppError "GitHub GraphQL request returned errors") ;;
      match get data "data" with
      | VDict result => Ok result
      | _ => app_error "GitHub GraphQL response is missing data"
      end
  | _ => app_error "GitHub GraphQL response must be an object"
  end.

Definition graphql (token : pystr) (query : string) (variables : dict) :
    M S (dict * texts_map) :=
  let! (data, hdrs) := request_json "POST" (str "/graphql") token
    (Some (graphql_payload query variables)) 200 in
  let! result := lift (graphql_result data) in
  ret (result, hdrs).

(** ** Authentication *)

(** [generate_app_jwt] at an instant in microseconds. *)
Definition jwt_input (app_id now : Z) (lifetime_seconds : Z) : pystr :=
  let issued_at := now / 1000000 - 30 in
  let expires_at := now / 1000000 + lifetime_seconds in
  base64url (utf8 (dumps (obj [("alg", vstr "RS256"); ("typ", vstr "JWT")]))) ++ str "." ++
  base64url (utf8 (dumps (obj [("exp", VInt expires_at); ("iat", VInt issued_at);
                               ("iss", VStr (dec app_id))]))).

Definition generate_app_jwt (app_id now : Z) (lifetime_seconds : Z) : M S pystr := fun s =>
  if app_id <=? 0 then (app_error "GitHub App id is invalid", s)
  else if (lifetime_seconds <? 60) || (540 <? lifetime_seconds) then
    (app_error "GitHub App JWT lifetime is invalid", s)
  else
    let signing_input := jwt_input app_id now lifetime_seconds in
    match sign_rs256 signing_input s with
    | (Ok signature, s') => (Ok (signing_input ++ str "." ++ base64url signature), s')
    | (Raise e, s') => (Raise e, s')
    end.

Definition check_app (app : value) (client : AppClient) : res unit :=
  let e := GitHubAppError "GitHub App identity does not match broker config" in
  match app with
  | VDict d =>
      raise_if negb (py_eq (get d "id") (VInt client.(app_id))) ||
               negb (py_eq (get d "slug") (VStr client.(app_slug))) with e ;; Ok tt
  | _ => Raise e
  end.

Definition check_installation (installation : value) (client : AppClient) : res unit :=
  let e := GitHubAppError "GitHub App installation does not match broker config" in
  match installation with
  | VDict d =>
      raise_if negb (py_eq (get d "id") (VInt client.(installation_id))) ||
               negb (py_eq (get d "app_id") (VInt client.(app_id))) with e ;; Ok tt
  | _ => Raise e
  end.

Definition token_text (v : value) : res pystr :=
  let e := GitHubAppError "installation token is invalid" in
  match v with
  | VStr ((_ :: _) as t) =>
      raise_if existsb (N.eqb 13) t || existsb (N.eqb 10) t with e ;; Ok t
  | _ => Raise e
  end.

(** The expiry, between 60 and 3700 seconds from [now]. *)
Definition token_expiry (v : value) (now : Z) : res Z :=
  let e := GitHubAppError "installation token expiry is invalid" in
  match v with
  | VStr s =>
      match strptime s with
      | Some expires =>
          let remaining := expires * 1000000 - now in
          raise_if (remaining <? 60 * 1000000) ||
                   (MAX_TOKEN_LIFETIME_SECONDS * 1000000 <? remaining)
            with (GitHubAppError "installation token lifetime is invalid") ;;
          Ok expires
      | None => Raise e
      end
  | _ => Raise e
  end.

Definition permission_table (l : list (string * string)) : texts_map :=
  map (fun kv => (str kv.1, str kv.2)) l.

(** The granted permissions: all the requested ones, and no other than the
    allowed ones. *)
Definition token_permissions (v : value) : res texts_map :=
  match v with
  | VDict d =>
      let normalized := map (fun kv => (kv.1, py_str kv.2)) d in
      raise_if negb (forallb
          (fun kv => bool_decide (lookup_text kv.1 normalized = Some kv.2))
          (permission_table REQUESTED_PERMISSIONS))
        with (GitHubAppError "installation token lacks the broker permission subset") ;;
      raise_if negb (forallb
          (fun kv => bool_decide
             (lookup_text kv.1 (permission_table ALLOWED_RETURNED_PERMISSIONS) = Some kv.2))
          normalized)
        with (GitHubAppError "installation token carries an unexpected permission") ;;
      Ok normalized
  | _ => app_error "installation token permissions are missing"
  end.

(** The token reaches exactly the configured repository. *)
Definition check_repositories (repositories : value) (client : AppClient) : res unit :=
  let e := GitHubAppError
    "installation token is not restricted to the configured repository" in
  match repositories with
  | VDict d =>
      match get d "total_count", get d "repositories" with
      | VInt 1, VList [VDict item] =>
          raise_if negb (py_eq (get item "id") (VInt client.(repository_id))) with e ;; Ok tt
      | _, _ => Raise e
      end
  | _ => app_error "installation repository response is invalid"
  end.

Definition token_request (client : AppClient) : value :=
  obj [("repository_ids", VList [VInt client.(repository_id)]);
       ("permissions", obj (map (fun kv => (kv.1, vstr kv.2)) REQUESTED_PERMISSIONS))].

Definition authenticate_installation (client : AppClient) (now : Z) :
    M S InstallationCredential :=
  let! app_jwt := generate_app_jwt client.(app_id) now 540 in
  let! (app, _) := request_json "GET" (str "/app") app_jwt None 200 in
  let! _ := lift (check_app app client) in
  let installation_path := str "/app/installations/" ++ dec client.(installation_id) in
  let! (installation, _) := request_json "GET" installation_path app_jwt None 200 in
  let! _ := lift (check_installation installation client) in
  let! (token_data, _) := request_json "POST" (installation_path ++ str "/access_tokens")
    app_jwt (Some (token_request client)) 201 in
  let! credential := lift match token_data with
    | VDict d =>
        let* token := token_text (get d "token") in
        let* expires := token_expiry (get d "expires_at") now in
        let* granted := token_permissions (get d "permissions") in
        Ok {| token := token; expires_at := expires;
              cred_repository_id := client.(repository_id);
              cred_installation_id := client.(installation_id);
              cred_app_slug := client.(app_slug); permissions := granted |}
    | _ => app_error "installation-token response must be an object"
    end in
  let! (repositories, _) := request_json "GET"
    (str "/installation/repositories?per_page=100") credential.(token) None 200 in
  let! _ := lift (check_repositories repositories client) in
  ret credential.
End App.
