(* ===== verification/Trust.v ===== *)
(** * Trusted files

    The part of broker/john_lomein_broker_protocol.py that reads files:
    [_uid_set], [validate_trusted_parent_chain], [read_stable_file],
    [read_trusted_file], [parse_json_bytes], [load_config] and
    [load_submission].  The system calls are the class [Files]. *)

From S2P Require Import Prelude Regex Sha256 PyTime PyUrl PyText Json Encoding Effects Protocol Submission.
Local Open Scope Z_scope.

(** ** System calls *)

Record stat_result := { st_mode : Z; st_uid : Z; st_size : Z }.

(** [os.lstat], [os.open(path, O_RDONLY | O_CLOEXEC | O_NOFOLLOW)], [os.fstat],
    [os.read] and [os.close]. *)
Class Files (S : Type) := {
  os_lstat : pystr -> M S stat_result;
  os_open : pystr -> M S Z;
  os_fstat : Z -> M S stat_result;
  os_read : Z -> Z -> M S bytes;
  os_close : Z -> M S unit }.

Definition S_IFMT (mode : Z) : Z := Z.land mode 61440.
Definition S_ISLNK (mode : Z) : bool := S_IFMT mode =? 40960.
Definition S_ISDIR (mode : Z) : bool := S_IFMT mode =? 16384.
Definition S_ISREG (mode : Z) : bool := S_IFMT mode =? 32768.
(** [mode & 0o022] *)
Definition shared_writable (mode : Z) : bool := negb (Z.land mode 18 =? 0).

Definition protocol_error {A} (field m : string) : res A := Raise (BrokerProtocolError (field +:+ m)).

(** [except OSError as exc: raise BrokerProtocolError(...)] *)
Definition or_unreadable {S A} (field m : string) : M S A -> M S A :=
  rethrow isa_os (fun _ => BrokerProtocolError (field +:+ m)).

(** ** Owners *)

(** The loop over the owners; duplicates do not matter in a set. *)
Fixpoint uid_items (l : list value) : res (list Z) :=
  match l with
  | [] => Ok []
  | VInt z :: l' =>
      raise_if z <? 0 with (BrokerProtocolError "trusted owner UID set is invalid") ;;
      let* r := uid_items l' in Ok (z :: r)
  | _ :: _ => Raise (BrokerProtocolError "trusted owner UID set is invalid")
  end.

Definition uid_set (values : value) (default : list Z) : res (list Z) :=
  let invalid := BrokerProtocolError "trusted owner UID set is invalid" in
  let* items := match values with
    | VNone => Ok (map VInt default)
    | VInt z => Ok [VInt z]
    | VList l => Ok l
    | VStr s => Ok (map (fun c => VStr [c]) s)
    | VDict d => Ok (map (fun kv => VStr kv.1) d)
    | VBool _ | VFloat _ => Raise invalid
    end in
  let* normalized := uid_items items in
  raise_if bool_decide (normalized = [])
    with (BrokerProtocolError "trusted owner UID set is empty") ;;
  Ok normalized.

Section Files.
Context {S : Type} `{!Files S}.

(** ** Directories *)

(** One directory of the chain. *)
Definition check_directory (field : string) (trusted : list Z) (current : path) : M S unit :=
  let! info := or_unreadable field " parent directory is unreadable"
    (os_lstat (path_text current)) in
  if S_ISLNK info.(st_mode) || negb (S_ISDIR info.(st_mode)) then
    throw (BrokerProtocolError (field +:+ " parent directory is unsafe"))
  else if negb (bool_decide (info.(st_uid) ∈ trusted)) then
    throw (BrokerProtocolError (field +:+ " parent directory owner is untrusted"))
  else if shared_writable info.(st_mode) then
    throw (BrokerProtocolError (field +:+ " parent directory is group/other writable"))
  else ret tt.

(** The [while True] loop, from [current] up to [stop] or the root. *)
Fixpoint check_chain (fuel : nat) (field : string) (trusted : list Z) (stop : option path)
    (current : path) : M S unit :=
  match fuel with
  | O => throw OutOfFuel
  | Datatypes.S fuel' =>
      let! _ := check_directory field trusted current in
      if bool_decide (stop = Some current) then ret tt
      else if bool_decide (parent current = current) then ret tt
      else check_chain fuel' field trusted stop (parent current)
  end.

Definition trusted_stop (field : string) (path : path) (root : option pystr) :
    res (option PyUrl.path) :=
  match root with
  | None => Ok None
  | Some r =>
      let* stop := lexical_absolute_path (VStr r) "trusted path root" in
      raise_if negb (path_within path stop)
        with (BrokerProtocolError (field +:+ " is outside the trusted path root")) ;;
      Ok (Some stop)
  end.

Definition validate_trusted_parent_chain (path : pystr) (field : string)
    (expected_owner_uids : value) (trusted_path_root : option pystr) : M S unit :=
  let! trusted := lift (uid_set expected_owner_uids [0]) in
  let! p := lift (lexical_absolute_path (VStr path) field) in
  let! stop := lift (trusted_stop field p trusted_path_root) in
  check_chain (Datatypes.S (length p.(parts))) field trusted stop p.

(** ** Files *)

(** The [while True] loop over [os.read]: [total] is what has been read. *)
Fixpoint read_chunks (fuel : nat) (fd : Z) (field : string) (maximum_bytes total : Z)
    (chunks : bytes) : M S bytes :=
  match fuel with
  | O => throw OutOfFuel
  | Datatypes.S fuel' =>
      let! chunk := os_read fd (Z.min (64 * 1024) (maximum_bytes + 1 - total)) in
      match chunk with
      | [] => ret chunks
      | _ =>
          let total' := total + zlen chunk in
          if maximum_bytes <? total' then
            throw (BrokerProtocolError (field +:+ " exceeds its size limit"))
          else read_chunks fuel' fd field maximum_bytes total' (chunks ++ chunk)
      end
  end.

(** The checks of the open file. *)
Definition check_file (field : string) (maximum_bytes : Z) (expected_owner_uids : value)
    (reject_group_other_writable : bool) (info : stat_result) : res unit :=
  raise_if negb (S_ISREG info.(st_mode))
    with (BrokerProtocolError (field +:+ " must be a regular non-symlink file")) ;;
  let* _ := match expected_owner_uids with
    | VNone => Ok tt
    | _ =>
        let* trusted := uid_set expected_owner_uids [0] in
        raise_if negb (bool_decide (info.(st_uid) ∈ trusted))
          with (BrokerProtocolError (field +:+ " owner is untrusted")) ;;
        Ok tt
    end in
  raise_if reject_group_other_writable && shared_writable info.(st_mode)
    with (BrokerProtocolError (field +:+ " is group/other writable")) ;;
  raise_if maximum_bytes <? info.(st_size)
    with (BrokerProtocolError (field +:+ " exceeds its size limit")) ;;
  Ok tt.

Definition read_stable_file (path : pystr) (field : string) (maximum_bytes : Z)
    (expected_owner_uids : value) (reject_group_other_writable : bool) : M S bytes :=
  let! fd := or_unreadable field " is unreadable" (os_open path) in
  ensure
    (or_unreadable field " is unreadable"
      (let! info := os_fstat fd in
       let! _ := lift (check_file field maximum_bytes expected_owner_uids
                         reject_group_other_writable info) in
       read_chunks (Z.to_nat (maximum_bytes + 2)) fd field maximum_bytes 0 []))
    (os_close fd).

Definition read_trusted_file (path : pystr) (field : string) (maximum_bytes : Z)
    (expected_owner_uids parent_owner_uids : value) (trusted_path_root : option pystr) :
    M S bytes :=
  let! p := lift (lexical_absolute_path (VStr path) field) in
  let! _ := validate_trusted_parent_chain (path_text (parent p)) field parent_owner_uids
    trusted_path_root in
  read_stable_file (path_text p) field maximum_bytes expected_owner_uids true.

(** ** Configuration and submission files *)

Definition parse_json_bytes (raw : bytes) (field : string) (maximum_bytes : Z) : res value :=
  raise_if maximum_bytes <? zlen raw
    with (BrokerProtocolError (field +:+ " exceeds its size limit")) ;;
  let invalid := BrokerProtocolError (field +:+ " is invalid JSON") in
  let* text := reraise (fun _ => true) (fun _ => invalid) (json_decode raw) in
  reraise (fun e => match e with JSONDecodeError => true | _ => false end) (fun _ => invalid)
    (loads (BrokerProtocolError "JSON object contains duplicate fields")
           (BrokerProtocolError "JSON contains a non-finite number") text).

(** An existing database file. *)
Definition check_database (key_owners : list Z) (database_path : pystr) : M S unit :=
  attempt (os_lstat database_path)
    (fun e => match e with
       | FileNotFoundError => Some (ret tt)
       | OSError _ =>
           Some (throw (BrokerProtocolError "broker state database is unreadable"))
       | _ => None
       end)
    (fun info =>
       if S_ISLNK info.(st_mode) || negb (S_ISREG info.(st_mode)) then
         throw (BrokerProtocolError "broker state database is unsafe")
       else if negb (bool_decide (info.(st_uid) ∈ key_owners)) then
         throw (BrokerProtocolError "broker state database owner is untrusted")
       else if shared_writable info.(st_mode) then
         throw (BrokerProtocolError "broker state database is group/other writable")
       else ret tt).

(** A key file that holds its PEM marker. *)
Definition read_key (key_owners parent_owners : list Z) (trusted_path_root : option pystr)
    (key_path : pystr) (field marker : string) : M S bytes :=
  let! snapshot := read_trusted_file key_path field MAX_KEY_BYTES
    (VList (map VInt key_owners)) (VList (map VInt parent_owners)) trusted_path_root in
  if negb (contains snapshot (str marker)) then
    throw (BrokerProtocolError (field +:+ " is not a PEM key"))
  else ret snapshot.

Definition load_config (path : pystr) (config_owner_uids key_owner_uids parent_owner_uids : value)
    (trusted_path_root : option pystr) (expected_broker_uid : option Z) : M S Config :=
  let! config_owners := lift (uid_set config_owner_uids [0]) in
  let! p := lift (lexical_absolute_path (VStr path) "broker config") in
  let owners := VList (map VInt config_owners) in
  let! _ := validate_trusted_parent_chain (path_text (parent p)) "broker config" owners
    trusted_path_root in
  let! raw := read_stable_file (path_text p) "broker config" MAX_CONFIG_BYTES owners true in
  let! v := lift (parse_json_bytes raw "broker config" MAX_CONFIG_BYTES) in
  let! config := lift (normalize_config v) in
  if match expected_broker_uid with Some u => negb (config.(broker_uid) =? u) | None => false end
  then throw (BrokerProtocolError "broker config broker UID does not match the service identity")
  else
    let! key_owners := lift (uid_set key_owner_uids [0; config.(broker_uid)]) in
    let! parent_owners := lift (uid_set parent_owner_uids [0; config.(broker_uid)]) in
    let parents := VList (map VInt parent_owners) in
    let! _ := validate_trusted_parent_chain
      (path_text (parent (path_of config.(transport).(socket_path)))) "broker socket" parents
      trusted_path_root in
    let! _ := validate_trusted_parent_chain
      (path_text (parent (path_of config.(database_path)))) "broker state database" parents
      trusted_path_root in
    let! _ := check_database key_owners config.(database_path) in
    let read := read_key key_owners parent_owners trusted_path_root in
    let! _ := read config.(github_app).(github_private_key_path)
      "broker GitHub App private key" "PRIVATE KEY" in
    let! _ := read config.(receipt_signing).(receipt_private_key_path)
      "broker receipt private key" "PRIVATE KEY" in
    let! public_key := read config.(receipt_signing).(receipt_public_key_path)
      "broker receipt public key" "PUBLIC KEY" in
    if negb (bool_decide (sha256_hex public_key = config.(receipt_signing).(public_key_sha256)))
    then throw (BrokerProtocolError "broker receipt public-key fingerprint does not match")
    else ret config.

(** [bytes] or a path; the type of anything else is an error. *)
Inductive source := SourceBytes (raw : bytes) | SourcePath (path : pystr) | SourceOther.

Definition load_submission (src : source) (config : value) (now : clock) (utcnow1 utcnow2 : Z) :
    M S Packet :=
  let! raw := match src with
    | SourceBytes raw => ret raw
    | SourcePath path =>
        read_stable_file path "broker submission" MAX_SUBMISSION_BYTES VNone false
    | SourceOther =>
        throw (BrokerProtocolError "broker submission source must be bytes or a path")
    end in
  lift
    (let* v := parse_json_bytes raw "broker submission" MAX_SUBMISSION_BYTES in
     normalize_submission v config now utcnow1 utcnow2).
End Files.
