(* ===== verification/TrustFacts.v ===== *)
(** * What reading a trusted file guarantees

    [trusted_read_terminates]: the loops end whatever the system calls answer.
    [trusted_read_exact]: on a file system that does not change during the
    call, [read_trusted_file] returns the content exactly when the file and
    every directory above it, up to the trusted root, satisfy the policy. *)

From S2P Require Import Prelude Regex Sha256 PyTime PyUrl PyText Json ConfigFacts Encoding Effects Protocol Submission Trust.
Local Open Scope Z_scope.

(** ** Absolute paths and their ancestors *)

Definition part_ok (p : pystr) : Prop := p <> [] /\ p <> str "." /\ ch_of "/" ∉ p.

Lemma split_on_nonempty c s : split_on c s <> [].
Proof. destruct s as [|a s]; [done |]. simpl. destruct (split_on c s); [done |]. by destruct (a =? c)%N. Qed.

Lemma split_on_plain c p s :
  c ∉ p -> split_on c (p ++ c :: s) = p :: split_on c s.
Proof.
  induction p as [|a p IH]; simpl; intros Hc.
  - pose proof (split_on_nonempty c s). destruct (split_on c s); [done |]. by rewrite N.eqb_refl.
  - rewrite not_elem_of_cons in Hc. destruct Hc as [Ha Hp]. rewrite IH by done.
    destruct (a =? c)%N eqn:E; [|done]. apply N.eqb_eq in E. by subst.
Qed.

Lemma split_on_last c p : c ∉ p -> split_on c p = [p].
Proof.
  induction p as [|a p IH]; simpl; [done |]. intros [Ha Hp]%not_elem_of_cons. rewrite IH by done.
  destruct (a =? c)%N eqn:E; [|done]. apply N.eqb_eq in E. by subst.
Qed.

Lemma split_on_parts c s : Forall (fun p => c ∉ p) (split_on c s).
Proof.
  induction s as [|a s IH]; simpl; [repeat constructor; apply not_elem_of_nil |].
  pose proof (split_on_nonempty c s). destruct (split_on c s) as [|p ps]; [done |].
  apply Forall_cons in IH as [Hp Hps]. destruct (a =? c)%N eqn:E.
  - repeat constructor; [apply not_elem_of_nil | done..].
  - constructor; [|done]. rewrite not_elem_of_cons. split; [|done].
    intros ->. by rewrite N.eqb_refl in E.
Qed.

Lemma path_of_parts s : Forall part_ok (path_of s).(parts).
Proof.
  cbn. apply Forall_forall. intros p Hp. apply list_elem_of_In, filter_In in Hp as [Hp Hb].
  apply list_elem_of_In in Hp. pose proof (split_on_parts (ch_of "/") s) as Ha.
  rewrite Forall_forall in Ha. apply Ha in Hp. apply negb_true_iff, orb_false_iff in Hb as [H1 H2].
  apply bool_decide_eq_false in H1, H2. done.
Qed.

Definition kept (p : pystr) : bool := negb (bool_decide (p = []) || bool_decide (p = str ".")).

Lemma part_kept p : part_ok p -> kept p = true.
Proof. intros (H1 & H2 & _). unfold kept. by rewrite !bool_decide_false. Qed.

Lemma split_join l :
  Forall part_ok l -> List.filter kept (split_on (ch_of "/") (join_parts l)) = l.
Proof.
  induction 1 as [|p l Hp Hl IH]; [done |]. destruct l as [|q l]; cbn [join_parts].
  - rewrite split_on_last by apply Hp. cbn. by rewrite part_kept.
  - change (p ++ str "/" ++ ?x) with (p ++ ch_of "/" :: x). rewrite split_on_plain by apply Hp.
    cbn [List.filter]. rewrite part_kept by done. f_equal. exact IH.
Qed.

Lemma join_head l : Forall part_ok l -> startswith (join_parts l) (str "/") = false.
Proof.
  intros H. apply bool_decide_eq_false. destruct H as [|p l Hp _]; [done |].
  destruct p as [|a p]; [by destruct Hp |]. destruct Hp as (_ & _ & Hp).
  destruct l; cbn; intros [= ->]; apply Hp; by left.
Qed.

(** The text of an absolute path names it. *)
Lemma path_of_text r l :
  r = str "/" \/ r = str "//" -> Forall part_ok l -> path_of (path_text (Path r l)) = Path r l.
Proof.
  intros Hr Hl. unfold path_of, path_text. cbn [PyUrl.root PyUrl.parts].
  fold kept. pose proof (join_head l Hl) as Hj. pose proof (split_join l Hl) as Hs.
  pose proof (split_on_nonempty (ch_of "/") (join_parts l)) as Hn.
  f_equal.
  - unfold path_root, startswith in *.
    apply bool_decide_eq_false in Hj. destruct Hr as [-> | ->]; cbn -[take join_parts] in *.
    + rewrite (bool_decide_false (take 2 _ = _)); [done |].
      destruct (join_parts l); [done |]. cbn in *. intros [= ->]. by apply Hj.
    + rewrite bool_decide_true by done. rewrite bool_decide_false; [done |].
      destruct (join_parts l); [done |]. cbn in *. intros [= ->]. by apply Hj.
  - destruct Hr as [-> | ->]; simpl; destruct (split_on _ (join_parts l)) as [|x xs]; try done.
Qed.

Lemma elem_of_join c l p : p ∈ l -> c ∈ p -> c ∈ join_parts l.
Proof.
  induction l as [|q l IH]; intros Hp Hc; [by apply elem_of_nil in Hp |].
  apply elem_of_cons in Hp as [<-|Hp]; destruct l as [|q' l]; cbn [join_parts].
  - done.
  - rewrite elem_of_app. by left.
  - by apply elem_of_nil in Hp.
  - rewrite !elem_of_app. right. right. by apply IH.
Qed.

Lemma join_elem_of c l : c ∈ join_parts l -> c = ch_of "/" \/ exists p, p ∈ l /\ c ∈ p.
Proof.
  induction l as [|q l IH]; intros H; [by apply elem_of_nil in H |].
  destruct l as [|q' l]; cbn [join_parts] in H.
  - right. exists q. split; [by left | done].
  - rewrite !elem_of_app in H. destruct H as [H | [H | H]].
    + right. exists q. split; [by left | done].
    + left. by apply list_elem_of_singleton in H.
    + apply IH in H as [-> | (p & Hp & Hc)]; [by left |]. right. exists p. split; [by right | done].
Qed.

(** A path the lexical check returns. *)
Record lexical (p : path) : Prop := {
  lx_root : p.(root) = str "/" \/ p.(root) = str "//";
  lx_parts : Forall part_ok p.(parts);
  lx_nul : Forall (fun q => 0%N ∉ q) p.(parts);
  lx_up : str ".." ∉ p.(parts) }.

Lemma path_root_cases s : path_root s = [] \/ path_root s = str "/" \/ path_root s = str "//".
Proof. unfold path_root. destruct (_ && _); [by auto |]. destruct (startswith _ _); auto. Qed.

Lemma lexical_of v f p : lexical_absolute_path v f = Ok p -> lexical p /\ v = VStr (path_text p).
Proof.
  intros H. apply lexical_absolute_path_inv in H as (s & -> & -> & Hs).
  destruct Hs as (_ & H0 & Ha & Hu & Ht). split; [|by rewrite Ht]. constructor; [| |  |done].
  - unfold is_absolute in Ha. destruct (path_root_cases s) as [E | E]; [|done].
    cbn in Ha. rewrite E in Ha. done.
  - apply path_of_parts.
  - apply Forall_forall. intros q Hq Hc. apply H0. rewrite <- Ht. unfold path_text.
    apply elem_of_app. right. by eapply elem_of_join.
Qed.

Lemma lexical_ok p f : lexical p -> lexical_absolute_path (VStr (path_text p)) f = Ok p.
Proof.
  intros [Hr Hp H0 Hu]. destruct p as [r l]. cbn in Hr, Hp, H0, Hu. unfold lexical_absolute_path.
  rewrite path_of_text by done.
  assert (path_text (Path r l) <> []) by (by destruct Hr as [-> | ->]).
  assert (0%N ∉ path_text (Path r l)).
  { unfold path_text. cbn. rewrite elem_of_app. intros [H1 | H1].
    - destruct Hr as [-> | ->]; cbn in H1; repeat (apply elem_of_cons in H1 as [H1 | H1]; [done |]);
        by apply elem_of_nil in H1.
    - apply join_elem_of in H1 as [H1 | (q & Hq & Hc)]; [done |].
      rewrite Forall_forall in H0. by apply (H0 q). }
  rewrite !bool_decide_false by done. unfold is_absolute. cbn [root].
  rewrite bool_decide_false by (by destruct Hr as [-> | ->]). cbn [orb negb].
  by rewrite bool_decide_true.
Qed.

(** [depth k p]: the directory with the first [k] components of [p]. *)
Definition depth (k : nat) (p : path) : path := Path p.(root) (take k p.(parts)).

Lemma lexical_depth k p : lexical p -> lexical (depth k p).
Proof.
  intros [Hr Hp H0 Hu]. constructor; cbn; [done | by apply Forall_take | by apply Forall_take |].
  intros H. apply Hu. rewrite <- (take_drop k (parts p)). apply elem_of_app. by left.
Qed.

Lemma depth_all p : depth (length p.(parts)) p = p.
Proof. destruct p. unfold depth. cbn. by rewrite take_ge. Qed.

Lemma removelast_take {A} (l : list A) : removelast l = take (length l - 1) l.
Proof.
  induction l as [|x [|y l] IH]; [done.. |]. change (removelast (x :: y :: l)) with (x :: removelast (y :: l)).
  rewrite IH. cbn. by rewrite Nat.sub_0_r.
Qed.

Lemma parent_depth k p : (k <= length p.(parts))%nat -> parent (depth k p) = depth (k - 1) p.
Proof.
  intros Hk. unfold parent, depth. cbn. f_equal. rewrite removelast_take, length_take, take_take.
  f_equal. lia.
Qed.

Lemma parent_is_depth p : parent p = depth (length p.(parts) - 1) p.
Proof. rewrite <- (depth_all p) at 1. by apply parent_depth. Qed.

Lemma depth_eq p k k' :
  (k <= length p.(parts))%nat -> (k' <= length p.(parts))%nat -> depth k p = depth k' p -> k = k'.
Proof.
  intros Hk Hk' [= E]. apply (f_equal length) in E. rewrite !length_take in E. lia.
Qed.

(** ** Termination *)

Section Termination.
Context {S : Type} `{!Files S}.

(** Python never raises [OutOfFuel]. *)
Definition genuine {A} (m : M S A) : Prop := forall s, (m s).1 <> Raise OutOfFuel.

Lemma genuine_ret {A} (a : A) : genuine (ret a).
Proof. done. Qed.

Lemma genuine_throw {A} e : e <> OutOfFuel -> genuine (throw (A := A) e).
Proof. unfold genuine. cbn. congruence. Qed.

Lemma genuine_lift {A} (r : res A) : r <> Raise OutOfFuel -> genuine (lift r).
Proof. by intros H s. Qed.

Lemma genuine_bind {A B} (m : M S A) (k : A -> M S B) :
  genuine m -> (forall a, genuine (k a)) -> genuine (bind m k).
Proof.
  intros Hm Hk s. specialize (Hm s). unfold bind. destruct (m s) as [[a|e] s']; [apply Hk | cbn in *; congruence].
Qed.

Lemma genuine_rethrow {A} catch wrap (m : M S A) :
  (forall e, wrap e <> OutOfFuel) -> genuine m -> genuine (rethrow catch wrap m).
Proof.
  intros Hw Hm s. specialize (Hm s). unfold rethrow. destruct (m s) as [[a|e] s']; [done |]. cbn.
  destruct (catch e); [|done]. intros [= E]. by apply Hw in E.
Qed.

Lemma genuine_ensure {A} (m : M S A) c : genuine m -> genuine c -> genuine (ensure m c).
Proof.
  intros Hm Hc s. specialize (Hm s). unfold ensure. destruct (m s) as [r s'].
  specialize (Hc s'). destruct (c s') as [[|] s'']; [exact Hm |]. cbn in *. congruence.
Qed.

(** The system calls raise exceptions of Python. *)
Definition genuine_calls : Prop :=
  (forall p, genuine (os_lstat p)) /\ (forall p, genuine (os_open p)) /\
  (forall fd, genuine (os_fstat fd)) /\ (forall fd n, genuine (os_read fd n)) /\
  (forall fd, genuine (os_close fd)).

Context (Hcalls : genuine_calls).

Lemma genuine_chain field trusted stop : forall fuel current,
  (length current.(parts) < fuel)%nat -> genuine (check_chain fuel field trusted stop current).
Proof.
  destruct Hcalls as (Hl & _).
  induction fuel as [|fuel IH]; intros current Hf; [lia |]. cbn [check_chain].
  apply genuine_bind; [|intros _].
  - apply genuine_bind; [by apply genuine_rethrow |]. intros info.
    repeat case_match; first [apply genuine_ret | by apply genuine_throw].
  - do 2 (case_bool_decide; [apply genuine_ret |]). apply IH. unfold parent in *. cbn [parts] in *.
    rewrite removelast_take, length_take. destruct current as [r [|q l]]; [done |]. cbn in *. lia.
Qed.

(** Every chunk that is not the last one adds a byte, and the loop stops above
    the maximum. *)
Lemma genuine_chunks fd field maximum : forall fuel total chunks,
  total <= maximum -> maximum + 2 - total <= Z.of_nat fuel ->
  genuine (read_chunks fuel fd field maximum total chunks).
Proof.
  destruct Hcalls as (_ & _ & _ & Hr & _).
  induction fuel as [|fuel IH]; intros total chunks Ht Hf; [lia |]. cbn [read_chunks].
  apply genuine_bind; [done |]. intros [|b chunk]; [apply genuine_ret |]. unfold zlen. cbn [length].
  destruct (_ <? _) eqn:E; [by apply genuine_throw |]. apply Z.ltb_ge in E. rewrite Nat2Z.inj_succ in *. apply IH; lia.
Qed.

Lemma uid_items_genuine l : uid_items l <> Raise OutOfFuel.
Proof.
  induction l as [|v l IH]; [done |]. destruct v; cbn; try done. destruct (z <? 0); [done |].
  destruct (uid_items l); [done |]. congruence.
Qed.

Lemma uid_set_genuine v d : uid_set v d <> Raise OutOfFuel.
Proof.
  unfold uid_set. destruct v; try done;
    match goal with |- context [uid_items ?l] => pose proof (uid_items_genuine l) end;
    destruct (uid_items _) eqn:E; simpl in *; try congruence; by case_bool_decide.
Qed.

Lemma lexical_genuine v f : lexical_absolute_path v f <> Raise OutOfFuel.
Proof. unfold lexical_absolute_path. destruct v; try done. by repeat case_match. Qed.

Lemma genuine_stable path field maximum owners reject :
  0 <= maximum -> genuine (read_stable_file path field maximum owners reject).
Proof.
  intros Hm. pose proof Hcalls as (_ & Ho & Hf & _ & Hc). unfold read_stable_file.
  apply genuine_bind; [by apply genuine_rethrow |]. intros fd.
  apply genuine_ensure; [|done]. apply genuine_rethrow; [done |].
  apply genuine_bind; [done |]. intros info. apply genuine_bind.
  - apply genuine_lift. unfold check_file. pose proof (uid_set_genuine owners [0]).
    destruct (negb _); [done |]. destruct owners; repeat case_match; congruence.
  - intros _. apply genuine_chunks; lia.
Qed.

(** C40: reading a trusted file terminates, whatever the system calls answer:
    the walk up the directories ends at the root and, since every chunk that is
    not empty brings the total nearer to the limit, so does the loop over
    [os.read]; the bounds on their steps in the model are never reached. *)
Theorem trusted_read_terminates path field maximum owners parents root (H : 0 <= maximum) s :
  (read_trusted_file path field maximum owners parents root s).1 <> Raise OutOfFuel.
Proof.
  revert s. change (genuine (read_trusted_file path field maximum owners parents root)).
  unfold read_trusted_file, validate_trusted_parent_chain.
  apply genuine_bind; [apply genuine_lift, lexical_genuine |]. intros p.
  apply genuine_bind; [|intros _; by apply genuine_stable].
  apply genuine_bind; [apply genuine_lift, uid_set_genuine |]. intros trusted.
  apply genuine_bind; [apply genuine_lift, lexical_genuine |]. intros q.
  apply genuine_bind; [apply genuine_lift | intros stop; apply genuine_chain; lia].
  unfold trusted_stop. destruct root as [r|]; [|done].
  pose proof (lexical_genuine (VStr r) "trusted path root").
  destruct (lexical_absolute_path (VStr r) _); [|congruence]. by destruct (negb _).
Qed.
End Termination.

(** ** A file system that does not change *)

(** What the paths name, and the descriptor that is open: its file and what is
    left to read. *)
Record machine := {
  tree : pystr -> option (stat_result * bytes);
  opened : option (stat_result * bytes) }.

Definition BAD_DESCRIPTOR : exn := OSError "Bad file descriptor".

#[export] Instance static_files : Files machine := {
  os_lstat p m := (match m.(tree) p with Some (info, _) => Ok info | None => Raise FileNotFoundError end, m);
  os_open p m := match m.(tree) p with
    | Some (info, content) =>
        if S_ISLNK info.(st_mode) then (Raise (OSError "Too many levels of symbolic links"), m)
        else (Ok 3, {| tree := m.(tree); opened := Some (info, content) |})
    | None => (Raise FileNotFoundError, m)
    end;
  os_fstat _ m := (match m.(opened) with Some (info, _) => Ok info | None => Raise BAD_DESCRIPTOR end, m);
  os_read _ n m := match m.(opened) with
    | Some (info, rest) =>
        (Ok (take (Z.to_nat n) rest),
         {| tree := m.(tree); opened := Some (info, drop (Z.to_nat n) rest) |})
    | None => (Raise BAD_DESCRIPTOR, m)
    end;
  os_close _ m := (Ok tt, {| tree := m.(tree); opened := None |}) }.

Section Static.
Context (fs : pystr -> option (stat_result * bytes)).

(** A directory only trusted users can write to. *)
Definition trusted_directory (trusted : list Z) (d : path) : Prop :=
  exists info content, fs (path_text d) = Some (info, content) /\
    S_ISDIR info.(st_mode) = true /\ info.(st_uid) ∈ trusted /\
    shared_writable info.(st_mode) = false.

Lemma dir_not_link mode : S_ISDIR mode = true -> S_ISLNK mode = false.
Proof. unfold S_ISDIR, S_ISLNK. rewrite Z.eqb_eq. by intros ->. Qed.

Lemma check_directory_static field trusted d o :
  exists r, check_directory field trusted d {| tree := fs; opened := o |} =
      (r, {| tree := fs; opened := o |}) /\
    (r = Ok tt <-> trusted_directory trusted d).
Proof.
  unfold check_directory, trusted_directory, bind, or_unreadable, rethrow. cbn.
  destruct (fs (path_text d)) as [[info content]|] eqn:E; cbn.
  2: { eexists. split; [done |]. split; [done |]. by intros (? & ? & ? & _). }
  destruct (S_ISDIR (st_mode info)) eqn:Ed; [rewrite dir_not_link by done | rewrite orb_true_r];
    cbn [orb negb].
  2: { eexists. split; [done |]. split; [done |]. intros (? & ? & ? & ? & _). simplify_eq; congruence. }
  case_bool_decide as Hu; cbn [negb].
  2: { eexists. split; [done |]. split; [done |]. intros (? & ? & ? & ? & ? & _). simplify_eq; congruence. }
  destruct (shared_writable (st_mode info)) eqn:Ew.
  - eexists. split; [done |]. split; [done |]. intros (? & ? & ? & ? & ? & ?). simplify_eq; congruence.
  - eexists. split; [done |]. split; [|done]. intros _. by exists info, content.
Qed.

(** The walk from depth [k] of [p] up to the depth of [stop]. *)
Definition floor_depth (stop : option path) : nat :=
  match stop with Some q => length q.(parts) | None => 0 end.

Lemma check_chain_static field trusted stop p o : forall fuel k,
  (k < fuel)%nat -> (floor_depth stop <= k <= length p.(parts))%nat ->
  (forall q, stop = Some q -> q = depth (length q.(parts)) p) ->
  exists r, check_chain fuel field trusted stop (depth k p) {| tree := fs; opened := o |} =
      (r, {| tree := fs; opened := o |}) /\
    (r = Ok tt <-> forall j, (floor_depth stop <= j <= k)%nat -> trusted_directory trusted (depth j p)).
Proof.
  induction fuel as [|fuel IH]; intros k Hk Hd Hs; [lia |]. cbn [check_chain]. unfold bind.
  destruct (check_directory_static field trusted (depth k p) o) as (r & -> & Hr).
  destruct r as [[]|e].
  2: { eexists. split; [done |]. split; [done |]. intros H. exfalso. assert (Raise e = Ok tt) by (apply Hr, H; lia). done. }
  assert (Hend : floor_depth stop = k -> (forall j, (floor_depth stop <= j <= k)%nat ->
    trusted_directory trusted (depth j p))).
  { intros <- j Hj. replace j with (floor_depth stop) by lia. by apply Hr. }
  case_bool_decide as E1; [|case_bool_decide as E2].
  - eexists. split; [done |]. split; [|done]. intros _. apply Hend. rewrite E1. cbn.
    rewrite length_take. lia.
  - eexists. split; [done |]. split; [|done]. intros _. apply Hend.
    rewrite parent_depth in E2 by lia. apply depth_eq in E2; lia.
  - rewrite parent_depth by lia.
    assert (Hlt : (floor_depth stop <= k - 1 /\ k - 1 < k)%nat).
    { destruct (decide (k = 0)%nat) as [->|].
      - exfalso. apply E2. by rewrite parent_depth by lia.
      - destruct stop as [q|]; cbn in *; [|lia].
        destruct (decide (length q.(parts) = k)) as [<-|]; [|lia].
        exfalso. apply E1. by rewrite <- (Hs q). }
    destruct (IH (k - 1)%nat) as (r & -> & Hr'); [lia | lia | done |].
    eexists. split; [done |]. rewrite Hr'. split; intros H j Hj; [|apply H; lia].
    destruct (decide (j = k)) as [->|]; [by apply Hr | apply H; lia].
Qed.

Lemma read_chunks_static fd field maximum info : forall fuel total rest chunks,
  total <= maximum -> maximum + 2 - total <= Z.of_nat fuel ->
  (read_chunks fuel fd field maximum total chunks
     {| tree := fs; opened := Some (info, rest) |}).1 =
  if maximum <? total + zlen rest
  then Raise (BrokerProtocolError (field +:+ " exceeds its size limit")) else Ok (chunks ++ rest).
Proof.
  unfold zlen. induction fuel as [|fuel IH]; intros total rest chunks Ht Hf; [lia |].
  cbn [read_chunks]. unfold bind. cbn [os_read static_files opened].
  set (n := Z.to_nat (Z.min (64 * 1024) (maximum + 1 - total))).
  assert (0 < n)%nat by lia. clearbody n.
  destruct rest as [|b rest].
  { rewrite take_nil. cbn. rewrite (proj2 (Z.ltb_ge _ _)) by lia. by rewrite app_nil_r. }
  destruct (take n (b :: rest)) as [|b' chunk] eqn:E; [destruct n; [lia | done] |].
  assert (Hs : b :: rest = (b' :: chunk) ++ drop n (b :: rest)) by (rewrite <- E; by rewrite take_drop).
  remember (drop n (b :: rest)) as left eqn:El. clear El. rewrite Hs. rewrite length_app.
  cbn [length]. unfold zlen. cbn [length].
  rewrite Nat2Z.inj_succ in *. rewrite Nat2Z.inj_add, Nat2Z.inj_succ.
  destruct (maximum <? total + Z.succ (Z.of_nat (length chunk))) eqn:E'.
  - apply Z.ltb_lt in E'. by rewrite (proj2 (Z.ltb_lt _ _)) by lia.
  - apply Z.ltb_ge in E'. cbn [static_files tree]. rewrite IH by lia. rewrite <- app_assoc.
    by rewrite Z.add_assoc.
Qed.

(** The file itself. *)
Definition trusted_content (owners : value) (maximum : Z) (p : pystr) (content : bytes) : Prop :=
  exists info, fs p = Some (info, content) /\ S_ISREG info.(st_mode) = true /\
    (owners = VNone \/ exists trusted, uid_set owners [0] = Ok trusted /\ info.(st_uid) ∈ trusted) /\
    shared_writable info.(st_mode) = false /\
    info.(st_size) <= maximum /\ zlen content <= maximum.

Lemma reg_not_link mode : S_ISREG mode = true -> S_ISLNK mode = false.
Proof. unfold S_ISREG, S_ISLNK. rewrite Z.eqb_eq. by intros ->. Qed.

Lemma check_file_ok field maximum owners info :
  check_file field maximum owners true info = Ok tt <->
  S_ISREG info.(st_mode) = true /\
  (owners = VNone \/ exists trusted, uid_set owners [0] = Ok trusted /\ info.(st_uid) ∈ trusted) /\
  shared_writable info.(st_mode) = false /\ info.(st_size) <= maximum.
Proof.
  unfold check_file. destruct (S_ISREG (st_mode info)); cbn [negb]; [|naive_solver].
  set (owned := match owners with VNone => Ok tt | _ => _ end).
  assert (Ho : owned = Ok tt <->
    (owners = VNone \/ exists trusted, uid_set owners [0] = Ok trusted /\ info.(st_uid) ∈ trusted)).
  { unfold owned. destruct owners; [naive_solver | ..];
      (destruct (uid_set _ [0]) as [trusted|]; [case_bool_decide | ]; cbn; naive_solver). }
  destruct owned as [[]|]; [|naive_solver].
  destruct (shared_writable _); cbn [andb]; [naive_solver |].
  destruct (maximum <? _) eqn:E; [apply Z.ltb_lt in E | apply Z.ltb_ge in E]; [|naive_solver].
  split; [done |]. intros (_ & _ & _ & ?). lia.
Qed.

Lemma read_stable_static path field maximum owners o content :
  0 <= maximum ->
  (read_stable_file path field maximum owners true {| tree := fs; opened := o |}).1 = Ok content <->
  trusted_content owners maximum path content.
Proof.
  intros Hm. unfold read_stable_file, bind, or_unreadable, rethrow, ensure, trusted_content.
  cbn [os_open static_files tree].
  destruct (fs path) as [[info c]|]; cbn [reraise isa_os]; [|naive_solver].
  destruct (S_ISLNK (st_mode info)) eqn:El; cbn [reraise isa_os].
  { split; [done |]. intros (i & [= <- <-] & Hr & _). apply reg_not_link in Hr. congruence. }
  cbn [os_fstat static_files opened]. unfold lift.
  destruct (check_file field maximum owners true info) as [[]|e] eqn:Ec.
  - apply check_file_ok in Ec. pose proof (read_chunks_static 3 field maximum info
      (Z.to_nat (maximum + 2)) 0 c []) as Hc.
    destruct (read_chunks _ _ _ _ _ _ _) as [r s'] eqn:Er. cbn [fst app] in Hc.
    rewrite Z.add_0_l in Hc. specialize (Hc ltac:(lia) ltac:(lia)). subst r. cbn [os_close static_files]. destruct (maximum <? zlen c) eqn:E; cbn [reraise isa_os fst].
    + apply Z.ltb_lt in E. split; [done |]. intros (i & [= <- <-] & _ & _ & _ & _ & ?). lia.
    + apply Z.ltb_ge in E. split; [intros [= <-]; by exists info; naive_solver | naive_solver].
  - cbn [os_close fst]. split.
    + cbn [reraise]. by destruct (isa_os e).
    + intros (i & [= <- <-] & H). exfalso. assert (check_file field maximum owners true info = Ok tt);
        [apply check_file_ok; naive_solver | congruence].
Qed.

(** The directories from the trusted root, or from the root of the file system,
    down to [d]. *)
Definition trusted_chain (trusted : list Z) (stop : option path) (d : path) : Prop :=
  forall k, (floor_depth stop <= k <= length d.(parts))%nat -> trusted_directory trusted (depth k d).

Lemma trusted_stop_inv field d root stop :
  trusted_stop field d root = Ok stop ->
  forall q, stop = Some q -> q = depth (length q.(parts)) d /\ (length q.(parts) <= length d.(parts))%nat.
Proof.
  unfold trusted_stop. intros H q ->. inv_ok H. unfold path_within in *. split_bools.
  repeat match goal with H : bool_decide _ = true |- _ => apply bool_decide_eq_true in H end.
  destruct q as [qr ql]. unfold depth. cbn [PyUrl.root parts] in *. split; [by f_equal |].
  match goal with H : take _ _ = _ |- _ => apply (f_equal length) in H; rewrite length_take in H end.
  lia.
Qed.

(** C28: on a file system that does not change during the call,
    [read_trusted_file] returns a content exactly when the path is absolute and
    normal, every directory from the trusted root (or from the root) down to
    the file's is a real directory of a trusted owner that no one else can
    write to, and the path names, not through a link, a regular file of a
    trusted owner, not writable by others, within the size limit, with that
    content. *)
Theorem trusted_read_exact path field maximum owners parents root content
    (H : 0 <= maximum) :
  (read_trusted_file path field maximum owners parents root
     {| tree := fs; opened := None |}).1 = Ok content <->
  exists p trusted stop,
    lexical_absolute_path (VStr path) field = Ok p /\ uid_set parents [0] = Ok trusted /\
    trusted_stop field (parent p) root = Ok stop /\ trusted_chain trusted stop (parent p) /\
    trusted_content owners maximum path content.
Proof.
  unfold read_trusted_file, validate_trusted_parent_chain.
  unfold bind at 1. unfold lift at 1.
  destruct (lexical_absolute_path (VStr path) field) as [p|e] eqn:Ep.
  2: { split; [done |]. by intros (? & ? & ? & ? & _). }
  apply lexical_of in Ep as Hp. destruct Hp as [Hp [= ->]].
  unfold bind at 1 2. unfold lift at 1.
  destruct (uid_set parents [0]) as [trusted|] eqn:Eu.
  2: { split; [done |]. by intros (? & ? & ? & _ & ? & _). }
  unfold bind at 1, lift at 1.
  rewrite lexical_ok by (rewrite parent_is_depth; by apply lexical_depth).
  unfold bind at 1, lift at 1.
  destruct (trusted_stop field (parent p) root) as [stop|] eqn:Es.
  2: { split; [done |]. intros (? & ? & ? & [= <-] & [= <-] & E & _). congruence. }
  pose proof (trusted_stop_inv _ _ _ _ Es) as Hs.
  rewrite <- (depth_all (parent p)) at 2.
  destruct (check_chain_static field trusted stop (parent p) None
    (Datatypes.S (length (parts (parent p)))) (length (parts (parent p)))) as (r & -> & Hr).
  - lia.
  - destruct stop as [q|]; cbn; [|lia]. by destruct (Hs q).
  - intros q E. by destruct (Hs q).
  - destruct r as [[]|e].
    + rewrite read_stable_static by done. split.
      * intros Hc. exists p, trusted, stop. split_and!; try done. exact (proj1 Hr eq_refl).
      * by intros (? & ? & ? & _ & _ & _ & _ & ?).
    + split; [done |]. intros (? & ? & ? & [= <-] & [= <-] & E & Hd & _).
      rewrite Es in E. injection E as <-.
      assert (Raise e = Ok tt) by (apply Hr; exact Hd). done.
Qed.
End Static.

(** ** A demonstration *)

Definition demo_tree (p : pystr) : option (stat_result * bytes) :=
  if bool_decide (p ∈ [str "/"; str "/etc"; str "/etc/broker"]) then
    Some ({| st_mode := 16384 + 493; st_uid := 0; st_size := 4096 |}, [])
  else if bool_decide (p = str "/etc/broker/key.pem") then
    Some ({| st_mode := 32768 + 384; st_uid := 0; st_size := 3 |}, [65; 66; 67]%N)
  else None.

Lemma demo_calls_genuine : genuine_calls (S := machine).
Proof.
  split_and!; intros; intros [t o]; cbn.
  all: repeat case_match; simplify_eq/=; done.
Qed.

Example trusted_read_terminates_witness :
  (read_trusted_file (str "/etc/broker/key.pem") "key" 10 VNone VNone None
     {| tree := demo_tree; opened := None |}).1 <> Raise OutOfFuel.
Proof. apply trusted_read_terminates; [exact demo_calls_genuine | lia]. Defined.

Example trusted_read_exact_witness :
  trusted_content demo_tree VNone 10 (str "/etc/broker/key.pem") [65; 66; 67]%N.
Proof.
  assert (H : (read_trusted_file (str "/etc/broker/key.pem") "key" 10 VNone VNone None
     {| tree := demo_tree; opened := None |}).1 = Ok [65; 66; 67]%N) by (vm_compute; reflexivity).
  apply trusted_read_exact in H as (p & trusted & stop & _ & _ & _ & _ & Hc); [exact Hc | lia].
Defined.
