(* ===== verification/Receipts.v ===== *)
(** * Signed receipts

    broker/john_lomein_broker_receipts.py: [normalize_receipt_payload] split
    along the sections of a payload, [build_receipt_payload],
    [sign_receipt], [normalize_receipt_envelope], the bindings of a receipt to
    its configuration and submission, [verify_receipt] and
    [is_completion_receipt].  The library [cryptography] is the class
    [Ed25519]; the key files are read through Trust.v.  A normalised payload is
    a record; [payload_value] is the mapping the source returns. *)

From S2P Require Import Prelude Regex Sha256 PyTime PyUrl PyText Json Encoding Effects Protocol Submission Trust.
Local Open Scope Z_scope.

(** ** Constants *)

Definition RECEIPT_PAYLOAD_SCHEMA : string := "john-lomein.protected-broker-receipt.v1".
Definition RECEIPT_ENVELOPE_SCHEMA : string := "john-lomein.protected-broker-signed-receipt.v1".
Definition SIGNATURE_ALGORITHM : string := "Ed25519".
Definition ZERO_HASH : pystr := replicate 64 48%N.
Definition MAX_RECEIPT_BYTES : Z := 512 * 1024.

(** [^jlbr-[0-9a-f]{24}$] *)
Definition RECEIPT_ID_RE : re := RSeq (rlit "jlbr-") (RRep (RCls hexdig) 24 24).
(** [^[a-z][a-z0-9_]{0,127}$] *)
Definition REASON_CODE_RE : re :=
  RSeq (RCls lower) (RRep (RCls (fun c => lower c || digit c || one_of "_" c)) 0 127).

Definition OUTCOMES : list pystr :=
  [str "succeeded"; str "rejected"; str "failed"; str "indeterminate"].
Definition MUTATION_STATUSES : list pystr :=
  [str "not_attempted"; str "already_satisfied"; str "applied"; str "reconciled";
   str "failed"; str "indeterminate"].
Definition READBACK_STATUSES : list pystr :=
  [str "not_attempted"; str "confirmed"; str "not_confirmed"; str "indeterminate"].

(** ** Fields *)

Definition receipt_error {A} (m : string) : res A := Raise (BrokerReceiptError m).

Definition receipt_mapping (v : value) (field : string) : res dict :=
  match v with VDict d => Ok d | _ => receipt_error (field +:+ " must be an object") end.

Definition receipt_strict_keys (d : dict) (field : string) (allowed : list string) : res unit :=
  raise_if negb (forallb (fun k => bool_decide (k ∈ map str allowed)) (keys d))
    with (BrokerReceiptError (field +:+ " contains unknown fields")) ;;
  raise_if negb (forallb (fun k => bool_decide (k ∈ keys d)) (map str allowed))
    with (BrokerReceiptError (field +:+ " is missing required fields")) ;;
  Ok tt.

(** [str(v or "")] that matches, or an error. *)
Definition receipt_text (r : re) (v : value) (message : string) : res pystr :=
  let s := text_or_empty v in
  raise_if negb (fullmatch r s) with (BrokerReceiptError message) ;; Ok s.

(** [str(v or "")] in a set of constants *)
Definition receipt_choice (l : list pystr) (v : value) (message : string) : res pystr :=
  let s := text_or_empty v in
  raise_if negb (bool_decide (s ∈ l)) with (BrokerReceiptError message) ;; Ok s.

Definition receipt_positive_int (v : value) (field : string) (maximum : Z) : res Z :=
  match v with
  | VInt z =>
      raise_if (z <=? 0) || (maximum <? z)
        with (BrokerReceiptError (field +:+ " is outside the allowed range")) ;;
      Ok z
  | _ => receipt_error (field +:+ " must be an integer")
  end.

(** A [datetime] in UTC, in microseconds, or any other value. *)
Inductive moment := At (instant : Z) | Given (v : value).

(** [_timestamp]: the text and its instant in seconds.  The text of a valid
    string is kept as it is. *)
Definition timestamp (m : moment) (field : string) : res (pystr * Z) :=
  let e := BrokerReceiptError (field +:+ " must be a UTC timestamp") in
  match m with
  | At instant =>
      let text := utc_text (instant / 1000000) in
      match strptime text with
      | Some parsed => Ok (text, parsed)
      | None => Raise (ValueError "time data does not match format")
      end
  | Given (VStr s) =>
      match strptime s with
      | Some parsed =>
          raise_if parsed <? 1577836800
            with (BrokerReceiptError (field +:+ " is outside the allowed range")) ;;
          Ok (s, parsed)
      | None => Raise e
      end
  | Given _ => Raise e
  end.

Definition optional_timestamp (v : value) (field : string) : res (option (pystr * Z)) :=
  match v with
  | VNone => Ok None
  | _ => let* p := timestamp (Given v) field in Ok (Some p)
  end.

Definition oid_or_none (v : value) (field : string) : res (option pystr) :=
  let e := BrokerReceiptError (field +:+ " is invalid") in
  match v with
  | VNone => Ok None
  | VStr s =>
      raise_if negb (fullmatch OID_RE (lower_text s)) with e ;; Ok (Some (lower_text s))
  | _ => Raise e
  end.

Definition bool_or_none (v : value) (field : string) : res (option bool) :=
  match v with
  | VNone => Ok None
  | VBool b => Ok (Some b)
  | _ => receipt_error (field +:+ " must be boolean or null")
  end.

Definition thread_ids (v : value) (field : string) : res (list pystr) :=
  match v with
  | VList l =>
      raise_if 1 <? zlen l
        with (BrokerReceiptError (field +:+ " must contain at most one thread ID")) ;;
      let* normalized := res_map (fun item =>
        let e := BrokerReceiptError (field +:+ " contains an invalid ID") in
        match item with
        | VStr s => raise_if negb (fullmatch TOKEN_RE s) with e ;; Ok s
        | _ => Raise e
        end) l in
      raise_if negb (bool_decide (NoDup normalized))
        with (BrokerReceiptError (field +:+ " contains duplicate IDs")) ;;
      Ok normalized
  | _ => receipt_error (field +:+ " must contain at most one thread ID")
  end.

Definition optional_operation_id (v : value) : res pystr :=
  let e := BrokerReceiptError "receipt mutation operation_id is invalid" in
  match v with
  | VStr [] => Ok []
  | VStr s => raise_if negb (fullmatch TOKEN_RE s) with e ;; Ok s
  | _ => Raise e
  end.

Definition reason_has_prefix (value : pystr) (prefix : string) : bool :=
  startswith value (str prefix) && (zlen (str prefix) <? zlen value).

(** ** Payloads *)

Record RequestBinding := {
  rb_instance_slug : pystr; rb_action : pystr; rb_repository_full_name : pystr;
  rb_repository_id : Z; rb_default_branch : pystr; rb_pr_number : Z; rb_head_sha : pystr;
  rb_thread_node_ids : list pystr }.

Record AppBinding := { ab_app_id : Z; ab_app_slug : pystr; ab_installation_id : Z }.

Record Mutation := {
  mu_status : pystr; mu_attempted_at : option pystr; mu_operation_id : pystr }.

Record Readback := {
  rd_status : pystr; rd_observed_at : option pystr; rd_head_sha : option pystr;
  rd_pr_is_draft : option bool; rd_resolved_thread_node_ids : list pystr }.

Record ReceiptPayload := {
  rp_receipt_id : pystr;
  rp_broker_id : pystr; rp_broker_uid : Z; rp_broker_config_sha256 : pystr;
  rp_signing_key_id : pystr;
  rp_packet_id : pystr; rp_request_digest : pystr;
  rp_request : RequestBinding;
  rp_github_app : AppBinding;
  rp_precondition_digest : pystr;
  rp_mutation : Mutation;
  rp_readback : Readback;
  rp_outcome : pystr; rp_reason_code : pystr;
  rp_started_at : pystr; rp_completed_at : pystr;
  rp_previous_receipt_sha256 : pystr }.

Definition PAYLOAD_KEYS : list string :=
  ["schema_version"; "receipt_id"; "broker_id"; "broker_uid"; "broker_config_sha256";
   "signing_key_id"; "packet"; "request"; "github_app"; "precondition_digest"; "mutation";
   "readback"; "outcome"; "reason_code"; "started_at"; "completed_at";
   "previous_receipt_sha256"].

(** The broker and its keys. *)
Definition payload_header (payload : dict) : res (pystr * Z * pystr * pystr) :=
  let* _ := receipt_strict_keys payload "broker receipt payload" PAYLOAD_KEYS in
  raise_if negb (py_eq (get payload "schema_version") (vstr RECEIPT_PAYLOAD_SCHEMA))
    with (BrokerReceiptError "broker receipt schema is unsupported") ;;
  let* broker_id := receipt_text TOKEN_RE (get payload "broker_id")
    "broker receipt broker_id is invalid" in
  let invalid := BrokerReceiptError "broker receipt broker_uid is invalid" in
  let* broker_uid := match get payload "broker_uid" with
    | VInt z => raise_if (z <? 0) || (2 ^ 31 - 1 <? z) with invalid ;; Ok z
    | _ => Raise invalid
    end in
  let* config_sha256 := receipt_text SHA256_RE (get payload "broker_config_sha256")
    "broker receipt config digest is invalid" in
  let* signing_key_id := receipt_text TOKEN_RE (get payload "signing_key_id")
    "broker receipt signing_key_id is invalid" in
  Ok (broker_id, broker_uid, config_sha256, signing_key_id).

Definition payload_packet (v : value) : res (pystr * pystr) :=
  let* packet := receipt_mapping v "broker receipt packet binding" in
  let* _ := receipt_strict_keys packet "broker receipt packet binding"
    ["packet_id"; "request_digest"] in
  let packet_id := text_or_empty (get packet "packet_id") in
  let request_digest := text_or_empty (get packet "request_digest") in
  raise_if negb (fullmatch PACKET_ID_RE packet_id)
    with (BrokerReceiptError "broker receipt packet ID is invalid") ;;
  raise_if negb (fullmatch SHA256_RE request_digest)
    with (BrokerReceiptError "broker receipt request digest is invalid") ;;
  Ok (packet_id, request_digest).

Definition REQUEST_BINDING_KEYS : list string :=
  ["instance_slug"; "action"; "repository_full_name"; "repository_id"; "default_branch";
   "pr_number"; "head_sha"; "thread_node_ids"].

Definition payload_request (v : value) : res RequestBinding :=
  let* request := receipt_mapping v "broker receipt request binding" in
  let* _ := receipt_strict_keys request "broker receipt request binding" REQUEST_BINDING_KEYS in
  let* instance_slug := receipt_text INSTANCE_SLUG_RE (get request "instance_slug")
    "broker receipt instance slug is invalid" in
  let* action := receipt_choice ALLOWED_ACTIONS (get request "action")
    "broker receipt action is unsupported" in
  let* repository_full_name := receipt_text REPO_RE (get request "repository_full_name")
    "broker receipt repository name is invalid" in
  let* repository_id := receipt_positive_int (get request "repository_id")
    "broker receipt repository_id" INT64_MAX in
  let* default_branch := receipt_text BRANCH_RE (get request "default_branch")
    "broker receipt default branch is invalid" in
  let* pr_number := receipt_positive_int (get request "pr_number")
    "broker receipt PR number" (2 ^ 31 - 1) in
  let* head := oid_or_none (get request "head_sha") "broker receipt head SHA" in
  let* head_sha := match head with
    | Some h => Ok h
    | None => receipt_error "broker receipt head SHA is required"
    end in
  let* targets := thread_ids (get request "thread_node_ids")
    "broker receipt target thread IDs" in
  raise_if bool_decide (action = MARK_PR_READY) && any targets
    with (BrokerReceiptError "mark_pr_ready receipt cannot target review threads") ;;
  raise_if bool_decide (action = RESOLVE_REVIEW_THREAD) && negb (zlen targets =? 1)
    with (BrokerReceiptError "review-thread receipt must target exactly one thread") ;;
  Ok {| rb_instance_slug := instance_slug; rb_action := action;
        rb_repository_full_name := repository_full_name; rb_repository_id := repository_id;
        rb_default_branch := default_branch; rb_pr_number := pr_number;
        rb_head_sha := head_sha; rb_thread_node_ids := targets |}.

Definition payload_app (v : value) : res AppBinding :=
  let* github_app := receipt_mapping v "broker receipt GitHub App binding" in
  let* _ := receipt_strict_keys github_app "broker receipt GitHub App binding"
    ["app_id"; "app_slug"; "installation_id"] in
  let* app_id := receipt_positive_int (get github_app "app_id")
    "broker receipt GitHub App ID" INT64_MAX in
  let* app_slug := receipt_text APP_SLUG_RE (get github_app "app_slug")
    "broker receipt GitHub App slug is invalid" in
  let* installation_id := receipt_positive_int (get github_app "installation_id")
    "broker receipt GitHub installation ID" INT64_MAX in
  Ok {| ab_app_id := app_id; ab_app_slug := app_slug; ab_installation_id := installation_id |}.

Definition attempted_by (l : list string) (status : pystr) : bool :=
  bool_decide (status ∈ map str l).

(** A mutation, and the instant of its attempt. *)
Definition payload_mutation (v : value) : res (Mutation * option Z) :=
  let* mutation := receipt_mapping v "broker receipt mutation" in
  let* _ := receipt_strict_keys mutation "broker receipt mutation"
    ["status"; "attempted_at"; "operation_id"] in
  let* status := receipt_choice MUTATION_STATUSES (get mutation "status")
    "broker receipt mutation status is unsupported" in
  let* attempted := optional_timestamp (get mutation "attempted_at")
    "broker receipt mutation attempted_at" in
  let* operation_id := optional_operation_id (get mutation "operation_id") in
  let* _ :=
    if attempted_by ["not_attempted"; "already_satisfied"] status then
      raise_if is_some attempted || any operation_id
        with (BrokerReceiptError "unattempted mutation cannot carry attempt evidence") ;; Ok tt
    else
      raise_if negb (is_some attempted)
        with (BrokerReceiptError "attempted mutation requires an attempt timestamp") ;; Ok tt in
  raise_if attempted_by ["applied"; "reconciled"] status && negb (any operation_id)
    with (BrokerReceiptError "successful mutation requires an operation ID") ;;
  Ok ({| mu_status := status; mu_attempted_at := option_map fst attempted;
         mu_operation_id := operation_id |}, option_map snd attempted).

(** What a confirmed readback has to show. *)
Definition readback_confirms (request : RequestBinding) (head : option pystr)
    (draft : option bool) (resolved : list pystr) : res unit :=
  raise_if negb (bool_decide (head = Some request.(rb_head_sha))) || negb (is_some draft)
    with (BrokerReceiptError
      "confirmed readback must bind the exact head and draft state") ;;
  if bool_decide (request.(rb_action) = MARK_PR_READY) then
    raise_if negb (bool_decide (draft = Some false)) || any resolved
      with (BrokerReceiptError "mark-ready readback does not prove promotion") ;; Ok tt
  else
    raise_if negb (bool_decide (resolved = request.(rb_thread_node_ids)))
      with (BrokerReceiptError "thread readback does not prove exact target resolution") ;;
    Ok tt.

(** A readback, and the instant of its observation. *)
Definition payload_readback (v : value) (request : RequestBinding) :
    res (Readback * option Z) :=
  let* readback := receipt_mapping v "broker receipt readback" in
  let* _ := receipt_strict_keys readback "broker receipt readback"
    ["status"; "observed_at"; "head_sha"; "pr_is_draft"; "resolved_thread_node_ids"] in
  let* status := receipt_choice READBACK_STATUSES (get readback "status")
    "broker receipt readback status is unsupported" in
  let* observed := optional_timestamp (get readback "observed_at")
    "broker receipt readback observed_at" in
  let* head := oid_or_none (get readback "head_sha") "broker receipt readback head SHA" in
  let* draft := bool_or_none (get readback "pr_is_draft") "broker receipt readback pr_is_draft" in
  let* resolved := thread_ids (get readback "resolved_thread_node_ids")
    "broker receipt resolved thread IDs" in
  let* _ :=
    if bool_decide (status = str "not_attempted") then
      raise_if is_some observed || is_some head || is_some draft || any resolved
        with (BrokerReceiptError "not-attempted readback cannot carry observations") ;; Ok tt
    else
      raise_if negb (is_some observed)
        with (BrokerReceiptError "broker receipt readback requires an observation timestamp") ;;
      Ok tt in
  let* _ := if bool_decide (status = str "confirmed")
    then readback_confirms request head draft resolved else Ok tt in
  Ok ({| rd_status := status; rd_observed_at := option_map fst observed; rd_head_sha := head;
         rd_pr_is_draft := draft; rd_resolved_thread_node_ids := resolved |},
      option_map snd observed).

(** [start <= t <= end] when [t] is known *)
Definition within (started completed : Z) (t : option Z) : bool :=
  match t with Some t => (started <=? t) && (t <=? completed) | None => true end.

Definition payload_times (started completed : Z) (attempted observed : option Z) : res unit :=
  raise_if completed <? started
    with (BrokerReceiptError "broker receipt completion precedes its start") ;;
  raise_if negb (within started completed attempted)
    with (BrokerReceiptError "broker receipt mutation time is inconsistent") ;;
  raise_if negb (within started completed observed)
    with (BrokerReceiptError "broker receipt readback time is inconsistent") ;;
  raise_if match attempted, observed with Some a, Some o => o <? a | _, _ => false end
    with (BrokerReceiptError "broker receipt readback precedes mutation") ;;
  Ok tt.

(** The reason a successful receipt gives. *)
Definition expected_reason (mutation_status : pystr) : pystr :=
  if bool_decide (mutation_status = str "applied") then str "readback_verified"
  else if bool_decide (mutation_status = str "reconciled")
  then str "reconciled_readback_verified"
  else str "already_satisfied".

(** The outcome against the statuses and the reason. *)
Definition payload_outcome (outcome reason_code mutation_status readback_status : pystr) :
    res unit :=
  if bool_decide (outcome = str "succeeded") then
    raise_if negb (attempted_by ["applied"; "reconciled"; "already_satisfied"] mutation_status) ||
             negb (bool_decide (readback_status = str "confirmed"))
      with (BrokerReceiptError
        "successful receipt requires a completed effect and confirmed readback") ;;
    raise_if negb (bool_decide (reason_code = expected_reason mutation_status))
      with (BrokerReceiptError "successful receipt reason_code is inconsistent") ;;
    Ok tt
  else if bool_decide (outcome = str "rejected") then
    raise_if negb (bool_decide (mutation_status = str "not_attempted")) ||
             negb (bool_decide (readback_status = str "not_attempted"))
      with (BrokerReceiptError "rejected receipt cannot claim mutation or readback") ;;
    raise_if negb (existsb (reason_has_prefix reason_code)
                     ["precondition_"; "request_"; "policy_"; "budget_"; "circuit_"])
      with (BrokerReceiptError "rejected receipt reason_code is inconsistent") ;;
    Ok tt
  else if bool_decide (outcome = str "failed") then
    raise_if negb (bool_decide (mutation_status = str "failed")) ||
             negb (bool_decide (readback_status = str "not_attempted"))
      with (BrokerReceiptError "failed receipt has inconsistent effect status") ;;
    raise_if negb (reason_has_prefix reason_code "mutation_")
      with (BrokerReceiptError "failed receipt reason_code is inconsistent") ;;
    Ok tt
  else
    raise_if negb (attempted_by ["applied"; "reconciled"; "indeterminate"] mutation_status) ||
             negb (attempted_by ["not_confirmed"; "indeterminate"] readback_status)
      with (BrokerReceiptError "indeterminate receipt has inconsistent effect status") ;;
    raise_if negb (reason_has_prefix reason_code "indeterminate_")
      with (BrokerReceiptError "indeterminate receipt reason_code is inconsistent") ;;
    Ok tt.

(** ** The payload as a mapping *)

Definition request_binding_value (r : RequestBinding) : value :=
  obj [("instance_slug", VStr r.(rb_instance_slug));
       ("action", VStr r.(rb_action));
       ("repository_full_name", VStr r.(rb_repository_full_name));
       ("repository_id", VInt r.(rb_repository_id));
       ("default_branch", VStr r.(rb_default_branch));
       ("pr_number", VInt r.(rb_pr_number));
       ("head_sha", VStr r.(rb_head_sha));
       ("thread_node_ids", vstrs r.(rb_thread_node_ids))].

Definition app_binding_value (a : AppBinding) : value :=
  obj [("app_id", VInt a.(ab_app_id)); ("app_slug", VStr a.(ab_app_slug));
       ("installation_id", VInt a.(ab_installation_id))].

Definition mutation_value (m : Mutation) : value :=
  obj [("status", VStr m.(mu_status)); ("attempted_at", vopt VStr m.(mu_attempted_at));
       ("operation_id", VStr m.(mu_operation_id))].

Definition readback_value (r : Readback) : value :=
  obj [("status", VStr r.(rd_status)); ("observed_at", vopt VStr r.(rd_observed_at));
       ("head_sha", vopt VStr r.(rd_head_sha));
       ("pr_is_draft", vopt VBool r.(rd_pr_is_draft));
       ("resolved_thread_node_ids", vstrs r.(rd_resolved_thread_node_ids))].

(** [_payload_id_material]: every field but the identifier. *)
Definition payload_material (p : ReceiptPayload) : list (string * value) :=
  [("broker_id", VStr p.(rp_broker_id));
   ("broker_uid", VInt p.(rp_broker_uid));
   ("broker_config_sha256", VStr p.(rp_broker_config_sha256));
   ("signing_key_id", VStr p.(rp_signing_key_id));
   ("packet", obj [("packet_id", VStr p.(rp_packet_id));
                   ("request_digest", VStr p.(rp_request_digest))]);
   ("request", request_binding_value p.(rp_request));
   ("github_app", app_binding_value p.(rp_github_app));
   ("precondition_digest", VStr p.(rp_precondition_digest));
   ("mutation", mutation_value p.(rp_mutation));
   ("readback", readback_value p.(rp_readback));
   ("outcome", VStr p.(rp_outcome));
   ("reason_code", VStr p.(rp_reason_code));
   ("started_at", VStr p.(rp_started_at));
   ("completed_at", VStr p.(rp_completed_at));
   ("previous_receipt_sha256", VStr p.(rp_previous_receipt_sha256))].

Definition payload_dict (p : ReceiptPayload) : dict :=
  fields (("schema_version", vstr RECEIPT_PAYLOAD_SCHEMA) ::
          ("receipt_id", VStr p.(rp_receipt_id)) :: payload_material p).

Definition payload_value (p : ReceiptPayload) : value := VDict (payload_dict p).

Definition payload_id_material (payload : dict) : dict :=
  List.filter (fun kv => negb (bool_decide (kv.1 = str "receipt_id"))) payload.

Definition receipt_id_of (payload : dict) : res pystr :=
  let* digest := sha256_json (VDict (payload_id_material payload)) in
  Ok (str "jlbr-" ++ take 24 digest).

Definition normalize_receipt_payload (raw : value) : res ReceiptPayload :=
  let* payload := receipt_mapping raw "broker receipt payload" in
  let* (broker_id, broker_uid, config_sha256, signing_key_id) := payload_header payload in
  let* (packet_id, request_digest) := payload_packet (get payload "packet") in
  let* request := payload_request (get payload "request") in
  let* github_app := payload_app (get payload "github_app") in
  let* precondition_digest := receipt_text SHA256_RE (get payload "precondition_digest")
    "broker receipt precondition digest is invalid" in
  let* (mutation, attempted) := payload_mutation (get payload "mutation") in
  let* (readback, observed) := payload_readback (get payload "readback") request in
  let* outcome := receipt_choice OUTCOMES (get payload "outcome")
    "broker receipt outcome is unsupported" in
  let* reason_code := receipt_text REASON_CODE_RE (get payload "reason_code")
    "broker receipt reason_code is invalid" in
  let* (started_at, started) := timestamp (Given (get payload "started_at"))
    "broker receipt started_at" in
  let* (completed_at, completed) := timestamp (Given (get payload "completed_at"))
    "broker receipt completed_at" in
  let* _ := payload_times started completed attempted observed in
  let* _ := payload_outcome outcome reason_code mutation.(mu_status) readback.(rd_status) in
  let* previous := receipt_text SHA256_RE (get payload "previous_receipt_sha256")
    "broker receipt previous hash is invalid" in
  let normalized := {|
    rp_receipt_id := text_or_empty (get payload "receipt_id");
    rp_broker_id := broker_id; rp_broker_uid := broker_uid;
    rp_broker_config_sha256 := config_sha256; rp_signing_key_id := signing_key_id;
    rp_packet_id := packet_id; rp_request_digest := request_digest;
    rp_request := request; rp_github_app := github_app;
    rp_precondition_digest := precondition_digest;
    rp_mutation := mutation; rp_readback := readback;
    rp_outcome := outcome; rp_reason_code := reason_code;
    rp_started_at := started_at; rp_completed_at := completed_at;
    rp_previous_receipt_sha256 := previous |} in
  let* expected_id := receipt_id_of (payload_dict normalized) in
  raise_if negb (fullmatch RECEIPT_ID_RE normalized.(rp_receipt_id))
    with (BrokerReceiptError "broker receipt ID is invalid") ;;
  raise_if negb (bool_decide (normalized.(rp_receipt_id) = expected_id))
    with (BrokerReceiptError "broker receipt ID does not match") ;;
  Ok normalized.

(** ** Building a payload *)

(** [str(exc)] of a protocol error *)
Definition message_of (e : exn) : string :=
  match e with BrokerProtocolError m | BrokerReceiptError m => m | _ => "" end.

(** [except BrokerProtocolError as exc: raise BrokerReceiptError(str(exc))] *)
Definition as_receipt_error {A} (r : res A) : res A :=
  reraise isa_protocol (fun e => BrokerReceiptError (message_of e)) r.

(** The submission as it was accepted, judged at the packet's creation. *)
Definition historical_submission (submission config : value) : res Packet :=
  let* s := receipt_mapping submission "broker submission" in
  let* packet := receipt_mapping (get s "packet") "protected-action packet" in
  let* (_, created) := timestamp (Given (get packet "created_at"))
    "protected-action packet created_at" in
  as_receipt_error (normalize_submission submission config (Aware (us created)) 0 0).

(** The members a receipt takes from its configuration and its packet. *)
Definition packet_binding_value (p : Packet) : value :=
  obj [("packet_id", VStr p.(packet_id)); ("request_digest", VStr p.(request_digest))].

Definition bound_request_value (c : Config) (r : Request) : value :=
  obj [("instance_slug", VStr r.(instance_slug));
       ("action", VStr r.(action));
       ("repository_full_name", VStr c.(repository).(full_name));
       ("repository_id", VInt c.(repository).(repository_id));
       ("default_branch", VStr c.(repository).(default_branch));
       ("pr_number", VInt r.(pr).(pr_number));
       ("head_sha", VStr r.(pr).(head_sha));
       ("thread_node_ids", vstrs r.(thread_node_ids))].

Definition bound_app_value (c : Config) : value :=
  obj [("app_id", VInt c.(github_app).(app_id)); ("app_slug", VStr c.(github_app).(app_slug));
       ("installation_id", VInt c.(github_app).(installation_id))].

(** What the caller of [build_receipt_payload] reports. *)
Record Report := {
  re_precondition_digest : pystr; re_outcome : pystr; re_reason_code : pystr;
  re_mutation_status : pystr; re_readback_status : pystr;
  re_started_at : moment; re_completed_at : moment;
  re_mutation_attempted_at : option moment; re_operation_id : pystr;
  re_readback_observed_at : option moment; re_readback_head_sha : value;
  re_readback_pr_is_draft : value; re_resolved_thread_node_ids : list value;
  re_previous_receipt_sha256 : pystr }.

(** [_timestamp(m)[0] if m is not None else None] *)
Definition timestamp_text (m : option moment) (field : string) : res value :=
  match m with
  | None => Ok VNone
  | Some m => let* (t, _) := timestamp m field in Ok (VStr t)
  end.

Definition build_receipt_payload (config submission : value) (r : Report) : res ReceiptPayload :=
  let* normalized_config := normalize_config config in
  let* (_, started) := timestamp r.(re_started_at) "broker receipt started_at" in
  let* packet := normalize_submission submission (config_value normalized_config)
    (Aware (us started)) 0 0 in
  let* digest := config_digest (config_value normalized_config) in
  let* attempted_at := timestamp_text r.(re_mutation_attempted_at)
    "broker receipt mutation attempted_at" in
  let* observed_at := timestamp_text r.(re_readback_observed_at)
    "broker receipt readback observed_at" in
  let* (started_at, _) := timestamp r.(re_started_at) "broker receipt started_at" in
  let* (completed_at, _) := timestamp r.(re_completed_at) "broker receipt completed_at" in
  let body receipt_id := fields
    [("schema_version", vstr RECEIPT_PAYLOAD_SCHEMA);
     ("receipt_id", VStr receipt_id);
     ("broker_id", VStr normalized_config.(broker_id));
     ("broker_uid", VInt normalized_config.(broker_uid));
     ("broker_config_sha256", VStr digest);
     ("signing_key_id", VStr normalized_config.(receipt_signing).(key_id));
     ("packet", packet_binding_value packet);
     ("request", bound_request_value normalized_config packet.(request));
     ("github_app", bound_app_value normalized_config);
     ("precondition_digest", VStr r.(re_precondition_digest));
     ("mutation", obj [("status", VStr r.(re_mutation_status));
                       ("attempted_at", attempted_at);
                       ("operation_id", VStr r.(re_operation_id))]);
     ("readback", obj [("status", VStr r.(re_readback_status));
                       ("observed_at", observed_at);
                       ("head_sha", r.(re_readback_head_sha));
                       ("pr_is_draft", r.(re_readback_pr_is_draft));
                       ("resolved_thread_node_ids", VList r.(re_resolved_thread_node_ids))]);
     ("outcome", VStr r.(re_outcome));
     ("reason_code", VStr r.(re_reason_code));
     ("started_at", VStr started_at);
     ("completed_at", VStr completed_at);
     ("previous_receipt_sha256", VStr r.(re_previous_receipt_sha256))] in
  let* receipt_id := receipt_id_of (body []) in
  normalize_receipt_payload (VDict (body receipt_id)).

(** ** Bindings *)

Definition assert_config_binding (p : ReceiptPayload) (c : Config) : res unit :=
  let* digest := config_digest (config_value c) in
  let r := p.(rp_request) in
  let mismatch field := BrokerReceiptError ("broker receipt " +:+ field +:+ " binding does not match") in
  raise_if negb (bool_decide (p.(rp_broker_id) = c.(broker_id))) with (mismatch "broker_id") ;;
  raise_if negb (p.(rp_broker_uid) =? c.(broker_uid)) with (mismatch "broker_uid") ;;
  raise_if negb (bool_decide (p.(rp_broker_config_sha256) = digest))
    with (mismatch "broker_config_sha256") ;;
  raise_if negb (bool_decide (p.(rp_signing_key_id) = c.(receipt_signing).(key_id)))
    with (mismatch "signing_key_id") ;;
  raise_if negb (bool_decide (r.(rb_instance_slug) = c.(slug))) with (mismatch "instance_slug") ;;
  raise_if negb (bool_decide (r.(rb_repository_full_name) = c.(repository).(full_name)))
    with (mismatch "repository_full_name") ;;
  raise_if negb (r.(rb_repository_id) =? c.(repository).(repository_id))
    with (mismatch "repository_id") ;;
  raise_if negb (bool_decide (r.(rb_default_branch) = c.(repository).(default_branch)))
    with (mismatch "default_branch") ;;
  raise_if negb (py_eq (app_binding_value p.(rp_github_app)) (bound_app_value c))
    with (mismatch "github_app") ;;
  Ok tt.

(** The instant of the start against the packet's window. *)
Definition authority_window (started_at : pystr) (packet : Packet) (skew : Z) : res unit :=
  let e := BrokerReceiptError "broker receipt started outside the packet authority window" in
  let* (_, started) := timestamp (Given (VStr started_at)) "broker receipt started_at" in
  let* (_, created) := timestamp (Given (VStr packet.(created_at)))
    "protected-action packet created_at" in
  let* (_, expires) := timestamp (Given (VStr packet.(expires_at)))
    "protected-action packet expires_at" in
  let* earliest := add_seconds (us created) (- skew) in
  raise_if us started <? earliest with e ;;
  raise_if expires <=? started with e ;;
  Ok tt.

Definition assert_context_binding (p : ReceiptPayload) (config submission : option value) :
    res unit :=
  match config, submission with
  | None, None => Ok tt
  | Some config, Some submission =>
      let* c := normalize_config config in
      let* _ := assert_config_binding p c in
      let* packet := historical_submission submission (config_value c) in
      raise_if negb (py_eq
          (obj [("packet_id", VStr p.(rp_packet_id)); ("request_digest", VStr p.(rp_request_digest))])
          (packet_binding_value packet))
        with (BrokerReceiptError "broker receipt packet binding does not match") ;;
      raise_if negb (py_eq (request_binding_value p.(rp_request))
                           (bound_request_value c packet.(request)))
        with (BrokerReceiptError "broker receipt request binding does not match") ;;
      authority_window p.(rp_started_at) packet c.(policy).(maximum_clock_skew)
  | _, _ => receipt_error "receipt context requires both config and submission"
  end.

(** ** Envelopes *)

Record Envelope := {
  en_key_id : pystr; en_public_key_sha256 : pystr; en_payload_sha256 : pystr;
  en_payload : ReceiptPayload; en_signature : pystr }.

Definition envelope_value (e : Envelope) : value :=
  obj [("schema_version", vstr RECEIPT_ENVELOPE_SCHEMA);
       ("algorithm", vstr SIGNATURE_ALGORITHM);
       ("key_id", VStr e.(en_key_id));
       ("public_key_sha256", VStr e.(en_public_key_sha256));
       ("payload_sha256", VStr e.(en_payload_sha256));
       ("payload", payload_value e.(en_payload));
       ("signature", VStr e.(en_signature))].

Definition ENVELOPE_KEYS : list string :=
  ["schema_version"; "algorithm"; "key_id"; "public_key_sha256"; "payload_sha256"; "payload";
   "signature"].

(** The signature: 64 bytes in canonical base64. *)
Definition envelope_signature (v : value) : res pystr :=
  match v with
  | VStr text =>
      let* signature := reraise isa_value
        (fun _ => BrokerReceiptError "signed broker receipt signature is invalid base64")
        (b64decode text) in
      raise_if negb (zlen signature =? 64)
        with (BrokerReceiptError "signed broker receipt Ed25519 signature size is invalid") ;;
      raise_if negb (bool_decide (text = b64encode signature))
        with (BrokerReceiptError "signed broker receipt signature is not canonical base64") ;;
      Ok (b64encode signature)
  | _ => receipt_error "signed broker receipt signature is invalid"
  end.

Definition normalize_receipt_envelope (raw : value) : res Envelope :=
  let* envelope := receipt_mapping raw "signed broker receipt" in
  let* _ := receipt_strict_keys envelope "signed broker receipt" ENVELOPE_KEYS in
  raise_if negb (py_eq (get envelope "schema_version") (vstr RECEIPT_ENVELOPE_SCHEMA))
    with (BrokerReceiptError "signed broker receipt schema is unsupported") ;;
  raise_if negb (py_eq (get envelope "algorithm") (vstr SIGNATURE_ALGORITHM))
    with (BrokerReceiptError "signed broker receipt algorithm is unsupported") ;;
  let* key_id := receipt_text TOKEN_RE (get envelope "key_id")
    "signed broker receipt key_id is invalid" in
  let* public_key_sha256 := receipt_text SHA256_RE (get envelope "public_key_sha256")
    "signed broker receipt key fingerprint is invalid" in
  let* payload_sha256 := receipt_text SHA256_RE (get envelope "payload_sha256")
    "signed broker receipt payload digest is invalid" in
  let* payload := normalize_receipt_payload (get envelope "payload") in
  raise_if negb (bool_decide (payload.(rp_signing_key_id) = key_id))
    with (BrokerReceiptError "signed broker receipt key ID does not match its payload") ;;
  let* actual := sha256_json (payload_value payload) in
  raise_if negb (bool_decide (payload_sha256 = actual))
    with (BrokerReceiptError "signed broker receipt payload digest does not match") ;;
  let* signature := envelope_signature (get envelope "signature") in
  Ok {| en_key_id := key_id; en_public_key_sha256 := public_key_sha256;
        en_payload_sha256 := actual; en_payload := payload; en_signature := signature |}.

(** ** Signatures *)

(** The outcome of loading a PEM key: not loadable, of another kind, or
    Ed25519. *)
Inductive pem (K : Type) := BadPem | OtherKey | Ed25519Key (k : K).
Arguments BadPem {K}.
Arguments OtherKey {K}.
Arguments Ed25519Key {K} k.

(** [cryptography]'s Ed25519 keys; a public key is its raw bytes.  [None]: the
    signature raised. *)
Class Ed25519 := {
  private_key : Type;
  load_pem_private_key : bytes -> pem private_key;
  load_pem_public_key : bytes -> pem bytes;
  public_bytes : private_key -> bytes;
  key_sign : private_key -> bytes -> option bytes;
  key_verify : bytes -> bytes -> bytes -> bool }.

Section Signatures.
Context `{!Ed25519}.

(** [_verify_signature_bytes] *)
Definition verify_signature_bytes (public_key payload signature : bytes) : res unit :=
  raise_if negb (zlen signature =? 64)
    with (BrokerReceiptError "broker receipt Ed25519 signature size is invalid") ;;
  match load_pem_public_key public_key with
  | BadPem => receipt_error "broker receipt verification key is invalid"
  | OtherKey => receipt_error "broker receipt verification key is not Ed25519"
  | Ed25519Key key =>
      raise_if negb (key_verify key signature payload)
        with (BrokerReceiptError "broker receipt signature verification failed") ;;
      Ok tt
  end.

(** The keys of a signature, and the signature itself. *)
Definition signature_of (private_pem public_pem payload : bytes) : res bytes :=
  let invalid := BrokerReceiptError "broker receipt key is invalid" in
  match load_pem_private_key private_pem with
  | BadPem => Raise invalid
  | private =>
      match load_pem_public_key public_pem with
      | BadPem => Raise invalid
      | public =>
          match private with
          | Ed25519Key k =>
              match public with
              | Ed25519Key configured =>
                  raise_if negb (bool_decide (public_bytes k = configured))
                    with (BrokerReceiptError
                      "broker receipt private and public keys do not match") ;;
                  match key_sign k payload with
                  | Some signature => Ok signature
                  | None => receipt_error "broker receipt signing failed"
                  end
              | _ => receipt_error "broker receipt verification key is not Ed25519"
              end
          | _ => receipt_error "broker receipt signing key is not Ed25519"
          end
      end
  end.

(** [canonical_json(payload)] as bytes *)
Definition payload_bytes (p : ReceiptPayload) : res bytes :=
  let* text := canonical_json (payload_value p) in Ok (utf8 text).

Context {S : Type} `{!Files S}.

(** A key file of the broker, its errors as receipt errors. *)
Definition read_receipt_key (path : pystr) (field : string) (key_owners parent_owners : value)
    (root : option pystr) : M S bytes := fun s =>
  let '(r, s') := read_trusted_file path field MAX_KEY_BYTES key_owners parent_owners root s in
  (as_receipt_error r, s').

(** [owners if owners is not None else (0, broker_uid)] *)
Definition owners_or_default (owners : value) (c : Config) : value :=
  match owners with VNone => VList [VInt 0; VInt c.(broker_uid)] | _ => owners end.

Definition sign_receipt (payload config submission : value)
    (key_owner_uids parent_owner_uids : value) (trusted_path_root : option pystr) :
    M S Envelope :=
  let! c := lift (normalize_config config) in
  let! p := lift (normalize_receipt_payload payload) in
  let! _ := lift (assert_context_binding p (Some (config_value c)) (Some submission)) in
  let signing := c.(receipt_signing) in
  let key_owners := owners_or_default key_owner_uids c in
  let parent_owners := owners_or_default parent_owner_uids c in
  let! private_pem := read_receipt_key signing.(receipt_private_key_path)
    "broker receipt private key" key_owners parent_owners trusted_path_root in
  let! public_pem := read_receipt_key signing.(receipt_public_key_path)
    "broker receipt public key" key_owners parent_owners trusted_path_root in
  if negb (bool_decide (sha256_hex public_pem = signing.(public_key_sha256))) then
    throw (BrokerReceiptError "broker receipt public-key fingerprint does not match")
  else if negb (contains private_pem (str "PRIVATE KEY")) ||
          negb (contains public_pem (str "PUBLIC KEY")) then
    throw (BrokerReceiptError "broker receipt key type is invalid")
  else
    let! text := lift (payload_bytes p) in
    let! signature := lift (signature_of private_pem public_pem text) in
    let! _ := lift (verify_signature_bytes public_pem text signature) in
    ret {| en_key_id := signing.(key_id); en_public_key_sha256 := signing.(public_key_sha256);
           en_payload_sha256 := sha256_hex text; en_payload := p;
           en_signature := b64encode signature |}.

(** ** Verification *)

Definition load_receipt (src : source) : M S Envelope :=
  let! raw := match src with
    | SourceBytes raw => ret raw
    | SourcePath path => read_stable_file path "signed broker receipt" MAX_RECEIPT_BYTES VNone false
    | SourceOther =>
        throw (BrokerReceiptError "signed broker receipt source must be bytes or a path")
    end in
  lift
    (let* v := as_receipt_error
       (parse_json_bytes raw "signed broker receipt" MAX_RECEIPT_BYTES) in
     normalize_receipt_envelope v).

(** A mapping, bytes, a path, or anything else. *)
Inductive receipt_source := FromValue (v : value) | FromSource (src : source).

Definition coerce_envelope (src : receipt_source) : M S Envelope :=
  match src with
  | FromValue ((VDict _) as v) => lift (normalize_receipt_envelope v)
  | FromSource ((SourceBytes _ | SourcePath _) as src) => load_receipt src
  | _ => throw (BrokerReceiptError "signed broker receipt source is invalid")
  end.

(** The pinned key identifier, when one is given. *)
Definition check_pinned_id (envelope : Envelope) (expected : option pystr) : res unit :=
  match expected with
  | None => Ok tt
  | Some id =>
      raise_if negb (fullmatch TOKEN_RE id) || negb (bool_decide (envelope.(en_key_id) = id))
        with (BrokerReceiptError "signed broker receipt key ID is not pinned") ;;
      Ok tt
  end.

Definition check_config_key (envelope : Envelope) (fingerprint : pystr) (config : option value) :
    res unit :=
  match config with
  | None => Ok tt
  | Some config =>
      let* c := normalize_config config in
      raise_if negb (bool_decide (c.(receipt_signing).(public_key_sha256) = fingerprint))
        with (BrokerReceiptError "pinned broker public key does not match config") ;;
      raise_if negb (bool_decide (envelope.(en_key_id) = c.(receipt_signing).(key_id)))
        with (BrokerReceiptError "signed broker receipt key ID does not match config") ;;
      Ok tt
  end.

Definition check_completion_time (p : ReceiptPayload) (now : clock) : res unit :=
  match now with
  | Unset => Ok tt
  | _ =>
      let* (_, completed) := timestamp (Given (VStr p.(rp_completed_at)))
        "broker receipt completed_at" in
      match now with
      | Aware current =>
          let* horizon := add_seconds current MAX_CLOCK_SKEW_SECONDS in
          raise_if horizon <? us completed
            with (BrokerReceiptError "broker receipt completion time is in the future") ;;
          Ok tt
      | _ => receipt_error "receipt verification clock must be timezone-aware"
      end
  end.

Definition verify_receipt (src : receipt_source) (public_key_path : pystr)
    (expected_public_key_sha256 : pystr) (expected_key_id : option pystr)
    (public_key_owner_uids parent_owner_uids : value) (trusted_path_root : option pystr)
    (config submission : option value) (now : clock) : M S Envelope :=
  if negb (fullmatch SHA256_RE expected_public_key_sha256) then
    throw (BrokerReceiptError "pinned broker public-key fingerprint is invalid")
  else
    let! envelope := coerce_envelope src in
    let! _ := lift (check_pinned_id envelope expected_key_id) in
    if negb (bool_decide (envelope.(en_public_key_sha256) = expected_public_key_sha256)) then
      throw (BrokerReceiptError "signed broker receipt key fingerprint is not pinned")
    else
      let! _ := lift (check_config_key envelope expected_public_key_sha256 config) in
      let! key := read_receipt_key public_key_path "broker receipt verification public key"
        public_key_owner_uids parent_owner_uids trusted_path_root in
      if negb (contains key (str "PUBLIC KEY")) then
        throw (BrokerReceiptError "broker receipt verification key is not a public key")
      else if negb (bool_decide (sha256_hex key = expected_public_key_sha256)) then
        throw (BrokerReceiptError "broker receipt verification key fingerprint does not match")
      else
        let! signature := lift (reraise isa_value
          (fun _ => BrokerReceiptError "signed broker receipt signature is invalid")
          (b64decode envelope.(en_signature))) in
        let! text := lift (payload_bytes envelope.(en_payload)) in
        let! _ := lift (verify_signature_bytes key text signature) in
        let! _ := lift (assert_context_binding envelope.(en_payload) config submission) in
        let! _ := lift (check_completion_time envelope.(en_payload) now) in
        ret envelope.

(** [_verified_receipt_is_completion]: a protocol error means [False], any other
    exception passes. *)
Definition verified_receipt_is_completion (verified : value) : res bool :=
  match normalize_receipt_envelope verified with
  | Ok e =>
      let p := e.(en_payload) in
      Ok (bool_decide (p.(rp_outcome) = str "succeeded") &&
          attempted_by ["applied"; "reconciled"; "already_satisfied"] p.(rp_mutation).(mu_status) &&
          bool_decide (p.(rp_readback).(rd_status) = str "confirmed"))
  | Raise e => if isa_protocol e then Ok false else Raise e
  end.

Definition is_completion_receipt (src : receipt_source) (public_key_path : pystr)
    (expected_public_key_sha256 : pystr) (expected_key_id : option pystr)
    (config submission : value) (public_key_owner_uids parent_owner_uids : value)
    (trusted_path_root : option pystr) (now : clock) : M S bool :=
  try! verified := verify_receipt src public_key_path expected_public_key_sha256 expected_key_id
      public_key_owner_uids parent_owner_uids trusted_path_root (Some config) (Some submission) now
    except (fun e => if isa_protocol e then Some (ret false) else None) in
  lift (verified_receipt_is_completion (envelope_value verified)).

Definition receipt_digest (src : receipt_source) : M S pystr :=
  let! e := coerce_envelope src in
  lift (sha256_json (envelope_value e)).
End Signatures.
