(* ===== verification/ReceiptFacts.v ===== *)
(** * What a normalised receipt satisfies

    The validity of a payload section by section, [..._sound] and
    [..._complete] as in ConfigFacts.v; [payload_normal_form] puts them
    together.  [receipt_effect] is the table of the outcomes a receipt can
    report. *)

From S2P Require Import Prelude Regex Sha256 PyTime PyUrl PyText Json JsonFacts Encoding Effects Protocol ConfigFacts Submission SubmissionFacts Trust Receipts.
Local Open Scope Z_scope.

(** ** Fields *)

Lemma receipt_keys_obj (l : list (string * value)) field allowed :
  map fst l = allowed -> receipt_strict_keys (fields l) field allowed = Ok tt.
Proof. intros <-. unfold receipt_strict_keys. rewrite keys_obj, !forallb_self. done. Qed.

Lemma receipt_text_inv r v m s : receipt_text r v m = Ok s -> fullmatch r s = true.
Proof. unfold receipt_text. intros H. inv_ok H. done. Qed.

Lemma receipt_text_ok r m s : fullmatch r s = true -> receipt_text r (VStr s) m = Ok s.
Proof. unfold receipt_text. rewrite text_or_empty_str. by intros ->. Qed.

Lemma receipt_choice_inv l v m s : receipt_choice l v m = Ok s -> s ∈ l.
Proof. unfold receipt_choice. by case_bool_decide; intros [= <-]. Qed.

Lemma receipt_choice_ok l m s : s ∈ l -> receipt_choice l (VStr s) m = Ok s.
Proof. unfold receipt_choice. rewrite text_or_empty_str. intros. by rewrite bool_decide_true. Qed.

Lemma receipt_positive_inv v f m z : receipt_positive_int v f m = Ok z -> v = VInt z /\ 1 <= z <= m.
Proof. destruct v; simpl; intros H; inv_ok H. split; [done | lia]. Qed.

Lemma receipt_positive_ok f m z : 1 <= z <= m -> receipt_positive_int (VInt z) f m = Ok z.
Proof.
  intros H. simpl. rewrite (proj2 (Z.leb_gt z 0)), (proj2 (Z.ltb_ge m z)) by lia. done.
Qed.

(** 2020-01-01 *)
Definition EARLIEST : Z := 1577836800.

(** A text that is read as an instant. *)
Definition stamp (t : pystr) (e : Z) : Prop := strptime t = Some e /\ EARLIEST <= e.

Lemma timestamp_inv v f t e : timestamp (Given v) f = Ok (t, e) -> v = VStr t /\ stamp t e.
Proof.
  unfold stamp, EARLIEST. destruct v as [| | | |s| |]; simpl; try done.
  destruct (strptime s) as [p|] eqn:E; [|done]. destruct (p <? 1577836800) eqn:El; [done |].
  intros [= <- <-]. split; [done |]. split; [done | lia].
Qed.

Lemma timestamp_ok t e f : stamp t e -> timestamp (Given (VStr t)) f = Ok (t, e).
Proof.
  intros [H1 H2]. unfold EARLIEST in H2. simpl. rewrite H1.
  by rewrite (proj2 (Z.ltb_ge e 1577836800)) by lia.
Qed.

(** An optional stamp and its instant. *)
Definition stamp_opt (t : option pystr) (e : option Z) : Prop :=
  match t, e with
  | None, None => True
  | Some t, Some e => stamp t e
  | _, _ => False
  end.

Lemma optional_timestamp_inv v f p :
  optional_timestamp v f = Ok p -> stamp_opt (option_map fst p) (option_map snd p).
Proof.
  unfold optional_timestamp. destruct v; try (by intros [= <-]);
    (destruct (timestamp _ f) as [[t e]|] eqn:E; [|done]; intros [= <-];
     by apply timestamp_inv in E as [_ ?]).
Qed.

Lemma optional_timestamp_ok t e f :
  stamp_opt t e ->
  exists p, optional_timestamp (vopt VStr t) f = Ok p /\ option_map fst p = t /\ option_map snd p = e.
Proof.
  destruct t as [t|], e as [e|]; try done; intros H.
  - exists (Some (t, e)). cbn [vopt optional_timestamp]. by rewrite (timestamp_ok _ _ _ H).
  - by exists None.
Qed.

Lemma oid_or_none_inv v f o :
  oid_or_none v f = Ok o -> forall h, o = Some h -> fullmatch OID_RE h = true.
Proof.
  destruct v; simpl; try done; [by intros [= <-] |].
  destruct (fullmatch _ _) eqn:E; [|done]. by intros [= <-] h [= <-].
Qed.

Lemma oid_or_none_ok o f :
  (forall h, o = Some h -> fullmatch OID_RE h = true) -> oid_or_none (vopt VStr o) f = Ok o.
Proof.
  destruct o as [h|]; [|done]. intros H. specialize (H h eq_refl). simpl.
  by rewrite lower_oid, H by done.
Qed.

Lemma oid_some_ok h f : fullmatch OID_RE h = true -> oid_or_none (VStr h) f = Ok (Some h).
Proof. intros H. apply (oid_or_none_ok (Some h)). by intros ? [= <-]. Qed.

(** At most one thread. *)
Definition threads_ok (l : list pystr) : Prop :=
  zlen l <= 1 /\ Forall (fun s => fullmatch TOKEN_RE s = true) l.

Lemma short_nodup (l : list pystr) : zlen l <= 1 -> NoDup l.
Proof.
  destruct l as [|a [|b l]]; unfold zlen; cbn [length]; [constructor | | lia].
  intros _. apply NoDup_singleton.
Qed.

Lemma thread_ids_inv v f l : thread_ids v f = Ok l -> threads_ok l.
Proof.
  destruct v as [| | | | |vs|]; simpl; try done. destruct (1 <? zlen vs) eqn:El; [done |].
  destruct (res_map _ vs) as [n|] eqn:E; [|done]. case_bool_decide; [|done]. intros [= <-].
  apply res_map_inv in E. split.
  - apply Forall2_length in E. unfold zlen in *. lia.
  - clear -E. induction E as [|v s vs l Hv _ IH]; constructor; [|done].
    destruct v as [| | | |t| |]; try done.
    destruct (fullmatch TOKEN_RE t) eqn:Em; [|done]. by injection Hv as <-.
Qed.

Lemma thread_ids_ok l f : threads_ok l -> thread_ids (vstrs l) f = Ok l.
Proof.
  intros [Hl Hm]. simpl. unfold zlen in *. rewrite length_map.
  rewrite (proj2 (Z.ltb_ge 1 _)) by done. rewrite (res_map_ok _ _ l).
  - by rewrite bool_decide_true by by apply short_nodup.
  - clear Hl. induction Hm as [|s l Hs _ IH]; constructor; [by rewrite Hs | done].
Qed.

Definition operation_ok (s : pystr) : Prop := s = [] \/ fullmatch TOKEN_RE s = true.

Lemma operation_inv v s : optional_operation_id v = Ok s -> v = VStr s /\ operation_ok s.
Proof.
  destruct v as [| | | |[|c t]| |]; simpl; try done; [intros [= <-]; split; [done | by left] |].
  destruct (fullmatch _ _) eqn:E; [|done]. intros [= <-]. split; [done | by right].
Qed.

Lemma operation_complete s : operation_ok s -> optional_operation_id (VStr s) = Ok s.
Proof.
  intros [-> | H]; [done |]. destruct s as [|c s]; [done |]. cbn [optional_operation_id].
  by rewrite H.
Qed.

Lemma mapping_of v f d : receipt_mapping v f = Ok d -> v = VDict d.
Proof. by destruct v; intros [=->]. Qed.

(** Inverts the checks of a section of a receipt. *)
Ltac receipt_facts :=
  repeat match goal with
  | H : receipt_mapping _ _ = Ok _ |- _ => apply mapping_of in H
  | H : receipt_text _ _ _ = Ok _ |- _ => apply receipt_text_inv in H
  | H : receipt_choice _ _ _ = Ok _ |- _ => apply receipt_choice_inv in H
  | H : receipt_positive_int _ _ _ = Ok _ |- _ => apply receipt_positive_inv in H as [? ?]
  | H : timestamp (Given _) _ = Ok _ |- _ => apply timestamp_inv in H as [? ?]
  | H : optional_timestamp _ _ = Ok _ |- _ => apply optional_timestamp_inv in H
  | H : thread_ids _ _ = Ok _ |- _ => apply thread_ids_inv in H
  | H : optional_operation_id _ = Ok _ |- _ => apply operation_inv in H as [? ?]
  end.

(** Reads every field of a display and discharges its check. *)
Ltac receipt_accept :=
  repeat (read_fields;
    first
      [ rewrite receipt_keys_obj by reflexivity
      | rewrite receipt_text_ok by eauto
      | rewrite receipt_choice_ok by eauto
      | rewrite receipt_positive_ok by lia
      | rewrite thread_ids_ok by done
      | rewrite oid_some_ok by done
      | rewrite oid_or_none_ok by done
      | rewrite operation_complete by done
      | erewrite timestamp_ok by eauto ]).

(** ** Sections *)

Record request_binding_ok (r : RequestBinding) : Prop := {
  bo_slug : fullmatch INSTANCE_SLUG_RE r.(rb_instance_slug) = true;
  bo_action : r.(rb_action) ∈ ALLOWED_ACTIONS;
  bo_repo : fullmatch REPO_RE r.(rb_repository_full_name) = true;
  bo_repo_id : 1 <= r.(rb_repository_id) <= INT64_MAX;
  bo_branch : fullmatch BRANCH_RE r.(rb_default_branch) = true;
  bo_number : 1 <= r.(rb_pr_number) <= 2 ^ 31 - 1;
  bo_head : fullmatch OID_RE r.(rb_head_sha) = true;
  bo_targets : Forall (fun s => fullmatch TOKEN_RE s = true) r.(rb_thread_node_ids);
  bo_count : zlen r.(rb_thread_node_ids) = if decide (r.(rb_action) = MARK_PR_READY) then 0 else 1 }.

Lemma any_zlen {A} (l : list A) : any l = false <-> zlen l = 0.
Proof. destruct l; [done |]. unfold zlen. cbn. split; [done | lia]. Qed.

Lemma request_binding_sound v r : payload_request v = Ok r -> request_binding_ok r.
Proof.
  unfold payload_request. intros H. inv_ok H. inv_oks. receipt_facts.
  match goal with H : oid_or_none _ _ = Ok _ |- _ => pose proof (oid_or_none_inv _ _ _ H _ eq_refl) end.
  match goal with H : threads_ok _ |- _ => destruct H as [Hlen Hm] end.
  constructor; cbn; try done.
  match goal with H : _ ∈ ALLOWED_ACTIONS |- _ => apply action_cases in H as [-> | ->] end;
    [rewrite decide_True by done | rewrite decide_False by (intros Ea; by apply actions_differ)].
  - by apply any_zlen.
  - match goal with H : bool_decide (RESOLVE_REVIEW_THREAD = _) && _ = false |- _ =>
      rewrite bool_decide_true in H by done; cbn in H end. split_bools. lia.
Qed.

Lemma request_binding_complete r :
  request_binding_ok r -> payload_request (request_binding_value r) = Ok r.
Proof.
  intros [H1 H2 H3 H4 H5 H6 H7 H8 H9].
  assert (threads_ok r.(rb_thread_node_ids)) by (split; [by case_decide; lia | done]).
  unfold payload_request, request_binding_value, obj. cbn [receipt_mapping].
  receipt_accept.
  rewrite (proj2 (andb_false_iff _ _)); [rewrite (proj2 (andb_false_iff _ _)); [by destruct r |] |].
  all: apply action_cases in H2 as [E | E]; rewrite E in *.
  all: rewrite ?decide_True, ?decide_False in H9 by (done || intros Ea; by apply actions_differ).
  - left. apply bool_decide_eq_false. apply actions_differ.
  - right. by rewrite H9.
  - right. by apply any_zlen.
  - left. apply bool_decide_eq_false. intros Ea. by apply actions_differ.
Qed.

Record app_binding_ok (a : AppBinding) : Prop := {
  ao_id : 1 <= a.(ab_app_id) <= INT64_MAX;
  ao_slug : fullmatch APP_SLUG_RE a.(ab_app_slug) = true;
  ao_installation : 1 <= a.(ab_installation_id) <= INT64_MAX }.

Lemma app_binding_sound v a : payload_app v = Ok a -> app_binding_ok a.
Proof. unfold payload_app. intros H. inv_ok H. receipt_facts. by constructor. Qed.

Lemma app_binding_complete a : app_binding_ok a -> payload_app (app_binding_value a) = Ok a.
Proof.
  intros [H1 H2 H3]. unfold payload_app, app_binding_value, obj. cbn [receipt_mapping].
  receipt_accept. by destruct a.
Qed.

(** A mutation attempted at [e]. *)
Record mutation_ok (m : Mutation) (e : option Z) : Prop := {
  mo_status : m.(mu_status) ∈ MUTATION_STATUSES;
  mo_stamp : stamp_opt m.(mu_attempted_at) e;
  mo_operation : operation_ok m.(mu_operation_id);
  mo_attempted : is_some e =
    negb (attempted_by ["not_attempted"; "already_satisfied"] m.(mu_status));
  mo_unattempted : is_some e = false -> m.(mu_operation_id) = [];
  mo_applied : attempted_by ["applied"; "reconciled"] m.(mu_status) = true ->
    m.(mu_operation_id) <> [] }.

Lemma is_some_map {A B} (f : A -> B) o : is_some (option_map f o) = is_some o.
Proof. by destruct o. Qed.

Lemma mutation_sound v m e : payload_mutation v = Ok (m, e) -> mutation_ok m e.
Proof.
  unfold payload_mutation. intros H. inv_ok H. inv_oks. all: receipt_facts.
  all: repeat match goal with H : _ && _ = false |- _ => apply andb_false_iff in H as [? | ?] end.
  all: split_bools; constructor; cbn [mu_status mu_attempted_at mu_operation_id];
    rewrite ?is_some_map; try done; try congruence; auto using any_false, any_true.
  all: match goal with
  | H : attempted_by ?l ?s = _ |- _ = negb (attempted_by ?l ?s) => rewrite H; by subst
  | _ => intros; first [by apply any_false | by apply any_true | congruence]
  end.
Qed.

Lemma mutation_complete m e :
  mutation_ok m e -> payload_mutation (mutation_value m) = Ok (m, e).
Proof.
  intros [H1 H2 H3 H4 H5 H6]. unfold payload_mutation, mutation_value, obj.
  cbn [receipt_mapping]. receipt_accept.
  destruct (optional_timestamp_ok _ _ "broker receipt mutation attempted_at" H2) as (p & -> & Ht & He).
  receipt_accept. rewrite <- He, is_some_map in H4, H5.
  destruct (attempted_by ["not_attempted"; "already_satisfied"] (mu_status m)) eqn:Ea; cbn in H4.
  - rewrite H4, (H5 H4). cbn [any orb andb negb]. rewrite (H5 H4) in H6.
    destruct (attempted_by ["applied"; "reconciled"] _); [by destruct H6 |].
    rewrite He. rewrite <- (H5 H4), Ht. by destruct m.
  - rewrite H4. cbn [negb].
    destruct (attempted_by ["applied"; "reconciled"] _); cbn [andb].
    + specialize (H6 eq_refl). destruct (mu_operation_id m) eqn:Eo; [done |].
      cbn [any negb]. rewrite He, Ht, <- Eo. by destruct m.
    + rewrite He, Ht. by destruct m.
Qed.

(** What a confirmed readback shows: the head of the request, and that the pull
    request is ready or exactly the target is resolved. *)
Definition confirms (q : RequestBinding) (r : Readback) : Prop :=
  r.(rd_head_sha) = Some q.(rb_head_sha) /\
  if decide (q.(rb_action) = MARK_PR_READY)
  then r.(rd_pr_is_draft) = Some false /\ r.(rd_resolved_thread_node_ids) = []
  else is_some r.(rd_pr_is_draft) = true /\
       r.(rd_resolved_thread_node_ids) = q.(rb_thread_node_ids).

(** A readback observed at [e]. *)
Record readback_ok (q : RequestBinding) (r : Readback) (e : option Z) : Prop := {
  ro_status : r.(rd_status) ∈ READBACK_STATUSES;
  ro_stamp : stamp_opt r.(rd_observed_at) e;
  ro_head : forall h, r.(rd_head_sha) = Some h -> fullmatch OID_RE h = true;
  ro_resolved : threads_ok r.(rd_resolved_thread_node_ids);
  ro_observed : is_some e = negb (bool_decide (r.(rd_status) = str "not_attempted"));
  ro_none : r.(rd_status) = str "not_attempted" ->
    r.(rd_head_sha) = None /\ r.(rd_pr_is_draft) = None /\ r.(rd_resolved_thread_node_ids) = [];
  ro_confirms : r.(rd_status) = str "confirmed" -> confirms q r }.

Lemma confirms_iff q st ob h d l u :
  readback_confirms q h d l = Ok u <->
  confirms q {| rd_status := st; rd_observed_at := ob; rd_head_sha := h; rd_pr_is_draft := d;
                rd_resolved_thread_node_ids := l |}.
Proof.
  unfold readback_confirms, confirms. cbn. destruct u.
  case_bool_decide; cbn [negb orb]; [|naive_solver].
  destruct d as [d|]; cbn [is_some negb].
  2: { split; [done |]. intros [_ Hd]. by case_decide; destruct Hd. }
  case_bool_decide; [rewrite decide_True by done | rewrite decide_False by done].
  - case_bool_decide; cbn [negb orb]; [|naive_solver].
    destruct l; cbn; naive_solver.
  - case_bool_decide; cbn [negb]; naive_solver.
Qed.

Lemma bool_or_none_inv v f b : bool_or_none v f = Ok b -> v = vopt VBool b.
Proof. destruct v; simpl; try done; by intros [= <-]. Qed.

Lemma bool_or_none_ok b f : bool_or_none (vopt VBool b) f = Ok b.
Proof. by destruct b. Qed.

Lemma readback_sound v q r e : payload_readback v q = Ok (r, e) -> readback_ok q r e.
Proof.
  unfold payload_readback. intros H. inv_ok H. inv_oks. all: receipt_facts.
  all: repeat match goal with
    | H : readback_confirms _ _ _ _ = Ok _ |- _ =>
        rewrite (confirms_iff _ (str "confirmed") (option_map fst a2)) in H
    | H : oid_or_none _ _ = Ok _ |- _ => pose proof (oid_or_none_inv _ _ _ H); clear H
    | H : any _ = false |- _ => apply any_false in H
    end.
  all: constructor; cbn -[str]; rewrite ?is_some_map; try done; subst;
    try (rewrite bool_decide_true by done; done);
    try (rewrite bool_decide_false by done; done);
    try congruence; try (intros; done).
Qed.

Lemma readback_complete q r e :
  readback_ok q r e -> payload_readback (readback_value r) q = Ok (r, e).
Proof.
  intros [H1 H2 H3 H4 H5 H6 H7]. unfold payload_readback, readback_value, obj.
  cbn [receipt_mapping]. receipt_accept.
  destruct (optional_timestamp_ok _ _ "broker receipt readback observed_at" H2) as (p & -> & Ht & He).
  receipt_accept. rewrite bool_or_none_ok. receipt_accept.
  rewrite <- He, is_some_map in H5.
  assert (Hc : rd_status r = str "confirmed" -> readback_confirms q r.(rd_head_sha)
    r.(rd_pr_is_draft) r.(rd_resolved_thread_node_ids) = Ok tt).
  { intros E. apply (confirms_iff q r.(rd_status) r.(rd_observed_at)). destruct r. by apply H7. }
  rewrite Ht, He. case_bool_decide as E; cbn [negb] in H5; rewrite H5.
  - destruct (H6 E) as (-> & -> & ->). cbn [is_some any orb].
    rewrite bool_decide_false by (rewrite E; discriminate). do 3 f_equal. destruct r. cbn in *.
    by destruct (H6 E) as (-> & -> & ->).
  - cbn [negb]. case_bool_decide as E'; [rewrite Hc by done |]; by destruct r.
Qed.

(** The outcomes a receipt can report: outcome, status of the mutation, status
    of the readback and reason. *)
Inductive receipt_effect : pystr -> pystr -> pystr -> pystr -> Prop :=
| Succeeded_applied :
    receipt_effect (str "succeeded") (str "applied") (str "confirmed") (str "readback_verified")
| Succeeded_reconciled :
    receipt_effect (str "succeeded") (str "reconciled") (str "confirmed")
      (str "reconciled_readback_verified")
| Succeeded_already :
    receipt_effect (str "succeeded") (str "already_satisfied") (str "confirmed")
      (str "already_satisfied")
| Rejected p rest :
    p ∈ ["precondition_"; "request_"; "policy_"; "budget_"; "circuit_"]%string -> rest <> [] ->
    receipt_effect (str "rejected") (str "not_attempted") (str "not_attempted")
      (str p ++ rest)
| Failed rest :
    rest <> [] ->
    receipt_effect (str "failed") (str "failed") (str "not_attempted") (str "mutation_" ++ rest)
| Indeterminate mutation readback rest :
    mutation ∈ map str ["applied"; "reconciled"; "indeterminate"] ->
    readback ∈ map str ["not_confirmed"; "indeterminate"] -> rest <> [] ->
    receipt_effect (str "indeterminate") mutation readback (str "indeterminate_" ++ rest).

Lemma reason_prefix s p :
  reason_has_prefix s p = true <-> exists rest, rest <> [] /\ s = str p ++ rest.
Proof.
  unfold reason_has_prefix, startswith, zlen. rewrite andb_true_iff, bool_decide_eq_true. split.
  - intros [Ht Hl]. exists (drop (length (str p)) s). split.
    + intros E. apply (f_equal length) in E. rewrite length_drop in E. cbn [length] in E.
      apply Z.ltb_lt in Hl. lia.
    + rewrite <- Ht at 1. by rewrite take_drop.
  - intros (rest & Hr & ->). rewrite take_app_length. split; [done |]. rewrite length_app.
    destruct rest; [done |]. cbn [length]. apply Z.ltb_lt. lia.
Qed.

Lemma attempted_by_spec l s : attempted_by l s = true <-> s ∈ map str l.
Proof. unfold attempted_by. by rewrite bool_decide_eq_true. Qed.

Lemma outcome_iff o c m r u :
  o ∈ OUTCOMES -> (payload_outcome o c m r = Ok u <-> receipt_effect o m r c).
Proof.
  intros Ho. unfold payload_outcome. destruct u. split.
  - intros H. repeat case_bool_decide; subst; cbn -[str attempted_by existsb reason_has_prefix] in H; inv_ok H; try done.
    all: repeat match goal with H : attempted_by _ _ = true |- _ => apply attempted_by_spec in H
         | H : reason_has_prefix _ _ = true |- _ => apply reason_prefix in H as (? & ? & ->) end.
    + match goal with H : m ∈ _ |- _ => cbn [map] in H; rewrite !elem_of_cons in H;
        destruct H as [-> | [-> | [-> | H]]] end;
        [exact Succeeded_applied | exact Succeeded_reconciled | exact Succeeded_already |
         by match goal with H : _ ∈ [] |- _ => apply elem_of_nil in H end].
    + match goal with H : existsb _ _ = true |- _ =>
        apply existsb_exists in H as (p & Hp & H); apply reason_prefix in H as (? & ? & ->) end.
      constructor; [by apply list_elem_of_In | done].
    + by constructor.
    + unfold OUTCOMES in Ho. rewrite !elem_of_cons in Ho.
      destruct Ho as [-> | [-> | [-> | [-> | Ho]]]]; try done; [by constructor | by apply elem_of_nil in Ho].
  - intros H. destruct H; try reflexivity.
    + cbn -[str existsb]. rewrite (proj2 (existsb_exists _ _)); [done |].
      exists p. split; [by apply list_elem_of_In |]. apply reason_prefix. eauto.
    + cbn -[str reason_has_prefix]. rewrite (proj2 (reason_prefix _ "mutation_")); [done | eauto].
    + rewrite !bool_decide_false by done.
      rewrite (proj2 (attempted_by_spec _ _)), (proj2 (attempted_by_spec _ _)) by done.
      cbn -[str reason_has_prefix]. by rewrite (proj2 (reason_prefix _ "indeterminate_")) by eauto.
Qed.

(** ** Payloads *)

(** The order of the instants of a receipt. *)
Definition times_ok (started completed : Z) (attempted observed : option Z) : Prop :=
  started <= completed /\
  (forall a, attempted = Some a -> started <= a <= completed) /\
  (forall o, observed = Some o -> started <= o <= completed) /\
  (forall a o, attempted = Some a -> observed = Some o -> a <= o).

Lemma within_iff s c t : within s c t = true <-> (forall x, t = Some x -> s <= x <= c).
Proof.
  destruct t as [t|]; cbn; [|naive_solver]. rewrite andb_true_iff, !Z.leb_le. naive_solver.
Qed.

Lemma times_iff s c a o u : payload_times s c a o = Ok u <-> times_ok s c a o.
Proof.
  unfold payload_times, times_ok. destruct u. rewrite <- !within_iff.
  destruct (c <? s) eqn:E; [apply Z.ltb_lt in E | apply Z.ltb_ge in E].
  { split; [done |]. intros [? _]. lia. }
  destruct (within s c a); cbn [negb]; [|naive_solver].
  destruct (within s c o); cbn [negb]; [|naive_solver].
  destruct a as [a|], o as [o|]; try naive_solver.
  destruct (o <? a) eqn:Eo; [apply Z.ltb_lt in Eo | apply Z.ltb_ge in Eo].
  - split; [done |]. intros (_ & _ & _ & H). specialize (H a o eq_refl eq_refl). lia.
  - split; [|done]. intros _. split_and!; try done. by intros ?? [= <-] [= <-].
Qed.

(** A valid payload, with the instants of its start, completion, attempt and
    observation. *)
Record payload_ok (p : ReceiptPayload) (s c : Z) (a o : option Z) : Prop := {
  po_broker : fullmatch TOKEN_RE p.(rp_broker_id) = true;
  po_uid : 0 <= p.(rp_broker_uid) <= UID_MAX;
  po_config : fullmatch SHA256_RE p.(rp_broker_config_sha256) = true;
  po_key : fullmatch TOKEN_RE p.(rp_signing_key_id) = true;
  po_packet : fullmatch PACKET_ID_RE p.(rp_packet_id) = true;
  po_digest : fullmatch SHA256_RE p.(rp_request_digest) = true;
  po_request : request_binding_ok p.(rp_request);
  po_app : app_binding_ok p.(rp_github_app);
  po_precondition : fullmatch SHA256_RE p.(rp_precondition_digest) = true;
  po_mutation : mutation_ok p.(rp_mutation) a;
  po_readback : readback_ok p.(rp_request) p.(rp_readback) o;
  po_effect : receipt_effect p.(rp_outcome) p.(rp_mutation).(mu_status)
                p.(rp_readback).(rd_status) p.(rp_reason_code);
  po_reason : fullmatch REASON_CODE_RE p.(rp_reason_code) = true;
  po_started : stamp p.(rp_started_at) s;
  po_completed : stamp p.(rp_completed_at) c;
  po_times : times_ok s c a o;
  po_previous : fullmatch SHA256_RE p.(rp_previous_receipt_sha256) = true;
  po_id_shape : fullmatch RECEIPT_ID_RE p.(rp_receipt_id) = true;
  po_id : receipt_id_of (payload_dict p) = Ok p.(rp_receipt_id) }.

Lemma header_sound d b u g k :
  payload_header d = Ok (b, u, g, k) ->
  fullmatch TOKEN_RE b = true /\ 0 <= u <= UID_MAX /\ fullmatch SHA256_RE g = true /\
  fullmatch TOKEN_RE k = true.
Proof.
  unfold payload_header, UID_MAX. intros H. inv_ok H. inv_oks. receipt_facts. split_and!; done || lia.
Qed.

Lemma packet_sound v i g :
  payload_packet v = Ok (i, g) -> fullmatch PACKET_ID_RE i = true /\ fullmatch SHA256_RE g = true.
Proof. unfold payload_packet. intros H. inv_ok H. done. Qed.

Lemma effect_outcome o m r c : receipt_effect o m r c -> o ∈ OUTCOMES.
Proof. unfold OUTCOMES. rewrite !elem_of_cons. destruct 1; tauto. Qed.

Lemma payload_sound raw p :
  normalize_receipt_payload raw = Ok p -> exists s c a o, payload_ok p s c a o.
Proof.
  unfold normalize_receipt_payload. intros H.
  destruct (receipt_mapping raw _) as [d|]; [|done].
  destruct (payload_header d) as [[[[b u] g] k]|] eqn:E1; [|done].
  destruct (payload_packet _) as [[i q]|] eqn:E2; [|done].
  destruct (payload_request _) as [rq|] eqn:E3; [|done].
  destruct (payload_app _) as [ap|] eqn:E4; [|done].
  destruct (receipt_text SHA256_RE (get d "precondition_digest") _) as [pd|] eqn:E5; [|done].
  destruct (payload_mutation _) as [[mu a]|] eqn:E6; [|done].
  destruct (payload_readback _ _) as [[rd o]|] eqn:E7; [|done].
  destruct (receipt_choice _ _ _) as [oc|] eqn:E8; [|done].
  destruct (receipt_text REASON_CODE_RE _ _) as [rc|] eqn:E9; [|done].
  destruct (timestamp (Given (get d "started_at")) _) as [[st s]|] eqn:E10; [|done].
  destruct (timestamp (Given (get d "completed_at")) _) as [[ct c]|] eqn:E11; [|done].
  destruct (payload_times _ _ _ _) eqn:E12; [|done].
  destruct (payload_outcome _ _ _ _) eqn:E13; [|done].
  destruct (receipt_text SHA256_RE (get d "previous_receipt_sha256") _) as [pv|] eqn:E14; [|done].
  match type of H with context [receipt_id_of ?x] => destruct (receipt_id_of x) as [id|] eqn:E15; [|done] end.
  cbn [rp_receipt_id] in H. destruct (fullmatch RECEIPT_ID_RE _) eqn:E16; [|done]. cbn [negb] in H.
  case_bool_decide as E17; [|done]. cbn [negb] in H. apply Ok_inj in H as <-.
  apply header_sound in E1 as (? & ? & ? & ?). apply packet_sound in E2 as [? ?].
  receipt_facts. apply times_iff in E12. apply outcome_iff in E13; [|done].
  exists s, c, a, o. constructor; cbn; try done.
  - by eapply request_binding_sound.
  - by eapply app_binding_sound.
  - by eapply mutation_sound.
  - by eapply readback_sound.
  - by rewrite E17.
Qed.

Lemma payload_complete p s c a o :
  payload_ok p s c a o -> normalize_receipt_payload (payload_value p) = Ok p.
Proof.
  intros []. unfold normalize_receipt_payload, payload_value. cbn [receipt_mapping].
  unfold payload_header, payload_dict, payload_material. receipt_accept.
  cbn [py_eq vstr]. rewrite bool_decide_true by done. cbn [negb]. receipt_accept.
  unfold UID_MAX in *. rewrite (proj2 (Z.ltb_ge _ 0)), (proj2 (Z.ltb_ge _ _)) by lia. cbn [orb].
  receipt_accept. unfold payload_packet, obj at 1. cbn [receipt_mapping]. receipt_accept.
  rewrite !text_or_empty_str. rewrite po_packet0, po_digest0. cbn [negb].
  receipt_accept. rewrite request_binding_complete by done.
  receipt_accept. rewrite app_binding_complete by done. receipt_accept.
  erewrite mutation_complete by done. receipt_accept. erewrite readback_complete by done.
  pose proof (effect_outcome _ _ _ _ po_effect0). receipt_accept.
  rewrite (proj2 (times_iff _ _ _ _ tt)) by done.
  rewrite (proj2 (outcome_iff _ _ _ _ tt H)) by done. receipt_accept.
  match goal with |- context [receipt_id_of ?x] =>
    replace (receipt_id_of x) with (Ok (rp_receipt_id p)) by (rewrite <- po_id0; by destruct p) end.
  cbn [rp_receipt_id]. rewrite po_id_shape0, bool_decide_true by done. by destruct p.
Qed.
