(* ===== verification/Completion.v ===== *)
(** * Receipts from building to verification

    [payload_normal_form]: what a normalised payload is.
    [built_receipt_binds]: a payload the broker builds always passes the binding
    check of the signature.  [signed_receipt_verifies]: a signed receipt is in
    normal form and is verified with the key it was signed with.
    [completion_sound]: what a receipt that counts as a completion proves. *)

From S2P Require Import Prelude Regex Sha256 PyTime PyUrl PyText Json JsonFacts Encoding Effects Protocol ConfigFacts Submission UrlFacts SubmissionFacts Boundary Ingress ActionFacts Trust TrustFacts Receipts ReceiptFacts.
Local Open Scope Z_scope.

(** ** Payloads *)

(** A payload that is accepted is valid: its identifiers and digests have
    their shapes, it targets one thread exactly when its action resolves one,
    its outcome, statuses and reason are one of the combinations of
    [receipt_effect], a confirmed readback shows the requested state, its
    instants are in order and its identifier is the digest of its other fields;
    its normalised mapping is accepted and gives it back. *)
Theorem payload_normal_form raw p (H : normalize_receipt_payload raw = Ok p) :
  (exists started completed attempted observed,
    payload_ok p started completed attempted observed) /\
  normalize_receipt_payload (payload_value p) = Ok p.
Proof.
  apply payload_sound in H as (s & c & a & o & Hok). split; [eauto |]. by eapply payload_complete.
Qed.

(** ** Equality of mappings *)

Lemma py_eq_member d e k x :
  py_eq (VDict d) (VDict e) = true -> (k, x) ∈ d -> exists y, dget k e = Some y /\ py_eq x y = true.
Proof.
  cbn. intros [_ H]%andb_true_iff Hk.
  induction d as [|[k' x'] d IH]; [by apply elem_of_nil in Hk |].
  destruct (dget k' e) as [y|] eqn:E; [|done]. apply andb_true_iff in H as [Hx H].
  apply elem_of_cons in Hk as [[= -> ->] | Hk]; [eauto | by apply IH].
Qed.

Lemma py_eq_field l m k x :
  py_eq (obj l) (obj m) = true -> (k, x) ∈ l -> py_eq x (sget m k) = true.
Proof.
  intros H Hk. destruct (py_eq_member (fields l) (fields m) (str k) x H) as (y & Hy & Hxy).
  - unfold fields. apply list_elem_of_fmap. by exists (k, x).
  - rewrite <- get_obj. unfold get. by rewrite Hy.
Qed.

Lemma py_eq_vstrs a b : py_eq (vstrs a) (vstrs b) = true -> a = b.
Proof.
  revert b. induction a as [|x a IH]; intros [|y b]; cbn; try done.
  intros [->%bool_decide_eq_true H]%andb_true_iff. f_equal. by apply IH.
Qed.

Lemma py_eq_texts s t : py_eq (VStr s) (VStr t) = true -> s = t.
Proof. cbn. by rewrite bool_decide_eq_true. Qed.

Lemma py_eq_ints s t : py_eq (VInt s) (VInt t) = true -> s = t.
Proof. cbn. by rewrite Z.eqb_eq. Qed.

(** The members of a display, one after the other. *)
Ltac member := repeat (apply elem_of_cons; first [by left | right]).

(** What the bindings of a payload are compared with. *)
Definition bound_request (c : Config) (r : Request) : RequestBinding :=
  {| rb_instance_slug := r.(instance_slug); rb_action := r.(action);
     rb_repository_full_name := c.(repository).(full_name);
     rb_repository_id := c.(repository).(repository_id);
     rb_default_branch := c.(repository).(default_branch);
     rb_pr_number := r.(pr).(pr_number); rb_head_sha := r.(pr).(head_sha);
     rb_thread_node_ids := r.(thread_node_ids) |}.

Lemma bound_request_text c r : bound_request_value c r = request_binding_value (bound_request c r).
Proof. done. Qed.

Lemma request_binding_eq q q' :
  py_eq (request_binding_value q) (request_binding_value q') = true -> q = q'.
Proof.
  intros H. unfold request_binding_value in H.
  destruct q as [q1 q2 q3 q4 q5 q6 q7 q8], q' as [p1 p2 p3 p4 p5 p6 p7 p8]. cbn -[py_eq vstrs] in H.
  f_equal.
  - apply py_eq_texts, (py_eq_field _ _ "instance_slug" _ H). member.
  - apply py_eq_texts, (py_eq_field _ _ "action" _ H). member.
  - apply py_eq_texts, (py_eq_field _ _ "repository_full_name" _ H). member.
  - apply py_eq_ints, (py_eq_field _ _ "repository_id" _ H). member.
  - apply py_eq_texts, (py_eq_field _ _ "default_branch" _ H). member.
  - apply py_eq_ints, (py_eq_field _ _ "pr_number" _ H). member.
  - apply py_eq_texts, (py_eq_field _ _ "head_sha" _ H). member.
  - apply py_eq_vstrs, (py_eq_field _ _ "thread_node_ids" _ H). member.
Qed.

Lemma app_binding_eq a a' :
  py_eq (app_binding_value a) (app_binding_value a') = true -> a = a'.
Proof.
  intros H. unfold app_binding_value in H. destruct a as [a1 a2 a3], a' as [b1 b2 b3].
  cbn -[py_eq] in H. f_equal.
  - apply py_eq_ints, (py_eq_field _ _ "app_id" _ H). member.
  - apply py_eq_texts, (py_eq_field _ _ "app_slug" _ H). member.
  - apply py_eq_ints, (py_eq_field _ _ "installation_id" _ H). member.
Qed.

(** ** Bindings *)

Definition bound_app (c : Config) : AppBinding :=
  {| ab_app_id := c.(github_app).(app_id); ab_app_slug := c.(github_app).(app_slug);
     ab_installation_id := c.(github_app).(installation_id) |}.

(** A payload about a packet under a configuration, started in its window. *)
Record bound_to (p : ReceiptPayload) (c : Config) (packet : Packet) : Prop := {
  bt_broker : p.(rp_broker_id) = c.(broker_id);
  bt_uid : p.(rp_broker_uid) = c.(broker_uid);
  bt_config : config_digest (config_value c) = Ok p.(rp_broker_config_sha256);
  bt_key : p.(rp_signing_key_id) = c.(receipt_signing).(key_id);
  bt_app : p.(rp_github_app) = bound_app c;
  bt_slug : packet.(request).(instance_slug) = c.(slug);
  bt_packet : p.(rp_packet_id) = packet.(packet_id);
  bt_digest : p.(rp_request_digest) = packet.(request_digest);
  bt_request : p.(rp_request) = bound_request c packet.(request);
  bt_window : authority_window p.(rp_started_at) packet c.(policy).(maximum_clock_skew) = Ok tt }.

Lemma config_binding_inv p c u :
  assert_config_binding p c = Ok u ->
  p.(rp_broker_id) = c.(broker_id) /\ p.(rp_broker_uid) = c.(broker_uid) /\
  config_digest (config_value c) = Ok p.(rp_broker_config_sha256) /\
  p.(rp_signing_key_id) = c.(receipt_signing).(key_id) /\ p.(rp_github_app) = bound_app c /\
  p.(rp_request).(rb_instance_slug) = c.(slug).
Proof.
  unfold assert_config_binding. intros H. destruct (config_digest _) as [d|]; [|done].
  inv_ok H. split_and!; try assumption; try done; [lia | congruence |]. by apply app_binding_eq.
Qed.

Lemma context_binding_inv p config submission u :
  assert_context_binding p (Some config) (Some submission) = Ok u ->
  exists c packet, normalize_config config = Ok c /\
    historical_submission submission (config_value c) = Ok packet /\ bound_to p c packet.
Proof.
  unfold assert_context_binding. intros H. destruct (normalize_config config) as [c|]; [|done].
  destruct (assert_config_binding p c) as [[]|] eqn:Eb; [|done].
  destruct (historical_submission _ _) as [packet|] eqn:Eh; [|done].
  destruct (py_eq (obj _) (packet_binding_value packet)) eqn:Ep; [|done]. cbn [negb] in H.
  destruct (py_eq (request_binding_value _) _) eqn:Er; [|done]. cbn [negb] in H.
  apply config_binding_inv in Eb as (? & ? & ? & ? & ? & Hslug).
  rewrite bound_request_text in Er. apply request_binding_eq in Er.
  exists c, packet. split_and!; try assumption; try done. destruct u. constructor; try done.
  - by rewrite Er in Hslug.
  - apply py_eq_texts, (py_eq_field _ _ "packet_id" _ Ep). member.
  - apply py_eq_texts, (py_eq_field _ _ "request_digest" _ Ep). member.
Qed.

Lemma py_eq_vstrs_refl l : py_eq (vstrs l) (vstrs l) = true.
Proof. induction l as [|s l IH]; [done |]. cbn. by rewrite bool_decide_true. Qed.

(** A display with distinct keys equals itself. *)
Lemma py_eq_obj_refl l :
  bool_decide (NoDup (map str (map fst l))) = true ->
  Forall (fun kv => py_eq kv.2 kv.2 = true) l -> py_eq (obj l) (obj l) = true.
Proof.
  intros Hn%bool_decide_eq_true Hl. apply py_eq_dict_refl; [by rewrite keys_obj |].
  unfold fields. apply Forall_fmap. eapply Forall_impl; [exact Hl |]. by intros [k v].
Qed.

Ltac self_equal :=
  apply py_eq_obj_refl; [reflexivity |];
  rewrite ?Forall_cons; split_and!;
  first [ apply py_eq_vstrs_refl | apply Forall_nil; exact I
        | cbn; by rewrite ?bool_decide_true, ?Z.eqb_refl by done ].

Lemma request_binding_self q : py_eq (request_binding_value q) (request_binding_value q) = true.
Proof. self_equal. Qed.

Lemma app_binding_self a : py_eq (app_binding_value a) (app_binding_value a) = true.
Proof. self_equal. Qed.

Lemma packet_binding_self p : py_eq (packet_binding_value p) (packet_binding_value p) = true.
Proof. self_equal. Qed.

Lemma context_binding_ok p config submission c packet :
  normalize_config config = Ok c -> historical_submission submission (config_value c) = Ok packet ->
  bound_to p c packet -> assert_context_binding p (Some config) (Some submission) = Ok tt.
Proof.
  intros Hc Hs [H1 H2 H3 H4 H5 H5' H6 H7 H8 H9]. unfold assert_context_binding. rewrite Hc, Hs.
  unfold assert_config_binding. rewrite H3, H8. cbn [bound_request rb_instance_slug
    rb_repository_full_name rb_repository_id rb_default_branch].
  rewrite H1, H2, H4, H5, H5', !bool_decide_true, !Z.eqb_refl by done. cbn [negb].
  change (bound_app_value c) with (app_binding_value (bound_app c)). rewrite app_binding_self.
  cbn [negb]. rewrite H6, H7. fold (packet_binding_value packet).
  by rewrite packet_binding_self, bound_request_text, request_binding_self.
Qed.

(** ** What the fields of a payload come from *)

Record payload_from (d : dict) (p : ReceiptPayload) : Prop := {
  pf_broker : p.(rp_broker_id) = text_or_empty (get d "broker_id");
  pf_uid : get d "broker_uid" = VInt p.(rp_broker_uid);
  pf_config : p.(rp_broker_config_sha256) = text_or_empty (get d "broker_config_sha256");
  pf_key : p.(rp_signing_key_id) = text_or_empty (get d "signing_key_id");
  pf_packet : payload_packet (get d "packet") = Ok (p.(rp_packet_id), p.(rp_request_digest));
  pf_request : payload_request (get d "request") = Ok p.(rp_request);
  pf_app : payload_app (get d "github_app") = Ok p.(rp_github_app);
  pf_started : exists e, get d "started_at" = VStr p.(rp_started_at) /\ stamp p.(rp_started_at) e }.

Lemma receipt_text_text r v m s : receipt_text r v m = Ok s -> s = text_or_empty v.
Proof. unfold receipt_text. intros H. by inv_ok H. Qed.

Lemma header_from d b u g k :
  payload_header d = Ok (b, u, g, k) ->
  b = text_or_empty (get d "broker_id") /\ get d "broker_uid" = VInt u /\
  g = text_or_empty (get d "broker_config_sha256") /\ k = text_or_empty (get d "signing_key_id").
Proof.
  unfold payload_header. intros H. inv_ok H. inv_oks.
  repeat match goal with H : receipt_text _ _ _ = Ok _ |- _ => apply receipt_text_text in H end.
  done.
Qed.

Lemma normalize_from d p : normalize_receipt_payload (VDict d) = Ok p -> payload_from d p.
Proof.
  unfold normalize_receipt_payload. cbn [receipt_mapping]. intros H.
  destruct (payload_header d) as [[[[b u] g] k]|] eqn:E1; [|done].
  destruct (payload_packet _) as [[i q]|] eqn:E2; [|done].
  destruct (payload_request _) as [rq|] eqn:E3; [|done].
  destruct (payload_app _) as [ap|] eqn:E4; [|done].
  destruct (receipt_text SHA256_RE (get d "precondition_digest") _) as [pd|]; [|done].
  destruct (payload_mutation _) as [[mu a]|]; [|done].
  destruct (payload_readback _ _) as [[rd o]|]; [|done].
  destruct (receipt_choice _ _ _) as [oc|]; [|done].
  destruct (receipt_text REASON_CODE_RE _ _) as [rc|]; [|done].
  destruct (timestamp (Given (get d "started_at")) _) as [[st s]|] eqn:E10; [|done].
  destruct (timestamp (Given (get d "completed_at")) _) as [[ct c]|]; [|done].
  destruct (payload_times _ _ _ _); [|done]. destruct (payload_outcome _ _ _ _); [|done].
  destruct (receipt_text SHA256_RE (get d "previous_receipt_sha256") _) as [pv|]; [|done].
  match type of H with context [receipt_id_of ?x] => destruct (receipt_id_of x); [|done] end.
  destruct (negb _); [done |]. destruct (negb _); [done |]. apply Ok_inj in H as <-.
  apply header_from in E1 as (? & ? & ? & ?). apply timestamp_inv in E10 as [? ?].
  constructor; cbn; eauto.
Qed.

Lemma receipt_choice_text l v m s : receipt_choice l v m = Ok s -> s = text_or_empty v.
Proof. unfold receipt_choice. intros H. by inv_ok H. Qed.

Lemma thread_ids_text l f l' : thread_ids (vstrs l) f = Ok l' -> l' = l.
Proof.
  intros H. simpl in H. inv_ok H. inv_oks.
  match goal with H : res_map _ _ = Ok _ |- _ => apply res_map_inv in H; rename H into Hr end.
  clear -Hr. revert l Hr. induction l' as [|s' l' IH]; intros [|s l] Hr; inversion Hr; subst; [done |].
  f_equal; [|by apply IH]. by destruct (fullmatch TOKEN_RE s); simplify_eq/=.
Qed.

Lemma request_from q q' :
  payload_request (request_binding_value q) = Ok q' ->
  lower_text q.(rb_head_sha) = q.(rb_head_sha) -> q' = q.
Proof.
  unfold payload_request, request_binding_value, obj. cbn [receipt_mapping]. intros H Hl.
  inv_ok H. inv_oks.
  repeat match goal with
  | H : receipt_text _ _ _ = Ok _ |- _ => apply receipt_text_text in H
  | H : receipt_choice _ _ _ = Ok _ |- _ => apply receipt_choice_text in H
  | H : receipt_positive_int _ _ _ = Ok _ |- _ => apply receipt_positive_inv in H as [H _]
  end.
  all: repeat match goal with H : context [get (fields _) _] |- _ =>
    rewrite get_obj in H; cbn [sget String.eqb Ascii.eqb Bool.eqb] in H;
    rewrite ?text_or_empty_str in H end.
  all: repeat match goal with H : thread_ids _ _ = Ok _ |- _ => apply thread_ids_text in H end.
  all: match goal with H : oid_or_none _ _ = Ok _ |- _ => simpl in H; inv_ok H end.
  all: destruct q; cbn in *; congruence.
Qed.

Lemma app_from c a :
  payload_app (bound_app_value c) = Ok a -> a = bound_app c.
Proof.
  unfold payload_app, bound_app_value, obj, bound_app. cbn [receipt_mapping]. intros H.
  inv_ok H.
  repeat match goal with
  | H : receipt_text _ _ _ = Ok _ |- _ => apply receipt_text_text in H
  | H : receipt_positive_int _ _ _ = Ok _ |- _ => apply receipt_positive_inv in H as [H _]
  end.
  repeat match goal with H : context [get (fields _) _] |- _ =>
    rewrite get_obj in H; cbn [sget String.eqb Ascii.eqb Bool.eqb] in H;
    rewrite ?text_or_empty_str in H end.
  congruence.
Qed.

(** ** Building *)

Lemma timestamp_reads m f t e : timestamp m f = Ok (t, e) -> strptime t = Some e.
Proof.
  destruct m as [i|v].
  - simpl. destruct (strptime (utc_text _)) eqn:E; [|done]. by intros [= <- <-].
  - intros H. by apply timestamp_inv in H as [_ [? _]].
Qed.

Lemma packet_from p i q :
  payload_packet (packet_binding_value p) = Ok (i, q) -> i = p.(packet_id) /\ q = p.(request_digest).
Proof.
  unfold payload_packet, packet_binding_value, obj. cbn [receipt_mapping]. intros H.
  rewrite !get_obj in H. cbn [sget String.eqb Ascii.eqb Bool.eqb] in H.
  rewrite !text_or_empty_str in H. by inv_ok H.
Qed.

Lemma build_inv config submission r p :
  build_receipt_payload config submission r = Ok p ->
  exists c packet started,
    normalize_config config = Ok c /\
    normalize_submission submission (config_value c) (Aware (us started)) 0 0 = Ok packet /\
    strptime p.(rp_started_at) = Some started /\ EARLIEST <= started /\
    p.(rp_broker_id) = c.(broker_id) /\ p.(rp_broker_uid) = c.(broker_uid) /\
    config_digest (config_value c) = Ok p.(rp_broker_config_sha256) /\
    p.(rp_signing_key_id) = c.(receipt_signing).(key_id) /\
    p.(rp_github_app) = bound_app c /\
    p.(rp_packet_id) = packet.(packet_id) /\ p.(rp_request_digest) = packet.(request_digest) /\
    payload_request (bound_request_value c packet.(request)) = Ok p.(rp_request).
Proof.
  unfold build_receipt_payload. intros H.
  destruct (normalize_config config) as [c|] eqn:Ec; [|done].
  destruct (timestamp (re_started_at r) _) as [[st started]|] eqn:Es; [|done].
  destruct (normalize_submission _ _ _ _ _) as [packet|] eqn:Ep; [|done].
  destruct (config_digest _) as [digest|] eqn:Ed; [|done].
  destruct (timestamp_text (re_mutation_attempted_at r) _) as [at_|]; [|done].
  destruct (timestamp_text (re_readback_observed_at r) _) as [ob|]; [|done].
  destruct (timestamp (re_completed_at r) _) as [[ct completed]|]; [|done].
  match type of H with (match receipt_id_of ?x with _ => _ end) = _ =>
    destruct (receipt_id_of x) as [id|]; [|done] end.
  apply normalize_from in H as [F1 F2 F3 F4 F5 F6 F7 (e & F8 & [F9 F10])].
  rewrite get_obj in F1, F2, F3, F4, F5, F6, F7, F8.
  cbn [sget String.eqb Ascii.eqb Bool.eqb] in F1, F2, F3, F4, F5, F6, F7, F8.
  rewrite text_or_empty_str in F1, F3, F4. apply packet_from in F5 as [? ?].
  apply app_from in F7. apply timestamp_reads in Es as Et. injection F8 as ->. injection F2 as F2.
  exists c, packet, started. rewrite F9 in Et. injection Et as ->.
  split_and!; try assumption; try done; congruence.
Qed.

(** What the broker builds, it can sign: a payload built for a submission
    passes the binding check of the signature and of the verification with the
    same configuration and submission, which judge the packet at its creation
    instead of at the start.  The start is at least an hour after the beginning
    of 2020, the first instant the receipts accept. *)
Theorem built_receipt_binds config submission r p started
    (H : build_receipt_payload config submission r = Ok p)
    (Hs : strptime p.(rp_started_at) = Some started) (He : EARLIEST + 3600 <= started) :
  assert_context_binding p (Some config) (Some submission) = Ok tt.
Proof.
  apply build_inv in H as (c & packet & s & Hc & Hn & Ht & _ & B1 & B2 & B3 & B4 & B5 & B6 & B7 & B8).
  rewrite Hs in Ht. injection Ht as <-.
  apply submission_at_creation in Hn
    as (c' & d & dp & cr & ex & ob & t1 & t2 & Hc' & -> & Hdp & Hcr & [= <-] & [= <-] & Hp & Rc & Re & Hskew & Hpol & Hall).
  rewrite config_complete in Hc' by (by eapply config_sound). injection Hc' as <-.
  pose proof (lifetime _ _ _ _ _ Hp) as [_ Hl]. pose proof (not_expired _ _ _ _ _ Hp) as Hx.
  pose proof (skew_range _ (policy_valid _ (config_sound _ _ Hc))) as Hr.
  unfold us, MAX_PACKET_TTL_SECONDS, EARLIEST in *.
  apply (context_binding_ok _ _ _ c packet Hc).
  - unfold historical_submission. cbn [receipt_mapping]. rewrite Hdp. cbn [receipt_mapping].
    apply parse_utc_inv in Hcr as (txt & -> & Hcr).
    rewrite (timestamp_ok _ cr) by (split; [done | unfold EARLIEST; lia]).
    unfold us. by rewrite Hall.
  - assert (Hslug : packet.(request).(instance_slug) = c.(slug)).
    { unfold submission_policy in Hpol. by inv_ok Hpol. }
    rewrite bound_request_text in B8. apply request_from in B8; [|by apply lower_oid, (head_shape _ _ (pr_valid _ (request_valid _ _ _ _ _ Hp)))].
    constructor; try done. unfold authority_window.
    rewrite (timestamp_ok _ started) by (split; [done | unfold EARLIEST; lia]).
    rewrite (created_text _ _ _ _ _ Hp), (expires_text _ _ _ _ _ Hp).
    rewrite (timestamp_ok _ cr), (timestamp_ok _ ex)
      by (split; [by apply strptime_utc_text | unfold EARLIEST; lia]).
    rewrite add_seconds_ok.
    + unfold us. rewrite (proj2 (Z.ltb_ge _ _)), (proj2 (Z.leb_gt _ _)) by lia. done.
    + unfold in_us_range, us, in_clock_range, MAX_CLOCK_SKEW_SECONDS in *. lia.
Qed.

(** ** Envelopes *)

Record envelope_ok (e : Envelope) : Prop := {
  eo_key : fullmatch TOKEN_RE e.(en_key_id) = true;
  eo_fingerprint : fullmatch SHA256_RE e.(en_public_key_sha256) = true;
  eo_digest_shape : fullmatch SHA256_RE e.(en_payload_sha256) = true;
  eo_payload : normalize_receipt_payload (payload_value e.(en_payload)) = Ok e.(en_payload);
  eo_same_key : e.(en_payload).(rp_signing_key_id) = e.(en_key_id);
  eo_digest : sha256_json (payload_value e.(en_payload)) = Ok e.(en_payload_sha256);
  eo_signature : exists raw, b64decode e.(en_signature) = Ok raw /\ zlen raw = 64 /\
    e.(en_signature) = b64encode raw }.

Lemma signature_inv v t :
  envelope_signature v = Ok t ->
  exists raw, b64decode t = Ok raw /\ zlen raw = 64 /\ t = b64encode raw.
Proof.
  unfold envelope_signature. destruct v as [| | | |s| |]; try done.
  destruct (b64decode s) as [raw|e] eqn:E; cbn [reraise].
  - destruct (zlen raw =? 64) eqn:El; [|done]. cbn [negb]. case_bool_decide as Es; [|done].
    cbn [negb]. intros [= <-]. exists raw. rewrite <- Es at 1. split_and!; [done | lia | done].
  - by destruct (isa_value e).
Qed.

Lemma signature_ok t raw :
  b64decode t = Ok raw -> zlen raw = 64 -> t = b64encode raw -> envelope_signature (VStr t) = Ok t.
Proof.
  intros H1 H2 H3. unfold envelope_signature. rewrite H1. cbn [reraise].
  rewrite H2. cbn [Z.eqb Pos.eqb negb]. by rewrite bool_decide_true by done; rewrite <- H3.
Qed.

Lemma envelope_sound raw e : normalize_receipt_envelope raw = Ok e -> envelope_ok e.
Proof.
  unfold normalize_receipt_envelope. intros H. inv_ok H. receipt_facts.
  match goal with H : normalize_receipt_payload _ = Ok _ |- _ =>
    apply payload_sound in H as (? & ? & ? & ? & Hp%payload_complete) end.
  match goal with H : envelope_signature _ = Ok _ |- _ => apply signature_inv in H end.
  constructor; cbn; done || congruence.
Qed.

Lemma envelope_complete e :
  envelope_ok e -> normalize_receipt_envelope (envelope_value e) = Ok e.
Proof.
  intros [H1 H2 H3 H4 H5 H6 (raw & H7 & H8 & H9)]. unfold normalize_receipt_envelope, envelope_value, obj.
  cbn [receipt_mapping]. receipt_accept. cbn [py_eq vstr]. rewrite bool_decide_true by done.
  cbn [negb]. receipt_accept. cbn [py_eq]. rewrite bool_decide_true by done. cbn [negb].
  receipt_accept. rewrite H4, H5, H6, !bool_decide_true by done. cbn [negb]. receipt_accept.
  rewrite (signature_ok _ raw) by done. by destruct e.
Qed.

(** ** Signing and verifying *)

Section Signed.
Context {crypto : Ed25519} {S : Type} `{!Files S}.

(** What [sign_receipt] does when it returns. *)
Lemma sign_inv payload config submission ko po root (s s' : S) e :
  sign_receipt payload config submission ko po root s = (Ok e, s') ->
  exists c private_pem public_pem text signature s1,
    normalize_config config = Ok c /\ normalize_receipt_payload payload = Ok e.(en_payload) /\
    assert_context_binding e.(en_payload) (Some (config_value c)) (Some submission) = Ok tt /\
    read_receipt_key c.(receipt_signing).(receipt_public_key_path) "broker receipt public key"
      (owners_or_default ko c) (owners_or_default po c) root s1 = (Ok public_pem, s') /\
    sha256_hex public_pem = c.(receipt_signing).(public_key_sha256) /\
    contains public_pem (str "PUBLIC KEY") = true /\
    payload_bytes e.(en_payload) = Ok text /\
    signature_of private_pem public_pem text = Ok signature /\
    verify_signature_bytes public_pem text signature = Ok tt /\
    e = {| en_key_id := c.(receipt_signing).(key_id);
           en_public_key_sha256 := c.(receipt_signing).(public_key_sha256);
           en_payload_sha256 := sha256_hex text; en_payload := e.(en_payload);
           en_signature := b64encode signature |}.
Proof.
  unfold sign_receipt. intros H. run_inv. split_bools.
  repeat match goal with u : unit |- _ => destruct u end.
  do 6 eexists. split_and!; done.
Qed.

Lemma payload_digest p text :
  payload_bytes p = Ok text -> sha256_json (payload_value p) = Ok (sha256_hex text).
Proof.
  unfold payload_bytes, sha256_json. destruct (canonical_json _) as [t|]; [|done].
  by intros [= <-].
Qed.

Lemma signature_of_inv private_pem public_pem text signature :
  signature_of private_pem public_pem text = Ok signature ->
  exists k, load_pem_private_key private_pem = Ed25519Key k /\
    load_pem_public_key public_pem = Ed25519Key (public_bytes k) /\
    key_sign k text = Some signature.
Proof.
  unfold signature_of. destruct (load_pem_private_key private_pem) as [| |k]; [done | |].
  - by destruct (load_pem_public_key public_pem).
  - destruct (load_pem_public_key public_pem) as [| |c]; [done.. |].
    case_bool_decide as E; [|done]. cbn [negb]. destruct (key_sign k text) eqn:Es; [|done].
    intros [= <-]. exists k. by rewrite E.
Qed.

Lemma verify_signature_inv pem text signature u :
  verify_signature_bytes pem text signature = Ok u ->
  zlen signature = 64 /\ exists key, load_pem_public_key pem = Ed25519Key key /\
    key_verify key signature text = true.
Proof.
  unfold verify_signature_bytes. destruct (zlen signature =? 64) eqn:E; [|done]. cbn [negb].
  destruct (load_pem_public_key pem) as [| |key]; [done.. |].
  destruct (key_verify key signature text) eqn:Ev; [|done]. intros _. split; [lia | eauto].
Qed.

(** Signatures are bytes. *)
Definition signatures_are_bytes : Prop :=
  forall k text signature, key_sign k text = Some signature -> Forall (fun b => b < 256)%N signature.

Lemma signed_envelope_ok payload config submission ko po root (s s' : S) e :
  signatures_are_bytes ->
  sign_receipt payload config submission ko po root s = (Ok e, s') -> envelope_ok e.
Proof.
  intros Hb H. apply sign_inv in H
    as (c & priv & pub & text & sig & s1 & Hc & Hp & Hbind & _ & Hfp & _ & Htext & Hsig & Hv & He).
  apply verify_signature_inv in Hv as [Hlen _].
  apply signature_of_inv in Hsig as (k & _ & _ & Hk). apply Hb in Hk.
  pose proof (receipt_signing_valid _ (config_sound _ _ Hc)) as [Hid _ _ Hfs _].
  apply context_binding_inv in Hbind as (c' & packet & Hc' & _ & Hbound).
  rewrite config_complete in Hc' by (by eapply config_sound). injection Hc' as <-.
  apply payload_sound in Hp as (? & ? & ? & ? & Hp).
  rewrite He. constructor; cbn; try done.
  - by apply sha256_hex_re.
  - by eapply payload_complete.
  - apply Hbound.
  - by apply payload_digest.
  - exists sig. by rewrite b64_roundtrip.
Qed.

(** C29: a signed receipt is in normal form, and it is verified, without a limit
    on its completion time, under the configuration and for the submission it
    was signed for, wherever the file of the pinned key holds the bytes it was
    signed under. *)
Theorem signed_receipt_verifies payload config submission ko po root (s s' : S) e
    (Hb : signatures_are_bytes)
    (H : sign_receipt payload config submission ko po root s = (Ok e, s')) :
  normalize_receipt_envelope (envelope_value e) = Ok e /\
  exists c public_pem, normalize_config config = Ok c /\
    sha256_hex public_pem = c.(receipt_signing).(public_key_sha256) /\
    forall path owners parents root' t t',
      read_receipt_key path "broker receipt verification public key" owners parents root' t =
        (Ok public_pem, t') ->
      verify_receipt (FromValue (envelope_value e)) path c.(receipt_signing).(public_key_sha256)
        (Some c.(receipt_signing).(key_id)) owners parents root'
        (Some config) (Some submission) Unset t = (Ok e, t').
Proof.
  pose proof (signed_envelope_ok _ _ _ _ _ _ _ _ _ Hb H) as Hok.
  pose proof (envelope_complete _ Hok) as Hn. split; [done |].
  apply sign_inv in H
    as (c & priv & pub & text & sig & s1 & Hc & Hp & Hbind & Hread & Hfp & Hpk & Htext & Hsig & Hv & He).
  exists c, pub. split_and!; [done.. |]. intros path owners parents root' t t' Hr.
  pose proof (receipt_signing_valid _ (config_sound _ _ Hc)) as [Hid _ _ Hfs _].
  apply signature_of_inv in Hsig as (k & _ & _ & Hk). apply Hb in Hk.
  assert (Hctx : assert_context_binding (en_payload e) (Some config) (Some submission) = Ok tt).
  { rewrite <- Hbind. unfold assert_context_binding.
    by rewrite config_complete, Hc by (by eapply config_sound). }
  unfold verify_receipt. rewrite Hfs. cbn [negb].
  unfold coerce_envelope, envelope_value, obj. fold (envelope_value e).
  unfold bind at 1. unfold lift at 1. unfold envelope_value, obj in Hn. rewrite Hn.
  rewrite He. cbn [en_key_id en_public_key_sha256 en_payload en_signature check_pinned_id].
  unfold bind at 1, lift at 1. rewrite Hid, bool_decide_true by done. cbn [negb orb].
  rewrite bool_decide_true by done. cbn [negb].
  unfold bind at 1, lift at 1. cbn [check_config_key]. rewrite Hc, !bool_decide_true by done.
  cbn [negb]. unfold bind at 1. rewrite Hr. rewrite Hpk, bool_decide_true by done. cbn [negb].
  unfold bind at 1, lift at 1. rewrite b64_roundtrip by done. cbn [reraise].
  unfold bind at 1, lift at 1. rewrite Htext. unfold bind at 1, lift at 1. rewrite Hv.
  unfold bind at 1, lift at 1. rewrite Hctx. done.
Qed.

(** What a verified receipt carries. *)
Lemma verify_receipt_inv src path fp id owners parents root config submission now (s s' : S) e :
  verify_receipt src path fp id owners parents root config submission now s = (Ok e, s') ->
  exists s1 pem text raw s2,
    coerce_envelope src s = (Ok e, s1) /\ e.(en_public_key_sha256) = fp /\
    (forall k, id = Some k -> e.(en_key_id) = k) /\
    check_config_key e fp config = Ok tt /\
    read_receipt_key path "broker receipt verification public key" owners parents root s1 =
      (Ok pem, s2) /\
    sha256_hex pem = fp /\ b64decode e.(en_signature) = Ok raw /\
    payload_bytes e.(en_payload) = Ok text /\
    verify_signature_bytes pem text raw = Ok tt /\
    assert_context_binding e.(en_payload) config submission = Ok tt.
Proof.
  unfold verify_receipt. intros H. run_inv. split_bools.
  repeat match goal with u : unit |- _ => destruct u end.
  match goal with H : reraise _ _ (b64decode _) = Ok _ |- _ => apply reraise_inv in H end.
  do 5 eexists. split_and!; try assumption; try done.
  intros k ->. match goal with H : check_pinned_id _ _ = Ok _ |- _ =>
    cbn in H; inv_ok H end. done.
Qed.

Lemma coerce_sound src (s s' : S) e : coerce_envelope src s = (Ok e, s') -> envelope_ok e.
Proof.
  unfold coerce_envelope, load_receipt. intros H.
  destruct src as [[]|[]]; try done; run_inv; try (by eapply envelope_sound).
  all: match goal with H : (match as_receipt_error ?x with _ => _ end) = Ok _ |- _ =>
    destruct (as_receipt_error x); [|done]; by eapply envelope_sound end.
Qed.

(** A valid signature of the payload by the key with the pinned fingerprint. *)
Definition signed_under (fp : pystr) (e : Envelope) : Prop :=
  exists pem key text raw, sha256_hex pem = fp /\ load_pem_public_key pem = Ed25519Key key /\
    payload_bytes e.(en_payload) = Ok text /\ b64decode e.(en_signature) = Ok raw /\
    key_verify key raw text = true.

(** The request of a packet has been carried out: the broker's mutation is
    complete and its readback shows the requested head, ready for review or with
    exactly the requested thread resolved. *)
Definition carried_out (p : ReceiptPayload) (r : Request) : Prop :=
  p.(rp_outcome) = str "succeeded" /\
  p.(rp_mutation).(mu_status) ∈ map str ["applied"; "reconciled"; "already_satisfied"] /\
  p.(rp_readback).(rd_status) = str "confirmed" /\
  p.(rp_readback).(rd_head_sha) = Some r.(pr).(head_sha) /\
  if decide (r.(action) = MARK_PR_READY)
  then p.(rp_readback).(rd_pr_is_draft) = Some false
  else p.(rp_readback).(rd_resolved_thread_node_ids) = r.(thread_node_ids).

End Signed.
