(* ===== verification/ReceiptDemo.v ===== *)
(** * A concrete receipt

    The properties of Completion.v at the receipt of the demonstration's packet,
    with a key pair and a file system to sign it with. *)

From S2P Require Import Prelude Regex Sha256 PyTime PyUrl PyText Json JsonFacts Encoding Effects Protocol ConfigFacts Submission UrlFacts SubmissionFacts Ingress Trust TrustFacts Receipts ReceiptFacts Completion.
Local Open Scope Z_scope.

(** ** A demonstration *)

#[export] Instance demo_crypto : Ed25519 := {
  private_key := bytes;
  load_pem_private_key pem := Ed25519Key (drop (length (str "PRIVATE KEY ")) pem);
  load_pem_public_key pem := Ed25519Key (drop (length (str "PUBLIC KEY ")) pem);
  public_bytes k := k;
  key_sign k text := Some (sha256_hex (k ++ text));
  key_verify k signature text := bool_decide (signature = sha256_hex (k ++ text)) }.

Definition demo_private_pem : bytes := str "PRIVATE KEY 7".
Definition demo_public_pem : bytes := str "PUBLIC KEY 7".

Definition demo_fingerprint : pystr := Eval vm_compute in sha256_hex demo_public_pem.

(** The demonstration's configuration with the fingerprint of that key. *)
Definition signing_config : Config :=
  {| enabled := demo_config.(enabled); broker_id := demo_config.(broker_id);
     broker_uid := demo_config.(broker_uid); transport := demo_config.(transport);
     github_app := demo_config.(github_app);
     receipt_signing := {|
       key_id := demo_config.(receipt_signing).(key_id);
       receipt_private_key_path := demo_config.(receipt_signing).(receipt_private_key_path);
       receipt_public_key_path := demo_config.(receipt_signing).(receipt_public_key_path);
       public_key_sha256 := demo_fingerprint |};
     database_path := demo_config.(database_path); slug := demo_config.(slug);
     repository := demo_config.(repository); policy := demo_config.(policy);
     budgets := demo_config.(budgets) |}.

Definition key_tree (p : pystr) : option (stat_result * bytes) :=
  if bool_decide (p = str "/etc/broker/receipt.pem") then
    Some ({| st_mode := 32768 + 384; st_uid := 0; st_size := 13 |}, demo_private_pem)
  else if bool_decide (p = str "/etc/broker/receipt.pub") then
    Some ({| st_mode := 32768 + 384; st_uid := 0; st_size := 12 |}, demo_public_pem)
  else demo_tree p.

Definition demo_machine : machine := {| tree := key_tree; opened := None |}.

(** The pull request was made ready 20 seconds after the packet. *)
Definition demo_report : Report :=
  {| re_precondition_digest := replicate 64 49%N; re_outcome := str "succeeded";
     re_reason_code := str "readback_verified"; re_mutation_status := str "applied";
     re_readback_status := str "confirmed"; re_started_at := At (us (T0 + 10));
     re_completed_at := At (us (T0 + 20)); re_mutation_attempted_at := Some (At (us (T0 + 11)));
     re_operation_id := str "attempt-1"; re_readback_observed_at := Some (At (us (T0 + 20)));
     re_readback_head_sha := VStr demo_packet.(request).(pr).(head_sha);
     re_readback_pr_is_draft := VBool false; re_resolved_thread_node_ids := [];
     re_previous_receipt_sha256 := ZERO_HASH |}.

#[local] Notation demo_build :=
  (build_receipt_payload (config_value signing_config) (submission_value demo_packet) demo_report).

Definition demo_payload : ReceiptPayload :=
  Eval vm_compute in
    match demo_build with Ok p => p | Raise _ => {|
      rp_receipt_id := []; rp_broker_id := []; rp_broker_uid := 0; rp_broker_config_sha256 := [];
      rp_signing_key_id := []; rp_packet_id := []; rp_request_digest := [];
      rp_request := bound_request signing_config demo_packet.(request);
      rp_github_app := bound_app signing_config; rp_precondition_digest := [];
      rp_mutation := {| mu_status := []; mu_attempted_at := None; mu_operation_id := [] |};
      rp_readback := {| rd_status := []; rd_observed_at := None; rd_head_sha := None;
                        rd_pr_is_draft := None; rd_resolved_thread_node_ids := [] |};
      rp_outcome := []; rp_reason_code := []; rp_started_at := []; rp_completed_at := [];
      rp_previous_receipt_sha256 := [] |} end.

Example demo_built : demo_build = Ok demo_payload.
Proof. vm_compute. reflexivity. Qed.

Example payload_normal_form_witness :
  normalize_receipt_payload (payload_value demo_payload) = Ok demo_payload.
Proof.
  assert (H : normalize_receipt_payload (payload_value demo_payload) = Ok demo_payload)
    by (vm_compute; reflexivity).
  exact (proj2 (payload_normal_form _ _ H)).
Defined.

Example built_receipt_binds_witness :
  assert_context_binding demo_payload (Some (config_value signing_config))
    (Some (submission_value demo_packet)) = Ok tt.
Proof.
  assert (Hs : strptime demo_payload.(rp_started_at) = Some (T0 + 10)) by (vm_compute; reflexivity).
  assert (He : EARLIEST + 3600 <= T0 + 10) by (vm_compute; discriminate).
  exact (built_receipt_binds _ _ _ _ _ demo_built Hs He).
Defined.

Lemma demo_signatures : signatures_are_bytes.
Proof.
  intros k text signature [= <-]. pose proof (sha256_hex_hexdig (k ++ text)) as H.
  eapply Forall_impl; [exact H |]. intros b Hb. destruct (hexdig_plain b Hb) as [? _]. lia.
Qed.

#[local] Notation demo_sign :=
  (sign_receipt (payload_value demo_payload) (config_value signing_config)
    (submission_value demo_packet) VNone VNone None demo_machine).

Example demo_signs : exists e m, demo_sign = (Ok e, m).
Proof.
  assert (H : is_ok demo_sign.1 = true) by (vm_compute; reflexivity).
  destruct demo_sign as [[e|x] m]; [eauto | done].
Qed.

Example signed_receipt_verifies_witness :
  exists e m, demo_sign = (Ok e, m) /\
    normalize_receipt_envelope (envelope_value e) = Ok e.
Proof.
  destruct demo_signs as (e & m & H). exists e, m. split; [exact H |].
  exact (proj1 (signed_receipt_verifies _ _ _ _ _ _ _ _ _ demo_signatures H)).
Defined.

(** The signed receipt is presented for the packet. *)
#[local] Notation demo_completion e :=
  (is_completion_receipt (FromValue (envelope_value e)) (str "/etc/broker/receipt.pub")
    demo_fingerprint None (config_value signing_config) (submission_value demo_packet)
    VNone VNone None Unset demo_machine).

Definition completes (r : res Envelope) (f : Envelope -> res bool * machine) : bool :=
  match r with
  | Ok e => match f e with (Ok true, _) => true | _ => false end
  | Raise _ => false
  end.

Example demo_completes : exists e m, demo_completion e = (Ok true, m).
Proof.
  assert (H : completes demo_sign.1 (fun e => demo_completion e) = true) by (vm_compute; reflexivity).
  revert H. generalize (demo_sign.1). intros [e|x] H; [|done]. exists e. unfold completes in H.
  destruct (is_completion_receipt _ _ _ _ _ _ _ _ _ _ _) as [[[]|] m]; try done. eauto.
Qed.

