(* ===== verification/Live.v ===== *)
(** * The live GitHub client

    broker/john_lomein_github_live.py: [GitHubLiveClient], which reads a
    consistent snapshot of a pull request page by page and calls the two
    mutations.  The rate limits it observes are the second component of the
    state of a computation; [live_client] is the instance of the interface of
    Client.v.  The loops over pages recurse on the number of pages left. *)

From S2P Require Import Prelude Regex Sha256 PyTime PyUrl PyText Json Encoding Effects Client App.
Local Open Scope Z_scope.

(** ** Constants *)

Definition MAX_CONNECTION_PAGES : nat := 200.
Definition PAGE_SIZE : Z := 100.
Definition MAX_STATUS_CONTEXTS : Z := 1000.
Definition MAX_REVIEW_THREADS : Z := 500.
Definition MAX_THREAD_COMMENTS : Z := PAGE_SIZE.

Definition PR_IDENTITY_QUERY : string := "
query BrokerPrIdentity($owner: String!, $name: String!, $number: Int!) {
  repository(owner: $owner, name: $name) {
    id
    databaseId
    nameWithOwner
    pullRequest(number: $number) {
      id
      number
      url
      state
      isDraft
      headRefOid
      baseRefName
      changedFiles
      author { login }
      headRepository { id databaseId nameWithOwner }
      baseRepository { id databaseId nameWithOwner }
    }
  }
  rateLimit { remaining resetAt }
}
".

Definition PR_FILES_QUERY : string := "
query BrokerPrFiles(
  $owner: String!,
  $name: String!,
  $number: Int!,
  $cursor: String
) {
  repository(owner: $owner, name: $name) {
    pullRequest(number: $number) {
      files(first: 100, after: $cursor) {
        totalCount
        nodes { path }
        pageInfo { hasNextPage endCursor }
      }
    }
  }
  rateLimit { remaining resetAt }
}
".

Definition CHECKS_QUERY : string := "
query BrokerChecks(
  $owner: String!,
  $name: String!,
  $oid: GitObjectID!,
  $cursor: String
) {
  repository(owner: $owner, name: $name) {
    object(oid: $oid) {
      ... on Commit {
        oid
        statusCheckRollup {
          contexts(first: 100, after: $cursor) {
            totalCount
            nodes {
              __typename
              ... on CheckRun {
                name
                status
                conclusion
                app { slug }
              }
              ... on StatusContext {
                context
                state
                creator { login }
              }
            }
            pageInfo { hasNextPage endCursor }
          }
        }
      }
    }
  }
  rateLimit { remaining resetAt }
}
".

Definition THREADS_QUERY : string := "
query BrokerThreads(
  $owner: String!,
  $name: String!,
  $number: Int!,
  $cursor: String
) {
  repository(owner: $owner, name: $name) {
    pullRequest(number: $number) {
      reviewThreads(first: 100, after: $cursor) {
        totalCount
        nodes {
          id
          isResolved
          isOutdated
          comments(first: 100) {
            totalCount
            nodes { id databaseId url }
            pageInfo { hasNextPage endCursor }
          }
        }
        pageInfo { hasNextPage endCursor }
      }
    }
  }
  rateLimit { remaining resetAt }
}
".

Definition THREAD_COMMENTS_QUERY : string := "
query BrokerThreadComments($id: ID!, $cursor: String) {
  node(id: $id) {
    ... on PullRequestReviewThread {
      id
      comments(first: 100, after: $cursor) {
        totalCount
        nodes { id databaseId url }
        pageInfo { hasNextPage endCursor }
      }
    }
  }
  rateLimit { remaining resetAt }
}
".

Definition MARK_READY_MUTATION : string := "
mutation BrokerMarkReady($id: ID!, $clientMutationId: String!) {
  markPullRequestReadyForReview(
    input: {
      pullRequestId: $id
      clientMutationId: $clientMutationId
    }
  ) {
    clientMutationId
    pullRequest {
      id
      number
      isDraft
      headRefOid
      state
      updatedAt
    }
  }
  rateLimit { remaining resetAt }
}
".

Definition RESOLVE_THREAD_MUTATION : string := "
mutation BrokerResolveThread($threadId: ID!, $clientMutationId: String!) {
  resolveReviewThread(
    input: {
      threadId: $threadId
      clientMutationId: $clientMutationId
    }
  ) {
    clientMutationId
    thread { id isResolved }
  }
  rateLimit { remaining resetAt }
}
".

(** ** Fields *)

Definition live_error {A} (m : string) : res A := Raise (GitHubLiveError m).

Definition missing {A} (field : string) : res A := live_error (field +:+ " is missing or invalid").

Definition object (v : value) (field : string) : res dict :=
  match v with VDict d => Ok d | _ => missing field end.

Definition array (v : value) (field : string) : res (list value) :=
  match v with VList l => Ok l | _ => missing field end.

Definition text (v : value) (field : string) : res pystr :=
  match v with VStr ((_ :: _) as s) => Ok s | _ => missing field end.

(** [_text(..., allow_empty=True)] *)
Definition text_allow_empty (v : value) (field : string) : res pystr :=
  match v with VStr s => Ok s | _ => missing field end.

Definition positive_int (v : value) (field : string) : res Z :=
  match v with VInt z => if 0 <? z then Ok z else missing field | _ => missing field end.

(** [type(v) is bool] *)
Definition flag (v : value) (m : string) : res bool :=
  match v with VBool b => Ok b | _ => live_error m end.

(** A non-negative integer that is not a boolean. *)
Definition natural (v : value) (m : string) : res Z :=
  match v with VInt z => raise_if z <? 0 with (GitHubLiveError m) ;; Ok z | _ => live_error m end.

(** ** The client *)

Record GitHubLiveClient := {
  lc_token : pystr;
  lc_repository : pystr;
  lc_repository_id : Z;
  lc_owner : pystr;
  lc_name : pystr;
  lc_minimum_rate_limit_remaining : Z;
  lc_maximum_changed_files : Z }.

(** The constructor, from the credential and the configuration. *)
Definition make_live_client (credential : InstallationCredential) (repository : pystr)
    (repository_id minimum_rate_limit_remaining maximum_changed_files : Z) :
    res GitHubLiveClient :=
  raise_if negb (fullmatch REPO_RE repository)
    with (GitHubLiveError "configured repository is invalid") ;;
  raise_if negb (credential.(cred_repository_id) =? repository_id)
    with (GitHubLiveError "credential repository binding does not match") ;;
  raise_if minimum_rate_limit_remaining <? 0
    with (GitHubLiveError "minimum rate-limit floor is invalid") ;;
  raise_if maximum_changed_files <=? 0
    with (GitHubLiveError "maximum changed-file count is invalid") ;;
  match cut (ch_of "/") repository with
  | Some (owner, name) =>
      Ok {| lc_token := credential.(token); lc_repository := repository;
            lc_repository_id := repository_id; lc_owner := owner; lc_name := name;
            lc_minimum_rate_limit_remaining := minimum_rate_limit_remaining;
            lc_maximum_changed_files := maximum_changed_files |}
  | None => Raise (ValueError "not enough values to unpack")
  end.

(** A page of a connection. *)
Record page := { pg_total : Z; pg_nodes : list value; pg_has_next : bool;
                 pg_cursor : option pystr }.

Definition connection_page (connection : value) (field : string) : res page :=
  let* d := object connection field in
  let* total := natural (get d "totalCount") (field +:+ " totalCount is invalid") in
  let* nodes := array (get d "nodes") (field +:+ " nodes") in
  let* info := object (get d "pageInfo") (field +:+ " pageInfo") in
  let* has_next := flag (get info "hasNextPage") (field +:+ " pagination flag is invalid") in
  let e := GitHubLiveError (field +:+ " pagination cursor is invalid") in
  let* cursor := match get info "endCursor" with
    | VStr c => raise_if has_next && bool_decide (c = []) with e ;; Ok (Some c)
    | VNone => raise_if has_next with e ;; Ok None
    | _ => Raise e
    end in
  Ok {| pg_total := total; pg_nodes := nodes; pg_has_next := has_next; pg_cursor := cursor |}.

(** The first page fixes the total, the others must repeat it. *)
Definition expect_total (expected : option Z) (total : Z) (first : res unit) (changed : string) :
    res unit :=
  match expected with
  | None => first
  | Some t => raise_if negb (total =? t) with (GitHubLiveError changed) ;; Ok tt
  end.

(** The cursor of the next page. *)
Definition next_cursor (p : page) (seen : list pystr) (repeated : string) : res pystr :=
  match p.(pg_cursor) with
  | None => Raise AssertionError
  | Some c => raise_if bool_decide (c ∈ seen) with (GitHubLiveError repeated) ;; Ok c
  end.

(** ** The evidence comment's URL *)

Definition not_slash : re := RSeq (RCls (fun c => negb (c =? 47)%N)) (RStar (RCls (fun c => negb (c =? 47)%N))).
Definition decimal : re := RSeq (RCls (in_range "1" "9")) (RStar (RCls digit)).

Definition EVIDENCE_URL_RE : re :=
  RSeq (rlit "https://github.com/") (RSeq not_slash (RSeq (rlit "/") (RSeq not_slash
    (RSeq (rlit "/pull/") (RSeq decimal (RSeq (rlit "#issuecomment-") decimal)))))).

(** The groups [repo], [pr] and [comment] of a text the pattern matches: no
    group holds a slash but the one of [repo]. *)
Definition evidence_groups (url : pystr) : option (pystr * pystr * pystr) :=
  if fullmatch EVIDENCE_URL_RE url then
    match split_on (ch_of "/") (drop (length (str "https://github.com/")) url) with
    | [owner; name; _; last] =>
        match cut (ch_of "#") last with
        | Some (pr, fragment) =>
            Some (owner ++ str "/" ++ name, pr, drop (length (str "issuecomment-")) fragment)
        | None => None
        end
    | _ => None
    end
  else None.

Definition hex_upper (n : N) : N := if (n <? 10)%N then (48 + n)%N else (55 + n)%N.

(** [quote(s, safe="")] of a text without surrogates. *)
Definition url_quote (s : pystr) : pystr :=
  concat (map (fun c =>
    if alnum_or "_.-~" c then [c]
    else concat (map (fun b => [37; hex_upper (b / 16); hex_upper (b mod 16)]%N) (utf8 [c]))) s).

(** ** Requests and observed rate limits *)

Section Live.
Context {S : Type} `{!Network S}.

(** [_observed_rate_limits] is the second component. *)
Abbreviation LM := (M (S * list Z)).

(** A call of the App client. *)
Definition through {A} (m : M S A) : LM A := fun '(s, rates) =>
  let '(r, s') := m s in (r, (s', rates)).

Definition is_app_error (e : exn) : bool := match e with GitHubAppError _ => true | _ => false end.

(** An observed value, and the floor. *)
Definition observe (live : GitHubLiveClient) (remaining : Z) : LM unit := fun '(s, rates) =>
  (raise_if remaining <? live.(lc_minimum_rate_limit_remaining)
     with (GitHubLiveError "GitHub rate-limit floor has been reached") ;; Ok tt,
   (s, rates ++ [remaining])).

Definition record_graphql_rate (live : GitHubLiveClient) (data : dict) : LM unit :=
  let! rate := lift (object (get data "rateLimit") "GraphQL rate limit") in
  let! remaining := lift (natural (get rate "remaining") "GraphQL rate-limit result is invalid") in
  observe live remaining.

Definition rest_rate (headers : texts_map) : option pystr :=
  option_map snd
    (List.find (fun kv => bool_decide (lower_text kv.1 = str "x-ratelimit-remaining")) headers).

(** [_record_rest_rate(headers, required=True)] *)
Definition record_rest_rate (live : GitHubLiveClient) (headers : texts_map) : LM unit :=
  match rest_rate headers with
  | None => throw (GitHubLiveError "REST rate-limit header is missing")
  | Some text =>
      let! remaining := lift
        (let e := GitHubLiveError "REST rate-limit header is invalid" in
         let* remaining := reraise isa_value (fun _ => e) (int_text text) in
         raise_if remaining <? 0 with e ;; Ok remaining) in
      observe live remaining
  end.

(** [_graphql] *)
Definition live_graphql (live : GitHubLiveClient) (query : string) (variables : dict) : LM dict :=
  let! (data, headers) := rethrow is_app_error
    (fun _ => GitHubLiveError "GitHub GraphQL operation failed")
    (through (graphql live.(lc_token) query variables)) in
  let! _ := record_graphql_rate live data in
  let! _ := record_rest_rate live headers in
  ret data.

(** ** The identity of the pull request *)

Record Identity := {
  pi_id : pystr; pi_number : Z; pi_url : pystr; pi_state : pystr; pi_is_draft : bool;
  pi_head_sha : pystr; pi_base_branch : pystr; pi_author_login : pystr;
  pi_same_repository_head : bool; pi_changed_files : Z }.

Definition identity_dict (i : Identity) : dict :=
  fields [("id", VStr i.(pi_id)); ("number", VInt i.(pi_number)); ("url", VStr i.(pi_url));
          ("state", VStr i.(pi_state)); ("is_draft", VBool i.(pi_is_draft));
          ("head_sha", VStr i.(pi_head_sha)); ("base_branch", VStr i.(pi_base_branch));
          ("author_login", VStr i.(pi_author_login));
          ("same_repository_head", VBool i.(pi_same_repository_head));
          ("changed_files", VInt i.(pi_changed_files))].

(** The configured repository: its number and its name. *)
Definition is_repository (live : GitHubLiveClient) (repository : dict) : bool :=
  py_eq (get repository "databaseId") (VInt live.(lc_repository_id)) &&
  py_eq (get repository "nameWithOwner") (VStr live.(lc_repository)).

Definition read_identity (live : GitHubLiveClient) (pr_number : Z) (data : dict) : res Identity :=
  let* repository := object (get data "repository") "repository" in
  raise_if negb (is_repository live repository)
    with (GitHubLiveError "live repository identity does not match config") ;;
  let* pr := object (get repository "pullRequest") "pull request" in
  raise_if negb (py_eq (get pr "number") (VInt pr_number))
    with (GitHubLiveError "live pull request number does not match") ;;
  let* base_repository := object (get pr "baseRepository") "pull request base repository" in
  let same_repo_head := match get pr "headRepository" with
    | VDict head => is_repository live head && is_repository live base_repository
    | _ => false
    end in
  let* author := object (get pr "author") "pull request author" in
  let count := GitHubLiveError "pull request changed-file count is invalid or exceeds policy" in
  let* changed_files := match get pr "changedFiles" with
    | VInt z => raise_if (z <? 0) || (live.(lc_maximum_changed_files) <? z) with count ;; Ok z
    | _ => Raise count
    end in
  let* is_draft := flag (get pr "isDraft") "pull request isDraft is invalid" in
  let* id := text (get pr "id") "pull request id" in
  let* url := text (get pr "url") "pull request URL" in
  let* state := text (get pr "state") "pull request state" in
  let* head_sha := text (get pr "headRefOid") "pull request head SHA" in
  let* base_branch := text (get pr "baseRefName") "pull request base branch" in
  let* author_login := text (get author "login") "pull request author login" in
  Ok {| pi_id := id; pi_number := pr_number; pi_url := url; pi_state := state;
        pi_is_draft := is_draft; pi_head_sha := lower_text head_sha;
        pi_base_branch := base_branch; pi_author_login := author_login;
        pi_same_repository_head := same_repo_head; pi_changed_files := changed_files |}.

Definition pr_variables (live : GitHubLiveClient) (pr_number : Z) : list (string * value) :=
  [("owner", VStr live.(lc_owner)); ("name", VStr live.(lc_name)); ("number", VInt pr_number)].

Definition fetch_identity (live : GitHubLiveClient) (pr_number : Z) : LM Identity :=
  let! data := live_graphql live PR_IDENTITY_QUERY (fields (pr_variables live pr_number)) in
  lift (read_identity live pr_number data).

(** ** Connections *)

(** The messages of a walk over the pages of a connection. *)
Record walk := { w_changed : string; w_repeated : string; w_exceeded : string }.

Fixpoint each {A} (item : value -> LM A) (nodes : list value) : LM (list A) :=
  match nodes with
  | [] => ret []
  | v :: nodes' =>
      let! a := item v in
      let! l := each item nodes' in
      ret (a :: l)
  end.

(** The [for _ in range(MAX_CONNECTION_PAGES)] loop of the three connections of
    a pull request, [fuel] the pages left: [fetch] asks for the page at a cursor
    ([None]: the connection does not exist), [first] checks the total of the
    first page, [item] reads a node.  The result is the total and the items. *)
Fixpoint pages {A} (w : walk) (fetch : option pystr -> LM (option page))
    (first : Z -> res unit) (item : value -> LM A) (fuel : nat) (cursor : option pystr)
    (seen : list pystr) (expected : option Z) (acc : list A) : LM (option (Z * list A)) :=
  match fuel with
  | O => throw (GitHubLiveError w.(w_exceeded))
  | Datatypes.S fuel' =>
      let! found := fetch cursor in
      match found with
      | None => ret None
      | Some p =>
          let! _ := lift (expect_total expected p.(pg_total) (first p.(pg_total)) w.(w_changed)) in
          let! items := each item p.(pg_nodes) in
          let acc' := acc ++ items in
          if negb p.(pg_has_next) then ret (Some (p.(pg_total), acc'))
          else
            let! next := lift (next_cursor p seen w.(w_repeated)) in
            pages w fetch first item fuel' (Some next) (next :: seen) (Some p.(pg_total)) acc'
      end
  end.

Definition cursor_value (cursor : option pystr) : value :=
  match cursor with Some c => VStr c | None => VNone end.

(** A page of a connection of the pull request. *)
Definition pr_page (live : GitHubLiveClient) (pr_number : Z) (query key field : string)
    (cursor : option pystr) : LM (option page) :=
  let! data := live_graphql live query
    (fields (pr_variables live pr_number ++ [("cursor", cursor_value cursor)])) in
  lift
    (let* repository := object (get data "repository") "repository" in
     let* pr := object (get repository "pullRequest") "pull request" in
     let* p := connection_page (get pr key) field in
     Ok (Some p)).

(** [len(l) != total] and [len(set(l)) != len(l)] *)
Definition complete {A} (found : option (Z * list A)) (m : string) : res (list A) :=
  match found with
  | Some (total, l) => raise_if negb (zlen l =? total) with (GitHubLiveError m) ;; Ok l
  | None => live_error m
  end.

Definition distinct (l : list pystr) (m : string) : res unit :=
  raise_if negb (bool_decide (NoDup l)) with (GitHubLiveError m) ;; Ok tt.

(** ** Changed files *)

Definition file_path (node : value) : res pystr :=
  let* item := object node "pull request file" in
  text (get item "path") "file path".

Definition first_files (live : GitHubLiveClient) (expected_count total : Z) : res unit :=
  raise_if negb (total =? expected_count)
    with (GitHubLiveError "changed-file count changed during observation") ;;
  raise_if live.(lc_maximum_changed_files) <? total
    with (GitHubLiveError "pull request exceeds maximum changed files") ;;
  Ok tt.

Definition fetch_files (live : GitHubLiveClient) (pr_number expected_count : Z) :
    LM (list pystr) :=
  let! found := pages
    {| w_changed := "changed-file count changed during pagination";
       w_repeated := "file pagination cursor repeated";
       w_exceeded := "file pagination exceeded page limit" |}
    (pr_page live pr_number PR_FILES_QUERY "files" "pull request files")
    (first_files live expected_count) (fun node => lift (file_path node))
    MAX_CONNECTION_PAGES None [] None [] in
  let! paths := lift (complete found "pull request file pagination was truncated") in
  let! _ := lift (distinct paths "pull request file pagination duplicated paths") in
  ret paths.

(** ** Checks *)

(** [str(owner.get(key) or "")] of a mapping, [""] of anything else. *)
Definition producer (owner : value) (key : string) : pystr :=
  match owner with
  | VDict d => let v := get d key in if truthy v then py_str v else []
  | _ => []
  end.

Definition read_context (node : value) : res dict :=
  let* item := object node "status context" in
  let kind := get item "__typename" in
  if py_eq kind (vstr "CheckRun") then
    let* name := text (get item "name") "check-run name" in
    let* status := text (get item "status") "check-run status" in
    let* conclusion := match get item "conclusion" with
      | VNone => Ok VNone
      | v => let* c := text_allow_empty v "check-run conclusion" in Ok (VStr (upper_text c))
      end in
    Ok (fields [("kind", vstr "check_run"); ("name", VStr name);
                ("status", VStr (upper_text status)); ("conclusion", conclusion);
                ("producer", VStr (producer (get item "app") "slug"))])
  else if py_eq kind (vstr "StatusContext") then
    let* name := text (get item "context") "commit-status context" in
    let* status := text (get item "state") "commit-status state" in
    Ok (fields [("kind", vstr "commit_status"); ("name", VStr name);
                ("status", VStr (upper_text status)); ("conclusion", VNone);
                ("producer", VStr (producer (get item "creator") "login"))])
  else live_error "status rollup returned an unsupported context type".

(** A page of the checks of a commit; [None]: the commit has no rollup. *)
Definition checks_page (live : GitHubLiveClient) (head_sha : pystr) (cursor : option pystr) :
    LM (option page) :=
  let! data := live_graphql live CHECKS_QUERY
    (fields [("owner", VStr live.(lc_owner)); ("name", VStr live.(lc_name));
             ("oid", VStr head_sha); ("cursor", cursor_value cursor)]) in
  lift
    (let* repository := object (get data "repository") "repository" in
     let* commit := object (get repository "object") "head commit" in
     raise_if negb (py_eq (get commit "oid") (VStr head_sha))
       with (GitHubLiveError "check rollup commit does not match head") ;;
     match get commit "statusCheckRollup" with
     | VNone =>
         raise_if is_some cursor
           with (GitHubLiveError "check rollup disappeared during pagination") ;;
         Ok None
     | rollup =>
         let* rollup_obj := object rollup "status check rollup" in
         let* p := connection_page (get rollup_obj "contexts") "status contexts" in
         Ok (Some p)
     end).

(** A bound on the total of the first page. *)
Definition at_most (limit : Z) (m : string) (total : Z) : res unit :=
  raise_if limit <? total with (GitHubLiveError m) ;; Ok tt.

Definition fetch_checks (live : GitHubLiveClient) (head_sha : pystr) : LM (list dict) :=
  let! found := pages
    {| w_changed := "status-context count changed during pagination";
       w_repeated := "status pagination cursor repeated";
       w_exceeded := "status pagination exceeded page limit" |}
    (checks_page live head_sha)
    (at_most MAX_STATUS_CONTEXTS "status-context count exceeds the safety limit")
    (fun node => lift (read_context node)) MAX_CONNECTION_PAGES None [] None [] in
  match found with
  | None => ret []
  | _ => lift (complete found "status context pagination was truncated")
  end.

(** ** Review threads *)

Definition comment_url (node : value) : res pystr :=
  let* item := object node "review-thread comment" in
  text (get item "url") "review-thread comment URL".

Definition comments_page (live : GitHubLiveClient) (thread_id cursor : pystr) : LM page :=
  let! data := live_graphql live THREAD_COMMENTS_QUERY
    (fields [("id", VStr thread_id); ("cursor", VStr cursor)]) in
  lift
    (let* node := object (get data "node") "review thread" in
     raise_if negb (py_eq (get node "id") (VStr thread_id))
       with (GitHubLiveError "review thread changed during comment pagination") ;;
     connection_page (get node "comments") "review-thread comments").

(** The [while has_next] loop after a page [p]; [fuel] is what [pages] may still
    grow by. *)
Fixpoint comment_pages (live : GitHubLiveClient) (thread_id : pystr) (total : Z) (fuel : nat)
    (p : page) (seen : list pystr) (urls : list pystr) : LM (list pystr) :=
  if negb p.(pg_has_next) then ret urls
  else
    match fuel with
    | O => throw (GitHubLiveError "review-thread comment pagination exceeded page limit")
    | Datatypes.S fuel' =>
        let! cursor := lift (next_cursor p seen "review-thread comment cursor repeated") in
        let! p' := comments_page live thread_id cursor in
        let! _ := lift (raise_if negb (p'.(pg_total) =? total)
          with (GitHubLiveError "review-thread comment count changed during pagination") ;; Ok tt) in
        let! more := lift (res_map comment_url p'.(pg_nodes)) in
        comment_pages live thread_id total fuel' p' (cursor :: seen) (urls ++ more)
    end.

Definition thread_comments (live : GitHubLiveClient) (thread_id : pystr) (first_page : dict) :
    LM (list pystr) :=
  let! p := lift (connection_page (VDict first_page) "review-thread comments") in
  let! _ := lift (at_most MAX_THREAD_COMMENTS
    "review-thread comment count exceeds the safety limit" p.(pg_total)) in
  let! first := lift (res_map comment_url p.(pg_nodes)) in
  let! urls := comment_pages live thread_id p.(pg_total) (MAX_CONNECTION_PAGES - 1) p [] first in
  let! urls := lift (complete (Some (p.(pg_total), urls))
    "review-thread comment pagination was truncated") in
  let! _ := lift (distinct urls "review-thread comment pagination duplicated URLs") in
  ret urls.

Record Thread := {
  th_id : pystr; th_is_resolved : bool; th_is_outdated : bool; th_urls : list pystr }.

Definition thread_dict (t : Thread) : dict :=
  fields [("id", VStr t.(th_id)); ("is_resolved", VBool t.(th_is_resolved));
          ("is_outdated", VBool t.(th_is_outdated)); ("urls", VList (map VStr t.(th_urls)))].

Definition read_thread (live : GitHubLiveClient) (node : value) : LM Thread :=
  let! item := lift (object node "review thread") in
  let! thread_id := lift (text (get item "id") "review-thread id") in
  let! is_resolved := lift (flag (get item "isResolved") "review-thread resolved state is invalid") in
  let! is_outdated := lift (flag (get item "isOutdated") "review-thread outdated state is invalid") in
  let! comments := lift (object (get item "comments") "review-thread comments") in
  let! urls := thread_comments live thread_id comments in
  ret {| th_id := thread_id; th_is_resolved := is_resolved; th_is_outdated := is_outdated;
         th_urls := urls |}.

Definition fetch_threads (live : GitHubLiveClient) (pr_number : Z) : LM (list Thread) :=
  let! found := pages
    {| w_changed := "review-thread count changed during pagination";
       w_repeated := "review-thread pagination cursor repeated";
       w_exceeded := "review-thread pagination exceeded page limit" |}
    (pr_page live pr_number THREADS_QUERY "reviewThreads" "review threads")
    (at_most MAX_REVIEW_THREADS "review-thread count exceeds the safety limit")
    (read_thread live) MAX_CONNECTION_PAGES None [] None [] in
  let! threads := lift (complete found "review-thread pagination was truncated") in
  let! _ := lift (distinct (map th_id threads) "review-thread pagination duplicated ids") in
  ret threads.

(** ** The evidence comment *)

Definition comment_path (live : GitHubLiveClient) (comment_id : Z) : pystr :=
  str "/repos/" ++ url_quote live.(lc_owner) ++ str "/" ++ url_quote live.(lc_name) ++
  str "/issues/comments/" ++ dec comment_id.

Definition read_comment (comment_id : Z) (url : pystr) (data : value) : res dict :=
  let* comment := object data "evidence comment" in
  let* user := object (get comment "user") "evidence comment author" in
  raise_if negb (py_eq (get comment "id") (VInt comment_id)) ||
           negb (py_eq (get comment "html_url") (VStr url))
    with (GitHubLiveError "evidence comment identity does not match") ;;
  let* author_login := text (get user "login") "evidence comment author login" in
  let* body := text_allow_empty (get comment "body") "evidence comment body" in
  let* created_at := text (get comment "created_at") "evidence comment creation time" in
  Ok (fields [("id", VInt comment_id); ("url", VStr url); ("author_login", VStr author_login);
              ("body", VStr body); ("created_at", VStr created_at)]).

(** The comment a URL of this pull request names. *)
Definition bound_comment (live : GitHubLiveClient) (pr_number : Z) (url : value) :
    res (pystr * Z) :=
  let e := GitHubLiveError "evidence comment URL is not bound to the PR" in
  match url with
  | VStr s =>
      match evidence_groups s with
      | Some (repo, pr, comment) =>
          raise_if negb (bool_decide (repo = live.(lc_repository))) with e ;;
          let* n := int_text pr in
          raise_if negb (n =? pr_number) with e ;;
          let* comment_id := int_text comment in
          Ok (s, comment_id)
      | None => Raise e
      end
  | _ => Raise (TypeError "expected string or bytes-like object")
  end.

Definition fetch_evidence_comment (live : GitHubLiveClient) (pr_number : Z) (url : value) :
    LM dict :=
  let! (s, comment_id) := lift (bound_comment live pr_number url) in
  let! (data, headers) := rethrow is_app_error
    (fun _ => GitHubLiveError "evidence comment lookup failed")
    (through (request_json "GET" (comment_path live comment_id) live.(lc_token) None 200)) in
  let! _ := record_rest_rate live headers in
  lift (read_comment comment_id s data).

(** ** Snapshots *)

(** [min(rates)] *)
Definition least (rates : list Z) : option Z :=
  match rates with [] => None | r :: rs => Some (fold_left Z.min rs r) end.

Definition least_observed : LM Z := fun '(s, rates) =>
  (match least rates with
   | Some r => Ok r
   | None => live_error "no GitHub rate-limit evidence was observed"
   end, (s, rates)).

Definition unresolved (threads : list Thread) : Z :=
  zlen (List.filter (fun t => negb t.(th_is_resolved)) threads).

Definition positive_number (v : value) : res Z :=
  match v with
  | VInt z => raise_if z <=? 0 with (GitHubLiveError "pull request number is invalid") ;; Ok z
  | _ => live_error "pull request number is invalid"
  end.

(** [self._observed_rate_limits = []] *)
Definition forget_rates : LM unit := fun '(s, _) => (Ok tt, (s, [])).

Definition observe_snapshot (live : GitHubLiveClient) (pr_number url : value) : LM LiveSnapshot :=
  let! n := lift (positive_number pr_number) in
  let! _ := forget_rates in
  let! identity := fetch_identity live n in
  let! files := fetch_files live n identity.(pi_changed_files) in
  let! checks := fetch_checks live identity.(pi_head_sha) in
  let! evidence := fetch_evidence_comment live n url in
  let! threads := fetch_threads live n in
  let! final_identity := fetch_identity live n in
  if negb (py_eq (VDict (identity_dict final_identity)) (VDict (identity_dict identity))) then
    throw (GitHubLiveError "pull request identity changed during observation")
  else
    let! minimum := least_observed in
    ret {| ls_repository := live.(lc_repository); ls_repository_id := live.(lc_repository_id);
           ls_pr := identity_dict identity; ls_files := files; ls_checks := checks;
           ls_evidence_comment := evidence; ls_threads := map thread_dict threads;
           ls_unresolved_thread_count := unresolved threads;
           ls_minimum_rate_limit_remaining := minimum |}.

(** ** Mutations *)

Definition mark_ready_result (client_mutation_id : pystr) (data : dict) : res dict :=
  let* result := object (get data "markPullRequestReadyForReview") "mark-ready mutation result" in
  raise_if negb (py_eq (get result "clientMutationId") (VStr client_mutation_id))
    with (GitHubLiveError "mark-ready mutation id does not match") ;;
  let* pr := object (get result "pullRequest") "mark-ready pull request" in
  let* id := text (get pr "id") "mark-ready pull request id" in
  let* number := positive_int (get pr "number") "mark-ready pull request number" in
  let* head_sha := text (get pr "headRefOid") "mark-ready head SHA" in
  let* state := text (get pr "state") "mark-ready pull request state" in
  let* updated_at := text (get pr "updatedAt") "mark-ready update time" in
  Ok (fields [("id", VStr id); ("number", VInt number); ("is_draft", get pr "isDraft");
              ("head_sha", VStr (lower_text head_sha)); ("state", VStr state);
              ("updated_at", VStr updated_at)]).

Definition live_mark_pr_ready (live : GitHubLiveClient) (pr_node_id client_mutation_id : pystr) :
    LM dict :=
  let! data := live_graphql live MARK_READY_MUTATION
    (fields [("id", VStr pr_node_id); ("clientMutationId", VStr client_mutation_id)]) in
  lift (mark_ready_result client_mutation_id data).

Definition resolve_thread_result (client_mutation_id : pystr) (data : dict) : res dict :=
  let* result := object (get data "resolveReviewThread") "resolve-thread mutation result" in
  raise_if negb (py_eq (get result "clientMutationId") (VStr client_mutation_id))
    with (GitHubLiveError "resolve-thread mutation id does not match") ;;
  let* thread := object (get result "thread") "resolve-thread result" in
  let* is_resolved := flag (get thread "isResolved") "resolve-thread state is invalid" in
  let* id := text (get thread "id") "resolve-thread id" in
  Ok (fields [("id", VStr id); ("is_resolved", VBool is_resolved)]).

Definition live_resolve_review_thread (live : GitHubLiveClient) (thread_id : value)
    (client_mutation_id : pystr) : LM dict :=
  let! data := live_graphql live RESOLVE_THREAD_MUTATION
    (fields [("threadId", thread_id); ("clientMutationId", VStr client_mutation_id)]) in
  lift (resolve_thread_result client_mutation_id data).

(** The observed values are read by [fetch_snapshot] only, which forgets the
    earlier ones first, so a call may start without any. *)
Definition standalone {A} (m : LM A) : M S A := fun s =>
  let '(r, (s', _)) := m (s, []) in (r, s').

#[export] Instance live_client : LiveActionClient S GitHubLiveClient := {
  fetch_snapshot live pr_number url := standalone (observe_snapshot live pr_number url);
  mark_pr_ready live id mutation := standalone (live_mark_pr_ready live id mutation);
  resolve_review_thread live id mutation :=
    standalone (live_resolve_review_thread live id mutation) }.
End Live.
