(* ===== verification/LiveFacts.v ===== *)
(** * What a snapshot of the live client is

    [snapshot_sound]: a snapshot of [GitHubLiveClient] is a complete and
    consistent reading of the bound pull request.  The network is arbitrary:
    nothing is assumed of the answers. *)

From S2P Require Import Prelude Regex Sha256 PyTime PyUrl PyText Json JsonFacts ConfigFacts ActionFacts Encoding Effects Client App Live.
Local Open Scope Z_scope.

(** ** Well-formed snapshots *)

Record identity_ok (live : GitHubLiveClient) (n : Z) (i : Identity) : Prop := {
  io_number : i.(pi_number) = n;
  io_texts : Forall (fun s => s <> [])
    [i.(pi_id); i.(pi_url); i.(pi_state); i.(pi_head_sha); i.(pi_base_branch); i.(pi_author_login)];
  io_head : lower_text i.(pi_head_sha) = i.(pi_head_sha);
  io_changed : 0 <= i.(pi_changed_files) <= live.(lc_maximum_changed_files) }.

(** A check run or a commit status; a status has no conclusion. *)
Definition check_shape (d : dict) : Prop :=
  exists kind name status conclusion maker,
    d = fields [("kind", vstr kind); ("name", VStr name); ("status", VStr status);
                ("conclusion", conclusion); ("producer", VStr maker)] /\
    name <> [] /\
    (kind = "check_run"%string /\ (conclusion = VNone \/ exists c, conclusion = VStr c) \/
     kind = "commit_status"%string /\ conclusion = VNone).

Definition comment_shape (n : Z) (repository url : pystr) (d : dict) : Prop :=
  exists id author body created pr comment,
    d = fields [("id", VInt id); ("url", VStr url); ("author_login", VStr author);
                ("body", VStr body); ("created_at", VStr created)] /\
    author <> [] /\ created <> [] /\
    evidence_groups url = Some (repository, pr, comment) /\ int_text pr = Ok n /\
    int_text comment = Ok id.

Definition thread_ok (t : Thread) : Prop :=
  t.(th_id) <> [] /\ NoDup t.(th_urls) /\ Forall (fun u => u <> []) t.(th_urls) /\
  zlen t.(th_urls) <= MAX_THREAD_COMMENTS.

Record snapshot_ok (live : GitHubLiveClient) (n : Z) (url : pystr) (i : Identity)
    (ts : list Thread) (s : LiveSnapshot) : Prop := {
  so_repository : s.(ls_repository) = live.(lc_repository) /\
                  s.(ls_repository_id) = live.(lc_repository_id);
  so_pr : s.(ls_pr) = identity_dict i /\ identity_ok live n i;
  so_files : NoDup s.(ls_files) /\ Forall (fun p => p <> []) s.(ls_files) /\
             zlen s.(ls_files) = i.(pi_changed_files);
  so_checks : Forall check_shape s.(ls_checks) /\ zlen s.(ls_checks) <= MAX_STATUS_CONTEXTS;
  so_evidence : comment_shape n live.(lc_repository) url s.(ls_evidence_comment);
  so_threads : s.(ls_threads) = map thread_dict ts /\ NoDup (map th_id ts) /\
               Forall thread_ok ts /\ zlen ts <= MAX_REVIEW_THREADS;
  so_unresolved : s.(ls_unresolved_thread_count) = unresolved ts;
  so_rate : live.(lc_minimum_rate_limit_remaining) <= s.(ls_minimum_rate_limit_remaining) }.

(** ** Fields *)

Lemma text_inv v f s : text v f = Ok s -> v = VStr s /\ s <> [].
Proof. unfold text. destruct v as [| | | |[|c t]| |]; try done. by intros [= <-]. Qed.

Lemma lower_text_idem s : lower_text (lower_text s) = lower_text s.
Proof.
  unfold lower_text. rewrite map_map. apply map_ext. intros c. unfold lower_char at 2 3.
  destruct (upper c) eqn:E; unfold lower_char; [|by rewrite E].
  replace (upper (c + 32)) with false; [done |]. symmetry. unfold upper, in_range in *.
  apply not_true_iff_false. intros E'. split_bools. rewrite ?N.leb_le in *. cbn in *. lia.
Qed.

Lemma lower_text_nil s : lower_text s = [] -> s = [].
Proof. by destruct s. Qed.

(** ** Rates *)

Section Facts.
Context {S : Type} `{!Network S} (live : GitHubLiveClient).

Definition above (st : S * list Z) : Prop :=
  Forall (fun r => live.(lc_minimum_rate_limit_remaining) <= r) st.2.

Lemma safe_through {A} (m : M S A) : safe above (through m).
Proof.
  intros [s l] a [s' l'] H E. unfold through in E. destruct (m s). by simplify_eq.
Qed.

Lemma safe_observe r : safe above (observe live r).
Proof.
  intros [s l] a s' H E. unfold observe in E.
  destruct (r <? lc_minimum_rate_limit_remaining live) eqn:Er; [done |]. simplify_eq.
  unfold above in *. cbn [snd] in *. apply Forall_app. split; [done |]. constructor; [lia | done].
Qed.

Hint Resolve safe_through safe_observe : safe.

Lemma safe_rest_rate hs : safe above (record_rest_rate live hs).
Proof. unfold record_rest_rate. keep_safe. Qed.
Hint Resolve safe_rest_rate : safe.

Lemma safe_graphql q vs : safe above (live_graphql live q vs).
Proof. unfold live_graphql, record_graphql_rate. keep_safe. Qed.
Hint Resolve safe_graphql : safe.

Lemma safe_each {A} (item : value -> M (S * list Z) A) nodes :
  (forall v, safe above (item v)) -> safe above (each item nodes).
Proof. intros Hi. induction nodes; simpl; keep_safe. Qed.

Lemma safe_pages {A} w fetch first (item : value -> M (S * list Z) A) fuel :
  (forall c, safe above (fetch c)) -> (forall v, safe above (item v)) ->
  forall cursor seen expected acc,
    safe above (pages w fetch first item fuel cursor seen expected acc).
Proof.
  intros Hf Hi. induction fuel; intros; simpl; keep_safe. by apply safe_each.
Qed.

Lemma safe_identity n : safe above (fetch_identity live n).
Proof. unfold fetch_identity. keep_safe. Qed.

Lemma safe_pr_page n q k f c : safe above (pr_page live n q k f c).
Proof. unfold pr_page. keep_safe. Qed.

Lemma safe_files n k : safe above (fetch_files live n k).
Proof.
  unfold fetch_files. keep_safe. apply safe_pages; intros; [apply safe_pr_page | keep_safe].
Qed.

Lemma safe_checks sha : safe above (fetch_checks live sha).
Proof.
  unfold fetch_checks. keep_safe. apply safe_pages; intros; [unfold checks_page |]; keep_safe.
Qed.

Lemma safe_comment_pages id total fuel :
  forall p seen urls, safe above (comment_pages live id total fuel p seen urls).
Proof. induction fuel; intros; simpl; unfold comments_page; keep_safe. Qed.
Hint Resolve safe_comment_pages : safe.

Lemma safe_threads n : safe above (fetch_threads live n).
Proof.
  unfold fetch_threads. keep_safe. apply safe_pages; intros; [apply safe_pr_page |].
  unfold read_thread, thread_comments. keep_safe.
Qed.

Lemma safe_evidence n u : safe above (fetch_evidence_comment live n u).
Proof. unfold fetch_evidence_comment. keep_safe. Qed.

(** ** Walks *)

Lemma each_inv {A} (P : A -> Prop) (item : value -> M (S * list Z) A) nodes s l s' :
  (forall v s a s', item v s = (Ok a, s') -> P a) -> each item nodes s = (Ok l, s') -> Forall P l.
Proof.
  intros Hi. revert s l. induction nodes as [|v nodes IH]; simpl; intros s l H; run_inv; [done |].
  constructor; [by eapply Hi | by eapply IH].
Qed.

(** The total of a walk is the one its first page was checked with. *)
Lemma pages_inv {A} (P : A -> Prop) w fetch first (item : value -> M (S * list Z) A) fuel :
  (forall v s a s', item v s = (Ok a, s') -> P a) ->
  forall cursor seen expected acc s total l s',
    Forall P acc -> (forall t, expected = Some t -> first t = Ok tt) ->
    pages w fetch first item fuel cursor seen expected acc s = (Ok (Some (total, l)), s') ->
    Forall P l /\ first total = Ok tt.
Proof.
  intros Hi. induction fuel as [|fuel IH]; intros cursor seen expected acc s total l s' Ha He H;
    cbn [pages] in H; [done |].
  apply bind_inv in H as (found & s1 & _ & H). destruct found as [p|]; [|done].
  apply bind_inv in H as (u & s2 & H1 & H). apply lift_inv in H1 as [H1 ->].
  apply bind_inv in H as (items & s3 & H2 & H).
  assert (Ht : first p.(pg_total) = Ok tt).
  { unfold expect_total in H1. destruct expected as [t|].
    - destruct (pg_total p =? t) eqn:Et; [|done]. apply Z.eqb_eq in Et. rewrite Et. by apply He.
    - by destruct u. }
  assert (Forall P (acc ++ items)) by (apply Forall_app; split; [done | by eapply each_inv]).
  destruct (negb (pg_has_next p)); [by unfold ret in H; simplify_eq |].
  apply bind_inv in H as (next & s4 & _ & H).
  eapply IH; [| |exact H]; [done |]. by intros t [= <-].
Qed.

(** A walk that starts at the first page. *)
Lemma walk_inv {A} (P : A -> Prop) w fetch first (item : value -> M (S * list Z) A) s found s' m l :
  (forall v s a s', item v s = (Ok a, s') -> P a) ->
  pages w fetch first item MAX_CONNECTION_PAGES None [] None [] s = (Ok found, s') ->
  complete found m = Ok l -> Forall P l /\ first (zlen l) = Ok tt.
Proof.
  intros Hi H Hc. destruct found as [[total l']|]; [|done]. cbn [complete] in Hc.
  destruct (zlen l' =? total) eqn:E; [|done]. apply Z.eqb_eq in E. simpl in Hc. simplify_eq.
  by eapply (pages_inv P); [| | |exact H].
Qed.

Lemma distinct_inv l m u : distinct l m = Ok u -> NoDup l.
Proof. unfold distinct. by case_bool_decide. Qed.

Lemma at_most_inv limit m total u : at_most limit m total = Ok u -> total <= limit.
Proof. unfold at_most. destruct (limit <? total) eqn:E; [done |]. lia. Qed.

(** ** The parts of a snapshot *)

Lemma read_identity_inv n data i : read_identity live n data = Ok i -> identity_ok live n i.
Proof.
  unfold read_identity, flag. intros H. inv_ok H.
  repeat match goal with H : text _ _ = Ok _ |- _ => apply text_inv in H as [_ ?] end.
  inv_ok E5.
  constructor; cbn; [done | rewrite !Forall_cons; split_and!; try done | apply lower_text_idem | lia].
  by intros ?%lower_text_nil.
Qed.

Lemma fetch_identity_inv n s i s' :
  fetch_identity live n s = (Ok i, s') -> identity_ok live n i.
Proof. unfold fetch_identity. intros H. run_inv. by eapply read_identity_inv. Qed.

Lemma fetch_files_inv n k s l s' :
  fetch_files live n k s = (Ok l, s') ->
  NoDup l /\ Forall (fun p => p <> []) l /\ zlen l = k.
Proof.
  unfold fetch_files. intros H. run_inv.
  match goal with H : distinct _ _ = _ |- _ => apply distinct_inv in H end.
  match goal with Hp : pages _ _ _ _ _ _ _ _ _ _ = _, Hc : complete _ _ = _ |- _ =>
    eapply (walk_inv (fun p : pystr => p <> [])) in Hp as [Hl Hf]; [| |exact Hc] end.
  - split_and!; [done.. |]. unfold first_files in Hf.
    destruct (zlen l =? k) eqn:E; [|done]. lia.
  - intros v st path st' [Hp _]%lift_inv. unfold file_path in Hp.
    destruct (object v _); [|done]. by apply text_inv in Hp as [_ ?].
Qed.

Lemma read_context_inv v d : read_context v = Ok d -> check_shape d.
Proof.
  unfold read_context. destruct (object v _) as [item|]; [|done]. intros H.
  destruct (py_eq _ (vstr "CheckRun")).
  - destruct (text (get item "name") _) as [name|] eqn:En; [|done].
    destruct (text (get item "status") _) as [st|]; [|done].
    apply text_inv in En as [_ ?].
    assert (Hc : forall c, match get item "conclusion" with
      | VNone => Ok VNone
      | v => let* c := text_allow_empty v "check-run conclusion" in Ok (VStr (upper_text c))
      end%py = Ok c -> c = VNone \/ exists t, c = VStr t).
    { intros c. destruct (get item "conclusion"); simpl; intros; simplify_eq; eauto. }
    destruct (match get item "conclusion" with VNone => _ | _ => _ end) as [c|]; [|done].
    apply Ok_inj in H as <-. do 5 eexists. split_and!; [reflexivity | done |]. left. auto.
  - destruct (py_eq _ _); [|done].
    destruct (text (get item "context") _) as [name|] eqn:En; [|done].
    destruct (text (get item "state") _) as [st|]; [|done].
    apply text_inv in En as [_ ?].
    apply Ok_inj in H as <-. do 5 eexists. split_and!; [reflexivity | done |]. by right.
Qed.

Lemma fetch_checks_inv sha s l s' :
  fetch_checks live sha s = (Ok l, s') ->
  Forall check_shape l /\ zlen l <= MAX_STATUS_CONTEXTS.
Proof.
  unfold fetch_checks. intros H. apply bind_inv in H as (found & s1 & Hp & H).
  destruct found as [tl|]; [|by run_inv].
  apply lift_inv in H as [Hc ->].
  eapply (walk_inv check_shape) in Hp as [Hl Hf]; [| |exact Hc].
  - split; [done |]. by apply at_most_inv in Hf.
  - intros v st d st' [Hd _]%lift_inv. by eapply read_context_inv.
Qed.

Lemma comment_urls nodes l : res_map comment_url nodes = Ok l -> Forall (fun u => u <> []) l.
Proof.
  intros H. apply res_map_inv in H. induction H as [|v u nodes l Hu _ IH]; constructor; [|done].
  unfold comment_url in Hu. destruct (object v _); [|done]. by apply text_inv in Hu as [_ ?].
Qed.

Lemma comment_pages_inv id total fuel :
  forall p seen urls s l s', Forall (fun u => u <> []) urls ->
    comment_pages live id total fuel p seen urls s = (Ok l, s') -> Forall (fun u => u <> []) l.
Proof.
  induction fuel as [|fuel IH]; intros p seen urls s l s' Hu H; cbn [comment_pages] in H;
    (destruct (negb (pg_has_next p)); [unfold ret in H; by simplify_eq |]); [done |].
  do 4 (apply bind_inv in H as (? & ? & ? & H)). run_inv. eapply IH; [|exact H].
  apply Forall_app. split; [done |]. by eapply comment_urls.
Qed.

Lemma read_thread_inv v s t s' : read_thread live v s = (Ok t, s') -> thread_ok t.
Proof.
  unfold read_thread, thread_comments. intros H. run_inv.
  match goal with H : text _ _ = Ok _ |- _ => apply text_inv in H as [_ ?] end.
  match goal with H : distinct _ _ = _ |- _ => apply distinct_inv in H end.
  match goal with H : at_most _ _ _ = _ |- _ => apply at_most_inv in H end.
  match goal with H : comment_pages _ _ _ _ _ _ _ _ = _ |- _ =>
    apply comment_pages_inv in H; [|by eapply comment_urls] end.
  match goal with H : complete _ _ = _ |- _ => cbn [complete] in H; inv_ok H end.
  unfold thread_ok. cbn. split_and!; try done. lia.
Qed.

Lemma fetch_threads_inv n s l s' :
  fetch_threads live n s = (Ok l, s') ->
  NoDup (map th_id l) /\ Forall thread_ok l /\ zlen l <= MAX_REVIEW_THREADS.
Proof.
  unfold fetch_threads. intros H. run_inv.
  match goal with H : distinct _ _ = _ |- _ => apply distinct_inv in H end.
  match goal with Hp : pages _ _ _ _ _ _ _ _ _ _ = _, Hc : complete _ _ = _ |- _ =>
    eapply (walk_inv thread_ok) in Hp as [Hl Hf]; [| |exact Hc] end.
  - split_and!; [done.. |]. by apply at_most_inv in Hf.
  - intros v st t st' Ht. by eapply read_thread_inv.
Qed.

Lemma fetch_evidence_inv n v s d s' :
  fetch_evidence_comment live n v s = (Ok d, s') ->
  exists url, v = VStr url /\ comment_shape n live.(lc_repository) url d.
Proof.
  unfold fetch_evidence_comment. intros H. apply bind_inv in H as ([url id] & s1 & Hb & H).
  apply lift_inv in Hb as [Hb ->]. apply bind_inv in H as ([data hs] & s2 & _ & H).
  apply bind_inv in H as (? & s3 & _ & H). apply lift_inv in H as [H ->].
  unfold bound_comment in Hb. destruct v as [| | | |u| |]; try done.
  destruct (evidence_groups u) as [[[repo pr] comment]|] eqn:Eg; [|done].
  inv_ok Hb. unfold read_comment in H. inv_ok H.
  exists url. split; [done |].
  repeat match goal with H : text _ _ = Ok _ |- _ => apply text_inv in H as [_ ?] end.
  do 6 eexists. split_and!; try done. by match goal with H : (_ =? n) = true |- _ =>
    apply Z.eqb_eq in H; subst n end.
Qed.

Lemma least_above l m :
  least l = Some m -> Forall (fun r => live.(lc_minimum_rate_limit_remaining) <= r) l ->
  live.(lc_minimum_rate_limit_remaining) <= m.
Proof.
  destruct l as [|r l]; [done |]. cbn [least]. intros [= <-] [Hr Hl]%Forall_cons.
  revert r Hr. induction Hl as [|x l Hx _ IH]; intros r Hr; simpl; [done |]. apply IH. lia.
Qed.

End Facts.

(** ** A recorded session *)

#[local] Instance demo_network : Network (list value) := {
  exchange _ _ _ _ answers := match answers with
    | [] => (None, [])
    | v :: rest =>
        (Some (200, [(str "X-RateLimit-Remaining", str "4000")], utf8 (dumps v)), rest)
    end;
  sign_rs256 _ answers := (Ok [], answers) }.

Definition demo_live : GitHubLiveClient :=
  {| lc_token := str "token"; lc_repository := str "octo/repo"; lc_repository_id := 5;
     lc_owner := str "octo"; lc_name := str "repo"; lc_minimum_rate_limit_remaining := 100;
     lc_maximum_changed_files := 10 |}.

Definition demo_data (fs : list (string * value)) : value :=
  obj [("data", obj (fs ++ [("rateLimit", obj [("remaining", VInt 4321)])]))].

Definition demo_page (nodes : list value) : value :=
  obj [("totalCount", VInt (zlen nodes)); ("nodes", VList nodes);
       ("pageInfo", obj [("hasNextPage", VBool false); ("endCursor", VNone)])].

Definition demo_repository : list (string * value) :=
  [("databaseId", VInt 5); ("nameWithOwner", vstr "octo/repo")].

Definition demo_identity : value :=
  demo_data [("repository", obj (demo_repository ++ [("pullRequest", obj
    [("id", vstr "PR_7"); ("number", VInt 7);
     ("url", vstr "https://github.com/octo/repo/pull/7"); ("state", vstr "OPEN");
     ("isDraft", VBool true); ("headRefOid", vstr "0123456789ABCDEF0123456789abcdef01234567");
     ("baseRefName", vstr "main"); ("changedFiles", VInt 2);
     ("author", obj [("login", vstr "lomein[bot]")]);
     ("headRepository", obj demo_repository); ("baseRepository", obj demo_repository)])]))].

Definition demo_url : value := vstr "https://github.com/octo/repo/pull/7#issuecomment-12".

Definition demo_answers : list value :=
  [demo_identity;
   demo_data [("repository", obj [("pullRequest", obj [("files", demo_page
     [obj [("path", vstr "src/main.py")]; obj [("path", vstr "docs/notes.md")]])])])];
   demo_data [("repository", obj [("object", obj
     [("oid", vstr "0123456789abcdef0123456789abcdef01234567");
      ("statusCheckRollup", obj [("contexts", demo_page
        [obj [("__typename", vstr "CheckRun"); ("name", vstr "ci");
              ("status", vstr "COMPLETED"); ("conclusion", vstr "success");
              ("app", obj [("slug", vstr "actions")])]])])])])];
   obj [("id", VInt 12); ("html_url", demo_url); ("user", obj [("login", vstr "lomein[bot]")]);
        ("body", vstr "verified"); ("created_at", vstr "2026-01-01T00:00:00Z")];
   demo_data [("repository", obj [("pullRequest", obj [("reviewThreads", demo_page
     [obj [("id", vstr "T_1"); ("isResolved", VBool false); ("isOutdated", VBool true);
           ("comments", demo_page [obj [("url",
             vstr "https://github.com/octo/repo/pull/7#discussion_r3")]])]])])])];
   demo_identity].

Definition returned {A B} (r : res A * B) : bool := is_ok r.1.

Lemma returned_inv {A B} (r : res A * B) : returned r = true -> exists a b, r = (Ok a, b).
Proof. destruct r as [[a|e] b]; [eauto | done]. Qed.

Example demo_session_returns :
  exists snapshot rest, fetch_snapshot demo_live (VInt 7) demo_url demo_answers = (Ok snapshot, rest).
Proof. apply returned_inv. vm_compute. reflexivity. Qed.

