(* ===== verification/StoreFrames.v ===== *)
(** * What the store leaves to its caller

    Consequences of the store's operations in the form the service needs: the
    receipt a packet has after an operation that answered, the packets that
    have a charged attempt, and the rows an operation leaves alone. *)

From S2P Require Import Prelude Regex Sha256 PyTime Json JsonFacts Packet PacketFacts Tables Store StoreSteps StoreInv StoreSafety StoreReplay Effects.
Local Open Scope Z_scope.

(** ** Equality of a mapping with its sorted form *)

Lemma py_eq_dict_intro d e :
  length d = length e ->
  (forall k x, (k, x) ∈ d -> exists y, dget k e = Some y /\ py_eq x y = true) ->
  py_eq (VDict d) (VDict e) = true.
Proof.
  intros Hl H. simpl. rewrite Hl, Nat.eqb_refl. simpl. clear Hl.
  induction d as [|[k x] d IH]; [done |].
  destruct (H k x ltac:(by left)) as (y & -> & ->). simpl. apply IH. intros k' x' Hk'. apply H. by right.
Qed.

Lemma py_eq_canon v : wf v -> py_eq (canon v) v = true.
Proof.
  induction v as [|b|z|t|s|l IH|d IH] using value_nested_ind; intros Hw;
    try (by apply py_eq_refl); inversion Hw; subst.
  - simpl. match goal with H : Forall wf l |- _ => rename H into Hl end. clear Hw.
    induction IH as [|x l Hx _ IHl]; [done |]. apply Forall_cons in Hl as [Hwx Hwl].
    simpl. rewrite (Hx Hwx). by apply IHl.
  - rewrite canon_dict. apply py_eq_dict_intro.
    + rewrite (Permutation_length (ksort_perm _)). by rewrite length_map.
    + intros k x Hin. rewrite ksort_perm in Hin.
      apply list_elem_of_fmap in Hin as ([k' y] & [= -> ->] & Hin).
      exists y. split; [by apply dget_elem |].
      rewrite Forall_forall in IH. apply (IH (k', y)); [done |].
      match goal with H : Forall (fun kv => wf kv.2) d |- _ => rewrite Forall_forall in H;
        by apply (H (k', y)) end.
Qed.

(** ** Receipts *)

Lemma receipt_for_packet_ok d pid r :
  Inv d -> fullmatch PACKET_ID_RE pid = true -> select_receipt pid d = Some r ->
  exists v, decode_canonical_json r.(r_receipt_json) "broker receipt" = Ok v /\
    receipt_for_packet pid d = Ok (Some v).
Proof.
  intros Hi Hp Hs. destruct (load_receipt_ok d pid r Hi Hs) as (v & Hv & Hl).
  exists v. split; [done |]. unfold receipt_for_packet. rewrite Hp, Hl. done.
Qed.

(** A receipt never changes. *)
Lemma receipt_for_packet_later ops d pid v :
  Inv d -> Forall (op_ok any_limits) ops -> receipt_for_packet pid d = Ok (Some v) ->
  receipt_for_packet pid (run_all ops d) = Ok (Some v).
Proof.
  intros Hi HF H. unfold receipt_for_packet in H. case_res H. case_res H.
  apply negb_false_iff in E. destruct a as [p|]; [|done]. injection H as <-.
  unfold load_packet_receipt in E0. destruct (select_receipt pid d) as [r|] eqn:Es; [|done].
  simpl in E0. case_res E0. injection E0 as ->.
  destruct (ledger_run_all ops d HF) as (Hpre & _).
  assert (Hi' : Inv (run_all ops d)) by (by eapply Inv_run_all).
  destruct (receipt_for_packet_ok _ _ _ Hi' E (select_receipt_prefix _ _ _ _ Hpre Es)) as (v & Hv & ->).
  unfold decode_receipt_row in E1. rewrite Hv in E1. case_res E1. injection E1 as <-. done.
Qed.

Lemma load_packet_later ops d pid packet :
  Inv d -> Forall (op_ok any_limits) ops -> load_packet pid d = Ok packet ->
  load_packet pid (run_all ops d) = Ok packet.
Proof.
  intros Hi HF H. destruct (ledger_run_all ops d HF) as (_ & _ & Hsub).
  unfold load_packet in *. destruct (fullmatch PACKET_ID_RE pid); [|done]. cbn [negb] in *.
  destruct (packets d !! pid) as [row|] eqn:E; [|done].
  by rewrite (lookup_weaken _ _ _ _ E Hsub).
Qed.

(** The receipt row an insertion leaves. *)
Lemma inserted_receipt d d' r :
  receipts d' = receipts d ++ [r] -> select_receipt r.(r_packet_id) d = None ->
  select_receipt r.(r_packet_id) d' = Some r.
Proof.
  unfold select_receipt. intros ->. induction (receipts d) as [|q l IH]; simpl.
  - by rewrite bool_decide_true.
  - by case_bool_decide.
Qed.

(** Whatever [terminalize] answers is the packet's durable receipt. *)
Lemma terminalize_answer k pid att state receipt limits now d t d' :
  Inv d -> terminalize k pid att state receipt limits now d = (Ok t, d') ->
  receipt_for_packet pid d' = Ok (Some t.(trm_receipt)).
Proof.
  intros Hi H.
  assert (Hi' : Inv d').
  { pose proof (Inv_run any_limits (Terminal k pid att state receipt limits now) d I Hi) as Hr.
    cbn in Hr. by rewrite H in Hr. }
  destruct (decide (t.(trm_disposition) = terminalized)) as [Ht|Ht].
  - destruct (terminalized_inv _ _ _ _ _ _ _ _ _ _ H Ht)
      as (Hk & _ & e & json & value & Hc & _ & _ & _ & _ & -> & Hsel & Hrec).
    apply record_terminal_circuit_frame in Hrec as (_ & _ & _ & Hre & _).
    apply (inserted_receipt d d' (receipt_of _ _ _ _ _ _)) in Hre; [|done].
    unfold check_keys in Hk. case_res Hk. case_res Hk. apply negb_false_iff in E0.
    destruct (receipt_for_packet_ok _ _ _ Hi' E0 Hre) as (v & Hv & ->).
    apply canonical_copy_inv in Hc as [_ Hd]. cbn in Hv. rewrite Hv in Hd. by injection Hd as ->.
  - unfold terminalize in H.
    match type of H with match ?x with _ => _ end = _ => destruct x eqn:Hk; [|done] end.
    destruct a as [json value]. case_res Hk. clear Hk.
    match type of H with immediate ?b d = _ =>
      destruct (immediate_spec b d) as [(r0 & d0 & Hb & Hm)|(x & _ & Hm)]; rewrite Hm in H; [|done] end.
    injection H as -> ->. unfold terminalize_body in Hb. case_res Hb. case_res Hb.
    2: { do 4 case_res Hb. case_res Hb. injection Hb as <- <-. by destruct Ht. }
    case_res Hb. injection Hb as -> ->. unfold replay_terminal in E2.
    case_res E2. case_res E2. case_res E2. injection E2 as <-. cbn.
    unfold check_keys in E. case_res E. case_res E. unfold receipt_for_packet.
    match goal with H : load_packet_receipt _ _ = Ok _ |- _ => rewrite H end.
    match goal with H : negb (fullmatch PACKET_ID_RE pid) = false |- _ => by rewrite H end.
Qed.

(** Whatever [record_packet_receipt] answers is the packet's durable receipt. *)
Lemma packet_receipt_answer pid state receipt k now d t d' :
  Inv d -> record_packet_receipt pid state receipt k now d = (Ok t, d') ->
  receipt_for_packet pid d' = Ok (Some t.(trm_receipt)).
Proof.
  intros Hi H.
  assert (Hi' : Inv d').
  { pose proof (Inv_run any_limits (PacketReceipt pid state receipt k now) d I Hi) as Hr.
    cbn in Hr. by rewrite H in Hr. }
  unfold record_packet_receipt in H.
  match type of H with match ?x with _ => _ end = _ => destruct x eqn:Hk; [|done] end.
  destruct a as [json value]. case_res Hk. unfold check_packet_receipt in E. case_res E. clear E.
  match type of H with immediate ?b d = _ =>
    destruct (immediate_spec b d) as [(r0 & d0 & Hb & Hm)|(x & _ & Hm)]; rewrite Hm in H; [|done] end.
  injection H as -> ->. unfold packet_receipt_body in Hb. case_res Hb. case_res Hb. case_res Hb.
  - case_res Hb. injection Hb as -> ->. unfold replay_packet_receipt in *.
    match goal with H : (if _ then Raise _ else _) = Ok t |- _ => case_res H; injection H as <- end.
    unfold receipt_for_packet. rewrite E0.
    match goal with H : load_packet_receipt _ _ = Ok _ |- _ => by rewrite H end.
  - do 3 case_res Hb. injection Hb as <- <-. cbn.
    match goal with H : load_packet_receipt _ _ = Ok _ |- _ => apply load_none in H; rename H into Hn end.
    match goal with H : reraise _ _ _ = Ok _ |- _ => apply reraise_inv in H;
      apply insert_receipt_inv in H as (_ & _ & _ & _ & ->) end.
    match goal with H : reconcile_pending _ _ _ _ _ = Ok ?x |- _ => rename H into Hrp, x into d' end.
    assert (Hre : receipts d' = receipts d ++ [receipt_of (sha256_text json) k pid state json now]).
    { unfold reconcile_pending in Hrp. repeat case_res Hrp; simplify_eq; try done.
      apply record_terminal_circuit_frame in Hrp as (_ & _ & _ & -> & _).
      match goal with H : update_effect _ _ _ = Ok _ |- _ =>
        unfold update_effect in H; by inv_ok H end. }
    apply inserted_receipt in Hre; [|done]. apply negb_false_iff in E0.
    destruct (receipt_for_packet_ok _ _ _ Hi' E0 Hre) as (v & Hv & ->).
    apply canonical_copy_inv in Hk as [_ Hd]. cbn in Hv. rewrite Hv in Hd. by injection Hd as ->.
Qed.

(** ** Accepted packets *)

(** A packet the store accepts is read back equal to what was submitted. *)
Lemma reserved_packet packet limits thread now d r d' :
  Inv d -> wf (VDict packet) -> reserve packet limits thread now d = (Ok r, d') ->
  exists packet', load_packet r.(rsv_packet_id) d' = Ok packet' /\
    py_eq (VDict packet') (VDict packet) = true.
Proof.
  intros Hi Hw H.
  assert (Hi' : Inv d').
  { pose proof (Inv_run any_limits (Reserve packet limits thread now) d (conj I Hw) Hi) as Hr.
    cbn in Hr. by rewrite H in Hr. }
  destruct (reserve_inv _ _ _ _ _ _ _ H) as (id & k & sel & sj & d1 & b & e & Hid & _ & Ha & He & _ & _ & ->).
  destruct (accept_packet_row _ _ _ _ _ Ha) as (p & Hp & Hj).
  rewrite <- (ensure_effect_packets _ _ _ _ _ _ _ _ He) in Hp.
  pose proof (is_json _ _ _ (identity_inv _ _ _ Hid)) as Hjson.
  pose proof (inv_packets _ Hi' _ _ Hp) as Hrow.
  destruct (load_packet_accepted _ _ _ Hp Hrow) as (packet' & Hl & Hj').
  exists packet'. split; [done |].
  destruct Hrow as (packet0 & now0 & id0 & Hw0 & Hid0 & Ek & Ep).
  assert (Hd : decode_canonical_json p.(p_packet_json) "protected-action packet" = Ok packet').
  { unfold load_packet in Hl. case_res Hl. rewrite Hp in Hl. case_res Hl. do 2 case_res Hl. by injection Hl as ->. }
  rewrite Hj in Hd, Hj'.
  destruct (decode_encode packet _ "protected-action packet" Hw Hjson) as (c & Hc & Hd').
  rewrite Hd in Hd'. injection Hd' as <-. rewrite <- Hc. by apply py_eq_canon.
Qed.

(** The effect a reservation names is there. *)
Lemma reserved_known packet limits thread now d r d' :
  reserve packet limits thread now d = (Ok r, d') ->
  exists id, packet_identity packet now = Ok id /\ r.(rsv_packet_id) = id.(id_packet_id).
Proof.
  intros H. destruct (reserve_inv _ _ _ _ _ _ _ H) as (id & k & sel & sj & d1 & b & e & Hid & _ & _ & _ & _ & _ & E).
  by exists id.
Qed.

(** A reservation that replays a receipt answers the packet's. *)
Lemma reserve_replay packet limits thread now d r d' :
  reserve packet limits thread now d = (Ok r, d') -> r.(rsv_disposition) = receipt_replay ->
  exists p, load_packet_receipt r.(rsv_packet_id) d' = Ok (Some p) /\ r.(rsv_receipt) = Some p.(ps_value).
Proof.
  intros H Hr. destruct (reserve_inv _ _ _ _ _ _ _ H) as (id & k & sel & sj & d1 & b & e & _ & _ & _ & _ & _ & Hf & ->).
  unfold reservation_from_effect in Hf. case_res Hf.
  case_res Hf; [by injection Hf as <-; eexists |].
  repeat case_res Hf; injection Hf as <-; try done. by destruct b.
Qed.

(** ** Charged attempts *)

(** [packet_id] has a charged attempt on the effect [k]. *)
Definition attempting (d : db) (k packet_id : pystr) : Prop :=
  exists e, effects d !! k = Some e /\ e.(e_active_attempt_packet_id) = Some packet_id.

(** No packet gets a charged attempt. *)
Definition no_new_attempt (d d' : db) : Prop := forall k pid, attempting d' k pid -> attempting d k pid.

#[export] Instance no_new_attempt_preorder : PreOrder no_new_attempt.
Proof. split; [by intros d k pid | intros d1 d2 d3 H1 H2 k pid H; auto]. Qed.

Lemma no_new_attempt_set d d' k e e' :
  effects d !! k = Some e -> effects d' = <[k := e']> (effects d) ->
  (e'.(e_active_attempt_packet_id) = None \/
   e'.(e_active_attempt_packet_id) = e.(e_active_attempt_packet_id)) ->
  no_new_attempt d d'.
Proof.
  intros He Hd Ha k' pid (x & Hx & Hp). rewrite Hd in Hx.
  destruct (decide (k = k')) as [<-|Hk].
  - rewrite lookup_insert_eq in Hx. injection Hx as <-. exists e. split; [done |].
    destruct Ha; congruence.
  - rewrite lookup_insert_ne in Hx by done. by exists x.
Qed.

Lemma not_attempting d k e' : effects d !! k = Some e' -> e'.(e_active_attempt_packet_id) = None ->
  forall pid, ~ attempting d k pid.
Proof. intros H Hn pid (x & Hx & Hp). congruence. Qed.

Lemma row_idle k e : row_ok k e -> e.(e_active_attempt_key) = None ->
  e.(e_active_attempt_packet_id) = None.
Proof.
  intros Hrow Hn. pose proof (row_check _ _ Hrow) as Hc.
  unfold effect_check, effect_attempt_check in Hc. split_bools.
  destruct (e_active_attempt_packet_id e); [|done]. rewrite Hn in *. simpl in *.
  by destruct (e_state e), (e_active_precondition_digest e), (e_active_attempt_started_at e).
Qed.

(** [terminalize] ends the attempt of its effect and starts none. *)
Lemma terminalize_attempts k pid att state receipt limits now d :
  Inv d ->
  let '(r, d') := terminalize k pid att state receipt limits now d in
  no_new_attempt d d' /\ (is_ok r = true -> forall p, ~ attempting d' k p).
Proof.
  intros Hi. unfold terminalize.
  match goal with |- let '(_, _) := match ?x with _ => _ end in _ => destruct x as [[json value]|?] eqn:Hk; [|done] end.
  match goal with |- let '(_, _) := immediate ?b d in _ =>
    destruct (immediate_spec b d) as [(t & d' & Hb & ->)|(x & _ & ->)]; [|done] end.
  unfold terminalize_body in Hb. case_res Hb. case_res Hb.
  - case_res Hb. injection Hb as -> ->. split; [done |]. intros _.
    destruct (inv_effects _ Hi _ _ E) as [Hrow _]. eapply not_attempting; [exact E |].
    apply (row_idle k); [done |]. apply (row_terminal _ _ Hrow). by intros Hp; rewrite Hp in E0.
  - do 4 case_res Hb. case_res Hb. injection Hb as <- ->.
    match goal with H : insert_receipt _ _ = Ok _ |- _ => apply insert_receipt_inv in H as (_ & _ & _ & _ & ->) end.
    inv_update E.
    match goal with H : record_terminal_circuit _ _ _ _ _ = Ok _ |- _ =>
      apply record_terminal_circuit_frame in H as (_ & Hef & _ & _ & _) end.
    cbn in Hef. split.
    + eapply no_new_attempt_set; [exact E | exact Hef | by left].
    + intros _. eapply not_attempting; [rewrite Hef; apply lookup_insert_eq | done].
Qed.

(** [reconcile_absent] too. *)
Lemma absent_attempts k pid att evidence now d :
  let '(r, d') := reconcile_absent k pid att evidence now d in
  no_new_attempt d d' /\ (is_ok r = true -> Inv d -> forall p, ~ attempting d' k p).
Proof.
  unfold reconcile_absent.
  match goal with |- let '(_, _) := match ?x with _ => _ end in _ => destruct x as [[json copy]|?] eqn:Hk; [|done] end.
  match goal with |- let '(_, _) := immediate ?b d in _ =>
    destruct (immediate_spec b d) as [(t & d' & Hb & ->)|(x & _ & ->)]; [|done] end.
  unfold absent_body in Hb. case_res Hb. case_res Hb. case_res Hb.
  - do 4 case_res Hb. injection Hb as <- <-. inv_update E. split.
    + eapply no_new_attempt_set; [exact E | done | by left].
    + intros _ _. eapply not_attempting; [cbn; apply lookup_insert_eq | done].
  - case_res Hb. injection Hb as -> <-. split; [done |]. intros _ Hi.
    destruct (inv_effects _ Hi _ _ E) as [Hrow _]. eapply not_attempting; [exact E |].
    apply (row_idle k); [done |]. by apply is_some_false.
Qed.

(** [reserve] starts no attempt. *)
Lemma reserve_attempts packet limits thread now d :
  no_new_attempt d (reserve packet limits thread now d).2.
Proof.
  destruct (reserve packet limits thread now d) as [r d'] eqn:E. cbn.
  destruct r as [r|x].
  - destruct (reserve_inv _ _ _ _ _ _ _ E) as (id & k & sel & sj & d1 & b & e & _ & _ & Ha & He & _).
    assert (Hd1 : effects d1 = effects d).
    { unfold accept_packet in Ha. case_res Ha.
      - case_res Ha. by injection Ha as <-.
      - do 3 case_res Ha. apply request_budget_inv in Ha as (_ & det & Hev).
        apply insert_event_inv in Hev as (_ & _ & _ & _ & ->).
        match goal with H : insert_packet _ _ _ = Ok _ |- _ => by apply insert_packet_inv in H as (_ & _ & _ & ->) end. }
    unfold ensure_effect in He. case_res He.
    + do 3 case_res He. injection He as <- <-. inv_update E0.
      eapply no_new_attempt_set; [rewrite <- Hd1; exact E0 | cbn; by rewrite Hd1 | by right].
    + do 2 case_res He. injection He as <- <-.
      match goal with H : insert_effect _ _ = Ok _ |- _ => apply insert_effect_inv in H as (_ & Hn & _ & ->) end.
      intros k' pid (y & Hy & Hp). cbn in Hy. rewrite Hd1 in Hy. cbn in Hn.
      destruct (decide (k = k')) as [<-|Hk].
      * rewrite lookup_insert_eq in Hy. injection Hy as <-. done.
      * rewrite lookup_insert_ne in Hy by done. by exists y.
  - unfold reserve in E. case_match; [|by injection E as _ <-]. destruct a as [id [[k sel] sj]].
    match type of E with immediate ?b d = _ =>
      destruct (immediate_spec b d) as [(r0 & d0 & _ & Hm)|(y & _ & Hm)]; rewrite Hm in E; [done |] end.
    by injection E as _ <-.
Qed.

(** ** Charges *)

(** The answers of [begin_mutation] after which the caller goes on. *)
Definition goes_on (r : MutationReservation) : Prop :=
  r.(mrv_disposition) <> receipt_replay /\ r.(mrv_disposition) <> indeterminate /\
  r.(mrv_disposition) <> semantic_completed.

(** A packet without a charged attempt on the effect goes on only with a new
    charge. *)
Lemma begin_goes_on k pid att limits pre now d r d' :
  begin_mutation k pid att limits pre now d = (Ok r, d') -> goes_on r ->
  ~ attempting d k pid -> r.(mrv_disposition) = charged.
Proof.
  unfold begin_mutation. intros H (H1 & H2 & H3) Hn.
  match type of H with match ?x with _ => _ end = _ => destruct x eqn:Hk; [|done] end.
  match type of H with immediate ?b d = _ =>
    destruct (immediate_spec b d) as [(r0 & d0 & Hb & Hm)|(y & _ & Hm)]; rewrite Hm in H; [|done] end.
  injection H as -> ->. unfold begin_body in Hb. case_res Hb. case_res Hb. case_res Hb.
  { by injection Hb as <- <-. }
  case_res Hb.
  { case_res Hb. case_res Hb. injection Hb as <- <-. cbn in *. by case_bool_decide. }
  unfold begin_pending in Hb. case_res Hb. case_res Hb.
  { case_res Hb. unfold same_attempt in *. split_bools. destruct Hn. eexists. split; [done | done]. }
  unfold charge_attempt in Hb. do 5 case_res Hb. by injection Hb as <- <-.
Qed.

Lemma begin_replay k pid att limits pre now d r d' :
  begin_mutation k pid att limits pre now d = (Ok r, d') -> r.(mrv_disposition) = receipt_replay ->
  d' = d /\ exists p, load_packet_receipt pid d = Ok (Some p) /\ r.(mrv_receipt) = Some p.(ps_value).
Proof.
  unfold begin_mutation. intros H Hr.
  match type of H with match ?x with _ => _ end = _ => destruct x eqn:Hk; [|done] end.
  match type of H with immediate ?b d = _ =>
    destruct (immediate_spec b d) as [(r0 & d0 & Hb & Hm)|(y & _ & Hm)]; rewrite Hm in H; [|done] end.
  injection H as -> ->. unfold begin_body in Hb. case_res Hb. case_res Hb. case_res Hb.
  { injection Hb as <- <-. split; [done |]. eauto. }
  case_res Hb.
  { case_res Hb. case_res Hb. injection Hb as <- <-. cbn in *. by case_bool_decide. }
  unfold begin_pending in Hb. case_res Hb. case_res Hb.
  { do 2 case_res Hb. by injection Hb as <- <-. }
  unfold charge_attempt in Hb. do 5 case_res Hb. by injection Hb as <- <-.
Qed.

(** The attempt [att] of the packet [pid] is charged to the effect [k]. *)
Definition charged_to (d : db) (k pid att pre : pystr) : Prop :=
  exists e, effects d !! k = Some e /\ e.(e_state) = Pending /\
    e.(e_active_attempt_key) = Some att /\ e.(e_active_attempt_packet_id) = Some pid /\
    e.(e_active_precondition_digest) = Some pre.

Lemma begin_charges k pid att limits pre now d r d' :
  Inv d -> begin_mutation k pid att limits pre now d = (Ok r, d') -> r.(mrv_disposition) = charged ->
  charged_to d' k pid att pre /\
  (forall k', count (charge_of k') (budget_events d') =
     count (charge_of k') (budget_events d) + if decide (k' = k) then 1 else 0).
Proof.
  intros Hi H Hr.
  destruct (begin_charged_inv _ _ _ _ _ _ _ _ _ H Hr)
    as (_ & _ & e & id & det & He & _ & Hst & _ & _ & _ & ->).
  destruct (inv_effects _ Hi _ _ He) as [Hrow _]. split.
  - eexists. split; [cbn; apply lookup_insert_eq |]. cbn.
    split_and!; try done. apply effect_check_state; [apply Hrow | done].
  - intros k'. cbn. rewrite count_app, count_one. f_equal. unfold charge_of, mutation_event. cbn.
    rewrite (row_key _ _ Hrow). destruct (decide (k' = k)) as [->|Hk].
    + by rewrite !bool_decide_true.
    + by rewrite (bool_decide_false (Some k = Some k')) by congruence.
Qed.

(** A charged attempt is listed for recovery. *)
Lemma charged_is_listed d k pid att pre :
  Inv d -> charged_to d k pid att pre ->
  exists r, r ∈ pending_recovery d /\ r.(rec_effect_key) = k /\ r.(rec_packet_id) = pid /\
    r.(rec_attempt_key) = att /\ r.(rec_precondition_digest) = pre.
Proof.
  intros Hi (e & He & Hst & Ha & Hp & Hpre).
  assert (Hrow : is_some (recovery_row d e) = true).
  { apply (recovery_row_phase d k e Hi He). unfold phase_of. rewrite He, Hst, Ha. eauto. }
  destruct (recovery_row d e) as [[t r]|] eqn:E; [|done]. exists r.
  destruct (inv_effects _ Hi _ _ He) as [Hk _]. pose proof (row_key _ _ Hk) as Hkey.
  split.
  - unfold pending_recovery. rewrite (Permutation_map _ (recovery_perm _)).
    apply list_elem_of_fmap. exists (t, r). split; [done |].
    apply list_elem_of_omap. exists (k, e). split; [by apply elem_of_map_to_list | done].
  - unfold recovery_row in E. rewrite Hst, Ha, Hp, Hpre in E.
    destruct (e_active_attempt_started_at e); [|done]. destruct (packets d !! pid); [|done].
    by injection E as <- <-.
Qed.

(** An entry of the list is the charged attempt of its effect. *)
Lemma listed_is_charged d r :
  Inv d -> r ∈ pending_recovery d ->
  charged_to d r.(rec_effect_key) r.(rec_packet_id) r.(rec_attempt_key)
    r.(rec_precondition_digest).
Proof.
  intros Hi. unfold pending_recovery. rewrite (Permutation_map _ (recovery_perm _)).
  intros ([t r'] & -> & Hin)%list_elem_of_fmap.
  apply list_elem_of_omap in Hin as ([k e] & Hke & Hrow). cbn in *.
  apply elem_of_map_to_list in Hke. destruct (inv_effects _ Hi _ _ Hke) as [Hk _].
  pose proof (row_key _ _ Hk) as Hkey. unfold recovery_row in Hrow.
  destruct (e_state e) eqn:Es, (e_active_attempt_key e) eqn:Ea,
    (e_active_attempt_packet_id e) eqn:Ep, (e_active_precondition_digest e) eqn:Epre,
    (e_active_attempt_started_at e); try done.
  destruct (packets d !! _); [|done]. injection Hrow as <- <-. cbn. rewrite Hkey. by exists e.
Qed.

(** A packet with a charged attempt is listed. *)
Lemma attempting_listed d k pid :
  Inv d -> attempting d k pid ->
  exists r, r ∈ pending_recovery d /\ r.(rec_effect_key) = k /\ r.(rec_packet_id) = pid.
Proof.
  intros Hi (e & He & Hp). destruct (inv_effects _ Hi _ _ He) as [Hrow _].
  pose proof (row_check _ _ Hrow) as Hc. unfold effect_check, effect_attempt_check in Hc. split_bools.
  rewrite Hp in *. cbn in *.
  destruct (e_active_attempt_key e) as [att|] eqn:Ea; [|done].
  destruct (e_active_precondition_digest e) as [pre|] eqn:Epre; [|done].
  destruct (charged_is_listed d k pid att pre Hi) as (r & Hr1 & Hr2 & Hr3 & _); [|eauto].
  exists e. split_and!; try done.
  destruct (decide (e_state e = Pending)) as [|Hne]; [done |].
  by rewrite (row_terminal _ _ Hrow Hne) in Ea.
Qed.
