(* ===== verification/Service.v ===== *)
(** * The broker service

    [ProtectedBrokerService] of broker/john_lomein_broker_service.py: [handle]
    takes a submission to a durable signed receipt, [recover_pending] settles
    the attempts an earlier process left behind.  The clock, the factory of
    live clients, the signer and the source of attempt identifiers are the
    class [Runtime]; the store's operations run on the tables.  The state also
    keeps a history of the executions that were started, which nothing reads:
    it lets the theorems speak of the tables at the moment GitHub is asked for
    a change. *)

From S2P Require Import Prelude Regex Sha256 PyTime PyUrl PyText Json Packet Tables Store Protocol Submission Effects Client Actions Receipts.
Local Open Scope Z_scope.

(** ** State *)

(** What the constructor is given: [W] is the world the calls reach, [L] the
    live clients.  The clock counts microseconds. *)
Class Runtime (W L : Type) := {
  service_clock : W -> Z * W;
  live_factory : Z -> M W L;
  signer : value -> value -> value -> M W dict;
  token_hex : W -> pystr * W }.

(** An execution that is started: the tables at that moment, the effect, the
    packet and the attempt. *)
Record sent := { st_tables : db; st_effect : pystr; st_packet : pystr; st_attempt : pystr }.

Record broker (W : Type) := { durable : db; world : W; executions : list sent }.
Arguments durable {W} b.
Arguments world {W} b.
Arguments executions {W} b.

(** The service: [self.config] and [self.limits]. *)
Record ProtectedBrokerService := { sv_config : Config; sv_limits : BudgetLimits }.

(** ** Reasons *)

Definition component_char (c : N) : bool := in_range "a" "z" c || digit c || one_of "_" c.

(** [re.sub(r"[^a-z0-9_]+", "_", s)]; [gap]: the previous character has been
    replaced. *)
Fixpoint replace_runs (gap : bool) (s : pystr) : pystr :=
  match s with
  | [] => []
  | c :: s' =>
      if component_char c then c :: replace_runs false s'
      else if gap then replace_runs true s' else ch_of "_" :: replace_runs true s'
  end.

(** [_reason] *)
Definition reason (prefix : string) (v : pystr) : pystr :=
  let component := strip (ch_of "_") (replace_runs false (lower_text v)) in
  let component := take (Z.to_nat (Z.max 1 (127 - zlen (str prefix) - 1))) component in
  str prefix ++ str "_" ++
  match component with [] => str "unspecified" | _ => component end.

(** ** Values *)

(** A submission of a packet. *)
Definition submission_of (packet : dict) : value :=
  obj [("schema_version", vstr SUBMISSION_SCHEMA); ("packet", VDict packet)].

(** [packet["packet_id"]] as the store takes it. *)
Definition packet_id_of (packet : dict) : res pystr :=
  let* v := index packet "packet_id" in
  match v with VStr s => Ok s | _ => Raise (BrokerStoreError "packet id is invalid") end.

(** [datetime.strptime(packet["expires_at"], UTC_FORMAT)] *)
Definition packet_expires (packet : dict) : res Z :=
  let* v := index packet "expires_at" in
  match v with
  | VStr s =>
      match strptime s with
      | Some t => Ok t
      | None => Raise (ValueError "time data does not match format")
      end
  | _ => Raise (TypeError "strptime() argument 1 must be str")
  end.

(** [packet["request"]["targets"]["thread_node_ids"][0]] *)
Definition first_target (request : value) : res value :=
  let* targets := subscript request "targets" in
  let* ids := subscript targets "thread_node_ids" in
  subscript0 ids.

(** A thread of a snapshot that is the target and resolved. *)
Definition resolved_thread (target item : value) : bool :=
  match item with
  | VDict t => py_eq (get t "id") target && is_true (get t "is_resolved")
  | _ => false
  end.

(** [_readback_fields]: head, draft state and resolved threads. *)
Definition readback_fields (packet : dict) (live : dict) : res (value * value * list value) :=
  let pr_field (k : string) := match get live "pr" with VDict pr => get pr k | _ => VNone end in
  let head := match pr_field "head_sha" with VStr s => VStr s | _ => VNone end in
  let draft := match pr_field "is_draft" with VBool b => VBool b | _ => VNone end in
  let* request := index packet "request" in
  let* action := subscript request "action" in
  if py_eq action (VStr RESOLVE_REVIEW_THREAD) then
    let* target := first_target request in
    let resolved := match get live "threads" with
      | VList threads => existsb (resolved_thread target) threads
      | _ => false
      end in
    Ok (head, draft, if resolved then [target] else [])
  else Ok (head, draft, []).

Definition NO_READBACK : value * value * list value := (VNone, VNone, []).

(** [digest_json] of the small mappings that stand for a precondition. *)
Definition effect_state_digest (effect_key : pystr) (state : string) : pystr :=
  digest_json (obj [("effect_key", VStr effect_key); ("state", vstr state)]).

Definition packet_reason_digest (p : Packet) (why : string) : pystr :=
  digest_json (obj [("packet", VStr p.(request_digest)); ("reason", vstr why)]).

Definition budget_digest (budget : string) (effect_key : pystr) : pystr :=
  digest_json (obj [("budget", vstr budget); ("effect_key", VStr effect_key);
                    ("state", vstr "exhausted")]).

Definition circuit_digest (p : Packet) (effect_key : pystr) : pystr :=
  digest_json (obj [("action", VStr p.(request).(action)); ("effect_key", VStr effect_key);
                    ("state", vstr "open")]).

(** ** Exceptions *)

(** [except (GitHubAppError, GitHubLiveError)]: the name of the class. *)
Definition github_name (e : exn) : option string :=
  match e with
  | GitHubAppError _ => Some "GitHubAppError"
  | GitHubLiveError _ => Some "GitHubLiveError"
  | _ => None
  end.

(** [except BrokerActionError as exc]: [exc.reason_code] *)
Definition action_reason (e : exn) : option string :=
  match e with
  | BrokerActionError r _ | MutationIndeterminate r _ => Some r
  | _ => None
  end.

Section Service.
Context {W L : Type} `{!LiveActionClient W L} `{!SystemClock W} `{!Runtime W L}.

(** ** Calls *)

Abbreviation BM := (M (broker W)).

Definition with_durable (d : db) (s : broker W) : broker W :=
  {| durable := d; world := s.(world); executions := s.(executions) |}.

Definition with_world (w : W) (s : broker W) : broker W :=
  {| durable := s.(durable); world := w; executions := s.(executions) |}.

(** An operation of the store that writes, and one that reads. *)
Definition store {A} (f : db -> res A * db) : BM A := fun s =>
  let '(r, d) := f s.(durable) in (r, with_durable d s).

Definition query {A} (f : db -> res A) : BM A := fun s => (f s.(durable), s).

(** A call of the outside. *)
Definition call {A} (m : M W A) : BM A := fun s =>
  let '(r, w) := m s.(world) in (r, with_world w s).

(** [_now()], in seconds. *)
Definition service_now : BM Z := fun s =>
  let '(t, w) := service_clock s.(world) in (Ok (t / 1000000), with_world w s).

Definition new_attempt : BM pystr := fun s =>
  let '(t, w) := token_hex s.(world) in (Ok t, with_world w s).

(** The history of the executions. *)
Definition note_sent (effect_key packet_id attempt_id : pystr) : BM unit := fun s =>
  (Ok tt, {| durable := s.(durable); world := s.(world);
             executions := s.(executions) ++
               [{| st_tables := s.(durable); st_effect := effect_key; st_packet := packet_id;
                   st_attempt := attempt_id |}] |}).

(** ** Construction *)

Definition runtime_binding (c : Config) (digest : pystr) : dict :=
  fields [("schema_version", vstr "john-lomein.broker-runtime-binding.v1");
          ("broker_id", VStr c.(broker_id)); ("broker_config_sha256", VStr digest)].

Definition limits_of (c : Config) : res BudgetLimits :=
  let b := c.(budgets) in
  BudgetLimits_post_init (VInt b.(budget_requests_per_hour)) (VInt b.(mutation_attempts_per_day))
    (VInt b.(daily_mark_ready)) (VInt b.(daily_resolve)) (VInt b.(consecutive_indeterminate)).

Definition make_service (config : value) : BM ProtectedBrokerService :=
  let! c := lift (normalize_config config) in
  let! digest := lift (config_digest (config_value c)) in
  let! now := call read_clock in
  let! _ := rethrow isa_store
    (fun _ => BrokerServiceError "broker state is not bound to the active config")
    (store (bind_runtime (runtime_binding c digest) (now / 1000000))) in
  let! limits := lift (limits_of c) in
  ret {| sv_config := c; sv_limits := limits |}.

(** ** Receipts *)

Section Handlers.
Context (service : ProtectedBrokerService).

(** [_signed_receipt]: the report lacks the digest of the previous receipt. *)
Definition signed_receipt (submission : value) (report : pystr -> Report) : BM dict :=
  let! latest := query latest_receipt_digest in
  let previous := match latest with [] => ZERO_HASH | _ => latest end in
  let! payload := lift (build_receipt_payload (config_value service.(sv_config)) submission
    (report previous)) in
  call (signer (payload_value payload) (config_value service.(sv_config)) submission).

(** A datetime of the service: whole seconds. *)
Definition at_second (t : Z) : moment := At (us t).

Definition rejection_report (reason_code digest : pystr) (started completed : Z)
    (previous : pystr) : Report := {|
  re_precondition_digest := digest; re_outcome := str "rejected"; re_reason_code := reason_code;
  re_mutation_status := str "not_attempted"; re_readback_status := str "not_attempted";
  re_started_at := at_second started; re_completed_at := at_second completed;
  re_mutation_attempted_at := None; re_operation_id := [];
  re_readback_observed_at := None; re_readback_head_sha := VNone;
  re_readback_pr_is_draft := VNone; re_resolved_thread_node_ids := [];
  re_previous_receipt_sha256 := previous |}.

Definition record_rejection (packet : dict) (effect_key : option pystr) (started : Z)
    (reason_code digest : pystr) : BM dict :=
  let! completed := service_now in
  let! receipt := signed_receipt (submission_of packet)
    (rejection_report reason_code digest started completed) in
  let! packet_id := lift (packet_id_of packet) in
  let! t := store (record_packet_receipt packet_id Rejected receipt effect_key completed) in
  ret t.(trm_receipt).

(** A report of an effect that has been read back, or may have been. *)
Definition effect_report (digest outcome reason_code mutation_status readback_status : pystr)
    (started : moment) (completed : Z) (attempted : option moment) (operation_id : pystr)
    (readback : value * value * list value) (previous : pystr) : Report :=
  let '(head, draft, resolved) := readback in {|
  re_precondition_digest := digest; re_outcome := outcome; re_reason_code := reason_code;
  re_mutation_status := mutation_status; re_readback_status := readback_status;
  re_started_at := started; re_completed_at := at_second completed;
  re_mutation_attempted_at := attempted; re_operation_id := operation_id;
  re_readback_observed_at := Some (at_second completed); re_readback_head_sha := head;
  re_readback_pr_is_draft := draft; re_resolved_thread_node_ids := resolved;
  re_previous_receipt_sha256 := previous |}.

Definition record_already_satisfied (packet : dict) (evaluated : EvaluatedAction)
    (snapshot : LiveSnapshot) (effect_key : pystr) (started : Z) : BM dict :=
  let! completed := service_now in
  let! readback := lift (readback_fields packet (as_dict snapshot)) in
  let! receipt := signed_receipt (submission_of packet)
    (effect_report evaluated.(ev_before_digest) (str "succeeded") (str "already_satisfied")
      (str "already_satisfied") (str "confirmed") (at_second started) completed None []
      readback) in
  let! packet_id := lift (packet_id_of packet) in
  let! t := store (record_packet_receipt packet_id Reconciled receipt (Some effect_key)
    completed) in
  ret t.(trm_receipt).

Definition record_indeterminate (packet : dict) (effect_key attempt_id digest : pystr)
    (started attempted : moment) (reason_code : pystr) (readback : option LiveSnapshot) :
    BM dict :=
  let! completed := service_now in
  let! observed := lift match readback with
    | Some snapshot => readback_fields packet (as_dict snapshot)
    | None => Ok NO_READBACK
    end in
  let! receipt := signed_receipt (submission_of packet)
    (effect_report digest (str "indeterminate") reason_code (str "indeterminate")
      (str "indeterminate") started completed (Some attempted) attempt_id observed) in
  let! packet_id := lift (packet_id_of packet) in
  let! t := store (terminalize effect_key packet_id attempt_id Indeterminate receipt
    service.(sv_limits) completed) in
  ret t.(trm_receipt).

(** ** Recovery *)

(** The live state of a pending attempt. *)
Definition recovery_snapshot (recovery : PendingRecovery) (packet : dict) : BM LiveSnapshot :=
  let! now := service_now in
  let! live := call (live_factory (us now)) in
  let! url := lift (packet_evidence_url packet) in
  call (fetch_snapshot live (VInt recovery.(rec_pr_number)) url).

Definition recovery_indeterminate (recovery : PendingRecovery) (packet : dict)
    (reason_code : string) (readback : option LiveSnapshot) : BM unit :=
  let attempted_at := Given (VStr recovery.(rec_attempt_started_at)) in
  let! _ := record_indeterminate packet recovery.(rec_effect_key) recovery.(rec_attempt_key)
    recovery.(rec_precondition_digest) attempted_at attempted_at (str reason_code) readback in
  ret tt.

(** The desired state is there. *)
Definition recover_present (recovery : PendingRecovery) (packet : dict)
    (snapshot : LiveSnapshot) : BM unit :=
  try! evaluated := lift (evaluate_snapshot (config_dict service.(sv_config)) packet
      (Live snapshot) true)
    except (fun e => if isa_action e then Some (recovery_indeterminate recovery packet
      "indeterminate_recovery_state_mismatch" (Some snapshot)) else None) in
  if negb evaluated.(ev_already_satisfied) then
    throw (BrokerServiceError "recovery desired-state evaluation is inconsistent")
  else
    let attempted_at := Given (VStr recovery.(rec_attempt_started_at)) in
    let! completed := service_now in
    let! readback := lift (readback_fields packet (as_dict snapshot)) in
    let! receipt := signed_receipt (submission_of packet)
      (effect_report recovery.(rec_precondition_digest) (str "succeeded")
        (str "reconciled_readback_verified") (str "reconciled") (str "confirmed") attempted_at
        completed (Some attempted_at) recovery.(rec_attempt_key) readback) in
    let! _ := store (terminalize recovery.(rec_effect_key) recovery.(rec_packet_id)
      recovery.(rec_attempt_key) Reconciled receipt service.(sv_limits) completed) in
    ret tt.

Definition absence_evidence (recovery : PendingRecovery) : dict :=
  fields [("head_sha", VStr recovery.(rec_head_sha)); ("desired_state_observed", VBool false)].

(** The desired state is not there: the attempt is reopened for its own packet,
    kept for later, or closed as indeterminate. *)
Definition recover_absent (recovery : PendingRecovery) (packet : dict)
    (snapshot : LiveSnapshot) (retry_packet_id : option pystr) : BM unit :=
  let indeterminate_because why := recovery_indeterminate recovery packet why (Some snapshot) in
  try! _ := lift (evaluate_snapshot (config_dict service.(sv_config)) packet (Live snapshot)
      false)
    except (fun e => if isa_action e then Some (indeterminate_because
      "indeterminate_recovery_head_or_state_changed") else None) in
  let! expires := lift (packet_expires packet) in
  let! now := service_now in
  if expires <=? now then indeterminate_because "indeterminate_packet_expired_before_retry"
  else if 2 <=? recovery.(rec_mutation_attempts) then
    indeterminate_because "indeterminate_retry_exhausted"
  else if negb (bool_decide (retry_packet_id = Some recovery.(rec_packet_id))) then ret tt
  else
    let! now := service_now in
    let! _ := store (reconcile_absent recovery.(rec_effect_key) recovery.(rec_packet_id)
      recovery.(rec_attempt_key) (absence_evidence recovery) now) in
    ret tt.

Definition is_recovery_failure (e : exn) : bool := is_some (github_name e) || isa_action e.

Definition recover_one (retry_packet_id : option pystr) (recovery : PendingRecovery) : BM unit :=
  let! packet := query (load_packet recovery.(rec_packet_id)) in
  try! snapshot := recovery_snapshot recovery packet
    except (fun e => if is_recovery_failure e then Some (recovery_indeterminate recovery packet
      "indeterminate_recovery_unavailable" None) else None) in
  let! desired := lift (desired_state_observed packet (Live snapshot)) in
  if desired then recover_present recovery packet snapshot
  else recover_absent recovery packet snapshot retry_packet_id.

(** The loop over a list. *)
Fixpoint for_each {A} (f : A -> BM unit) (l : list A) : BM unit :=
  match l with
  | [] => ret tt
  | a :: l' => let! _ := f a in for_each f l'
  end.

Definition recover_pending (retry_packet_id : option pystr) : BM unit :=
  let! pending := query (fun d => Ok (pending_recovery d)) in
  for_each (recover_one retry_packet_id) pending.

(** ** Handling a submission *)

(** [replay_now]: the packet's creation when its text is a time, else now. *)
Definition replay_instant (submission : value) (started : Z) : Z :=
  match submission with
  | VDict s =>
      match get s "packet" with
      | VDict packet =>
          match get packet "created_at" with
          | VStr created_at => match strptime created_at with Some t => t | None => started end
          | _ => started
          end
      | _ => started
      end
  | _ => started
  end.

Definition normalize_at (submission : value) (now : Z) : res Packet :=
  normalize_submission submission (config_value service.(sv_config)) (Aware (us now)) 0 0.

(** The receipt the packet has, when it has one; the stored packet must be the
    submitted one. *)
Definition stored_answer (p : Packet) (mismatch : string) : BM (option dict) :=
  let! existing := query (receipt_for_packet p.(packet_id)) in
  match existing with
  | None => ret None
  | Some receipt =>
      let! packet := query (load_packet p.(packet_id)) in
      if negb (py_eq (VDict packet) (packet_value p)) then throw (BrokerServiceError mismatch)
      else ret (Some receipt)
  end.

(** [packet["request"]["targets"]["thread_node_ids"][0]] of a verified packet *)
Definition thread_target (p : Packet) : res (option pystr) :=
  if bool_decide (p.(request).(action) = RESOLVE_REVIEW_THREAD) then
    match p.(request).(thread_node_ids) with x :: _ => Ok (Some x) | [] => Raise IndexError end
  else Ok None.

(** [except BudgetExceeded] and [except CircuitOpenError] of the reservation. *)
Definition is_refusal (e : exn) : bool :=
  match e with BudgetExceeded _ _ _ _ | CircuitOpenError _ _ => true | _ => false end.

Definition refusal (e : exn) : exn :=
  match e with
  | BudgetExceeded _ _ _ _ => BrokerProtocolError "broker request budget is exhausted"
  | CircuitOpenError _ _ => BrokerProtocolError "broker action circuit is open"
  | e => e
  end.

Definition reserve_effect (p : Packet) (started : Z) : BM Reservation :=
  let! thread_id := lift (thread_target p) in
  rethrow is_refusal refusal
    (store (reserve (packet_dict p) service.(sv_limits) thread_id started)).

(** [record_rejection] of a verified packet *)
Definition reject (p : Packet) (effect_key : option pystr) (started : Z)
    (reason_code digest : pystr) : BM dict :=
  record_rejection (packet_dict p) effect_key started reason_code digest.

(** The live client, its snapshot and what it authorises. *)
Definition live_evaluation (p : Packet) (started : Z) : BM (L * LiveSnapshot * EvaluatedAction) :=
  let! live := call (live_factory (us started)) in
  let! snapshot := call (fetch_snapshot live (VInt p.(request).(pr).(pr_number))
    (VStr p.(request).(preconditions).(evidence_url))) in
  let! evaluated := lift (evaluate_snapshot (config_dict service.(sv_config)) (packet_dict p)
    (Live snapshot) true) in
  ret (live, snapshot, evaluated).

(** The rejections of a live state that does not authorise the request. *)
Definition evaluation_failure (p : Packet) (effect_key : pystr) (started : Z) (e : exn) :
    option (BM dict) :=
  match action_reason e with
  | Some why => Some (reject p (Some effect_key) started (reason "precondition" (str why))
      (packet_reason_digest p why))
  | None =>
      match github_name e with
      | Some name => Some (reject p (Some effect_key) started
          (str "precondition_live_state_unavailable") (packet_reason_digest p name))
      | None => None
      end
  end.

(** The rejections of a charge the store refuses. *)
Definition charge_failure (p : Packet) (effect_key : pystr) (started : Z) (e : exn) :
    option (BM dict) :=
  match e with
  | BudgetExceeded budget _ _ _ =>
      Some (reject p (Some effect_key) started (reason "budget" (str budget))
        (budget_digest budget effect_key))
  | CircuitOpenError _ _ =>
      Some (reject p (Some effect_key) started (str "circuit_action_open")
        (circuit_digest p effect_key))
  | PendingRecoveryError _ =>
      Some (reject p None started (str "circuit_semantic_pending")
        (effect_state_digest effect_key "pending_recovery"))
  | e => if isa_store e then
      Some (throw (BrokerServiceError "broker mutation reservation failed")) else None
  end.

(** The receipt of a result that has been read back. *)
Definition record_completed (p : Packet) (evaluated : EvaluatedAction) (effect_key attempt_id :
    pystr) (started mutation_started : Z) (result : dict) : BM dict :=
  let! completed := service_now in
  let! after := lift (index result "after") in
  let! after_pr := lift (subscript after "pr") in
  let target := match after with VDict d => get d "target_thread" | _ => VNone end in
  let! resolved := lift match target with
    | VDict t =>
        if is_true (get t "is_resolved") then let* id := index t "id" in Ok [id] else Ok []
    | _ => Ok []
    end in
  let! head := lift (subscript after_pr "head_sha") in
  let! draft := lift (subscript after_pr "is_draft") in
  let! receipt := signed_receipt (submission_value p)
    (effect_report evaluated.(ev_before_digest) (str "succeeded") (str "readback_verified")
      (str "applied") (str "confirmed") (at_second started) completed
      (Some (at_second mutation_started)) attempt_id (head, draft, resolved)) in
  let! t := store (terminalize effect_key p.(packet_id) attempt_id Completed receipt
    service.(sv_limits) completed) in
  ret t.(trm_receipt).

(** The mutation of a charged attempt, and its receipt. *)
Definition perform (p : Packet) (live : L) (evaluated : EvaluatedAction)
    (effect_key attempt_id : pystr) (started mutation_started : Z) : BM dict :=
  let! _ := note_sent effect_key p.(packet_id) attempt_id in
  try! result := call (execute_evaluated_action live (config_dict service.(sv_config))
      (packet_dict p) evaluated attempt_id)
    except (fun e => match e with
      | MutationIndeterminate why _ => Some (record_indeterminate (packet_dict p) effect_key
          attempt_id evaluated.(ev_before_digest) (at_second started)
          (at_second mutation_started) (reason "indeterminate" (str why)) None)
      | _ => None
      end) in
  record_completed p evaluated effect_key attempt_id started mutation_started result.

(** The attempt is charged, then made. *)
Definition mutate (p : Packet) (live : L) (evaluated : EvaluatedAction) (effect_key : pystr)
    (started : Z) : BM dict :=
  let! attempt_id := new_attempt in
  let! mutation_started := service_now in
  try! mutation := store (begin_mutation effect_key p.(packet_id) attempt_id service.(sv_limits)
      evaluated.(ev_before_digest) mutation_started)
    except (charge_failure p effect_key started) in
  match mutation.(mrv_disposition) with
  | receipt_replay =>
      match mutation.(mrv_receipt) with Some r => ret r | None => throw AssertionError end
  | indeterminate => reject p (Some effect_key) started (str "circuit_semantic_indeterminate")
      (effect_state_digest effect_key "indeterminate")
  | semantic_completed => reject p (Some effect_key) started
      (str "precondition_semantic_state_drift") evaluated.(ev_before_digest)
  | _ => perform p live evaluated effect_key attempt_id started mutation_started
  end.

(** A reservation that has no answer yet. *)
Definition settle (p : Packet) (reservation : Reservation) (started : Z) : BM dict :=
  let effect_key := reservation.(rsv_effect_key) in
  try! (live, snapshot, evaluated) := live_evaluation p started
    except (evaluation_failure p effect_key started) in
  if bool_decide (reservation.(rsv_disposition) = semantic_completed) &&
     negb evaluated.(ev_already_satisfied) then
    reject p (Some effect_key) started (str "precondition_semantic_state_drift")
      evaluated.(ev_before_digest)
  else if evaluated.(ev_already_satisfied) then
    record_already_satisfied (packet_dict p) evaluated snapshot effect_key started
  else mutate p live evaluated effect_key started.

(** A submission that no receipt answers. *)
Definition handle_new (submission : value) (started : Z) : BM dict :=
  let! p := lift (normalize_at submission started) in
  let! reservation := reserve_effect p started in
  match reservation.(rsv_disposition) with
  | receipt_replay =>
      match reservation.(rsv_receipt) with Some r => ret r | None => throw AssertionError end
  | indeterminate =>
      reject p (Some reservation.(rsv_effect_key)) started (str "circuit_semantic_indeterminate")
        (effect_state_digest reservation.(rsv_effect_key) "indeterminate")
  | _ => settle p reservation started
  end.

Definition handle (submission : value) : BM dict :=
  let! started := service_now in
  let! replayed := lift (normalize_at submission (replay_instant submission started)) in
  let! existing := stored_answer replayed
    "persisted receipt packet does not match the replay" in
  match existing with
  | Some receipt => ret receipt
  | None =>
      let! _ := recover_pending (Some replayed.(packet_id)) in
      let! recovered := stored_answer replayed
        "recovered receipt packet does not match the replay" in
      match recovered with
      | Some receipt => ret receipt
      | None => handle_new submission started
      end
  end.
End Handlers.
End Service.

