(* ===== verification/ServiceFacts.v ===== *)
(** * What a handler does to the broker's state

    Relations between the states before and after a computation of the service:
    [still] (only the world moves), [quiet] (the tables change by store
    operations under the service's limits and nothing is executed), [settling]
    (and no packet gets a charged attempt) and [once] (at most one execution is
    started).  Every piece of [handle] is placed in the strongest of them. *)

From S2P Require Import Prelude Regex Sha256 PyTime PyUrl PyText Json JsonFacts Packet PacketFacts Tables Store StoreSteps StoreInv StoreSafety StoreReplay StoreFrames Protocol Submission SubmissionFacts Boundary Ingress Effects Client Actions Receipts Service.
Local Open Scope Z_scope.

(** ** Computations *)

Lemma attempt_inv {S A B} (m : M S A) (h : exn -> option (M S B)) (k : A -> M S B) s b s' :
  attempt m h k s = (Ok b, s') ->
  (exists a s1, m s = (Ok a, s1) /\ k a s1 = (Ok b, s')) \/
  (exists e s1 handler, m s = (Raise e, s1) /\ h e = Some handler /\ handler s1 = (Ok b, s')).
Proof.
  unfold attempt. destruct (m s) as [[a|e] s1]; [eauto |].
  destruct (h e) as [handler|] eqn:E; [|done]. intros H. right. eauto 7.
Qed.

Lemma keeps_weaken {S A} (R R' : S -> S -> Prop) (m : M S A) :
  (forall s s', R s s' -> R' s s') -> keeps R m -> keeps R' m.
Proof. intros H Hm s. apply H, Hm. Qed.

Lemma keeps_lift_bind {S A B} (R : S -> S -> Prop) `{!PreOrder R} (r : res A) (k : A -> M S B) :
  (forall a, r = Ok a -> keeps R (k a)) -> keeps R (bind (lift r) k).
Proof.
  intros H s. unfold bind, lift. destruct r as [a|e]; [by apply H | cbn; reflexivity].
Qed.

Lemma keeps_run {S A} (R : S -> S -> Prop) (m : M S A) s r s' :
  keeps R m -> m s = (r, s') -> R s s'.
Proof. intros H E. specialize (H s). by rewrite E in H. Qed.

Section Facts.
Context {W L : Type} `{!LiveActionClient W L} `{!SystemClock W} `{!Runtime W L}.
Context (service : ProtectedBrokerService).

Abbreviation BM := (M (broker W)).
Abbreviation under_limits := (op_ok (eq service.(sv_limits))).

Lemma op_ok_weaken P (o : op) : op_ok P o -> op_ok any_limits o.
Proof. unfold any_limits. destruct o; cbn; tauto. Qed.

Lemma ops_ok_weaken P ops : Forall (op_ok P) ops -> Forall (op_ok any_limits) ops.
Proof. intros H. eapply Forall_impl; [exact H |]. apply op_ok_weaken. Qed.

(** ** Relations *)

Definition still (s s' : broker W) : Prop :=
  durable s' = durable s /\ executions s' = executions s.

(** The tables are the result of store operations. *)
Definition leads (d d' : db) : Prop :=
  exists ops, Forall under_limits ops /\ d' = run_all ops d.

Definition quiet (s s' : broker W) : Prop :=
  leads (durable s) (durable s') /\ executions s' = executions s.

Definition settling (s s' : broker W) : Prop :=
  quiet s s' /\ (Inv (durable s) -> no_new_attempt (durable s) (durable s')).

#[local] Instance still_preorder : PreOrder still.
Proof. split; [by intros s | intros s1 s2 s3 [H1 H2] [H3 H4]; split; congruence]. Qed.

#[local] Instance leads_preorder : PreOrder leads.
Proof.
  split; [by intros d; exists [] |]. intros d1 d2 d3 (o1 & H1 & ->) (o2 & H2 & ->).
  exists (o1 ++ o2). split; [by apply Forall_app |]. unfold run_all. by rewrite fold_left_app.
Qed.

#[local] Instance quiet_preorder : PreOrder quiet.
Proof.
  split; [by intros s; split | intros s1 s2 s3 [H1 H2] [H3 H4]; split; [by etransitivity | congruence]].
Qed.

Lemma leads_inv d d' : leads d d' -> Inv d -> Inv d'.
Proof. intros (ops & H & ->) Hi. by eapply Inv_run_all. Qed.

Lemma leads_ledger d d' : leads d d' ->
  receipts d `prefix_of` receipts d' /\ budget_events d `prefix_of` budget_events d' /\
  packets d ⊆ packets d'.
Proof. intros (ops & H & ->). apply ledger_run_all. by eapply ops_ok_weaken. Qed.

Lemma count_prefix {A} (f : A -> bool) l l' : l `prefix_of` l' -> count f l <= count f l'.
Proof. intros [m ->]. rewrite count_app. pose proof (count_nonneg f m). lia. Qed.

#[local] Instance settling_preorder : PreOrder settling.
Proof.
  split; [by intros s; split |]. intros s1 s2 s3 [Q1 N1] [Q2 N2].
  split; [by etransitivity |]. intros Hi. etransitivity; [by apply N1 |].
  apply N2. by apply (leads_inv _ _ (proj1 Q1)).
Qed.

Lemma still_settling s s' : still s s' -> settling s s'.
Proof.
  intros [H1 H2]. split; [|intros _; by rewrite H1]. split; [by rewrite H1 | done].
Qed.

Lemma settling_quiet s s' : settling s s' -> quiet s s'.
Proof. by intros [H _]. Qed.

Lemma still_quiet s s' : still s s' -> quiet s s'.
Proof. intros H. by apply settling_quiet, still_settling. Qed.

(** ** Calls *)

Lemma still_query {A} (f : db -> res A) : keeps still (query f).
Proof. by intros s. Qed.

Lemma still_call {A} (m : M W A) : keeps still (call m).
Proof. intros s. unfold call. by destruct (m (world s)). Qed.

Lemma still_now : keeps still service_now.
Proof. intros s. unfold service_now. by destruct (service_clock (world s)). Qed.

Lemma still_attempt : keeps still new_attempt.
Proof. intros s. unfold new_attempt. by destruct (token_hex (world s)). Qed.

#[local] Hint Resolve still_query still_call still_now still_attempt : keeps.

Lemma still_signed submission report : keeps still (signed_receipt service submission report).
Proof.
  unfold signed_receipt. apply keeps_bind; [typeclasses eauto | auto with keeps |]. intros latest.
  apply keeps_bind; [typeclasses eauto | auto with keeps | intros payload; auto with keeps].
  apply keeps_lift. typeclasses eauto.
Qed.
#[local] Hint Resolve still_signed : keeps.

(** A store operation that writes. *)
Lemma quiet_store {A} (f : db -> res A * db) (o : op) :
  under_limits o -> (forall d, (f d).2 = run o d) -> keeps quiet (store f).
Proof.
  intros Ho H s. unfold store. specialize (H (durable s)). destruct (f (durable s)) as [r d].
  cbn in *. split; [|done]. exists [o]. split; [by apply Forall_singleton | done].
Qed.

Lemma settling_terminalize k pid att state receipt now :
  keeps settling (store (terminalize k pid att state receipt service.(sv_limits) now)).
Proof.
  intros s. split.
  - by apply (quiet_store _ (Terminal k pid att state receipt service.(sv_limits) now)).
  - intros Hi. pose proof (terminalize_attempts k pid att state receipt service.(sv_limits) now _ Hi) as H.
    unfold store. destruct (terminalize _ _ _ _ _ _ _ (durable s)). apply H.
Qed.

Lemma settling_absent k pid att evidence now :
  keeps settling (store (reconcile_absent k pid att evidence now)).
Proof.
  intros s. split.
  - by apply (quiet_store _ (Absent k pid att evidence now)).
  - intros Hi. pose proof (absent_attempts k pid att evidence now (durable s)) as H.
    unfold store. destruct (reconcile_absent _ _ _ _ _ (durable s)). apply H.
Qed.

Lemma quiet_packet_receipt pid state receipt k now :
  keeps quiet (store (record_packet_receipt pid state receipt k now)).
Proof. by apply (quiet_store _ (PacketReceipt pid state receipt k now)). Qed.

Lemma quiet_begin k pid att pre now :
  keeps quiet (store (begin_mutation k pid att service.(sv_limits) pre now)).
Proof. by apply (quiet_store _ (Begin k pid att service.(sv_limits) pre now)). Qed.

#[local] Hint Resolve settling_terminalize settling_absent quiet_packet_receipt quiet_begin : keeps.
#[local] Hint Extern 2 (keeps settling _) =>
  apply (keeps_weaken still settling _ still_settling); solve [eauto 2 with keeps] : keeps.
#[local] Hint Extern 2 (keeps quiet _) =>
  apply (keeps_weaken settling quiet _ settling_quiet); solve [eauto 3 with keeps] : keeps.

(** The pieces of a computation, each closed by a hint. *)
Ltac keeping :=
  repeat match goal with
  | |- keeps _ (bind _ _) => apply keeps_bind; [typeclasses eauto | | intros ?]
  | |- keeps _ (ret _) => apply keeps_ret; typeclasses eauto
  | |- keeps _ (throw _) => apply keeps_throw; typeclasses eauto
  | |- keeps _ (lift _) => apply keeps_lift; typeclasses eauto
  | |- keeps _ (match ?x with _ => _ end) => destruct x
  | |- keeps _ (rethrow _ _ _) => apply keeps_rethrow
  | |- keeps _ (attempt _ _ _) => apply keeps_attempt; [typeclasses eauto | | intros ? ? ? | intros ?]
  | H : (if ?b then Some _ else None) = Some _ |- _ => destruct b; [injection H as <- | discriminate H]
  | _ => progress eauto with keeps
  end.

(** ** Receipts *)

Lemma quiet_rejection packet k started why digest :
  keeps quiet (record_rejection service packet k started why digest).
Proof. unfold record_rejection. keeping. Qed.

Lemma quiet_already packet e snapshot k started :
  keeps quiet (record_already_satisfied service packet e snapshot k started).
Proof. unfold record_already_satisfied. keeping. Qed.

Lemma settling_indeterminate packet k att digest started attempted why readback :
  keeps settling (record_indeterminate service packet k att digest started attempted why readback).
Proof. unfold record_indeterminate. keeping. Qed.
#[local] Hint Resolve quiet_rejection quiet_already settling_indeterminate : keeps.

Lemma store_inv {A} (f : db -> res A * db) (s : broker W) a s' :
  store f s = (Ok a, s') -> f (durable s) = (Ok a, durable s').
Proof. unfold store. destruct (f (durable s)) as [r d]. by intros [= -> <-]. Qed.

(** What [still] computations leave, in a chain. *)
Ltac stills :=
  repeat match goal with
  | H : service_now ?s = _ |- _ => apply (keeps_run still _ _ _ _ still_now) in H as [? ?]
  | H : new_attempt ?s = _ |- _ => apply (keeps_run still _ _ _ _ still_attempt) in H as [? ?]
  | H : query _ ?s = _ |- _ => apply (keeps_run still _ _ _ _ (still_query _)) in H as [? ?]
  | H : call _ ?s = _ |- _ => apply (keeps_run still _ _ _ _ (still_call _)) in H as [? ?]
  | H : signed_receipt _ _ _ ?s = _ |- _ =>
      apply (keeps_run still _ _ _ _ (still_signed _ _)) in H as [? ?]
  end.

(** A rejection, an existing effect and an indeterminate outcome answer with the
    packet's durable receipt. *)
Lemma rejection_answer packet k started why digest s r s' :
  Inv (durable s) -> record_rejection service packet k started why digest s = (Ok r, s') ->
  exists pid, packet_id_of packet = Ok pid /\ receipt_for_packet pid (durable s') = Ok (Some r).
Proof.
  intros Hi H. unfold record_rejection in H. run_inv. stills.
  match goal with H : store _ _ = _ |- _ => apply store_inv in H; rename H into Hst end.
  eexists. split; [done |]. eapply packet_receipt_answer; [|exact Hst]. congruence.
Qed.

Lemma already_answer packet e snapshot k started s r s' :
  Inv (durable s) -> record_already_satisfied service packet e snapshot k started s = (Ok r, s') ->
  exists pid, packet_id_of packet = Ok pid /\ receipt_for_packet pid (durable s') = Ok (Some r).
Proof.
  intros Hi H. unfold record_already_satisfied in H. run_inv. stills.
  match goal with H : store _ _ = _ |- _ => apply store_inv in H; rename H into Hst end.
  eexists. split; [done |]. eapply packet_receipt_answer; [|exact Hst]. congruence.
Qed.

Lemma indeterminate_answer packet k att digest started attempted why readback s r s' :
  Inv (durable s) ->
  record_indeterminate service packet k att digest started attempted why readback s = (Ok r, s') ->
  (exists pid, packet_id_of packet = Ok pid /\ receipt_for_packet pid (durable s') = Ok (Some r)) /\
  forall p, ~ attempting (durable s') k p.
Proof.
  intros Hi H. unfold record_indeterminate in H. run_inv. stills.
  match goal with H : store _ ?s0 = _ |- _ => apply store_inv in H; rename H into Hst;
    assert (Hi0 : Inv (durable s0)) by congruence end.
  split.
  - eexists. split; [done |]. eapply terminalize_answer; [exact Hi0 | exact Hst].
  - match type of Hst with terminalize ?k ?pid ?att ?st ?r ?l ?now ?d = _ =>
      pose proof (terminalize_attempts k pid att st r l now d Hi0) as Ht; rewrite Hst in Ht end.
    by apply Ht.
Qed.

(** ** Recovery *)

Lemma settling_recovery_indeterminate r packet why readback :
  keeps settling (recovery_indeterminate service r packet why readback).
Proof. unfold recovery_indeterminate. keeping. Qed.
#[local] Hint Resolve settling_recovery_indeterminate : keeps.

Lemma still_recovery_snapshot r packet : keeps still (recovery_snapshot r packet).
Proof. unfold recovery_snapshot. keeping. Qed.
#[local] Hint Resolve still_recovery_snapshot : keeps.

Lemma settling_present r packet snapshot : keeps settling (recover_present service r packet snapshot).
Proof. unfold recover_present. keeping. Qed.

Lemma settling_absent_branch r packet snapshot retry :
  keeps settling (recover_absent service r packet snapshot retry).
Proof. unfold recover_absent. keeping. Qed.
#[local] Hint Resolve settling_present settling_absent_branch : keeps.

Lemma settling_recover_one retry r : keeps settling (recover_one service retry r).
Proof. unfold recover_one. keeping. Qed.
#[local] Hint Resolve settling_recover_one : keeps.

Lemma settling_for_each retry l : keeps settling (for_each (recover_one service retry) l).
Proof. induction l as [|r l IH]; cbn; keeping. Qed.
#[local] Hint Resolve settling_for_each : keeps.

Lemma settling_recover_pending retry : keeps settling (recover_pending service retry).
Proof. unfold recover_pending. keeping. Qed.

Lemma recovery_indeterminate_ends r packet why readback s u s' :
  Inv (durable s) -> recovery_indeterminate service r packet why readback s = (Ok u, s') ->
  forall p, ~ attempting (durable s') r.(rec_effect_key) p.
Proof.
  intros Hi H. unfold recovery_indeterminate in H. run_inv. by eapply indeterminate_answer.
Qed.

(** Recovery of a packet's own attempt ends the attempt. *)
Lemma recover_one_ends r s u s' :
  Inv (durable s) -> recover_one service (Some r.(rec_packet_id)) r s = (Ok u, s') ->
  forall p, ~ attempting (durable s') r.(rec_effect_key) p.
Proof.
  intros Hi H. unfold recover_one in H. run_inv. stills.
  match goal with H : attempt _ _ _ _ = _ |- _ =>
    apply attempt_inv in H as [(snapshot & s2 & Hs & H)|(e & s2 & h & Hs & Hh & H)] end;
    apply (keeps_run still _ _ _ _ (still_recovery_snapshot _ _)) in Hs as [Hd _].
  2: { case_match; [injection Hh as <- | done]. eapply recovery_indeterminate_ends; [|eassumption]; congruence. }
  run_inv. case_match.
  - unfold recover_present in *.
    match goal with H : attempt _ _ _ _ = _ |- _ =>
      apply attempt_inv in H as [(ev & s3 & Hs & H)|(e & s3 & h & Hs & Hh & H)] end;
      apply (keeps_run still _ _ _ _ (keeps_lift still _)) in Hs as [Hd' _].
    2: { case_match; [injection Hh as <- | done]. eapply recovery_indeterminate_ends; [|eassumption]; congruence. }
    case_match; [done |]. run_inv. stills.
    match goal with H : store _ ?s0 = _ |- _ => apply store_inv in H; rename H into Hst;
      assert (Hi0 : Inv (durable s0)) by congruence end.
    match type of Hst with terminalize ?k ?pid ?att ?st ?r ?l ?now ?d = _ =>
      pose proof (terminalize_attempts k pid att st r l now d Hi0) as Ht; rewrite Hst in Ht end.
    by apply Ht.
  - unfold recover_absent in *.
    match goal with H : attempt _ _ _ _ = _ |- _ =>
      apply attempt_inv in H as [(ev & s3 & Hs & H)|(e & s3 & h & Hs & Hh & H)] end;
      apply (keeps_run still _ _ _ _ (keeps_lift still _)) in Hs as [Hd' _].
    2: { case_match; [injection Hh as <- | done]. eapply recovery_indeterminate_ends; [|eassumption]; congruence. }
    run_inv. stills. case_match; [eapply recovery_indeterminate_ends; [|done]; congruence |].
    case_match; [eapply recovery_indeterminate_ends; [|done]; congruence |].
    rewrite bool_decide_true in * by done. cbn [negb] in *. run_inv. stills.
    match goal with H : store _ ?s0 = _ |- _ => apply store_inv in H; rename H into Hst;
      assert (Hi0 : Inv (durable s0)) by congruence end.
    match type of Hst with reconcile_absent ?k ?pid ?att ?ev ?now ?d = _ =>
      pose proof (absent_attempts k pid att ev now d) as Ht; rewrite Hst in Ht end.
    by apply Ht.
Qed.

Lemma for_each_ends pid l : forall s u s',
  Inv (durable s) -> for_each (recover_one service (Some pid)) l s = (Ok u, s') ->
  forall r, r ∈ l -> r.(rec_packet_id) = pid ->
  forall p, ~ attempting (durable s') r.(rec_effect_key) p.
Proof.
  induction l as [|r l IH]; intros s u s' Hi H q Hq Hp p; [by apply not_elem_of_nil in Hq |].
  cbn in H. apply bind_inv in H as ([] & s1 & H1 & H2).
  destruct (keeps_run settling _ _ _ _ (settling_recover_one _ _) H1) as [[Hl _] _].
  pose proof (leads_inv _ _ Hl Hi) as Hi1.
  apply elem_of_cons in Hq as [-> | Hq]; [|by eapply IH].
  destruct (keeps_run settling _ _ _ _ (settling_for_each _ _) H2) as [_ Hn].
  intros Ha%(Hn Hi1). revert Ha. eapply recover_one_ends; [exact Hi |]. by rewrite Hp.
Qed.

(** After a recovery for a packet the packet has no charged attempt. *)
Lemma recover_pending_ends pid s u s' :
  Inv (durable s) -> recover_pending service (Some pid) s = (Ok u, s') ->
  forall k, ~ attempting (durable s') k pid.
Proof.
  intros Hi H k Ha. unfold recover_pending in H.
  apply bind_inv in H as (l & s1 & H1 & H2). injection H1 as <- <-.
  destruct (keeps_run settling _ _ _ _ (settling_for_each _ _) H2) as [_ Hn].
  destruct (attempting_listed _ _ _ Hi (Hn Hi _ _ Ha)) as (r & Hr & <- & Hp).
  by apply (for_each_ends _ _ _ _ _ Hi H2 r Hr Hp pid).
Qed.

(** ** Executions *)

(** At most one execution is started, from tables that the handler's store
    operations reached and that lead to the last ones. *)
Definition once (Phi : db -> sent -> Prop) (s s' : broker W) : Prop :=
  leads (durable s) (durable s') /\
  (executions s' = executions s \/
   exists x, executions s' = executions s ++ [x] /\ Phi (durable s) x /\
     leads (durable s) x.(st_tables) /\ leads x.(st_tables) (durable s')).

Lemma quiet_once Phi s s' : quiet s s' -> once Phi s s'.
Proof. intros [H1 H2]. split; [done | by left]. Qed.

Lemma quiet_then_once (Phi : db -> sent -> Prop) s s1 s2 :
  (forall d d' x, leads d d' -> Phi d' x -> Phi d x) ->
  quiet s s1 -> once Phi s1 s2 -> once Phi s s2.
Proof.
  intros Hback [H1 E1] [H2 Hx]. split; [by etransitivity |].
  destruct Hx as [E2 | (x & E2 & Hp & Hl1 & Hl2)]; [left; congruence | right].
  exists x. split; [congruence |]. split; [by eapply Hback |]. split; [by etransitivity | done].
Qed.

(** [wp] of a quiet computation followed by more. *)
Lemma once_bind {A B} (Phi : db -> sent -> Prop) (m : BM A) (k : A -> BM B) s :
  (forall d d' x, leads d d' -> Phi d' x -> Phi d x) ->
  keeps quiet m ->
  (forall a s1, m s = (Ok a, s1) -> once Phi s1 (k a s1).2) ->
  once Phi s (bind m k s).2.
Proof.
  intros Hback Hm Hk. unfold bind. specialize (Hm s).
  destruct (m s) as [[a|e] s1] eqn:E; cbn in *; [|by apply quiet_once].
  eapply quiet_then_once; [done.. | by apply Hk].
Qed.

Lemma once_attempt {A B} (Phi : db -> sent -> Prop) (m : BM A) h (k : A -> BM B) s :
  (forall d d' x, leads d d' -> Phi d' x -> Phi d x) ->
  keeps quiet m -> (forall e handler, h e = Some handler -> keeps quiet handler) ->
  (forall a s1, m s = (Ok a, s1) -> once Phi s1 (k a s1).2) ->
  once Phi s (attempt m h k s).2.
Proof.
  intros Hback Hm Hh Hk. unfold attempt. specialize (Hm s).
  destruct (m s) as [[a|e] s1] eqn:E; cbn in *.
  - eapply quiet_then_once; [done.. | by apply Hk].
  - destruct (h e) as [handler|] eqn:Eh; [|by apply quiet_once].
    apply quiet_once. etransitivity; [exact Hm | by apply (Hh e)].
Qed.

Lemma quiet_reject p k started why digest : keeps quiet (reject service p k started why digest).
Proof. unfold reject. keeping. Qed.

Lemma quiet_completed p e k att started mutation_started result :
  keeps quiet (record_completed service p e k att started mutation_started result).
Proof. unfold record_completed. keeping. Qed.
#[local] Hint Resolve quiet_reject quiet_completed : keeps.

Lemma quiet_charge_failure p k started e handler :
  charge_failure service p k started e = Some handler -> keeps quiet handler.
Proof.
  unfold charge_failure. intros H. destruct e; cbn in H; simplify_eq; auto with keeps;
    apply keeps_throw; typeclasses eauto.
Qed.

Lemma quiet_evaluation_failure p k started e handler :
  evaluation_failure service p k started e = Some handler -> keeps quiet handler.
Proof.
  unfold evaluation_failure. intros H. repeat case_match; simplify_eq; auto with keeps.
Qed.

Lemma still_evaluation p started : keeps still (live_evaluation service p started).
Proof. unfold live_evaluation. keeping. Qed.
#[local] Hint Resolve still_evaluation : keeps.

Lemma still_answer p mismatch : keeps still (stored_answer p mismatch).
Proof. unfold stored_answer. keeping. Qed.
#[local] Hint Resolve still_answer : keeps.

(** The execution is noted first, the rest is quiet. *)
Lemma perform_sends p live e k att started mutation_started s :
  let s' := (perform service p live e k att started mutation_started s).2 in
  executions s' = executions s ++
    [{| st_tables := durable s; st_effect := k; st_packet := p.(packet_id); st_attempt := att |}] /\
  leads (durable s) (durable s').
Proof.
  unfold perform, bind at 1, note_sent.
  match goal with |- context [attempt ?m ?h ?f ?s0] =>
    assert (Hq : keeps quiet (attempt m h f)); [|destruct (Hq s0) as [Hl He]; by rewrite He] end.
  keeping. match goal with H : match ?e with _ => _ end = Some _ |- _ => destruct e; simplify_eq end.
  auto with keeps.
Qed.

(** What an execution that is started comes from: an evaluation that authorises
    the packet and finds the effect absent, and a charge of this attempt that
    the store has just made. *)
Definition charged_for (p : Packet) (e : EvaluatedAction) (d : db) (x : sent) : Prop :=
  x.(st_packet) = p.(packet_id) /\
  charged_to x.(st_tables) x.(st_effect) x.(st_packet) x.(st_attempt) e.(ev_before_digest) /\
  count (charge_of x.(st_effect)) (budget_events d) <
    count (charge_of x.(st_effect)) (budget_events x.(st_tables)).

Lemma charged_for_back p e d d' x : leads d d' -> charged_for p e d' x -> charged_for p e d x.
Proof.
  intros (_ & Hpre & _)%leads_ledger (H1 & H2 & H3). split_and!; try done.
  eapply Z.le_lt_trans; [by apply count_prefix | done].
Qed.

Lemma mutate_once p live e k started s :
  Inv (durable s) -> ~ attempting (durable s) k p.(packet_id) ->
  once (charged_for p e) s (mutate service p live e k started s).2.
Proof.
  intros Hi Hn. unfold mutate.
  apply once_bind; [apply charged_for_back | eauto with keeps | intros att s1 H1].
  apply once_bind; [apply charged_for_back | eauto with keeps | intros now s2 H2].
  stills. assert (Hd : durable s2 = durable s) by congruence.
  assert (He : executions s2 = executions s) by congruence.
  unfold attempt.
  match goal with |- context [store ?f s2] =>
    pose proof (quiet_begin k p.(packet_id) att e.(ev_before_digest) now s2) as Hq;
    destruct (store f s2) as [[r|x] s3] eqn:E; cbn in Hq end.
  - pose proof (store_inv _ _ _ _ E) as Hb. cbv beta in Hb.
    destruct (decide (r.(mrv_disposition) = receipt_replay \/ r.(mrv_disposition) = indeterminate \/
      r.(mrv_disposition) = semantic_completed)) as [Hg|Hg].
    + apply quiet_once. etransitivity; [exact Hq |].
      destruct (mrv_disposition r); try (exfalso; naive_solver); [|by apply quiet_reject..].
      destruct (mrv_receipt r); [by apply keeps_ret; typeclasses eauto | by apply keeps_throw; typeclasses eauto].
    + assert (Hgo : goes_on r) by (unfold goes_on; naive_solver).
      assert (Hi2 : Inv (durable s2)) by (by rewrite Hd).
      assert (Hc : r.(mrv_disposition) = charged).
      { eapply begin_goes_on; [exact Hb | exact Hgo |]. by rewrite Hd. }
      rewrite Hc.
      destruct (begin_charges _ _ _ _ _ _ _ _ _ Hi2 Hb Hc) as [Hch Hcount].
      destruct (perform_sends p live e k att started now s3) as [Hx Hl].
      destruct Hq as [Hl3 He3]. split; [by etransitivity |]. right.
      eexists. split; [rewrite Hx, He3; reflexivity |]. cbn.
      split; [|by split]. split_and!; [done | done |]. cbn. rewrite Hcount, decide_True by done. lia.
  - destruct (charge_failure service p k started x) as [handler|] eqn:Ef; [|by apply quiet_once].
    apply quiet_once. etransitivity; [exact Hq |]. by eapply quiet_charge_failure.
Qed.

(** ** The whole handler *)

Lemma once_weaken (Phi Psi : db -> sent -> Prop) s s' :
  (forall d x, Phi d x -> Psi d x) -> once Phi s s' -> once Psi s s'.
Proof.
  intros H [Hl [He | (x & He & Hp & Hr)]]; split; auto. right. exists x. auto.
Qed.

(** [charged_for] for an evaluation of some snapshot. *)
Definition authorised_send (p : Packet) (d : db) (x : sent) : Prop :=
  exists snapshot e,
    evaluate_snapshot (config_dict service.(sv_config)) (packet_dict p) (Live snapshot) true = Ok e /\
    e.(ev_already_satisfied) = false /\ charged_for p e d x.

Lemma authorised_send_back p d d' x : leads d d' -> authorised_send p d' x -> authorised_send p d x.
Proof.
  intros Hl (snapshot & e & H1 & H2 & H3). exists snapshot, e. split_and!; try done.
  by eapply charged_for_back.
Qed.

Lemma settle_once p r started s :
  Inv (durable s) -> ~ attempting (durable s) r.(rsv_effect_key) p.(packet_id) ->
  once (authorised_send p) s (settle service p r started s).2.
Proof.
  intros Hi Hn. unfold settle.
  apply once_attempt; [apply authorised_send_back | eauto with keeps | intros ? ? H; by eapply quiet_evaluation_failure |].
  intros [[live snapshot] e] s1 H.
  pose proof (keeps_run still _ _ _ _ (still_evaluation _ _) H) as [Hd _].
  unfold live_evaluation in H. run_inv.
  match goal with |- context [if ?b then _ else _] => destruct b; [apply quiet_once, quiet_reject |] end.
  destruct (ev_already_satisfied e) eqn:Ea; [apply quiet_once, quiet_already |].
  rewrite <- Hd in Hi, Hn.
  eapply once_weaken; [|by apply mutate_once]. intros d x Hx. by exists snapshot, e.
Qed.

Lemma normalize_at_wf submission t p :
  normalize_at service submission t = Ok p -> wf (packet_value p).
Proof.
  intros H. apply submission_at_creation in H as (? & ? & ? & ? & ? & ? & ? & ? & _ & _ & _ & _ & _ & _ & Hp & Hc & He & _).
  by eapply packet_wf.
Qed.

(** An accepted submission is accepted with the same packet at its packet's
    creation, which is the instant of the replay whatever the time. *)
Lemma replay_same submission t p :
  normalize_at service submission t = Ok p ->
  exists c, (forall u, replay_instant submission u = c) /\ normalize_at service submission c = Ok p.
Proof.
  intros H. apply submission_at_creation in H
    as (c & d & dp & cr & ex & ob & t1 & t2 & _ & -> & Hdp & Hcr & _ & _ & _ & _ & _ & _ & _ & Hall).
  exists cr. split; [|by apply Hall]. intros u. unfold replay_instant. rewrite Hdp.
  apply parse_utc_inv in Hcr as (txt & -> & Hcr). by rewrite Hcr.
Qed.

Lemma quiet_reserve p started : wf (packet_value p) -> keeps quiet (reserve_effect service p started).
Proof.
  intros Hw. unfold reserve_effect. keeping.
  apply (quiet_store _ (Reserve (packet_dict p) service.(sv_limits) a started)); [|done]. by split.
Qed.

Lemma handle_new_once submission started pid s :
  Inv (durable s) -> (forall k, ~ attempting (durable s) k pid) ->
  (forall p, normalize_at service submission started = Ok p -> p.(packet_id) = pid) ->
  once (fun d x => exists p, normalize_at service submission started = Ok p /\ authorised_send p d x)
    s (handle_new service submission started s).2.
Proof.
  intros Hi Hn Hpid. unfold handle_new, bind at 1, lift.
  destruct (normalize_at service submission started) as [p|e] eqn:Hp; [|by apply quiet_once].
  specialize (Hpid p eq_refl). subst pid.
  apply (once_weaken (authorised_send p)); [eauto |].
  apply once_bind; [apply authorised_send_back | by eapply quiet_reserve, normalize_at_wf |].
  intros r s1 H.
  assert (Hr : Inv (durable s1) /\ no_new_attempt (durable s) (durable s1)).
  { split.
    - destruct (keeps_run quiet _ _ _ _ (quiet_reserve p started (normalize_at_wf _ _ _ Hp)) H) as [Hl _].
      by apply (leads_inv _ _ Hl).
    - unfold reserve_effect in H. run_inv.
      match goal with H : store _ _ = _ |- _ => apply store_inv in H; rename H into Hst end.
      match type of Hst with reserve ?a ?b ?c ?n ?d = _ =>
        pose proof (reserve_attempts a b c n d) as Ha; by rewrite Hst in Ha end. }
  destruct Hr as [Hi1 Hna].
  assert (Hn1 : ~ attempting (durable s1) r.(rsv_effect_key) p.(packet_id)).
  { intros Ha%Hna. by eapply Hn. }
  destruct (rsv_disposition r); try (by apply settle_once).
  - destruct (rsv_receipt r); apply quiet_once; [by apply keeps_ret; typeclasses eauto |
      by apply keeps_throw; typeclasses eauto].
  - apply quiet_once, quiet_reject.
Qed.

(** An execution that [handle] starts. *)
Definition handled_send (submission : value) (d : db) (x : sent) : Prop :=
  exists started p, normalize_at service submission started = Ok p /\ authorised_send p d x.

Lemma handled_send_back submission d d' x :
  leads d d' -> handled_send submission d' x -> handled_send submission d x.
Proof.
  intros Hl (t & p & H1 & H2). exists t, p. split; [done |]. by eapply authorised_send_back.
Qed.

Lemma handle_once submission s :
  Inv (durable s) -> once (handled_send submission) s (handle service submission s).2.
Proof.
  intros Hi. unfold handle.
  apply once_bind; [apply handled_send_back | eauto with keeps | intros started s0 H0].
  apply (keeps_run still _ _ _ _ still_now) in H0 as [Hd0 _].
  unfold bind at 1, lift.
  destruct (normalize_at service submission (replay_instant submission started)) as [p|e] eqn:Hp;
    [|by apply quiet_once].
  apply once_bind; [apply handled_send_back | eauto with keeps | intros existing s1 H1].
  apply (keeps_run still _ _ _ _ (still_answer _ _)) in H1 as [Hd1 _].
  destruct existing as [receipt|]; [by apply quiet_once, keeps_ret; typeclasses eauto |].
  apply once_bind; [apply handled_send_back | | intros [] s2 H2].
  { apply (keeps_weaken settling); [apply settling_quiet | apply settling_recover_pending]. }
  assert (Hi1 : Inv (durable s1)) by congruence.
  destruct (keeps_run settling _ _ _ _ (settling_recover_pending _) H2) as [[Hl2 _] _].
  pose proof (leads_inv _ _ Hl2 Hi1) as Hi2.
  pose proof (recover_pending_ends _ _ _ _ Hi1 H2) as Hn.
  apply once_bind; [apply handled_send_back | eauto with keeps | intros recovered s3 H3].
  apply (keeps_run still _ _ _ _ (still_answer _ _)) in H3 as [Hd3 _].
  destruct recovered as [receipt|]; [by apply quiet_once, keeps_ret; typeclasses eauto |].
  rewrite <- Hd3 in Hi2, Hn.
  eapply once_weaken; [|apply (handle_new_once _ _ p.(packet_id)); try done].
  - intros d x (q & Hq & Hx). by exists started, q.
  - intros q Hq. apply replay_same in Hq as (c & Hc & Hq). rewrite Hc in Hp. congruence.
Qed.

(** ** The tables alone *)

Definition moved (s s' : broker W) : Prop := leads (durable s) (durable s').

#[local] Instance moved_preorder : PreOrder moved.
Proof. split; [by intros s; red | intros s1 s2 s3 H1 H2; red in H1, H2; red; by etransitivity]. Qed.

Lemma quiet_moved s s' : quiet s s' -> moved s s'.
Proof. by intros [H _]. Qed.
#[local] Hint Extern 2 (keeps moved _) =>
  apply (keeps_weaken quiet moved _ quiet_moved); solve [eauto 4 with keeps] : keeps.

Lemma moved_perform p live e k att started mutation_started :
  keeps moved (perform service p live e k att started mutation_started).
Proof. intros s. apply perform_sends. Qed.
#[local] Hint Resolve moved_perform : keeps.

Lemma moved_mutate p live e k started : keeps moved (mutate service p live e k started).
Proof.
  unfold mutate. keeping. apply (keeps_weaken quiet moved _ quiet_moved).
  by eapply quiet_charge_failure.
Qed.
#[local] Hint Resolve moved_mutate : keeps.

Lemma moved_settle p rv started : keeps moved (settle service p rv started).
Proof.
  unfold settle. keeping. apply (keeps_weaken quiet moved _ quiet_moved).
  by eapply quiet_evaluation_failure.
Qed.

(** ** Answers *)

Lemma packet_id_dict p : packet_id_of (packet_dict p) = Ok p.(packet_id).
Proof. done. Qed.

(** The packet's durable receipt is [r]. *)
Abbreviation receipt_is p r s := (receipt_for_packet p.(packet_id) (durable s) = Ok (Some r)).

Lemma reject_answer p k started why digest s r s' :
  Inv (durable s) -> reject service p k started why digest s = (Ok r, s') -> receipt_is p r s'.
Proof.
  intros Hi H. apply rejection_answer in H as (pid & Hp & Hr); [|done].
  rewrite packet_id_dict in Hp. by injection Hp as <-.
Qed.

Lemma perform_answer p live e k att started mutation_started s r s' :
  Inv (durable s) -> perform service p live e k att started mutation_started s = (Ok r, s') ->
  receipt_is p r s'.
Proof.
  intros Hi H. unfold perform in H. apply bind_inv in H as ([] & s1 & H1 & H).
  injection H1 as <-.
  apply attempt_inv in H as [(result & s2 & H1 & H)|(x & s2 & h & H1 & Hh & H)];
    apply (keeps_run still _ _ _ _ (still_call _)) in H1 as [Hd _]; cbn in Hd.
  - unfold record_completed in H. run_inv. stills.
    match goal with H : store _ ?s0 = _ |- _ => apply store_inv in H; rename H into Hst;
      assert (Hi0 : Inv (durable s0)) by congruence end.
    eapply terminalize_answer; [exact Hi0 | exact Hst].
  - destruct x; simplify_eq. rewrite <- Hd in Hi.
    apply indeterminate_answer in H as [(pid & Hp & Hr) _]; [|done].
    rewrite packet_id_dict in Hp. by injection Hp as <-.
Qed.

Lemma charge_failure_answer p k started e handler s r s' :
  Inv (durable s) -> charge_failure service p k started e = Some handler ->
  handler s = (Ok r, s') -> receipt_is p r s'.
Proof.
  intros Hi Hh H. unfold charge_failure in Hh. destruct e; cbn in Hh; simplify_eq;
    first [by eapply reject_answer | discriminate H].
Qed.

Lemma mutate_answer p live e k started s r s' :
  Inv (durable s) -> mutate service p live e k started s = (Ok r, s') -> receipt_is p r s'.
Proof.
  intros Hi H. unfold mutate in H.
  apply bind_inv in H as (att & s1 & H1 & H). apply bind_inv in H as (now & s2 & H2 & H). stills.
  assert (Hi2 : Inv (durable s2)) by congruence.
  apply attempt_inv in H as [(m & s3 & Hb & H)|(x & s3 & h & Hb & Hh & H)];
    pose proof (keeps_run quiet _ _ _ _ (quiet_begin _ _ _ _ _) Hb) as [Hl _];
    pose proof (leads_inv _ _ Hl Hi2) as Hi3.
  2: by eapply charge_failure_answer.
  apply store_inv in Hb. cbv beta in Hb.
  destruct (mrv_disposition m) eqn:Hm; try (by eapply perform_answer); try (by eapply reject_answer).
  destruct (begin_replay _ _ _ _ _ _ _ _ _ Hb Hm) as (Ed & pr & Hpr & Hrec); rewrite Hrec in H.
  injection H as <- <-. unfold begin_mutation in Hb.
  match type of Hb with match ?x with _ => _ end = _ => destruct x eqn:Hk; [|done] end.
  case_res Hk. unfold check_keys in E. case_res E. case_res E.
  unfold receipt_for_packet. match goal with E : negb (fullmatch PACKET_ID_RE _) = false |- _ => rewrite E end. by rewrite Ed, Hpr.
Qed.

Lemma settle_answer p rv started s r s' :
  Inv (durable s) -> settle service p rv started s = (Ok r, s') -> receipt_is p r s'.
Proof.
  intros Hi H. unfold settle in H.
  apply attempt_inv in H as [([[live snapshot] e] & s1 & H1 & H)|(x & s1 & h & H1 & Hh & H)];
    apply (keeps_run still _ _ _ _ (still_evaluation _ _)) in H1 as [Hd _]; rewrite <- Hd in Hi.
  - case_match; [by eapply reject_answer |]. case_match; [|by eapply mutate_answer].
    apply already_answer in H as (pid & Hp & Hr); [|done].
    rewrite packet_id_dict in Hp. by injection Hp as <-.
  - unfold evaluation_failure in Hh. repeat case_match; simplify_eq; by eapply reject_answer.
Qed.

(** The packet [p] is answered by [r]: its durable receipt is [r], and the
    packet the store holds is the one that was submitted. *)
Definition answered (p : Packet) (r : dict) (d : db) : Prop :=
  receipt_for_packet p.(packet_id) d = Ok (Some r) /\
  exists packet, load_packet p.(packet_id) d = Ok packet /\
    py_eq (VDict packet) (packet_value p) = true.

Lemma answered_later ops p r d :
  Inv d -> Forall (op_ok any_limits) ops -> answered p r d -> answered p r (run_all ops d).
Proof.
  intros Hi Ho [H1 (packet & H2 & H3)]. split; [by apply receipt_for_packet_later |].
  exists packet. split; [by apply load_packet_later | done].
Qed.

Lemma stored_answer_some p mismatch (s : broker W) r s' :
  stored_answer p mismatch s = (Ok (Some r), s') -> answered p r (durable s').
Proof.
  intros H. unfold stored_answer in H. apply bind_inv in H as (existing & s1 & H1 & H).
  unfold query in H1. injection H1 as Hr <-. destruct existing as [receipt|]; [|done].
  apply bind_inv in H as (packet & s2 & H2 & H). unfold query in H2. injection H2 as Hl <-.
  case_match; [done |]. injection H as <- <-. split; [done |]. exists packet. split; [done |].
  by apply negb_false_iff.
Qed.

(** A packet that is answered is answered from the store. *)
Lemma stored_answer_of p mismatch r (s : broker W) :
  answered p r (durable s) -> stored_answer p mismatch s = (Ok (Some r), s).
Proof.
  intros [Hr (packet & Hl & Heq)]. unfold stored_answer, bind, query. rewrite Hr, Hl, Heq. done.
Qed.

Lemma handle_new_answer submission started p s r s' :
  Inv (durable s) -> normalize_at service submission started = Ok p ->
  handle_new service submission started s = (Ok r, s') -> answered p r (durable s').
Proof.
  intros Hi Hp H. unfold handle_new in H. unfold bind at 1, lift in H. rewrite Hp in H.
  pose proof (normalize_at_wf _ _ _ Hp) as Hw.
  apply bind_inv in H as (rv & s1 & H1 & H).
  pose proof (keeps_run quiet _ _ _ _ (quiet_reserve p started Hw) H1) as [Hl1 _].
  pose proof (leads_inv _ _ Hl1 Hi) as Hi1.
  assert (Hres : exists thread, reserve (packet_dict p) service.(sv_limits) thread started
    (durable s) = (Ok rv, durable s1)).
  { unfold reserve_effect in H1. run_inv.
    match goal with H : store _ _ = _ |- _ => apply store_inv in H; eauto end. }
  destruct Hres as [thread Hres].
  destruct (reserved_known _ _ _ _ _ _ _ Hres) as (id & Hid & Erp).
  destruct (packet_digests_spec _ _ _ (is_digests _ _ _ (identity_inv _ _ _ Hid)))
    as (_ & _ & _ & _ & Hre & Hget & _).
  change (get (packet_dict p) "packet_id") with (VStr p.(packet_id)) in Hget.
  injection Hget as Hpid. rewrite <- Hpid in Erp, Hre.
  destruct (reserved_packet _ _ _ _ _ _ _ Hi Hw Hres) as (packet & Hload & Heq). rewrite Erp in Hload.
  assert (Hans : receipt_is p r s' /\ leads (durable s1) (durable s')).
  { destruct (rsv_disposition rv) eqn:Ed;
      try (by split; [by eapply settle_answer | by apply (keeps_run moved _ _ _ _ (moved_settle _ _ _) H)]).
    - destruct (reserve_replay _ _ _ _ _ _ _ Hres Ed) as (ps & Hps & Hr). rewrite Hr in H.
      injection H as <- <-. split; [|done]. unfold receipt_for_packet. by rewrite Hre, <- Erp, Hps.
    - split; [by eapply reject_answer | by eapply (keeps_run quiet); [apply quiet_reject | exact H]]. }
  destruct Hans as [Hr (ops & Ho & E)]. split; [done |]. exists packet. split; [|done].
  rewrite E. apply load_packet_later; [done | by eapply ops_ok_weaken | done].
Qed.
End Facts.
