(* ===== verification/Handling.v ===== *)
(** * The broker service is safe

    [handle] over any world: it changes the tables by store operations only, so
    every theorem on the store holds of the service; it asks GitHub for a change
    at most once, and only for an attempt that the store has charged and
    recovery would find; no effect is ever sent more than twice; an answer is
    the packet's durable receipt and is given again for ever.  A call of the
    world may raise any exception in any state, which covers a process that is
    stopped inside the call. *)

From S2P Require Import Prelude Regex Sha256 PyTime PyUrl PyText Json JsonFacts Packet PacketFacts Tables Store StoreSteps StoreInv StoreSafety StoreReplay StoreFrames Protocol Submission SubmissionFacts Boundary Ingress Effects Client Actions ActionFacts Receipts Service ServiceFacts.
Local Open Scope Z_scope.

Section Handling.
Context {W L : Type} `{!LiveActionClient W L} `{!SystemClock W} `{!Runtime W L}.

(** ** The tables *)

Lemma moved_handle_new service submission started :
  keeps (moved service) (handle_new service submission started).
Proof.
  unfold handle_new. apply keeps_lift_bind; [apply moved_preorder |]. intros p Hp.
  apply keeps_bind; [apply moved_preorder | |].
  { apply (keeps_weaken (quiet service)); [apply quiet_moved |].
    apply quiet_reserve. by eapply normalize_at_wf. }
  intros rv s. destruct (rsv_disposition rv); try apply moved_settle.
  - destruct (rsv_receipt rv); [apply keeps_ret | apply keeps_throw]; apply moved_preorder.
  - apply quiet_moved, quiet_reject.
Qed.

Lemma moved_still {A} service (m : M (broker W) A) : keeps still m -> keeps (moved service) m.
Proof. apply keeps_weaken. intros s s' H. by apply quiet_moved, still_quiet. Qed.

Lemma moved_recover service retry : keeps (moved service) (recover_pending service retry).
Proof.
  apply (keeps_weaken (settling service)); [|apply settling_recover_pending].
  intros s s' H. by apply quiet_moved, settling_quiet.
Qed.

Lemma moved_handle service submission : keeps (moved service) (handle service submission).
Proof.
  pose proof (moved_preorder (W := W) service) as HP.
  unfold handle. apply keeps_bind; [done | apply moved_still, still_now |]. intros started.
  apply keeps_bind; [done | apply keeps_lift; exact HP |]. intros p.
  apply keeps_bind; [done | apply moved_still, still_answer |]. intros [r|].
  { apply keeps_ret. exact HP. }
  apply keeps_bind; [done | apply moved_recover |]. intros [].
  apply keeps_bind; [done | apply moved_still, still_answer |]. intros [r|].
  { apply keeps_ret. exact HP. }
  apply moved_handle_new.
Qed.


(** ** Executions *)

(** C3: a handler starts at most one execution.  When it does, the submission
    has been accepted, a live snapshot has authorised the packet and shown the
    effect absent, and the tables at that moment, reached by store operations,
    hold the charge of exactly this attempt, for this packet and this
    evaluation, and list it for recovery: a process that stops inside the
    execution leaves what the next one needs. *)
Theorem sent_after_charge service submission (s : broker W) (Hi : Inv (durable s)) :
  let s' := (handle service submission s).2 in
  executions s' = executions s \/
  exists x started p snapshot e,
    executions s' = executions s ++ [x] /\
    normalize_at service submission started = Ok p /\ x.(st_packet) = p.(packet_id) /\
    evaluate_snapshot (config_dict service.(sv_config)) (packet_dict p) (Live snapshot) true = Ok e /\
    e.(ev_already_satisfied) = false /\
    leads service (durable s) x.(st_tables) /\ leads service x.(st_tables) (durable s') /\
    charged_to x.(st_tables) x.(st_effect) x.(st_packet) x.(st_attempt) e.(ev_before_digest) /\
    exists r, r ∈ pending_recovery x.(st_tables) /\ r.(rec_effect_key) = x.(st_effect) /\
      r.(rec_packet_id) = x.(st_packet) /\ r.(rec_attempt_key) = x.(st_attempt) /\
      r.(rec_precondition_digest) = e.(ev_before_digest).
Proof.
  destruct (handle_once service submission s Hi) as [_ [E | (x & E & Hx & Hl1 & Hl2)]]; [by left | right].
  destruct Hx as (started & p & Hp & snapshot & e & He & Ha & Hpid & Hch & _).
  exists x, started, p, snapshot, e. split_and!; try assumption.
  apply charged_is_listed; [|done]. by apply (leads_inv service _ _ Hl1).
Qed.

(** ** The life of a broker *)

(** The states a broker goes through: it starts on the tables an earlier history
    left, handles submissions and recovers under any configuration, while the
    world changes and the operator works on the store. *)
Inductive served : broker W -> Prop :=
| served_start ops w : Forall (op_ok any_limits) ops ->
    served {| durable := run_all ops empty_db; world := w; executions := [] |}
| served_handle service submission s : served s -> served (handle service submission s).2
| served_recover service retry s : served s -> served (recover_pending service retry s).2
| served_world w s : served s -> served (with_world w s)
| served_operator o s : op_ok any_limits o -> served s -> served (with_durable (run o (durable s)) s).

Definition sent_for (k : pystr) (x : sent) : bool := bool_decide (x.(st_effect) = k).

Lemma once_counts service submission (s s' : broker W) k :
  once service (handled_send service submission) s s' ->
  count (sent_for k) (executions s) <= count (charge_of k) (budget_events (durable s)) ->
  count (sent_for k) (executions s') <= count (charge_of k) (budget_events (durable s')).
Proof.
  intros [Hl [-> | (x & -> & Hx & Hl1 & Hl2)]] H.
  - apply leads_ledger in Hl as (_ & Hpre & _). etransitivity; [exact H | by apply count_prefix].
  - destruct Hx as (started & p & _ & snapshot & e & _ & _ & _ & _ & Hlt).
    apply leads_ledger in Hl1 as (_ & Hp1 & _). apply leads_ledger in Hl2 as (_ & Hp2 & _).
    pose proof (count_prefix (charge_of k) _ _ Hp1). pose proof (count_prefix (charge_of k) _ _ Hp2).
    rewrite count_app, count_one. unfold sent_for at 2. case_bool_decide; [subst; lia | lia].
Qed.

Lemma served_sound (s : broker W) : served s ->
  Inv (durable s) /\
  forall k, count (sent_for k) (executions s) <= count (charge_of k) (budget_events (durable s)).
Proof.
  induction 1 as [ops w Ho | service submission s _ [Hi IH] | service retry s _ [Hi IH]
                 | w s _ IH | o s Ho _ [Hi IH]].
  - split; [by eapply Inv_run_all; [|apply Inv_empty] |]. intros k. cbn. apply count_nonneg.
  - pose proof (handle_once service submission s Hi) as H. split.
    + apply (leads_inv service _ _ (proj1 H) Hi).
    + intros k. eapply once_counts; [exact H | apply IH].
  - pose proof (settling_recover_pending service retry s) as [[Hl He] _]. split.
    + by apply (leads_inv service _ _ Hl).
    + intros k. rewrite He. apply leads_ledger in Hl as (_ & Hpre & _).
      etransitivity; [apply IH | by apply count_prefix].
  - exact IH.
  - split; [by eapply Inv_run |]. intros k. cbn.
    destruct (ledger_run_all [o] (durable s)) as (_ & Hpre & _); [by apply Forall_singleton |].
    etransitivity; [apply IH | by apply count_prefix].
Qed.

(** C2: in the whole life of a broker no semantic effect is sent to GitHub more
    than twice, and never more often than it has been charged: through
    failures, restarts, recoveries, replays and changes of configuration. *)
Theorem effect_sent_at_most_twice (s : broker W) k (H : served s) :
  count (sent_for k) (executions s) <= count (charge_of k) (budget_events (durable s)) /\
  count (sent_for k) (executions s) <= 2.
Proof.
  destruct (served_sound s H) as [Hi Hc]. specialize (Hc k). split; [done |].
  pose proof (charges_bounded (durable s) k Hi). lia.
Qed.

(** ** Answers *)

Lemma handle_answer service submission (s s' : broker W) r :
  Inv (durable s) -> handle service submission s = (Ok r, s') ->
  exists p c, (forall u, replay_instant submission u = c) /\
    normalize_at service submission c = Ok p /\ answered p r (durable s').
Proof.
  intros Hi H. unfold handle in H.
  apply bind_inv in H as (started & s0 & H0 & H).
  apply (keeps_run still _ _ _ _ still_now) in H0 as [Hd0 _].
  apply bind_inv in H as (p & s1 & H1 & H). apply lift_inv in H1 as [Hp ->].
  destruct (replay_same service submission _ _ Hp) as (c & Hc & Hpc). exists p, c.
  split; [done |]. split; [done |].
  apply bind_inv in H as (existing & s1 & H1 & H).
  pose proof (keeps_run still _ _ _ _ (still_answer _ _) H1) as [Hd1 _].
  destruct existing as [receipt|].
  { injection H as <- <-. by eapply stored_answer_some. }
  apply bind_inv in H as ([] & s2 & H2 & H).
  assert (Hi1 : Inv (durable s1)) by congruence.
  destruct (keeps_run (settling service) _ _ _ _ (settling_recover_pending service _) H2) as [[Hl2 _] _].
  pose proof (leads_inv service _ _ Hl2 Hi1) as Hi2.
  apply bind_inv in H as (recovered & s3 & H3 & H).
  pose proof (keeps_run still _ _ _ _ (still_answer _ _) H3) as [Hd3 _].
  destruct recovered as [receipt|].
  { injection H as <- <-. by eapply stored_answer_some. }
  destruct (normalize_at service submission started) as [q|] eqn:Hq.
  - pose proof Hq as Hq'. apply replay_same in Hq' as (c' & Hc' & Hqc).
    assert (q = p) as -> by (pose proof (Hc' 0); pose proof (Hc 0); congruence).
    eapply handle_new_answer; [|exact Hq | exact H]. congruence.
  - unfold handle_new, bind at 1, lift in H. by rewrite Hq in H.
Qed.

(** C4: an answer is final.  When a handler returns, the submission is a valid
    one, its packet's durable receipt is the returned one, and after any later
    store operations and in any later world the same submission is answered
    with the same receipt: from the tables, whatever time it is, without a call
    other than the reading of the clock and without a change. *)
Theorem answer_is_final service submission (s s' : broker W) r
    (Hi : Inv (durable s)) (H : handle service submission s = (Ok r, s')) :
  exists p,
    receipt_for_packet p.(packet_id) (durable s') = Ok (Some r) /\
    (exists c, normalize_at service submission c = Ok p) /\
    forall ops w l, Forall (op_ok any_limits) ops ->
      let later := {| durable := run_all ops (durable s'); world := w; executions := l |} in
      handle service submission later = (Ok r, with_world (service_clock w).2 later).
Proof.
  destruct (handle_answer _ _ _ _ _ Hi H) as (p & c & Hc & Hp & Ha).
  exists p. split; [apply Ha |]. split; [by exists c |]. intros ops w l Ho later.
  assert (Hi' : Inv (durable s')).
  { pose proof (handle_once service submission s Hi) as [Hl _]. rewrite H in Hl.
    by apply (leads_inv service _ _ Hl). }
  pose proof (answered_later ops _ _ _ Hi' Ho Ha) as Hl.
  unfold handle, bind at 1. unfold service_now. cbn [world later].
  destruct (service_clock w) as [t w'] eqn:Ew. cbn [snd].
  rewrite Hc. unfold bind at 1, lift. rewrite Hp. unfold bind at 1.
  rewrite (stored_answer_of p _ r (with_world w' later)) by exact Hl. done.
Qed.
End Handling.
