(* ===== verification/ServiceDemo.v ===== *)
(** * A concrete service

    The service of the demonstration's configuration over a world that is one
    pull request, a draft or ready for review, with a clock that stands still
    and the key pair of ReceiptDemo.v: the witnesses of Handling.v. *)

From S2P Require Import Prelude Regex Sha256 PyTime PyUrl PyText Json JsonFacts Packet Tables Store StoreSteps StoreInv StoreSafety Protocol Submission SubmissionFacts Ingress Effects Client Actions ActionDemo Trust TrustFacts Receipts ReceiptDemo Service ServiceFacts Handling.
Local Open Scope Z_scope.

Definition demo_service : ProtectedBrokerService := {|
  sv_config := signing_config;
  sv_limits := {| requests_per_hour := 3; daily_mutations := 3; mark_pr_ready_per_day := 2;
                  review_threads_per_day := 2; consecutive_indeterminate_limit := 1 |} |}.

(** The world is [true] while the pull request is a draft. *)
#[export] Instance demo_runtime : Runtime bool unit := {|
  service_clock w := (us (T0 + 20), w);
  live_factory _ w := (Ok tt, w);
  signer payload config submission w :=
    match sign_receipt payload config submission VNone VNone None demo_machine with
    | (Ok e, _) =>
        match envelope_value e with VDict d => (Ok d, w) | _ => (Raise (TypeError ""), w) end
    | (Raise x, _) => (Raise x, w)
    end;
  token_hex w := (replicate 32 49%N, w) |}.

Definition demo_broker (draft : bool) : broker bool :=
  {| durable := empty_db; world := draft; executions := [] |}.

(** The packet's submission is handled; the exit state of the run. *)
Notation demo_run := (handle demo_service (submission_value demo_packet) (demo_broker true)).

(** The run sends one execution, the pull request is ready and a receipt is
    returned. *)
Definition executed (r : res dict * broker bool) : bool :=
  let '(x, s) := r in
  is_ok x && negb (world s) && bool_decide (length (executions s) = 1%nat).

Lemma demo_executed : executed demo_run = true.
Proof. vm_compute. reflexivity. Qed.

Lemma executed_inv r :
  executed r = true -> exists d s, r = (Ok d, s) /\ length (executions s) = 1%nat.
Proof.
  destruct r as [[d|e] s]; unfold executed; [|done]. intros [_ H]%andb_prop.
  apply bool_decide_eq_true in H. eauto.
Qed.

Lemma executions_one (s : broker bool) :
  length (executions s) = 1%nat -> exists x, executions s = [x].
Proof. destruct (executions s) as [|x [|y l]]; [done | eauto | done]. Qed.

Example sent_after_charge_witness :
  exists x r, executions demo_run.2 = [x] /\ r ∈ pending_recovery x.(st_tables) /\
    r.(rec_effect_key) = x.(st_effect) /\ r.(rec_attempt_key) = x.(st_attempt).
Proof.
  destruct (sent_after_charge demo_service (submission_value demo_packet) (demo_broker true) Inv_empty)
    as [H | (x & _ & _ & _ & _ & Hx & _ & _ & _ & _ & _ & _ & _ & r & Hr & Hk & _ & Ha & _)].
  - exfalso. destruct (executed_inv _ demo_executed) as (d & s & E & Hl). revert H.
    rewrite E. cbn [snd]. intros H. rewrite H in Hl. discriminate.
  - exists x, r. split; [etransitivity; [exact Hx | reflexivity] |]. split; [exact Hr |]. by split.
Defined.

Lemma demo_served : served demo_run.2.
Proof. apply served_handle. exact (served_start [] true (List.Forall_nil _)). Qed.

Example effect_sent_at_most_twice_witness :
  exists k, count (sent_for k) (executions demo_run.2) = 1 /\
    1 <= count (charge_of k) (budget_events (durable demo_run.2)).
Proof.
  destruct (executed_inv _ demo_executed) as (d & s & E & Hl).
  destruct (executions_one s Hl) as [x Hx]. exists x.(st_effect).
  destruct (effect_sent_at_most_twice demo_run.2 x.(st_effect) demo_served) as [H _].
  assert (Hc : count (sent_for x.(st_effect)) (executions demo_run.2) = 1).
  { rewrite E. cbn [snd]. rewrite Hx, count_one. unfold sent_for. by rewrite bool_decide_true. }
  rewrite Hc in H. by split.
Defined.

Example answer_is_final_witness :
  exists r s', demo_run = (Ok r, s') /\
    handle demo_service (submission_value demo_packet) s' = (Ok r, s').
Proof.
  destruct (executed_inv _ demo_executed) as (r & s' & E & _). exists r, s'. split; [exact E |].
  destruct (answer_is_final demo_service (submission_value demo_packet) (demo_broker true) s' r
    Inv_empty E) as (p & _ & _ & H).
  specialize (H [] (world s') (executions s') (List.Forall_nil _)). destruct s'. exact H.
Defined.
