(* ===== verification/Deployment.v ===== *)
(** * The broker as it is deployed

    What the service is given when its constructor gets a configuration only:
    the App client with its private key (broker/john_lomein_github_app.py), the
    factory of live clients and the signer (broker/john_lomein_broker_service.py).
    The library [cryptography]'s RSA keys are the class [Rsa], HTTPS is the
    class [Https], the key file is read through the system calls of Trust.v. *)

From S2P Require Import Prelude Regex Sha256 PyTime PyUrl PyText Json Encoding Effects Client Protocol Submission Trust Receipts App Live Tables Store Service.
Local Open Scope Z_scope.

(** ** The App's private key *)

Definition MAX_PRIVATE_KEY_BYTES : Z := 128 * 1024.

(** What [load_pem_private_key] gives: it raises, a key that is not RSA, or an
    RSA key; [pkcs1_sign] is [None] when signing raises. *)
Inductive rsa_pem (K : Type) :=
| BadRsaPem
| OtherKey
| RsaKey (k : K).
Arguments BadRsaPem {K}.
Arguments OtherKey {K}.
Arguments RsaKey {K} k.

Class Rsa := {
  rsa_key : Type;
  load_rsa_pem : bytes -> rsa_pem rsa_key;
  key_size : rsa_key -> Z;
  pkcs1_sign : rsa_key -> bytes -> option bytes }.

(** One HTTPS request, as [exchange] of App.v. *)
Class Https (S : Type) := {
  https_exchange : pystr -> pystr -> texts_map -> option pystr -> S ->
    option (Z * texts_map * bytes) * S }.

(** [secrets.token_hex] *)
Class Secrets (S : Type) := { secret_hex : S -> pystr * S }.

(** [mode & 0o077] *)
Definition open_to_others (mode : Z) : bool := negb (Z.land mode 63 =? 0).

Section Key.
Context {S : Type} `{!Files S}.

(** The [while True] loop over [os.read]. *)
Fixpoint read_key_chunks (fuel : nat) (fd total : Z) (chunks : bytes) : M S bytes :=
  match fuel with
  | O => throw OutOfFuel
  | Datatypes.S fuel' =>
      let! chunk := os_read fd (Z.min (64 * 1024) (MAX_PRIVATE_KEY_BYTES + 1 - total)) in
      match chunk with
      | [] => ret chunks
      | _ =>
          let total' := total + zlen chunk in
          if MAX_PRIVATE_KEY_BYTES <? total' then
            throw (GitHubAppError "GitHub App private key exceeds size limit")
          else read_key_chunks fuel' fd total' (chunks ++ chunk)
      end
  end.

Definition check_key_file (info : stat_result) : res unit :=
  raise_if negb (S_ISREG info.(st_mode))
    with (GitHubAppError "GitHub App private key must be a regular file") ;;
  raise_if (info.(st_size) <=? 0) || (MAX_PRIVATE_KEY_BYTES <? info.(st_size))
    with (GitHubAppError "GitHub App private key size is invalid") ;;
  raise_if open_to_others info.(st_mode)
    with (GitHubAppError "GitHub App private key must not be accessible by group or others") ;;
  Ok tt.

Definition read_private_key_snapshot (path : pystr) : M S bytes :=
  let! fd := rethrow isa_os (fun _ => GitHubAppError "GitHub App private key is unreadable")
    (os_open path) in
  ensure
    (let! info := os_fstat fd in
     let! _ := lift (check_key_file info) in
     let! raw := read_key_chunks (Z.to_nat (MAX_PRIVATE_KEY_BYTES + 2)) fd 0 [] in
     if negb (contains raw (str "PRIVATE KEY")) then
       throw (GitHubAppError "GitHub App private key is not PEM encoded")
     else ret raw)
    (os_close fd).

(** The signature of [generate_app_jwt]. *)
Definition app_signature `{!Rsa} (path : pystr) (signing_input : pystr) : M S bytes :=
  let! raw := read_private_key_snapshot path in
  lift match load_rsa_pem raw with
  | BadRsaPem => app_error "GitHub App private key is invalid"
  | OtherKey => app_error "GitHub App private key must be RSA"
  | RsaKey k =>
      raise_if key_size k <? 2048
        with (GitHubAppError "GitHub App RSA private key is too small") ;;
      match pkcs1_sign k signing_input with
      | Some signature => Ok signature
      | None => app_error "GitHub App JWT signing failed"
      end
  end.
End Key.

(** The network of a client whose key is at a path. *)
Definition app_network {S} `{!Files S, !Https S, !Rsa} (path : pystr) : Network S := {|
  exchange := https_exchange; sign_rs256 := app_signature path |}.

(** ** The clients *)

(** [GitHubAppClient.__init__] *)
Definition make_app_client (app_id installation_id : Z) (app_slug : pystr) (repository_id : Z) :
    res AppClient :=
  raise_if installation_id <=? 0 with (GitHubAppError "GitHub App installation id is invalid") ;;
  raise_if repository_id <=? 0 with (GitHubAppError "GitHub repository id is invalid") ;;
  raise_if bool_decide (app_slug = []) with (GitHubAppError "GitHub App slug is invalid") ;;
  Ok {| App.app_id := app_id; App.installation_id := installation_id;
        App.app_slug := app_slug; App.repository_id := repository_id |}.

Section Production.
Context {W : Type} `{!Files W, !Https W, !Rsa, !Ed25519, !SystemClock W, !Secrets W}.

(** [_build_live_client] at an instant in microseconds. *)
Definition build_live_client (config : Config) (now : Z) : M W GitHubLiveClient :=
  let github := config.(github_app) in
  let repository := config.(repository) in
  let policy := config.(policy) in
  let! app := lift (make_app_client github.(Protocol.app_id) github.(Protocol.installation_id)
    github.(Protocol.app_slug) repository.(Protocol.repository_id)) in
  let! credential := authenticate_installation
    (Network0 := app_network github.(github_private_key_path)) app now in
  lift (make_live_client credential repository.(full_name) repository.(Protocol.repository_id)
    policy.(minimum_rate_limit_remaining) policy.(maximum_changed_files)).

(** A signed envelope as the mapping the service stores. *)
Definition envelope_dict (e : Envelope) : dict :=
  match envelope_value e with VDict d => d | _ => [] end.

(** [_sign] *)
Definition default_sign (payload config submission : value) : M W dict :=
  let! e := sign_receipt payload config submission VNone VNone None in
  ret (envelope_dict e).

(** The runtime of [build_service(config)]. *)
Definition production_runtime (config : Config) : Runtime W GitHubLiveClient := {|
  service_clock := utcnow;
  live_factory := build_live_client config;
  signer := default_sign;
  token_hex := secret_hex |}.

Definition production_client (config : Config) : LiveActionClient W GitHubLiveClient :=
  live_client (Network0 := app_network config.(github_app).(github_private_key_path)).

(** [build_service] *)
Definition build_service (config : value) : M (broker W) ProtectedBrokerService :=
  make_service config.

(** [build_service(config).handle(submission)] on a service that is built. *)
Definition production_handle (service : ProtectedBrokerService) (submission : value) :
    M (broker W) dict :=
  handle (LiveActionClient0 := production_client service.(sv_config))
    (Runtime0 := production_runtime service.(sv_config)) service submission.
End Production.

(** ** What a credential was granted for *)

(** GitHub answered [v] to a request with this token. *)
Definition answered_request {S} `{!Network S} (method : string) (path token : pystr)
    (payload : option value) (expected_status : Z) (v : value) : Prop :=
  exists s hdrs s', request_json method path token payload expected_status s = (Ok (v, hdrs), s').

(** The App and its installation are the configured ones, the token can be
    used for 60 to 3700 seconds, carries the requested permissions and none
    beyond the allowed ones, and reaches the configured repository only. *)
Record granted {S} `{!Network S} (client : AppClient) (now : Z) (c : InstallationCredential) :
    Prop := {
  gr_app : exists jwt d, answered_request "GET" (str "/app") jwt None 200 (VDict d) /\
    py_eq (get d "id") (VInt client.(App.app_id)) = true /\
    py_eq (get d "slug") (VStr client.(App.app_slug)) = true;
  gr_installation : exists jwt d,
    answered_request "GET" (str "/app/installations/" ++ dec client.(App.installation_id)) jwt
      None 200 (VDict d) /\
    py_eq (get d "id") (VInt client.(App.installation_id)) = true /\
    py_eq (get d "app_id") (VInt client.(App.app_id)) = true;
  gr_token : exists jwt d,
    answered_request "POST"
      (str "/app/installations/" ++ dec client.(App.installation_id) ++ str "/access_tokens") jwt
      (Some (token_request client)) 201 (VDict d) /\ get d "token" = VStr c.(token);
  gr_clean : c.(token) <> [] /\ 13%N ∉ c.(token) /\ 10%N ∉ c.(token);
  gr_lifetime : 60 * 1000000 <= c.(expires_at) * 1000000 - now <= 3700 * 1000000;
  gr_requested : forall k v, (k, v) ∈ permission_table REQUESTED_PERMISSIONS ->
    lookup_text k c.(permissions) = Some v;
  gr_allowed : forall k v, (k, v) ∈ c.(permissions) ->
    lookup_text k (permission_table ALLOWED_RETURNED_PERMISSIONS) = Some v;
  gr_repository : exists d item,
    answered_request "GET" (str "/installation/repositories?per_page=100") c.(token) None 200
      (VDict d) /\
    get d "total_count" = VInt 1 /\ get d "repositories" = VList [VDict item] /\
    py_eq (get item "id") (VInt client.(App.repository_id)) = true;
  gr_bound : c.(cred_repository_id) = client.(App.repository_id) /\
    c.(cred_installation_id) = client.(App.installation_id) /\
    c.(cred_app_slug) = client.(App.app_slug) }.

Lemma check_app_inv app client : check_app app client = Ok tt ->
  exists d, app = VDict d /\ py_eq (get d "id") (VInt client.(App.app_id)) = true /\
    py_eq (get d "slug") (VStr client.(App.app_slug)) = true.
Proof.
  destruct app as [| | | | | |d]; try done. unfold check_app.
  destruct (py_eq (get d "id") _) eqn:E1; [|done].
  destruct (py_eq (get d "slug") _) eqn:E2; [|done]. eauto.
Qed.

Lemma check_installation_inv v client : check_installation v client = Ok tt ->
  exists d, v = VDict d /\ py_eq (get d "id") (VInt client.(App.installation_id)) = true /\
    py_eq (get d "app_id") (VInt client.(App.app_id)) = true.
Proof.
  destruct v as [| | | | | |d]; try done. unfold check_installation.
  destruct (py_eq (get d "id") _) eqn:E1; [|done].
  destruct (py_eq (get d "app_id") _) eqn:E2; [|done]. eauto.
Qed.

Lemma token_text_inv v t : token_text v = Ok t ->
  v = VStr t /\ t <> [] /\ 13%N ∉ t /\ 10%N ∉ t.
Proof.
  destruct v as [| | | |s| |]; try done. destruct s as [|c s]; [done |]. unfold token_text.
  destruct (existsb (N.eqb 13) (c :: s)) eqn:E1; [done |].
  destruct (existsb (N.eqb 10) (c :: s)) eqn:E2; [done |]. intros [= <-].
  split_and!; [done | done | |]; intros Hin%list_elem_of_In;
    [revert E1 | revert E2]; apply not_false_iff_true, existsb_exists; eexists; (split; [exact Hin | done]).
Qed.

Lemma token_expiry_inv v now t : token_expiry v now = Ok t ->
  60 * 1000000 <= t * 1000000 - now <= 3700 * 1000000.
Proof.
  unfold token_expiry, MAX_TOKEN_LIFETIME_SECONDS. destruct v; try done.
  destruct (strptime s) as [e|]; [|done].
  destruct ((_ <? _) || (_ <? _)) eqn:E; [done |]. intros [= <-].
  apply orb_false_elim in E as [?%Z.ltb_ge ?%Z.ltb_ge]. lia.
Qed.

Lemma token_permissions_inv v l : token_permissions v = Ok l ->
  (forall k x, (k, x) ∈ permission_table REQUESTED_PERMISSIONS -> lookup_text k l = Some x) /\
  (forall k x, (k, x) ∈ l -> lookup_text k (permission_table ALLOWED_RETURNED_PERMISSIONS) = Some x).
Proof.
  unfold token_permissions. destruct v; try done.
  destruct (forallb _ (permission_table REQUESTED_PERMISSIONS)) eqn:E1; [|done]. simpl.
  destruct (forallb _ (map _ _)) eqn:E2; [|done]. intros [= <-]. rewrite forallb_forall in E1, E2.
  split; intros k x Hin%list_elem_of_In; [apply E1 in Hin | apply E2 in Hin];
    by apply bool_decide_eq_true in Hin.
Qed.

Lemma check_repositories_inv v client : check_repositories v client = Ok tt ->
  exists d item, v = VDict d /\ get d "total_count" = VInt 1 /\
    get d "repositories" = VList [VDict item] /\
    py_eq (get item "id") (VInt client.(App.repository_id)) = true.
Proof.
  destruct v as [| | | | | |d]; try done. unfold check_repositories. intros H.
  destruct (get d "total_count") as [| |n| | | |] eqn:E1; try done.
  destruct (decide (n = 1)) as [->|Hn].
  2:{ exfalso. destruct n as [|[p|p|]|p]; done. }
  destruct (get d "repositories") as [| | | | |l|] eqn:E2; try done.
  destruct l as [|[| | | | | |item] [|y l]]; try done.
  destruct (py_eq (get item "id") _) eqn:E3; [|done]. eauto 6.
Qed.

Lemma authenticate_granted {S} `{!Network S} client now s c s' :
  authenticate_installation client now s = (Ok c, s') -> granted client now c.
Proof.
  unfold authenticate_installation. intros H.
  apply bind_inv in H as (jwt & s1 & _ & H).
  apply bind_inv in H as ([app h1] & s2 & Happ & H).
  apply bind_inv in H as ([] & s3 & [Hca ->]%lift_inv & H).
  apply bind_inv in H as ([inst h2] & s4 & Hinst & H).
  apply bind_inv in H as ([] & s5 & [Hci ->]%lift_inv & H).
  apply bind_inv in H as ([tok h3] & s6 & Htok & H).
  apply bind_inv in H as (cred & s7 & [Hcred ->]%lift_inv & H).
  apply bind_inv in H as ([repos h4] & s8 & Hrepos & H).
  apply bind_inv in H as ([] & s9 & [Hcr ->]%lift_inv & H). injection H as -> ->.
  apply check_app_inv in Hca as (da & -> & ? & ?).
  apply check_installation_inv in Hci as (di & -> & ? & ?).
  apply check_repositories_inv in Hcr as (dr & item & -> & ? & ? & ?).
  destruct tok as [| | | | | |dt]; try done.
  destruct (token_text (get dt "token")) as [t|] eqn:Ht; [|done].
  destruct (token_expiry (get dt "expires_at") now) as [e|] eqn:He; [|done].
  destruct (token_permissions (get dt "permissions")) as [ps|] eqn:Hp; [|done].
  injection Hcred as <-.
  apply token_text_inv in Ht as (Ht & Hne & ? & ?). apply token_expiry_inv in He.
  apply token_permissions_inv in Hp as [? ?].
  constructor; cbn.
  - exists jwt, da. split; [by repeat eexists | done].
  - exists jwt, di. split; [by repeat eexists | done].
  - exists jwt, dt. split; [|done]. do 3 eexists. by rewrite <- app_assoc in Htok.
  - done.
  - done.
  - done.
  - done.
  - exists dr, item. split; [by repeat eexists | done].
  - done.
Qed.

(** C19: a live client of the deployed broker works with a credential that was
    granted for the configured App, installation and repository: GitHub
    confirmed the App's identity and its installation, the token lives for 60
    to 3700 seconds, holds every requested permission and none beyond the
    allowed ones, and reaches the configured repository only.  Its limits are
    the configured ones, and what the constructor refuses is an error. *)
Theorem live_client_bound {W} `{!Files W, !Https W, !Rsa} config now (s s' : W) live
    (Hbuilt : build_live_client config now s = (Ok live, s')) :
  exists client credential,
    make_app_client config.(github_app).(Protocol.app_id)
      config.(github_app).(Protocol.installation_id) config.(github_app).(Protocol.app_slug)
      config.(repository).(Protocol.repository_id) = Ok client /\
    granted (Network0 := app_network config.(github_app).(github_private_key_path)) client now
      credential /\
    live.(lc_token) = credential.(token) /\
    live.(lc_repository) = config.(repository).(full_name) /\
    live.(lc_repository_id) = config.(repository).(Protocol.repository_id) /\
    live.(lc_minimum_rate_limit_remaining) = config.(policy).(minimum_rate_limit_remaining) /\
    live.(lc_maximum_changed_files) = config.(policy).(maximum_changed_files).
Proof.
  unfold build_live_client in Hbuilt.
  apply bind_inv in Hbuilt as (client & s1 & [Hc ->]%lift_inv & Hr).
  apply bind_inv in Hr as (credential & s2 & Ha & Hr). apply lift_inv in Hr as [Hl ->].
  apply authenticate_granted in Ha. exists client, credential. split; [done |]. split; [done |].
  unfold make_live_client in Hl.
  repeat match type of Hl with (if ?b then _ else _) = _ => destruct b; [done |] end.
  destruct (cut _ _) as [[owner name]|]; [|done]. by injection Hl as <-.
Qed.
