(* ===== verification/Daemon.v ===== *)
(** * The transport of the broker

    broker/john_lomein_broker_daemon.py: the peer of a connection, frames of
    four length bytes and a payload, one request and its response per
    connection, the accept loop and the environment of the process.  The system
    calls on a connection are the class [Sockets]; time is counted in
    nanoseconds, without the rounding of [float].  The state keeps the frames
    that were handed to [sendall], which nothing reads.  Binding the server
    socket is in Socket.v. *)

From S2P Require Import Prelude Regex Sha256 PyTime PyUrl PyText Json Encoding Protocol Submission Effects Client Actions Tables Store Receipts Service.
Local Open Scope Z_scope.

Definition RESPONSE_SCHEMA : string := "john-lomein.protected-broker-response.v1".
Definition MAX_RESPONSE_BYTES : Z := 512 * 1024.
Definition FRAME_HEADER_BYTES : Z := 4.

(** ** The environment of the process *)

Definition SENSITIVE_ENV_KEYS : list string :=
  ["GH_TOKEN"; "GITHUB_TOKEN"; "NPM_TOKEN"; "NODE_AUTH_TOKEN"; "HTTP_PROXY"; "HTTPS_PROXY";
   "ALL_PROXY"; "NO_PROXY"; "http_proxy"; "https_proxy"; "all_proxy"; "no_proxy";
   "GH_CONFIG_DIR"; "GIT_ASKPASS"; "GIT_SSH_COMMAND"; "SSH_AUTH_SOCK"; "SSH_AGENT_PID";
   "SSL_CERT_FILE"; "SSL_CERT_DIR"; "SSLKEYLOGFILE"; "REQUESTS_CA_BUNDLE"; "CURL_CA_BUNDLE";
   "GIT_SSL_CAINFO"; "NODE_EXTRA_CA_CERTS"; "OPENSSL_CONF"; "OPENSSL_MODULES";
   "OPENSSL_ENGINES"; "AWS_PROFILE"; "AWS_SHARED_CREDENTIALS_FILE";
   "GOOGLE_APPLICATION_CREDENTIALS"; "KUBECONFIG"; "DOCKER_CONFIG"; "NETRC"].

Definition SENSITIVE_ENV_SUFFIXES : list string :=
  ["_API_KEY"; "_PASSWORD"; "_PRIVATE_KEY"; "_SECRET"; "_TOKEN"].

Definition sensitive (key : pystr) : bool :=
  existsb (fun k => bool_decide (key = str k)) SENSITIVE_ENV_KEYS ||
  existsb (fun suffix => startswith (rev (upper_text key)) (rev (str suffix)))
    SENSITIVE_ENV_SUFFIXES.

Definition sanitize_process_environment (environ : list (pystr * pystr)) :
    list (pystr * pystr) :=
  List.filter (fun kv => negb (sensitive kv.1)) environ.

(** ** System calls on a connection *)

(** [sys.platform], with the adapters that platform has. *)
Inductive platform :=
| Linux (has_peercred : bool)
| Darwin (has_getpeereid : bool)
| OtherPlatform.

(** [so_peercred]: pid, uid and gid as [struct.unpack("3i")] gives them;
    [getpeereid]: uid and gid as unsigned integers, [None] when it fails. *)
Class Sockets (W C : Type) := {
  sys_platform : platform;
  so_peercred : C -> M W (Z * Z * Z);
  getpeereid : C -> M W (option (Z * Z));
  monotonic : W -> Z * W;
  set_timeout : C -> Z -> M W unit;
  get_timeout : C -> W -> option Z * W;
  recv : C -> Z -> M W bytes;
  sendall : C -> bytes -> M W unit;
  close_connection : C -> M W unit }.

Record PeerCredentials := { peer_uid : Z; peer_gid : Z; peer_pid : option Z }.

Definition isa_daemon (e : exn) : bool := match e with BrokerDaemonError _ => true | _ => false end.

Definition daemon_error {S A} (m : string) : M S A := throw (BrokerDaemonError m).

Section Frames.
Context {W C : Type} `{!Sockets W C}.

Definition peer_credentials (sock : C) : M W PeerCredentials :=
  match sys_platform with
  | Linux true =>
      let! (pid, uid, gid) := rethrow isa_os
        (fun _ => BrokerDaemonError "socket peer credentials are unavailable")
        (so_peercred sock) in
      if (pid <=? 0) || (uid <? 0) || (gid <? 0) then
        daemon_error "socket peer credentials are invalid"
      else ret {| peer_uid := uid; peer_gid := gid; peer_pid := Some pid |}
  | Darwin true =>
      let! ids := getpeereid sock in
      match ids with
      | Some (uid, gid) => ret {| peer_uid := uid; peer_gid := gid; peer_pid := None |}
      | None => daemon_error "socket peer credentials are unavailable"
      end
  | Darwin false => daemon_error "socket peer credentials are unavailable"
  | _ => daemon_error "this platform has no supported socket peer-credential adapter"
  end.

Definition ticks : M W Z := fun w => let '(t, w') := monotonic w in (Ok t, w').

(** The check of the deadline before a read. *)
Definition await (sock : C) (deadline : option Z) : M W unit :=
  match deadline with
  | None => ret tt
  | Some deadline =>
      let! now := ticks in
      let timeout := deadline - now in
      if timeout <=? 0 then daemon_error "socket request timed out"
      else set_timeout sock timeout
  end.

(** One [recv] with its except clauses. *)
Definition receive (sock : C) (remaining : Z) : M W bytes :=
  rethrow isa_os (fun e => match e with
    | TimeoutError => BrokerDaemonError "socket request timed out"
    | _ => BrokerDaemonError "socket request read failed"
    end) (recv sock remaining).

(** The [while remaining] loop. *)
Fixpoint read_loop (fuel : nat) (sock : C) (deadline : option Z) (remaining : Z)
    (chunks : bytes) : M W bytes :=
  if remaining =? 0 then ret chunks
  else
    match fuel with
    | O => throw OutOfFuel
    | Datatypes.S fuel' =>
        let! _ := await sock deadline in
        let! chunk := receive sock remaining in
        match chunk with
        | [] => daemon_error "socket request ended prematurely"
        | _ => read_loop fuel' sock deadline (remaining - zlen chunk) (chunks ++ chunk)
        end
    end.

(** Every chunk has a byte at least, so [count] rounds are enough. *)
Definition read_exact (sock : C) (count : Z) (deadline : option Z) : M W bytes :=
  read_loop (Z.to_nat count) sock deadline count [].

(** [struct.unpack("!I", header)] *)
Definition unpack_length (header : bytes) : Z := fold_left (fun n b => 256 * n + Z.of_N b) header 0.

(** [struct.pack("!I", n)] *)
Definition pack_length (n : Z) : bytes := be_bytes 4 (Z.to_N n).

Definition read_frame (sock : C) (maximum_bytes : Z) (timeout : option Z) : M W bytes :=
  let! timeout := match timeout with
    | Some t => ret (Some t)
    | None => fun w => let '(t, w') := get_timeout sock w in (Ok t, w')
    end in
  let! deadline := match timeout with
    | Some t =>
        if t <=? 0 then daemon_error "socket request timeout is invalid"
        else let! now := ticks in ret (Some (now + t))
    | None => ret None
    end in
  let! header := read_exact sock FRAME_HEADER_BYTES deadline in
  let length := unpack_length header in
  if (length <=? 0) || (maximum_bytes <? length) then
    daemon_error "socket frame length is outside policy"
  else read_exact sock length deadline.

Definition frame (payload : bytes) : bytes := pack_length (zlen payload) ++ payload.
End Frames.

(** ** Responses *)

(** [canonical_json(...)] as bytes *)
Definition response (v : value) : res bytes := let* text := canonical_json v in Ok (utf8 text).

Definition error_response (code : string) : res bytes :=
  response (obj [("schema_version", vstr RESPONSE_SCHEMA); ("ok", VBool false);
                 ("error", obj [("code", vstr code)])]).

Definition success_response (receipt : dict) : res bytes :=
  response (obj [("schema_version", vstr RESPONSE_SCHEMA); ("ok", VBool true);
                 ("receipt", VDict receipt)]).

(** [json.loads(raw, ...)] with the daemon's hooks. *)
Definition parse_submission (raw : bytes) : res value :=
  let invalid := BrokerProtocolError "broker submission is invalid JSON" in
  let* text := reraise (fun _ => true) (fun _ => invalid) (json_decode raw) in
  reraise (fun e => match e with JSONDecodeError => true | _ => false end) (fun _ => invalid)
    (loads (BrokerProtocolError "broker submission contains duplicate JSON fields")
           (BrokerProtocolError "broker submission contains a non-finite number") text).

(** ** Connections *)

(** The broker, and the frames handed to [sendall] with its success. *)
Record line (W : Type) := { broker_of : broker W; written : list (bytes * bool) }.
Arguments broker_of {W} l.
Arguments written {W} l.

Section Daemon.
Context {W L C : Type} `{!LiveActionClient W L} `{!SystemClock W} `{!Runtime W L} `{!Sockets W C}.
Context (service : ProtectedBrokerService).

Definition with_broker (b : broker W) (s : line W) : line W :=
  {| broker_of := b; written := s.(written) |}.

(** A computation of the broker, and one of the world. *)
Definition serving {A} (m : M (broker W) A) : M (line W) A := fun s =>
  let '(r, b) := m s.(broker_of) in (r, with_broker b s).

Definition system {A} (m : M W A) : M (line W) A := serving (call m).

Definition transmit (sock : C) (framed : bytes) : M (line W) unit := fun s =>
  let '(r, w) := sendall sock framed (world s.(broker_of)) in
  (r, {| broker_of := with_world w s.(broker_of);
         written := s.(written) ++ [(framed, is_ok r)] |}).

Definition write_frame (sock : C) (payload : bytes) (maximum_bytes : Z) : M (line W) unit :=
  if bool_decide (payload = []) || (maximum_bytes <? zlen payload) then
    daemon_error "socket response length is outside policy"
  else
    rethrow isa_os (fun _ => BrokerDaemonError "socket response write failed")
      (transmit sock (frame payload)).

(** [float(request_timeout_seconds)], in nanoseconds *)
Definition request_timeout : Z :=
  service.(sv_config).(transport).(request_timeout_seconds) * 1000000000.

(** The body of the [try] of [handle_connection]. *)
Definition answer_connection (sock : C) : M (line W) unit :=
  let config := service.(sv_config) in
  let! peer := system (peer_credentials sock) in
  let! _ := lift (validate_requester_uid (config_value config) (VInt peer.(peer_uid))) in
  let! raw := system (read_frame sock config.(transport).(max_request_bytes)
    (Some request_timeout)) in
  let! submission := lift (parse_submission raw) in
  let! receipt := serving (handle service submission) in
  let! payload := lift (success_response receipt) in
  write_frame sock payload MAX_RESPONSE_BYTES.

(** The code of an exception: its except clause. *)
Definition error_code (e : exn) : string :=
  if isa_protocol e then "request_rejected"
  else if isa_daemon e then "transport_rejected" else "broker_failure".

(** An error frame; what its transport refuses is dropped. *)
Definition refuse (sock : C) (e : exn) : M (line W) unit :=
  try! _ := (let! payload := lift (error_response (error_code e)) in
             write_frame sock payload MAX_RESPONSE_BYTES)
    except (fun e => if isa_daemon e then Some (ret tt) else None) in
  ret tt.

Definition handle_connection (sock : C) : M (line W) unit :=
  let! _ := system (set_timeout sock request_timeout) in
  try! _ := answer_connection sock except (fun e => Some (refuse sock e)) in
  ret tt.

(** ** The accept loop *)

(** What [accept] returns or raises: a connection, [socket.timeout], [EINTR] or
    another [OSError]. *)
Inductive accepted :=
| Accepted (sock : C)
| AcceptTimeout
| AcceptInterrupted
| AcceptFailed.

(** The rounds of the [while] loop until [stop] is called: the end of the
    list. *)
Fixpoint serve (events : list accepted) : M (line W) unit :=
  match events with
  | [] => ret tt
  | Accepted sock :: events' =>
      let! _ := ensure (handle_connection sock) (system (close_connection sock)) in
      serve events'
  | AcceptTimeout :: events' | AcceptInterrupted :: events' => serve events'
  | AcceptFailed :: _ => daemon_error "broker socket accept failed"
  end.
End Daemon.
