(* ===== verification/Connections.v ===== *)
(** * What a client of the broker's socket can rely on

    [frame_roundtrip]: a frame is read back from any stream that delivers it in
    time, whatever its chunks.  [connection_contained]: no exception leaves a
    connection.  [daemon_run_sound]: over a whole run of the accept loop, with
    an arbitrary world and arbitrary clients, every receipt that is sent is the
    durable answer to a submission of the configured requester, and no effect
    is executed more than twice. *)

From S2P Require Import Prelude Regex Sha256 PyTime PyUrl PyText Json JsonFacts Packet Tables Store StoreSteps StoreInv StoreSafety StoreReplay StoreFrames Encoding Protocol ConfigFacts Submission SubmissionFacts Ingress Effects Client Actions Receipts Service ServiceFacts Handling Daemon.
Local Open Scope Z_scope.

(** ** Frames *)

Lemma unpack_app h b : unpack_length (h ++ [b]) = 256 * unpack_length h + Z.of_N b.
Proof. unfold unpack_length. by rewrite fold_left_app. Qed.

Lemma pack_length_len n : zlen (pack_length n) = 4.
Proof. done. Qed.

Lemma unpack_pack n : 0 <= n < 4294967296 -> unpack_length (pack_length n) = n.
Proof.
  intros Hn. unfold pack_length, be_bytes, unpack_length. cbn [rev seq map app fold_left].
  assert (Hb : forall k, Z.of_N (N.land (N.shiftr (Z.to_N n) k) 255) = (n / 2 ^ Z.of_N k) mod 256).
  { intros k. change 255%N with (N.ones 8). rewrite N.land_ones, N.shiftr_div_pow2.
    rewrite N2Z.inj_mod, N2Z.inj_div, N2Z.inj_pow, Z2N.id by lia. done. }
  cbn [Nat.mul]. rewrite !Hb. simpl. Z.to_euclidean_division_equations. lia.
Qed.

Section Stream.
Context {W C : Type} `{!Sockets W C} (sock : C) (incoming : W -> bytes) (limit : Z).

(** [recv] blocks until there is something to read; the clock stays below the
    limit while the frame arrives. *)
Context (recv_stream : forall n w, 0 < n -> incoming w <> [] -> exists chunk w',
  recv sock n w = (Ok chunk, w') /\ chunk <> [] /\ zlen chunk <= n /\
  incoming w = chunk ++ incoming w').
Context (clock_runs : forall w, 0 <= (monotonic w).1 < limit /\
  incoming (monotonic (C := C) w).2 = incoming w).
Context (timeout_set : forall t w, 0 < t -> exists w',
  set_timeout sock t w = (Ok tt, w') /\ incoming w' = incoming w).

Lemma read_loop_stream fuel deadline n w chunks data rest :
  limit <= deadline -> (Z.to_nat n <= fuel)%nat -> zlen data = n -> incoming w = data ++ rest ->
  exists w', read_loop fuel sock (Some deadline) n chunks w = (Ok (chunks ++ data), w') /\
    incoming w' = rest.
Proof.
  intros Hd. revert n w chunks data. induction fuel as [|fuel IH]; intros n w chunks data Hf Hn Hi;
    cbn [read_loop].
  - assert (n = 0) as -> by (unfold zlen in *; lia). destruct data; [|done].
    rewrite Z.eqb_refl, app_nil_r. by exists w.
  - destruct (Z.eqb_spec n 0) as [->|Hne].
    { destruct data; [|done]. rewrite app_nil_r. by exists w. }
    unfold bind at 1, await, bind at 1, ticks.
    destruct (clock_runs w) as [Hc Hw]. destruct (monotonic w) as [now w1]. simpl in Hc, Hw.
    rewrite (proj2 (Z.leb_gt _ _)) by lia.
    destruct (timeout_set (deadline - now) w1) as (w2 & -> & Hw2); [lia |].
    unfold bind, receive, rethrow.
    destruct (recv_stream n w2) as (chunk & w3 & -> & Hcne & Hcl & Hw3).
    { unfold zlen in *; lia. }
    { rewrite Hw2, Hw, Hi. destruct data; [unfold zlen in *; simpl in *; lia | done]. }
    cbn [reraise]. destruct chunk as [|b chunk]; [done |].
    rewrite Hw2, Hw, Hi in Hw3.
    apply app_eq_app in Hw3 as (data' & [[-> Hr] | [Hr Hrest]]).
    + destruct (IH (n - zlen (b :: chunk)) w3 (chunks ++ b :: chunk) data') as (w' & H & Hw').
      { unfold zlen in *. simpl in *. lia. }
      { rewrite zlen_app in Hn. lia. }
      { done. }
      exists w'. rewrite <- app_assoc in H. done.
    + assert (data' = []) as ->.
      { destruct data'; [done |]. rewrite Hr in Hcl. rewrite zlen_app in Hcl.
        unfold zlen in *; simpl in *; lia. }
      rewrite app_nil_r in Hr. simpl in Hrest. subst data.
      destruct (IH (n - zlen (b :: chunk)) w3 (chunks ++ b :: chunk) []) as (w' & H & Hw').
      { unfold zlen in *; simpl in *; lia. }
      { unfold zlen in *; simpl in *; lia. }
      { by rewrite <- Hrest. }
      exists w'. by rewrite app_nil_r in H.
Qed.

End Stream.

(** ** The state behind a connection *)

Section Connections.
Context {W L C : Type} `{!LiveActionClient W L} `{!SystemClock W} `{!Runtime W L} `{!Sockets W C}.
Context (service : ProtectedBrokerService).

(** Only the world moves. *)
Definition silent (s s' : line W) : Prop :=
  written s' = written s /\ still (broker_of s) (broker_of s').

#[local] Instance still_preorder' : PreOrder (still (W := W)).
Proof. split; [by intros s | intros s1 s2 s3 [H1 H2] [H3 H4]; split; congruence]. Qed.

#[local] Instance silent_preorder : PreOrder silent.
Proof.
  split; [by intros s | intros s1 s2 s3 [H1 H2] [H3 H4]]. split; [congruence | by etransitivity].
Qed.

Lemma silent_system {A} (m : M W A) : keeps silent (system m).
Proof. intros s. unfold system, serving, call. by destruct (m (world (broker_of s))). Qed.

(** The frames that a connection adds. *)
Definition error_frame (f : bytes) : Prop :=
  exists e payload, error_response (error_code e) = Ok payload /\ f = frame payload.

(** A receipt that the broker gave the configured requester for a packet, and
    gives for ever on the tables [d]. *)
Definition receipt_frame (d : db) (f : bytes) : Prop :=
  exists (sock : C) (w w' w1 w2 : W) peer raw submission (b b' : broker W) p c r payload,
    peer_credentials sock w = (Ok peer, w') /\
    peer.(peer_uid) = service.(sv_config).(transport).(requester_uid) /\
    read_frame sock service.(sv_config).(transport).(max_request_bytes)
      (Some (request_timeout service)) w1 = (Ok raw, w2) /\
    parse_submission raw = Ok submission /\
    handle service submission b = (Ok r, b') /\
    normalize_at service submission c = Ok p /\
    answered p r d /\ success_response r = Ok payload /\ f = frame payload.

Lemma receipt_frame_later d d' f : leads service d d' -> Inv d -> receipt_frame d f -> receipt_frame d' f.
Proof.
  intros (ops & Ho & ->) Hi (sock & w & w' & w1 & w2 & peer & raw & v & b & b' & p & c & r & payload &
    H1 & H2 & H3 & H4 & H5 & H6 & H7 & H8 & H9).
  exists sock, w, w', w1, w2, peer, raw, v, b, b', p, c, r, payload. split_and!; try assumption.
  apply answered_later; [done | by eapply ops_ok_weaken | done].
Qed.

(** ** One connection *)

(** A computation that writes nothing and moves the tables by store operations
    only. *)
Definition mute (s s' : line W) : Prop :=
  written s' = written s /\ moved service (broker_of s) (broker_of s').

#[local] Instance mute_preorder : PreOrder mute.
Proof.
  pose proof (moved_preorder (W := W) service) as Hp.
  split; [by intros s | intros s1 s2 s3 [H1 H2] [H3 H4]]. split; [congruence | by etransitivity].
Qed.

Lemma silent_mute s s' : silent s s' -> mute s s'.
Proof. intros [H1 H2]. split; [done | by apply quiet_moved, still_quiet]. Qed.

Lemma mute_system {A} (m : M W A) : keeps mute (system m).
Proof. apply (keeps_weaken silent); [apply silent_mute | apply silent_system]. Qed.

Lemma mute_handle submission : keeps mute (serving (handle service submission)).
Proof.
  intros s. unfold serving. pose proof (moved_handle service submission (broker_of s)) as H.
  by destruct (handle service submission (broker_of s)).
Qed.

(** [write_frame] hands at most one frame to the socket. *)
Lemma write_frame_spec (sock : C) payload (s : line W) r s' :
  write_frame sock payload MAX_RESPONSE_BYTES s = (r, s') ->
  still (broker_of s) (broker_of s') /\
  ((exists e, r = Raise e) /\ written s' = written s \/
   written s' = written s ++ [(frame payload, is_ok r)]).
Proof.
  unfold write_frame. destruct (_ || _).
  { unfold daemon_error, throw. intros [= <- <-]. split; [done |]. left. eauto. }
  unfold rethrow, transmit. destruct (sendall sock (frame payload) (world (broker_of s))) as [q w].
  intros [= <- <-]. split; [done |]. right. cbn. do 3 f_equal. destruct q as [|e]; [done |].
  simpl. by destruct (isa_os e).
Qed.

(** What a connection has done when it ends with [r]: nothing was written and it
    failed, or a receipt was. *)
Definition outcome {A} (s : line W) (r : res A) (s' : line W) : Prop :=
  moved service (broker_of s) (broker_of s') /\
  ((exists e, r = Raise e) /\ written s' = written s \/
   exists f, receipt_frame (durable (broker_of s')) f /\ written s' = written s ++ [(f, is_ok r)]).

Lemma outcome_bind {A B} (m : M (line W) A) (k : A -> M (line W) B) s r s' :
  keeps mute m -> bind m k s = (r, s') ->
  (forall a s1, m s = (Ok a, s1) -> k a s1 = (r, s') -> outcome s1 r s') -> outcome s r s'.
Proof.
  intros Hm Hb Hk. specialize (Hm s). unfold bind in Hb.
  destruct (m s) as [[a|e] s1]; destruct Hm as [Hw Hmv]; simpl in *.
  - destruct (Hk a s1 eq_refl Hb) as [Hmv' Hr]. split.
    + pose proof (moved_preorder (W := W) service). by etransitivity.
    + by rewrite Hw in Hr.
  - injection Hb as <- <-. split; [done |]. left. split; [by eexists | done].
Qed.

Lemma keeps_mute_lift {A} (r : res A) : keeps mute (lift (S := line W) r).
Proof. apply keeps_lift, mute_preorder. Qed.

Lemma system_ok {A} (m : M W A) (s : line W) a s' :
  system m s = (Ok a, s') -> exists w w', m w = (Ok a, w').
Proof.
  unfold system, serving, call. destruct (m (world (broker_of s))) as [r w] eqn:E.
  intros [= -> _]. eauto.
Qed.

Lemma requester_of peer u : config_ok service.(sv_config) ->
  validate_requester_uid (config_value service.(sv_config)) (VInt peer) = Ok u ->
  peer = service.(sv_config).(transport).(requester_uid).
Proof.
  intros Hc H. apply requester_authorized in H as (c & Hn & [= ->] & Hu & _).
  rewrite config_complete in Hn by done. congruence.
Qed.

Lemma answer_connection_spec (sock : C) (s : line W) r s' :
  config_ok service.(sv_config) -> Inv (durable (broker_of s)) ->
  answer_connection service sock s = (r, s') -> outcome s r s'.
Proof.
  intros Hcfg Hi H. unfold answer_connection in H.
  eapply outcome_bind; [apply mute_system | exact H |]. clear H. intros peer s1 Hpeer H.
  pose proof (silent_system (peer_credentials sock) s) as [_ [Hd1 _]]. rewrite Hpeer in Hd1.
  eapply outcome_bind; [apply keeps_mute_lift | exact H |]. clear H.
  intros uid s1' [Huid ->]%lift_inv H.
  eapply outcome_bind; [apply mute_system | exact H |]. clear H. intros raw s2 Hraw H.
  pose proof (silent_system (read_frame sock service.(sv_config).(transport).(max_request_bytes)
    (Some (request_timeout service))) s1) as [_ [Hd2 _]]. rewrite Hraw in Hd2.
  eapply outcome_bind; [apply keeps_mute_lift | exact H |]. clear H.
  intros submission s2' [Hparse ->]%lift_inv H.
  eapply outcome_bind; [apply mute_handle | exact H |]. clear H. intros receipt s3 Hhandle H.
  eapply outcome_bind; [apply keeps_mute_lift | exact H |]. clear H.
  intros payload s3' [Hresp ->]%lift_inv H.
  apply write_frame_spec in H as [Hst [[[e ->] Hwr] | Hwr]].
  { split; [by apply quiet_moved, still_quiet |]. left. split; [by eexists | done]. }
  split; [by apply quiet_moved, still_quiet |]. right. exists (frame payload). split; [|done].
  apply system_ok in Hpeer as (w & w' & Hpeer). apply system_ok in Hraw as (w1 & w2 & Hraw).
  unfold serving in Hhandle. destruct (handle service submission (broker_of s2)) as [q b'] eqn:Hq.
  injection Hhandle as -> <-.
  assert (Hi2 : Inv (durable (broker_of s2))) by (cbn in Hd1, Hd2; congruence).
  destruct (handle_answer service submission _ _ _ Hi2 Hq) as (p & c & _ & Hp & Ha).
  exists sock, w, w', w1, w2, peer, raw, submission, (broker_of s2), b', p, c, receipt, payload.
  split_and!; try done.
  - by eapply requester_of.
  - destruct Hst as [-> _]. done.
Qed.

(** The frames of one connection: an error, or a receipt, or a receipt whose
    transmission failed and an error. *)
Definition connection_frames (d : db) (l : list (bytes * bool)) : Prop :=
  l = [] \/
  (exists f ok, l = [(f, ok)] /\ (error_frame f \/ receipt_frame d f)) \/
  exists f g ok, l = [(f, false); (g, ok)] /\ receipt_frame d f /\ error_frame g.

Lemma refuse_spec (sock : C) e (s : line W) r s' :
  refuse sock e s = (r, s') ->
  still (broker_of s) (broker_of s') /\
  (written s' = written s \/ exists f ok, error_frame f /\ written s' = written s ++ [(f, ok)]).
Proof.
  unfold refuse. set (m := bind _ _). intros H.
  assert (Hm : forall r1 s1, m s = (r1, s1) -> still (broker_of s) (broker_of s1) /\
    (written s1 = written s \/
     exists f ok, error_frame f /\ written s1 = written s ++ [(f, ok)])).
  { intros r1 s1 H1. subst m. unfold bind, lift in H1.
    destruct (error_response (error_code e)) as [payload|e'] eqn:Hp.
    - apply write_frame_spec in H1 as [Hs [[_ Hw] | Hw]]; split; try done; [by left |].
      right. exists (frame payload), (is_ok r1). split; [|done]. by exists e, payload.
    - injection H1 as _ <-. split; [done | by left]. }
  unfold attempt in H. destruct (m s) as [[[]|e1] s1]; specialize (Hm _ _ eq_refl).
  - by injection H as _ <-.
  - destruct (isa_daemon e1); by injection H as _ <-.
Qed.

Lemma connection_spec (sock : C) (s : line W) r s' :
  config_ok service.(sv_config) -> Inv (durable (broker_of s)) ->
  handle_connection service sock s = (r, s') ->
  moved service (broker_of s) (broker_of s') /\
  exists l, written s' = written s ++ l /\ connection_frames (durable (broker_of s')) l.
Proof.
  intros Hcfg Hi H. unfold handle_connection in H. unfold bind at 1 in H.
  pose proof (silent_system (set_timeout sock (request_timeout service)) s) as [Hw0 [Hd0 He0]].
  destruct (system (set_timeout sock (request_timeout service)) s) as [[[]|e0] s0]; cbn in *.
  2:{ injection H as _ <-. split; [by apply quiet_moved, still_quiet |].
      exists []. rewrite app_nil_r. split; [done | by left]. }
  assert (Hm0 : moved service (broker_of s) (broker_of s0)) by (by apply quiet_moved, still_quiet).
  unfold attempt in H. destruct (answer_connection service sock s0) as [[[]|e] s1] eqn:Ha;
    apply answer_connection_spec in Ha as [Hm1 Hw1]; try done; try congruence;
    pose proof (moved_preorder (W := W) service) as Hp;
    assert (Hm : moved service (broker_of s) (broker_of s1)) by (by etransitivity).
  - injection H as _ <-. split; [done |]. destruct Hw1 as [[[? [=]] _] | (f & Hf & Hw)].
    cbn in Hw. exists [(f, true)]. split; [congruence |]. right. left. exists f, true. auto.
  - apply refuse_spec in H as [[Hd2 He2] Hw2].
    assert (Hm2 : moved service (broker_of s) (broker_of s')).
    { etransitivity; [exact Hm | by apply quiet_moved, still_quiet]. }
    split; [done |]. rewrite Hd2. destruct Hw1 as [[_ Hw] | (f & Hf & Hw)]; cbn in Hw.
    + destruct Hw2 as [Hw2 | (g & ok & Hg & Hw2)].
      * exists []. rewrite app_nil_r. split; [congruence | by left].
      * exists [(g, ok)]. split; [congruence |]. right. left. eauto.
    + destruct Hw2 as [Hw2 | (g & ok & Hg & Hw2)].
      * exists [(f, false)]. split; [congruence |]. right. left. eauto.
      * exists [(f, false); (g, ok)]. split; [|right; right; eauto 7].
        by rewrite Hw2, Hw, Hw0, <- app_assoc.
Qed.

(** ** A run of the accept loop *)

(** The frames a daemon has written on the tables [d]. *)
Definition sound_frames (d : db) (l : list (bytes * bool)) : Prop :=
  Forall (fun x => error_frame x.1 \/ receipt_frame d x.1) l.

Lemma sound_frames_later d d' l : leads service d d' -> Inv d -> sound_frames d l -> sound_frames d' l.
Proof.
  intros Hl Hi H. eapply Forall_impl; [exact H |]. intros x [Hx|Hx]; [by left | right].
  by eapply receipt_frame_later.
Qed.

Lemma connection_frames_sound d l : connection_frames d l -> sound_frames d l.
Proof.
  intros [-> | [(f & ok & -> & H) | (f & g & ok & -> & Hf & Hg)]]; unfold sound_frames;
    rewrite ?Forall_cons, ?Forall_nil; cbn; tauto.
Qed.

(** The broker of the line goes through states a broker goes through. *)
Definition serves (s s' : line W) : Prop := served (broker_of s) -> served (broker_of s').

#[local] Instance serves_preorder : PreOrder serves.
Proof. split; [by intros s H | intros s1 s2 s3 H1 H2 H; by apply H2, H1]. Qed.

Lemma serves_system {A} (m : M W A) : keeps serves (system m).
Proof.
  intros s H. unfold system, serving, call. destruct (m (world (broker_of s))) as [r w].
  by apply served_world.
Qed.

Lemma serves_lift {A} (r : res A) : keeps serves (lift (S := line W) r).
Proof. apply keeps_lift, serves_preorder. Qed.

Lemma serves_write_frame (sock : C) payload n : keeps serves (write_frame sock payload n).
Proof.
  unfold write_frame. destruct (_ || _); [apply keeps_throw, serves_preorder |].
  apply keeps_rethrow. intros s H. unfold transmit.
  destruct (sendall sock (frame payload) (world (broker_of s))) as [r w]. by apply served_world.
Qed.

Lemma serves_handle submission : keeps serves (serving (handle service submission)).
Proof.
  intros s H. unfold serving. pose proof (served_handle service submission _ H) as Hh.
  by destruct (handle service submission (broker_of s)).
Qed.

#[local] Hint Resolve serves_preorder serves_system serves_lift serves_write_frame serves_handle : keeps.
#[local] Hint Extern 1 (keeps serves (ret _)) => apply keeps_ret, serves_preorder : keeps.

Lemma serves_refuse (sock : C) e : keeps serves (refuse sock e).
Proof.
  unfold refuse. apply keeps_attempt; [apply serves_preorder | | | by auto with keeps].
  - apply keeps_bind; auto with keeps.
  - intros e' h. destruct (isa_daemon e'); intros [= <-]. auto with keeps.
Qed.

Lemma serves_connection (sock : C) : keeps serves (handle_connection service sock).
Proof.
  pose proof serves_preorder as HP. unfold handle_connection.
  apply keeps_bind; [done | apply serves_system |]. intros [].
  apply keeps_attempt; [done | | intros e h [= <-]; apply serves_refuse | auto with keeps].
  unfold answer_connection. repeat (apply keeps_bind; [done | by auto with keeps | intros ?]).
  apply serves_write_frame.
Qed.

Lemma serves_run events : keeps serves (serve service events).
Proof.
  pose proof serves_preorder as HP.
  induction events as [|[sock| | |] events IH]; cbn [serve]; try done; try (apply keeps_ret; done).
  - apply keeps_bind; [done | | done]. intros s H. unfold ensure.
    pose proof (serves_connection sock s H) as H1.
    destruct (handle_connection service sock s) as [r s1].
    pose proof (serves_system (close_connection sock) s1 H1) as H2.
    by destruct (system (close_connection sock) s1) as [[[]|e] s2].
  - by apply keeps_throw.
Qed.

Lemma run_frames events (s : line W) :
  config_ok service.(sv_config) -> Inv (durable (broker_of s)) ->
  sound_frames (durable (broker_of s)) (written s) ->
  let s' := (serve service events s).2 in
  Inv (durable (broker_of s')) /\ sound_frames (durable (broker_of s')) (written s').
Proof.
  intros Hcfg. revert s. induction events as [|[sock| | |] events IH]; intros s Hi Hs;
    cbn [serve]; try done; try (by apply IH).
  unfold bind, ensure.
  destruct (handle_connection service sock s) as [r s1] eqn:Hc.
  apply connection_spec in Hc as (Hm & l & Hw & Hl); try done.
  assert (Hi1 : Inv (durable (broker_of s1))) by (by apply (leads_inv service _ _ Hm)).
  assert (Hs1 : sound_frames (durable (broker_of s1)) (written s1)).
  { rewrite Hw. apply Forall_app. split; [by eapply sound_frames_later |].
    by apply connection_frames_sound. }
  pose proof (silent_system (close_connection sock) s1) as [Hw2 [Hd2 _]].
  destruct (system (close_connection sock) s1) as [[[]|e] s2]; cbn in Hw2, Hd2.
  - destruct r as [[]|e]; [apply IH | cbn]; by rewrite ?Hd2, ?Hw2.
  - cbn. by rewrite Hd2, Hw2.
Qed.

(** C1: the whole of the broker, from the bytes of the socket to the bytes of
    the socket.  Whatever clients connect, send and do not send, whatever GitHub
    and the system calls answer, and whatever the broker did before: every
    frame the accept loop has handed to a socket is an error, or a receipt
    that the service gave the configured requester for the submission it sent
    and that the final tables hold as the packet's answer; the tables keep
    their invariant, and no effect is executed more than twice. *)
Theorem daemon_run_sound config events (b : broker W)
    (Hconfig : normalize_config config = Ok service.(sv_config)) (Hserved : served b) :
  let s' := (serve service events {| broker_of := b; written := [] |}).2 in
  Forall (fun x => error_frame x.1 \/ receipt_frame (durable (broker_of s')) x.1) (written s') /\
  Inv (durable (broker_of s')) /\ served (broker_of s') /\
  forall k, count (sent_for k) (executions (broker_of s')) <= 2.
Proof.
  intros s'. destruct (served_sound b Hserved) as [Hi _].
  destruct (run_frames events {| broker_of := b; written := [] |}) as [Hi' Hf];
    [by eapply config_sound | done | by constructor |].
  pose proof (serves_run events {| broker_of := b; written := [] |} Hserved) as Hs.
  split; [exact Hf |]. split; [exact Hi' |]. split; [exact Hs |]. intros k.
  destruct (served_sound (broker_of s') Hs) as [_ Hc]. specialize (Hc k).
  pose proof (charges_bounded (durable (broker_of s')) k Hi') as Hb. lia.
Qed.

(** ** Exceptions *)

Lemma error_response_ok code : exists payload, error_response code = Ok payload.
Proof. by eexists. Qed.

(** C31: no exception leaves a connection: whatever the client sends and
    whatever the peer check, the parser, the service and GitHub raise, the
    handler ends normally, as long as the socket takes its timeout and fails
    to send with [OSError] only. *)
Theorem connection_contained (sock : C) (s : line W)
    (Hset : forall t w, (set_timeout sock t w).1 = Ok tt)
    (Hsend : forall framed w e, (sendall sock framed w).1 = Raise e -> isa_os e = true) :
  (handle_connection service sock s).1 = Ok tt.
Proof.
  assert (Hrefuse : forall e s1, (refuse sock e s1).1 = Ok tt).
  { intros e s1. unfold refuse, attempt, bind, lift.
    destruct (error_response_ok (error_code e)) as [payload ->].
    unfold write_frame. destruct (_ || _); [done |]. unfold rethrow, transmit.
    pose proof (Hsend (frame payload) (world (broker_of s1))) as Hs.
    destruct (sendall sock (frame payload) (world (broker_of s1))) as [[[]|e'] w]; [done |].
    simpl in *. by rewrite (Hs e' eq_refl). }
  unfold handle_connection, bind, attempt. specialize (Hset (request_timeout service) (world (broker_of s))).
  unfold system, serving, call at 1.
  destruct (set_timeout sock (request_timeout service) (world (broker_of s))) as [q w]. simpl in Hset.
  subst q. cbn. destruct (answer_connection service sock _) as [[[]|e] s1]; [done | apply Hrefuse].
Qed.
End Connections.
