(* ===== verification/DaemonDemo.v ===== *)
(** * A concrete daemon

    The service of ServiceDemo.v behind a socket on which the requester sends
    one submission, in chunks, and an App client that authenticates with
    recorded answers: the witnesses of Connections.v and Deployment.v. *)

From S2P Require Import Prelude Regex Sha256 PyTime PyUrl PyText Json JsonFacts Encoding Packet Tables Store StoreSteps StoreInv StoreSafety Protocol ConfigFacts Submission SubmissionFacts Ingress Effects Client Actions ActionDemo Trust TrustFacts Receipts ReceiptDemo App Live Service ServiceFacts Handling ServiceDemo Deployment Daemon Connections.
Local Open Scope Z_scope.

(** ** A socket *)

(** The pull request is a draft, and what the peer has sent. *)
Record socket_world := { draft : bool; input : bytes }.

Definition on_draft {A} (m : M bool A) : M socket_world A := fun w =>
  let '(r, d) := m w.(draft) in (r, {| draft := d; input := w.(input) |}).

#[local] Instance socket_client : LiveActionClient socket_world unit := {
  fetch_snapshot live n url := on_draft (fetch_snapshot live n url);
  mark_pr_ready live id mutation := on_draft (mark_pr_ready live id mutation);
  resolve_review_thread live id mutation := on_draft (resolve_review_thread live id mutation) }.

#[local] Instance socket_clock : SystemClock socket_world := { utcnow w := (us T0, w) }.

#[local] Instance socket_runtime : Runtime socket_world unit := {
  service_clock w := (us (T0 + 20), w);
  live_factory _ w := (Ok tt, w);
  signer payload config submission := on_draft (signer payload config submission);
  token_hex w := (replicate 32 49%N, w) }.

(** At most 1000 bytes arrive at once. *)
Definition deliver (n : Z) (w : socket_world) : res bytes * socket_world :=
  let k := Z.to_nat (Z.min 1000 n) in
  (Ok (take k w.(input)), {| draft := w.(draft); input := drop k w.(input) |}).

#[local] Instance demo_sockets : Sockets socket_world unit := {
  sys_platform := Linux true;
  so_peercred _ w := (Ok (77, signing_config.(transport).(requester_uid), 100), w);
  getpeereid _ w := (Ok None, w);
  monotonic w := (5, w);
  set_timeout _ _ w := (Ok tt, w);
  get_timeout _ w := (None, w);
  recv _ n w := deliver n w;
  sendall _ _ w := (Ok tt, w);
  close_connection _ w := (Ok tt, w) }.

Definition demo_payload : bytes := Eval vm_compute in utf8 (dumps (submission_value demo_packet)).

Definition socket_start : socket_world := {| draft := true; input := frame demo_payload |}.


(** ** A run of the daemon *)

Definition daemon_start : broker socket_world :=
  {| durable := run_all [] empty_db; world := socket_start; executions := [] |}.

(** A timeout, then a connection. *)
Notation demo_serve :=
  (serve demo_service [AcceptTimeout; Accepted tt] {| broker_of := daemon_start; written := [] |}).

(** One frame is written, too long for an error. *)
Definition answers (s : line socket_world) : bool :=
  match written s with
  | [(f, true)] => 400 <? zlen f
  | _ => false
  end.

Lemma demo_serves : answers demo_serve.2 = true.
Proof. vm_compute. reflexivity. Qed.

Lemma answers_inv s : answers s = true -> exists f, written s = [(f, true)] /\ 400 < zlen f.
Proof.
  unfold answers. destruct (written s) as [|[f [|]] [|y l]]; try done.
  intros H%Z.ltb_lt. eauto.
Qed.

Lemma error_frame_short f : error_frame f -> zlen f < 400.
Proof.
  intros (e & payload & Hp & ->). unfold error_code in Hp.
  destruct (isa_protocol e); [|destruct (isa_daemon e)]; injection Hp as <-; vm_compute; reflexivity.
Qed.

(** The daemon answers the submission with a durable receipt. *)
Example daemon_run_sound_witness :
  exists f, written demo_serve.2 = [(f, true)] /\
    receipt_frame (C := unit) demo_service (durable (broker_of demo_serve.2)) f.
Proof.
  assert (Hc : normalize_config (config_value signing_config) = Ok demo_service.(sv_config))
    by (vm_compute; reflexivity).
  assert (Hs : served daemon_start) by exact (served_start [] socket_start (List.Forall_nil _)).
  destruct (daemon_run_sound demo_service _ [AcceptTimeout; Accepted tt] daemon_start Hc Hs) as [Hf _].
  destruct (answers_inv _ demo_serves) as (f & Hw & Hl). exists f. split; [exact Hw |].
  rewrite Hw in Hf. apply Forall_inv in Hf as [He | Hr]; [|exact Hr].
  apply error_frame_short in He. cbn in He. lia.
Defined.

Example connection_contained_witness :
  (handle_connection demo_service tt
    {| broker_of := daemon_start; written := [] |}).1 = Ok tt.
Proof. apply (connection_contained demo_service tt); done. Defined.

(** ** Authentication *)

(** A file system with the App's key and the answers still to come. *)
Record app_world := { key_open : bool; answers_left : list (Z * value) }.

Definition app_key : bytes := str "PRIVATE KEY of the App".

#[local] Instance app_files : Files app_world := {
  os_lstat _ w := (Raise FileNotFoundError, w);
  os_open _ w := (Ok 3, {| key_open := true; answers_left := w.(answers_left) |});
  os_fstat _ w := (Ok {| st_mode := 32768 + 384; st_uid := 0; st_size := zlen app_key |}, w);
  os_read _ n w :=
    if w.(key_open) then (Ok (take (Z.to_nat n) app_key),
      {| key_open := false; answers_left := w.(answers_left) |})
    else (Ok [], w);
  os_close _ w := (Ok tt, w) }.

#[local] Instance app_https : Https app_world := {
  https_exchange _ _ _ _ w := match w.(answers_left) with
    | [] => (None, w)
    | (code, v) :: rest =>
        (Some (code, [], utf8 (dumps v)), {| key_open := w.(key_open); answers_left := rest |})
    end }.

#[local] Instance app_rsa : Rsa := {
  rsa_key := unit; load_rsa_pem _ := RsaKey tt; key_size _ := 2048;
  pkcs1_sign _ text := Some (take 8 text) }.

Definition app_answers : list (Z * value) :=
  let github := signing_config.(github_app) in
  [(200, obj [("id", VInt github.(Protocol.app_id)); ("slug", VStr github.(Protocol.app_slug))]);
   (200, obj [("id", VInt github.(Protocol.installation_id));
              ("app_id", VInt github.(Protocol.app_id))]);
   (201, obj [("token", vstr "ghs_token"); ("expires_at", VStr (utc_text (T0 + 3600)));
              ("permissions", obj [("checks", vstr "read"); ("issues", vstr "read");
                 ("metadata", vstr "read"); ("pull_requests", vstr "write");
                 ("statuses", vstr "read")])]);
   (200, obj [("total_count", VInt 1);
              ("repositories", VList [obj [("id",
                 VInt signing_config.(repository).(Protocol.repository_id))]])])].

Notation demo_build_live :=
  (build_live_client signing_config (us T0) {| key_open := false; answers_left := app_answers |}).

Lemma demo_live_built : is_ok demo_build_live.1 = true.
Proof. vm_compute. reflexivity. Qed.

Example live_client_bound_witness :
  exists live w, demo_build_live = (Ok live, w) /\
    live.(lc_repository) = signing_config.(repository).(full_name).
Proof.
  destruct demo_build_live as [[live|e] w] eqn:E.
  - exists live, w. split; [done |].
    destruct (live_client_bound signing_config _ _ _ _ E) as (client & credential & _ & _ & _ & Hr & _).
    exact Hr.
  - pose proof demo_live_built as H. rewrite E in H. discriminate.
Defined.
