(* ===== verification/Screening.v ===== *)
(** * Public text

    The screening of texts that enter the continuity ledger:
    [assert_public_safe_text] of scripts/john_lomein_public_safety.py with the
    patterns of ..._factory_receipts.py, and [_safe_text] of
    scripts/john_lomein_continuity.py.  The Unicode database is the class
    [Unicode]: normalisation form NFKC and the characters [\w] matches. *)

From S2P Require Import Prelude Regex Sha256 PyUrl PyText Search Json.
Local Open Scope Z_scope.

(** [unicodedata.normalize("NFKC", s)] and [\w] *)
Class Unicode := { nfkc : pystr -> pystr; word_char : N -> bool }.

Section Patterns.
Context `{!Unicode}.

Definition is_word (n : neighbour) : bool :=
  match n with Some a => word_char a | None => false end.

(** [\b] *)
Definition pbound : pat := PAssert (fun p n => xorb (is_word p) (is_word n)).

Definition pspace : pat := PStar is_space.
Definition pone (s : string) : pat := PCls (one_of s).
Definition plits (l : list string) : pat := palts (map plit_ci l).
Definition ends (s : string) : N -> bool := fun a => none_of s a && not_space a.

(** ** scripts/john_lomein_factory_receipts.py *)

Definition UNSAFE_CONTROL (a : N) : bool :=
  ((a <=? 8) || (a =? 11) || (a =? 12) || ((14 <=? a) && (a <=? 31)) ||
   ((127 <=? a) && (a <=? 159)) || (a =? 1564) || (a =? 8206) || (a =? 8207) ||
   ((8234 <=? a) && (a <=? 8238)) || ((8294 <=? a) && (a <=? 8297)))%N.

(** [\s_-] between the words of a name. *)
Definition pgap : pat := PStar (fun a => is_space a || one_of "_-" a).
Definition name (words : list string) : pat :=
  (fix go l := match l with
     | [] => PEps
     | [w] => plit_ci w
     | w :: l' => PSeq (plit_ci w) (PSeq pgap (go l'))
     end) words.

Definition SECRET_NAMES : pat :=
  palts (map name
    [["GH"; "TOKEN"]; ["GITHUB"; "TOKEN"]; ["DISCORD"; "BOT"; "TOKEN"]; ["OPENAI"; "API"; "KEY"];
     ["ANTHROPIC"; "API"; "KEY"]; ["SLACK"; "TOKEN"]; ["GOOGLE"; "API"; "KEY"]; ["API"; "KEY"];
     ["TOKEN"]; ["PASSWORD"]; ["PASSPHRASE"]; ["SECRET"]; ["SECRET"; "KEY"]; ["ACCESS"; "TOKEN"];
     ["REFRESH"; "TOKEN"]; ["ID"; "TOKEN"]; ["CLIENT"; "SECRET"]; ["PRIVATE"; "TOKEN"];
     ["PRIVATE"; "KEY"]; ["SIGNING"; "KEY"]; ["WEBHOOK"; "SECRET"]; ["AUTHORIZATION"];
     ["CREDENTIAL"]; ["CREDENTIALS"]]).

Definition SECRET_RE : pat :=
  palts
    [pseqs [pbound; SECRET_NAMES; pbound; pspace; pone ":="; pspace;
            popt (PCls (fun a => (a =? 34) || (a =? 39))%N); pplus not_space];
     pseqs [PCls (ci (fun a => upper a || lower a)); PStar (ci (alnum_or "+.-")); plit "://";
            pplus (ends "/:@"); plit ":"; pplus (ends "@/"); plit "@"; pplus not_space];
     pseqs [plit_ci "Bearer"; pplus is_space; patleast 20 (ci (alnum_or "._-"))];
     pseqs [plit_ci "Basic"; pplus is_space; patleast 12 (ci (alnum_or "+/="))];
     pseqs [plit_ci "github_pat_"; patleast 20 (ci (alnum_or "_"))];
     pseqs [plit_ci "gh"; PCls (ci (one_of "opsu")); plit "_"; patleast 20 (ci (alnum_or "_"))];
     pseqs [plit_ci "xox"; PCls (ci (one_of "baprs")); plit "-"; patleast 20 (ci (alnum_or "-"))];
     pseqs [plit_ci "AIza"; patleast 20 (ci (alnum_or "_-"))];
     pseqs [plit_ci "AKIA"; PRep (ci (fun a => digit a || upper a)) 16 16];
     pseqs [plit_ci "sk-"; patleast 20 (ci (alnum_or "_-"))];
     pseqs [plit_ci "-----BEGIN"; popt (PSeq (plit " ") (pplus (ci upper)));
            plit_ci " PRIVATE KEY-----"]].

(** A character of an address: no space, bracket, backquote or quote. *)
Definition in_url (a : N) : bool := ends "][(){}<>`'" a && negb (a =? 34)%N.
(** A character of a path: spaces are allowed, a line's end, comma and semicolon are not. *)
Definition in_path (a : N) : bool :=
  none_of "][(){}<>`',;" a && negb ((a =? 34) || (a =? 10) || (a =? 13))%N.

Definition FILE_URL_RE : pat :=
  pseqs [pbound; plit_ci "file:"; pplus (N.eqb 47); pplus in_url].

Definition WINDOWS_ABSOLUTE_PATH_RE : pat :=
  PAlt (pseqs [pbound; PCls (ci upper); plit ":"; pone "\/"; pplus in_path])
       (pseqs [plit "\\"; pplus (ends "\"); plit "\"; pplus in_path]).

Definition UNC_PATH_RE : pat :=
  pseqs [pnot_after (alnum_or ":/"); plit "//"; pplus (ends "/"); plit "/"; pplus in_path].

(** ** scripts/john_lomein_public_safety.py *)

(** A character of a private path: no space, closing bracket, backquote or quote. *)
Definition in_private (a : N) : bool := ends ")]}>`'" a && negb (a =? 34)%N.

(** The third alternative ends in a slash or in a backslash and a [b]: the raw
    string holds [\\b]. *)
Definition PRIVATE_POSIX_PATH_RE : pat :=
  PSeq (pnot_after (ci alnum))
    (palts
      [pseqs [plit "/"; plits ["Users"; "home"; "root"]; plit "/"; pplus in_private];
       pseqs [plit "/"; popt (plit_ci "private/"); plits ["tmp"; "var"]; plit "/";
              pplus in_private];
       pseqs [plit "~/"; plits [".hermes"; ".john-lomein"; "mnemosyne"];
              PAlt (plit "/") (plit_ci "\b")];
       pseqs [PStar in_private; plit_ci ".john-lomein/instances/"; PStar in_private]]).

(** [assert_public_safe_text(text, field=...)]: the message of the
    [PublicSafetyError] it raises. *)
Definition public_fault (field : string) (text : pystr) : option string :=
  if existsb (N.eqb 65533) text then Some (field +:+ " contains invalid text encoding")
  else if existsb UNSAFE_CONTROL text then Some (field +:+ " contains control characters")
  else if search SECRET_RE text || search FILE_URL_RE text ||
          search WINDOWS_ABSOLUTE_PATH_RE text || search UNC_PATH_RE text ||
          search PRIVATE_POSIX_PATH_RE text
    then Some (field +:+ " contains secret-shaped content or a private path")
  else None.

(** ** scripts/john_lomein_continuity.py *)

(** [.] *)
Definition not_newline (a : N) : bool := negb (a =? 10)%N.

Definition PROMPT_INJECTION_RE : pat :=
  palts
    [pseqs [pbound; plits ["ignore"; "disregard"; "override"; "forget"]; pbound;
            PRep not_newline 0 48; pbound;
            plits ["previous"; "prior"; "system"; "developer"; "instruction"; "instructions";
                   "rule"; "rules"]; pbound];
     pseqs [plit "<"; pspace; popt (plit "/"); pspace;
            plits ["system"; "developer"; "assistant"; "tool"]; pbound];
     pseqs [PAlt pbol (PCls is_space); plits ["system"; "developer"; "assistant"; "tool"];
            pspace; plit ":"];
     pseqs [pbound; plits ["reveal"; "print"; "dump"; "exfiltrate"]; pbound;
            PRep not_newline 0 32; pbound;
            plits ["prompt"; "secret"; "credential"; "token"; "environment"]; pbound]].

Definition RAW_TRANSCRIPT_RE : pat :=
  pseqs [PAlt pbol (PCls is_space);
         plits ["user"; "assistant"; "system"; "developer"; "tool"]; pspace;
         popt (plits ["said"; "message"; "output"]); pspace; plit ":"].

Definition CONTINUITY_MARKER_RE : pat :=
  plits ["JOHN LOMEIN CONTINUITY CAPSULE"; "JOHN CONTINUITY UNAVAILABLE"].

(** [[_-]?] between two words *)
Definition joined (v w : string) : pat := pseqs [plit_ci v; popt (pone "_-"); plit_ci w].

Definition CREDENTIAL_ASSIGNMENT_RE : pat :=
  pseqs [pbound;
         palts [joined "api" "key"; joined "access" "token";
                PSeq (plit_ci "auth") (popt (plit_ci "orization")); plit_ci "password";
                plit_ci "passwd"; plit_ci "secret"; joined "discord" "token";
                joined "github" "token"; joined "gh" "token"];
         pspace; pone ":="].

(** [[\x00-\x1f\x7f]] *)
Definition CONTROL (a : N) : bool := ((a <? 32) || (a =? 127))%N.

(** [^[A-Za-z0-9][A-Za-z0-9._:/@#+~-]{0,319}$] *)
Definition SOURCE_LOCATOR_RE : re :=
  RSeq (RCls alnum) (RRep (RCls (alnum_or "._:/@#+~-")) 0 319).

(** [s.strip()] *)
Fixpoint strip_left (s : pystr) : pystr :=
  match s with
  | a :: s' => if is_space a then strip_left s' else s
  | [] => []
  end.
Definition strip_space (s : pystr) : pystr := rev (strip_left (rev (strip_left s))).

(** [re.sub(r"[ \t]+", " ", s)]; [gap]: the previous character was one. *)
Fixpoint squeeze (gap : bool) (s : pystr) : pystr :=
  match s with
  | [] => []
  | a :: s' =>
      if ((a =? 32) || (a =? 9))%N then
        if gap then squeeze true s' else 32%N :: squeeze true s'
      else a :: squeeze false s'
  end.

(** The text that is screened and stored. *)
Definition tidy (s : pystr) : pystr := squeeze false (strip_space (nfkc s)).

(** [s.encode("utf-8")] raises on a surrogate (and a string holds code points
    only). *)
Definition encodable (s : pystr) : bool :=
  forallb (fun c => (c <? 55296) || ((57343 <? c) && (c <=? 1114111)))%N s.

Definition unsafe {A} (m : string) : res A := Raise (ContinuityError "unsafe_content" m).

Definition safe_text (value : value) (field : string) (maximum_bytes : Z) (locator : bool) :
    res pystr :=
  match value with
  | VStr s =>
      raise_if existsb CONTROL s
        with (ContinuityError "unsafe_content" (field +:+ " must be a single printable line")) ;;
      let text := tidy s in
      let empty := ContinuityError "unsafe_content"
        (field +:+ " is empty or exceeds its byte limit") in
      raise_if bool_decide (text = []) with empty ;;
      raise_if negb (encodable text) with (ValueError "surrogates not allowed") ;;
      raise_if maximum_bytes <? zlen (utf8 text) with empty ;;
      match public_fault field text with
      | Some m => Raise (ContinuityError "secret_detected" m)
      | None =>
          raise_if search CREDENTIAL_ASSIGNMENT_RE text || search PROMPT_INJECTION_RE text ||
                   search RAW_TRANSCRIPT_RE text || search CONTINUITY_MARKER_RE text
            with (ContinuityError "unsafe_content"
              (field +:+ " resembles instructions, a transcript, or credentials")) ;;
          raise_if locator && negb (fullmatch SOURCE_LOCATOR_RE text)
            with (ContinuityError "unsafe_content" (field +:+ " is not a safe source locator")) ;;
          Ok text
      end
  | _ => Raise (ContinuityError "unsafe_content" (field +:+ " must be text"))
  end.
End Patterns.
