(* ===== verification/Continuity.v ===== *)
(** * Continuity writes

    scripts/john_lomein_continuity.py: canonical JSON, the typed write request
    and its normalisation.  A normalised request is a record
    whose payload is a constructor per kind; [request_dict] is the mapping the
    source returns.  Leading underscores of the source's names are dropped. *)

From S2P Require Import Prelude Regex Sha256 PyTime PyUrl PyText Json Encoding Screening.
Local Open Scope Z_scope.

(** ** Constants *)

Definition WRITE_SCHEMA : string := "john-lomein.continuity-write.v1".
Definition ENTRY_SCHEMA : string := "john-lomein.continuity-entry.v1".
Definition HEAD_SCHEMA : string := "john-lomein.continuity-head.v1".
Definition ZERO_HASH : pystr := replicate 64 48%N.
Definition OPERATIONAL_ROLES : list pystr :=
  map str ["maintainer"; "forge"; "guide"; "overwatch"; "learning_steward"].
Definition EXTERNAL_SOURCES : list pystr :=
  map str ["github_app"; "protected_broker"; "independent_evaluator"].
Definition SOURCE_TRUST : list (pystr * pystr) :=
  map (fun kv => (str kv.1, str kv.2))
    [("owner", "owner_asserted"); ("automation", "product_observed");
     ("github_app", "externally_verified"); ("protected_broker", "externally_verified");
     ("independent_evaluator", "externally_verified")].
Definition ENTRY_KINDS : list pystr :=
  map str ["decision"; "objection"; "refusal"; "user_correction"; "user_preference";
           "commitment"; "verified_outcome"].
Definition DORMANT_AUTHORITATIVE_KINDS : list pystr :=
  map str ["user_correction"; "user_preference"; "verified_outcome"].
Definition OUTCOME_KINDS : list pystr :=
  map str ["pr_merged"; "pr_closed_unmerged"; "review_finding_accepted"; "repair_completed";
           "rollback"; "escaped_defect"; "owner_intervention"; "persona_eval_pass";
           "capability_eval_pass"; "incident_resolved"].

Definition MAX_LINE_BYTES : Z := 8 * 1024.
Definition MAX_LEDGER_BYTES : Z := 32 * 1024 * 1024.
Definition MAX_TRANSACTION_BYTES : Z := 40 * 1024.
Definition MAX_ENTRIES : Z := 50000.
Definition MAX_SUMMARY_BYTES : Z := 384.
Definition MAX_SOURCE_LOCATOR_BYTES : Z := 320.

(** [^jlcl-[0-9a-f]{24}$], [^jlce-[0-9a-f]{24}$] *)
Definition LEDGER_ID_RE : re := RSeq (rlit "jlcl-") (RRep (RCls hexdig) 24 24).
Definition ENTRY_ID_RE : re := RSeq (rlit "jlce-") (RRep (RCls hexdig) 24 24).
(** [^[A-Za-z0-9][A-Za-z0-9._:@/+~-]{0,191}$] *)
Definition TOKEN_RE : re := RSeq (RCls alnum) (RRep (RCls (alnum_or "._:@/+~-")) 0 191).

Definition cont_error {A} (code m : string) : res A := Raise (ContinuityError code m).
Definition schema_invalid {A} (m : string) : res A := cont_error "schema_invalid" m.

Definition TRUST_PRIORITY (trust : pystr) : Z :=
  if bool_decide (trust = str "externally_verified") then 30
  else if bool_decide (trust = str "owner_asserted") then 20 else 10.

(** ** Canonical JSON *)

Fixpoint validate_canonical_value (depth : Z) (v : value) : res unit :=
  raise_if 32 <? depth
    with (ContinuityError "schema_invalid" "canonical JSON is too deeply nested") ;;
  match v with
  | VNone | VBool _ | VStr _ => Ok tt
  | VInt z =>
      raise_if (z <? I64_MIN) || (I64_MAX <? z)
        with (ContinuityError "schema_invalid" "canonical JSON integer is out of range") ;;
      Ok tt
  | VFloat _ => cont_error "schema_invalid" "continuity canonical JSON forbids floats"
  | VList l =>
      (fix go l := match l with
         | [] => Ok tt
         | x :: l' => let* _ := validate_canonical_value (depth + 1) x in go l'
         end) l
  | VDict d =>
      (fix go d := match d with
         | [] => Ok tt
         | (_, x) :: d' => let* _ := validate_canonical_value (depth + 1) x in go d'
         end) d
  end.

Definition canonical_json (v : value) : res bytes :=
  let* _ := validate_canonical_value 0 v in Ok (utf8 (dumps v)).

Definition sha256_json (v : value) : res pystr :=
  let* raw := canonical_json v in Ok (sha256_hex raw).

(** The number hooks of [_parse_json]: [_parse_int] and [_reject_float]. *)
Definition cont_number (neg : bool) (s : pystr) : res (value * pystr) :=
  let* (v, r) := pnumber neg s in
  match v with
  | VInt z =>
      raise_if (z <? I64_MIN) || (I64_MAX <? z)
        with (ContinuityError "store_invalid" "JSON integer is out of range") ;;
      Ok (v, r)
  | _ => cont_error "store_invalid" "non-integer JSON number"
  end.

Definition parse_json (raw : bytes) (field : string) : res value :=
  let invalid := ContinuityError "store_invalid" (field +:+ " is invalid JSON") in
  let* text := reraise (fun _ => true) (fun _ => invalid) (json_decode raw) in
  reraise (fun e => match e with JSONDecodeError => true | _ => false end) (fun _ => invalid)
    (loads_with cont_number
       (ContinuityError "store_invalid" "duplicate JSON field")
       (ContinuityError "store_invalid" "non-integer JSON number") text).

(** ** Fields *)

Definition cont_mapping (v : value) (field : string) : res dict :=
  match v with VDict d => Ok d | _ => schema_invalid (field +:+ " must be an object") end.

Definition known_keys (d : dict) (field : string) (allowed : list string) : res unit :=
  raise_if negb (forallb (fun k => bool_decide (k ∈ map str allowed)) (keys d))
    with (ContinuityError "schema_invalid" (field +:+ " contains unknown fields")) ;;
  Ok tt.

Definition exact_string (v : value) (field : string) : res pystr :=
  match v with VStr s => Ok s | _ => schema_invalid (field +:+ " must be an exact string") end.

Definition text_of_form (r : re) (v : value) (field : string) : res pystr :=
  let* s := exact_string v field in
  raise_if negb (fullmatch r s) with (ContinuityError "schema_invalid" (field +:+ " is invalid")) ;;
  Ok s.

(** [_token], [_sha256] *)
Definition token : value -> string -> res pystr := text_of_form TOKEN_RE.
Definition cont_sha256 : value -> string -> res pystr := text_of_form SHA256_RE.

Definition parse_utc (v : value) (field : string) : res Z :=
  match v with
  | VStr s =>
      match strptime s with
      | Some t => Ok t
      | None => schema_invalid (field +:+ " must use UTC second precision")
      end
  | _ => schema_invalid (field +:+ " must be a timestamp")
  end.

(** [None if v is None else f(v)] *)
Definition optional {A} (v : value) (f : value -> res A) : res (option A) :=
  match v with VNone => Ok None | _ => let* x := f v in Ok (Some x) end.

(** [None if v is None else utc_text(parse_utc(v, field=field))] *)
Definition clock_field (v : value) (field : string) : res (option pystr) :=
  optional v (fun v => let* t := parse_utc v field in Ok (utc_text t)).

(** ** Write requests *)

Inductive Payload :=
| Decision (disposition : pystr)
| Objection (severity state : pystr)
| Refusal (reason_code state : pystr)
| UserCorrection (correction_kind : pystr)
| UserPreference (preference : pystr)
| Commitment (state : pystr) (due_at : option pystr)
| VerifiedOutcome (outcome_kind claim_id reputation_event_sha256 : pystr).

Record Source := {
  so_kind : pystr; so_trust : pystr; so_actor : pystr; so_locator : pystr; so_sha256 : pystr }.

Record Scope := { sc_privacy : pystr; sc_roles : list pystr; sc_repository : option pystr }.

(** What a request and its entry share; the kind is the payload's constructor. *)
Record Body := {
  bo_subject : pystr; bo_summary : pystr; bo_payload : Payload; bo_source : Source;
  bo_scope : Scope; bo_expires_at : option pystr; bo_supersedes : option pystr }.

Record WriteRequest := { wr_entry_id : option pystr; wr_body : Body }.

#[export] Instance payload_eq_dec : EqDecision Payload.
Proof. solve_decision. Defined.
#[export] Instance source_eq_dec : EqDecision Source.
Proof. solve_decision. Defined.
#[export] Instance scope_eq_dec : EqDecision Scope.
Proof. solve_decision. Defined.
#[export] Instance body_eq_dec : EqDecision Body.
Proof. solve_decision. Defined.
#[export] Instance request_eq_dec : EqDecision WriteRequest.
Proof. solve_decision. Defined.

Definition payload_kind (p : Payload) : pystr :=
  match p with
  | Decision _ => str "decision"
  | Objection _ _ => str "objection"
  | Refusal _ _ => str "refusal"
  | UserCorrection _ => str "user_correction"
  | UserPreference _ => str "user_preference"
  | Commitment _ _ => str "commitment"
  | VerifiedOutcome _ _ _ => str "verified_outcome"
  end.

Definition payload_dict (p : Payload) : dict :=
  match p with
  | Decision d => fields [("disposition", VStr d)]
  | Objection severity state => fields [("severity", VStr severity); ("state", VStr state)]
  | Refusal reason state => fields [("reason_code", VStr reason); ("state", VStr state)]
  | UserCorrection k => fields [("correction_kind", VStr k)]
  | UserPreference p => fields [("preference", VStr p)]
  | Commitment state due => fields [("state", VStr state); ("due_at", vopt VStr due)]
  | VerifiedOutcome k claim digest =>
      fields [("outcome_kind", VStr k); ("claim_id", VStr claim);
              ("reputation_event_sha256", VStr digest)]
  end.

Definition source_dict (s : Source) : dict :=
  fields [("kind", VStr s.(so_kind)); ("trust", VStr s.(so_trust)); ("actor", VStr s.(so_actor));
          ("locator", VStr s.(so_locator)); ("sha256", VStr s.(so_sha256))].

Definition scope_dict (s : Scope) : dict :=
  fields [("privacy", VStr s.(sc_privacy));
          ("visible_to_roles", VList (map VStr s.(sc_roles)));
          ("repository", vopt VStr s.(sc_repository))].

Definition bo_kind (o : Body) : pystr := payload_kind o.(bo_payload).

Definition body_fields (o : Body) : list (string * value) :=
  [("kind", VStr (bo_kind o)); ("subject", VStr o.(bo_subject));
   ("summary", VStr o.(bo_summary)); ("payload", VDict (payload_dict o.(bo_payload)));
   ("source", VDict (source_dict o.(bo_source))); ("scope", VDict (scope_dict o.(bo_scope)));
   ("expires_at", vopt VStr o.(bo_expires_at));
   ("supersedes_entry_id", vopt VStr o.(bo_supersedes))].

Definition request_dict (r : WriteRequest) : dict :=
  fields ([("schema_version", vstr WRITE_SCHEMA); ("entry_id", vopt VStr r.(wr_entry_id))] ++
          body_fields r.(wr_body)).

(** A choice out of a fixed set. *)
Definition choice (v : value) (field : string) (allowed : list string) (m : string) : res pystr :=
  let* s := exact_string v field in
  raise_if negb (bool_decide (s ∈ map str allowed)) with (ContinuityError "schema_invalid" m) ;;
  Ok s.

Definition normalize_payload (kind : pystr) (raw : value) : res Payload :=
  let* payload := cont_mapping raw "payload" in
  if bool_decide (kind = str "decision") then
    let* _ := known_keys payload "payload" ["disposition"] in
    let* d := choice (get payload "disposition") "payload.disposition"
      ["accepted"; "rejected"; "deferred"] "decision disposition is invalid" in
    Ok (Decision d)
  else if bool_decide (kind = str "objection") then
    let* _ := known_keys payload "payload" ["severity"; "state"] in
    let* severity := exact_string (get payload "severity") "payload.severity" in
    let* state := exact_string (get payload "state") "payload.state" in
    raise_if negb (bool_decide (severity ∈ map str ["advisory"; "blocking"])) ||
             negb (bool_decide (state ∈ map str ["open"; "resolved"]))
      with (ContinuityError "schema_invalid" "objection payload is invalid") ;;
    Ok (Objection severity state)
  else if bool_decide (kind = str "refusal") then
    let* _ := known_keys payload "payload" ["reason_code"; "state"] in
    let* reason := token (get payload "reason_code") "payload.reason_code" in
    let* state := choice (get payload "state") "payload.state" ["active"; "withdrawn"]
      "refusal state is invalid" in
    Ok (Refusal reason state)
  else if bool_decide (kind = str "user_correction") then
    let* _ := known_keys payload "payload" ["correction_kind"] in
    let* k := choice (get payload "correction_kind") "payload.correction_kind"
      ["factual"; "requirement"; "identity"; "boundary"] "user correction kind is invalid" in
    Ok (UserCorrection k)
  else if bool_decide (kind = str "user_preference") then
    let* _ := known_keys payload "payload" ["preference"] in
    let* p := choice (get payload "preference") "payload.preference"
      ["prefer"; "avoid"; "required"; "forbidden"] "user preference value is invalid" in
    Ok (UserPreference p)
  else if bool_decide (kind = str "commitment") then
    let* _ := known_keys payload "payload" ["state"; "due_at"] in
    let* state := choice (get payload "state") "payload.state" ["open"; "fulfilled"; "cancelled"]
      "commitment state is invalid" in
    let* due := clock_field (get payload "due_at") "payload.due_at" in
    Ok (Commitment state due)
  else if bool_decide (kind = str "verified_outcome") then
    let* _ := known_keys payload "payload" ["outcome_kind"; "claim_id"; "reputation_event_sha256"] in
    let* k := exact_string (get payload "outcome_kind") "payload.outcome_kind" in
    raise_if negb (bool_decide (k ∈ OUTCOME_KINDS))
      with (ContinuityError "schema_invalid" "verified outcome kind is invalid") ;;
    let* claim := token (get payload "claim_id") "payload.claim_id" in
    let* digest := cont_sha256 (get payload "reputation_event_sha256")
      "payload.reputation_event_sha256" in
    Ok (VerifiedOutcome k claim digest)
  else schema_invalid "entry kind is unsupported".

(** [SOURCE_TRUST[kind]] *)
Definition source_trust (kind : pystr) : option pystr :=
  option_map snd (List.find (fun kv => bool_decide (kv.1 = kind)) SOURCE_TRUST).

Section Requests.
Context `{!Unicode}.

Definition normalize_source (v : value) : res Source :=
  let* source := cont_mapping v "source" in
  let* _ := known_keys source "source" ["kind"; "trust"; "actor"; "locator"; "sha256"] in
  let* kind := exact_string (get source "kind") "source.kind" in
  match source_trust kind with
  | None => schema_invalid "source kind is unsupported"
  | Some expected =>
      let* trust := exact_string (get source "trust") "source.trust" in
      raise_if negb (bool_decide (trust = expected))
        with (ContinuityError "trust_invalid" "source kind and trust level are incompatible") ;;
      let* actor := token (get source "actor") "source.actor" in
      let* locator := safe_text (get source "locator") "source.locator"
        MAX_SOURCE_LOCATOR_BYTES true in
      let* digest := cont_sha256 (get source "sha256") "source.sha256" in
      Ok {| so_kind := kind; so_trust := trust; so_actor := actor; so_locator := locator;
            so_sha256 := digest |}
  end.

Definition is_text (v : value) : bool := match v with VStr _ => true | _ => false end.
Definition is_role (v : value) : bool :=
  match v with VStr s => bool_decide (s ∈ OPERATIONAL_ROLES) | _ => false end.

(** The roles of a scope, in their order. *)
Definition scope_roles (v : value) : res (list pystr) :=
  let missing := ContinuityError "scope_invalid" "scope must explicitly name visible roles" in
  match v with
  | VList ((_ :: _) as l) =>
      raise_if negb (forallb is_text l)
        with (ContinuityError "scope_invalid" "scope roles must be exact strings") ;;
      raise_if negb (forallb is_role l)
        with (ContinuityError "scope_invalid" "scope contains an unsupported role") ;;
      Ok (List.filter (fun role => existsb (fun x => py_eq x (VStr role)) l) OPERATIONAL_ROLES)
  | _ => Raise missing
  end.

Definition normalize_scope (v : value) : res Scope :=
  let* scope := cont_mapping v "scope" in
  let* _ := known_keys scope "scope" ["privacy"; "visible_to_roles"; "repository"] in
  let* privacy := exact_string (get scope "privacy") "scope.privacy" in
  raise_if negb (bool_decide (privacy ∈ map str ["public"; "private"]))
    with (ContinuityError "schema_invalid" "scope privacy is invalid") ;;
  let* roles := scope_roles (get scope "visible_to_roles") in
  raise_if bool_decide (privacy = str "private") && bool_decide (str "guide" ∈ roles)
    with (ContinuityError "scope_invalid" "private continuity can never be visible to Guide") ;;
  let* repository := optional (get scope "repository") (fun v =>
    exact_string v "scope.repository") in
  raise_if match repository with Some s => negb (fullmatch REPO_RE s) | None => false end
    with (ContinuityError "scope_invalid" "scope repository is invalid") ;;
  Ok {| sc_privacy := privacy; sc_roles := roles; sc_repository := repository |}.

(** Which sources may write which kinds. *)
Definition kind_authority (kind : pystr) (source : Source) : res unit :=
  let external := bool_decide (source.(so_kind) ∈ EXTERNAL_SOURCES) in
  raise_if bool_decide (kind ∈ map str ["user_correction"; "user_preference"]) &&
           (negb (bool_decide (source.(so_kind) = str "owner")) ||
            negb (bool_decide (source.(so_trust) = str "owner_asserted")))
    with (ContinuityError "trust_invalid"
      "user corrections and preferences require an owner source") ;;
  raise_if bool_decide (kind = str "verified_outcome") &&
           (negb external || negb (bool_decide (source.(so_trust) = str "externally_verified")))
    with (ContinuityError "forged_reputation"
      "verified outcomes require an external verified observer") ;;
  raise_if negb (bool_decide (kind = str "verified_outcome")) && external
    with (ContinuityError "trust_invalid"
      "external observers may write only verified outcomes") ;;
  Ok tt.

Definition REQUEST_KEYS : list string :=
  ["schema_version"; "entry_id"; "kind"; "subject"; "summary"; "payload"; "source"; "scope";
   "expires_at"; "supersedes_entry_id"].

(** [_normalize_typed_write_request] *)
Definition normalize_typed_write_request (v : value) : res WriteRequest :=
  let* request := cont_mapping v "continuity write" in
  let* _ := known_keys request "continuity write" REQUEST_KEYS in
  raise_if negb (py_eq (get request "schema_version") (vstr WRITE_SCHEMA))
    with (ContinuityError "schema_invalid" "continuity write schema is unsupported") ;;
  let* kind := exact_string (get request "kind") "kind" in
  raise_if negb (bool_decide (kind ∈ ENTRY_KINDS))
    with (ContinuityError "schema_invalid" "continuity kind is unsupported") ;;
  let* entry_id := optional (get request "entry_id") (fun v =>
    text_of_form ENTRY_ID_RE v "entry_id") in
  let* subject := safe_text (get request "subject") "subject" 192 false in
  let* summary := safe_text (get request "summary") "summary" MAX_SUMMARY_BYTES false in
  let* payload := normalize_payload kind (get request "payload") in
  let* source := normalize_source (get request "source") in
  let* scope := normalize_scope (get request "scope") in
  let* _ := kind_authority kind source in
  let* expires := clock_field (get request "expires_at") "expires_at" in
  let* supersedes := optional (get request "supersedes_entry_id") (fun v =>
    text_of_form ENTRY_ID_RE v "supersedes_entry_id") in
  raise_if bool_decide (kind = str "verified_outcome") && is_some supersedes
    with (ContinuityError "forged_reputation"
      "externally verified outcomes cannot supersede continuity") ;;
  Ok {| wr_entry_id := entry_id;
        wr_body := {| bo_subject := subject; bo_summary := summary; bo_payload := payload;
                      bo_source := source; bo_scope := scope; bo_expires_at := expires;
                      bo_supersedes := supersedes |} |}.

(** [_require_public_write_authority] *)
Definition require_public_write_authority (r : WriteRequest) : res unit :=
  raise_if negb (bool_decide (r.(wr_body).(bo_source).(so_kind) = str "automation")) ||
           bool_decide (bo_kind r.(wr_body) ∈ DORMANT_AUTHORITATIVE_KINDS)
    with (ContinuityError "authority_required"
      "authoritative continuity requires a protected signed writer") ;;
  Ok tt.

Definition normalize_write_request (v : value) : res WriteRequest :=
  let* r := normalize_typed_write_request v in
  let* _ := require_public_write_authority r in
  Ok r.
End Requests.
