(* ===== verification/JsonWf.v ===== *)
(** * What the JSON decoder returns

    A value decoded from ASCII text is well-formed: its mappings have distinct
    keys and its strings hold no pair of surrogates that should have been
    joined ([loads_with_wf]).  So the canonical text of a decoded value
    identifies it up to key order.  What the encoder writes is [printable]. *)

From S2P Require Import Prelude Sha256 Json JsonFacts JsonSize.
Local Open Scope Z_scope.

(** A scanner's result has [P], and what is left of the text is ASCII. *)
Definition yields {A} (P : A -> Prop) (r : res (A * pystr)) : Prop :=
  match r with Ok (a, t) => P a /\ ascii_text t | Raise _ => True end.

Lemma yields_bind {A B} (P : A -> Prop) (Q : B -> Prop) r (k : A -> pystr -> res (B * pystr)) :
  yields P r -> (forall a t, P a -> ascii_text t -> yields Q (k a t)) ->
  yields Q (let* (a, t) := r in k a t).
Proof. destruct r as [[a t]|e]; simpl; [intros [? ?]; auto | done]. Qed.

Lemma yields_ok {A} (P : A -> Prop) a t : P a -> ascii_text t -> yields P (Ok (a, t)).
Proof. done. Qed.

Lemma skip_ws_ascii s : ascii_text s -> ascii_text (skip_ws s).
Proof. induction 1 as [|c s Hc Hs IH]; simpl; [constructor |]. destruct (is_ws c); [done | by constructor]. Qed.

Lemma after_ascii lit s r : after lit s = Some r -> ascii_text s -> ascii_text r.
Proof.
  revert s. induction lit as [|a lit IH]; intros s H Hs; simpl in *; [by injection H as <- |].
  destruct Hs as [|c s Hc Hs]; [done |]. destruct (a =? c)%N; [by apply (IH s) | done].
Qed.

Lemma span_ascii p s : ascii_text s -> ascii_text (span p s).2.
Proof.
  induction 1 as [|c s Hc Hs IH]; simpl; [constructor |]. destruct (p c); [|by constructor].
  by destruct (span p s).
Qed.

(** ** Strings *)

Lemma hex_val_lt c n : hex_val c = Some n -> (n < 16)%N.
Proof.
  unfold hex_val, is_digit_char. intros H.
  destruct ((48 <=? c) && (c <=? 57))%N eqn:E1; [apply andb_true_iff in E1 as [?%N.leb_le ?%N.leb_le]; injection H as <-; lia |].
  destruct ((97 <=? c) && (c <=? 102))%N eqn:E2; [apply andb_true_iff in E2 as [?%N.leb_le ?%N.leb_le]; injection H as <-; lia |].
  destruct ((65 <=? c) && (c <=? 70))%N eqn:E3; [apply andb_true_iff in E3 as [?%N.leb_le ?%N.leb_le]; injection H as <-; lia | done].
Qed.

Lemma hex4_val_lt a b c d n : hex4_val a b c d = Some n -> (n < 65536)%N.
Proof.
  unfold hex4_val. destruct (hex_val a) eqn:Ea, (hex_val b) eqn:Eb, (hex_val c) eqn:Ec, (hex_val d) eqn:Ed;
    try done. intros [= <-]. apply hex_val_lt in Ea, Eb, Ec, Ed. lia.
Qed.

Lemma is_low_range n : is_low n = true -> (56320 <= n <= 57343)%N.
Proof. unfold is_low. rewrite andb_true_iff, !N.leb_le. done. Qed.
Lemma is_high_range n : is_high n = true -> (55296 <= n <= 56319)%N.
Proof. unfold is_high. rewrite andb_true_iff, !N.leb_le. done. Qed.

Lemma simple_escape_lt c x : simple_escape c = Some x -> (x < 128)%N.
Proof. unfold simple_escape. intros H. repeat case_match; simplify_eq; lia. Qed.

(** The text starts with the escape of a low surrogate. *)
Definition low_escape (s : pystr) : Prop :=
  exists h1 h2 h3 h4 s' n, s = 92%N :: 117%N :: h1 :: h2 :: h3 :: h4 :: s' /\
    hex4_val h1 h2 h3 h4 = Some n /\ is_low n = true.

Definition string_ok (s t : pystr) : Prop :=
  good_str t /\ (forall c, hd_error t = Some c -> is_low c = true -> low_escape s).

Lemma scanned_yields (Q P : pystr -> Prop) c r :
  yields Q r -> (forall t, Q t -> P (c :: t)) -> yields P (scanned c r).
Proof. destruct r as [[t rest]|e]; [intros [HQ Hr] HP; split; auto | done]. Qed.

(** A character that is no high surrogate may precede anything. *)
Lemma cons_good c t : (c <= 1114111)%N -> is_high c = false -> good_str t -> good_str (c :: t).
Proof. intros Hc Hh Ht. simpl. split; [done |]. split; [congruence | done]. Qed.

Lemma lone_good c s t : (c < 65536)%N -> string_ok s t -> ~ low_escape s -> good_str (c :: t).
Proof.
  intros Hc [Ht Hlow] Hs. simpl. split; [lia |]. split; [|done]. intros _.
  destruct t as [|x t]; [by left | right]. exists x. split; [done |].
  destruct (is_low x) eqn:E; [|done]. destruct Hs. by apply (Hlow x).
Qed.

Lemma plain_ok c s s' t :
  (c <= 1114111)%N -> is_low c = false -> is_high c = false -> string_ok s' t ->
  string_ok s (c :: t).
Proof.
  intros Hc Hl Hh [Ht _]. split; [by apply cons_good |]. intros x [= <-]. congruence.
Qed.

Lemma small_not c : (c < 55296)%N -> is_low c = false /\ is_high c = false.
Proof.
  intros Hc. unfold is_low, is_high.
  destruct (N.leb_spec 56320 c), (N.leb_spec 55296 c); try lia; done.
Qed.

Lemma pstring_yields n s :
  (length s <= n)%nat -> ascii_text s -> yields (string_ok s) (pstring s).
Proof.
  revert s. induction n as [|n IH]; intros s Hn Hs; [destruct s; [done | simpl in Hn; lia] |].
  destruct Hs as [|c s Hc Hs]; [done |]. simpl in Hn. cbn [pstring].
  assert (Hplain : forall t x, (length t <= n)%nat -> ascii_text t -> (x < 128)%N ->
    yields (string_ok (c :: s)) (scanned x (pstring t))).
  { intros t x Ht Ha Hx. apply (scanned_yields (string_ok t)); [by apply IH |].
    intros u Hu. destruct (small_not x) as [? ?]; [lia |]. apply (plain_ok x _ t); [lia | done..]. }
  destruct (c =? 34)%N; [split; [split; [done | intros ? [=]] | done] |].
  destruct (N.eqb_spec c 92) as [->|_].
  2:{ destruct (c <? 32)%N; [done |]. apply Hplain; [lia | done | done]. }
  destruct Hs as [|e s He Hs]; [done |]. simpl in Hn.
  destruct (N.eqb_spec e 117) as [->|_].
  2:{ destruct (simple_escape e) as [x|] eqn:Ex; [|done]. apply simple_escape_lt in Ex.
      apply Hplain; [lia | done | done]. }
  do 4 (destruct Hs as [|? s ? Hs]; [done |]). simpl in Hn.
  destruct (hex4_val x x0 x1 x2) as [hi|] eqn:Ehi; [|done].
  pose proof (hex4_val_lt _ _ _ _ _ Ehi) as Hhi.
  assert (Hown : forall c0, Some hi = Some c0 -> is_low c0 = true ->
    low_escape (92%N :: 117%N :: x :: x0 :: x1 :: x2 :: s)) by (intros c0 [= <-] Hl; repeat eexists; eauto).
  assert (Hlone : is_high hi = false \/ ~ low_escape s ->
    yields (string_ok (92%N :: 117%N :: x :: x0 :: x1 :: x2 :: s)) (scanned hi (pstring s))).
  { intros Hcase. apply (scanned_yields (string_ok s)); [apply IH; [lia | done] |].
    intros u Hu. split; [|exact Hown]. destruct Hcase as [Hh|Hl]; [|by apply (lone_good _ s)].
    destruct Hu. apply cons_good; [lia | done..]. }
  destruct (is_high hi) eqn:Eh; [|by apply Hlone; left].
  destruct Hs as [|y s Hy Hs]; [apply Hlone; right; by intros (?&?&?&?&?&?&[=]&_) |].
  destruct (decide (y = 92%N)) as [->|Hny].
  2:{ assert (Hl : yields (string_ok (92%N :: 117%N :: x :: x0 :: x1 :: x2 :: y :: s))
        (scanned hi (pstring (y :: s)))) by (apply Hlone; right; intros (?&?&?&?&?&?&[= ->]&_); done).
      destruct y as [|p]; [exact Hl |]. by do 7 (destruct p as [p|p|]; try exact Hl). }
  destruct Hs as [|z s Hz Hs]; [apply Hlone; right; by intros (?&?&?&?&?&?&[=]&_) |].
  destruct (decide (z = 117%N)) as [->|Hnz].
  2:{ assert (Hl : yields (string_ok (92%N :: 117%N :: x :: x0 :: x1 :: x2 :: 92%N :: z :: s))
        (scanned hi (pstring (92%N :: z :: s)))) by (apply Hlone; right; intros (?&?&?&?&?&?&[= ->]&_); done).
      destruct z as [|p]; [exact Hl |]. by do 7 (destruct p as [p|p|]; try exact Hl). }
  do 4 (destruct Hs as [|? s ? Hs]; [done |]). simpl in Hn.
  destruct (hex4_val x3 x4 x5 x6) as [lo|] eqn:Elo; [|done].
  destruct (is_low lo) eqn:El.
  2:{ apply Hlone. right. intros (?&?&?&?&?&m&[= <- <- <- <- <-]&Em&Hm). congruence. }
  apply (scanned_yields (string_ok s)); [apply IH; [lia | done] |].
  intros u [Hu _]. apply is_low_range in El. apply is_high_range in Eh.
  assert (Hbig : forall k, (65536 <= k)%N -> is_low k = false /\ is_high k = false).
  { intros k Hk. unfold is_low, is_high.
    destruct (N.leb_spec k 57343), (N.leb_spec k 56319); lia. }
  destruct (Hbig (65536 + (hi - 55296) * 1024 + (lo - 56320))%N) as [Hl Hh]; [lia |].
  split; [apply cons_good; [lia | done..] |]. intros k [= <-]. congruence.
Qed.

(** ** Values *)

Section Decoded.
Context (number : bool -> pystr -> res (value * pystr)) (dup_exn nonfinite_exn : exn).
Context (Hnumber : forall neg s, ascii_text s -> yields wf (number neg s)).

Definition members_ok (d : dict) : Prop :=
  Forall (fun kv => good_str kv.1) d /\ Forall (fun kv => wf kv.2) d.

Lemma pconstant_yields s : ascii_text s -> yields wf (pconstant nonfinite_exn s).
Proof.
  intros Hs. unfold pconstant.
  destruct (after (str "null") s) eqn:H1; [split; [constructor | by eapply after_ascii] |].
  destruct (after (str "true") s) eqn:H2; [split; [constructor | by eapply after_ascii] |].
  destruct (after (str "false") s) eqn:H3; [split; [constructor | by eapply after_ascii] |].
  by destruct (after (str "NaN") s), (after (str "Infinity") s), (after (str "-Infinity") s).
Qed.

Lemma no_duplicates seen d :
  reject_duplicate_keys dup_exn seen d = Ok tt -> NoDup (keys d) /\ forall k, k ∈ seen -> k ∉ keys d.
Proof.
  revert seen. induction d as [|[k v] d IH]; intros seen H; simpl in *.
  - split; [constructor | intros k _; apply not_elem_of_nil].
  - case_bool_decide as Hk; [done |]. apply IH in H as [Hn Hd]. split.
    + apply NoDup_cons. split; [apply Hd; by left | done].
    + intros k' Hk' [->|Hx]%elem_of_cons; [done |]. apply (Hd k'); [by right | done].
Qed.

Lemma value_step_yields members elements s :
  (forall t, ascii_text t -> yields members_ok (members t)) ->
  (forall t, ascii_text t -> yields (Forall wf) (elements t)) ->
  ascii_text s -> yields wf (value_step number dup_exn nonfinite_exn members elements s).
Proof.
  intros Hm He Hs. pose proof Hs as Hs0. destruct Hs as [|c s1 Hc Hs]; [done |]. cbn [value_step].
  pose proof (skip_ws_ascii s1 Hs) as Hw.
  destruct (c =? 34)%N.
  { eapply yields_bind; [by apply (pstring_yields _ _ (le_n _)) |].
    intros t r [Ht _] Hr. split; [by constructor | done]. }
  destruct (c =? 123)%N.
  { assert (H : yields wf (let* (d, r) := members (skip_ws s1) in
                           let* _ := reject_duplicate_keys dup_exn [] d in Ok (VDict d, r))).
    { eapply yields_bind; [by apply Hm |]. intros d r [Hk Hv] Hr.
      destruct (reject_duplicate_keys dup_exn [] d) as [[]|e] eqn:E; [|done].
      apply no_duplicates in E as [Hn _]. split; [by constructor | done]. }
    destruct Hw as [|x r Hx Hr]; [exact H |].
    assert (Hnil : yields wf (Ok (VDict [], r))) by (split; [repeat constructor | done]).
    destruct x as [|p]; [exact H |]. by do 7 (destruct p as [p|p|]; try exact H; try exact Hnil). }
  destruct (c =? 91)%N.
  { assert (H : yields wf (let* (l, r) := elements (skip_ws s1) in Ok (VList l, r))).
    { eapply yields_bind; [by apply He |]. intros l r Hl Hr. split; [by constructor | done]. }
    destruct Hw as [|x r Hx Hr]; [exact H |].
    assert (Hnil : yields wf (Ok (VList [], r))) by (split; [repeat constructor | done]).
    destruct x as [|p]; [exact H |]. by do 7 (destruct p as [p|p|]; try exact H; try exact Hnil). }
  destruct (is_digit_char c); [by apply Hnumber |].
  destruct (c =? 45)%N; [|by apply pconstant_yields].
  destruct s1 as [|d s2]; [by apply pconstant_yields |].
  destruct (is_digit_char d); [by apply Hnumber | by apply pconstant_yields].
Qed.

Lemma members_step_yields pval members s :
  (forall t, ascii_text t -> yields wf (pval t)) ->
  (forall t, ascii_text t -> yields members_ok (members t)) ->
  ascii_text s -> yields members_ok (members_step pval members s).
Proof.
  intros Hv Hm Hs. destruct Hs as [|c s1 Hc Hs]; [done |].
  assert (Hd : yields members_ok (@Raise (dict * pystr) JSONDecodeError)) by done.
  destruct (decide (c = 34%N)) as [->|Hc'].
  2:{ destruct c as [|p]; [exact Hd |]. by do 6 (destruct p as [p|p|]; try exact Hd). }
  cbn [members_step]. eapply yields_bind; [by apply (pstring_yields _ _ (le_n _)) |].
  intros k s2 [Hk _] Hs2%skip_ws_ascii. destruct Hs2 as [|x s3 Hx Hs3]; [exact Hd |].
  destruct (decide (x = 58%N)) as [->|Hx'].
  2:{ destruct x as [|p]; [exact Hd |]. by do 6 (destruct p as [p|p|]; try exact Hd). }
  eapply yields_bind; [by apply Hv, skip_ws_ascii |].
  intros v s4 Hwv Hs4%skip_ws_ascii. destruct Hs4 as [|y s5 Hy Hs5]; [exact Hd |].
  assert (Hend : yields members_ok (Ok ([(k, v)], s5))) by (split; [by repeat constructor | done]).
  assert (Hmore : yields members_ok (let* (d, r) := members (skip_ws s5) in Ok ((k, v) :: d, r))).
  { eapply yields_bind; [by apply Hm, skip_ws_ascii |]. intros d r [H1 H2] Hr.
    split; [split; by constructor | done]. }
  destruct y as [|p]; [exact Hd |].
  by do 7 (destruct p as [p|p|]; try exact Hd; try exact Hend; try exact Hmore).
Qed.

Lemma elements_step_yields pval elements s :
  (forall t, ascii_text t -> yields wf (pval t)) ->
  (forall t, ascii_text t -> yields (Forall wf) (elements t)) ->
  ascii_text s -> yields (Forall wf) (elements_step pval elements s).
Proof.
  intros Hv He Hs. unfold elements_step. eapply yields_bind; [by apply Hv |].
  intros v s1 Hwv Hs1%skip_ws_ascii.
  assert (Hd : yields (Forall wf) (@Raise (list value * pystr) JSONDecodeError)) by done.
  destruct Hs1 as [|y s2 Hy Hs2]; [exact Hd |].
  assert (Hend : yields (Forall wf) (Ok ([v], s2))) by (split; [by repeat constructor | done]).
  assert (Hmore : yields (Forall wf) (let* (l, r) := elements (skip_ws s2) in Ok (v :: l, r))).
  { eapply yields_bind; [by apply He, skip_ws_ascii |]. intros l r Hl Hr.
    split; [by constructor | done]. }
  destruct y as [|p]; [exact Hd |].
  by do 7 (destruct p as [p|p|]; try exact Hd; try exact Hend; try exact Hmore).
Qed.

Lemma scanners_yield f :
  (forall s, ascii_text s -> yields wf (pvalue number dup_exn nonfinite_exn f s)) /\
  (forall s, ascii_text s -> yields members_ok (pmembers number dup_exn nonfinite_exn f s)) /\
  (forall s, ascii_text s -> yields (Forall wf) (pelements number dup_exn nonfinite_exn f s)).
Proof.
  induction f as [|f (IHv & IHm & IHe)]; [done |]. split_and!; intros s Hs; simpl.
  - by apply value_step_yields.
  - by apply members_step_yields.
  - by apply elements_step_yields.
Qed.

(** What was decoded from ASCII text is well-formed. *)
Lemma loads_with_wf raw v :
  ascii_text raw -> loads_with number dup_exn nonfinite_exn raw = Ok v -> wf v.
Proof.
  intros Hs.
  assert (H : (let* (v, r) := pvalue number dup_exn nonfinite_exn (2 * length raw + 2) (skip_ws raw) in
               match skip_ws r with [] => Ok v | _ => Raise JSONDecodeError end) = Ok v -> wf v).
  { destruct (scanners_yield (2 * length raw + 2)) as [Hv _].
    specialize (Hv _ (skip_ws_ascii _ Hs)).
    destruct (pvalue number dup_exn nonfinite_exn (2 * length raw + 2) (skip_ws raw)) as [[w r]|e]; [|done].
    destruct Hv as [Hw _]. destruct (skip_ws r); [by intros [= <-] | done]. }
  unfold loads_with. destruct Hs as [|c raw Hc Hs]; [exact H |]. destruct c as [|p]; [exact H |].
  do 16 (destruct p as [p|p|]; try exact H).
Qed.
End Decoded.

Lemma pnumber_yields neg s : ascii_text s -> yields wf (pnumber neg s).
Proof.
  intros Hs. unfold pnumber.
  assert (H : ascii_text (match s with 48%N :: r => ([48%N], r) | _ => span is_digit_char s end).2).
  { pose proof (span_ascii is_digit_char s Hs) as H. destruct Hs as [|c s Hc Hs]; [done |].
    destruct c as [|p]; [exact H |]. by do 6 (destruct p as [p|p|]; try exact H; try exact Hs). }
  destruct (match s with 48%N :: r => _ | _ => _ end) as [ds rest]. simpl in H.
  destruct ds as [|d ds]; [done |].
  assert (H1 : ascii_text (pfrac rest).2).
  { destruct H as [|c r Hc Hr]; [constructor |].
    destruct (decide (c = 46%N)) as [->|Hn].
    - simpl. pose proof (span_ascii is_digit_char r Hr) as Hsp.
      destruct (span is_digit_char r) as [[|? ?] ?]; [by constructor | done].
    - assert (pfrac (c :: r) = ([], c :: r)) as ->; [|by constructor].
      unfold pfrac. destruct c as [|p]; [done |]. by do 6 (destruct p as [p|p|]; try done). }
  destruct (pfrac rest) as [frac r1]. simpl in H1.
  assert (H2 : ascii_text (pexp r1).2).
  { unfold pexp. destruct H1 as [|c r Hc Hr]; [constructor |].
    destruct ((c =? 101)%N || (c =? 69)%N); [|by constructor].
    destruct Hr as [|x r Hx Hr]; [by repeat constructor |].
    destruct ((x =? 43)%N || (x =? 45)%N).
    - pose proof (span_ascii is_digit_char r Hr) as Hsp.
      destruct (span is_digit_char r) as [[|? ?] ?]; [by repeat constructor | done].
    - pose proof (span_ascii is_digit_char (x :: r) ltac:(by constructor)) as Hsp.
      destruct (span is_digit_char (x :: r)) as [[|? ?] ?]; [by repeat constructor | done]. }
  destruct (pexp r1) as [exp r2]. destruct (frac ++ exp).
  - destruct (MAX_STR_DIGITS <? zlen (d :: ds)); [done |]. split; [constructor | done].
  - split; [constructor | done].
Qed.

(** ** Printable text *)

(** What the encoder writes: ASCII without control characters. *)
Definition printable (s : pystr) : Prop := Forall (fun c => (32 <= c < 127)%N) s.

Lemma printable_str s : forallb (fun c => (32 <=? c) && (c <? 127))%N (str s) = true -> printable (str s).
Proof.
  rewrite forallb_forall. intros H. apply Forall_forall. intros c Hc%list_elem_of_In%H.
  rewrite andb_true_iff, N.leb_le, N.ltb_lt in Hc. done.
Qed.

Lemma printable_app s t : printable s -> printable t -> printable (s ++ t).
Proof. intros. by apply Forall_app. Qed.

Lemma nat_text_printable n : 0 <= n -> printable (nat_text n).
Proof.
  intros Hn. destruct (nat_text_digits n Hn) as [Hd _]. eapply Forall_impl; [exact Hd |].
  intros c Hc%digit_char_range. lia.
Qed.

Lemma dec_printable z : printable (dec z).
Proof.
  unfold dec. destruct (Z.ltb_spec z 0); [|by apply nat_text_printable].
  apply printable_app; [by apply printable_str | apply nat_text_printable; lia].
Qed.

Lemma u4_printable n : printable (u4 n).
Proof.
  unfold u4. apply printable_app; [by apply printable_str |].
  apply Forall_map, Forall_forall. intros i _. unfold hex_char.
  assert (H : (N.land (N.shiftr n (4 * N.of_nat i)) 15 < 16)%N).
  { change 15%N with (N.ones 4). rewrite N.land_ones. by apply N.mod_lt. }
  destruct (N.ltb_spec (N.land (N.shiftr n (4 * N.of_nat i)) 15) 10); lia.
Qed.

Lemma esc_printable c : printable (esc c).
Proof.
  unfold esc.
  destruct (c =? 34)%N; [apply printable_app; [by apply printable_str | repeat constructor; lia] |].
  do 6 (case_match; [by apply printable_str |]).
  destruct ((32 <=? c) && (c <=? 126))%N eqn:E.
  - apply andb_true_iff in E as [?%N.leb_le ?%N.leb_le]. repeat constructor; lia.
  - destruct (c <? 65536)%N; [apply u4_printable | apply printable_app; apply u4_printable].
Qed.

Lemma quote_printable s : printable (quote s).
Proof.
  unfold quote. constructor; [lia |]. apply printable_app; [|repeat constructor; lia].
  induction s as [|c s IH]; [constructor |]. simpl. apply printable_app; [apply esc_printable | done].
Qed.

Lemma join_printable sep l : (32 <= sep < 127)%N -> Forall printable l -> printable (join sep l).
Proof.
  intros Hsep H. induction H as [|s l Hs Hl IH]; [constructor |]. simpl.
  destruct l; [done |]. apply printable_app; [done | by constructor].
Qed.

Lemma dumps_raw_printable v depth : norm_ok depth v = true -> printable (dumps_raw v).
Proof.
  revert depth. induction v as [|[]|z|t|s|l IH|d IH] using value_nested_ind; intros depth Hn;
    simpl in Hn; apply andb_true_iff in Hn as [_ Hn]; try (by apply printable_str).
  - apply dec_printable.
  - done.
  - apply quote_printable.
  - cbn [dumps_raw]. repeat apply printable_app; try (by apply printable_str).
    apply join_printable; [lia |]. rewrite forallb_forall in Hn. rewrite Forall_fmap, Forall_forall in *.
    intros x Hx. apply (IH x Hx (depth + 1)), Hn. by apply list_elem_of_In.
  - cbn [dumps_raw]. repeat apply printable_app; try (by apply printable_str).
    apply join_printable; [lia |]. rewrite forallb_forall in Hn. rewrite Forall_fmap, Forall_forall in *.
    intros [k x] Hx. change (printable (quote k ++ str ":" ++ dumps_raw x)).
    apply printable_app; [apply quote_printable | apply printable_app; [by apply printable_str |]].
    apply (IH (k, x) Hx (depth + 1)), (Hn (k, x)). by apply list_elem_of_In.
Qed.

Lemma dumps_printable v : norm_ok 0 v = true -> printable (dumps v).
Proof. intros Hn. apply (dumps_raw_printable _ 0). by rewrite norm_ok_canon. Qed.
