(* ===== verification/JsonSim.v ===== *)
(** * Values up to key order

    [sim v w]: two well-formed values with the same canonical form.  It is a
    partial equivalence; [sim_view] reads it off constructor by constructor,
    [get_sim] says that members correspond, [same_dict] builds it from equal
    members and [py_eq_sim] from Python's [==] against a value without numbers. *)

From Stdlib Require Import Sorted.
From S2P Require Import Prelude Json JsonFacts.
Local Open Scope Z_scope.

Definition sim (v w : value) : Prop := wf v /\ wf w /\ canon v = canon w.

#[export] Instance sim_sym : Symmetric sim.
Proof. intros v w (H1 & H2 & H3). repeat split; auto. Qed.
#[export] Instance sim_trans : Transitive sim.
Proof. intros u v w (H1 & H2 & H3) (_ & H4 & H5). repeat split; [done | done | congruence]. Qed.

Lemma sim_refl v : wf v -> sim v v.
Proof. done. Qed.

Lemma sim_canon v : wf v -> sim v (canon v).
Proof. intros Hv. split_and!; [done | by apply wf_canon | by rewrite canon_idem]. Qed.

(** Two mappings with the same keys and similar members. *)
Record dsim (d e : dict) : Prop := {
  dsim_left : NoDup (keys d);
  dsim_right : NoDup (keys e);
  dsim_keys : keys d ≡ₚ keys e;
  dsim_get : forall k, sim (get d k) (get e k) }.

Lemma keys_ksort_canon d : keys (ksort (map (fun kv => (kv.1, canon kv.2)) d)) ≡ₚ keys d.
Proof. by rewrite (keys_perm _ _ (ksort_perm _)), keys_map_canon. Qed.

Lemma sim_dict d e : sim (VDict d) (VDict e) -> dsim d e.
Proof.
  intros (Hd & He & E). pose proof Hd as Hd'. pose proof He as He'.
  inversion Hd' as [| | | | | |d' Nd _ _]; inversion He' as [| | | | | |e' Ne _ _]; subst.
  split; [done | done | |].
  - rewrite !canon_dict in E. injection E as E. by rewrite <- (keys_ksort_canon d), E, keys_ksort_canon.
  - intros k. split_and!; [by apply wf_get | by apply wf_get |].
    pose proof (dget_canon (str k) d _ Nd (canon_dict d)) as H1. rewrite canon_dict in E.
    pose proof (dget_canon (str k) e _ Ne (eq_sym E)) as H2. rewrite H1 in H2. unfold get.
    destruct (dget (str k) d), (dget (str k) e); simpl in H2; congruence.
Qed.

(** The correspondence by constructors. *)
Definition view (v w : value) : Prop :=
  match v, w with
  | VNone, VNone => True
  | VBool x, VBool y => x = y
  | VInt x, VInt y => x = y
  | VFloat x, VFloat y => x = y
  | VStr x, VStr y => x = y
  | VList l, VList m => Forall2 sim l m
  | VDict d, VDict e => dsim d e
  | _, _ => False
  end.

Lemma sim_view v w : sim v w -> view v w.
Proof.
  intros H. pose proof H as (Hv & Hw & E).
  destruct v, w; try discriminate E; simpl in *; try congruence; try done.
  - inversion Hv as [| | | | |l' Hl|]; inversion Hw as [| | | | |m' Hm|]; subst.
    injection E as E. clear -E Hl Hm. revert l0 E Hm. induction Hl as [|x l Hx _ IH]; intros [|y m] E Hm;
      try discriminate E; constructor; injection E as E1 E2; apply Forall_cons in Hm as [Hy Hm].
    + done.
    + by apply IH.
  - by apply sim_dict.
Qed.

Lemma get_sim d e k : dsim d e -> sim (get d k) (get e k).
Proof. intros H. apply H. Qed.

(** ** Building the relation *)

Lemma canon_perm d e :
  NoDup (keys d) -> map (fun kv => (kv.1, canon kv.2)) d ≡ₚ map (fun kv => (kv.1, canon kv.2)) e ->
  canon (VDict d) = canon (VDict e).
Proof. intros Hn Hp. rewrite !canon_dict. f_equal. apply ksort_unique; [by rewrite keys_map_canon | done]. Qed.

Lemma dict_incl d e :
  NoDup (keys d) -> NoDup (keys e) -> (forall k, k ∈ keys d <-> k ∈ keys e) ->
  (forall k v w, dget k d = Some v -> dget k e = Some w -> canon v = canon w) ->
  canon (VDict d) = canon (VDict e).
Proof.
  intros Nd Ne Hk Hv. apply canon_perm; [done |].
  assert (Hnd : forall f : dict, NoDup (keys f) -> NoDup (map (fun kv => (kv.1, canon kv.2)) f)).
  { intros f Hf. apply (NoDup_fmap_1 fst). change (NoDup (keys (map (fun kv => (kv.1, canon kv.2)) f))).
    by rewrite keys_map_canon. }
  assert (Hin : forall d e : dict, NoDup (keys d) -> (forall k, k ∈ keys d -> k ∈ keys e) ->
    (forall k v w, dget k d = Some v -> dget k e = Some w -> canon v = canon w) ->
    forall x, x ∈ map (fun kv => (kv.1, canon kv.2)) d -> x ∈ map (fun kv => (kv.1, canon kv.2)) e).
  { clear. intros d e Nd Hk Hv [k x] Hx. apply list_elem_of_fmap in Hx as ([k' v] & [= -> ->] & Hx).
    assert (Hke : k' ∈ keys e) by (apply Hk, (list_elem_of_fmap_2 fst d (k', v) Hx)).
    apply list_elem_of_fmap in Hke as ([k w] & -> & Hw). simpl.
    apply list_elem_of_fmap. apply (dget_elem _ _ _ Nd) in Hx. simpl in Hx.
    destruct (dget k e) as [w'|] eqn:Ew.
    - exists (k, w'). split; [simpl; f_equal; by apply (Hv k) | by apply dget_Some_elem].
    - exfalso. clear -Hw Ew. induction e as [|[k' v'] e IH]; simpl in *; [by apply not_elem_of_nil in Hw |].
      case_decide; [done |]. apply elem_of_cons in Hw as [[= -> ->]|Hw]; [done | auto]. }
  apply NoDup_Permutation; [by apply Hnd | by apply Hnd |].
  intros x. split; apply Hin; try done; [naive_solver | naive_solver |].
  intros k v w H1 H2. symmetry. by apply (Hv k).
Qed.

Lemma dget_str k d : k ∈ map str d -> exists s, k = str s /\ s ∈ d.
Proof. intros (s & -> & Hs)%list_elem_of_fmap. eauto. Qed.

(** Mappings with the keys of a display are similar when their members are. *)
Lemma same_dict d e ks :
  wf (VDict d) -> wf (VDict e) ->
  (forall k, k ∈ keys d <-> k ∈ map str ks) -> (forall k, k ∈ keys e <-> k ∈ map str ks) ->
  (forall k, k ∈ ks -> canon (get d k) = canon (get e k)) -> sim (VDict d) (VDict e).
Proof.
  intros Hd He Kd Ke Hg. split_and!; [done | done |].
  inversion Hd; inversion He; subst. apply dict_incl; [done | done | |].
  - intros k. by rewrite Kd, Ke.
  - intros k v w Hv Hw.
    assert (Hk : k ∈ keys d) by (apply dget_Some_elem in Hv; by apply (list_elem_of_fmap_2 fst d (k, v))).
    apply Kd, dget_str in Hk as (s & -> & Hs). specialize (Hg s Hs). unfold get in Hg.
    by rewrite Hv, Hw in Hg.
Qed.

Lemma same_keys_spec d ks :
  same_keys d ks = true <-> forall k, k ∈ keys d <-> k ∈ map str ks.
Proof.
  unfold same_keys. rewrite andb_true_iff, !forallb_forall. split.
  - intros [H1 H2] k. split; intros Hk%list_elem_of_In.
    + by apply H1, bool_decide_eq_true in Hk.
    + by apply H2, bool_decide_eq_true in Hk.
  - intros H. split; intros k Hk%list_elem_of_In; apply bool_decide_eq_true, H, Hk.
Qed.

Lemma same_keys_sim d e ks : dsim d e -> same_keys d ks = same_keys e ks.
Proof.
  intros H. apply eq_true_iff_eq. rewrite !same_keys_spec. setoid_rewrite (dsim_keys _ _ H). done.
Qed.

(** ** Python's equality *)

(** No booleans and no numbers: [==] is equality up to key order. *)
Fixpoint textual (v : value) : bool :=
  match v with
  | VNone | VStr _ => true
  | VList l => forallb textual l
  | VDict d => forallb (fun kv => textual kv.2) d
  | _ => false
  end.

Lemma py_eq_dict_members d e :
  py_eq (VDict d) (VDict e) = true ->
  length d = length e /\ forall k x, (k, x) ∈ d -> exists y, dget k e = Some y /\ py_eq x y = true.
Proof.
  simpl. rewrite andb_true_iff, Nat.eqb_eq. intros [Hl H]. split; [done |]. clear Hl.
  induction d as [|[k x] d IH]; intros k' x' Hx; [by apply not_elem_of_nil in Hx |].
  destruct (dget k e) as [y|] eqn:E; [|done]. apply andb_true_iff in H as [H1 H2].
  apply elem_of_cons in Hx as [[= -> ->]|Hx]; [eauto | by apply IH].
Qed.

Lemma textual_eq_canon v w : wf v -> wf w -> textual v = true -> py_eq v w = true -> canon v = canon w.
Proof.
  revert w. induction v as [|b|z|t|s|l IH|d IH] using value_nested_ind; intros w Hv Hw Ht H; try done.
  - by destruct w.
  - destruct w; try done. apply bool_decide_eq_true in H. by subst.
  - destruct w as [| | | | |m|]; try done. simpl. f_equal. simpl in Ht.
    inversion Hv as [| | | | |l' Hl|]; inversion Hw as [| | | | |m' Hm|]; subst. clear Hv Hw.
    revert m H Hm. induction IH as [|x l Hx _ IHl]; intros [|y m] H Hm; try done. simpl in H.
    apply andb_true_iff in H as [H1 H2]. apply andb_true_iff in Ht as [Ht1 Ht2].
    apply Forall_cons in Hl as [Hwx Hl]. apply Forall_cons in Hm as [Hwy Hm]. simpl. f_equal.
    + by apply Hx.
    + by apply IHl.
  - destruct w as [| | | | | |e]; try done. apply py_eq_dict_members in H as [Hlen H].
    inversion Hv as [| | | | | |d' Nd _ Hd]; inversion Hw as [| | | | | |e' Ne _ He]; subst.
    rewrite Forall_forall in IH, Hd, He. simpl in Ht. rewrite forallb_forall in Ht.
    assert (Hsub : forall k, k ∈ keys d -> k ∈ keys e).
    { intros k ([k' x] & -> & Hx)%list_elem_of_fmap. destruct (H _ _ Hx) as (y & Hy & _). simpl.
      apply dget_Some_elem in Hy. by apply (list_elem_of_fmap_2 fst e (k', y)). }
    apply dict_incl; [done | done | |].
    + intros k. split; [apply Hsub |]. intros Hk.
      assert (Hp : keys d ≡ₚ keys e); [|by rewrite Hp].
      apply submseteq_length_Permutation; [by apply NoDup_submseteq |].
      unfold keys. rewrite !length_map. lia.
    + intros k x y Hx Hy. apply dget_Some_elem in Hx. pose proof (dget_elem _ _ _ Ne (dget_Some_elem _ _ _ Hy)) as Hy'.
      destruct (H _ _ Hx) as (y' & E & Hpy). assert (y' = y) as -> by congruence.
      apply (IH (k, x) Hx); [by apply (Hd (k, x)) | apply (He (k, y)); by apply dget_Some_elem | | done].
      by apply (Ht (k, x)), list_elem_of_In.
Qed.

Lemma py_eq_sim v w : wf v -> wf w -> textual v = true -> py_eq v w = true -> sim v w.
Proof. intros. split_and!; [done | done | by apply textual_eq_canon]. Qed.

Lemma py_eq_vstr_r v s : py_eq v (VStr s) = true -> v = VStr s.
Proof. destruct v; try done. simpl. intros H%bool_decide_eq_true. by subst. Qed.

(** Equality with a string depends on the value up to key order. *)
Lemma py_eq_vstr_sim v w s : sim v w -> py_eq v (VStr s) = py_eq w (VStr s).
Proof. intros H%sim_view. destruct v, w; try done. simpl in *. by subst. Qed.

Lemma dget_sim d e k x :
  sim (VDict d) (VDict e) -> (k, x) ∈ d -> exists y, dget k e = Some y /\ sim x y.
Proof.
  intros H Hx. pose proof (sim_dict _ _ H) as [Nd Ne _ _]. destruct H as (Hd & He & E).
  pose proof (dget_elem _ _ _ Nd Hx) as Hk.
  pose proof (dget_canon k d _ Nd (canon_dict d)) as H1. rewrite canon_dict in E.
  pose proof (dget_canon k e _ Ne (eq_sym E)) as H2. rewrite H1, Hk in H2.
  destruct (dget k e) as [y|] eqn:Ey; simpl in H2; [|done]. exists y. split; [done |].
  split_and!; [by apply (wf_dget k d) | by apply (wf_dget k e) | congruence].
Qed.

Lemma sim_py_eq v w : sim v w -> py_eq v w = true.
Proof.
  revert w. induction v as [|b|z|t|s|l IH|d IH] using value_nested_ind; intros w H;
    pose proof (sim_view _ _ H) as Hw; destruct w as [| | | | |m|e]; try done; simpl in Hw;
    try (subst; apply py_eq_refl; by constructor).
  - subst. apply py_eq_refl. apply H.
  - clear H. simpl. revert m Hw. induction IH as [|x l Hx _ IHl]; intros m Hm; inversion Hm; subst; [done |].
    rewrite Hx by done. by apply IHl.
  - simpl. assert (Hl : length d = length e).
    { pose proof (dsim_keys _ _ Hw) as Hk%Permutation_length. unfold keys in Hk. by rewrite !length_map in Hk. }
    rewrite Hl, Nat.eqb_refl. simpl.
    assert (Hm : forall k x, (k, x) ∈ d -> exists y, dget k e = Some y /\ py_eq x y = true).
    { intros k x Hx. destruct (dget_sim _ _ _ _ H Hx) as (y & Hy & Hs). exists y. split; [done |].
      rewrite Forall_forall in IH. by apply (IH (k, x)). }
    clear -Hm. induction d as [|[k x] d IHd]; [done |].
    destruct (Hm k x ltac:(by left)) as (y & -> & ->). simpl. apply IHd.
    intros k' x' Hx'. apply Hm. by right.
Qed.

(** Comparing with a value without numbers looks at a value up to key order. *)
Lemma py_eq_textual v w s :
  sim v w -> wf s -> textual s = true -> py_eq s v = py_eq s w.
Proof.
  intros H Hs Ht. pose proof H as (Hv & Hw & _). apply eq_true_iff_eq.
  split; intros E; apply py_eq_sim in E; try done; apply sim_py_eq; by rewrite E.
Qed.
