(* ===== verification/Ledger.v ===== *)
(** * The continuity ledger

    scripts/john_lomein_continuity.py: heads, entries, supersession and
    [_verify_ledger_snapshot], which checks the bytes of a ledger against a
    head.  A checked head or entry is a record; [head_dict] and [entry_dict]
    are the mappings the source keeps. *)

From S2P Require Import Prelude Regex Sha256 PyTime PyUrl PyText Json Encoding Screening Continuity.
Local Open Scope Z_scope.

(** [d] without [k]: [base = dict(d); base.pop(k)] *)
Definition without (k : string) (d : dict) : dict :=
  List.filter (fun kv => negb (bool_decide (kv.1 = str k))) d.

(** A number in an f-string of a message. *)
Definition text (s : pystr) : string := string_of_list_ascii (map ascii_of_N s).

Definition store_invalid {A} (m : string) : res A := cont_error "store_invalid" m.

(** [type(v) is int] *)
Definition exact_int (v : value) : option Z := match v with VInt z => Some z | _ => None end.

(** [s < t] on strings *)
Definition str_ltb (s t : pystr) : bool := negb (str_leb t s).

(** A line of the store: canonical JSON and a newline. *)
Definition canonical_line (v : value) : res bytes :=
  let* raw := canonical_json v in Ok (raw ++ [10%N]).

(** ** The head *)

Record Head := {
  hd_ledger_id : pystr; hd_sequence : Z; hd_entry_sha256 : pystr; hd_size : Z;
  hd_updated_at : pystr; hd_sha256 : pystr }.

#[export] Instance head_eq_dec : EqDecision Head.
Proof. solve_decision. Defined.

Definition head_fields (ledger_id : pystr) (sequence : Z) (entry_sha256 : pystr) (size : Z)
    (updated_at : pystr) : list (string * value) :=
  [("schema_version", vstr HEAD_SCHEMA); ("ledger_id", VStr ledger_id);
   ("sequence", VInt sequence); ("head_entry_sha256", VStr entry_sha256);
   ("ledger_size_bytes", VInt size); ("updated_at", VStr updated_at)].

Definition head_base (h : Head) : dict :=
  fields (head_fields h.(hd_ledger_id) h.(hd_sequence) h.(hd_entry_sha256) h.(hd_size)
            h.(hd_updated_at)).

Definition head_dict (h : Head) : dict :=
  head_base h ++ fields [("head_sha256", VStr h.(hd_sha256))].

Definition new_head (ledger_id : pystr) (sequence : Z) (entry_sha256 : pystr) (size : Z)
    (updated_at : pystr) : res Head :=
  let* digest := sha256_json (obj (head_fields ledger_id sequence entry_sha256 size updated_at)) in
  Ok {| hd_ledger_id := ledger_id; hd_sequence := sequence; hd_entry_sha256 := entry_sha256;
        hd_size := size; hd_updated_at := updated_at; hd_sha256 := digest |}.

Definition HEAD_KEYS : list string :=
  ["schema_version"; "ledger_id"; "sequence"; "head_entry_sha256"; "ledger_size_bytes";
   "updated_at"; "head_sha256"].

Definition validate_head (v : value) : res Head :=
  let* head := cont_mapping v "continuity head" in
  raise_if negb (same_keys head HEAD_KEYS)
    with (ContinuityError "store_invalid" "continuity head fields are invalid") ;;
  raise_if negb (py_eq (get head "schema_version") (vstr HEAD_SCHEMA))
    with (ContinuityError "store_invalid" "continuity head schema mismatch") ;;
  let* ledger_id := exact_string (get head "ledger_id") "head.ledger_id" in
  raise_if negb (fullmatch LEDGER_ID_RE ledger_id)
    with (ContinuityError "store_invalid" "continuity head ledger id is invalid") ;;
  match exact_int (get head "sequence") with
  | None => store_invalid "continuity head sequence is invalid"
  | Some sequence =>
      raise_if sequence <? 0
        with (ContinuityError "store_invalid" "continuity head sequence is invalid") ;;
      match exact_int (get head "ledger_size_bytes") with
      | None => store_invalid "continuity head size is invalid"
      | Some size =>
          raise_if (size <? 0) || (MAX_LEDGER_BYTES <? size)
            with (ContinuityError "store_invalid" "continuity head size is invalid") ;;
          let* entry_sha256 := cont_sha256 (get head "head_entry_sha256") "head_entry_sha256" in
          let* _ := parse_utc (get head "updated_at") "head.updated_at" in
          let* updated_at := exact_string (get head "updated_at") "head.updated_at" in
          let* observed := cont_sha256 (get head "head_sha256") "head_sha256" in
          let* digest := sha256_json (VDict (without "head_sha256" head)) in
          raise_if negb (bool_decide (observed = digest))
            with (ContinuityError "store_invalid" "continuity head was modified") ;;
          Ok {| hd_ledger_id := ledger_id; hd_sequence := sequence;
                hd_entry_sha256 := entry_sha256; hd_size := size;
                hd_updated_at := updated_at; hd_sha256 := observed |}
      end
  end.

(** ** Entries *)

Record Entry := {
  en_ledger_id : pystr; en_sequence : Z; en_previous : pystr; en_id : pystr;
  en_recorded_at : pystr; en_body : Body; en_sha256 : pystr }.

#[export] Instance entry_eq_dec : EqDecision Entry.
Proof. solve_decision. Defined.

Definition entry_base_fields (e : Entry) : list (string * value) :=
  [("schema_version", vstr ENTRY_SCHEMA); ("ledger_id", VStr e.(en_ledger_id));
   ("sequence", VInt e.(en_sequence)); ("previous_entry_sha256", VStr e.(en_previous));
   ("entry_id", VStr e.(en_id)); ("recorded_at", VStr e.(en_recorded_at))] ++
  body_fields e.(en_body).

Definition entry_base (e : Entry) : dict := fields (entry_base_fields e).
Definition entry_dict (e : Entry) : dict :=
  entry_base e ++ fields [("entry_sha256", VStr e.(en_sha256))].

Definition ENTRY_KEYS : list string :=
  ["schema_version"; "ledger_id"; "sequence"; "previous_entry_sha256"; "entry_id";
   "recorded_at"; "kind"; "subject"; "summary"; "payload"; "source"; "scope"; "expires_at";
   "supersedes_entry_id"; "entry_sha256"].

(** [_entry_request] *)
Definition entry_request (entry : dict) : dict :=
  fields (("schema_version", vstr WRITE_SCHEMA) ::
    map (fun k => (k, get entry k))
      ["entry_id"; "kind"; "subject"; "summary"; "payload"; "source"; "scope"; "expires_at";
       "supersedes_entry_id"]).

Section Entries.
Context `{!Unicode}.

(** [expires_at], when present, is after [recorded]. *)
Definition expires_after (expires : option pystr) (field : string) (recorded : Z) (m : string)
    (code : string) : res unit :=
  match expires with
  | None => Ok tt
  | Some s =>
      let* t := parse_utc (VStr s) field in
      raise_if t <=? recorded with (ContinuityError code m) ;; Ok tt
  end.

Definition validate_entry (v : value) (expected_ledger_id : pystr) (expected_sequence : Z)
    (expected_previous : pystr) : res Entry :=
  let* entry := cont_mapping v "continuity entry" in
  raise_if negb (same_keys entry ENTRY_KEYS)
    with (ContinuityError "store_invalid" "continuity entry fields are invalid") ;;
  raise_if negb (py_eq (get entry "schema_version") (vstr ENTRY_SCHEMA))
    with (ContinuityError "store_invalid" "continuity entry schema mismatch") ;;
  raise_if negb (py_eq (get entry "ledger_id") (VStr expected_ledger_id))
    with (ContinuityError "store_invalid" "continuity ledger id changed") ;;
  match exact_int (get entry "sequence") with
  | None => store_invalid "continuity entry sequence is invalid"
  | Some sequence =>
      raise_if sequence <? 1
        with (ContinuityError "store_invalid" "continuity entry sequence is invalid") ;;
      raise_if negb (sequence =? expected_sequence)
        with (ContinuityError "store_rollback" "continuity sequence is not contiguous") ;;
      raise_if negb (py_eq (get entry "previous_entry_sha256") (VStr expected_previous))
        with (ContinuityError "store_rollback" "continuity hash chain is invalid") ;;
      let* recorded := parse_utc (get entry "recorded_at") "entry.recorded_at" in
      let* recorded_at := exact_string (get entry "recorded_at") "entry.recorded_at" in
      let* normalized := normalize_typed_write_request (VDict (entry_request entry)) in
      match normalized.(wr_entry_id) with
      | None => store_invalid "continuity entry is not in canonical form"
      | Some entry_id =>
          raise_if negb (forallb (fun kv => py_eq kv.2 (get entry kv.1))
                     (("entry_id", VStr entry_id) :: body_fields normalized.(wr_body)))
            with (ContinuityError "store_invalid" "continuity entry is not in canonical form") ;;
          let* _ := expires_after normalized.(wr_body).(bo_expires_at) "entry.expires_at" recorded
            "continuity entry expiry is not after recording" "store_invalid" in
          let* observed := cont_sha256 (get entry "entry_sha256") "entry.entry_sha256" in
          let* digest := sha256_json (VDict (without "entry_sha256" entry)) in
          raise_if negb (bool_decide (observed = digest))
            with (ContinuityError "store_tampered" "continuity entry was modified") ;;
          Ok {| en_ledger_id := expected_ledger_id; en_sequence := sequence;
                en_previous := expected_previous; en_id := entry_id;
                en_recorded_at := recorded_at; en_body := normalized.(wr_body);
                en_sha256 := observed |}
      end
  end.

(** [by_id.get(id)] *)
Definition find_entry (entry_id : pystr) (entries : list Entry) : option Entry :=
  List.find (fun e => bool_decide (e.(en_id) = entry_id)) entries.

Definition en_kind (e : Entry) : pystr := bo_kind e.(en_body).

Definition validate_supersession (entry : Body) (by_id : list Entry) (superseded : list pystr) :
    res unit :=
  match entry.(bo_supersedes) with
  | None => Ok tt
  | Some target_id =>
      match find_entry target_id by_id with
      | None => store_invalid "continuity supersession target is missing"
      | Some e =>
          let target := e.(en_body) in
          raise_if bool_decide (target_id ∈ superseded)
            with (ContinuityError "store_invalid"
              "continuity entry was superseded more than once") ;;
          raise_if bool_decide (bo_kind target = str "verified_outcome") ||
                   bool_decide (bo_kind entry = str "verified_outcome")
            with (ContinuityError "forged_reputation"
              "externally verified outcomes are immutable and non-supersedable") ;;
          raise_if negb (bool_decide (bo_kind target = bo_kind entry)) ||
                   negb (bool_decide (target.(bo_subject) = entry.(bo_subject))) ||
                   negb (bool_decide (target.(bo_scope) = entry.(bo_scope)))
            with (ContinuityError "scope_invalid"
              "supersession requires the same kind, subject, and exact scope") ;;
          raise_if TRUST_PRIORITY entry.(bo_source).(so_trust) <?
                   TRUST_PRIORITY target.(bo_source).(so_trust)
            with (ContinuityError "trust_invalid"
              "lower-trust continuity cannot supersede higher-trust continuity") ;;
          raise_if bool_decide (bo_kind entry ∈ map str ["user_correction"; "user_preference"]) &&
                   (negb (bool_decide (entry.(bo_source).(so_kind) = str "owner")) ||
                    negb (bool_decide (target.(bo_source).(so_kind) = str "owner")) ||
                    negb (bool_decide (entry.(bo_source).(so_actor) =
                                       target.(bo_source).(so_actor))))
            with (ContinuityError "trust_invalid"
              "owner continuity may be superseded only by the same owner actor") ;;
          Ok tt
      end
  end.

(** ** The ledger *)

(** [raw.splitlines(keepends=True)] of bytes; [line]: the current line, reversed. *)
Fixpoint byte_lines (line : bytes) (raw : bytes) : list bytes :=
  match raw with
  | [] => match line with [] => [] | _ => [rev line] end
  | 13%N :: 10%N :: raw' => rev (10%N :: 13%N :: line) :: byte_lines [] raw'
  | c :: raw' =>
      if ((c =? 10) || (c =? 13))%N then rev (c :: line) :: byte_lines [] raw'
      else byte_lines (c :: line) raw'
  end.

(** What the loop of [_verify_ledger_snapshot] carries; [by_id] holds the same
    entries as [entries]. *)
Record Progress := {
  pr_entries : list Entry; pr_previous : pystr; pr_recorded : pystr; pr_superseded : list pystr }.

Definition start : Progress :=
  {| pr_entries := []; pr_previous := ZERO_HASH; pr_recorded := []; pr_superseded := [] |}.

Definition added (e : Entry) (p : Progress) : Progress :=
  {| pr_entries := p.(pr_entries) ++ [e]; pr_previous := e.(en_sha256);
     pr_recorded := e.(en_recorded_at);
     pr_superseded := match e.(en_body).(bo_supersedes) with
       | Some s => s :: p.(pr_superseded) | None => p.(pr_superseded) end |}.

(** What is checked of an entry once its line was read. *)
Definition admit_entry (e : Entry) (p : Progress) : res Progress :=
  raise_if is_some (find_entry e.(en_id) p.(pr_entries))
    with (ContinuityError "store_invalid" "duplicate continuity entry id") ;;
  raise_if negb (bool_decide (p.(pr_recorded) = [])) && str_ltb e.(en_recorded_at) p.(pr_recorded)
    with (ContinuityError "store_rollback" "continuity timestamps are not monotonic") ;;
  let* _ := validate_supersession e.(en_body) p.(pr_entries) p.(pr_superseded) in
  raise_if MAX_ENTRIES <? zlen p.(pr_entries) + 1
    with (ContinuityError "store_invalid" "continuity entry limit was exceeded") ;;
  Ok (added e p).

Definition read_line (ledger_id : pystr) (line_number : Z) (raw : bytes) (p : Progress) :
    res Entry :=
  let line := "continuity line " +:+ text (dec line_number) in
  raise_if MAX_LINE_BYTES <? zlen raw
    with (ContinuityError "store_invalid" (line +:+ " is too large")) ;;
  raise_if negb (bool_decide (List.last raw 0%N = 10%N)) || bool_decide (raw = [10%N])
    with (ContinuityError "store_torn" (line +:+ " is partial or empty")) ;;
  let* v := parse_json raw line in
  let* e := validate_entry v ledger_id line_number p.(pr_previous) in
  let* expected := canonical_line v in
  raise_if negb (bool_decide (raw = expected))
    with (ContinuityError "store_invalid" (line +:+ " is not canonically encoded")) ;;
  Ok e.

Fixpoint verify_lines (ledger_id : pystr) (line_number : Z) (lines : list bytes) (p : Progress) :
    res Progress :=
  match lines with
  | [] => Ok p
  | raw :: lines' =>
      let* e := read_line ledger_id line_number raw p in
      let* p' := admit_entry e p in
      verify_lines ledger_id (line_number + 1) lines' p'
  end.

Definition verify_ledger_snapshot (ledger_raw : bytes) (head : Head) : res (list Entry) :=
  raise_if negb (zlen ledger_raw =? head.(hd_size))
    with (ContinuityError "store_ambiguous"
      "continuity ledger size does not match its durable head") ;;
  let* p := verify_lines head.(hd_ledger_id) 1 (byte_lines [] ledger_raw) start in
  raise_if negb (zlen p.(pr_entries) =? head.(hd_sequence))
    with (ContinuityError "store_rollback"
      "continuity head sequence does not match the ledger") ;;
  raise_if negb (bool_decide (p.(pr_previous) = head.(hd_entry_sha256)))
    with (ContinuityError "store_rollback" "continuity head digest does not match the ledger") ;;
  raise_if negb (any p.(pr_entries)) && negb (bool_decide (head.(hd_entry_sha256) = ZERO_HASH))
    with (ContinuityError "store_invalid" "empty continuity head is invalid") ;;
  raise_if any p.(pr_entries) && negb (bool_decide (head.(hd_updated_at) = p.(pr_recorded)))
    with (ContinuityError "store_rollback"
      "continuity head timestamp does not match the final entry") ;;
  Ok p.(pr_entries).
End Entries.
