(* ===== verification/ScreeningFacts.v ===== *)
(** * Screened texts

    Facts about Screening.v: a screened text is its own screened text
    ([tidy_idem], [screened_text_ok]), from four laws of normalisation form NFKC. *)

From S2P Require Import Prelude Regex Sha256 PyUrl PyText Json JsonFacts JsonSize JsonWf Screening.
Local Open Scope Z_scope.

(** What the code relies on of form NFKC: it is stable, also of a part of a
    stable text and across a space, and introduces no control characters. *)
Class UnicodeLaws `{!Unicode} := {
  nfkc_idem s : nfkc (nfkc s) = nfkc s;
  nfkc_infix s t u : nfkc (s ++ t ++ u) = s ++ t ++ u -> nfkc t = t;
  nfkc_space s t : nfkc s = s -> nfkc t = t -> nfkc (s ++ 32%N :: t) = s ++ 32%N :: t;
  nfkc_printable s : existsb CONTROL s = false -> existsb CONTROL (nfkc s) = false }.

Lemma strip_left_suffix s : exists t, s = t ++ strip_left s.
Proof.
  induction s as [|a s [t IH]]; [by exists [] |]. simpl. destruct (is_space a); [|by exists []].
  exists (a :: t). simpl. by rewrite <- IH.
Qed.

Lemma strip_space_infix s : exists t u, s = t ++ strip_space s ++ u.
Proof.
  destruct (strip_left_suffix s) as [t E]. destruct (strip_left_suffix (rev (strip_left s))) as [u Eu].
  exists t, (rev u). unfold strip_space. rewrite <- rev_app_distr, <- Eu, rev_involutive. done.
Qed.

(** A text without outer white space. *)
Definition trimmed (s : pystr) : Prop :=
  (forall a, hd_error s = Some a -> is_space a = false) /\
  (forall a, hd_error (rev s) = Some a -> is_space a = false).

Lemma strip_left_trimmed s : (forall a, hd_error s = Some a -> is_space a = false) -> strip_left s = s.
Proof. destruct s as [|a s]; [done |]. simpl. intros H. by rewrite H. Qed.

Lemma strip_left_hd s a : hd_error (strip_left s) = Some a -> is_space a = false.
Proof.
  induction s as [|c s IH]; [done |]. simpl. destruct (is_space c) eqn:E; [done |]. by intros [= <-].
Qed.

Lemma hd_error_last (s t : pystr) a : hd_error (rev t) = Some a -> hd_error (rev (s ++ t)) = Some a.
Proof. intros H. rewrite rev_app_distr. by destruct (rev t). Qed.

Lemma strip_space_trimmed s : trimmed (strip_space s).
Proof.
  split; intros a H.
  - destruct (strip_left_suffix (rev (strip_left s))) as [u Eu]. apply (strip_left_hd s).
    rewrite <- (rev_involutive (strip_left s)), Eu. rewrite rev_app_distr.
    unfold strip_space in H. by destruct (rev (strip_left (rev (strip_left s)))).
  - unfold strip_space in H. rewrite rev_involutive in H. by apply strip_left_hd in H.
Qed.

Lemma trimmed_strip s : trimmed s -> strip_space s = s.
Proof. intros [H1 H2]. unfold strip_space. rewrite (strip_left_trimmed s), strip_left_trimmed, rev_involutive; done. Qed.

Definition blank (a : N) : bool := ((a =? 32) || (a =? 9))%N.

Lemma blank_space a : is_space a = false -> blank a = false.
Proof.
  unfold blank. intros H. destruct (N.eqb_spec a 32) as [->|]; [discriminate H |].
  by destruct (N.eqb_spec a 9) as [->|]; [discriminate H |].
Qed.

Lemma squeeze_cons gap a s :
  squeeze gap (a :: s) = if blank a then if gap then squeeze true s else 32%N :: squeeze true s
                         else a :: squeeze false s.
Proof. done. Qed.

Lemma squeeze_idem s : forall gap, squeeze gap (squeeze gap s) = squeeze gap s.
Proof.
  induction s as [|a s IH]; intros gap; [done |]. rewrite squeeze_cons.
  destruct (blank a) eqn:E; [|by rewrite squeeze_cons, E, IH].
  destruct gap; [apply IH |]. rewrite squeeze_cons. simpl. by rewrite IH.
Qed.

Lemma squeeze_snoc s c : forall gap, blank c = false -> squeeze gap (s ++ [c]) = squeeze gap s ++ [c].
Proof.
  induction s as [|a s IH]; intros gap Hc; cbn [app].
  - rewrite squeeze_cons. by rewrite Hc.
  - rewrite !squeeze_cons. destruct (blank a); [|by rewrite IH]. destruct gap; by rewrite IH.
Qed.

Lemma squeeze_trimmed s : trimmed s -> trimmed (squeeze false s).
Proof.
  intros [H1 H2]. split; intros a Ha.
  - destruct s as [|c s]; [done |]. specialize (H1 c eq_refl).
    rewrite squeeze_cons, (blank_space c H1) in Ha. by injection Ha as <-.
  - destruct s as [|c s _] using rev_ind; [done |]. rewrite rev_unit in H2. specialize (H2 c eq_refl).
    rewrite squeeze_snoc, rev_unit in Ha by (by apply blank_space). by injection Ha as <-.
Qed.

Lemma control_app s t : existsb CONTROL (s ++ t) = false <-> existsb CONTROL s = false /\ existsb CONTROL t = false.
Proof. rewrite existsb_app, orb_false_iff. done. Qed.

Lemma squeeze_control s : forall gap, existsb CONTROL s = false -> existsb CONTROL (squeeze gap s) = false.
Proof.
  induction s as [|a s IH]; intros gap H; [done |]. simpl in H. apply orb_false_iff in H as [Ha Hs].
  rewrite squeeze_cons. destruct (blank a), gap; simpl; rewrite ?Ha, IH; done.
Qed.

Section Stable.
Context `{U : !Unicode, laws : !UnicodeLaws}.

Lemma squeeze_stable n s gap :
  (length s <= n)%nat -> nfkc s = s -> nfkc (squeeze gap s) = squeeze gap s.
Proof.
  assert (Hnil : nfkc [] = []).
  { apply (nfkc_infix (nfkc []) [] []). rewrite app_nil_l, app_nil_r. apply nfkc_idem. }
  revert s gap. induction n as [|n IH]; intros s gap Hn Hs; [destruct s; [done | simpl in Hn; lia] |].
  assert (Hspan : exists c t, s = c ++ t /\ forallb (fun a => negb (blank a)) c = true /\
    match t with [] => True | a :: _ => blank a = true end).
  { clear. induction s as [|a s (c & t & -> & Hc & Ht)]; [by exists [], [] |].
    destruct (blank a) eqn:E; [by exists [], (a :: c ++ t) |].
    exists (a :: c), t. simpl. by rewrite E. }
  destruct Hspan as (c & t & -> & Hc & Ht).
  assert (Hkeep : forall u g, forallb (fun a => negb (blank a)) c = true ->
    squeeze g (c ++ u) = c ++ squeeze (match c with [] => g | _ => false end) u).
  { clear. induction c as [|a c IH]; intros u g H; [done |]. simpl in H.
    apply andb_true_iff in H as [Ha Hc]. cbn [app]. rewrite squeeze_cons.
    apply negb_true_iff in Ha. rewrite Ha, IH by done. by destruct c. }
  assert (Hcs : nfkc c = c) by (by apply (nfkc_infix [] c t)).
  destruct t as [|a t]; [rewrite Hkeep by done; by rewrite app_nil_r |].
  assert (Hts : nfkc t = t).
  { apply (nfkc_infix (c ++ [a]) t []). by rewrite <- !app_assoc, app_nil_r. }
  rewrite length_app in Hn. simpl in Hn.
  assert (Hrec : nfkc (squeeze true t) = squeeze true t) by (apply IH; [lia | done]).
  rewrite Hkeep by done. rewrite squeeze_cons, Ht.
  destruct c as [|a' c]; [destruct gap; [done | by apply (nfkc_space [])] | by apply nfkc_space].
Qed.

(** The screened text is its own screened text. *)
Lemma tidy_idem s : tidy (tidy s) = tidy s.
Proof.
  unfold tidy at 1.
  assert (Hv : nfkc (strip_space (nfkc s)) = strip_space (nfkc s)).
  { destruct (strip_space_infix (nfkc s)) as (t & u & E). apply (nfkc_infix t _ u).
    rewrite <- E. apply nfkc_idem. }
  unfold tidy. rewrite (squeeze_stable _ _ false (le_n _) Hv).
  rewrite trimmed_strip by apply squeeze_trimmed, strip_space_trimmed. apply squeeze_idem.
Qed.

Lemma tidy_control s : existsb CONTROL s = false -> existsb CONTROL (tidy s) = false.
Proof.
  intros H%nfkc_printable. apply squeeze_control.
  destruct (strip_space_infix (nfkc s)) as (t & u & E). rewrite E, !control_app in H. apply H.
Qed.

Lemma screened_text_ok v field n locator t :
  safe_text v field n locator = Ok t -> safe_text (VStr t) field n locator = Ok t.
Proof.
  destruct v as [| | | |s| |]; try done. intros H. pose proof H as Hs. unfold safe_text in H |- *.
  destruct (existsb CONTROL s) eqn:Hc; [done |]. cbv zeta in H.
  assert (E : t = tidy s) by (inv_ok H; done).
  subst t. rewrite tidy_control, tidy_idem by done. exact H.
Qed.
End Stable.

Lemma safe_text_good `{U : !Unicode} v field n locator t :
  safe_text v field n locator = Ok t -> good_str t.
Proof.
  destruct v as [| | | |s| |]; try done. intros H. unfold safe_text in H. inv_ok H.
  match goal with He : encodable _ = true |- _ => revert He end. clear.
  induction (tidy s) as [|c u IH]; [done |]. simpl. rewrite andb_true_iff. intros [Hc Hu].
  rewrite orb_true_iff, andb_true_iff, !N.ltb_lt, N.leb_le in Hc.
  split; [lia |]. split; [|auto]. intros [? ?]%is_high_range. lia.
Qed.
