(* ===== verification/ContinuityFacts.v ===== *)
(** * Continuity writes: canonical text

    Facts about Continuity.v: canonical JSON as a predicate and its round trip
    through [parse_json]; normalisation looks at a request up to key order
    ([normalize_sim]). *)

From S2P Require Import Prelude Regex Sha256 PyTime PyUrl PyText Json JsonFacts JsonSize JsonWf JsonSim Encoding Screening Continuity.
Local Open Scope Z_scope.

(** ** Canonical JSON *)

Lemma validate_canonical_spec v depth :
  if norm_ok depth v then validate_canonical_value depth v = Ok tt
  else exists m, validate_canonical_value depth v = schema_invalid m.
Proof.
  unfold schema_invalid, cont_error. change MAX_JSON_DEPTH with 32.
  revert depth. induction v as [|b|z|t|s|l IH|d IH] using value_nested_ind; intros depth; simpl;
    change MAX_JSON_DEPTH with 32;
    destruct (Z.leb_spec depth 32), (Z.ltb_spec 32 depth); try lia; simpl; eauto.
  - destruct (Z.leb_spec I64_MIN z), (Z.ltb_spec z I64_MIN), (Z.leb_spec z I64_MAX),
      (Z.ltb_spec I64_MAX z); try lia; simpl; eauto.
  - induction IH as [|x l Hx _ IHl]; [done |]. simpl. specialize (Hx (depth + 1)).
    destruct (norm_ok (depth + 1) x); simpl; [|destruct Hx as [m ->]; eauto].
    rewrite Hx. exact IHl.
  - induction IH as [|[k x] d Hx _ IHd]; [done |]. simpl in *. specialize (Hx (depth + 1)).
    destruct (norm_ok (depth + 1) x); simpl; [|destruct Hx as [m ->]; eauto].
    rewrite Hx. exact IHd.
Qed.

Lemma canonical_ok v raw : canonical_json v = Ok raw -> norm_ok 0 v = true /\ raw = utf8 (dumps v).
Proof.
  unfold canonical_json. pose proof (validate_canonical_spec v 0) as H.
  destruct (norm_ok 0 v); [rewrite H; by intros [= <-] | destruct H as [m ->]; done].
Qed.

Lemma canonical_of v : norm_ok 0 v = true -> canonical_json v = Ok (utf8 (dumps v)).
Proof. intros Hn. unfold canonical_json. pose proof (validate_canonical_spec v 0) as H. rewrite Hn in H. by rewrite H. Qed.

Lemma norm_ok_sim v w : canon v = canon w -> norm_ok 0 v = norm_ok 0 w.
Proof. intros E. by rewrite <- (norm_ok_canon v), E, norm_ok_canon. Qed.

Lemma canonical_sim v w raw : canon v = canon w -> canonical_json v = Ok raw -> canonical_json w = Ok raw.
Proof.
  intros E [Hn ->]%canonical_ok. unfold dumps. rewrite E. apply canonical_of.
  by rewrite <- (norm_ok_sim v w E).
Qed.

Lemma sha256_json_sim v w h : canon v = canon w -> sha256_json v = Ok h -> sha256_json w = Ok h.
Proof.
  unfold sha256_json. intros E. destruct (canonical_json v) as [raw|] eqn:Hc; [|done].
  by rewrite (canonical_sim v w raw).
Qed.

Lemma sha256_json_ok v h : sha256_json v = Ok h -> norm_ok 0 v = true /\ h = sha256_hex (utf8 (dumps v)).
Proof.
  unfold sha256_json. destruct (canonical_json v) as [raw|] eqn:Hc; [|done].
  apply canonical_ok in Hc as [Hn ->]. by intros [= <-].
Qed.

Lemma sha256_json_of v : norm_ok 0 v = true -> sha256_json v = Ok (sha256_hex (utf8 (dumps v))).
Proof. intros Hn. unfold sha256_json. by rewrite canonical_of. Qed.

(** ** Reading canonical text *)

Lemma printable_utf8 s : printable s -> utf8 s = s.
Proof. intros H. apply utf8_ascii. eapply Forall_impl; [exact H |]. simpl. lia. Qed.

Lemma utf8_decode_ascii s : ascii_text s -> utf8_decode s = Ok s.
Proof.
  induction 1 as [|c s Hc Hs IH]; [done |]. simpl. destruct (N.ltb_spec c 128); [by rewrite IH | lia].
Qed.

(** Text without null bytes and high bytes is read as it is. *)
Lemma json_decode_ascii s : Forall (fun c => (0 < c < 128)%N) s -> json_decode s = Ok s.
Proof.
  intros H. assert (Hd : utf8_decode s = Ok s).
  { apply utf8_decode_ascii. eapply Forall_impl; [exact H |]. simpl. lia. }
  unfold json_decode, bstarts. destruct H as [|x s Hx H]; [done |].
  assert (Hb : forall b p, (b = 0 \/ 128 <= b)%N -> startswith (x :: s) (b :: p) = false).
  { intros b p Hb. unfold startswith. apply bool_decide_eq_false. simpl. intros [= ->]. lia. }
  rewrite !Hb by lia. destruct H as [|y s Hy H]; [done |].
  destruct (N.eqb_spec x 0), (N.eqb_spec y 0); try lia.
  destruct H as [|z s Hz H]; [done |]. by destruct H.
Qed.

Lemma cont_number_nat (neg : bool) n t :
  0 <= n -> I64_MIN <= (if neg then - n else n) <= I64_MAX -> num_stop t ->
  cont_number neg (nat_text n ++ t) = Ok (VInt (if neg then - n else n), t).
Proof.
  intros Hn Hz Ht. unfold cont_number. rewrite pnumber_i64 by done.
  destruct (Z.ltb_spec (if neg then - n else n) I64_MIN), (Z.ltb_spec I64_MAX (if neg then - n else n));
    try lia. done.
Qed.

Lemma cont_number_yields neg s : ascii_text s -> yields wf (cont_number neg s).
Proof.
  intros Hs. unfold cont_number. pose proof (pnumber_yields neg s Hs) as H.
  destruct (pnumber neg s) as [[v r]|e]; [|done]. destruct v; try done.
  by destruct ((z <? I64_MIN) || (I64_MAX <? z)).
Qed.

(** A line of canonical text reads back as the value in key order. *)
Lemma parse_canonical v field :
  wf v -> norm_ok 0 v = true -> parse_json (utf8 (dumps v) ++ [10%N]) field = Ok (canon v).
Proof.
  intros Hw Hn. pose proof (dumps_printable v Hn) as Hp. rewrite printable_utf8 by done.
  unfold parse_json. rewrite json_decode_ascii.
  2:{ apply Forall_app. split; [|repeat constructor; lia]. eapply Forall_impl; [exact Hp |]. simpl. lia. }
  cbn [reraise]. unfold dumps. rewrite loads_with_text; [done | apply cont_number_nat | by apply good_canon | done].
Qed.

(** What was read from ASCII bytes is well-formed. *)
Lemma parse_json_wf raw field v :
  Forall (fun c => (0 < c < 128)%N) raw -> parse_json raw field = Ok v -> wf v.
Proof.
  intros Hr. unfold parse_json. rewrite json_decode_ascii by done. cbn [reraise]. intros H.
  destruct (loads_with cont_number _ _ raw) as [w|e] eqn:E; [|by destruct e].
  injection H as <-. eapply loads_with_wf; [apply cont_number_yields | | exact E].
  eapply Forall_impl; [exact Hr |]. simpl. lia.
Qed.

(** ** Normalisation looks at a request up to key order *)

Lemma exact_string_sim v w field : sim v w -> exact_string v field = exact_string w field.
Proof. intros H%sim_view. destruct v, w; try done. simpl in *. by subst. Qed.

Lemma text_of_form_sim r v w field : sim v w -> text_of_form r v field = text_of_form r w field.
Proof. intros H. unfold text_of_form. by rewrite (exact_string_sim v w). Qed.

Lemma token_sim v w field : sim v w -> token v field = token w field.
Proof. apply text_of_form_sim. Qed.

Lemma cont_sha256_sim v w field : sim v w -> cont_sha256 v field = cont_sha256 w field.
Proof. apply text_of_form_sim. Qed.

Lemma choice_sim v w field allowed m : sim v w -> choice v field allowed m = choice w field allowed m.
Proof. intros H. unfold choice. by rewrite (exact_string_sim v w). Qed.

Lemma parse_utc_sim v w field : sim v w -> parse_utc v field = parse_utc w field.
Proof. intros H%sim_view. destruct v, w; try done. simpl in *. by subst. Qed.

Lemma optional_sim {A} (f : value -> res A) v w :
  sim v w -> (forall x y, sim x y -> f x = f y) -> optional v f = optional w f.
Proof.
  intros H Hf. pose proof (Hf v w H) as E. pose proof (sim_view _ _ H) as Hv.
  destruct v, w; try done; unfold optional; by rewrite E.
Qed.

Lemma clock_field_sim v w field : sim v w -> clock_field v field = clock_field w field.
Proof. intros H. apply optional_sim; [done |]. intros x y Hx. by rewrite (parse_utc_sim x y). Qed.

Lemma known_keys_sim d e field allowed : dsim d e -> known_keys d field allowed = known_keys e field allowed.
Proof.
  intros H. unfold known_keys.
  assert (forallb (fun k => bool_decide (k ∈ map str allowed)) (keys d) =
          forallb (fun k => bool_decide (k ∈ map str allowed)) (keys e)) as ->; [|done].
  apply eq_true_iff_eq. rewrite !forallb_forall. pose proof (dsim_keys _ _ H) as Hk.
  split; intros Hf k Hin%list_elem_of_In; apply Hf, list_elem_of_In; by rewrite ?Hk in *.
Qed.

Lemma cont_mapping_sim {A} v w field (k : dict -> res A) :
  sim v w -> (forall d e, dsim d e -> k d = k e) ->
  (let* d := cont_mapping v field in k d) = (let* d := cont_mapping w field in k d).
Proof. intros H%sim_view Hk. destruct v, w; try done. simpl in *. by apply Hk. Qed.

Lemma forallb_sim (f : value -> bool) l m :
  (forall x y, sim x y -> f x = f y) -> Forall2 sim l m -> forallb f l = forallb f m.
Proof. intros Hf. induction 1 as [|x y l m Hx _ IH]; [done |]. simpl. by rewrite (Hf x y Hx), IH. Qed.

Lemma existsb_sim (f : value -> bool) l m :
  (forall x y, sim x y -> f x = f y) -> Forall2 sim l m -> existsb f l = existsb f m.
Proof. intros Hf. induction 1 as [|x y l m Hx _ IH]; [done |]. simpl. by rewrite (Hf x y Hx), IH. Qed.

(** Rewrites every reading of a member of the left mapping. *)
Ltac by_members H :=
  rewrite ?(known_keys_sim _ _ _ _ H), ?(exact_string_sim _ _ _ (get_sim _ _ _ H)),
    ?(token_sim _ _ _ (get_sim _ _ _ H)), ?(cont_sha256_sim _ _ _ (get_sim _ _ _ H)),
    ?(choice_sim _ _ _ _ _ (get_sim _ _ _ H)), ?(text_of_form_sim _ _ _ _ (get_sim _ _ _ H)),
    ?(clock_field_sim _ _ _ (get_sim _ _ _ H)), ?(py_eq_vstr_sim _ _ _ (get_sim _ _ _ H)).

Lemma normalize_payload_sim kind v w : sim v w -> normalize_payload kind v = normalize_payload kind w.
Proof.
  intros Hs. apply cont_mapping_sim; [done |]. intros d e H. by by_members H.
Qed.

Section Normalisation.
Context `{U : !Unicode}.

Lemma safe_text_sim v w field n locator : sim v w -> safe_text v field n locator = safe_text w field n locator.
Proof. intros H%sim_view. destruct v, w; try done. simpl in H. by subst. Qed.

Lemma normalize_source_sim v w : sim v w -> normalize_source v = normalize_source w.
Proof.
  intros Hs. apply cont_mapping_sim; [done |]. intros d e H. by_members H.
  by rewrite (safe_text_sim _ _ _ _ _ (get_sim _ _ "locator" H)).
Qed.

Lemma scope_roles_sim v w : sim v w -> scope_roles v = scope_roles w.
Proof.
  intros H%sim_view. destruct v, w; try done. simpl in H. destruct H as [|x y l m Hx Hl]; [done |].
  assert (H : Forall2 sim (x :: l) (y :: m)) by (by constructor). unfold scope_roles.
  rewrite (forallb_sim is_text _ _ ltac:(intros a b Hab%sim_view; by destruct a, b) H).
  rewrite (forallb_sim is_role _ _ ltac:(intros a b Hab%sim_view; destruct a, b; try done; simpl in Hab; by subst) H).
  assert (List.filter (fun role => existsb (fun x => py_eq x (VStr role)) (x :: l)) OPERATIONAL_ROLES =
          List.filter (fun role => existsb (fun x => py_eq x (VStr role)) (y :: m)) OPERATIONAL_ROLES) as ->; [|done].
  apply List.filter_ext. intros role. apply existsb_sim; [|done].
  intros a b Hab. by apply py_eq_vstr_sim.
Qed.

Lemma normalize_scope_sim v w : sim v w -> normalize_scope v = normalize_scope w.
Proof.
  intros Hs. apply cont_mapping_sim; [done |]. intros d e H. by_members H.
  rewrite (scope_roles_sim _ _ (get_sim _ _ "visible_to_roles" H)).
  rewrite (optional_sim _ _ _ (get_sim _ _ "repository" H)); [done |].
  intros x y Hx. by apply exact_string_sim.
Qed.

Lemma normalize_sim v w :
  sim v w -> normalize_typed_write_request v = normalize_typed_write_request w.
Proof.
  intros Hs. apply cont_mapping_sim; [done |]. intros d e H. unfold vstr. by_members H.
  rewrite (safe_text_sim _ _ _ _ _ (get_sim _ _ "subject" H)), (safe_text_sim _ _ _ _ _ (get_sim _ _ "summary" H)),
    (normalize_source_sim _ _ (get_sim _ _ "source" H)), (normalize_scope_sim _ _ (get_sim _ _ "scope" H)).
  rewrite (optional_sim _ _ _ (get_sim _ _ "entry_id" H)) by (intros; by apply text_of_form_sim).
  rewrite (optional_sim _ _ _ (get_sim _ _ "supersedes_entry_id" H)) by (intros; by apply text_of_form_sim).
  destruct (py_eq _ _); [|done]. simpl. destruct (exact_string _ _) as [kind|]; [|done].
  by rewrite (normalize_payload_sim kind _ _ (get_sim _ _ "payload" H)).
Qed.
End Normalisation.
