(* ===== verification/Normalised.v ===== *)
(** * Normalised continuity writes

    What [normalize_typed_write_request] returns passes it again unchanged
    ([normalize_again]), so that an entry made from a normalised request is
    accepted when the ledger is read.  Two conditions are needed: form NFKC
    obeys [UnicodeLaws], and the times are ones [utc_text] writes so that
    [strptime] reads them back ([timed]). *)

From S2P Require Import Prelude Regex Sha256 PyTime PyUrl PyText Json JsonFacts JsonSim ConfigFacts Screening ScreeningFacts Continuity.
Local Open Scope Z_scope.

Lemma exact_string_ok v field s : exact_string v field = Ok s -> v = VStr s.
Proof. destruct v; try done. by intros [= ->]. Qed.

Lemma text_of_form_ok r v field s :
  text_of_form r v field = Ok s -> v = VStr s /\ fullmatch r s = true.
Proof.
  unfold text_of_form. intros H. destruct (exact_string v field) as [t|] eqn:E; [|done].
  apply exact_string_ok in E. inv_ok H. done.
Qed.

Lemma text_of_form_intro r s field : fullmatch r s = true -> text_of_form r (VStr s) field = Ok s.
Proof. intros H. unfold text_of_form. simpl. by rewrite H. Qed.

Lemma choice_ok v field allowed m s :
  choice v field allowed m = Ok s -> v = VStr s /\ s ∈ map str allowed.
Proof.
  unfold choice. intros H. destruct (exact_string v field) as [t|] eqn:E; [|done].
  apply exact_string_ok in E. inv_ok H. done.
Qed.

Lemma choice_intro s field allowed m : s ∈ map str allowed -> choice (VStr s) field allowed m = Ok s.
Proof. intros H. unfold choice. simpl. by rewrite bool_decide_true. Qed.

(** A timestamp in the form [utc_text] writes. *)
Definition round_time (s : pystr) : Prop := exists t, strptime s = Some t /\ utc_text t = s.
Definition timed (o : option pystr) : Prop := forall s, o = Some s -> round_time s.

Lemma clock_field_again field o :
  timed o -> clock_field (vopt VStr o) field = Ok o.
Proof.
  destruct o as [s|]; [|done]. intros H. destruct (H s eq_refl) as (t & Ht & Hs).
  unfold clock_field, optional. simpl. by rewrite Ht, Hs.
Qed.

(** A time that was written and could be read. *)
Lemma clock_field_round v field s t :
  clock_field v field = Ok (Some s) -> strptime s = Some t -> round_time s.
Proof.
  unfold clock_field, optional. intros H Hs. destruct v as [| | | |x| |]; try done. simpl in H.
  destruct (strptime x) as [e|] eqn:He; [|done]. injection H as <-. exists t. split; [done |].
  apply strptime_range in He. apply strptime_stable in Hs as [_ ->]; done.
Qed.

Lemma clock_field_good v field o s : clock_field v field = Ok o -> o = Some s -> good_str s.
Proof.
  unfold clock_field, optional. intros H ->. destruct v as [| | | |x| |]; try done. simpl in H.
  destruct (strptime x); [|done]. injection H as <-. apply plain_good, utc_text_plain.
Qed.

Definition due_of (p : Payload) : option pystr := match p with Commitment _ due => due | _ => None end.

Lemma str_choice_good s l : s ∈ map str l -> forallb (fun x => forallb plainb (str x)) l = true -> good_str s.
Proof.
  intros (x & -> & Hx)%list_elem_of_fmap Hl. rewrite forallb_forall in Hl.
  by apply str_good, Hl, list_elem_of_In.
Qed.

Lemma cont_token_good s : fullmatch TOKEN_RE s = true -> good_str s.
Proof.
  intros H. apply plain_good. revert H. apply fullmatch_within. split; [exact alnum_plain |].
  intros a. by apply alnum_or_plain.
Qed.

Lemma sha256_good s : fullmatch SHA256_RE s = true -> good_str s.
Proof. intros H. by apply plain_good, sha256_plain. Qed.

Lemma entry_id_good s : fullmatch ENTRY_ID_RE s = true -> good_str s.
Proof.
  intros H. apply plain_good. revert H. apply fullmatch_within.
  split; [apply lit_plain; by apply plain_str | apply hex_plain].
Qed.

(** The mapping of a display whose values are well-formed. *)
Lemma wf_fields l :
  bool_decide (NoDup (keys (fields l))) = true ->
  forallb (fun kv => forallb plainb (str kv.1)) l = true ->
  Forall (fun kv => wf kv.2) l -> wf (VDict (fields l)).
Proof.
  intros Hn Hk Hv. constructor.
  - by apply bool_decide_eq_true in Hn.
  - unfold fields. rewrite Forall_fmap, Forall_forall. intros [k v] Hx. simpl.
    rewrite forallb_forall in Hk. apply str_good. by apply (Hk (k, v)), list_elem_of_In.
  - unfold fields. rewrite Forall_fmap. eapply Forall_impl; [exact Hv |]. by intros [k v].
Qed.

Ltac wf_display :=
  apply wf_fields; [by vm_compute | by vm_compute |];
  repeat apply List.Forall_cons; try apply List.Forall_nil; cbn [snd]; try apply wf_str; try done.

Lemma wf_vopt o : (forall s, o = Some s -> good_str s) -> wf (vopt VStr o).
Proof. destruct o; intros H; constructor. by apply H. Qed.

(** Reading a display. *)
Lemma get_display k v l k' :
  get (fields ((k, v) :: l)) k' = if String.eqb k k' then v else get (fields l) k'.
Proof.
  unfold get. simpl. destruct (String.eqb_spec k k') as [->|Hk]; [by rewrite decide_True |].
  rewrite decide_False; [done |]. intros Heq. by apply str_inj in Heq.
Qed.

(** Evaluates the members of displays and the tests of their keys. *)
Ltac read_display :=
  cbn [cont_mapping];
  repeat match goal with |- context [known_keys ?d ?f ?l] => change (known_keys d f l) with (@Ok unit tt) end;
  rewrite ?get_display; cbn [String.eqb Ascii.eqb Bool.eqb]; cbv iota beta.

Ltac pick_kind :=
  unfold normalize_payload; repeat rewrite bool_decide_false by done; rewrite bool_decide_true by done;
  cbn [payload_dict]; read_display; unfold token, cont_sha256.

(** Text that passed a check is well-formed. *)
Create HintDb good_text.
#[export] Hint Resolve cont_token_good sha256_good entry_id_good wf_vopt wf_str : good_text.
#[export] Hint Extern 2 (good_str _) =>
  eapply str_choice_good; [eassumption | by vm_compute] : good_text.
#[export] Hint Extern 2 (good_str _) => eapply clock_field_good; [eassumption | eassumption] : good_text.

(** What a successful field check says of its result. *)
Ltac field_facts :=
  unfold token, cont_sha256 in *;
  repeat match goal with
  | Hf : choice _ _ _ _ = Ok _ |- _ => apply choice_ok in Hf as [_ Hf]
  | Hf : text_of_form _ _ _ = Ok _ |- _ => apply text_of_form_ok in Hf as [_ Hf]
  end.

(** Runs the checks of a display again. *)
Ltac check_again :=
  cbn [exact_string]; rewrite ?choice_intro, ?text_of_form_intro by done;
  cbn [negb]; rewrite ?bool_decide_true by done; cbn [negb orb]; cbv iota beta; try done.

Lemma normalize_payload_again kind raw p :
  normalize_payload kind raw = Ok p ->
  payload_kind p = kind /\ wf (VDict (payload_dict p)) /\
  (timed (due_of p) -> normalize_payload kind (VDict (payload_dict p)) = Ok p).
Proof.
  unfold normalize_payload at 1. destruct (cont_mapping raw "payload") as [d|]; [|done].
  repeat case_bool_decide; [subst kind.. | done]; intros Hp; inv_ok Hp; field_facts;
    (split; [done |]); (split; [wf_display; eauto with good_text |]);
    intros Ht; pick_kind; check_again.
  by rewrite clock_field_again.
Qed.

Section Again.
Context `{U : !Unicode, laws : !UnicodeLaws}.

Lemma source_trust_good kind trust : source_trust kind = Some trust -> good_str kind /\ good_str trust.
Proof.
  unfold source_trust. destruct (List.find _ SOURCE_TRUST) as [[k t]|] eqn:Hf; [|done].
  intros [= <-]. apply find_some in Hf as [Hin Hk]. apply bool_decide_eq_true in Hk. simpl in *. subst k.
  assert (Hall : forallb (fun kv => forallb plainb kv.1 && forallb plainb kv.2) SOURCE_TRUST = true) by by vm_compute.
  rewrite forallb_forall in Hall. specialize (Hall _ Hin). simpl in Hall.
  apply andb_true_iff in Hall as [H1 H2].
  split; apply plain_good, Forall_forall; intros c Hc%list_elem_of_In; apply plainb_plain;
    [rewrite forallb_forall in H1; by apply H1 | rewrite forallb_forall in H2; by apply H2].
Qed.

Lemma normalize_source_wf v s : normalize_source v = Ok s -> wf (VDict (source_dict s)).
Proof.
  unfold normalize_source. destruct (cont_mapping v "source") as [d|]; [|done]. intros Hs.
  destruct (known_keys _ _ _); [|done]. destruct (exact_string _ _) as [kind|]; [|done].
  destruct (source_trust kind) as [trust|] eqn:Ht; [|done].
  inv_ok Hs. subst. field_facts.
  match goal with Hf : safe_text _ _ _ _ = Ok _ |- _ => apply safe_text_good in Hf end.
  destruct (source_trust_good _ _ Ht) as [Hk Htr]. wf_display; eauto with good_text.
Qed.

Lemma normalize_source_again v s :
  normalize_source v = Ok s -> normalize_source (VDict (source_dict s)) = Ok s.
Proof.
  unfold normalize_source at 1. destruct (cont_mapping v "source") as [d|]; [|done]. intros Hs.
  destruct (known_keys _ _ _); [|done]. destruct (exact_string _ _) as [kind|]; [|done].
  destruct (source_trust kind) as [trust|] eqn:Ht; [|done].
  inv_ok Hs. subst. field_facts.
  match goal with Hf : safe_text _ _ _ _ = Ok _ |- _ => apply screened_text_ok in Hf as Hl end.
  unfold normalize_source, source_dict. cbn [so_kind so_trust so_actor so_locator so_sha256].
  read_display. unfold token, cont_sha256. cbn [exact_string]. rewrite Ht. check_again.
  by rewrite Hl.
Qed.

Lemma scope_roles_again v roles :
  scope_roles v = Ok roles ->
  scope_roles (VList (map VStr roles)) = Ok roles /\ Forall (fun r => r ∈ OPERATIONAL_ROLES) roles.
Proof.
  destruct v as [| | | | |[|x l]|]; try done. unfold scope_roles at 1.
  destruct (forallb is_text (x :: l)) eqn:Ht; [|done].
  destruct (forallb is_role (x :: l)) eqn:Hr; [|done]. cbn [negb]. intros <-%Ok_inj.
  set (p := fun role => existsb (fun x => py_eq x (VStr role)) (x :: l)).
  split; [|apply Forall_forall; intros r [Hin _]%list_elem_of_In%filter_In; by apply list_elem_of_In].
  assert (Hsome : existsb p OPERATIONAL_ROLES = true).
  { simpl in Hr. apply andb_true_iff in Hr as [Hr _]. destruct x as [| | | |s| |]; try done.
    apply bool_decide_eq_true in Hr. apply existsb_exists. exists s.
    split; [by apply list_elem_of_In |]. unfold p. simpl. by rewrite bool_decide_true. }
  revert Hsome. generalize p. clear. intros p Hsome. unfold OPERATIONAL_ROLES in *.
  cbn [map existsb List.filter] in *.
  destruct (p (str "maintainer")), (p (str "forge")), (p (str "guide")), (p (str "overwatch")),
    (p (str "learning_steward")); try discriminate Hsome; vm_compute; reflexivity.
Qed.

Lemma role_good r : r ∈ OPERATIONAL_ROLES -> good_str r.
Proof. intros H. eapply str_choice_good; [exact H | by vm_compute]. Qed.

Lemma normalize_scope_again v s :
  normalize_scope v = Ok s ->
  wf (VDict (scope_dict s)) /\ normalize_scope (VDict (scope_dict s)) = Ok s.
Proof.
  unfold normalize_scope at 1. destruct (cont_mapping v "scope") as [d|]; [|done]. intros Hs.
  inv_ok Hs. match goal with Hr : scope_roles _ = Ok _ |- _ => apply scope_roles_again in Hr as [Hroles Hg] end.
  split.
  - wf_display; [eauto with good_text | apply wf_list | apply wf_vopt].
    + rewrite Forall_fmap. eapply Forall_impl; [exact Hg |]. intros r Hx. constructor. by apply role_good.
    + cbn [sc_repository]. intros r ->. apply plain_good, repo_plain. by apply negb_false_iff.
  - unfold normalize_scope, scope_dict. cbn [sc_privacy sc_roles sc_repository].
    read_display. check_again. rewrite Hroles.
    match goal with Hx : _ && _ = false |- _ => rewrite Hx end.
    match goal with a : option _ |- _ => destruct a; cbn [vopt optional exact_string] end;
      [|done]. match goal with Hx : _ = false |- _ => by rewrite Hx end.
Qed.

(** [entry_id] or [supersedes_entry_id] *)
Definition identified (o : option pystr) : Prop := forall s, o = Some s -> fullmatch ENTRY_ID_RE s = true.

Lemma optional_id_ok v field o :
  optional v (fun v => text_of_form ENTRY_ID_RE v field) = Ok o -> identified o.
Proof. unfold optional. intros Ho s ->. destruct v; inv_ok Ho; field_facts; done. Qed.

Lemma optional_id_intro field o :
  identified o ->
  wf (vopt VStr o) /\
  optional (vopt VStr o) (fun v => text_of_form ENTRY_ID_RE v field) = Ok o.
Proof.
  intros Hf. split; [apply wf_vopt; intros s Hs; apply entry_id_good; auto |].
  destruct o as [s|]; [|done]. simpl. by rewrite text_of_form_intro by auto.
Qed.

(** What normalisation returns reads back as itself, with any valid identifier,
    when its times are ones that [utc_text] can write. *)
Definition request_ok (r : WriteRequest) : Prop :=
  wf (VDict (request_dict r)) /\ normalize_typed_write_request (VDict (request_dict r)) = Ok r.

Ltac open_request :=
  unfold request_dict, body_fields, bo_kind; cbn [wr_entry_id wr_body app];
  cbn [bo_subject bo_summary bo_payload bo_source bo_scope bo_expires_at bo_supersedes].

Lemma normalize_wf v r entry_id :
  normalize_typed_write_request v = Ok r -> identified entry_id ->
  identified r.(wr_entry_id) /\
  wf (VDict (request_dict {| wr_entry_id := entry_id; wr_body := r.(wr_body) |})).
Proof.
  unfold normalize_typed_write_request. destruct (cont_mapping v "continuity write") as [d|]; [|done].
  intros Hr Hid. inv_ok Hr.
  repeat match goal with
  | Hf : safe_text _ _ _ _ = Ok _ |- _ => apply safe_text_good in Hf
  | Hf : normalize_payload _ _ = Ok _ |- _ => apply normalize_payload_again in Hf as (<- & Hf & _)
  | Hf : normalize_source _ = Ok _ |- _ => apply normalize_source_wf in Hf
  | Hf : normalize_scope _ = Ok _ |- _ => apply normalize_scope_again in Hf as [Hf _]
  | Hf : optional _ _ = Ok _ |- _ => apply optional_id_ok in Hf
  | Hf : clock_field _ _ = Ok ?o |- _ =>
      assert (wf (vopt VStr o)) by (apply wf_vopt; intros; by eapply clock_field_good); clear Hf
  end.
  split; [done |].
  destruct (optional_id_intro "entry_id" entry_id Hid) as [Hw _].
  destruct (optional_id_intro "supersedes_entry_id" a9 ltac:(done)) as [Hw9 _].
  assert (Hk : good_str (payload_kind a4)) by (eapply str_choice_good; [done | by vm_compute]).
  open_request. wf_display.
Qed.

(** A normalised expiry that can be read is in its normal form. *)
Lemma normalized_expiry v r s t :
  normalize_typed_write_request v = Ok r -> r.(wr_body).(bo_expires_at) = Some s -> strptime s = Some t ->
  round_time s.
Proof.
  unfold normalize_typed_write_request. destruct (cont_mapping v "continuity write") as [d|]; [|done].
  intros Hr Hs Ht. inv_ok Hr. cbn [wr_body bo_expires_at] in Hs. subst.
  match goal with Hf : clock_field _ _ = Ok (Some s) |- _ => by eapply clock_field_round end.
Qed.

Lemma normalize_again v r entry_id :
  normalize_typed_write_request v = Ok r -> timed (due_of r.(wr_body).(bo_payload)) ->
  timed r.(wr_body).(bo_expires_at) -> identified entry_id ->
  request_ok {| wr_entry_id := entry_id; wr_body := r.(wr_body) |}.
Proof.
  intros Hr Hdue Hexp Hid. split; [by apply (normalize_wf v) |]. revert Hr.
  unfold normalize_typed_write_request at 1. destruct (cont_mapping v "continuity write") as [d|]; [|done].
  intros Hr. inv_ok Hr. cbn [wr_body bo_payload bo_expires_at] in *.
  repeat match goal with
  | Hf : safe_text (get _ _) _ _ _ = Ok _ |- _ => apply screened_text_ok in Hf
  | Hf : normalize_payload _ (get _ _) = Ok _ |- _ =>
      apply normalize_payload_again in Hf as (<- & _ & Hf); specialize (Hf Hdue)
  | Hf : normalize_source (get _ _) = Ok _ |- _ => apply normalize_source_again in Hf
  | Hf : normalize_scope (get _ _) = Ok _ |- _ => apply normalize_scope_again in Hf as [_ Hf]
  | Hf : optional (get _ _) _ = Ok _ |- _ => apply optional_id_ok in Hf
  | Hf : clock_field (get _ _) _ = Ok ?o |- _ =>
      pose proof (clock_field_again "expires_at" o Hexp); clear Hf
  end.
  destruct (optional_id_intro "entry_id" entry_id Hid) as [_ Hi].
  destruct (optional_id_intro "supersedes_entry_id" a9 ltac:(done)) as [_ Hi9].
  open_request. unfold normalize_typed_write_request. read_display. check_again.
  change (py_eq (vstr WRITE_SCHEMA) (vstr WRITE_SCHEMA)) with true. cbn [negb]. cbv iota.
  repeat match goal with Hx : _ = Ok _ |- _ => rewrite Hx; clear Hx end.
  by match goal with Hx : _ && _ = false |- _ => rewrite Hx end.
Qed.
End Again.
