(* ===== verification/LedgerFacts.v ===== *)
(** * The records of the continuity ledger

    Facts about Ledger.v: a checked head or entry is the mapping it was read
    from, up to key order ([validate_head_dict], [validate_entry_dict]), the
    checks look at mappings up to key order, and canonical lines read back. *)

From S2P Require Import Prelude Regex Sha256 PyTime PyUrl PyText Json JsonFacts JsonSize JsonWf JsonSim Encoding ConfigFacts Screening Continuity ContinuityFacts Normalised Ledger.
Local Open Scope Z_scope.

(** ** Mappings without a key *)

Lemma keys_without k d k' : k' ∈ keys (without k d) <-> k' ∈ keys d /\ k' <> str k.
Proof.
  unfold keys, without. rewrite !list_elem_of_fmap. split.
  - intros ([x v] & -> & Hx%list_elem_of_In%filter_In). simpl in *. destruct Hx as [Hx Hk].
    apply negb_true_iff, bool_decide_eq_false in Hk. split; [|done].
    exists (x, v). split; [done | by apply list_elem_of_In].
  - intros [([x v] & -> & Hx) Hk]. simpl in *. exists (x, v). split; [done |].
    apply list_elem_of_In, filter_In. split; [by apply list_elem_of_In |]. simpl.
    by rewrite bool_decide_false.
Qed.

Lemma without_elem k d x : x ∈ without k d <-> x ∈ d /\ x.1 <> str k.
Proof.
  unfold without. rewrite !list_elem_of_In, filter_In, negb_true_iff, bool_decide_eq_false. done.
Qed.

Lemma without_nodup k d : NoDup (keys d) -> NoDup (keys (without k d)).
Proof.
  induction d as [|[x v] d IH]; [done |]. simpl. intros [Hx Hd]%NoDup_cons.
  case_bool_decide; simpl; [by apply IH |]. apply NoDup_cons. split; [|by apply IH].
  intros [Hin _]%keys_without. done.
Qed.

Lemma wf_without k d : wf (VDict d) -> wf (VDict (without k d)).
Proof.
  intros H. inversion H as [| | | | | |d' Hn Hk Hv]; subst. rewrite Forall_forall in Hk, Hv.
  constructor; [by apply without_nodup | |]; apply Forall_forall; intros x [Hx _]%without_elem; auto.
Qed.

Lemma dget_without k d k' : k' <> str k -> dget k' (without k d) = dget k' d.
Proof.
  intros Hk. induction d as [|[x v] d IH]; [done |]. simpl. case_bool_decide as Hx; simpl in *.
  - subst. by rewrite decide_False.
  - case_decide; [done | apply IH].
Qed.

Lemma without_sim k d e :
  sim (VDict d) (VDict e) -> sim (VDict (without k d)) (VDict (without k e)).
Proof.
  intros H. pose proof (sim_dict _ _ H) as [Nd Ne Hk _]. pose proof H as (Hd & He & _).
  split_and!; [by apply wf_without | by apply wf_without |].
  apply dict_incl; [by apply without_nodup | by apply without_nodup | |].
  - intros k'. rewrite !keys_without. by rewrite Hk.
  - intros k' v w Hv Hw.
    assert (Hne : k' <> str k).
    { apply dget_Some_elem, without_elem in Hv as [_ Hne]. done. }
    rewrite dget_without in Hv, Hw by done.
    apply dget_Some_elem in Hv. destruct (dget_sim _ _ _ _ H Hv) as (y & Hy & (_ & _ & E)).
    congruence.
Qed.

(** A display and one more field. *)
Lemma wf_snoc d k v :
  wf (VDict d) -> str k ∉ keys d -> good_str (str k) -> wf v -> wf (VDict (d ++ fields [(k, v)])).
Proof.
  intros H Hk Hg Hv. inversion H as [| | | | | |d' Hn Hkeys Hvals]; subst. constructor.
  - unfold keys in *. rewrite map_app. apply NoDup_app. split_and!; [done | | by apply NoDup_singleton].
    intros x Hx ->%list_elem_of_singleton. done.
  - apply Forall_app. split; [done | by repeat constructor].
  - apply Forall_app. split; [done | by repeat constructor].
Qed.

Lemma without_snoc d k v : str k ∉ keys d -> without k (d ++ fields [(k, v)]) = d.
Proof.
  intros Hk. unfold without. rewrite List.filter_app. simpl. rewrite bool_decide_true by done. simpl.
  rewrite app_nil_r. induction d as [|[x w] d IH]; [done |]. simpl in *.
  apply not_elem_of_cons in Hk as [Hne Hk]. rewrite bool_decide_false by done. simpl. by rewrite IH.
Qed.

(** ** Heads *)

Lemma exact_int_ok v z : exact_int v = Some z -> v = VInt z.
Proof. destruct v; try done. by intros [= ->]. Qed.

Lemma exact_int_sim v w : sim v w -> exact_int v = exact_int w.
Proof. intros H%sim_view. destruct v, w; try done. simpl in *. by subst. Qed.

Lemma parse_utc_ok v field t : parse_utc v field = Ok t -> exists s, v = VStr s /\ strptime s = Some t.
Proof. destruct v as [| | | |s| |]; try done. simpl. destruct (strptime s) eqn:E; [|done]. intros [= <-]. eauto. Qed.

Lemma validate_head_sim v w h : sim v w -> validate_head v = Ok h -> validate_head w = Ok h.
Proof.
  intros H. pose proof (sim_view _ _ H) as Hv. destruct v as [| | | | | |d], w as [| | | | | |e]; try done.
  simpl in Hv. unfold validate_head. cbn [cont_mapping]. rewrite (same_keys_sim _ _ _ Hv). unfold vstr.
  by_members Hv. rewrite ?(exact_int_sim _ _ (get_sim _ _ _ Hv)), ?(parse_utc_sim _ _ _ (get_sim _ _ _ Hv)).
  destruct (sha256_json (VDict (without "head_sha256" d))) as [digest|] eqn:Hd.
  - by rewrite (sha256_json_sim _ _ _ (proj2 (proj2 (without_sim "head_sha256" _ _ H))) Hd).
  - intros Hok. inv_ok Hok.
Qed.

(** Displays with one more field are read like displays. *)
Lemma fields_app l m : fields l ++ fields m = fields (l ++ m).
Proof. unfold fields. by rewrite map_app. Qed.

Lemma head_dict_display h :
  head_dict h = fields (head_fields h.(hd_ledger_id) h.(hd_sequence) h.(hd_entry_sha256) h.(hd_size)
    h.(hd_updated_at) ++ [("head_sha256", VStr h.(hd_sha256))]).
Proof. apply fields_app. Qed.

Lemma ledger_id_good s : fullmatch LEDGER_ID_RE s = true -> good_str s.
Proof.
  intros H. apply plain_good. revert H. apply fullmatch_within.
  split; [apply lit_plain; by apply plain_str | apply hex_plain].
Qed.

(** What a checked head says of the mapping. *)
Lemma validate_head_ok v h :
  validate_head v = Ok h ->
  exists d, v = VDict d /\ same_keys d HEAD_KEYS = true /\
    get d "schema_version" = vstr HEAD_SCHEMA /\ get d "ledger_id" = VStr h.(hd_ledger_id) /\
    get d "sequence" = VInt h.(hd_sequence) /\ get d "head_entry_sha256" = VStr h.(hd_entry_sha256) /\
    get d "ledger_size_bytes" = VInt h.(hd_size) /\ get d "updated_at" = VStr h.(hd_updated_at) /\
    get d "head_sha256" = VStr h.(hd_sha256) /\
    sha256_json (VDict (without "head_sha256" d)) = Ok h.(hd_sha256) /\
    fullmatch LEDGER_ID_RE h.(hd_ledger_id) = true /\ 0 <= h.(hd_sequence) /\
    0 <= h.(hd_size) <= MAX_LEDGER_BYTES /\ fullmatch SHA256_RE h.(hd_entry_sha256) = true.
Proof.
  unfold validate_head. destruct v as [| | | | | |d]; try done. cbn [cont_mapping]. intros H.
  destruct (exact_int (get d "sequence")) as [sequence|] eqn:Eq; [|inv_ok H].
  destruct (exact_int (get d "ledger_size_bytes")) as [size|] eqn:Es; [|inv_ok H].
  inv_ok H. unfold cont_sha256 in *.
  repeat match goal with
  | Hf : exact_int _ = Some _ |- _ => apply exact_int_ok in Hf
  | Hf : exact_string _ _ = Ok _ |- _ => apply exact_string_ok in Hf
  | Hf : text_of_form _ _ _ = Ok _ |- _ => apply text_of_form_ok in Hf as [Hf ?]
  | Hf : py_eq _ _ = true |- _ => apply py_eq_vstr_r in Hf
  end.
  cbn [hd_ledger_id hd_sequence hd_entry_sha256 hd_size hd_updated_at hd_sha256].
  exists d. split_and!; try done; lia || congruence.
Qed.

(** A checked head is the mapping it was read from. *)
Lemma validate_head_dict v h : wf v -> validate_head v = Ok h -> sim v (VDict (head_dict h)).
Proof.
  intros Hw (d & -> & Hk & Hschema & Hid & Hseq & Hsha & Hsize & Hat & Hdg & Hsum & Hre & Hs & Hz & Hre')%validate_head_ok.
  rewrite head_dict_display. assert (Hwe : wf (VDict (fields (head_fields h.(hd_ledger_id) h.(hd_sequence)
    h.(hd_entry_sha256) h.(hd_size) h.(hd_updated_at) ++ [("head_sha256", VStr h.(hd_sha256))])))).
  { pose proof (wf_get "updated_at" d Hw) as H1. rewrite Hat in H1.
    pose proof (wf_get "head_sha256" d Hw) as H2. rewrite Hdg in H2.
    wf_display; [by apply ledger_id_good | constructor | by apply sha256_good | constructor |
                 by inversion H1 | by inversion H2]. }
  apply (same_dict _ _ HEAD_KEYS); [done | done | by apply same_keys_spec | by apply same_keys_spec; vm_compute |].
  intros k Hin. unfold HEAD_KEYS in Hin.
  repeat (apply elem_of_cons in Hin as [->|Hin]; [unfold head_fields; cbn [app]; rewrite !get_display;
    cbn [String.eqb Ascii.eqb Bool.eqb]; congruence |]).
  by apply not_elem_of_nil in Hin.
Qed.

Lemma validate_head_again v h :
  wf v -> validate_head v = Ok h -> wf (VDict (head_dict h)) /\ validate_head (VDict (head_dict h)) = Ok h.
Proof.
  intros Hw Hv. pose proof (validate_head_dict v h Hw Hv) as H. split; [apply H |].
  by apply (validate_head_sim v).
Qed.

(** A new head is accepted. *)
Lemma without_head_sha h : without "head_sha256" (head_dict h) = head_base h.
Proof. apply without_snoc. apply (bool_decide_unpack _). by vm_compute. Qed.

Lemma new_head_valid ledger_id sequence sha size at_ t h :
  new_head ledger_id sequence sha size at_ = Ok h ->
  fullmatch LEDGER_ID_RE ledger_id = true -> 0 <= sequence -> 0 <= size <= MAX_LEDGER_BYTES ->
  fullmatch SHA256_RE sha = true -> strptime at_ = Some t ->
  validate_head (VDict (head_dict h)) = Ok h.
Proof.
  unfold new_head. intros H Hid Hseq Hsize Hsha Ht.
  destruct (sha256_json _) as [digest|] eqn:Hd; [|done]. injection H as <-.
  assert (Hdg : fullmatch SHA256_RE digest = true).
  { apply sha256_json_ok in Hd as [_ ->]. apply sha256_hex_re. }
  unfold validate_head. cbn [cont_mapping].
  match goal with |- context [VDict (without "head_sha256" (head_dict ?h))] =>
    rewrite (without_head_sha h) end.
  change (VDict (head_base _)) with (obj (head_fields ledger_id sequence sha size at_)). rewrite Hd.
  match goal with |- context [same_keys ?d HEAD_KEYS] => replace (same_keys d HEAD_KEYS) with true by by vm_compute end.
  rewrite head_dict_display. cbn [hd_ledger_id hd_sequence hd_entry_sha256 hd_size hd_updated_at hd_sha256].
  unfold head_fields. cbn [app]. rewrite ?get_display. cbn [String.eqb Ascii.eqb Bool.eqb]. cbv iota beta.
  change (py_eq (vstr HEAD_SCHEMA) (vstr HEAD_SCHEMA)) with true. cbn [negb exact_string exact_int]. rewrite Hid.
  cbn [negb]. destruct (Z.ltb_spec sequence 0); [lia |].
  destruct (Z.ltb_spec size 0), (Z.ltb_spec MAX_LEDGER_BYTES size); try lia. cbn [orb].
  unfold cont_sha256. rewrite text_of_form_intro by done. cbn [parse_utc]. rewrite Ht.
  rewrite text_of_form_intro by done. by rewrite bool_decide_true.
Qed.

(** ** Entries *)

Lemma entry_request_sim d e : sim (VDict d) (VDict e) -> sim (VDict (entry_request d)) (VDict (entry_request e)).
Proof.
  intros H. pose proof (sim_dict _ _ H) as Hv. destruct H as (Hd & He & _).
  assert (Hw : forall d, wf (VDict d) -> wf (VDict (entry_request d))).
  { clear. intros d Hd. unfold entry_request. cbn [map]. wf_display; by apply wf_get. }
  apply (same_dict _ _ REQUEST_KEYS); [by apply Hw | by apply Hw | apply same_keys_spec; by vm_compute.. |].
  intros k Hin. unfold REQUEST_KEYS in Hin. unfold entry_request. cbn [map].
  repeat (apply elem_of_cons in Hin as [->|Hin]; [rewrite !get_display;
    cbn [String.eqb Ascii.eqb Bool.eqb]; done || by apply Hv |]).
  by apply not_elem_of_nil in Hin.
Qed.

Lemma textual_payload p : textual (VDict (payload_dict p)) = true.
Proof. by destruct p as [| | | | |? []|]. Qed.
Lemma textual_source s : textual (VDict (source_dict s)) = true.
Proof. done. Qed.
Lemma textual_scope s : textual (VDict (scope_dict s)) = true.
Proof.
  simpl. assert (forallb textual (map VStr (sc_roles s)) = true) as ->.
  { apply forallb_forall. by intros x (r & <- & _)%in_map_iff. }
  by destruct (sc_repository s).
Qed.

Lemma textual_body o : forallb (fun kv => textual kv.2) (body_fields o) = true.
Proof.
  unfold body_fields. cbn [forallb snd]. rewrite textual_payload, textual_source, textual_scope.
  by destruct (bo_expires_at o), (bo_supersedes o).
Qed.

(** The entry's fields as a display. *)
Lemma entry_dict_display e :
  entry_dict e = fields (entry_base_fields e ++ [("entry_sha256", VStr e.(en_sha256))]).
Proof. apply fields_app. Qed.

Lemma without_entry_sha e : without "entry_sha256" (entry_dict e) = entry_base e.
Proof. apply without_snoc. apply (bool_decide_unpack _). by vm_compute. Qed.

Lemma wf_fields_inv l : wf (VDict (fields l)) -> Forall (fun kv => wf kv.2) l.
Proof.
  intros H. inversion H as [| | | | | |d _ _ Hall Heq]; subst. unfold fields in Hall.
  rewrite Forall_fmap in Hall. eapply Forall_impl; [exact Hall |]. by intros [k v].
Qed.

(** Members of a display. *)
Lemma get_fields_elem k v l :
  NoDup (keys (fields l)) -> (k, v) ∈ l -> get (fields l) k = v.
Proof.
  intros Hn Hin. unfold get. erewrite dget_elem; [done | done |].
  unfold fields. apply list_elem_of_fmap. by exists (k, v).
Qed.

Section Entries.
Context `{U : !Unicode}.

(** What a checked entry says of the mapping. *)
Record entry_checked (d : dict) (ledger_id : pystr) (n : Z) (prev : pystr) (e : Entry) : Prop := {
  ec_keys : same_keys d ENTRY_KEYS = true;
  ec_schema : get d "schema_version" = vstr ENTRY_SCHEMA;
  ec_ledger : get d "ledger_id" = VStr ledger_id;
  ec_sequence : get d "sequence" = VInt n;
  ec_previous : get d "previous_entry_sha256" = VStr prev;
  ec_recorded : get d "recorded_at" = VStr e.(en_recorded_at);
  ec_sha : get d "entry_sha256" = VStr e.(en_sha256);
  ec_sha_re : fullmatch SHA256_RE e.(en_sha256) = true;
  ec_normal : normalize_typed_write_request (VDict (entry_request d)) =
    Ok {| wr_entry_id := Some e.(en_id); wr_body := e.(en_body) |};
  ec_same : forallb (fun kv => py_eq kv.2 (get d kv.1))
    (("entry_id", VStr e.(en_id)) :: body_fields e.(en_body)) = true;
  ec_digest : sha256_json (VDict (without "entry_sha256" d)) = Ok e.(en_sha256);
  ec_positive : 1 <= n;
  ec_time : exists t, strptime e.(en_recorded_at) = Some t /\
    forall s, e.(en_body).(bo_expires_at) = Some s -> exists t', strptime s = Some t' /\ t < t';
  ec_ids : e.(en_ledger_id) = ledger_id /\ e.(en_sequence) = n /\ e.(en_previous) = prev }.

Lemma validate_entry_ok v ledger_id n prev e :
  validate_entry v ledger_id n prev = Ok e -> exists d, v = VDict d /\ entry_checked d ledger_id n prev e.
Proof.
  unfold validate_entry. destruct v as [| | | | | |d]; try done. cbn [cont_mapping]. intros H. exists d. split; [done |].
  destruct (exact_int (get d "sequence")) as [sequence|] eqn:Eq; [|inv_ok H].
  destruct (normalize_typed_write_request _) as [r|] eqn:Hn; [|inv_ok H].
  destruct r as [[entry_id|] o]; [|inv_ok H].
  cbn [wr_entry_id wr_body] in H. inv_ok H. unfold cont_sha256 in *.
  repeat match goal with
  | Hf : exact_int _ = Some _ |- _ => apply exact_int_ok in Hf
  | Hf : exact_string _ _ = Ok _ |- _ => apply exact_string_ok in Hf
  | Hf : text_of_form _ _ _ = Ok _ |- _ => apply text_of_form_ok in Hf as [Hf ?]
  | Hf : py_eq _ (VStr _) = true |- _ => apply py_eq_vstr_r in Hf
  | Hf : py_eq _ (vstr _) = true |- _ => apply py_eq_vstr_r in Hf
  | Hf : parse_utc _ _ = Ok _ |- _ => apply parse_utc_ok in Hf as (? & ? & Hf)
  | Hf : (_ =? _) = true |- _ => apply Z.eqb_eq in Hf
  end.
  split; cbn [en_ledger_id en_sequence en_previous en_id en_recorded_at en_body en_sha256];
    try done; try congruence; try lia.
  exists a. split; [congruence |]. intros s Hs. rewrite Hs in *. cbn [expires_after parse_utc] in *.
  destruct (strptime s) as [t'|]; [|done]. exists t'. split; [done |].
  destruct (Z.leb_spec t' a); [done | lia].
Qed.

Lemma validate_entry_intro d ledger_id n prev e :
  entry_checked d ledger_id n prev e -> validate_entry (VDict d) ledger_id n prev = Ok e.
Proof.
  intros [Hk Hsch Hl Hs Hp Hr Hsha Hre Hn Hsame Hd Hpos (t & Ht & Hexp) (Hi1 & Hi2 & Hi3)].
  unfold validate_entry. cbn [cont_mapping]. rewrite Hk, Hsch, Hl, Hs, Hp, Hr, Hsha, Hn, Hd. cbn [negb].
  change (py_eq (vstr ENTRY_SCHEMA) (vstr ENTRY_SCHEMA)) with true.
  cbn [negb exact_int exact_string parse_utc wr_entry_id wr_body py_eq]. rewrite !bool_decide_true by done. cbn [negb].
  destruct (Z.ltb_spec n 1); [lia |]. rewrite Z.eqb_refl, Ht, Hsame. cbn [negb].
  assert (expires_after (bo_expires_at (en_body e)) "entry.expires_at" t
    "continuity entry expiry is not after recording" "store_invalid" = Ok tt) as ->.
  { unfold expires_after. destruct (bo_expires_at (en_body e)) as [s|]; [|done]. cbn [parse_utc].
    destruct (Hexp s eq_refl) as (t' & -> & Hlt). by destruct (Z.leb_spec t' t); [lia |]. }
  unfold cont_sha256. rewrite text_of_form_intro, bool_decide_true by done. cbn [negb].
  by rewrite <- Hi1, <- Hi2, <- Hi3; destruct e.
Qed.

(** Everything an entry shares with its request is text. *)
Lemma same_sim d e o entry_id :
  sim (VDict d) (VDict e) -> wf (VDict (request_dict {| wr_entry_id := Some entry_id; wr_body := o |})) ->
  forallb (fun kv => py_eq kv.2 (get d kv.1)) (("entry_id", VStr entry_id) :: body_fields o) = true ->
  forallb (fun kv => py_eq kv.2 (get e kv.1)) (("entry_id", VStr entry_id) :: body_fields o) = true.
Proof.
  intros H Hw. pose proof (sim_dict _ _ H) as Hv. rewrite !forallb_forall. intros Hs kv Hin.
  rewrite <- (Hs kv Hin). symmetry. apply py_eq_textual; [by apply get_sim | |].
  - apply wf_fields_inv in Hw. rewrite Forall_forall in Hw. apply Hw, list_elem_of_In. by right.
  - destruct Hin as [<-|Hin]; [done |]. pose proof (textual_body o) as Ht. rewrite forallb_forall in Ht.
    by apply Ht.
Qed.

Lemma entry_checked_sim d d' ledger_id n prev e :
  sim (VDict d) (VDict d') -> entry_checked d ledger_id n prev e -> entry_checked d' ledger_id n prev e.
Proof.
  intros H C. pose proof (sim_dict _ _ H) as Hv.
  assert (Hstr : forall k s, get d k = VStr s -> get d' k = VStr s).
  { intros k s Hk. pose proof (get_sim _ _ k Hv) as Hx%sim_view. rewrite Hk in Hx. destruct (get d' k); try done.
    simpl in Hx. by subst. }
  destruct C as [Hk Hsch Hl Hs Hp Hr Hsha Hre Hn Hsame Hd Hpos Ht Hid].
  split; try done; try (by apply Hstr).
  - by rewrite <- (same_keys_sim _ _ _ Hv).
  - pose proof (get_sim _ _ "sequence" Hv) as Hx%sim_view. rewrite Hs in Hx.
    destruct (get d' "sequence"); try done. simpl in Hx. by subst.
  - by rewrite <- (normalize_sim _ _ (entry_request_sim _ _ H)).
  - apply (same_sim d); [done | | done]. destruct (normalize_wf _ _ (Some e.(en_id)) Hn) as [Hi Hw]; [|exact Hw].
    by destruct (normalize_wf _ _ None Hn) as [Hi _].
  - by apply (sha256_json_sim _ _ _ (proj2 (proj2 (without_sim "entry_sha256" _ _ H)))).
Qed.

Lemma validate_entry_sim v w ledger_id n prev e :
  sim v w -> validate_entry v ledger_id n prev = Ok e -> validate_entry w ledger_id n prev = Ok e.
Proof.
  intros H (d & -> & C)%validate_entry_ok. pose proof (sim_view _ _ H) as Hv.
  destruct w as [| | | | | |d']; try done. apply validate_entry_intro. by apply (entry_checked_sim d).
Qed.

Lemma entry_dict_wf d ledger_id n prev e :
  wf (VDict d) -> entry_checked d ledger_id n prev e -> wf (VDict (entry_dict e)).
Proof.
  intros Hd C. destruct C as [Hk Hsch Hl Hs Hp Hr Hsha Hre Hn Hsame Hdg Hpos Ht (<- & <- & <-)].
  destruct (normalize_wf _ _ None Hn) as [Hi _]; [done |]. cbn [wr_entry_id] in Hi.
  destruct (normalize_wf _ _ (Some e.(en_id)) Hn Hi) as [_ Hw].
  assert (Hgood : forall k s, get d k = VStr s -> good_str s).
  { intros k s E. pose proof (wf_get k d Hd) as Hg. rewrite E in Hg. by inversion Hg. }
  rewrite entry_dict_display. apply wf_fields_inv, Forall_app in Hw as [_ Hbody]. cbn [wr_body] in Hbody.
  apply wf_fields; [by vm_compute | by vm_compute |]. unfold entry_base_fields.
  apply Forall_app. split; [apply Forall_app; split |].
  - repeat apply List.Forall_cons; try apply List.Forall_nil; cbn [snd]; try apply wf_int; apply wf_str;
      [by apply str_good | by apply (Hgood "ledger_id") | by apply (Hgood "previous_entry_sha256") |
       by apply entry_id_good, Hi | by apply (Hgood "recorded_at")].
  - exact Hbody.
  - repeat apply List.Forall_cons; [|apply List.Forall_nil]. cbn [snd]. constructor. by apply sha256_good.
Qed.

(** A checked entry is the mapping it was read from. *)
Lemma entry_checked_dict d ledger_id n prev e :
  wf (VDict d) -> entry_checked d ledger_id n prev e -> sim (VDict d) (VDict (entry_dict e)).
Proof.
  intros Hd C. pose proof (entry_dict_wf _ _ _ _ _ Hd C) as He.
  destruct C as [Hk Hsch Hl Hs Hp Hr Hsha Hre Hn Hsame Hdg Hpos Ht (<- & <- & <-)].
  apply (same_dict _ _ ENTRY_KEYS); [done | done | by apply same_keys_spec | by apply same_keys_spec; vm_compute |].
  pose proof He as Hall. rewrite entry_dict_display in Hall. apply wf_fields_inv in Hall.
  assert (Heq : Forall (fun kv => canon (get d kv.1) = canon kv.2)
    (entry_base_fields e ++ [("entry_sha256", VStr e.(en_sha256))])).
  { assert (Hb : forall kv, In kv (("entry_id", VStr e.(en_id)) :: body_fields e.(en_body)) ->
      canon (get d kv.1) = canon kv.2).
    { rewrite forallb_forall in Hsame. intros kv Hkv. symmetry.
      apply textual_eq_canon; [| by apply wf_get | | by apply Hsame].
      - rewrite Forall_forall in Hall. apply Hall, list_elem_of_In, in_app_iff. left.
        unfold entry_base_fields. cbn [app]. destruct Hkv as [<-|Hkv]; [simpl; tauto |]. by do 6 right.
      - destruct Hkv as [<-|Hkv]; [done |]. pose proof (textual_body e.(en_body)) as Htx.
        rewrite forallb_forall in Htx. by apply Htx. }
    unfold entry_base_fields. apply Forall_app. split; [apply Forall_app; split |].
    - repeat apply List.Forall_cons; try apply List.Forall_nil; cbn [fst snd]; try congruence.
      apply (Hb ("entry_id", VStr (en_id e))). by left.
    - apply Forall_forall. intros kv Hkv%list_elem_of_In. apply Hb. by right.
    - repeat apply List.Forall_cons; try apply List.Forall_nil; cbn [fst snd]; congruence. }
  intros k Hin. rewrite Forall_forall in Heq.
  change ENTRY_KEYS with (map fst (entry_base_fields e ++ [("entry_sha256", VStr e.(en_sha256))])) in Hin.
  apply list_elem_of_fmap in Hin as ([k' x] & -> & Hx). cbn [fst].
  etransitivity; [exact (Heq _ Hx) |]. rewrite entry_dict_display. cbn [snd]. f_equal. symmetry.
  apply get_fields_elem; [apply (bool_decide_unpack _); by vm_compute | done].
Qed.
End Entries.
