(* ===== verification/Chain.v ===== *)
(** * The chain of entries

    What an accepted ledger is: [verify_ledger_snapshot] accepts exactly the
    concatenated canonical lines of a hash chain ([snapshot_accepts]), a
    ledger that ends at the head of another one is that ledger or exhibits a
    SHA-256 collision ([ledger_tamper_evident]), and an admissible entry extends
    an accepted ledger ([snapshot_extends]). *)

From S2P Require Import Prelude Regex Sha256 PyTime PyUrl PyText Json JsonFacts JsonSize JsonWf JsonSim Encoding ConfigFacts Screening Continuity ContinuityFacts Normalised Ledger LedgerFacts.
Local Open Scope Z_scope.

(** ** Lines *)

Definition line_of (e : Entry) : bytes := utf8 (dumps (VDict (entry_dict e))) ++ [10%N].

(** One newline, at the end. *)
Definition is_line (l : bytes) : Prop :=
  exists t, l = t ++ [10%N] /\ Forall (fun c => c <> 10%N /\ c <> 13%N) t.

Lemma byte_lines_plain t : forall line rest,
  Forall (fun c => c <> 10%N /\ c <> 13%N) t -> byte_lines line (t ++ rest) = byte_lines (rev t ++ line) rest.
Proof.
  induction t as [|c t IH]; intros line rest Ht; [done |].
  apply Forall_cons in Ht as [[H10 H13] Ht]. cbn [app].
  assert (byte_lines line (c :: t ++ rest) = byte_lines (c :: line) (t ++ rest)) as ->.
  { cbn [byte_lines]. rewrite (proj2 (N.eqb_neq c 10)), (proj2 (N.eqb_neq c 13)) by done. cbn [orb].
    destruct c as [|p]; [done |]. by do 4 (destruct p as [p|p|]; try done). }
  rewrite IH by done. simpl. by rewrite <- app_assoc.
Qed.

Lemma byte_lines_line l rest : is_line l -> byte_lines [] (l ++ rest) = l :: byte_lines [] rest.
Proof.
  intros (t & -> & Ht). rewrite <- app_assoc, byte_lines_plain, app_nil_r by done. cbn [app byte_lines].
  change ((10 =? 10) || (10 =? 13))%N with true. cbv iota. cbn [rev]. by rewrite rev_involutive.
Qed.

Lemma byte_lines_concat ls : Forall is_line ls -> byte_lines [] (concat ls) = ls.
Proof. induction 1 as [|l ls Hl _ IH]; [done |]. simpl. by rewrite byte_lines_line, IH. Qed.

Lemma concat_byte_lines s : forall line, concat (byte_lines line s) = rev line ++ s.
Proof.
  assert (H : forall n s line, (length s <= n)%nat -> concat (byte_lines line s) = rev line ++ s).
  { clear. induction n as [|n IH]; intros s line Hn.
    - destruct s; [|simpl in Hn; lia]. destruct line; [done |]. cbn [byte_lines concat]. done.
    - destruct s as [|c s]; [destruct line; [done |]; cbn [byte_lines concat]; done |]. simpl in Hn.
      assert (Hother : concat (if ((c =? 10) || (c =? 13))%N then rev (c :: line) :: byte_lines [] s
                               else byte_lines (c :: line) s) = rev line ++ c :: s).
      { destruct ((c =? 10) || (c =? 13))%N; cbn [concat]; rewrite IH by lia; cbn [rev];
          by rewrite <- app_assoc. }
      cbn [byte_lines]. destruct (decide (c = 13%N)) as [->|Hc].
      + destruct s as [|c s]; [exact Hother |]. destruct (decide (c = 10%N)) as [->|Hc'].
        * cbn [concat]. simpl in Hn. rewrite IH by lia. cbn [rev]. by rewrite <- !app_assoc.
        * destruct c as [|p]; [exact Hother |]. do 4 (destruct p as [p|p|]; try exact Hother). done.
      + destruct c as [|p]; [exact Hother |]. do 4 (destruct p as [p|p|]; try exact Hother). done. }
  intros line. by apply (H (length s)).
Qed.

(** ** Reading a line *)

Section Lines.
Context `{U : !Unicode}.

(** What a line must hold for the entry to be accepted behind [prev]. *)
Definition entry_valid (ledger_id : pystr) (n : Z) (prev : pystr) (e : Entry) : Prop :=
  wf (VDict (entry_dict e)) /\ norm_ok 0 (VDict (entry_dict e)) = true /\
  validate_entry (VDict (entry_dict e)) ledger_id n prev = Ok e /\ zlen (line_of e) <= MAX_LINE_BYTES.

Lemma canonical_line_ok v raw : canonical_line v = Ok raw -> norm_ok 0 v = true /\ raw = utf8 (dumps v) ++ [10%N].
Proof.
  unfold canonical_line. destruct (canonical_json v) as [t|] eqn:E; [|done].
  apply canonical_ok in E as [Hn ->]. by intros [= <-].
Qed.

Lemma canonical_line_of v : norm_ok 0 v = true -> canonical_line v = Ok (utf8 (dumps v) ++ [10%N]).
Proof. intros H. unfold canonical_line. by rewrite canonical_of. Qed.

(** The bytes of canonical text. *)
Lemma canonical_bytes v : norm_ok 0 v = true -> Forall (fun c => (0 < c < 128)%N) (utf8 (dumps v) ++ [10%N]).
Proof.
  intros Hn. rewrite printable_utf8 by by apply dumps_printable. apply Forall_app. split; [|repeat constructor; lia].
  eapply Forall_impl; [by apply dumps_printable |]. simpl. lia.
Qed.

Lemma canonical_is_line v : norm_ok 0 v = true -> is_line (utf8 (dumps v) ++ [10%N]).
Proof.
  intros Hn. exists (utf8 (dumps v)). split; [done |]. rewrite printable_utf8 by by apply dumps_printable.
  eapply Forall_impl; [by apply dumps_printable |]. simpl. lia.
Qed.

(** A parsed line that is canonical was well-formed. *)
Lemma parsed_wf raw field v : parse_json raw field = Ok v -> canonical_line v = Ok raw -> wf v.
Proof.
  intros Hp [Hn ->]%canonical_line_ok. eapply parse_json_wf; [by apply canonical_bytes | exact Hp].
Qed.

Lemma dumps_sim v w : sim v w -> dumps v = dumps w.
Proof. intros (_ & _ & E). unfold dumps. by rewrite E. Qed.

Lemma read_line_ok ledger_id n raw p e :
  read_line ledger_id n raw p = Ok e -> raw = line_of e /\ entry_valid ledger_id n p.(pr_previous) e.
Proof.
  unfold read_line. intros H.
  destruct (MAX_LINE_BYTES <? zlen raw) eqn:Hlen; [done |]. apply Z.ltb_ge in Hlen.
  destruct (negb _ || _); [done |].
  destruct (parse_json raw _) as [v|] eqn:Hp; [|done].
  destruct (validate_entry v _ _ _) as [e'|] eqn:Hv; [|done].
  destruct (canonical_line v) as [expected|] eqn:Hc; [|done].
  destruct (bool_decide (raw = expected)) eqn:Heq; [|done]. apply bool_decide_eq_true in Heq as <-.
  apply Ok_inj in H as ->.
  pose proof (parsed_wf _ _ _ Hp Hc) as Hw.
  destruct (validate_entry_ok _ _ _ _ _ Hv) as (d & -> & C).
  pose proof (entry_checked_dict _ _ _ _ _ Hw C) as Hs.
  apply canonical_line_ok in Hc as [Hn Hraw].
  assert (Hline : raw = line_of e) by (rewrite Hraw; unfold line_of; by rewrite (dumps_sim _ _ Hs)).
  split; [done |]. split_and!; [apply Hs | | by apply (validate_entry_sim (VDict d)) | by rewrite <- Hline].
  by rewrite <- (norm_ok_sim _ _ (proj2 (proj2 Hs))).
Qed.

Lemma line_of_last e : List.last (line_of e) 0%N = 10%N.
Proof. unfold line_of. by rewrite last_last. Qed.

Lemma line_of_long e : wf (VDict (entry_dict e)) -> norm_ok 0 (VDict (entry_dict e)) = true -> line_of e <> [10%N].
Proof.
  intros Hw Hn H. assert (Hg : good (canon (VDict (entry_dict e)))) by by apply good_canon.
  destruct (dumps_raw_starts _ Hg) as (c & t & E & _).
  unfold line_of in H. rewrite printable_utf8 in H by by apply dumps_printable.
  unfold dumps in H. rewrite E in H. destruct t; discriminate H.
Qed.

Lemma read_line_intro ledger_id n p e :
  entry_valid ledger_id n p.(pr_previous) e -> read_line ledger_id n (line_of e) p = Ok e.
Proof.
  intros (Hw & Hn & Hv & Hl). unfold read_line.
  destruct (Z.ltb_spec MAX_LINE_BYTES (zlen (line_of e))); [lia |].
  rewrite line_of_last, bool_decide_true, bool_decide_false by (done || by apply line_of_long). cbn [negb orb].
  unfold line_of at 1. rewrite parse_canonical by done.
  pose proof (sim_canon _ Hw) as Hs.
  rewrite (validate_entry_sim _ _ _ _ _ _ Hs Hv), canonical_line_of by by rewrite <- (norm_ok_sim _ _ (proj2 (proj2 Hs))).
  rewrite <- (dumps_sim _ _ Hs). by rewrite bool_decide_true.
Qed.
End Lines.

(** ** The specification of a ledger *)

Definition last_sha (es : list Entry) : pystr :=
  match last es with Some e => e.(en_sha256) | None => ZERO_HASH end.

(** [e] supersedes the entry [t] of the same kind, subject and scope, of no
    higher trust. *)
Definition supersedes (e t : Entry) : Prop :=
  e.(en_body).(bo_supersedes) = Some t.(en_id) /\ en_kind t = en_kind e /\
  en_kind e <> str "verified_outcome" /\
  t.(en_body).(bo_subject) = e.(en_body).(bo_subject) /\ t.(en_body).(bo_scope) = e.(en_body).(bo_scope) /\
  TRUST_PRIORITY t.(en_body).(bo_source).(so_trust) <= TRUST_PRIORITY e.(en_body).(bo_source).(so_trust).

Definition targets (es : list Entry) : list pystr := omap (fun e => e.(en_body).(bo_supersedes)) es.

Section Spec.
Context `{U : !Unicode}.

Record well_chained (ledger_id : pystr) (es : list Entry) : Prop := {
  (** Each entry is valid in its place: the ledger's identifier, the next
      number, the digest of the entry before it and its own digest. *)
  wc_entry : forall i e, es !! i = Some e ->
    entry_valid ledger_id (Z.of_nat i + 1) (last_sha (take i es)) e;
  wc_ids : NoDup (map en_id es);
  wc_times : forall i j e e', (i <= j)%nat -> es !! i = Some e -> es !! j = Some e' ->
    str_leb e.(en_recorded_at) e'.(en_recorded_at) = true;
  wc_supersedes : forall i e s, es !! i = Some e -> e.(en_body).(bo_supersedes) = Some s ->
    exists j t, (j < i)%nat /\ es !! j = Some t /\ supersedes e t;
  wc_once : NoDup (targets es);
  wc_limit : zlen es <= MAX_ENTRIES }.

(** What an entry must satisfy to follow [es]. *)
Record admissible (ledger_id : pystr) (es : list Entry) (e : Entry) : Prop := {
  ad_valid : entry_valid ledger_id (zlen es + 1) (last_sha es) e;
  ad_new : forall e', e' ∈ es -> e'.(en_id) <> e.(en_id);
  ad_time : forall e', last es = Some e' -> str_leb e'.(en_recorded_at) e.(en_recorded_at) = true;
  ad_supersedes : forall s, e.(en_body).(bo_supersedes) = Some s ->
    s ∉ targets es /\ exists t, t ∈ es /\ supersedes e t;
  ad_limit : zlen es + 1 <= MAX_ENTRIES }.

Lemma lookup_snoc_cases (es : list Entry) e i x :
  (es ++ [e]) !! i = Some x -> es !! i = Some x /\ (i < length es)%nat \/ i = length es /\ x = e.
Proof.
  intros [H|[Hi H]]%lookup_app_Some; [left; split; [done | by eapply lookup_lt_Some] | right].
  apply list_lookup_singleton_Some in H as [Hz <-]. split; [lia | done].
Qed.

Lemma targets_snoc es e :
  targets (es ++ [e]) = targets es ++ match e.(en_body).(bo_supersedes) with Some s => [s] | None => [] end.
Proof. unfold targets. rewrite omap_app. simpl. by destruct (bo_supersedes (en_body e)). Qed.

Lemma last_time ledger_id es i e :
  well_chained ledger_id es -> es !! i = Some e ->
  exists e', last es = Some e' /\ str_leb e.(en_recorded_at) e'.(en_recorded_at) = true.
Proof.
  intros W Hi. pose proof (lookup_lt_Some _ _ _ Hi) as Hlt. rewrite last_lookup.
  destruct (es !! pred (length es)) as [e'|] eqn:Hl.
  - exists e'. split; [done |]. eapply (wc_times _ _ W i (pred (length es))); [lia | done | done].
  - apply lookup_ge_None in Hl. lia.
Qed.

Lemma well_chained_nil ledger_id : well_chained ledger_id [].
Proof. split; try done; try constructor. Qed.

Lemma well_chained_snoc ledger_id es e :
  well_chained ledger_id es -> admissible ledger_id es e -> well_chained ledger_id (es ++ [e]).
Proof.
  intros W A. split.
  - intros i x [[Hx Hi]|[-> ->]]%lookup_snoc_cases.
    + rewrite take_app_le by lia. by apply (wc_entry _ _ W).
    + rewrite take_app_length. apply (ad_valid _ _ _ A).
  - rewrite map_app. apply NoDup_app. split_and!; [apply W | | apply NoDup_singleton].
    intros x (e' & -> & He')%list_elem_of_fmap Hx%list_elem_of_singleton. by apply (ad_new _ _ _ A e').
  - intros i j x y Hij [[Hx Hi]|[-> ->]]%lookup_snoc_cases [[Hy Hj]|[-> ->]]%lookup_snoc_cases.
    + by apply (wc_times _ _ W i j).
    + destruct (last_time _ _ _ _ W Hx) as (l & Hl & Hle). eapply str_leb_trans; [exact Hle |].
      by apply (ad_time _ _ _ A).
    + lia.
    + apply str_leb_refl.
  - intros i x s [[Hx Hi]|[-> ->]]%lookup_snoc_cases Hs.
    + destruct (wc_supersedes _ _ W i x s Hx Hs) as (j & t & Hj & Ht & Hsup). exists j, t.
      rewrite lookup_app_l by lia. done.
    + destruct (ad_supersedes _ _ _ A s Hs) as (_ & t & (j & Hj)%list_elem_of_lookup & Hsup).
      exists j, t. pose proof (lookup_lt_Some _ _ _ Hj). rewrite lookup_app_l by lia. done.
  - rewrite targets_snoc. apply NoDup_app. split_and!; [apply W | |].
    + intros s Hs Hin. destruct (bo_supersedes (en_body e)) as [s'|] eqn:E; [|by apply not_elem_of_nil in Hin].
      apply list_elem_of_singleton in Hin as ->. by destruct (ad_supersedes _ _ _ A s' E).
    + destruct (bo_supersedes (en_body e)); [apply NoDup_singleton | constructor].
  - pose proof (ad_limit _ _ _ A). unfold zlen in *. rewrite length_app. simpl. lia.
Qed.

(** ** The loop *)

(** What the loop has gathered about the entries it read. *)
Definition gathered (es : list Entry) (p : Progress) : Prop :=
  p.(pr_entries) = es /\ p.(pr_previous) = last_sha es /\
  p.(pr_recorded) = match last es with Some e => e.(en_recorded_at) | None => [] end /\
  p.(pr_superseded) ≡ₚ targets es.

Lemma find_entry_some id es t : find_entry id es = Some t -> t ∈ es /\ t.(en_id) = id.
Proof. unfold find_entry. intros [Hin Hid]%find_some. split; [by apply list_elem_of_In | by apply bool_decide_eq_true in Hid]. Qed.

Lemma find_entry_none id es : find_entry id es = None -> forall e, e ∈ es -> e.(en_id) <> id.
Proof.
  unfold find_entry. intros H e He%list_elem_of_In. apply (find_none _ _ H), bool_decide_eq_false in He. done.
Qed.

Lemma validate_supersession_ok e es superseded s :
  validate_supersession e.(en_body) es superseded = Ok tt -> e.(en_body).(bo_supersedes) = Some s ->
  s ∉ superseded /\ exists t, t ∈ es /\ supersedes e t.
Proof.
  unfold validate_supersession. intros H Hs. rewrite Hs in H.
  destruct (find_entry s es) as [t|] eqn:Ht; [|done]. apply find_entry_some in Ht as [Hin Hid].
  inv_ok H. split; [done |]. exists t. split; [done |].
  repeat match goal with Hx : (_ <? _) = false |- _ => apply Z.ltb_ge in Hx end.
  unfold supersedes, en_kind. split_and!; try done; congruence.
Qed.

Lemma is_some_find id es : is_some (find_entry id es) = false -> forall e, e ∈ es -> e.(en_id) <> id.
Proof. intros H%is_some_false. by apply find_entry_none. Qed.

Lemma str_ltb_false s t : str_ltb s t = false -> str_leb t s = true.
Proof. unfold str_ltb. intros H. by apply negb_false_iff in H. Qed.

Lemma strptime_nonempty s t : strptime s = Some t -> s <> [].
Proof. by intros H ->. Qed.

(** The recorded time of a valid entry is not empty. *)
Lemma valid_recorded ledger_id n prev e : entry_valid ledger_id n prev e -> e.(en_recorded_at) <> [].
Proof.
  intros (_ & _ & Hv & _). destruct (validate_entry_ok _ _ _ _ _ Hv) as (d & _ & C).
  destruct (ec_time _ _ _ _ _ C) as (t & Ht & _). by apply (strptime_nonempty _ t).
Qed.

Lemma gathered_added es p e : gathered es p -> gathered (es ++ [e]) (added e p).
Proof.
  intros (He & Hp & Hr & Hs). unfold gathered, added, last_sha.
  cbn [pr_entries pr_previous pr_recorded pr_superseded]. rewrite !last_snoc, targets_snoc, He.
  split_and!; try done. destruct (bo_supersedes (en_body e)); rewrite Hs; [apply Permutation_cons_append | by rewrite app_nil_r].
Qed.

Lemma admit_entry_ok ledger_id es p e p' :
  well_chained ledger_id es -> gathered es p -> entry_valid ledger_id (zlen es + 1) p.(pr_previous) e ->
  admit_entry e p = Ok p' -> p' = added e p /\ admissible ledger_id es e.
Proof.
  intros W (He & Hp & Hr & Hsup) Hv H. unfold admit_entry in H. rewrite He in H.
  destruct (is_some (find_entry e.(en_id) es)) eqn:Hf; [done |].
  destruct (negb (bool_decide (p.(pr_recorded) = [])) && _) eqn:Ht; [done |].
  destruct (validate_supersession _ _ _) as [[]|] eqn:Hs; [|done].
  destruct (MAX_ENTRIES <? zlen es + 1) eqn:Hl; [done |]. apply Z.ltb_ge in Hl. apply Ok_inj in H as <-.
  split; [done |]. rewrite Hp in Hv. split; [done | by apply is_some_find | | | done].
  - intros e' Hlast. rewrite Hlast in Hr. rewrite Hr in Ht. apply andb_false_iff in Ht as [Ht|Ht].
    + apply negb_false_iff, bool_decide_eq_true in Ht.
      rewrite last_lookup in Hlast. by destruct (valid_recorded _ _ _ _ (wc_entry _ _ W _ _ Hlast)).
    + by apply str_ltb_false in Ht.
  - intros s Hs'. destruct (validate_supersession_ok _ _ _ _ Hs Hs') as [Hn Ht']. by rewrite Hsup in Hn.
Qed.

Lemma zlen_snoc {A} (l : list A) a : zlen (l ++ [a]) = zlen l + 1.
Proof. unfold zlen. rewrite length_app. simpl. lia. Qed.

Lemma verify_lines_ok ledger_id lines : forall es p p',
  well_chained ledger_id es -> gathered es p ->
  verify_lines ledger_id (zlen es + 1) lines p = Ok p' ->
  exists more, lines = map line_of more /\ well_chained ledger_id (es ++ more) /\ gathered (es ++ more) p'.
Proof.
  induction lines as [|raw lines IH]; intros es p p' W G H; cbn [verify_lines] in H.
  - apply Ok_inj in H as <-. exists []. by rewrite app_nil_r.
  - destruct (read_line ledger_id (zlen es + 1) raw p) as [e|] eqn:Hread; [|done].
    apply read_line_ok in Hread as [-> Hv].
    destruct (admit_entry e p) as [q|] eqn:Ha; [|done].
    destruct (admit_entry_ok _ _ _ _ _ W G Hv Ha) as [-> A].
    rewrite <- (zlen_snoc es e) in H.
    destruct (IH _ _ _ (well_chained_snoc _ _ _ W A) (gathered_added _ _ _ G) H) as (more & -> & W' & G').
    exists (e :: more). rewrite <- app_assoc in W', G'. done.
Qed.

(** The loop on the lines of what it accepted, continued by one line. *)
Lemma verify_lines_app ledger_id lines more : forall n p p',
  verify_lines ledger_id n lines p = Ok p' ->
  verify_lines ledger_id n (lines ++ more) p = verify_lines ledger_id (n + zlen lines) more p'.
Proof.
  induction lines as [|raw lines IH]; intros n p p' H; cbn [verify_lines app] in *.
  - apply Ok_inj in H as ->. unfold zlen. simpl. by rewrite Z.add_0_r.
  - destruct (read_line ledger_id n raw p) as [e|]; [|done]. destruct (admit_entry e p) as [q|]; [|done].
    rewrite (IH _ _ _ H). f_equal. unfold zlen. simpl length. lia.
Qed.

Lemma gathered_start : gathered [] start.
Proof. done. Qed.

(** What an accepted ledger is. *)
Lemma snapshot_ok raw h es :
  verify_ledger_snapshot raw h = Ok es ->
  raw = concat (map line_of es) /\ well_chained h.(hd_ledger_id) es /\
  zlen raw = h.(hd_size) /\ zlen es = h.(hd_sequence) /\ last_sha es = h.(hd_entry_sha256) /\
  (forall e, last es = Some e -> e.(en_recorded_at) = h.(hd_updated_at)) /\
  exists p, verify_lines h.(hd_ledger_id) 1 (map line_of es) start = Ok p /\ gathered es p.
Proof.
  unfold verify_ledger_snapshot. intros H.
  destruct (zlen raw =? hd_size h) eqn:Hsize; [|done]. apply Z.eqb_eq in Hsize. cbn [negb] in H.
  destruct (verify_lines _ _ _ _) as [p|] eqn:Hl; [|done].
  destruct (verify_lines_ok _ _ [] start p (well_chained_nil _) gathered_start Hl) as (more & Hlines & W & G).
  cbn [app] in W, G. pose proof G as (He & Hp & Hr & _). rewrite He in H.
  destruct (zlen more =? hd_sequence h) eqn:Hseq; [|done]. apply Z.eqb_eq in Hseq. cbn [negb] in H.
  destruct (bool_decide (pr_previous p = hd_entry_sha256 h)) eqn:Hsha; [|done]. apply bool_decide_eq_true in Hsha.
  cbn [negb] in H. destruct (negb (any more) && _); [done |].
  destruct (any more && _) eqn:Hat; [done |]. apply Ok_inj in H as <-.
  rewrite <- Hlines. split_and!; try done; try congruence.
  - pose proof (concat_byte_lines raw []) as Hc. simpl in Hc. congruence.
  - intros e Hlast. rewrite Hlast in Hr. apply andb_false_iff in Hat as [Hat|Hat].
    + destruct more; [done | discriminate Hat].
    + apply negb_false_iff, bool_decide_eq_true in Hat. congruence.
  - exists p. done.
Qed.

(** The heads that close a ledger. *)
Definition closes (h : Head) (ledger_id : pystr) (es : list Entry) : Prop :=
  h.(hd_ledger_id) = ledger_id /\ h.(hd_sequence) = zlen es /\ h.(hd_entry_sha256) = last_sha es /\
  h.(hd_size) = zlen (concat (map line_of es)) /\
  forall e, last es = Some e -> h.(hd_updated_at) = e.(en_recorded_at).

Lemma is_line_of ledger_id n prev e : entry_valid ledger_id n prev e -> is_line (line_of e).
Proof. intros (_ & Hn & _). by apply canonical_is_line. Qed.

Lemma valid_lines ledger_id es : well_chained ledger_id es -> Forall is_line (map line_of es).
Proof.
  intros W. apply Forall_fmap, Forall_forall. intros e (i & Hi)%list_elem_of_lookup.
  eapply is_line_of, (wc_entry _ _ W), Hi.
Qed.

Lemma any_last (es : list Entry) : any es = true -> exists e, last es = Some e.
Proof. intros H. destruct es as [|e es _] using rev_ind; [done |]. exists e. apply last_snoc. Qed.

(** The ledger is accepted once the loop is through its lines. *)
Lemma snapshot_of_lines h ledger_id es p :
  well_chained ledger_id es -> closes h ledger_id es -> gathered es p ->
  verify_lines ledger_id 1 (map line_of es) start = Ok p ->
  verify_ledger_snapshot (concat (map line_of es)) h = Ok es.
Proof.
  intros W (<- & Hseq & Hsha & Hsize & Hat) (He & Hp & Hr & _) Hl. unfold verify_ledger_snapshot.
  rewrite Hsize, Z.eqb_refl. cbn [negb]. rewrite byte_lines_concat by by eapply valid_lines.
  rewrite Hl, He, Hseq, Z.eqb_refl. cbn [negb]. rewrite Hp, Hsha, bool_decide_true by done. cbn [negb].
  destruct (any es) eqn:Hany; cbn [negb andb].
  - destruct (any_last _ Hany) as [e Hlast]. rewrite Hlast in Hr. by rewrite Hr, (Hat e Hlast), bool_decide_true.
  - apply any_false in Hany as ->. done.
Qed.

(** An accepted ledger followed by the line of an entry the loop admits. *)
Lemma snapshot_extends raw h es h' e :
  verify_ledger_snapshot raw h = Ok es ->
  entry_valid h.(hd_ledger_id) (zlen es + 1) (last_sha es) e ->
  (forall p, gathered es p -> admit_entry e p = Ok (added e p)) ->
  closes h' h.(hd_ledger_id) (es ++ [e]) ->
  verify_ledger_snapshot (raw ++ line_of e) h' = Ok (es ++ [e]).
Proof.
  intros (-> & W & Hsize & Hseq & Hsha & Hat & p & Hl & G)%snapshot_ok Hv Ha Hc.
  assert (Hp : pr_previous p = last_sha es) by apply G.
  pose proof (Ha p G) as Hadm.
  destruct (admit_entry_ok _ _ _ _ _ W G ltac:(by rewrite Hp) Hadm) as [_ A].
  assert (E : concat (map line_of es) ++ line_of e = concat (map line_of (es ++ [e]))).
  { rewrite map_app, concat_app. simpl. by rewrite app_nil_r. }
  rewrite E. eapply (snapshot_of_lines _ (hd_ledger_id h) _ (added e p)); [by apply well_chained_snoc | done | by apply gathered_added |].
  rewrite map_app. rewrite (verify_lines_app _ _ _ _ _ _ Hl). cbn [map verify_lines].
  assert (zlen (map line_of es) = zlen es) as -> by (unfold zlen; by rewrite length_map).
  rewrite Z.add_comm, read_line_intro by by rewrite Hp. by rewrite Hadm.
Qed.

(** ** Tampering *)

Definition collision : Prop := exists x y : bytes, x <> y /\ sha256_hex x = sha256_hex y.

(** The digest of a valid entry covers the rest of it. *)
Lemma valid_digest ledger_id n prev e :
  entry_valid ledger_id n prev e ->
  wf (VDict (entry_base e)) /\ norm_ok 0 (VDict (entry_base e)) = true /\
  e.(en_sha256) = sha256_hex (utf8 (dumps (VDict (entry_base e)))) /\
  e.(en_previous) = prev.
Proof.
  intros (Hw & Hn & Hv & _). destruct (validate_entry_ok _ _ _ _ _ Hv) as (d & [= <-] & C).
  pose proof (ec_digest _ _ _ _ _ C) as Hd. rewrite without_entry_sha in Hd.
  apply sha256_json_ok in Hd as [Hnb Hd]. apply wf_without with (k := "entry_sha256") in Hw.
  rewrite without_entry_sha in Hw. split_and!; try done. apply (ec_ids _ _ _ _ _ C).
Qed.

Lemma sim_members d e :
  sim (VDict d) (VDict e) ->
  map (fun kv => (kv.1, canon kv.2)) d ≡ₚ map (fun kv => (kv.1, canon kv.2)) e.
Proof.
  intros (_ & _ & E). rewrite !canon_dict in E. injection E as E.
  by rewrite <- (ksort_perm (map _ d)), E, ksort_perm.
Qed.

(** Two entries with the same digest are one line, or SHA-256 collides. *)
Lemma same_digest l1 n1 p1 e1 l2 n2 p2 e2 :
  entry_valid l1 n1 p1 e1 -> entry_valid l2 n2 p2 e2 -> e1.(en_sha256) = e2.(en_sha256) ->
  collision \/ (p1 = p2 /\ line_of e1 = line_of e2).
Proof.
  intros V1 V2 Hsha. destruct (valid_digest _ _ _ _ V1) as (Hw1 & Hn1 & Hd1 & Hp1).
  destruct (valid_digest _ _ _ _ V2) as (Hw2 & Hn2 & Hd2 & Hp2).
  destruct (decide (utf8 (dumps (VDict (entry_base e1))) = utf8 (dumps (VDict (entry_base e2))))) as [E|E].
  2:{ left. eexists _, _. split; [exact E |]. by rewrite <- Hd1, <- Hd2. }
  right. rewrite !printable_utf8 in E by by apply dumps_printable.
  assert (Hs : sim (VDict (entry_base e1)) (VDict (entry_base e2))).
  { split_and!; [done | done |].
    pose proof (loads_dumps JSONDecodeError JSONDecodeError _ Hw1 Hn1) as H1.
    pose proof (loads_dumps JSONDecodeError JSONDecodeError _ Hw2 Hn2) as H2.
    rewrite E in H1. congruence. }
  split.
  - pose proof (get_sim _ _ "previous_entry_sha256" (sim_dict _ _ Hs)) as Hg%sim_view.
    unfold entry_base, entry_base_fields in Hg. cbn [app] in Hg. rewrite !get_display in Hg.
    cbn [String.eqb Ascii.eqb Bool.eqb] in Hg. simpl in Hg. congruence.
  - unfold line_of. do 2 f_equal. unfold dumps. f_equal. unfold entry_dict. rewrite Hsha.
    apply sim_members in Hs. apply canon_perm.
    + destruct V1 as (Hw & _). inversion Hw as [| | | | | |d Hnd _ _]; subst. unfold entry_dict in Hnd.
      by rewrite Hsha in Hnd.
    + rewrite !map_app. by apply Permutation_app_tail.
Qed.

(** The part of the specification the digests cover. *)
Definition linked (ledger_id : pystr) (es : list Entry) : Prop :=
  forall i e, es !! i = Some e -> entry_valid ledger_id (Z.of_nat i + 1) (last_sha (take i es)) e.

Lemma linked_snoc ledger_id es e :
  linked ledger_id (es ++ [e]) -> linked ledger_id es /\ entry_valid ledger_id (zlen es + 1) (last_sha es) e.
Proof.
  intros L. split.
  - intros i x Hx. pose proof (lookup_lt_Some _ _ _ Hx).
    rewrite <- (take_app_le es [e] i) by lia. apply L. by rewrite lookup_app_l.
  - unfold zlen. rewrite <- (take_app_length es [e]) at 2. apply L. by rewrite list_lookup_middle.
Qed.

Lemma chain_determined es1 : forall l1 l2 es2,
  linked l1 es1 -> linked l2 es2 -> length es1 = length es2 -> last_sha es1 = last_sha es2 ->
  collision \/ map line_of es1 = map line_of es2.
Proof.
  induction es1 as [|e1 es1 IH] using rev_ind; intros l1 l2 es2 L1 L2 Hlen Hsha.
  - destruct es2; [by right | discriminate Hlen].
  - destruct es2 as [|e2 es2 _] using rev_ind; [rewrite length_app in Hlen; simpl in Hlen; lia |].
    rewrite !length_app in Hlen. simpl in Hlen.
    apply linked_snoc in L1 as [L1 V1]. apply linked_snoc in L2 as [L2 V2].
    unfold last_sha in Hsha. rewrite !last_snoc in Hsha.
    destruct (same_digest _ _ _ _ _ _ _ _ V1 V2 Hsha) as [|[Hprev Hline]]; [by left |].
    destruct (IH _ _ _ L1 L2 ltac:(lia) Hprev) as [|Hrest]; [by left | right].
    rewrite !map_app, Hrest. cbn [map]. by rewrite Hline.
Qed.
End Spec.


(** C21: what [_verify_ledger_snapshot] accepts is the concatenation of the
    canonical lines of its entries, which form a hash chain: numbers from one
    without gaps, each entry pinning the digest of the one before it and its
    own content, identifiers distinct, times in order, every supersession of
    an earlier entry of the same kind, subject and scope and no higher trust,
    no entry superseded twice; and the head closes it. *)
Theorem snapshot_accepts `{U : !Unicode} raw h es :
  verify_ledger_snapshot raw h = Ok es ->
  raw = concat (map line_of es) /\ well_chained h.(hd_ledger_id) es /\ closes h h.(hd_ledger_id) es.
Proof.
  intros (-> & W & Hsize & Hseq & Hsha & Hat & _)%snapshot_ok. split_and!; try done.
  split_and!; try done. intros e He. symmetry. by apply Hat.
Qed.
