(* ===== verification/ContinuityStore.v ===== *)
(** * The continuity store

    scripts/john_lomein_continuity.py on its directory: the durable head, the
    ledger, the transaction file that announces an append, recovery and
    [append_entry].  The store keeps what the processes see apart from what is
    on stable storage: a write or a rename is seen at once and kept after the
    matching [fsync].  A computation returns every store it passes through, so
    that it can be stopped anywhere (Recovery.v).  The lock makes
    operations exclude each other, and is taken without contention; owners,
    modes and links of the files are not modelled. *)

From S2P Require Import Prelude Regex Sha256 PyTime PyUrl PyText Json Encoding Screening Continuity Ledger.
Local Open Scope Z_scope.

(** ** Files *)

(** What is seen and what survives a power failure. *)
Record slot (A : Type) := Slot { seen : A; kept : A }.
Arguments Slot {A} seen kept.
Arguments seen {A} s.
Arguments kept {A} s.

(** The files the importer keeps in the same directory (ImporterStore.v); this
    module never looks at them. *)
Record Imports := { im_name : slot bool; im_journal : slot bytes; im_head : slot (option bytes) }.

(** The names and the contents: the head and the transaction are written
    elsewhere and renamed, so their content comes with the name; the ledger is
    appended to in place. *)
Record Store := {
  lock_name : slot bool; ledger_name : slot bool; ledger : slot bytes;
  head : slot (option bytes); transaction : slot (option bytes); imports : Imports }.

#[export] Instance slot_eq_dec {A} `{EqDecision A} : EqDecision (slot A).
Proof. solve_decision. Defined.
#[export] Instance imports_eq_dec : EqDecision Imports.
Proof. solve_decision. Defined.
#[export] Instance store_eq_dec : EqDecision Store.
Proof. solve_decision. Defined.

Definition set_lock_name x s := {| lock_name := x; ledger_name := s.(ledger_name);
  ledger := s.(ledger); head := s.(head); transaction := s.(transaction); imports := s.(imports) |}.
Definition set_ledger_name x s := {| lock_name := s.(lock_name); ledger_name := x;
  ledger := s.(ledger); head := s.(head); transaction := s.(transaction); imports := s.(imports) |}.
Definition set_ledger x s := {| lock_name := s.(lock_name); ledger_name := s.(ledger_name);
  ledger := x; head := s.(head); transaction := s.(transaction); imports := s.(imports) |}.
Definition set_head x s := {| lock_name := s.(lock_name); ledger_name := s.(ledger_name);
  ledger := s.(ledger); head := x; transaction := s.(transaction); imports := s.(imports) |}.
Definition set_transaction x s := {| lock_name := s.(lock_name); ledger_name := s.(ledger_name);
  ledger := s.(ledger); head := s.(head); transaction := x; imports := s.(imports) |}.
Definition set_imports x s := {| lock_name := s.(lock_name); ledger_name := s.(ledger_name);
  ledger := s.(ledger); head := s.(head); transaction := s.(transaction); imports := x |}.

Definition set_im_journal x i := {| im_name := i.(im_name); im_journal := x; im_head := i.(im_head) |}.
Definition set_im_head x i := {| im_name := i.(im_name); im_journal := i.(im_journal); im_head := x |}.

(** A store the importer was never used on. *)
Definition no_imports : Imports :=
  {| im_name := Slot false false; im_journal := Slot [] []; im_head := Slot None None |}.

(** A directory entry changes; the change becomes durable. *)
Definition now_seen {A} (x : A) (s : slot A) : slot A := Slot x s.(kept).
Definition settled {A} (s : slot A) : slot A := Slot s.(seen) s.(seen).

(** ** Computations on the store *)

Definition io (A : Type) : Type := Store -> list Store * (Store * res A).

Definition ret {A} (a : A) : io A := fun s => ([], (s, Ok a)).
Definition lift {A} (r : res A) : io A := fun s => ([], (s, r)).
Definition fails {A} (code m : string) : io A := lift (cont_error code m).
Definition look {A} (f : Store -> A) : io A := fun s => ([], (s, Ok (f s))).

(** A system call that changes the store. *)
Definition mutate (f : Store -> Store) : io unit := fun s => ([f s], (f s, Ok tt)).

Definition bind {A B} (m : io A) (k : A -> io B) : io B := fun s =>
  let '(t, (s1, r)) := m s in
  match r with
  | Ok a => let '(t', out) := k a s1 in (t ++ t', out)
  | Raise e => (t, (s1, Raise e))
  end.

Declare Scope io_scope.
Delimit Scope io_scope with io.
Notation "'let!' p ':=' c 'in' k" :=
  (bind c (fun x => match x with p => k end))
  (at level 10, p pattern, c at level 200, k at level 200) : io_scope.
Notation "'require' b 'else' r ';;' k" :=
  (if b then k else r)
  (at level 10, b at level 200, r at level 0, k at level 200) : io_scope.
Local Open Scope io_scope.

(** The result, the final store and the stores on the way. *)
Definition result {A} (m : io A) (s : Store) : res A := (m s).2.2.
Definition final {A} (m : io A) (s : Store) : Store := (m s).2.1.
Definition passed {A} (m : io A) (s : Store) : list Store := s :: (m s).1.

(** ** Files of the directory *)

(** [_fsync_directory] *)
Definition fsync_directory : io unit := mutate (fun s =>
  {| lock_name := settled s.(lock_name); ledger_name := settled s.(ledger_name);
     ledger := s.(ledger); head := settled s.(head); transaction := settled s.(transaction);
     imports := {| im_name := settled s.(imports).(im_name); im_journal := s.(imports).(im_journal);
                   im_head := settled s.(imports).(im_head) |} |}).

(** [_atomic_write]: the temporary file is complete and synced before the
    rename. *)
Definition atomic_write_head (raw : bytes) : io unit :=
  let! _ := mutate (fun s => set_head (now_seen (Some raw) s.(head)) s) in
  fsync_directory.

Definition atomic_write_transaction (raw : bytes) : io unit :=
  let! _ := mutate (fun s => set_transaction (now_seen (Some raw) s.(transaction)) s) in
  fsync_directory.

(** [_write_all] on the ledger opened for appending: whatever the sizes of the
    single writes, every prefix may be seen. *)
Fixpoint write_all (raw : bytes) : io unit :=
  match raw with
  | [] => ret tt
  | b :: raw' =>
      let! _ := mutate (fun s => set_ledger (now_seen (s.(ledger).(seen) ++ [b]) s.(ledger)) s) in
      write_all raw'
  end.

(** [os.fsync] of the ledger *)
Definition fsync_ledger : io unit := mutate (fun s => set_ledger (settled s.(ledger)) s).

(** [_read_regular] *)
Definition read_regular (content : option bytes) (field : string) (maximum_bytes : Z) : res bytes :=
  match content with
  | None => store_invalid (field +:+ " is missing")
  | Some raw =>
      raise_if maximum_bytes <? zlen raw
        with (ContinuityError "store_invalid" (field +:+ " exceeds its size limit")) ;;
      Ok raw
  end.

Definition ledger_content (s : Store) : option bytes :=
  if s.(ledger_name).(seen) then Some s.(ledger).(seen) else None.

(** [_read_ledger_unlocked] *)
Definition read_ledger : io bytes :=
  let! content := look ledger_content in
  lift (read_regular content "continuity ledger" MAX_LEDGER_BYTES).

(** [raw.endswith(b"\n") and raw.count(b"\n") == 1] *)
Definition one_line (raw : bytes) : bool :=
  bool_decide (List.last raw 0%N = 10%N) &&
  (length (List.filter (N.eqb 10) raw) =? 1)%nat.

(** [_read_head_unlocked] *)
Definition head_of (content : option bytes) : res Head :=
  let* raw := read_regular content "continuity head" 4096 in
  raise_if negb (one_line raw)
    with (ContinuityError "store_invalid" "continuity head encoding is invalid") ;;
  let* v := parse_json raw "continuity head" in
  let* head := validate_head v in
  let* expected := canonical_line v in
  raise_if negb (bool_decide (raw = expected))
    with (ContinuityError "store_invalid" "continuity head is not canonically encoded") ;;
  Ok head.

Definition read_head : io Head :=
  let! content := look (fun s => s.(head).(seen)) in lift (head_of content).

(** [_fsync_ledger_unlocked] *)
Definition fsync_ledger_unlocked (expected_raw : bytes) : io unit :=
  let! content := look ledger_content in
  match content with
  | None => fails "store_unsafe" "continuity ledger cannot be opened safely"
  | Some raw =>
      require zlen raw =? zlen expected_raw
        else (fails "store_ambiguous" "continuity ledger changed before recovery") ;;
      let! _ := fsync_ledger in
      let! observed := read_ledger in
      require bool_decide (observed = expected_raw)
        else (fails "store_ambiguous" "continuity ledger changed during recovery") ;;
      ret tt
  end.

(** ** Transactions *)

Definition TRANSACTION_SCHEMA : string := "john-lomein.continuity-transaction.v1".

Record Transaction := {
  tx_pre_head : Head; tx_pre_size : Z; tx_request : WriteRequest; tx_request_sha256 : pystr;
  tx_candidate : Entry; tx_line : pystr; tx_line_sha256 : pystr; tx_post_head : Head;
  tx_sha256 : pystr }.

Definition transaction_fields (t : Transaction) : list (string * value) :=
  [("schema_version", vstr TRANSACTION_SCHEMA); ("pre_head", VDict (head_dict t.(tx_pre_head)));
   ("pre_ledger_size_bytes", VInt t.(tx_pre_size));
   ("normalized_request", VDict (request_dict t.(tx_request)));
   ("normalized_request_sha256", VStr t.(tx_request_sha256));
   ("candidate_entry", VDict (entry_dict t.(tx_candidate)));
   ("candidate_canonical_line", VStr t.(tx_line));
   ("candidate_line_sha256", VStr t.(tx_line_sha256));
   ("post_head", VDict (head_dict t.(tx_post_head)))].

Definition transaction_dict (t : Transaction) : dict :=
  fields (transaction_fields t) ++ fields [("transaction_sha256", VStr t.(tx_sha256))].

(** [_new_transaction]; the line is ASCII, its text is the line itself. *)
Definition new_transaction (pre_head : Head) (request : WriteRequest) (request_sha256 : pystr)
    (candidate : Entry) (candidate_line : bytes) (post_head : Head) : res Transaction :=
  let t digest := {| tx_pre_head := pre_head; tx_pre_size := pre_head.(hd_size); tx_request := request;
    tx_request_sha256 := request_sha256; tx_candidate := candidate; tx_line := candidate_line;
    tx_line_sha256 := sha256_hex candidate_line; tx_post_head := post_head; tx_sha256 := digest |} in
  let* digest := sha256_json (VDict (fields (transaction_fields (t [])))) in
  Ok (t digest).

Definition TRANSACTION_KEYS : list string :=
  ["schema_version"; "pre_head"; "pre_ledger_size_bytes"; "normalized_request";
   "normalized_request_sha256"; "candidate_entry"; "candidate_canonical_line";
   "candidate_line_sha256"; "post_head"; "transaction_sha256"].

Definition isa_continuity (e : exn) : bool := match e with ContinuityError _ _ => true | _ => false end.

(** [_request_entry_id] *)
Definition request_entry_id (normalized : WriteRequest) (request_sha256 : pystr) : pystr :=
  match normalized.(wr_entry_id) with
  | Some explicit => explicit
  | None => str "jlce-" ++ take 24 request_sha256
  end.

(** [text.encode("ascii")] *)
Definition encode_ascii (s : pystr) : option bytes :=
  if forallb (fun c => c <? 128)%N s then Some s else None.

Section Operations.
Context `{!Unicode}.

Definition validate_transaction (v : value) : res Transaction :=
  let* transaction := cont_mapping v "continuity transaction" in
  raise_if negb (same_keys transaction TRANSACTION_KEYS)
    with (ContinuityError "store_invalid" "continuity transaction fields are invalid") ;;
  raise_if negb (py_eq (get transaction "schema_version") (vstr TRANSACTION_SCHEMA))
    with (ContinuityError "store_invalid" "continuity transaction schema mismatch") ;;
  let* observed := cont_sha256 (get transaction "transaction_sha256")
    "transaction.transaction_sha256" in
  let* digest := sha256_json (VDict (without "transaction_sha256" transaction)) in
  raise_if negb (bool_decide (observed = digest))
    with (ContinuityError "store_tampered" "continuity transaction was modified") ;;
  let* pre_head := validate_head (get transaction "pre_head") in
  let* post_head := validate_head (get transaction "post_head") in
  raise_if negb (bool_decide (exact_int (get transaction "pre_ledger_size_bytes") =
                              Some pre_head.(hd_size)))
    with (ContinuityError "store_invalid" "continuity transaction pre-size is invalid") ;;
  let pre_size := pre_head.(hd_size) in
  let* normalized := reraise isa_continuity
    (fun _ => ContinuityError "store_invalid" "continuity transaction request is invalid")
    (normalize_write_request (get transaction "normalized_request")) in
  raise_if negb (py_eq (VDict (request_dict normalized)) (get transaction "normalized_request"))
    with (ContinuityError "store_invalid" "continuity transaction request is not canonical") ;;
  let* request_sha256 := cont_sha256 (get transaction "normalized_request_sha256")
    "transaction.normalized_request_sha256" in
  let* request_digest := sha256_json (VDict (request_dict normalized)) in
  raise_if negb (bool_decide (request_sha256 = request_digest))
    with (ContinuityError "store_tampered" "continuity transaction request digest is invalid") ;;
  let* candidate := validate_entry (get transaction "candidate_entry") pre_head.(hd_ledger_id)
    (pre_head.(hd_sequence) + 1) pre_head.(hd_entry_sha256) in
  raise_if negb (bool_decide (candidate.(en_id) = request_entry_id normalized request_sha256)) ||
           negb (bool_decide (candidate.(en_body) = normalized.(wr_body)))
    with (ContinuityError "store_invalid"
      "continuity transaction candidate/request binding failed") ;;
  let* candidate_recorded := parse_utc (VStr candidate.(en_recorded_at))
    "transaction.candidate.recorded_at" in
  raise_if str_ltb candidate.(en_recorded_at) pre_head.(hd_updated_at)
    with (ContinuityError "store_rollback" "continuity transaction timestamp moved backwards") ;;
  let* _ := expires_after candidate.(en_body).(bo_expires_at) "transaction.candidate.expires_at"
    candidate_recorded "continuity transaction candidate is already expired" "store_invalid" in
  let* canonical_line_text := exact_string (get transaction "candidate_canonical_line")
    "transaction.candidate_canonical_line" in
  match encode_ascii canonical_line_text with
  | None => store_invalid "continuity transaction line encoding is invalid"
  | Some candidate_line =>
      let not_canonical :=
        ContinuityError "store_invalid" "continuity transaction line is not canonical" in
      raise_if negb (bool_decide (List.last candidate_line 0%N = 10%N)) ||
               (MAX_LINE_BYTES <? zlen candidate_line) with not_canonical ;;
      let* expected_line := canonical_line (get transaction "candidate_entry") in
      raise_if negb (bool_decide (candidate_line = expected_line)) with not_canonical ;;
      let* line_sha256 := cont_sha256 (get transaction "candidate_line_sha256")
        "transaction.candidate_line_sha256" in
      raise_if negb (bool_decide (line_sha256 = sha256_hex candidate_line))
        with (ContinuityError "store_tampered" "continuity transaction line digest is invalid") ;;
      let* expected_post_head := new_head pre_head.(hd_ledger_id) candidate.(en_sequence)
        candidate.(en_sha256) (pre_size + zlen candidate_line) candidate.(en_recorded_at) in
      raise_if negb (bool_decide (post_head = expected_post_head))
        with (ContinuityError "store_invalid"
          "continuity transaction post-head binding failed") ;;
      Ok {| tx_pre_head := pre_head; tx_pre_size := pre_size; tx_request := normalized;
            tx_request_sha256 := request_sha256; tx_candidate := candidate;
            tx_line := canonical_line_text; tx_line_sha256 := line_sha256;
            tx_post_head := post_head; tx_sha256 := observed |}
  end.

(** The content of the transaction file, once it is present. *)
Definition transaction_of (raw : bytes) : res Transaction :=
  let* raw := read_regular (Some raw) "continuity transaction" MAX_TRANSACTION_BYTES in
  raise_if negb (one_line raw)
    with (ContinuityError "store_invalid" "continuity transaction encoding is invalid") ;;
  let* v := parse_json raw "continuity transaction" in
  let* transaction := validate_transaction v in
  let* expected := canonical_line (VDict (transaction_dict transaction)) in
  raise_if negb (bool_decide (raw = expected))
    with (ContinuityError "store_invalid" "continuity transaction is not canonically encoded") ;;
  Ok transaction.

(** [_read_transaction_unlocked] *)
Definition read_transaction : io (option (Transaction * bytes)) :=
  let! content := look (fun s => s.(transaction).(seen)) in
  match content with
  | None => ret None
  | Some raw => let! t := lift (transaction_of raw) in ret (Some (t, raw))
  end.

(** [_clear_transaction_unlocked] *)
Definition clear_transaction (expected_raw : bytes) : io unit :=
  let! content := look (fun s => s.(transaction).(seen)) in
  let! observed := lift (read_regular content "continuity transaction" MAX_TRANSACTION_BYTES) in
  require bool_decide (observed = expected_raw)
    else (fails "store_ambiguous" "continuity transaction changed before cleanup") ;;
  let! _ := mutate (fun s => set_transaction (now_seen None s.(transaction)) s) in
  fsync_directory.

(** [_recover_transaction_unlocked] *)
Definition recover_transaction (request_sha256 : option pystr) : io (option Entry) :=
  let! pending := read_transaction in
  match pending with
  | None => ret None
  | Some (transaction, transaction_raw) =>
      let! current_head := read_head in
      let! ledger_raw := read_ledger in
      let pre_head := transaction.(tx_pre_head) in
      let post_head := transaction.(tx_post_head) in
      let pre_size := transaction.(tx_pre_size) in
      let candidate_line := transaction.(tx_line) in
      let post_size := post_head.(hd_size) in
      let cut := Z.to_nat pre_size in
      let appended := (zlen ledger_raw =? post_size) && bool_decide (drop cut ledger_raw = candidate_line) in
      let done :=
        let! _ := clear_transaction transaction_raw in
        ret (if bool_decide (request_sha256 = Some transaction.(tx_request_sha256))
             then Some transaction.(tx_candidate) else None) in
      if bool_decide (current_head = pre_head) && (zlen ledger_raw =? pre_size) then
        let! _ := lift (verify_ledger_snapshot ledger_raw pre_head) in
        let! _ := clear_transaction transaction_raw in
        ret None
      else if bool_decide (current_head = pre_head) && appended then
        let! _ := lift (verify_ledger_snapshot (take cut ledger_raw) pre_head) in
        let! _ := lift (verify_ledger_snapshot ledger_raw post_head) in
        let! _ := fsync_ledger_unlocked ledger_raw in
        let! raw := lift (canonical_line (VDict (head_dict post_head))) in
        let! _ := atomic_write_head raw in
        done
      else if bool_decide (current_head = post_head) && appended then
        let! _ := lift (verify_ledger_snapshot (take cut ledger_raw) pre_head) in
        let! _ := lift (verify_ledger_snapshot ledger_raw post_head) in
        done
      else fails "store_ambiguous" "continuity transaction projection is not recoverable"
  end.

(** [_verify_store_unlocked] *)
Definition verify_store_unlocked : io (list Entry * Head) :=
  let! pending := look (fun s => s.(transaction).(seen)) in
  require negb (is_some pending)
    else (fails "store_ambiguous" "continuity transaction recovery is pending") ;;
  let! head := read_head in
  let! raw := read_ledger in
  let! entries := lift (verify_ledger_snapshot raw head) in
  ret (entries, head).

(** [with _store_lock(root)]: the lock file must exist. *)
Definition locked {A} (m : io A) : io A :=
  let! present := look (fun s => s.(lock_name).(seen)) in
  require present else (fails "store_invalid" "continuity lock is missing") ;;
  m.

Definition verify_store : io (list Entry * Head) :=
  locked (let! _ := recover_transaction None in verify_store_unlocked).

Definition inspect_store : io (list Entry * Head) :=
  locked (
    let! pending := look (fun s => s.(transaction).(seen)) in
    require negb (is_some pending)
      else (fails "store_ambiguous" "continuity transaction recovery is pending") ;;
    verify_store_unlocked).

(** [_entry_matches_request] *)
Definition entry_matches_request (entry : Entry) (normalized : WriteRequest)
    (request_sha256 : pystr) : res bool :=
  if negb (bool_decide (entry.(en_id) = request_entry_id normalized request_sha256)) then Ok false
  else
    let reconstructed := {| wr_entry_id := match normalized.(wr_entry_id) with
                              | None => None | Some _ => Some entry.(en_id) end;
                            wr_body := entry.(en_body) |} in
    match normalize_write_request (VDict (request_dict reconstructed)) with
    | Ok observed =>
        if bool_decide (observed = normalized) then
          let* digest := sha256_json (VDict (request_dict observed)) in
          Ok (bool_decide (digest = request_sha256))
        else Ok false
    | Raise e => if isa_continuity e then Ok false else Raise e
    end.

(** The identifiers that were superseded. *)
Definition superseded_ids (entries : list Entry) : list pystr :=
  omap (fun e => e.(en_body).(bo_supersedes)) entries.

(** The entry that [append_entry] is about to write, and its line. *)
Definition new_entry (head : Head) (entry_id recorded_at : pystr) (normalized : WriteRequest) :
    res (Entry * bytes) :=
  let e digest := {| en_ledger_id := head.(hd_ledger_id); en_sequence := head.(hd_sequence) + 1;
    en_previous := head.(hd_entry_sha256); en_id := entry_id; en_recorded_at := recorded_at;
    en_body := normalized.(wr_body); en_sha256 := digest |} in
  let* digest := sha256_json (VDict (entry_base (e []))) in
  let* line := canonical_line (VDict (entry_dict (e digest))) in
  Ok (e digest, line).

(** What [append_entry] decides before it touches the store: an entry that is
    already there, or the transaction to run. *)
Inductive plan :=
| Existing (e : Entry)
| Append (t : Transaction) (transaction_raw : bytes).

Definition plan_append (entries : list Entry) (head : Head) (normalized : WriteRequest)
    (request_sha256 : pystr) (recorded : Z) : res plan :=
  let recorded_at := utc_text recorded in
  let entry_id := request_entry_id normalized request_sha256 in
  match find_entry entry_id entries with
  | Some existing =>
      let* same := entry_matches_request existing normalized request_sha256 in
      if same then Ok (Existing existing)
      else schema_invalid "continuity entry id is duplicate"
  | None =>
      raise_if MAX_ENTRIES <=? zlen entries
        with (ContinuityError "store_invalid" "continuity entry limit was reached") ;;
      let* _ := expires_after normalized.(wr_body).(bo_expires_at) "expires_at" recorded
        "continuity expiry must be in the future" "schema_invalid" in
      raise_if str_ltb recorded_at head.(hd_updated_at)
        with (ContinuityError "store_rollback" "continuity timestamp would move backwards") ;;
      let* _ := validate_supersession normalized.(wr_body) entries (superseded_ids entries) in
      let* (candidate, line) := new_entry head entry_id recorded_at normalized in
      raise_if MAX_LINE_BYTES <? zlen line
        with (ContinuityError "schema_invalid" "continuity entry exceeds its line limit") ;;
      raise_if MAX_LEDGER_BYTES <? head.(hd_size) + zlen line
        with (ContinuityError "store_invalid" "continuity ledger size limit reached") ;;
      let* post_head := new_head head.(hd_ledger_id) candidate.(en_sequence)
        candidate.(en_sha256) (head.(hd_size) + zlen line) recorded_at in
      let* t := new_transaction head normalized request_sha256 candidate line post_head in
      let* transaction_raw := canonical_line (VDict (transaction_dict t)) in
      raise_if MAX_TRANSACTION_BYTES <? zlen transaction_raw
        with (ContinuityError "schema_invalid" "continuity transaction exceeds its size limit") ;;
      Ok (Append t transaction_raw)
  end.

(** The append itself: intent, ledger, head, clean-up. *)
Definition run_append (t : Transaction) (transaction_raw : bytes) : io Entry :=
  let! pending := look (fun s => s.(transaction).(seen)) in
  require negb (is_some pending)
    else (fails "store_ambiguous" "continuity transaction appeared before append") ;;
  let! _ := atomic_write_transaction transaction_raw in
  let! content := look ledger_content in
  match content with
  | None => lift (Raise FileNotFoundError)
  | Some raw =>
      require zlen raw <=? MAX_LEDGER_BYTES
        else (fails "store_invalid" "continuity ledger exceeds its size limit") ;;
      require zlen raw =? t.(tx_pre_size)
        else (fails "store_ambiguous" "continuity tail changed before append") ;;
      require zlen raw + zlen t.(tx_line) <=? MAX_LEDGER_BYTES
        else (fails "store_invalid" "continuity ledger size limit reached") ;;
      let! _ := write_all t.(tx_line) in
      let! _ := fsync_ledger in
      let! head_raw := lift (canonical_line (VDict (head_dict t.(tx_post_head)))) in
      let! _ := atomic_write_head head_raw in
      let! _ := clear_transaction transaction_raw in
      ret t.(tx_candidate)
  end.

(** [append_entry(root, request, now=now)]; [now] in seconds *)
Definition append_entry (request : value) (now : Z) : io Entry :=
  let! normalized := lift (normalize_write_request request) in
  let! request_sha256 := lift (sha256_json (VDict (request_dict normalized))) in
  locked (
    let! recovered := recover_transaction (Some request_sha256) in
    match recovered with
    | Some e => ret e
    | None =>
        let! (entries, head) := verify_store_unlocked in
        let! p := lift (plan_append entries head normalized request_sha256 now) in
        match p with
        | Existing e => ret e
        | Append t transaction_raw => run_append t transaction_raw
        end
    end).

(** ** Initialisation *)

(** A file is created; its content is empty. *)
Definition create_ledger : io unit :=
  let! _ := mutate (fun s => set_ledger_name (now_seen true s.(ledger_name)) (set_ledger (Slot [] []) s)) in
  fsync_directory.

Definition write_new_head (ledger_id initialized_at : pystr) : io Head :=
  let! head := lift (new_head ledger_id 0 ZERO_HASH 0 initialized_at) in
  let! raw := lift (canonical_line (VDict (head_dict head))) in
  let! _ := atomic_write_head raw in
  ret head.

(** [initialize_store(root, ledger_id=ledger_id, now=now)]; [fresh]: what
    [uuid.uuid4().hex[:24]] returns. *)
Definition initialize_store (ledger_id : value) (now : Z) (fresh : pystr) : io Head :=
  let initialized_at := utc_text now in
  let! requested_id := lift (optional ledger_id (fun v => exact_string v "ledger_id")) in
  require match requested_id with Some s => fullmatch LEDGER_ID_RE s | None => true end
    else (fails "schema_invalid" "ledger_id is invalid") ;;
  let! present := look (fun s => s.(lock_name).(seen)) in
  let! _ := (if present then ret tt
             else mutate (fun s => set_lock_name (now_seen true s.(lock_name)) s)) in
  let! _ := fsync_directory in
  locked (
    let! s := look (fun s => s) in
    let ledger_present := s.(ledger_name).(seen) in
    let head_present := is_some s.(head).(seen) in
    let transaction_present := is_some s.(transaction).(seen) in
    let selected_id := match requested_id with
      | Some ((_ :: _) as r) => r | _ => str "jlcl-" ++ fresh end in
    if ledger_present && head_present then
      let! _ := recover_transaction None in
      let! (_, head) := verify_store_unlocked in
      require match requested_id with Some r => bool_decide (head.(hd_ledger_id) = r) | None => true end
        else (fails "schema_invalid" "ledger_id does not match the existing continuity store") ;;
      ret head
    else if ledger_present && negb head_present && negb transaction_present then
      let! raw := read_ledger in
      require bool_decide (raw = [])
        else (fails "store_invalid" "continuity store initialization is partial") ;;
      write_new_head selected_id initialized_at
    else if ledger_present || head_present || transaction_present then
      fails "store_invalid" "continuity store initialization is partial"
    else
      let! _ := create_ledger in
      write_new_head selected_id initialized_at).
End Operations.
