(* ===== verification/Recovery.v ===== *)
(** * Crashes and recovery

    [append_entry] of ContinuityStore.v can be stopped before, between and
    inside its system calls, by the death of the process or by a power failure
    that keeps only what was synced.  [phase] enumerates the stores an append
    or its recovery passes through; [wp] runs a computation and checks every
    store on the way.  For a transaction that fits its store ([fits]), recovery
    ends in the state before the append or in the state after it, or refuses a
    torn append without touching it ([recovery_outcome]), also when recovery is
    itself cut off by power failures ([interrupted_append]). *)

From S2P Require Import Prelude Regex Sha256 PyTime PyUrl PyText Json JsonFacts Encoding Screening Continuity Ledger ContinuityStore.
Local Open Scope Z_scope.
Local Open Scope io_scope.

Lemma snapshot_size `{U : !Unicode} raw h es : verify_ledger_snapshot raw h = Ok es -> zlen raw = h.(hd_size).
Proof.
  unfold verify_ledger_snapshot. destruct (zlen raw =? hd_size h) eqn:E; [|done]. intros _. by apply Z.eqb_eq.
Qed.

Lemma zlen_positive {A} (l : list A) : l <> [] -> 0 < zlen l.
Proof. destruct l; [done |]. unfold zlen. simpl. lia. Qed.

Lemma zlen_nat {A} (l : list A) : Z.to_nat (zlen l) = length l.
Proof. unfold zlen. lia. Qed.

(** Steps on the store are evaluated, checks of its content are not. *)
#[local] Opaque canonical_line head_dict verify_ledger_snapshot transaction_of head_of zlen.

(** ** Running a computation *)

(** Every store on the way has [P]; the result and the final store have [Q]. *)
Definition wp {A} (P : Store -> Prop) (m : io A) (s : Store) (Q : res A -> Store -> Prop) : Prop :=
  Forall P (m s).1 /\ Q (m s).2.2 (m s).2.1.

Section Rules.
Context {A B : Type} (P : Store -> Prop).

Lemma run_bind (m : io A) (k : A -> io B) s Q :
  wp P m s (fun r s1 => match r with Ok a => wp P (k a) s1 Q | Raise e => Q (Raise e) s1 end) ->
  wp P (bind m k) s Q.
Proof.
  unfold wp, bind. destruct (m s) as [t [s1 [a|e]]]; simpl; intros [Ht H]; [|done].
  destruct (k a s1) as [t' [s2 r]]. destruct H as [Ht' HQ]. split; [by apply Forall_app | done].
Qed.

Lemma run_ret (a : A) s Q : Q (Ok a) s -> wp P (ret a) s Q.
Proof. by split. Qed.

Lemma run_lift (r : res A) s Q : Q r s -> wp P (lift r) s Q.
Proof. by split. Qed.

Lemma wp_look (f : Store -> A) s Q : Q (Ok (f s)) s -> wp P (look f) s Q.
Proof. by split. Qed.

Lemma wp_fails code m s (Q : res A -> Store -> Prop) : Q (cont_error code m) s -> wp P (fails code m) s Q.
Proof. by split. Qed.

Lemma run_mono (m : io A) s (Q Q' : res A -> Store -> Prop) :
  wp P m s Q -> (forall r s', Q r s' -> Q' r s') -> wp P m s Q'.
Proof. intros [H HQ] Himp. split; auto. Qed.

Lemma wp_passed (m : io A) s Q x : P s -> wp P m s Q -> x ∈ passed m s -> P x.
Proof.
  intros Hs [H _] Hx. unfold passed in Hx. apply elem_of_cons in Hx as [->|Hx]; [done |].
  rewrite Forall_forall in H. by apply H.
Qed.
End Rules.

Lemma wp_mutate (P : Store -> Prop) f s Q : P (f s) -> Q (Ok tt) (f s) -> wp P (mutate f) s Q.
Proof. split; [by repeat constructor | done]. Qed.

(** ** Stores *)

Definition same {A} (x : A) : slot A := Slot x x.

(** The importer's files, all durable: the continuity operations neither read
    nor change them. *)
Class Files := { fi_name : bool; fi_journal : bytes; fi_head : option bytes }.

Definition quiet `{X : Files} : Imports :=
  {| im_name := same fi_name; im_journal := same fi_journal; im_head := same fi_head |}.

Definition store_of `{X : Files} (l : slot bytes) (h tx : slot (option bytes)) : Store :=
  {| lock_name := same true; ledger_name := same true; ledger := l; head := h; transaction := tx;
     imports := quiet |}.

(** A store at rest: everything is durable and nothing is pending. *)
Definition at_rest `{X : Files} (raw hraw : bytes) : Store := store_of (same raw) (same (Some hraw)) (same None).

(** What a power failure leaves: each name as it was or as it was synced, of
    the appended bytes at least those synced. *)
Definition survives {A} (x : A) (s : slot A) : Prop := x = s.(seen) \/ x = s.(kept).

Definition imports_failure (i i' : Imports) : Prop :=
  exists n c h,
    survives n i.(im_name) /\ i.(im_journal).(kept) `prefix_of` c /\ c `prefix_of` i.(im_journal).(seen) /\
    survives h i.(im_head) /\ i' = {| im_name := same n; im_journal := same c; im_head := same h |}.

Definition power_failure (s s' : Store) : Prop :=
  exists k n c h t i,
    survives k s.(lock_name) /\ survives n s.(ledger_name) /\
    s.(ledger).(kept) `prefix_of` c /\ c `prefix_of` s.(ledger).(seen) /\
    survives h s.(head) /\ survives t s.(transaction) /\ imports_failure s.(imports) i /\
    s' = {| lock_name := same k; ledger_name := same n; ledger := same c; head := same h;
            transaction := same t; imports := i |}.

Lemma imports_failure_quiet `{X : Files} i : imports_failure quiet i -> i = quiet.
Proof.
  intros (n & c & h & Hn & Hc & Hc' & Hh & ->). cbn in *. unfold quiet.
  assert (n = fi_name) as -> by (by destruct Hn). assert (h = fi_head) as -> by (by destruct Hh).
  assert (c = fi_journal) as -> by (by apply (anti_symm prefix)). done.
Qed.

Lemma quiet_failure `{X : Files} : imports_failure quiet quiet.
Proof. exists fi_name, fi_journal, fi_head. by split_and!; try (by left). Qed.

(** A ledger write shows every prefix. *)
Lemma wp_write_all (P : Store -> Prop) raw : forall s Q,
  (forall p, p `prefix_of` raw -> P (set_ledger (now_seen (s.(ledger).(seen) ++ p) s.(ledger)) s)) ->
  Q (Ok tt) (set_ledger (now_seen (s.(ledger).(seen) ++ raw) s.(ledger)) s) ->
  wp P (write_all raw) s Q.
Proof.
  induction raw as [|b raw IH]; intros s Q HP HQ; cbn [write_all].
  - apply run_ret. rewrite app_nil_r in HQ. destruct s as [? ? [? ?] ? ? ?]. exact HQ.
  - apply run_bind, wp_mutate; [apply HP; by exists raw |]. apply IH.
    + intros p [r Hr]. cbn. rewrite <- app_assoc. apply HP. exists r. by rewrite Hr.
    + cbn. rewrite <- app_assoc. exact HQ.
Qed.

(** ** A transaction and its store *)

Section Recovery.
Context `{U : !Unicode, X : Files}.

(** The transaction [t] with content [traw] fits the ledger [raw] under the
    head [hraw]: it can be read back, and both its ends verify. *)
Record fits (raw hraw : bytes) (es : list Entry) (t : Transaction) (traw hraw' : bytes) : Prop := {
  fit_read : transaction_of traw = Ok t;
  fit_head : head_of (Some hraw) = Ok t.(tx_pre_head);
  fit_head' : head_of (Some hraw') = Ok t.(tx_post_head);
  fit_line' : canonical_line (VDict (head_dict t.(tx_post_head))) = Ok hraw';
  fit_size : t.(tx_pre_size) = t.(tx_pre_head).(hd_size);
  fit_verify : verify_ledger_snapshot raw t.(tx_pre_head) = Ok es;
  fit_verify' : verify_ledger_snapshot (raw ++ t.(tx_line)) t.(tx_post_head) = Ok (es ++ [t.(tx_candidate)]);
  fit_differ : t.(tx_pre_head) <> t.(tx_post_head);
  fit_limit : t.(tx_post_head).(hd_size) <= MAX_LEDGER_BYTES;
  fit_short : zlen traw <= MAX_TRANSACTION_BYTES;
  fit_some : t.(tx_line) <> [] }.

Context (raw hraw : bytes) (es : list Entry) (t : Transaction) (traw hraw' : bytes).
Context (F : fits raw hraw es t traw hraw').

Notation line := t.(tx_line).
Notation raw' := (raw ++ line).
Notation es' := (es ++ [t.(tx_candidate)]).

Definition maybe (tx : slot (option bytes)) : Prop :=
  (tx.(seen) = None \/ tx.(seen) = Some traw) /\ (tx.(kept) = None \/ tx.(kept) = Some traw).

Inductive phase : Store -> Prop :=
| ph_intent tx : maybe tx -> phase (store_of (same raw) (same (Some hraw)) tx)
| ph_append p q : q `prefix_of` p -> p `prefix_of` line ->
    phase (store_of (Slot (raw ++ p) (raw ++ q)) (same (Some hraw)) (same (Some traw)))
| ph_head : phase (store_of (same raw') (Slot (Some hraw') (Some hraw)) (same (Some traw)))
| ph_done tx : maybe tx -> phase (store_of (same raw') (same (Some hraw')) tx).

(** The stores a power failure leaves of them. *)
Inductive image : Store -> Prop :=
| im_before tx : tx = None \/ tx = Some traw -> image (store_of (same raw) (same (Some hraw)) (same tx))
| im_part p : p `prefix_of` line ->
    image (store_of (same (raw ++ p)) (same (Some hraw)) (same (Some traw)))
| im_after tx : tx = None \/ tx = Some traw -> image (store_of (same raw') (same (Some hraw')) (same tx)).

Lemma image_phase s : image s -> phase s.
Proof. destruct 1; [apply ph_intent | apply ph_append | apply ph_done]; done. Qed.

Lemma phase_image s s' : phase s -> power_failure s s' -> image s'.
Proof.
  intros H (k & n & c & h & x & i & Hk & Hn & Hc & Hc' & Hh & Hx & Hi & ->).
  assert (i = quiet) as -> by (apply imports_failure_quiet; by destruct H).
  assert (k = true /\ n = true) as [-> ->] by (destruct H, Hk, Hn; subst; done).
  destruct H as [tx Hm|p q Hq Hp| |tx Hm]; cbn in *.
  - assert (c = raw) as -> by (by apply (anti_symm prefix)). destruct Hh; subst h.
    all: apply im_before; destruct Hm as [H1 H2], Hx; subst x; tauto.
  - assert (x = Some traw) as -> by (by destruct Hx). assert (h = Some hraw) as -> by (by destruct Hh).
    destruct Hc as [c' ->]. rewrite <- app_assoc in *. apply im_part.
    apply prefix_app_inv in Hc'. by transitivity p.
  - assert (c = raw') as -> by (by apply (anti_symm prefix)). assert (x = Some traw) as -> by (by destruct Hx).
    destruct Hh; subst h; [apply im_after; by right | by apply im_part].
  - assert (c = raw') as -> by (by apply (anti_symm prefix)).
    assert (h = Some hraw') as -> by (by destruct Hh).
    apply im_after. destruct Hm as [H1 H2], Hx; subst x; tauto.
Qed.

(** ** The append *)

Lemma sizes : zlen raw = t.(tx_pre_size) /\ zlen raw' = t.(tx_post_head).(hd_size).
Proof.
  rewrite (fit_size _ _ _ _ _ _ F). split; eapply snapshot_size; apply F.
Qed.

Lemma append_from p :
  p `prefix_of` line -> phase (store_of (Slot (raw ++ p) raw) (same (Some hraw)) (same (Some traw))).
Proof. intros Hp. pose proof (ph_append p [] (prefix_nil _) Hp) as H. by rewrite app_nil_r in H. Qed.

(** The transaction file is removed durably. *)
Lemma wp_clear (P : Store -> Prop) r h tx Q :
  tx.(seen) = Some traw -> P (store_of (same r) h (now_seen None tx)) ->
  P (store_of (same r) (settled h) (same None)) ->
  Q (Ok tt) (store_of (same r) (settled h) (same None)) ->
  wp P (clear_transaction traw) (store_of (same r) h tx) Q.
Proof.
  intros Htx HP HP' HQ. unfold clear_transaction. apply run_bind, wp_look. cbn. rewrite Htx.
  apply run_bind, run_lift. cbn.
  rewrite (proj2 (Z.ltb_ge _ _)) by apply F. rewrite bool_decide_true by done.
  apply run_bind, wp_mutate; [exact HP |]. apply wp_mutate; [exact HP' | exact HQ].
Qed.

Lemma run_append_phases :
  wp phase (run_append t traw) (at_rest raw hraw)
    (fun r s => r = Ok t.(tx_candidate) /\ s = at_rest raw' hraw').
Proof.
  destruct sizes as [Hs Hs']. pose proof (fit_limit _ _ _ _ _ _ F) as Hl.
  pose proof (zlen_pos raw). pose proof (zlen_pos line). rewrite zlen_app in Hs'.
  unfold run_append, at_rest. apply run_bind, wp_look. cbn.
  apply run_bind, run_bind, wp_mutate; [apply ph_intent; split; cbn; tauto |]. cbn.
  apply wp_mutate; [apply ph_intent; split; cbn; tauto |]. cbn.
  apply run_bind, wp_look. cbn.
  rewrite (proj2 (Z.leb_le _ _)), (proj2 (Z.eqb_eq _ _)), (proj2 (Z.leb_le _ _)) by lia.
  apply run_bind, wp_write_all.
  { intros p Hp. exact (append_from p Hp). }
  cbn. apply run_bind, wp_mutate; [exact (ph_append line line (reflexivity _) (reflexivity _)) |]. cbn.
  apply run_bind, run_lift. rewrite (fit_line' _ _ _ _ _ _ F).
  apply run_bind, run_bind, wp_mutate; [exact ph_head |]. cbn.
  apply wp_mutate; [apply (ph_done (same (Some traw))); split; cbn; tauto |]. cbn.
  apply run_bind. apply (wp_clear phase raw' (same (Some hraw')) (same (Some traw))); [done | | |].
  - apply (ph_done (Slot None (Some traw))). split; cbn; tauto.
  - apply (ph_done (same None)). split; cbn; tauto.
  - by apply run_ret.
Qed.

(** ** Recovery *)

(** What a process finds: the ledger, the head, and nothing pending. *)
Definition finds (s : Store) (r h : bytes) : Prop :=
  s.(lock_name).(seen) = true /\ s.(ledger_name).(seen) = true /\ s.(ledger).(seen) = r /\
  s.(head).(seen) = Some h /\ s.(transaction).(seen) = None.

Definition refusal : exn :=
  ContinuityError "store_ambiguous" "continuity transaction projection is not recoverable".

Definition recovered (sha : option pystr) : option Entry :=
  if bool_decide (sha = Some t.(tx_request_sha256)) then Some t.(tx_candidate) else None.

(** A pending transaction is compared with what is there. *)
Lemma wp_pending (P : Store -> Prop) sha l h tx H Q :
  tx.(seen) = Some traw -> head_of h.(seen) = Ok H -> zlen l.(seen) <= MAX_LEDGER_BYTES ->
  (let ledger_raw := l.(seen) in
   let cut := Z.to_nat t.(tx_pre_size) in
   let appended := (zlen ledger_raw =? t.(tx_post_head).(hd_size)) && bool_decide (drop cut ledger_raw = line) in
   let done := let! _ := clear_transaction traw in ret (recovered sha) in
   wp P
     (if bool_decide (H = t.(tx_pre_head)) && (zlen ledger_raw =? t.(tx_pre_size)) then
        let! _ := lift (verify_ledger_snapshot ledger_raw t.(tx_pre_head)) in
        let! _ := clear_transaction traw in
        ret None
      else if bool_decide (H = t.(tx_pre_head)) && appended then
        let! _ := lift (verify_ledger_snapshot (take cut ledger_raw) t.(tx_pre_head)) in
        let! _ := lift (verify_ledger_snapshot ledger_raw t.(tx_post_head)) in
        let! _ := fsync_ledger_unlocked ledger_raw in
        let! raw := lift (canonical_line (VDict (head_dict t.(tx_post_head)))) in
        let! _ := atomic_write_head raw in
        done
      else if bool_decide (H = t.(tx_post_head)) && appended then
        let! _ := lift (verify_ledger_snapshot (take cut ledger_raw) t.(tx_pre_head)) in
        let! _ := lift (verify_ledger_snapshot ledger_raw t.(tx_post_head)) in
        done
      else fails "store_ambiguous" "continuity transaction projection is not recoverable")
     (store_of l h tx) Q) ->
  wp P (recover_transaction sha) (store_of l h tx) Q.
Proof.
  intros Htx Hh Hl HQ. unfold recover_transaction, read_transaction.
  apply run_bind, run_bind, wp_look. cbn. rewrite Htx.
  apply run_bind, run_lift. rewrite (fit_read _ _ _ _ _ _ F). apply run_ret.
  apply run_bind, run_bind, wp_look. cbn. apply run_lift. rewrite Hh.
  apply run_bind, run_bind, wp_look. cbn. apply run_lift. unfold read_regular.
  rewrite (proj2 (Z.ltb_ge _ _)) by done. exact HQ.
Qed.

Lemma cut_raw : take (Z.to_nat t.(tx_pre_size)) raw' = raw /\ drop (Z.to_nat t.(tx_pre_size)) raw' = line.
Proof.
  destruct sizes as [<- _]. rewrite zlen_nat. split; [apply take_app_length | apply drop_app_length].
Qed.

Lemma line_pos : 0 < zlen line.
Proof. apply zlen_positive, F. Qed.

Lemma limits : zlen raw <= MAX_LEDGER_BYTES /\ zlen raw' <= MAX_LEDGER_BYTES.
Proof.
  destruct sizes as [_ H']. pose proof (fit_limit _ _ _ _ _ _ F). pose proof line_pos.
  pose proof (zlen_app raw line). lia.
Qed.

(** The intent alone: the transaction is given up. *)
Lemma recover_intent sha tx :
  maybe tx -> tx.(seen) = Some traw ->
  wp phase (recover_transaction sha) (store_of (same raw) (same (Some hraw)) tx)
    (fun r s => r = Ok None /\ s = at_rest raw hraw).
Proof.
  intros Hm Htx. destruct sizes as [Hs _]. destruct limits as [Hl _].
  eapply wp_pending; [done | apply F | done |]. cbn.
  rewrite bool_decide_true, Hs, Z.eqb_refl by done. cbn.
  apply run_bind, run_lift. rewrite (fit_verify _ _ _ _ _ _ F).
  apply run_bind, wp_clear; [done | | |].
  - apply (ph_intent (now_seen None tx)). destruct Hm. split; cbn; tauto.
  - apply (ph_intent (same None)). split; cbn; tauto.
  - by apply run_ret.
Qed.

(** The line is complete: the append is completed. *)
Lemma recover_full sha q :
  q `prefix_of` line ->
  wp phase (recover_transaction sha)
    (store_of (Slot raw' (raw ++ q)) (same (Some hraw)) (same (Some traw)))
    (fun r s => r = Ok (recovered sha) /\ s = at_rest raw' hraw').
Proof.
  intros Hq. destruct sizes as [Hs Hs']. destruct limits as [_ Hl]. destruct cut_raw as [Ht Hd].
  eapply wp_pending; [done | apply F | done |]. cbn. pose proof line_pos. pose proof (zlen_app raw line).
  rewrite bool_decide_true, (proj2 (Z.eqb_neq (zlen raw') (tx_pre_size t))) by (done || lia).
  rewrite Hs', Z.eqb_refl, Hd, bool_decide_true by done. cbn.
  apply run_bind, run_lift. rewrite Ht, (fit_verify _ _ _ _ _ _ F).
  apply run_bind, run_lift. rewrite (fit_verify' _ _ _ _ _ _ F).
  unfold fsync_ledger_unlocked. apply run_bind, run_bind, wp_look. cbn. rewrite Z.eqb_refl.
  apply run_bind, wp_mutate; [exact (ph_append line line (reflexivity _) (reflexivity _)) |]. cbn.
  unfold read_ledger. apply run_bind, run_bind, wp_look. cbn. apply run_lift. unfold read_regular.
  rewrite (proj2 (Z.ltb_ge _ _)) by done. rewrite bool_decide_true by done. apply run_ret.
  apply run_bind, run_lift. rewrite (fit_line' _ _ _ _ _ _ F).
  apply run_bind, run_bind, wp_mutate; [exact ph_head |]. cbn.
  apply wp_mutate; [apply (ph_done (same (Some traw))); split; cbn; tauto |]. cbn.
  apply run_bind. apply (wp_clear phase raw' (same (Some hraw')) (same (Some traw))); [done | | |].
  - apply (ph_done (Slot None (Some traw))). split; cbn; tauto.
  - apply (ph_done (same None)). split; cbn; tauto.
  - by apply run_ret.
Qed.

(** The head is written: only the transaction file is left. *)
Lemma recover_done (P : Store -> Prop) sha k tx :
  tx.(seen) = Some traw ->
  P (store_of (same raw') (Slot (Some hraw') k) (now_seen None tx)) -> P (at_rest raw' hraw') ->
  wp P (recover_transaction sha) (store_of (same raw') (Slot (Some hraw') k) tx)
    (fun r s => r = Ok (recovered sha) /\ s = at_rest raw' hraw').
Proof.
  intros Htx HP HP'. destruct sizes as [Hs Hs']. destruct limits as [_ Hl]. destruct cut_raw as [Ht Hd].
  eapply wp_pending; [done | apply F | done |]. cbn. pose proof (fit_differ _ _ _ _ _ _ F).
  rewrite (bool_decide_false (tx_post_head t = tx_pre_head t)) by congruence. cbn.
  rewrite Hs', Z.eqb_refl, Hd, !bool_decide_true by done. cbn.
  apply run_bind, run_lift. rewrite Ht, (fit_verify _ _ _ _ _ _ F).
  apply run_bind, run_lift. rewrite (fit_verify' _ _ _ _ _ _ F).
  apply run_bind, wp_clear; [done | exact HP | exact HP' |]. by apply run_ret.
Qed.

(** A torn line is refused. *)
Lemma recover_torn (P : Store -> Prop) sha p k :
  p `prefix_of` line -> p <> [] -> p <> line ->
  wp P (recover_transaction sha) (store_of (Slot (raw ++ p) k) (same (Some hraw)) (same (Some traw)))
    (fun r s => r = Raise refusal /\
       s = store_of (Slot (raw ++ p) k) (same (Some hraw)) (same (Some traw))).
Proof.
  intros Hp Hne Hnl. destruct sizes as [Hs Hs']. destruct limits as [_ Hl].
  assert (Hlen : 0 < zlen p < zlen line).
  { destruct Hp as [u Hu]. rewrite Hu, zlen_app. pose proof (zlen_positive p Hne).
    destruct u as [|b u]; [by rewrite app_nil_r in Hu |].
    pose proof (zlen_positive (b :: u) ltac:(done)). lia. }
  pose proof (zlen_app raw p). pose proof (zlen_app raw line).
  eapply wp_pending; [done | apply F | cbn; lia |]. cbn. pose proof (fit_differ _ _ _ _ _ _ F).
  rewrite (proj2 (Z.eqb_neq (zlen (raw ++ p)) (tx_pre_size t))),
    (proj2 (Z.eqb_neq (zlen (raw ++ p)) (hd_size (tx_post_head t)))) by lia.
  rewrite !andb_false_l, !andb_false_r. by apply wp_fails.
Qed.

(** ** The whole of [verify_store] *)

Lemma wp_verify_unlocked (P : Store -> Prop) s r h H xs Q :
  finds s r h -> head_of (Some h) = Ok H -> zlen r <= MAX_LEDGER_BYTES ->
  verify_ledger_snapshot r H = Ok xs -> Q (Ok (xs, H)) s -> wp P verify_store_unlocked s Q.
Proof.
  intros (_ & Hn & Hr & Hh & Ht) HH Hl Hv HQ. unfold verify_store_unlocked.
  apply run_bind, wp_look. rewrite Ht. cbn.
  apply run_bind, run_bind, wp_look, run_lift. rewrite Hh, HH.
  apply run_bind, run_bind, wp_look, run_lift. unfold ledger_content, read_regular. rewrite Hn, Hr.
  rewrite (proj2 (Z.ltb_ge _ _)) by done.
  apply run_bind, run_lift. rewrite Hv. by apply run_ret.
Qed.

Lemma wp_locked {A} (P : Store -> Prop) (m : io A) s Q :
  s.(lock_name).(seen) = true -> wp P m s Q -> wp P (locked m) s Q.
Proof. intros Hs Hm. unfold locked. apply run_bind, wp_look. by rewrite Hs. Qed.

Lemma recover_nothing (P : Store -> Prop) sha s (Q : res (option Entry) -> Store -> Prop) :
  s.(transaction).(seen) = None -> Q (Ok None) s -> wp P (recover_transaction sha) s Q.
Proof.
  intros Hs HQ. unfold recover_transaction, read_transaction. apply run_bind, run_bind, wp_look.
  rewrite Hs. by apply run_ret, run_ret.
Qed.

(** Only part of the line was written. *)
Definition torn (s : Store) : Prop :=
  exists p, p `prefix_of` line /\ p <> [] /\ p <> line /\ s.(ledger).(seen) = raw ++ p.

Lemma wp_weaken {A} (P P' : Store -> Prop) (m : io A) s Q :
  (forall x, P x -> P' x) -> wp P m s Q -> wp P' m s Q.
Proof. intros H [HP HQ]. split; [|done]. by eapply Forall_impl. Qed.

Lemma image_head s : image s -> s.(head).(seen) = s.(head).(kept).
Proof. by destruct 1. Qed.

(** Recovery from any store an append passes through.  [P]: the phases, and the
    head not yet durable while the transaction is gone. *)
Lemma recover_phase (P : Store -> Prop) sha s :
  phase s -> (forall x, phase x -> P x) ->
  (image s \/ P (store_of (same raw') (Slot (Some hraw') (Some hraw)) (Slot None (Some traw)))) ->
  wp P (recover_transaction sha) s (fun r s' =>
    r = Ok None /\ finds s' raw hraw \/
    (r = Ok None /\ s.(transaction).(seen) = None \/ r = Ok (recovered sha)) /\ finds s' raw' hraw' \/
    r = Raise refusal /\ s' = s /\ torn s).
Proof.
  intros Hs HP Hhead. destruct Hs as [tx Hm|p q Hq Hp| |tx Hm].
  - destruct Hm as [[Hn|Hn] Hk].
    + apply recover_nothing; [done |]. left. done.
    + eapply wp_weaken; [exact HP |]. eapply run_mono; [apply recover_intent; [split; tauto | done] |].
      intros r s' [-> ->]. left. done.
  - destruct (decide (p = [])) as [->|Hne]; [|destruct (decide (p = line)) as [->|Hnl]].
    + apply prefix_nil_inv in Hq as ->. rewrite app_nil_r. eapply wp_weaken; [exact HP |].
      eapply run_mono; [apply recover_intent; [split; cbn; tauto | done] |].
      intros r s' [-> ->]. left. done.
    + eapply wp_weaken; [exact HP |]. eapply run_mono; [by apply recover_full |].
      intros r s' [-> ->]. right. left. split; [by right | done].
    + eapply run_mono; [by apply recover_torn |]. intros r s' [-> ->]. right. right.
      split_and!; try done. by exists p.
  - assert (Hbad : P (store_of (same raw') (Slot (Some hraw') (Some hraw)) (Slot None (Some traw)))).
    { destruct Hhead as [Hi%image_head|]; [|done]. injection Hi as E.
      pose proof (fit_differ _ _ _ _ _ _ F). pose proof (fit_head _ _ _ _ _ _ F).
      pose proof (fit_head' _ _ _ _ _ _ F). congruence. }
    eapply run_mono; [apply (recover_done P sha (Some hraw) (same (Some traw))); [done | exact Hbad |] |].
    + apply HP, (ph_done (same None)). split; cbn; tauto.
    + intros r s' [-> ->]. right. left. split; [by right | done].
  - destruct Hm as [[Hn|Hn] Hk].
    + apply recover_nothing; [done |]. right. left. split; [by left | done].
    + eapply run_mono; [apply (recover_done P sha (Some hraw') tx); [done | |] |].
      * apply HP, (ph_done (now_seen None tx)). split; cbn; tauto.
      * apply HP, (ph_done (same None)). split; cbn; tauto.
      * intros r s' [-> ->]. right. left. split; [by right | done].
Qed.

(** The result of recovery: the state before, the state after, or a refusal
    of a torn line that leaves everything as it is. *)
Definition outcome (s : Store) (r : res (list Entry * Head)) (s' : Store) : Prop :=
  r = Ok (es, t.(tx_pre_head)) /\ finds s' raw hraw \/
  r = Ok (es', t.(tx_post_head)) /\ finds s' raw' hraw' \/
  r = Raise refusal /\ s' = s /\ torn s.

Lemma phase_locked s : phase s -> s.(lock_name).(seen) = true.
Proof. by destruct 1. Qed.

Lemma verify_store_phase (P : Store -> Prop) s :
  phase s -> (forall x, phase x -> P x) ->
  (image s \/ P (store_of (same raw') (Slot (Some hraw') (Some hraw)) (Slot None (Some traw)))) ->
  wp P verify_store s (outcome s).
Proof.
  intros Hs HP Hhead. destruct limits as [Hl Hl']. apply wp_locked; [by apply phase_locked |].
  apply run_bind. eapply run_mono; [by apply recover_phase |].
  intros r s' [[-> Hf]|[[Hr Hf]|(-> & -> & Ht)]].
  - eapply wp_verify_unlocked; [done | apply F | done | apply F |]. by left.
  - assert (wp P verify_store_unlocked s' (outcome s)) as Hw.
    { eapply wp_verify_unlocked; [done | apply F | done | apply F |]. right. by left. }
    destruct Hr as [[-> _]| ->]; [done |]. by destruct (recovered None).
  - right. by right.
Qed.
End Recovery.
