(* ===== verification/Append.v ===== *)
(** * Appending an entry

    What [plan_append] of ContinuityStore.v decides is carried out as planned:
    the new head, the new entry and the transaction are accepted when they are
    read back ([head_reads_back], [candidate_valid], [transaction_reads_back]),
    so that the transaction fits its store ([planned_fits]) and the theorems of
    Recovery.v apply to [append_entry]. *)

From S2P Require Import Prelude Regex Sha256 PyTime PyUrl PyText Json JsonFacts JsonSize JsonWf JsonSim Encoding ConfigFacts Screening ScreeningFacts Continuity ContinuityFacts Normalised Ledger LedgerFacts Chain ContinuityStore Recovery.
Local Open Scope Z_scope.

(** ** Heads *)

Definition head_valid (h : Head) : Prop :=
  wf (VDict (head_dict h)) /\ norm_ok 0 (VDict (head_dict h)) = true /\
  validate_head (VDict (head_dict h)) = Ok h.

Definition line_of_value (v : value) : bytes := utf8 (dumps v) ++ [10%N].

Lemma printable_count s : printable s -> length (List.filter (N.eqb 10) (s ++ [10%N])) = 1%nat.
Proof.
  intros H. rewrite List.filter_app, length_app. simpl.
  assert (List.filter (N.eqb 10) s = []) as ->; [|done].
  induction H as [|c s Hc _ IH]; [done |]. cbn [List.filter].
  by rewrite (proj2 (N.eqb_neq 10 c)) by lia.
Qed.

Lemma line_last v : List.last (line_of_value v) 0%N = 10%N.
Proof. unfold line_of_value. by rewrite last_last. Qed.

Lemma one_line_of v : norm_ok 0 v = true -> one_line (line_of_value v) = true.
Proof.
  intros Hn. unfold one_line. rewrite line_last, bool_decide_true by done. unfold line_of_value.
  rewrite printable_utf8, printable_count by by apply dumps_printable. done.
Qed.

Lemma head_of_ok hraw h :
  head_of (Some hraw) = Ok h -> hraw = line_of_value (VDict (head_dict h)) /\ head_valid h.
Proof.
  unfold head_of, read_regular. intros H.
  destruct (4096 <? zlen hraw); [done |]. destruct (negb (one_line hraw)); [done |].
  destruct (parse_json hraw _) as [v|] eqn:Hp; [|done]. destruct (validate_head v) as [h'|] eqn:Hv; [|done].
  destruct (canonical_line v) as [expected|] eqn:Hc; [|done].
  destruct (bool_decide (hraw = expected)) eqn:E; [|done]. apply bool_decide_eq_true in E as <-.
  apply Ok_inj in H as ->. pose proof (parsed_wf _ _ _ Hp Hc) as Hw.
  pose proof (validate_head_dict _ _ Hw Hv) as Hs. apply canonical_line_ok in Hc as [Hn ->].
  split; [unfold line_of_value; by rewrite (dumps_sim _ _ Hs) |].
  split_and!; [apply Hs | by rewrite <- (norm_ok_sim _ _ (proj2 (proj2 Hs))) | by apply (validate_head_sim v)].
Qed.

(** A valid head of at most a page reads back. *)
Lemma head_reads_back h :
  head_valid h -> zlen (line_of_value (VDict (head_dict h))) <= 4096 ->
  head_of (Some (line_of_value (VDict (head_dict h)))) = Ok h.
Proof.
  intros (Hw & Hn & Hv) Hl. unfold head_of, read_regular.
  rewrite (proj2 (Z.ltb_ge _ _)), one_line_of by done. cbn [negb]. unfold line_of_value at 1.
  rewrite parse_canonical by done. pose proof (sim_canon _ Hw) as Hs.
  rewrite (validate_head_sim _ _ _ Hs Hv), canonical_line_of by by rewrite <- (norm_ok_sim _ _ (proj2 (proj2 Hs))).
  unfold line_of_value. rewrite <- (dumps_sim _ _ Hs). by rewrite bool_decide_true.
Qed.

Lemma norm_ok_snoc l k x :
  norm_ok 0 (VDict (fields l)) = true -> norm_ok 1 x = true -> norm_ok 0 (VDict (fields l ++ fields [(k, x)])) = true.
Proof.
  cbn [norm_ok]. rewrite !andb_true_iff. intros [H1 H2] Hx. split; [done |].
  rewrite forallb_app, H2. cbn [fields map forallb snd andb].
  change (0 + 1) with 1. by rewrite Hx.
Qed.

Lemma ledger_id_plain s : fullmatch LEDGER_ID_RE s = true -> Forall plain s /\ (length s <= 29)%nat.
Proof.
  intros H. split; [|by apply (fullmatch_max LEDGER_ID_RE)].
  revert H. apply fullmatch_within. split; [apply lit_plain; by apply plain_str | apply hex_plain].
Qed.

Lemma sha_plain s : fullmatch SHA256_RE s = true -> Forall plain s /\ (length s <= 64)%nat.
Proof. intros H. split; [by apply sha256_plain | by apply (fullmatch_max SHA256_RE)]. Qed.

Lemma plain_fields l :
  bool_decide (NoDup (keys (fields l))) = true ->
  forallb (fun kv => forallb plainb (str kv.1)) l = true ->
  Forall (fun kv => plain_value kv.2) l -> plain_value (VDict (fields l)).
Proof.
  intros Hn Hk Hv. constructor.
  - by apply bool_decide_eq_true in Hn.
  - unfold fields. rewrite Forall_fmap, Forall_forall. intros [k v] Hx. simpl.
    rewrite forallb_forall in Hk. apply plain_str. by apply (Hk (k, v)), list_elem_of_In.
  - unfold fields. rewrite Forall_fmap. eapply Forall_impl; [exact Hv |]. by intros [k v].
Qed.

Lemma line_length v : plain_value v -> norm_ok 0 v = true -> zlen (line_of_value v) <= Z.of_nat (size v) + 1.
Proof.
  intros Hp Hn. unfold line_of_value. rewrite printable_utf8 by by apply dumps_printable.
  pose proof (dumps_raw_length (canon v) (plain_canon _ Hp)) as H. rewrite size_canon in H.
  rewrite zlen_snoc. unfold dumps, zlen. lia.
Qed.

(** A head the program makes is valid and short. *)
Lemma new_head_reads ledger_id sequence sha size_ now h :
  new_head ledger_id sequence sha size_ (utc_text now) = Ok h ->
  fullmatch LEDGER_ID_RE ledger_id = true -> 0 <= sequence <= I64_MAX -> 0 <= size_ <= MAX_LEDGER_BYTES ->
  fullmatch SHA256_RE sha = true -> in_clock_range now ->
  head_valid h /\ head_of (Some (line_of_value (VDict (head_dict h)))) = Ok h.
Proof.
  intros Hh Hid Hseq Hsize Hsha Hnow.
  pose proof (new_head_valid _ _ _ _ _ _ _ Hh Hid ltac:(lia) Hsize Hsha (strptime_utc_text _ Hnow)) as Hv.
  unfold new_head in Hh. destruct (sha256_json _) as [digest|] eqn:Hd; [|done]. injection Hh as <-.
  apply sha256_json_ok in Hd as [Hn Hd]. assert (Hdg : fullmatch SHA256_RE digest = true) by (subst; apply sha256_hex_re).
  set (h := {| hd_ledger_id := ledger_id |}) in *.
  destruct (ledger_id_plain _ Hid) as [P1 L1]. destruct (sha_plain _ Hsha) as [P2 L2].
  destruct (sha_plain _ Hdg) as [P3 L3]. pose proof (utc_text_length _ Hnow) as L4.
  assert (Hp : plain_value (VDict (head_dict h))).
  { rewrite head_dict_display. apply plain_fields; [by vm_compute | by vm_compute |].
    unfold MAX_LEDGER_BYTES in *. unfold I64_MAX in *.
    repeat apply List.Forall_cons; try apply List.Forall_nil; cbn [snd]; unfold vstr; constructor;
      [by apply plain_str | exact P1 | unfold I64_MIN, I64_MAX; cbn; lia | exact P2 |
       unfold I64_MIN, I64_MAX; cbn; lia | apply utc_text_plain | exact P3]. }
  assert (Hok : head_valid h).
  { split_and!; [by apply plain_wf | | done]. apply norm_ok_snoc; [exact Hn | done]. }
  split; [done |]. apply head_reads_back; [done |].
  etransitivity; [apply line_length; [done | apply Hok] |]. rewrite head_dict_display.
  unfold head_fields, h. cbn [hd_ledger_id hd_sequence hd_entry_sha256 hd_size hd_updated_at hd_sha256 app fields map size].
  cbn [fst snd]. unfold vstr. cbn [size list_sum fold_right]. rewrite L4.
  repeat match goal with |- context [length (str ?s)] =>
    let n := eval vm_compute in (length (str s)) in change (length (str s)) with n end.
  cbn -[Z.of_nat Z.le Z.add Nat.add]. lia.
Qed.

(** ** The new entry *)

Lemma entry_request_dict e :
  entry_request (entry_dict e) = request_dict {| wr_entry_id := Some e.(en_id); wr_body := e.(en_body) |}.
Proof.
  rewrite entry_dict_display. unfold entry_request, entry_base_fields, body_fields. cbn [map app].
  rewrite !get_display. cbn [String.eqb Ascii.eqb Bool.eqb]. reflexivity.
Qed.

Lemma entry_id_re (request : WriteRequest) v sha :
  identified request.(wr_entry_id) -> sha256_json v = Ok sha ->
  fullmatch ENTRY_ID_RE (request_entry_id request sha) = true.
Proof.
  intros Hid [_ ->]%sha256_json_ok. unfold request_entry_id. destruct (wr_entry_id request); [by apply Hid |].
  apply fullmatch_prefix_hex. split.
  - rewrite length_take, sha256_hex_length. done.
  - apply Forall_take, sha256_hex_hexdig.
Qed.

(** The expiry check as a predicate. *)
Definition expires_later (o : option pystr) (recorded : Z) : Prop :=
  forall s, o = Some s -> exists t, strptime s = Some t /\ recorded < t.

Lemma expires_after_of o field recorded m code :
  expires_later o recorded -> expires_after o field recorded m code = Ok tt.
Proof.
  unfold expires_after. destruct o as [s|]; [|done]. intros H. destruct (H s eq_refl) as (t & Ht & Hlt).
  cbn [parse_utc]. rewrite Ht. by rewrite (proj2 (Z.leb_gt _ _)).
Qed.

Lemma expires_after_ok o field recorded m code :
  expires_after o field recorded m code = Ok tt -> expires_later o recorded.
Proof.
  intros H s ->. cbn [expires_after parse_utc] in H. destruct (strptime s) as [t|]; [|done].
  exists t. split; [done |]. destruct (Z.leb_spec t recorded); [done | lia].
Qed.

Section Appending.
Context `{U : !Unicode, laws : !UnicodeLaws}.

Lemma write_request_ok v r :
  normalize_write_request v = Ok r ->
  normalize_typed_write_request v = Ok r /\ require_public_write_authority r = Ok tt.
Proof.
  unfold normalize_write_request. destruct (normalize_typed_write_request v) as [r'|]; [|done].
  destruct (require_public_write_authority r') as [[]|] eqn:E; [|done]. by intros [= <-].
Qed.

Lemma new_entry_valid h id now r e line ledger_id n prev :
  new_entry h id (utc_text now) r = Ok (e, line) ->
  h.(hd_ledger_id) = ledger_id -> h.(hd_sequence) + 1 = n -> h.(hd_entry_sha256) = prev ->
  good_str ledger_id -> good_str prev -> 1 <= n -> in_clock_range now ->
  request_ok {| wr_entry_id := Some id; wr_body := r.(wr_body) |} -> good_str id ->
  expires_later r.(wr_body).(bo_expires_at) now ->
  zlen line <= MAX_LINE_BYTES ->
  entry_valid ledger_id n prev e /\ line = line_of e /\ e.(en_id) = id /\ e.(en_body) = r.(wr_body) /\
  e.(en_recorded_at) = utc_text now /\ e.(en_sequence) = n.
Proof.
  unfold new_entry. intros H <- <- <- Hg1 Hg2 Hn Hnow [Hw Hr] Hid Hexp Hlen.
  destruct (sha256_json _) as [digest|] eqn:Hd; [|done].
  set (e' := {| en_sha256 := digest |}) in *.
  destruct (canonical_line (VDict (entry_dict e'))) as [l|] eqn:Hc; [|done]. injection H as <- <-.
  apply canonical_line_ok in Hc as [Hnorm ->].
  assert (Hre : fullmatch SHA256_RE digest = true).
  { pose proof (sha256_json_ok _ _ Hd) as [_ ->]. apply sha256_hex_re. }
  assert (Hwe : wf (VDict (entry_dict e'))).
  { rewrite entry_dict_display. apply wf_fields_inv, Forall_app in Hw as [_ Hbody].
    apply wf_fields; [by vm_compute | by vm_compute |]. unfold entry_base_fields.
    apply Forall_app. split; [apply Forall_app; split |].
    - repeat apply List.Forall_cons; try apply List.Forall_nil; cbn [snd];
        [apply wf_str; by apply str_good | apply wf_str; exact Hg1 | apply wf_int | apply wf_str; exact Hg2 |
         apply wf_str; exact Hid | apply wf_str, plain_good, utc_text_plain].
    - exact Hbody.
    - repeat apply List.Forall_cons; [|apply List.Forall_nil]. cbn [snd]. constructor. by apply sha256_good. }
  split; [|done]. split_and!; [done | done | | done].
  apply validate_entry_intro.
  assert (Hget : forall k x, In (k, x) (entry_base_fields e' ++ [("entry_sha256", VStr digest)]) ->
    get (entry_dict e') k = x).
  { intros k x Hin. rewrite entry_dict_display. apply get_fields_elem; [|by apply list_elem_of_In].
    apply (bool_decide_unpack _). by vm_compute. }
  assert (Hbase : forall x, In x (entry_base_fields e') ->
    In x (entry_base_fields e' ++ [("entry_sha256", VStr digest)])) by (intros; apply in_app_iff; by left).
  split; try done; try (apply Hget, Hbase; unfold entry_base_fields; cbn [app In]; tauto).
  - apply forallb_forall. intros [k x] Hin. cbn [fst snd].
    assert (Hin' : In (k, x) (entry_base_fields e')).
    { unfold entry_base_fields. apply in_app_iff. destruct Hin as [<-|Hin]; [left; cbn [In]; tauto | by right]. }
    rewrite (Hget k x) by by apply Hbase. apply py_eq_refl.
    rewrite entry_dict_display in Hwe. apply wf_fields_inv in Hwe. rewrite Forall_forall in Hwe.
    apply (Hwe (k, x)), list_elem_of_In, in_app_iff. by left.
  - exists now. split; [by apply strptime_utc_text | exact Hexp].
Qed.

(** ** The transaction *)

(** The parts of a transaction that are checked on their own. *)
Record transaction_parts (t : Transaction) : Prop := {
  tp_pre : head_valid t.(tx_pre_head);
  tp_post : head_valid t.(tx_post_head);
  tp_size : t.(tx_pre_size) = t.(tx_pre_head).(hd_size);
  tp_request : request_ok t.(tx_request);
  tp_authority : require_public_write_authority t.(tx_request) = Ok tt;
  tp_request_sha : sha256_json (VDict (request_dict t.(tx_request))) = Ok t.(tx_request_sha256);
  tp_entry : entry_valid t.(tx_pre_head).(hd_ledger_id) (t.(tx_pre_head).(hd_sequence) + 1)
    t.(tx_pre_head).(hd_entry_sha256) t.(tx_candidate);
  tp_id : t.(tx_candidate).(en_id) = request_entry_id t.(tx_request) t.(tx_request_sha256);
  tp_body : t.(tx_candidate).(en_body) = t.(tx_request).(wr_body);
  tp_time : str_ltb t.(tx_candidate).(en_recorded_at) t.(tx_pre_head).(hd_updated_at) = false;
  tp_line : t.(tx_line) = line_of t.(tx_candidate);
  tp_line_sha : t.(tx_line_sha256) = sha256_hex t.(tx_line);
  tp_new : new_head t.(tx_pre_head).(hd_ledger_id) t.(tx_candidate).(en_sequence)
    t.(tx_candidate).(en_sha256) (t.(tx_pre_size) + zlen t.(tx_line)) t.(tx_candidate).(en_recorded_at) =
    Ok t.(tx_post_head);
  tp_digest : sha256_json (VDict (fields (transaction_fields t))) = Ok t.(tx_sha256) }.

Lemma transaction_display t :
  transaction_dict t = fields (transaction_fields t ++ [("transaction_sha256", VStr t.(tx_sha256))]).
Proof. apply fields_app. Qed.

Lemma without_transaction_sha t : without "transaction_sha256" (transaction_dict t) = fields (transaction_fields t).
Proof. apply without_snoc. apply (bool_decide_unpack _). by vm_compute. Qed.

Lemma sha256_json_re v h : sha256_json v = Ok h -> fullmatch SHA256_RE h = true.
Proof. intros [_ ->]%sha256_json_ok. apply sha256_hex_re. Qed.

Lemma line_of_good e : norm_ok 0 (VDict (entry_dict e)) = true -> good_str (line_of e).
Proof.
  intros Hn. pose proof (canonical_bytes _ Hn) as H. fold (line_of e) in H.
  induction H as [|c s Hc _ IH]; [done |]. simpl. split; [lia |]. split; [|done].
  intros [? ?]%is_high_range. lia.
Qed.

Lemma transaction_wf t : transaction_parts t -> wf (VDict (transaction_dict t)).
Proof.
  intros T. rewrite transaction_display.
  pose proof (sha256_json_re _ _ (tp_digest _ T)). pose proof (sha256_json_re _ _ (tp_request_sha _ T)).
  wf_display; try apply wf_int; try (apply sha256_good; rewrite ?(tp_line_sha _ T); apply sha256_hex_re || done); try apply T.
  rewrite (tp_line _ T). apply line_of_good, (tp_entry _ T).
Qed.

(** Simple members are the same up to key order. *)
Lemma get_str_sim d e k s : dsim d e -> get d k = VStr s -> get e k = VStr s.
Proof.
  intros H Hk. pose proof (get_sim _ _ k H) as Hs%sim_view. rewrite Hk in Hs. destruct (get e k); try done.
  simpl in Hs. by subst.
Qed.

Lemma get_int_sim d e k z : dsim d e -> get d k = VInt z -> get e k = VInt z.
Proof.
  intros H Hk. pose proof (get_sim _ _ k H) as Hs%sim_view. rewrite Hk in Hs. destruct (get e k); try done.
  simpl in Hs. by subst.
Qed.

Lemma encode_ascii_of v : norm_ok 0 v = true -> encode_ascii (line_of_value v) = Some (line_of_value v).
Proof.
  intros Hn. unfold encode_ascii. assert (forallb (fun c => c <? 128)%N (line_of_value v) = true) as ->; [|done].
  apply forallb_forall. intros c Hc%list_elem_of_In. pose proof (canonical_bytes _ Hn) as H.
  rewrite Forall_forall in H. apply N.ltb_lt, H, Hc.
Qed.

(** The checks on the members of a transaction, each on a similar member. *)
Lemma transaction_members t d :
  transaction_parts t -> sim (VDict (transaction_dict t)) (VDict d) ->
  same_keys d TRANSACTION_KEYS = true /\
  get d "schema_version" = vstr TRANSACTION_SCHEMA /\
  get d "pre_ledger_size_bytes" = VInt t.(tx_pre_size) /\
  get d "normalized_request_sha256" = VStr t.(tx_request_sha256) /\
  get d "candidate_canonical_line" = VStr t.(tx_line) /\
  get d "candidate_line_sha256" = VStr t.(tx_line_sha256) /\
  get d "transaction_sha256" = VStr t.(tx_sha256) /\
  sim (VDict (head_dict t.(tx_pre_head))) (get d "pre_head") /\
  sim (VDict (head_dict t.(tx_post_head))) (get d "post_head") /\
  sim (VDict (request_dict t.(tx_request))) (get d "normalized_request") /\
  sim (VDict (entry_dict t.(tx_candidate))) (get d "candidate_entry").
Proof.
  intros T H. pose proof (sim_dict _ _ H) as Hd.
  assert (Hget : forall k x, In (k, x) (transaction_fields t ++ [("transaction_sha256", VStr t.(tx_sha256))]) ->
    get (transaction_dict t) k = x).
  { intros k x Hin. rewrite transaction_display. apply get_fields_elem; [|by apply list_elem_of_In].
    apply (bool_decide_unpack _). by vm_compute. }
  assert (Hsim : forall k x, In (k, x) (transaction_fields t ++ [("transaction_sha256", VStr t.(tx_sha256))]) ->
    sim x (get d k)).
  { intros k x Hin. rewrite <- (Hget k x Hin). by apply get_sim. }
  split_and!; try (eapply get_str_sim; [exact Hd |]; apply Hget; cbn [app In transaction_fields]; tauto);
    try (apply Hsim; cbn [app In transaction_fields]; tauto).
  - rewrite <- (same_keys_sim _ _ _ Hd). by vm_compute.
  - eapply get_int_sim; [exact Hd |]. apply Hget. cbn [app In transaction_fields]. tauto.
Qed.

Lemma validate_transaction_of t v :
  transaction_parts t -> sim (VDict (transaction_dict t)) v -> validate_transaction v = Ok t.
Proof.
  intros T H. pose proof (sim_view _ _ H) as Hv. destruct v as [| | | | | |d]; try done. clear Hv.
  destruct (transaction_members t d T H) as (Hk & Hsch & Hsize & Hrsha & Hline & Hlsha & Htsha & Hpre & Hpost & Hreq & Hent).
  destruct (tp_pre _ T) as (_ & _ & Vpre). destruct (tp_post _ T) as (_ & _ & Vpost).
  destruct (tp_request _ T) as [Wreq Vreq]. destruct (tp_entry _ T) as (Wen & Nen & Ven & Len).
  pose proof (sha256_json_re _ _ (tp_digest _ T)) as Rt. pose proof (sha256_json_re _ _ (tp_request_sha _ T)) as Rr.
  assert (Hdigest : sha256_json (VDict (without "transaction_sha256" d)) = Ok t.(tx_sha256)).
  { eapply sha256_json_sim; [|exact (tp_digest _ T)]. rewrite <- without_transaction_sha. by apply without_sim. }
  assert (Hnorm : normalize_write_request (get d "normalized_request") = Ok t.(tx_request)).
  { unfold normalize_write_request. rewrite <- (normalize_sim _ _ Hreq), Vreq. by rewrite (tp_authority _ T). }
  destruct (validate_entry_ok _ _ _ _ _ Ven) as (d' & _ & C). destruct (ec_time _ _ _ _ _ C) as (u & Hu & Hexp).
  unfold validate_transaction. cbn [cont_mapping]. rewrite Hk, Hsch. cbn [negb].
  change (py_eq (vstr TRANSACTION_SCHEMA) (vstr TRANSACTION_SCHEMA)) with true. cbn [negb].
  rewrite Htsha. unfold cont_sha256 at 1. rewrite text_of_form_intro, Hdigest, bool_decide_true by done. cbn [negb].
  rewrite (validate_head_sim _ _ _ Hpre Vpre), (validate_head_sim _ _ _ Hpost Vpost), Hsize. cbn [exact_int].
  rewrite (tp_size _ T), bool_decide_true by done. cbn [negb]. rewrite Hnorm. cbn [reraise].
  rewrite (sim_py_eq _ _ Hreq), Hrsha. cbn [negb]. unfold cont_sha256 at 1.
  rewrite text_of_form_intro, (tp_request_sha _ T), bool_decide_true by done. cbn [negb].
  rewrite (validate_entry_sim _ _ _ _ _ _ Hent Ven), !bool_decide_true by apply T. cbn [negb orb parse_utc].
  rewrite Hu, (tp_time _ T).
  rewrite expires_after_of by done. rewrite Hline. cbn [exact_string].
  rewrite (tp_line _ T). change (line_of (tx_candidate t)) with (line_of_value (VDict (entry_dict t.(tx_candidate)))).
  rewrite encode_ascii_of by done. rewrite line_last, bool_decide_true by done.
  rewrite (proj2 (Z.ltb_ge _ _)) by exact Len. cbn [negb orb].
  rewrite canonical_line_of by (by rewrite <- (norm_ok_sim _ _ (proj2 (proj2 Hent)))).
  rewrite <- (dumps_sim _ _ Hent), bool_decide_true by done. cbn [negb].
  rewrite Hlsha, (tp_line_sha _ T). unfold cont_sha256 at 1. rewrite text_of_form_intro by apply sha256_hex_re.
  rewrite (tp_line _ T), bool_decide_true by done. cbn [negb].
  pose proof (tp_new _ T) as Hnew. rewrite (tp_size _ T), (tp_line _ T) in Hnew. unfold line_of in Hnew.
  unfold line_of_value. rewrite Hnew, bool_decide_true by done. cbn [negb].
  f_equal. pose proof (tp_size _ T) as E1. pose proof (tp_line _ T) as E2. pose proof (tp_line_sha _ T) as E3.
  unfold line_of in E2. rewrite E2 in E3.
  clear -E1 E2 E3. destruct t; cbn in E1, E2, E3 |- *. by subst.
Qed.

(** The transaction file reads back. *)
Lemma transaction_reads_back t :
  transaction_parts t -> norm_ok 0 (VDict (transaction_dict t)) = true ->
  zlen (line_of_value (VDict (transaction_dict t))) <= MAX_TRANSACTION_BYTES ->
  transaction_of (line_of_value (VDict (transaction_dict t))) = Ok t.
Proof.
  intros T Hn Hl. pose proof (transaction_wf t T) as Hw. unfold transaction_of, read_regular.
  rewrite (proj2 (Z.ltb_ge _ _)), one_line_of by done. cbn [negb]. unfold line_of_value at 1.
  rewrite parse_canonical by done. rewrite (validate_transaction_of t) by (done || by apply sim_canon).
  rewrite canonical_line_of by done. unfold line_of_value. by rewrite bool_decide_true.
Qed.

(** ** The plan *)

(** What [append_entry] knows when it makes its plan. *)
Record planned (request : value) (now : Z) (raw hraw : bytes) (es : list Entry) (h : Head)
    (t : Transaction) (traw : bytes) : Prop := {
  pl_request : exists normalized sha, normalize_write_request request = Ok normalized /\
    sha256_json (VDict (request_dict normalized)) = Ok sha /\
    timed (due_of normalized.(wr_body).(bo_payload)) /\
    plan_append es h normalized sha now = Ok (Append t traw);
  pl_now : in_clock_range now;
  pl_head : head_of (Some hraw) = Ok h;
  pl_ledger : verify_ledger_snapshot raw h = Ok es }.

(** The checks of a plan that appends. *)
Lemma plan_append_ok es h normalized sha now t traw :
  plan_append es h normalized sha now = Ok (Append t traw) ->
  exists e line post,
    find_entry (request_entry_id normalized sha) es = None /\ zlen es < MAX_ENTRIES /\
    expires_after normalized.(wr_body).(bo_expires_at) "expires_at" now
      "continuity expiry must be in the future" "schema_invalid" = Ok tt /\
    str_ltb (utc_text now) h.(hd_updated_at) = false /\
    validate_supersession normalized.(wr_body) es (superseded_ids es) = Ok tt /\
    new_entry h (request_entry_id normalized sha) (utc_text now) normalized = Ok (e, line) /\
    zlen line <= MAX_LINE_BYTES /\ h.(hd_size) + zlen line <= MAX_LEDGER_BYTES /\
    new_head h.(hd_ledger_id) e.(en_sequence) e.(en_sha256) (h.(hd_size) + zlen line) (utc_text now) = Ok post /\
    new_transaction h normalized sha e line post = Ok t /\
    canonical_line (VDict (transaction_dict t)) = Ok traw /\ zlen traw <= MAX_TRANSACTION_BYTES.
Proof.
  unfold plan_append. intros H. destruct (find_entry _ es) as [x|] eqn:Hf.
  { destruct (entry_matches_request _ _ _) as [[]|]; done. }
  destruct (MAX_ENTRIES <=? zlen es) eqn:Hm; [done |]. apply Z.leb_gt in Hm.
  destruct (expires_after _ _ _ _ _) as [[]|] eqn:He; [|done].
  destruct (str_ltb (utc_text now) _) eqn:Ht; [done |].
  destruct (validate_supersession _ _ _) as [[]|] eqn:Hs; [|done].
  destruct (new_entry _ _ _ _) as [[e line]|] eqn:Hn; [|done].
  destruct (MAX_LINE_BYTES <? zlen line) eqn:Hl; [done |]. apply Z.ltb_ge in Hl.
  destruct (MAX_LEDGER_BYTES <? _) eqn:Hz; [done |]. apply Z.ltb_ge in Hz.
  destruct (new_head _ _ _ _ _) as [post|] eqn:Hp; [|done].
  destruct (new_transaction _ _ _ _ _ _) as [t'|] eqn:Htx; [|done].
  destruct (canonical_line _) as [traw'|] eqn:Hc; [|done].
  destruct (MAX_TRANSACTION_BYTES <? zlen traw') eqn:Hx; [done |]. apply Z.ltb_ge in Hx.
  injection H as <- <-. by exists e, line, post.
Qed.

Lemma new_head_fields ledger_id sequence sha size_ at_ h :
  new_head ledger_id sequence sha size_ at_ = Ok h ->
  h.(hd_ledger_id) = ledger_id /\ h.(hd_sequence) = sequence /\ h.(hd_entry_sha256) = sha /\
  h.(hd_size) = size_ /\ h.(hd_updated_at) = at_.
Proof. unfold new_head. destruct (sha256_json _); [|done]. by intros [= <-]. Qed.

Lemma validate_supersession_perm o es l m :
  l ≡ₚ m -> validate_supersession o es l = validate_supersession o es m.
Proof.
  intros H. unfold validate_supersession. destruct (bo_supersedes o) as [s|]; [|done].
  assert (bool_decide (s ∈ l) = bool_decide (s ∈ m)) as ->; [|done].
  apply bool_decide_ext. by rewrite H.
Qed.

(** The loop admits an entry that passed the checks of the plan. *)
Lemma admit_planned es p h e :
  gathered es p -> (forall x, last es = Some x -> x.(en_recorded_at) = h.(hd_updated_at)) ->
  find_entry e.(en_id) es = None -> zlen es < MAX_ENTRIES ->
  str_ltb e.(en_recorded_at) h.(hd_updated_at) = false ->
  validate_supersession e.(en_body) es (superseded_ids es) = Ok tt ->
  admit_entry e p = Ok (added e p).
Proof.
  intros (He & Hp & Hr & Hsup) Hat Hf Hm Ht Hs. unfold admit_entry. rewrite He, Hf. cbn [is_some].
  rewrite (validate_supersession_perm _ _ _ _ Hsup). change (targets es) with (superseded_ids es). rewrite Hs.
  rewrite (proj2 (Z.ltb_ge _ _)) by lia.
  destruct (last es) as [x|] eqn:Hlast; rewrite Hr; [|done]. by rewrite (Hat x eq_refl), Ht, andb_false_r.
Qed.

Lemma ledger_facts raw hraw es h :
  head_of (Some hraw) = Ok h -> verify_ledger_snapshot raw h = Ok es ->
  head_valid h /\ fullmatch LEDGER_ID_RE h.(hd_ledger_id) = true /\
  fullmatch SHA256_RE h.(hd_entry_sha256) = true /\ 0 <= h.(hd_size) /\
  h.(hd_sequence) = zlen es /\ h.(hd_entry_sha256) = last_sha es /\ zlen raw = h.(hd_size) /\
  raw = concat (map line_of es) /\
  (forall x, last es = Some x -> x.(en_recorded_at) = h.(hd_updated_at)).
Proof.
  intros [_ Hh]%head_of_ok (Hraw & W & Hsize & Hseq & Hsha & Hat & _)%snapshot_ok.
  destruct (validate_head_ok _ _ (proj2 (proj2 Hh))) as (d & _ & _ & _ & _ & _ & _ & _ & _ & _ & _ & H1 & _ & H2 & H3).
  split_and!; try done. apply H2.
Qed.

Lemma new_transaction_ok h r sha e line post t :
  new_transaction h r sha e line post = Ok t ->
  t.(tx_pre_head) = h /\ t.(tx_pre_size) = h.(hd_size) /\ t.(tx_request) = r /\
  t.(tx_request_sha256) = sha /\ t.(tx_candidate) = e /\ t.(tx_line) = line /\
  t.(tx_line_sha256) = sha256_hex line /\ t.(tx_post_head) = post /\
  sha256_json (VDict (fields (transaction_fields t))) = Ok t.(tx_sha256).
Proof.
  unfold new_transaction. cbv zeta. destruct (sha256_json _) as [digest|] eqn:Hd; [|done].
  intros <-%Ok_inj. by split_and!.
Qed.

Lemma planned_entry request now raw hraw es h t traw :
  planned request now raw hraw es h t traw ->
  exists normalized sha post,
    normalize_write_request request = Ok normalized /\
    sha256_json (VDict (request_dict normalized)) = Ok sha /\
    request_ok normalized /\
    entry_valid h.(hd_ledger_id) (zlen es + 1) (last_sha es) t.(tx_candidate) /\
    t.(tx_candidate).(en_id) = request_entry_id normalized sha /\
    t.(tx_candidate).(en_body) = normalized.(wr_body) /\
    t.(tx_candidate).(en_recorded_at) = utc_text now /\
    t.(tx_candidate).(en_sequence) = zlen es + 1 /\
    new_transaction h normalized sha t.(tx_candidate) (line_of t.(tx_candidate)) post = Ok t /\
    new_head h.(hd_ledger_id) (zlen es + 1) t.(tx_candidate).(en_sha256)
      (h.(hd_size) + zlen (line_of t.(tx_candidate))) (utc_text now) = Ok post.
Proof.
  intros [(r & sha & Hr & Hsha & Hdue & Hp) Hnow Hh Hv].
  destruct (plan_append_ok _ _ _ _ _ _ _ Hp) as (e & line & post & Hf & Hm & Hexp & Ht & Hs & Hnew & Hl & Hz & Hpost & Htx & Hc & Hx).
  destruct (ledger_facts _ _ _ _ Hh Hv) as (Hhv & Hid & Hre & Hsz & Hseq & Hlast & Hraw & _ & Hat).
  destruct (write_request_ok _ _ Hr) as [Hnorm Hauth].
  assert (Hids : identified r.(wr_entry_id)) by apply (normalize_wf _ _ None Hnorm ltac:(done)).
  pose proof (expires_after_ok _ _ _ _ _ Hexp) as Hlater.
  assert (Htimed : timed r.(wr_body).(bo_expires_at)).
  { intros s E. destruct (Hlater s E) as (u & Hu & _). eapply normalized_expiry; [exact Hnorm | exact E | exact Hu]. }
  assert (Hidre : fullmatch ENTRY_ID_RE (request_entry_id r sha) = true) by (by eapply entry_id_re).
  assert (Hok : forall i, identified i -> request_ok {| wr_entry_id := i; wr_body := r.(wr_body) |}).
  { intros i Hi. by eapply normalize_again. }
  edestruct (new_entry_valid h _ now r e line h.(hd_ledger_id) (zlen es + 1) (last_sha es) Hnew)
    as (Hval & Hline & Heid & Hbody & Hrec & Hen); try done; try lia.
  - by apply ledger_id_good.
  - rewrite <- Hlast. by apply sha256_good.
  - pose proof (zlen_pos es). lia.
  - apply Hok. by intros s [= <-].
  - by apply entry_id_good.
  - assert (t.(tx_candidate) = e) as ->.
    { by destruct (new_transaction_ok _ _ _ _ _ _ _ Htx) as (_ & _ & _ & _ & -> & _). }
    exists r, sha, post. subst line. rewrite Hen in Hpost.
    split_and!; try done. pose proof (Hok _ Hids) as H. by destruct r.
Qed.

(** The head and the transaction of the plan read back. *)
Lemma planned_reads request now raw hraw es h t traw :
  planned request now raw hraw es h t traw ->
  transaction_of traw = Ok t /\
  head_of (Some (line_of_value (VDict (head_dict t.(tx_post_head))))) = Ok t.(tx_post_head) /\
  canonical_line (VDict (head_dict t.(tx_post_head))) = Ok (line_of_value (VDict (head_dict t.(tx_post_head)))).
Proof.
  intros P. destruct (planned_entry _ _ _ _ _ _ _ _ P) as (r & sha & post & Hr & Hsha & Hok & Hval & Hid & Hbody & Hrec & Hseq & Htx & Hpost).
  destruct P as [(r' & sha' & Hr' & Hsha' & Hdue & Hp) Hnow Hh Hv].
  assert (r' = r) as -> by congruence. assert (sha' = sha) as -> by congruence.
  destruct (plan_append_ok _ _ _ _ _ _ _ Hp) as (e & line & post' & Hf & Hm & Hexp & Ht & Hs & Hnew & Hl & Hz & Hpost' & Htx' & Hc & Hx).
  destruct (ledger_facts _ _ _ _ Hh Hv) as (Hhv & Hlid & Hre & Hsz & Hhseq & Hlast & Hraw & _ & Hat).
  destruct (new_transaction_ok _ _ _ _ _ _ _ Htx) as (E1 & E2 & E3 & E4 & E5 & E6 & E7 & E8 & E9).
  destruct (new_transaction_ok _ _ _ _ _ _ _ Htx') as (_ & _ & _ & _ & E5' & E6' & _ & E8' & _).
  assert (Hlen : h.(hd_size) + zlen (line_of t.(tx_candidate)) <= MAX_LEDGER_BYTES) by (rewrite <- E6, E6'; exact Hz).
  pose proof (zlen_pos es). pose proof (zlen_pos (line_of t.(tx_candidate))).
  assert (Hsha1 : fullmatch SHA256_RE t.(tx_candidate).(en_sha256) = true).
  { destruct (valid_digest _ _ _ _ Hval) as (_ & _ & -> & _). apply sha256_hex_re. }
  destruct (new_head_reads _ _ _ _ _ _ Hpost Hlid) as [Vpost Rpost]; try done; [|lia|].
  { unfold I64_MAX, MAX_ENTRIES in *. lia. }
  destruct (canonical_line_ok _ _ Hc) as [Hn ->].
  rewrite E8. split_and!; [|done | by apply canonical_line_of, Vpost].
  apply transaction_reads_back; [|done | done]. split; rewrite ?E1, ?E2, ?E3, ?E4, ?E8; try done.
  - by destruct (write_request_ok _ _ Hr).
  - by rewrite Hhseq, Hlast.
  - by rewrite Hrec.
  - by rewrite E7, E6.
  - by rewrite Hseq, E6, Hrec.
Qed.

(** A planned append fits its store. *)
Theorem planned_fits request now raw hraw es h t traw :
  planned request now raw hraw es h t traw ->
  fits raw hraw es t traw (line_of_value (VDict (head_dict t.(tx_post_head)))).
Proof.
  intros P. destruct (planned_reads _ _ _ _ _ _ _ _ P) as (Rt & Rh & Rl).
  destruct (planned_entry _ _ _ _ _ _ _ _ P) as (r & sha & post & Hr & Hsha & Hok & Hval & Hid & Hbody & Hrec & Hseq & Htx & Hpost).
  destruct P as [(r' & sha' & Hr' & Hsha' & Hdue & Hp) Hnow Hh Hv].
  assert (r' = r) as -> by congruence. assert (sha' = sha) as -> by congruence.
  destruct (plan_append_ok _ _ _ _ _ _ _ Hp) as (e & line & post' & Hf & Hm & Hexp & Ht & Hs & Hnew & Hl & Hz & Hpost' & Htx' & Hc & Hx).
  destruct (ledger_facts _ _ _ _ Hh Hv) as (Hhv & Hlid & Hre & Hsz & Hhseq & Hlast & Hraw & Hlines & Hat).
  destruct (new_transaction_ok _ _ _ _ _ _ _ Htx) as (E1 & E2 & _ & _ & _ & E6 & _ & E8 & _).
  destruct (new_transaction_ok _ _ _ _ _ _ _ Htx') as (_ & _ & _ & _ & _ & E6' & _).
  destruct (new_head_fields _ _ _ _ _ _ Hpost) as (P1 & P2 & P3 & P4 & P5).
  split; rewrite ?E1, ?E6; try done.
  - rewrite E8. apply (snapshot_extends _ h); [done | done | |].
    + intros p G. apply (admit_planned es p h); [done | done | | done | | by rewrite Hbody].
      * by rewrite Hid.
      * by rewrite Hrec.
    + split_and!; [done | by rewrite zlen_snoc | by unfold last_sha; rewrite last_snoc | |].
      * rewrite P4, <- Hraw, Hlines, map_app, concat_app, zlen_app. cbn [map concat]. by rewrite app_nil_r.
      * intros x Hxl. rewrite last_snoc in Hxl. injection Hxl as <-. by rewrite P5.
  - intros Heq. rewrite E8 in Heq. rewrite <- Heq in P2. lia.
  - rewrite E8, P4, <- E6, E6'. lia.
Qed.
End Appending.
