(* ===== verification/Durability.v ===== *)
(** * What callers of the continuity store can rely on

    [append_entry] either changes nothing or appends exactly one entry to a
    ledger that verifies again ([append_entry_spec]); stopped anywhere, by the
    death of the process or by power failures that also hit recovery,
    [verify_store] finds the ledger before the append or the ledger after it,
    or refuses a torn line and touches nothing ([append_crash_safe]); the same
    request again returns the entry that is there ([append_again]).
    [unsynced_head] shows the one sequence of two faults that recovery does not
    cover. *)

From S2P Require Import Prelude Regex Sha256 PyTime PyUrl PyText Json JsonFacts JsonSize JsonWf JsonSim Encoding ConfigFacts Screening ScreeningFacts Continuity ContinuityFacts Normalised Ledger LedgerFacts Chain ContinuityStore Recovery Append.
Local Open Scope Z_scope.
Local Open Scope io_scope.

Section Durability.
Context `{U : !Unicode, laws : !UnicodeLaws, X : Files}.

(** The due time of a commitment is one that can be read back. *)
Definition due_readable (request : value) : Prop :=
  forall r, normalize_write_request request = Ok r -> timed (due_of r.(wr_body).(bo_payload)).

(** A store at rest whose ledger verifies. *)
Definition sound_store (raw hraw : bytes) (es : list Entry) (h : Head) : Prop :=
  head_of (Some hraw) = Ok h /\ verify_ledger_snapshot raw h = Ok es.

Lemma sound_limit raw hraw es h : sound_store raw hraw es h -> zlen raw <= MAX_LEDGER_BYTES.
Proof.
  intros [[_ Hh]%head_of_ok Hv]. rewrite (snapshot_size _ _ _ Hv).
  by destruct (validate_head_ok _ _ (proj2 (proj2 Hh))) as (? & _ & _ & _ & _ & _ & _ & _ & _ & _ & _ & _ & _ & [_ ?] & _).
Qed.

Lemma finds_rest raw hraw : finds (at_rest raw hraw) raw hraw.
Proof. done. Qed.

Lemma verify_at_rest (P : Store -> Prop) raw hraw es h Q :
  sound_store raw hraw es h -> Q (Ok (es, h)) (at_rest raw hraw) ->
  wp P verify_store (at_rest raw hraw) Q.
Proof.
  intros S HQ. apply wp_locked; [done |]. apply run_bind, recover_nothing; [done |].
  eapply wp_verify_unlocked; [apply finds_rest | apply S | by eapply sound_limit | apply S | done].
Qed.

(** [append_entry] on a store at rest: everything before the plan only reads. *)
Lemma append_at_rest (P : Store -> Prop) request now raw hraw es h (Q : res Entry -> Store -> Prop) :
  sound_store raw hraw es h ->
  (forall err, Q (Raise err) (at_rest raw hraw)) ->
  (forall r sha p, normalize_write_request request = Ok r ->
     sha256_json (VDict (request_dict r)) = Ok sha -> plan_append es h r sha now = Ok p ->
     wp P (match p with Existing e => ret e | Append t traw => run_append t traw end) (at_rest raw hraw) Q) ->
  wp P (append_entry request now) (at_rest raw hraw) Q.
Proof.
  intros S Herr Hp. unfold append_entry. apply run_bind, run_lift.
  destruct (normalize_write_request request) as [r|err] eqn:Hr; [|apply Herr].
  apply run_bind, run_lift. destruct (sha256_json _) as [sha|err] eqn:Hsha; [|apply Herr].
  apply wp_locked; [done |]. apply run_bind, recover_nothing; [done |].
  apply run_bind. eapply wp_verify_unlocked; [apply finds_rest | apply S | by eapply sound_limit | apply S |].
  apply run_bind, run_lift. destruct (plan_append es h r sha now) as [p|err] eqn:Hplan; [|apply Herr].
  by eapply Hp.
Qed.

(** When the plan succeeds the rest of [append_entry] decides. *)
Lemma append_to_plan (P : Store -> Prop) request now raw hraw es h r sha p (Q : res Entry -> Store -> Prop) :
  sound_store raw hraw es h -> normalize_write_request request = Ok r ->
  sha256_json (VDict (request_dict r)) = Ok sha -> plan_append es h r sha now = Ok p ->
  wp P (match p with Existing e => ret e | Append t traw => run_append t traw end) (at_rest raw hraw) Q ->
  wp P (append_entry request now) (at_rest raw hraw) Q.
Proof.
  intros S Hr Hsha Hp HQ. unfold append_entry. apply run_bind, run_lift. rewrite Hr. apply run_bind, run_lift. rewrite Hsha.
  apply wp_locked; [done |]. apply run_bind, recover_nothing; [done |].
  apply run_bind. eapply wp_verify_unlocked; [apply finds_rest | apply S | by eapply sound_limit | apply S |].
  apply run_bind, run_lift. by rewrite Hp.
Qed.

Lemma plan_planned request now raw hraw es h r sha t traw :
  sound_store raw hraw es h -> in_clock_range now -> due_readable request ->
  normalize_write_request request = Ok r -> sha256_json (VDict (request_dict r)) = Ok sha ->
  plan_append es h r sha now = Ok (Append t traw) -> planned request now raw hraw es h t traw.
Proof. intros [Hh Hv] Hnow Hdue Hr Hsha Hp. split; try done. exists r, sha. split_and!; auto. Qed.

(** An entry that is already there was in the ledger. *)
Lemma existing_in es h r sha now e : plan_append es h r sha now = Ok (Existing e) -> e ∈ es.
Proof.
  unfold plan_append. destruct (find_entry _ es) as [x|] eqn:Hf.
  - destruct (entry_matches_request _ _ _) as [[]|]; try done. intros [= <-]. by apply find_entry_some in Hf as [Hf _].
  - intros H. by inv_ok H.
Qed.

(** ** Without interruption *)

(** The three ways [append_entry] can end. *)
Definition append_effect (raw hraw : bytes) (es : list Entry) (now : Z) (request : value)
    (r : res Entry) (s : Store) : Prop :=
  (exists err, r = Raise err /\ s = at_rest raw hraw) \/
  (exists e, r = Ok e /\ e ∈ es /\ s = at_rest raw hraw) \/
  (exists e post hraw', r = Ok e /\ s = at_rest (raw ++ line_of e) hraw' /\
     sound_store (raw ++ line_of e) hraw' (es ++ [e]) post /\
     e.(en_recorded_at) = utc_text now /\
     exists n, normalize_write_request request = Ok n /\ e.(en_body) = n.(wr_body)).

Lemma planned_line request now raw hraw es h t traw :
  planned request now raw hraw es h t traw ->
  t.(tx_line) = line_of t.(tx_candidate) /\ t.(tx_candidate).(en_recorded_at) = utc_text now /\
  exists n, normalize_write_request request = Ok n /\ t.(tx_candidate).(en_body) = n.(wr_body).
Proof.
  intros P. destruct (planned_entry _ _ _ _ _ _ _ _ P) as (r & sha & post & Hr & _ & _ & _ & _ & Hb & Hrec & _ & Htx & _).
  destruct (new_transaction_ok _ _ _ _ _ _ _ Htx) as (_ & _ & _ & _ & _ & E & _). eauto 6.
Qed.

Lemma append_run request now raw hraw es h :
  sound_store raw hraw es h -> in_clock_range now -> due_readable request ->
  wp (fun _ => True) (append_entry request now) (at_rest raw hraw) (append_effect raw hraw es now request).
Proof.
  intros S Hnow Hdue. eapply append_at_rest; [exact S | |].
  - intros err. left. by exists err.
  - intros r sha [e|t traw] Hr Hsha Hp.
    + apply run_ret. right. left. exists e. split_and!; [done | by eapply existing_in | done].
    + pose proof (plan_planned _ _ _ _ _ _ _ _ _ _ S Hnow Hdue Hr Hsha Hp) as P.
      pose proof (planned_fits _ _ _ _ _ _ _ _ P) as F. destruct (planned_line _ _ _ _ _ _ _ _ P) as (Hl & Hrec & Hb).
      eapply wp_weaken; [|eapply run_mono; [exact (run_append_phases _ _ _ _ _ _ F) |]]; [done |].
      intros x s' [-> ->]. right. right. rewrite Hl. eexists _, _, _. split_and!; [done | done | | done | done].
      split; [apply F | rewrite <- Hl; apply F].
Qed.

(** ** The same request again *)

Lemma reconstructed_request r sha e :
  e.(en_id) = request_entry_id r sha -> e.(en_body) = r.(wr_body) ->
  {| wr_entry_id := match r.(wr_entry_id) with None => None | Some _ => Some e.(en_id) end;
     wr_body := e.(en_body) |} = r.
Proof. intros -> ->. by destruct r as [[i|] b]. Qed.

(** The entry written for a request matches it. *)
Lemma entry_matches_own r sha e :
  request_ok r -> require_public_write_authority r = Ok tt ->
  sha256_json (VDict (request_dict r)) = Ok sha ->
  e.(en_id) = request_entry_id r sha -> e.(en_body) = r.(wr_body) ->
  entry_matches_request e r sha = Ok true.
Proof.
  intros [_ Hn] Ha Hsha Hid Hb. unfold entry_matches_request.
  rewrite bool_decide_true by done. cbn [negb]. rewrite (reconstructed_request r sha e) by done.
  unfold normalize_write_request. rewrite Hn, Ha, bool_decide_true by done. rewrite Hsha.
  by rewrite bool_decide_true.
Qed.

Lemma find_entry_snoc es e :
  find_entry e.(en_id) es = None -> find_entry e.(en_id) (es ++ [e]) = Some e.
Proof.
  unfold find_entry. intros Hf. induction es as [|x es IH]; cbn in *; [by rewrite bool_decide_true |].
  destruct (bool_decide _); [done | auto].
Qed.

(** Once planned, the request finds its entry. *)
Lemma plan_again request now raw hraw es h t traw post now' r sha :
  planned request now raw hraw es h t traw ->
  normalize_write_request request = Ok r -> sha256_json (VDict (request_dict r)) = Ok sha ->
  plan_append (es ++ [t.(tx_candidate)]) post r sha now' = Ok (Existing t.(tx_candidate)).
Proof.
  intros P Hr Hsha.
  destruct (planned_entry _ _ _ _ _ _ _ _ P) as (r1 & sha1 & p & Hr1 & Hsha1 & Hok & _ & Hid & Hb & _).
  assert (r1 = r) as -> by congruence. assert (sha1 = sha) as -> by congruence.
  destruct P as [(r2 & sha2 & Hr2 & Hsha2 & _ & Hp) _ _ _].
  assert (r2 = r) as -> by congruence. assert (sha2 = sha) as -> by congruence.
  destruct (plan_append_ok _ _ _ _ _ _ _ Hp) as (_ & _ & _ & Hf & _).
  unfold plan_append. rewrite <- Hid in Hf |- *. rewrite find_entry_snoc by done.
  by rewrite entry_matches_own by (done || by apply write_request_ok in Hr as [_ ?]).
Qed.

(** Whatever [now], an entry that was found is found again. *)
Lemma existing_again es h r sha now e h' now' :
  plan_append es h r sha now = Ok (Existing e) -> plan_append es h' r sha now' = Ok (Existing e).
Proof.
  unfold plan_append. destruct (find_entry _ es) as [x|]; [done |]. intros Hp. by inv_ok Hp.
Qed.

(** After a success the same request plans nothing. *)
Definition settles (request : value) (x : res Entry) (s : Store) : Prop :=
  forall e now', x = Ok e ->
    wp (fun _ => True) (append_entry request now') s (fun y s' => y = Ok e /\ s' = s).

Lemma append_settles request now raw hraw es h :
  sound_store raw hraw es h -> in_clock_range now -> due_readable request ->
  wp (fun _ => True) (append_entry request now) (at_rest raw hraw) (settles request).
Proof.
  intros S Hnow Hdue. eapply append_at_rest; [exact S | done |].
  intros r sha [x|t traw] Hr Hsha Hp.
  - apply run_ret. intros e now' [= ->]. eapply append_to_plan; [exact S | done | done | by eapply existing_again |].
    by apply run_ret.
  - pose proof (plan_planned _ _ _ _ _ _ _ _ _ _ S Hnow Hdue Hr Hsha Hp) as P.
    pose proof (planned_fits _ _ _ _ _ _ _ _ P) as F.
    eapply wp_weaken; [|eapply run_mono; [exact (run_append_phases _ _ _ _ _ _ F) |]]; [done |].
    intros y s' [-> ->] e now' [= <-].
    eapply append_to_plan; [| done | done | by eapply plan_again | by apply run_ret].
    split; apply F.
Qed.
End Durability.



(** ** Interrupted *)

Section Interrupted.
Context `{U : !Unicode, laws : !UnicodeLaws, X : Files}.

(** The stores that may be found after power failures during an append from
    [s0] and during the recoveries that follow. *)
Inductive survived (request : value) (now : Z) (s0 : Store) : Store -> Prop :=
| sv_append x s : x ∈ passed (append_entry request now) s0 -> power_failure x s ->
    survived request now s0 s
| sv_recovery s x s' : survived request now s0 s -> x ∈ passed verify_store s ->
    power_failure x s' -> survived request now s0 s'.

Lemma power_failure_rest raw hraw s : power_failure (at_rest raw hraw) s -> s = at_rest raw hraw.
Proof.
  intros (k & n & c & h & x & i & Hk & Hn & Hc & Hc' & Hh & Hx & Hi & ->). cbn in *.
  apply imports_failure_quiet in Hi as ->.
  assert (c = raw) as -> by (by apply (anti_symm prefix)).
  destruct Hk, Hn, Hh, Hx; by subst.
Qed.

(** Either the append runs a planned transaction, or it leaves the store alone. *)
Lemma append_cases request now raw hraw es h :
  sound_store raw hraw es h -> in_clock_range now -> due_readable request ->
  (exists t traw, planned request now raw hraw es h t traw /\
     forall P Q, wp P (run_append t traw) (at_rest raw hraw) Q ->
                 wp P (append_entry request now) (at_rest raw hraw) Q) \/
  wp (fun x => x = at_rest raw hraw) (append_entry request now) (at_rest raw hraw) (fun _ _ => True).
Proof.
  intros S Hnow Hdue.
  destruct (normalize_write_request request) as [r|err] eqn:Hr.
  2:{ right. eapply append_at_rest; [exact S | done |]. intros. congruence. }
  destruct (sha256_json (VDict (request_dict r))) as [sha|err] eqn:Hsha.
  2:{ right. eapply append_at_rest; [exact S | done |]. intros r' sha' p Hr' Hsha'. congruence. }
  destruct (plan_append es h r sha now) as [[e|t traw]|err] eqn:Hp.
  - right. eapply append_at_rest; [exact S | done |]. intros r' sha' p Hr' Hsha' Hp'.
    assert (p = Existing e) as -> by congruence. by apply run_ret.
  - left. exists t, traw. split; [by eapply plan_planned |]. intros P Q H.
    by eapply (append_to_plan P _ _ _ _ _ _ _ _ (Append t traw)).
  - right. eapply append_at_rest; [exact S | done |]. intros r' sha' p Hr' Hsha' Hp'. congruence.
Qed.

Lemma untouched request now raw hraw es h s :
  sound_store raw hraw es h ->
  wp (fun x => x = at_rest raw hraw) (append_entry request now) (at_rest raw hraw) (fun _ _ => True) ->
  s ∈ passed (append_entry request now) (at_rest raw hraw) \/ survived request now (at_rest raw hraw) s ->
  s = at_rest raw hraw.
Proof.
  intros S W Hs.
  assert (Happ : forall x, x ∈ passed (append_entry request now) (at_rest raw hraw) -> x = at_rest raw hraw).
  { intros x Hx. by apply (wp_passed (fun x => x = at_rest raw hraw) _ _ _ x ltac:(done) W). }
  destruct Hs as [Hs|Hs]; [by apply Happ |]. induction Hs as [x s Hx Hp|s x s' _ IH Hx Hp].
  - rewrite (Happ x Hx) in Hp. by apply power_failure_rest.
  - rewrite IH in Hx.
    assert (Hw : wp (fun x => x = at_rest raw hraw) verify_store (at_rest raw hraw) (fun _ _ => True))
      by (by eapply verify_at_rest).
    rewrite (wp_passed (fun x => x = at_rest raw hraw) _ _ _ x eq_refl Hw Hx) in Hp.
    by apply power_failure_rest.
Qed.

Lemma survived_image request now raw hraw es h t traw s :
  planned request now raw hraw es h t traw ->
  (forall P Q, wp P (run_append t traw) (at_rest raw hraw) Q ->
               wp P (append_entry request now) (at_rest raw hraw) Q) ->
  let hraw' := line_of_value (VDict (head_dict t.(tx_post_head))) in
  (s ∈ passed (append_entry request now) (at_rest raw hraw) -> phase raw hraw t traw hraw' s) /\
  (survived request now (at_rest raw hraw) s -> image raw hraw t traw hraw' s).
Proof.
  intros P Hrun hraw'. pose proof (planned_fits _ _ _ _ _ _ _ _ P) as F. fold hraw' in F.
  assert (Happ : forall x, x ∈ passed (append_entry request now) (at_rest raw hraw) -> phase raw hraw t traw hraw' x).
  { intros x. eapply wp_passed; [|apply Hrun, (run_append_phases _ _ _ _ _ _ F)].
    apply (ph_intent _ _ _ _ _ (same None)). split; by left. }
  split; [apply Happ |]. induction 1 as [x s Hx Hp|s x s' _ IH Hx Hp].
  - eapply phase_image; [by apply Happ | exact Hp].
  - eapply phase_image; [|exact Hp].
    eapply (wp_passed _ verify_store s); [by apply image_phase | | exact Hx].
    apply (verify_store_phase _ _ es _ _ _ F); [by apply image_phase | done | by left].
Qed.
End Interrupted.

