(* ===== verification/Initialisation.v ===== *)
(** * Initialising a continuity store

    [initialize_store] of ContinuityStore.v makes an empty store in three
    durable steps: the lock, the ledger, the head.  [starting] describes every
    store on the way and every store a power failure leaves of one; from each of
    them the same call ends with an empty store at rest
    ([initialize_crash_safe]). *)

From S2P Require Import Prelude Regex Sha256 PyTime PyUrl PyText Json JsonFacts JsonSize JsonWf JsonSim Encoding Screening Continuity ContinuityFacts Ledger LedgerFacts Chain ContinuityStore Recovery Append.
Local Open Scope Z_scope.
Local Open Scope io_scope.

#[local] Opaque canonical_line head_dict verify_ledger_snapshot transaction_of head_of zlen.

Section Initialisation.
Context `{U : !Unicode, X : Files}.

(** The identifier a caller asks for: none, or one of the right form. *)
Definition wanted (v : value) (o : option pystr) : Prop :=
  optional v (fun v => exact_string v "ledger_id") = Ok o /\
  forall s, o = Some s -> fullmatch LEDGER_ID_RE s = true.

(** The head of an empty ledger under that identifier. *)
Definition empty_head (o : option pystr) (hraw : bytes) (h : Head) : Prop :=
  head_of (Some hraw) = Ok h /\ closes h h.(hd_ledger_id) [] /\
  forall s, o = Some s -> h.(hd_ledger_id) = s.

(** The stores on the way: nothing written but an empty ledger, and its head
    only once the ledger's name is durable. *)
Record starting (o : option pystr) (s : Store) : Prop := {
  st_ledger : s.(ledger) = same [];
  st_transaction : s.(transaction) = same None;
  st_imports : s.(imports) = quiet;
  st_head : forall hraw, survives (Some hraw) s.(head) ->
    s.(ledger_name) = same true /\ exists h, empty_head o hraw h }.

Lemma starting_power_failure o s s' : starting o s -> power_failure s s' -> starting o s'.
Proof.
  intros [Hl Ht Hi Hh] (k & n & c & h & x & i & Hk & Hn & Hc & Hc' & Hsh & Hx & Himp & ->).
  rewrite Hi in Himp. apply imports_failure_quiet in Himp as ->.
  rewrite Hl in Hc, Hc'. rewrite Ht in Hx. cbn in *.
  assert (c = []) as -> by (by apply (anti_symm prefix)).
  split; cbn; [done | by destruct Hx; subst | done |].
  intros hraw E. assert (h = Some hraw) as -> by (by destruct E).
  destruct (Hh hraw Hsh) as [Hname E']. split; [|done].
  rewrite Hname in Hn. by destruct Hn; subst.
Qed.

Lemma starting_nothing o k n :
  starting o {| lock_name := k; ledger_name := n; ledger := same []; head := same None; transaction := same None; imports := quiet |}.
Proof. split; try done. intros hraw [|]; done. Qed.

Lemma starting_head o hraw h x :
  empty_head o hraw h -> x = Slot (Some hraw) None \/ x = same (Some hraw) ->
  starting o (store_of (same []) x (same None)).
Proof.
  intros E Hx. split; [done | done | done |]. intros hraw' Hs. split; [done |]. exists h.
  assert (hraw' = hraw) as -> by (destruct Hx as [-> | ->]; destruct Hs as [Hs|Hs]; cbn in Hs; congruence).
  done.
Qed.

(** The head of an empty ledger is made and reads back. *)
Lemma new_empty_head o id now :
  fullmatch LEDGER_ID_RE id = true -> in_clock_range now -> (forall s, o = Some s -> id = s) ->
  exists h, new_head id 0 ZERO_HASH 0 (utc_text now) = Ok h /\
    canonical_line (VDict (head_dict h)) = Ok (line_of_value (VDict (head_dict h))) /\
    empty_head o (line_of_value (VDict (head_dict h))) h.
Proof.
  intros Hid Hnow Ho.
  destruct (new_head id 0 ZERO_HASH 0 (utc_text now)) as [h|e] eqn:Hh.
  2:{ unfold new_head, sha256_json in Hh. rewrite canonical_of in Hh by done. done. }
  destruct (new_head_reads _ _ _ _ _ _ Hh Hid) as [Hv Hr]; try done.
  exists h. split; [done |]. split; [by apply canonical_line_of, Hv |].
  destruct (new_head_fields _ _ _ _ _ _ Hh) as (F1 & F2 & F3 & F4 & F5).
  split_and!; [done | by split_and! | by rewrite F1].
Qed.

Lemma empty_verifies h : closes h h.(hd_ledger_id) [] -> verify_ledger_snapshot [] h = Ok [].
Proof.
  intros Hc. by apply (snapshot_of_lines h h.(hd_ledger_id) [] start (well_chained_nil _)).
Qed.

Definition initialised (o : option pystr) (r : res Head) (s : Store) : Prop :=
  exists h hraw, r = Ok h /\ s = at_rest [] hraw /\ empty_head o hraw h.

Lemma wp_write_new_head o id now :
  fullmatch LEDGER_ID_RE id = true -> in_clock_range now -> (forall s, o = Some s -> id = s) ->
  wp (starting o) (write_new_head id (utc_text now)) (store_of (same []) (same None) (same None))
    (initialised o).
Proof.
  intros Hid Hnow Ho. destruct (new_empty_head o id now Hid Hnow Ho) as (h & Hh & Hc & E).
  unfold write_new_head. apply run_bind, run_lift. rewrite Hh. apply run_bind, run_lift. rewrite Hc.
  apply run_bind, run_bind, wp_mutate; [|apply wp_mutate].
  - by eapply starting_head; [exact E | left].
  - by eapply starting_head; [exact E | right].
  - apply run_ret. by exists h, (line_of_value (VDict (head_dict h))).
Qed.

(** The identifier that is chosen. *)
Definition selected (o : option pystr) (fresh : pystr) : pystr :=
  match o with Some ((_ :: _) as r) => r | _ => str "jlcl-" ++ fresh end.

Lemma selected_ok v o fresh :
  wanted v o -> fullmatch LEDGER_ID_RE (str "jlcl-" ++ fresh) = true ->
  fullmatch LEDGER_ID_RE (selected o fresh) = true /\ forall s, o = Some s -> selected o fresh = s.
Proof.
  intros [_ Ho] Hf. destruct o as [[|c s]|]; [|by split; [apply Ho | intros ? [= <-]]|done].
  exfalso. specialize (Ho [] eq_refl). done.
Qed.

(** Whatever the start, the lock is there and all names are synced. *)
Lemma wp_lock_name o (m : io Head) s Q :
  starting o s ->
  (forall n h, h = None \/ n = true /\ starting o (store_of (same []) (same h) (same None)) ->
     wp (starting o) m {| lock_name := same true; ledger_name := same n; ledger := same [];
                          head := same h; transaction := same None; imports := quiet |} Q) ->
  wp (starting o)
    (let! present := look (fun s => s.(lock_name).(seen)) in
     let! _ := (if present then ret tt
                else mutate (fun s => set_lock_name (now_seen true s.(lock_name)) s)) in
     let! _ := fsync_directory in m) s Q.
Proof.
  intros [Hl Ht Hi Hh] Hm. destruct s as [[ks kk] [ns nk] l [hs hk] t i]. cbn in Hl, Ht, Hi, Hh. subst l t i.
  apply run_bind, wp_look. cbn.
  assert (Hsync : forall k, starting o
      {| lock_name := k; ledger_name := same ns; ledger := same []; head := same hs; transaction := same None; imports := quiet |}).
  { intros k. split; try done. intros hraw E. assert (hs = Some hraw) as -> by (by destruct E).
    destruct (Hh hraw (or_introl eq_refl)) as [Hn E']. injection Hn as -> ->. done. }
  assert (Hrest : forall k, k = Slot true kk ->
      wp (starting o) (let! _ := fsync_directory in m)
        {| lock_name := k; ledger_name := Slot ns nk; ledger := same []; head := Slot hs hk; transaction := same None; imports := quiet |} Q).
  { intros k ->. apply run_bind, wp_mutate; [apply Hsync |]. apply Hm.
    destruct hs as [hraw|]; [right | by left].
    destruct (Hh hraw (or_introl eq_refl)) as [Hn E]. split; [by injection Hn |].
    split; try done. intros x Hx. split; [done |].
    assert (hraw = x) as <- by (destruct Hx; cbn in *; congruence). done. }
  destruct ks; apply run_bind; [by apply run_ret, Hrest |].
  apply wp_mutate; [|by apply Hrest]. split; done.
Qed.

Lemma wp_initialize v o now fresh s :
  wanted v o -> in_clock_range now -> fullmatch LEDGER_ID_RE (str "jlcl-" ++ fresh) = true ->
  starting o s -> wp (starting o) (initialize_store v now fresh) s (initialised o).
Proof.
  intros Hv Hnow Hf Hs. destruct (selected_ok _ _ _ Hv Hf) as [Hid Hsel]. destruct Hv as [Hv Ho].
  unfold initialize_store. cbv zeta. apply run_bind, run_lift. rewrite Hv.
  assert (match o with Some s => fullmatch LEDGER_ID_RE s | None => true end = true) as ->
    by (destruct o; [by apply Ho | done]).
  apply wp_lock_name; [done |]. intros n h Hn.
  apply wp_locked; [done |]. apply run_bind, wp_look. cbn.
  fold (selected o fresh).
  destruct h as [hraw|].
  - destruct Hn as [|[-> Hn]]; [done |]. cbn.
    destruct (st_head _ _ Hn hraw (or_introl eq_refl)) as (_ & h & Hh & Hc & Hid').
    apply run_bind, recover_nothing; [done |]. apply run_bind.
    eapply wp_verify_unlocked; [by unfold finds; split_and! | exact Hh | done | exact (empty_verifies h Hc) |].
    assert (match o with Some r => bool_decide (h.(hd_ledger_id) = r) | None => true end = true) as ->
      by (destruct o; [by apply bool_decide_eq_true, Hid' | done]).
    apply run_ret. by exists h, hraw.
  - destruct n; cbn.
    + apply run_bind, run_bind, wp_look, run_lift. cbn. by apply wp_write_new_head.
    + apply run_bind, run_bind, wp_mutate; [apply starting_nothing |].
      apply wp_mutate; [apply starting_nothing |]. by apply wp_write_new_head.
Qed.

(** The stores that may be found when initialisation is stopped, by the death
    of the process or by a power failure, any number of times, each time the
    caller (here with any time and any fresh identifier) starts over. *)
Inductive cut_short (v : value) (s0 : Store) : Store -> Prop :=
| cs_begin : cut_short v s0 s0
| cs_killed s now fresh x : cut_short v s0 s -> in_clock_range now ->
    fullmatch LEDGER_ID_RE (str "jlcl-" ++ fresh) = true ->
    x ∈ passed (initialize_store v now fresh) s -> cut_short v s0 x
| cs_power s s' : cut_short v s0 s -> power_failure s s' -> cut_short v s0 s'.

Lemma cut_short_starting v o s0 s : wanted v o -> starting o s0 -> cut_short v s0 s -> starting o s.
Proof.
  intros Hv H0. induction 1 as [|s now fresh x _ IH Hnow Hf Hx|s s' _ IH Hp]; [done | |].
  - eapply (wp_passed (starting o)); [exact IH | by eapply wp_initialize | exact Hx].
  - by eapply starting_power_failure.
Qed.

(** A directory with nothing in it. *)
Definition empty_store : Store :=
  {| lock_name := same false; ledger_name := same false; ledger := same []; head := same None;
     transaction := same None; imports := quiet |}.
End Initialisation.

(** C26: [initialize_store] on an empty directory is restartable.  However often
    it is killed or the power fails, the next call that runs to its end returns
    a head and leaves a store at rest, everything durable, that [verify_store]
    accepts with no entries under that head, and under the identifier the
    caller asked for. *)
Theorem initialize_crash_safe `{U : !Unicode, X : Files} v o s now fresh :
  optional v (fun v => exact_string v "ledger_id") = Ok o ->
  (forall i, o = Some i -> fullmatch LEDGER_ID_RE i = true) ->
  in_clock_range now -> fullmatch LEDGER_ID_RE (str "jlcl-" ++ fresh) = true ->
  cut_short v empty_store s ->
  exists h hraw, result (initialize_store v now fresh) s = Ok h /\
    final (initialize_store v now fresh) s = at_rest [] hraw /\
    result verify_store (at_rest [] hraw) = Ok ([], h) /\
    forall i, o = Some i -> h.(hd_ledger_id) = i.
Proof.
  intros Hv Ho Hnow Hf Hs.
  assert (S : starting o s) by (by eapply cut_short_starting; [split | apply starting_nothing |]).
  destruct (wp_initialize v o now fresh s (conj Hv Ho) Hnow Hf S) as [_ (h & hraw & Hr & Hfin & Hh & Hc & Hid)].
  exists h, hraw. split_and!; [done | done | | done].
  assert (W : wp (fun _ => True) verify_store (at_rest [] hraw) (fun r _ => r = Ok ([], h))).
  { apply wp_locked; [done |]. apply run_bind, recover_nothing; [done |].
    eapply wp_verify_unlocked; [by unfold finds; split_and! | exact Hh | by vm_compute | by apply empty_verifies | done]. }
  apply W.
Qed.
