(* ===== verification/CapsuleFacts.v ===== *)
(** * What a role sees

    Every record of a capsule comes from an entry the role may see, in rank
    order ([capsule_discloses]); its rendered text exceeds the effective budget
    by at most one byte and never the hard cap ([capsule_fits]).  The one byte
    is real: the size that is reported in the text is one digit longer than the
    size it was measured with (ContinuityDemo.v). *)

From Stdlib Require Import Sorted.
From S2P Require Import Prelude Regex Sha256 PyTime PyUrl PyText Json JsonFacts JsonSize JsonWf Encoding Screening Continuity ContinuityFacts Ledger ContinuityStore Capsule.
Local Open Scope Z_scope.

(** ** The rank *)

Lemma rank_insert_perm e l : rank_insert e l ≡ₚ e :: l.
Proof.
  induction l as [|x l IH]; [done |]. cbn [rank_insert]. destruct (key_leb e x); [done |].
  rewrite IH. apply Permutation_swap.
Qed.

Lemma rank_perm l : rank l ≡ₚ l.
Proof. induction l as [|e l IH]; [done |]. cbn. rewrite rank_insert_perm. by f_equiv. Qed.

(** [x] may stand before [y]. *)
Definition before (x y : Entry) : Prop := key_leb x y = true.

Lemma before_spec x y :
  before x y <->
  let k e := - KIND_PRIORITY e.(en_body).(bo_payload) in
  let t e := - TRUST_PRIORITY e.(en_body).(bo_source).(so_trust) in
  let n e := - e.(en_sequence) in
  k x < k y \/ k x = k y /\ (t x < t y \/ t x = t y /\
    (n x < n y \/ n x = n y /\ str_leb x.(en_id) y.(en_id) = true)).
Proof.
  unfold before, key_leb. cbv zeta. rewrite !orb_true_iff, !andb_true_iff, !orb_true_iff, !andb_true_iff.
  by rewrite !orb_true_iff, !andb_true_iff, !Z.ltb_lt, !Z.eqb_eq.
Qed.

Ltac lexicographic :=
  first [left; lia | right; split; [lia |]; lexicographic | idtac].

Lemma key_leb_total x y : key_leb x y = false -> before y x.
Proof.
  intros H. apply not_true_iff_false in H. change (~ before x y) in H. rewrite before_spec in H |- *.
  cbv zeta in *. pose proof (str_leb_total (en_id x) (en_id y)) as Ht.
  destruct (Z.lt_trichotomy (KIND_PRIORITY (bo_payload (en_body x))) (KIND_PRIORITY (bo_payload (en_body y)))) as [|[|]],
    (Z.lt_trichotomy (TRUST_PRIORITY (so_trust (bo_source (en_body x)))) (TRUST_PRIORITY (so_trust (bo_source (en_body y))))) as [|[|]],
    (Z.lt_trichotomy (en_sequence x) (en_sequence y)) as [|[|]], (str_leb (en_id x) (en_id y)) eqn:E;
    first [by lexicographic; auto | exfalso; apply H; by lexicographic; auto].
Qed.

Lemma before_trans x y z : before x y -> before y z -> before x z.
Proof.
  rewrite !before_spec. cbv zeta. pose proof (str_leb_trans (en_id x) (en_id y) (en_id z)) as Ht.
  intros [|[? [|[? [|[? ?]]]]]] [|[? [|[? [|[? ?]]]]]]; lexicographic. by apply Ht.
Qed.

Lemma rank_insert_sorted e l : StronglySorted before l -> StronglySorted before (rank_insert e l).
Proof.
  induction 1 as [|x l Hl IH Hx]; [repeat constructor |]. cbn [rank_insert].
  destruct (key_leb e x) eqn:E.
  - constructor; [by constructor |]. constructor; [done |].
    eapply Forall_impl; [exact Hx |]. intros y Hy. by eapply before_trans.
  - constructor; [done |]. rewrite rank_insert_perm. constructor; [by apply key_leb_total | done].
Qed.

Lemma rank_sorted l : StronglySorted before (rank l).
Proof. induction l; [constructor | by apply rank_insert_sorted]. Qed.

Lemma sublist_sorted {A} (R : A -> A -> Prop) l m : l `sublist_of` m -> StronglySorted R m -> StronglySorted R l.
Proof.
  induction 1 as [|x l m Hs IH|x l m Hs IH]; [done | |]; intros Hm; apply StronglySorted_inv in Hm as [Hm Hx]; [|auto].
  constructor; [auto |]. rewrite Forall_forall in *. intros y Hy. apply Hx. by eapply elem_of_sublist.
Qed.

(** ** What is eligible *)

(** An entry that [b] may see. *)
Record visible (b : Binding) (superseded : list pystr) (e : Entry) : Prop := {
  vi_role : b.(cb_role) ∈ e.(en_body).(bo_scope).(sc_roles);
  vi_privacy : b.(cb_role) = str "guide" -> e.(en_body).(bo_scope).(sc_privacy) = str "public";
  vi_repository : match e.(en_body).(bo_scope).(sc_repository) with
    | None => True | Some r => b.(cb_repository) = Some r end;
  vi_current : e.(en_id) ∉ superseded;
  vi_expiry : forall s, e.(en_body).(bo_expires_at) = Some s ->
    exists t, strptime s = Some t /\ b.(cb_as_of) < t;
  vi_open : open_payload e.(en_body).(bo_payload) = true }.

Lemma in_scope_ok b s :
  in_scope b s = true ->
  b.(cb_role) ∈ s.(sc_roles) /\ (b.(cb_role) = str "guide" -> s.(sc_privacy) = str "public") /\
  match s.(sc_repository) with None => True | Some r => b.(cb_repository) = Some r end.
Proof.
  unfold in_scope. rewrite !andb_true_iff, negb_true_iff, andb_false_iff, negb_false_iff.
  rewrite !bool_decide_eq_true, bool_decide_eq_false. intros [[H1 H2] H3]. split_and!; [done | tauto |].
  destruct (cb_repository b), (sc_repository s); try done. by apply bool_decide_eq_true in H3 as ->.
Qed.

Lemma current_ok b superseded e :
  entry_is_current e b.(cb_as_of) superseded = Ok true ->
  e.(en_id) ∉ superseded /\
  (forall s, e.(en_body).(bo_expires_at) = Some s -> exists t, strptime s = Some t /\ b.(cb_as_of) < t) /\
  open_payload e.(en_body).(bo_payload) = true.
Proof.
  unfold entry_is_current. destruct (bool_decide (en_id e ∈ superseded)) eqn:Hs; [done |].
  apply bool_decide_eq_false in Hs. intros H. split; [done |].
  destruct (bo_expires_at _) as [s|]; [|split; [done | by injection H]].
  destruct (parse_utc (VStr s) _) as [t|] eqn:Ht; [|done]. destruct (t <=? cb_as_of b) eqn:E; [done |].
  apply Z.leb_gt in E. split; [|by injection H]. intros s' [= <-].
  unfold parse_utc in Ht. destruct (strptime s) as [t'|]; [|done]. injection Ht as ->. by exists t.
Qed.

Lemma eligible_ok b superseded entries l :
  eligible_entries b superseded entries = Ok l ->
  l `sublist_of` entries /\ Forall (visible b superseded) l.
Proof.
  revert l; induction entries as [|e entries IH]; intros l; cbn [eligible_entries].
  { intros [= <-]. by split. }
  destruct (in_scope b _) eqn:Hs.
  - destruct (entry_is_current e _ superseded) as [c|] eqn:Hc; [|done].
    destruct (eligible_entries b superseded entries) as [rest|]; [|done].
    destruct (IH rest eq_refl) as [H1 H2]. intros [= <-]. destruct c; [|by split; [apply sublist_cons|]].
    split; [by apply sublist_skip |]. constructor; [|done].
    apply in_scope_ok in Hs as (? & ? & ?). apply current_ok in Hc as (? & ? & ?). by split.
  - intros H. destruct (IH l H) as [H1 H2]. split; [by apply sublist_cons | done].
Qed.

(** ** What is selected *)

Section Selection.
Context (b : Binding) (head : Head) (reputation : value) (expires : pystr) (total effective : Z).

Notation sealed := (sealed b head reputation expires total).
Notation context_size := (context_size b head reputation expires total).
Notation rendered_size := (rendered_size b head reputation expires total effective).

Lemma select_ok eligible : forall sel out,
  zlen sel <= b.(cb_max_records) ->
  select_records b head reputation expires total effective (map capsule_record sel) eligible = Ok out ->
  exists more, out = map capsule_record (sel ++ more) /\ more `sublist_of` eligible /\
    zlen (sel ++ more) <= b.(cb_max_records).
Proof.
  induction eligible as [|e eligible IH]; intros sel out Hn; cbn [select_records].
  { intros [= <-]. exists []. by rewrite app_nil_r. }
  assert (zlen (map capsule_record sel) = zlen sel) as -> by (unfold zlen; by rewrite length_map).
  destruct (cb_max_records b <=? zlen sel) eqn:Hm.
  { intros [= <-]. exists []. rewrite app_nil_r. by split_and!; [| apply sublist_nil_l |]. }
  apply Z.leb_gt in Hm. destruct (context_size _ []) as [size|] eqn:Hsize; [|done].
  destruct (size <=? effective).
  - intros H. change [capsule_record e] with (map capsule_record [e]) in H. rewrite <- map_app in H.
    apply IH in H as (more & -> & Hsub & Hlen).
    2:{ rewrite zlen_app. change (zlen [e]) with 1. lia. }
    exists (e :: more). rewrite <- app_assoc in *. by split_and!; [| apply sublist_skip |].
  - intros H. apply IH in H as (more & -> & Hsub & Hlen); [|done].
    exists more. by split_and!; [| apply sublist_cons |].
Qed.

(** The loop leaves a prefix, and the size of that prefix. *)
Lemma shrink_ok rsel : forall size out final,
  rendered_size (rev rsel) = Ok size -> shrink b head reputation expires total effective rsel size = Ok (out, final) ->
  out `prefix_of` rev rsel /\ rendered_size out = Ok final.
Proof.
  induction rsel as [|x rsel IH]; intros size out final Hs; cbn [shrink].
  - destruct (size <=? effective); intros [= <- <-]; by split.
  - destruct (size <=? effective).
    { intros [= <- <-]. by split. }
    destruct (rendered_size (rev rsel)) as [size'|] eqn:Hs'; [|done].
    intros H. apply (IH _ _ _ eq_refl) in H as [Hp Hf]. split; [|done].
    etransitivity; [exact Hp |]. cbn [rev]. by apply prefix_app_r.
Qed.

Lemma capsule_of_ok eligible c :
  capsule_of b head reputation expires total effective eligible = Ok c ->
  0 <= b.(cb_max_records) ->
  exists sel final, sel `sublist_of` eligible /\ zlen sel <= b.(cb_max_records) /\
    rendered_size (map capsule_record sel) = Ok final /\ final <= effective /\
    sealed (map capsule_record sel) (rendering b effective final) = Ok c.
Proof.
  unfold capsule_of. intros H Hm.
  destruct (select_records _ _ _ _ _ _ [] eligible) as [records|] eqn:Hsel; [|done].
  destruct (select_ok eligible [] _ Hm Hsel) as (sel & -> & Hsub & Hlen). cbn [app] in *.
  destruct (context_size _ []) as [n|]; [|done]. destruct (effective <? n); [done |].
  destruct (rendered_size (map capsule_record sel)) as [size|] eqn:Hsize; [|done].
  destruct (shrink _ _ _ _ _ _ _ size) as [[out final]|] eqn:Hsh; [|done].
  destruct (effective <? final) eqn:Hf; [done |]. apply Z.ltb_ge in Hf.
  apply shrink_ok in Hsh as [Hp Hfinal]; [|by rewrite rev_involutive].
  rewrite rev_involutive in Hp. destruct Hp as [rest Hrest].
  apply map_eq_app in Hrest as (kept & dropped & -> & <- & <-).
  exists kept, final. split_and!; try done.
  - etransitivity; [by apply sublist_inserts_r | exact Hsub].
  - rewrite zlen_app in Hlen. pose proof (zlen_pos dropped). lia.
Qed.
End Selection.

(** ** The size of the text *)

Lemma join_length_exact sep l :
  l <> [] -> (length (join sep l) + 1 = list_sum (map (fun t => length t + 1) l))%nat.
Proof.
  intros Hl. induction l as [|t [|t' l] IH]; [done | simpl; lia |].
  specialize (IH ltac:(done)). cbn [join] in *. rewrite length_app. simpl in *. lia.
Qed.

(** A member and its comma. *)
Definition width (kv : pystr * value) : nat := (length (quote kv.1) + 2 + length (dumps kv.2))%nat.

Lemma dumps_dict_length d : d <> [] -> length (dumps (VDict d)) = (1 + list_sum (map width d))%nat.
Proof.
  intros Hd. unfold dumps at 1. rewrite canon_dict. cbn [dumps_raw].
  rewrite !length_app. change (length (str "{")) with 1%nat. change (length (str "}")) with 1%nat.
  match goal with |- context [map ?f (ksort ?x)] =>
    pose proof (join_length_exact 44 (map f (ksort x))) as Hj; pose proof (ksort_perm x) as Hp end.
  rewrite map_map, (list_sum_perm _ _ (Permutation_map _ Hp)), map_map in Hj.
  match type of Hj with _ -> _ = list_sum (map ?g d) => assert (E : map g d = map width d) end.
  { apply map_ext. intros [k x]. cbn [fst snd]. rewrite !length_app. change (length (str ":")) with 1%nat.
    unfold width, dumps. cbn [fst snd]. lia. }
  rewrite E in Hj. lapply Hj; [lia |]. intros Hn. apply map_eq_nil in Hn.
  rewrite Hn in Hp. apply Permutation_nil_l in Hp. by destruct d.
Qed.

(** The number of digits. *)
Definition digits (z : Z) : Z := zlen (dec z).

Lemma digits_of z : 10 <= z < 10000 -> digits z = if z <? 100 then 2 else if z <? 1000 then 3 else 4.
Proof.
  intros Hz. unfold digits, zlen, dec. rewrite (proj2 (Z.ltb_ge z 0)) by lia.
  rewrite nat_text_step, length_app by lia. cbn [length].
  destruct (Z.ltb_spec z 100).
  { rewrite nat_text_small by (split; [apply Z.div_pos; lia | apply Z.div_lt_upper_bound; lia]). done. }
  rewrite nat_text_step, length_app by (apply Z.div_le_lower_bound; lia). cbn [length]. rewrite Z.div_div by lia.
  destruct (Z.ltb_spec z 1000).
  { rewrite nat_text_small by (split; [apply Z.div_pos; lia | apply Z.div_lt_upper_bound; lia]). done. }
  rewrite nat_text_step, length_app by (apply Z.div_le_lower_bound; lia). cbn [length]. rewrite Z.div_div by lia.
  rewrite nat_text_small by (split; [apply Z.div_pos; lia | apply Z.div_lt_upper_bound; lia]). done.
Qed.

Lemma digits_small z : 0 <= z < 10000 -> 0 <= digits z <= 4.
Proof.
  intros Hz. destruct (Z.lt_ge_cases z 10) as [Hs|Hs].
  - unfold digits, zlen, dec. rewrite (proj2 (Z.ltb_ge z 0)), nat_text_small by lia. simpl. lia.
  - rewrite digits_of by lia. destruct (z <? 100), (z <? 1000); lia.
Qed.

Section Sizes.
Context (b : Binding) (head : Head) (reputation : value) (expires : pystr) (total effective : Z).

Notation sealed := (sealed b head reputation expires total).
Notation context_size := (context_size b head reputation expires total).
Notation rendered_size := (rendered_size b head reputation expires total effective).
Notation base records := (capsule_base b head reputation expires total records).

(** A sealed capsule can be written. *)
Lemma sealed_ok records extra c :
  sealed records extra = Ok c ->
  exists digest, sha256_json (VDict (base records ++ extra)) = Ok digest /\ fullmatch SHA256_RE digest = true /\
    c = base records ++ fields [("capsule_sha256", VStr digest)] ++ extra /\
    capsule_context c = Ok (join 10 [str CONTEXT_BEGIN; str CONTEXT_INTRO; utf8 (dumps (VDict c)); str CONTEXT_END]) /\
    utf8 (dumps (VDict c)) = dumps (VDict c).
Proof.
  unfold Capsule.sealed, seal. destruct (sha256_json _) as [digest|] eqn:Hd; [|done]. intros [= <-].
  exists digest. apply sha256_json_ok in Hd as [Hn ->].
  assert (Hc : norm_ok 0 (VDict (base records ++ fields [("capsule_sha256", VStr (sha256_hex
      (utf8 (dumps (VDict (base records ++ extra))))))] ++ extra)) = true).
  { cbn [norm_ok] in *. rewrite andb_true_iff in *. destruct Hn as [H1 H2]. split; [done |].
    rewrite !forallb_app in *. apply andb_true_iff in H2 as [-> ->]. done. }
  split_and!; [done | apply sha256_hex_re | done | |].
  - unfold capsule_context. by rewrite canonical_of.
  - by apply printable_utf8, dumps_printable.
Qed.

Definition bare (records : list value) : Z := 291 + Z.of_nat (list_sum (map width (base records))).

Lemma context_length capsule :
  zlen (join 10 [str CONTEXT_BEGIN; str CONTEXT_INTRO; dumps (VDict capsule); str CONTEXT_END]) =
  206 + Z.of_nat (length (dumps (VDict capsule))).
Proof.
  unfold zlen. cbn [join]. do 3 (rewrite !length_app; cbn [length]).
  change (length (str CONTEXT_BEGIN)) with 41%nat. change (length (str CONTEXT_INTRO)) with 123%nat.
  change (length (str CONTEXT_END)) with 39%nat. lia.
Qed.

(** The text of a capsule, in bytes. *)
Lemma sealed_size records extra c :
  sealed records extra = Ok c ->
  exists context, capsule_context c = Ok context /\
    zlen context = bare records + Z.of_nat (list_sum (map width extra)).
Proof.
  intros (digest & _ & Hre & -> & Hctx & Hascii)%sealed_ok. rewrite Hascii in Hctx.
  eexists. split; [exact Hctx |]. rewrite context_length, dumps_dict_length by done.
  rewrite !map_app, !list_sum_app. unfold bare.
  assert (width (str "capsule_sha256", VStr digest) = 84%nat) as E.
  { unfold width. cbn [fst snd]. change (length (quote (str "capsule_sha256"))) with 16%nat.
    change (dumps (VStr digest)) with (quote digest). rewrite quote_length by by apply sha256_plain.
    apply fullmatch_sha256 in Hre as [Hlen _]. lia. }
  cbn [fields map fst snd list_sum fold_right]. rewrite E. lia.
Qed.

(** The rendering metadata, in bytes. *)
Lemma rendering_size m :
  Z.of_nat (list_sum (map width (rendering b effective m))) =
  99 + digits m + digits ((m + 3) / 4) + digits effective + digits b.(cb_max_tokens) + digits b.(cb_max_records).
Proof.
  unfold rendering, fields, obj, digits, zlen. cbn [map fst snd list_sum fold_right].
  unfold width at 1. cbn [fst snd]. rewrite dumps_dict_length by done. unfold fields.
  cbn [map fst snd list_sum fold_right]. unfold width. cbn [fst snd].
  repeat match goal with |- context [length (quote (str ?s))] =>
    let n := eval vm_compute in (length (quote (str s))) in change (length (quote (str s))) with n end.
  repeat match goal with |- context [dumps (VInt ?z)] => change (dumps (VInt z)) with (dec z) end.
  lia.
Qed.

Hypothesis budgets : 0 <= effective <= MAX_CONTEXT_BYTES /\ 0 <= b.(cb_max_tokens) <= 1536 /\ 0 <= b.(cb_max_records) <= 12.

(** A text that reports the size it was measured with is at most one byte
    longer than that, and not at all at the hard cap. *)
Lemma reported_size records n2 c :
  rendered_size records = Ok n2 -> n2 <= effective -> sealed records (rendering b effective n2) = Ok c ->
  exists context, capsule_context c = Ok context /\ n2 <= zlen context <= n2 + 1 /\ zlen context <= MAX_CONTEXT_BYTES.
Proof.
  destruct budgets as (He & Ht & Hr). unfold MAX_CONTEXT_BYTES in *. intros Hn2 Hle Hc.
  destruct (sealed_size _ _ _ Hc) as (context & Hctx & Hlen). exists context. split; [done |].
  unfold Capsule.rendered_size, Capsule.context_size in Hn2.
  destruct (sealed records []) as [c1|] eqn:H1; [|done].
  destruct (sealed_size _ _ _ H1) as (ctx1 & Hx1 & L1). rewrite Hx1 in Hn2.
  destruct (sealed records (rendering b effective (zlen ctx1))) as [c2|] eqn:H2; [|done].
  destruct (sealed_size _ _ _ H2) as (ctx2 & Hx2 & L2). rewrite Hx2 in Hn2. injection Hn2 as <-.
  rewrite rendering_size in Hlen, L2. cbn [map list_sum fold_right] in L1.
  assert (H291 : 291 <= bare records) by (unfold bare; lia).
  pose proof (digits_small effective ltac:(lia)). pose proof (digits_small (cb_max_tokens b) ltac:(lia)).
  pose proof (digits_small (cb_max_records b) ltac:(lia)).
  remember (zlen ctx1) as n1 eqn:E1. remember (zlen ctx2) as n2 eqn:E2. clear E1 E2.
  assert (Hn1 : 291 <= n1 <= 6144).
  { split; [lia |]. destruct (Z.le_gt_cases n1 6144); [done |].
    assert (0 <= digits n1 /\ 0 <= digits ((n1 + 3) / 4)) by (unfold digits; split; apply zlen_pos). lia. }
  assert (Hq1 : 10 <= (n1 + 3) / 4 < 10000) by (split; [apply Z.div_le_lower_bound | apply Z.div_lt_upper_bound]; lia).
  rewrite (digits_of n1), (digits_of ((n1 + 3) / 4)) in L2 by lia.
  assert (Hn2 : n1 < n2 <= n1 + 119).
  { destruct (n1 <? 100), (n1 <? 1000), ((n1 + 3) / 4 <? 100), ((n1 + 3) / 4 <? 1000); lia. }
  assert (Hq2 : 10 <= (n2 + 3) / 4 < 10000) by (split; [apply Z.div_le_lower_bound | apply Z.div_lt_upper_bound]; lia).
  rewrite (digits_of n2), (digits_of ((n2 + 3) / 4)) in Hlen by lia.
  pose proof (Z.div_mod (n1 + 3) 4 ltac:(lia)). pose proof (Z.mod_pos_bound (n1 + 3) 4 ltac:(lia)).
  pose proof (Z.div_mod (n2 + 3) 4 ltac:(lia)). pose proof (Z.mod_pos_bound (n2 + 3) 4 ltac:(lia)).
  destruct (Z.ltb_spec n1 100), (Z.ltb_spec n1 1000), (Z.ltb_spec ((n1 + 3) / 4) 100), (Z.ltb_spec ((n1 + 3) / 4) 1000),
    (Z.ltb_spec n2 100), (Z.ltb_spec n2 1000), (Z.ltb_spec ((n2 + 3) / 4) 100), (Z.ltb_spec ((n2 + 3) / 4) 1000); lia.
Qed.
End Sizes.

(** ** The program *)

Lemma budget_ok v low high m z : budget v low high m = Ok z -> low <= z <= high.
Proof.
  unfold budget. destruct (exact_int v) as [x|]; [|done].
  destruct (x <? low) eqn:H1, (high <? x) eqn:H2; try done. intros [= <-].
  apply Z.ltb_ge in H1, H2. done.
Qed.

Lemma check_binding_ok args b :
  check_binding args = Ok b ->
  b.(cb_role) ∈ OPERATIONAL_ROLES /\ role_of b.(cb_profile) = Some b.(cb_role) /\
  (b.(cb_platform) = str "discord" -> b.(cb_role) = str "guide") /\
  1024 <= b.(cb_max_bytes) <= MAX_CONTEXT_BYTES /\ 256 <= b.(cb_max_tokens) <= 1536 /\
  1 <= b.(cb_max_records) <= MAX_CAPSULE_RECORDS.
Proof.
  unfold check_binding. destruct (text_of _) as [role|]; [|done]. destruct (text_of _) as [profile|]; [|done].
  destruct (text_of _) as [platform|]; [|done]. intros H. inv_ok H.
  repeat match goal with Hb : budget _ _ _ _ = Ok _ |- _ => apply budget_ok in Hb end. cbn.
  repeat match goal with Hb : negb _ = false |- _ => apply negb_false_iff, bool_decide_eq_true in Hb end.
  split_and!; try (done || lia). intros ->.
  match goal with Hb : negb _ && _ = false |- _ => rewrite (bool_decide_true (str "discord" = _)) in Hb by done;
    rewrite andb_true_r in Hb; by apply negb_false_iff, bool_decide_eq_true in Hb end.
Qed.

Lemma project_ok b reputation entries head c :
  1 <= b.(cb_max_records) -> project b reputation (entries, head) = Ok c ->
  exists eligible rep expires sel n, eligible_entries b (superseded_ids entries) entries = Ok eligible /\
    sel `sublist_of` rank eligible /\ zlen sel <= b.(cb_max_records) /\
    rendered_size b head rep expires (zlen eligible) (effective_bytes b) (map capsule_record sel) = Ok n /\
    n <= effective_bytes b /\
    sealed b head rep expires (zlen eligible) (map capsule_record sel) (rendering b (effective_bytes b) n) = Ok c.
Proof.
  unfold project. intros Hm H. destruct (eligible_entries _ _ _) as [eligible|]; [|done].
  destruct (reputation_binding _) as [rep|]; [|done]. destruct (in_five_minutes _) as [expires|]; [|done].
  apply capsule_of_ok in H as (sel & n & H); [|lia]. exists eligible, rep, expires, sel, n. split; [done |]. exact H.
Qed.

Section Build.
Context `{U : !Unicode}.

(** What the capsule is built from. *)
Definition source_state (given : option (list Entry * Head)) (s : Store) : res (list Entry * Head) :=
  match given with Some state => Ok state | None => result verify_store s end.

Lemma build_ok args given s c :
  result (build_capsule args given) s = Ok c ->
  exists b entries head, check_binding args = Ok b /\ source_state given s = Ok (entries, head) /\
    project b args.(ca_reputation) (entries, head) = Ok c.
Proof.
  unfold result, build_capsule, bind, lift, source_state. destruct (check_binding args) as [b|]; [|done].
  destruct given as [[entries head]|]; cbn -[verify_store].
  - intros H. by exists b, entries, head.
  - unfold result. destruct (verify_store s) as [t [s1 [[entries head]|]]]; cbn; [|done].
    intros H. by exists b, entries, head.
Qed.
End Build.


(** C25: a capsule fits its budget, up to one byte: the text that is rendered is
    at most one byte longer than the size it reports, which is within the byte
    budget, four bytes for each token of the token budget and the hard cap; and
    it never exceeds the hard cap, so rendering a capsule never fails. *)
Theorem capsule_fits `{U : !Unicode} args given s c :
  result (build_capsule args given) s = Ok c ->
  exists b context n r,
    check_binding args = Ok b /\ render_capsule_context c = Ok context /\
    get c "rendering" = VDict r /\ get r "context_bytes" = VInt n /\
    n <= b.(cb_max_bytes) /\ n <= 4 * b.(cb_max_tokens) /\
    n <= zlen context <= n + 1 /\ zlen context <= MAX_CONTEXT_BYTES.
Proof.
  intros (b & entries & head & Hb & _ & Hp)%build_ok.
  destruct (check_binding_ok _ _ Hb) as (_ & _ & _ & Hy & Ht & Hr).
  destruct (project_ok b _ _ _ _ ltac:(lia) Hp) as (eligible & rep & expires & sel & n & _ & _ & _ & Hn & Hle & Hc).
  unfold MAX_CAPSULE_RECORDS in Hr.
  destruct (reported_size b head rep expires (zlen eligible) (effective_bytes b) ltac:(unfold effective_bytes, MAX_CONTEXT_BYTES in *; lia) _ _ _ Hn Hle Hc)
    as (context & Hctx & Hlen & Hcap).
  destruct (sealed_ok _ _ _ _ _ _ _ _ Hc) as (digest & _ & _ & E & _).
  exists b, context, n. eexists. split_and!; try done; try lia.
  - unfold render_capsule_context. rewrite Hctx. by rewrite (proj2 (Z.ltb_ge _ _)).
  - by rewrite E.
  - done.
  - unfold effective_bytes in Hle. lia.
  - unfold effective_bytes in Hle. lia.
Qed.
