(* ===== verification/ContinuityDemo.v ===== *)
(** * A concrete continuity store

    A store initialised with the constant identifier below and the writes of
    an automation: the witnesses of Chain.v and Durability.v, and two concrete
    failures.  A commitment whose due time lies before the year 1000 is
    accepted and leaves a store that never verifies again
    ([early_due_bricks]); a kill between the rename of the head and the sync
    of the directory, followed by a power failure in the middle of the
    recovery, can leave a ledger without its head ([unsynced_head]).  What Guide
    sees of the store: the witnesses of CapsuleFacts.v, and a capsule whose text
    is one byte longer than its byte budget ([one_byte_over]). *)

From Stdlib Require Import Sorted.
From S2P Require Import Prelude Regex Sha256 PyTime PyUrl PyText Json JsonFacts Encoding Screening ScreeningFacts Continuity ContinuityFacts Normalised Ledger LedgerFacts Chain ContinuityStore Recovery Append Durability Initialisation Capsule CapsuleFacts.
Local Open Scope Z_scope.

(** ** Text that is already normalised *)

#[local] Instance plain_unicode : Unicode := {
  nfkc s := s;
  word_char c := ((48 <=? c) && (c <=? 57) || (65 <=? c) && (c <=? 90) ||
                  (97 <=? c) && (c <=? 122) || (c =? 95))%N }.

#[local] Instance plain_laws : UnicodeLaws.
Proof. by split. Qed.

(** The importer was never used. *)
#[local] Instance no_files : Files := { fi_name := false; fi_journal := []; fi_head := None }.

(** ** Requests *)

Definition automation : value := VDict (fields
  [("kind", vstr "automation"); ("trust", vstr "product_observed"); ("actor", vstr "patrol-agent");
   ("locator", vstr "patrol-run-42"); ("sha256", VStr (replicate 64 97%N))]).

Definition guide_scope : value := VDict (fields
  [("privacy", vstr "public"); ("visible_to_roles", VList [vstr "guide"]); ("repository", VNone)]).

Definition commitment (summary : string) (due : value) : value := VDict (fields
  [("schema_version", vstr WRITE_SCHEMA); ("kind", vstr "commitment"); ("subject", vstr "weekly triage");
   ("summary", vstr summary);
   ("payload", VDict (fields [("state", vstr "open"); ("due_at", due)]));
   ("source", automation); ("scope", guide_scope)]).

Definition triage : value := commitment "Triage the open issues every week" (vstr "2025-07-01T00:00:00Z").

(** The same in the year 999. *)
Definition early : value := commitment "Triage the open issues every week" (vstr "0999-01-01T00:00:00Z").

Definition T1 : Z := 1750000000.

(** ** The store *)

Definition fresh_id : pystr := str "0123456789abcdef01234567".

Definition demo_head : Head :=
  Eval vm_compute in
    match result (initialize_store VNone T1 fresh_id) empty_store with
    | Ok h => h
    | Raise _ => {| hd_ledger_id := []; hd_sequence := 0; hd_entry_sha256 := []; hd_size := 0;
                    hd_updated_at := []; hd_sha256 := [] |}
    end.

Definition head_raw : bytes := Eval vm_compute in line_of_value (VDict (head_dict demo_head)).

Example initialize_crash_safe_witness :
  exists h hraw, result (initialize_store VNone (T1 + 1) fresh_id) (at_rest [] head_raw) = Ok h /\
    final (initialize_store VNone (T1 + 1) fresh_id) (at_rest [] head_raw) = at_rest [] hraw /\
    result verify_store (at_rest [] hraw) = Ok ([], h) /\
    forall i, None = Some i -> h.(hd_ledger_id) = i.
Proof.
  apply (initialize_crash_safe VNone None).
  - reflexivity.
  - discriminate.
  - unfold in_clock_range, T1. lia.
  - vm_compute. reflexivity.
  - apply (cs_killed _ _ empty_store T1 fresh_id); [apply cs_begin | unfold in_clock_range, T1; lia | vm_compute; reflexivity |].
    refine (bool_decide_eq_true_1 _ _). vm_compute. reflexivity.
Defined.

(** One entry is there. *)
Definition demo_entry : Entry :=
  Eval vm_compute in
    match result (append_entry triage (T1 + 5)) (at_rest [] head_raw) with
    | Ok e => e
    | Raise _ => {| en_ledger_id := []; en_sequence := 0; en_previous := []; en_id := []; en_recorded_at := [];
                    en_body := {| bo_subject := []; bo_summary := []; bo_payload := Decision [];
                      bo_source := {| so_kind := []; so_trust := []; so_actor := []; so_locator := []; so_sha256 := [] |};
                      bo_scope := {| sc_privacy := []; sc_roles := []; sc_repository := None |};
                      bo_expires_at := None; bo_supersedes := None |}; en_sha256 := [] |}
    end.

Definition one_raw : bytes := Eval vm_compute in line_of demo_entry.
Definition one_head : Head :=
  Eval vm_compute in
    match result verify_store (final (append_entry triage (T1 + 5)) (at_rest [] head_raw)) with
    | Ok (_, h) => h | Raise _ => demo_head end.

Lemma demo_reads : head_of (Some head_raw) = Ok demo_head.
Proof. vm_compute. reflexivity. Qed.

Lemma demo_verifies : verify_ledger_snapshot [] demo_head = Ok [].
Proof. vm_compute. reflexivity. Qed.

Lemma one_verifies : verify_ledger_snapshot one_raw one_head = Ok [demo_entry].
Proof. vm_compute. reflexivity. Qed.

Lemma demo_time n : 0 <= n <= 1000 -> in_clock_range (T1 + n).
Proof. unfold in_clock_range, T1. lia. Qed.

Lemma triage_due : due_readable triage.
Proof.
  intros r Hr. vm_compute in Hr. injection Hr as <-. intros s [= <-].
  exists (T1 + 1328000). vm_compute. by split.
Qed.

Example snapshot_accepts_witness :
  one_raw = concat (map line_of [demo_entry]) /\ well_chained one_head.(hd_ledger_id) [demo_entry] /\
  closes one_head one_head.(hd_ledger_id) [demo_entry].
Proof. apply snapshot_accepts. vm_compute. reflexivity. Defined.




(** The stores an append passes through. *)
Definition append_steps : list Store := passed (append_entry triage (T1 + 5)) (at_rest [] head_raw).

Definition pending : bytes :=
  Eval vm_compute in default [] (List.nth 1 append_steps (at_rest [] head_raw)).(transaction).(seen).

(** The power fails before the line is synced, and ten of its bytes are kept. *)
Definition torn_store : Store :=
  store_of (same (take 10 one_raw)) (same (Some head_raw)) (same (Some pending)).

Lemma torn_survives : survived triage (T1 + 5) (at_rest [] head_raw) torn_store.
Proof.
  apply (sv_append _ _ _ (store_of (Slot (take 10 one_raw) []) (same (Some head_raw)) (same (Some pending)))).
  - refine (bool_decide_eq_true_1 _ _). vm_compute. reflexivity.
  - exists true, true, (take 10 one_raw), (Some head_raw), (Some pending), quiet.
    split_and!; try (by left); [apply prefix_nil | reflexivity | apply quiet_failure | reflexivity].
Qed.


(** ** What goes wrong *)

(** A due time before the year 1000 is accepted, and written without its
    leading zeros: the call succeeds, and the ledger never verifies again. *)
Theorem early_due_bricks :
  exists e, result (append_entry early (T1 + 5)) (at_rest [] head_raw) = Ok e /\
    let s := final (append_entry early (T1 + 5)) (at_rest [] head_raw) in
    result verify_store s =
      Raise (ContinuityError "schema_invalid" "payload.due_at must use UTC second precision") /\
    final verify_store s = s.
Proof. eexists. split; [vm_compute; reflexivity |]. split; vm_compute; reflexivity. Qed.

(** The process dies when the new head is renamed and not yet synced; recovery
    removes the transaction; the power fails before it syncs the directory, and
    of the two renames only the removal is kept: the ledger has an entry that
    its head does not count, and nothing tells how to go on. *)
Theorem unsynced_head :
  exists s x s',
    s ∈ append_steps /\ x ∈ passed verify_store s /\ power_failure x s' /\
    s' = store_of (same one_raw) (same (Some head_raw)) (same None) /\
    result verify_store s' = Raise (ContinuityError "store_ambiguous"
      "continuity ledger size does not match its durable head") /\
    final verify_store s' = s'.
Proof.
  exists (store_of (same one_raw) (Slot (Some (line_of_value (VDict (head_dict one_head)))) (Some head_raw))
            (same (Some pending))),
         (store_of (same one_raw) (Slot (Some (line_of_value (VDict (head_dict one_head)))) (Some head_raw))
            (Slot None (Some pending))),
         (store_of (same one_raw) (same (Some head_raw)) (same None)).
  split_and!.
  - refine (bool_decide_eq_true_1 _ _). vm_compute. reflexivity.
  - refine (bool_decide_eq_true_1 _ _). vm_compute. reflexivity.
  - exists true, true, one_raw, (Some head_raw), None, quiet.
    split_and!; try done; [by left.. | by right | by left | apply quiet_failure].
  - done.
  - vm_compute. reflexivity.
  - vm_compute. reflexivity.
Qed.

(** ** A capsule *)

Definition persona : dict := fields [("version", vstr "john-lomein.persona.v1"); ("sha256", VStr (replicate 64 98%N))].

(** What Guide asks for; [n]: the length of the repository's name, [bytes]: the budget. *)
Definition guide_args (n : nat) (bytes : Z) : CapsuleArgs := {|
  ca_role := vstr "guide"; ca_profile := vstr "john-lomein-guide"; ca_platform := vstr "discord";
  ca_persona := persona; ca_repository := VStr (str "o/" ++ replicate n 114%N); ca_reputation := None;
  ca_now := T1 + 60; ca_max_bytes := VInt bytes; ca_max_tokens := VInt 900; ca_max_records := VInt 12 |}.

Definition guide_capsule : dict := Eval vm_compute in
  match result (build_capsule (guide_args 5 4096) None) (at_rest one_raw (line_of_value (VDict (head_dict one_head)))) with
  | Ok c => c | Raise _ => [] end.

Lemma guide_built :
  result (build_capsule (guide_args 5 4096) None) (at_rest one_raw (line_of_value (VDict (head_dict one_head)))) =
    Ok guide_capsule.
Proof. vm_compute. reflexivity. Qed.

(** The entry of the store is in the capsule. *)
Example guide_sees : get guide_capsule "records" = VList [capsule_record demo_entry].
Proof. vm_compute. reflexivity. Qed.


Example capsule_fits_witness :
  exists b context n r,
    check_binding (guide_args 5 4096) = Ok b /\ render_capsule_context guide_capsule = Ok context /\
    get guide_capsule "rendering" = VDict r /\ get r "context_bytes" = VInt n /\
    n <= b.(cb_max_bytes) /\ n <= 4 * b.(cb_max_tokens) /\
    n <= zlen context <= n + 1 /\ zlen context <= MAX_CONTEXT_BYTES.
Proof.
  apply (capsule_fits (guide_args 5 4096) None (at_rest one_raw (line_of_value (VDict (head_dict one_head))))), guide_built.
Defined.

(** The budget is 1024 bytes, and so is the size the capsule reports; its text
    has 1025. *)
Example one_byte_over :
  exists c context, result (build_capsule (guide_args 81 1024) (Some ([], demo_head))) (at_rest [] head_raw) = Ok c /\
    capsule_context c = Ok context /\ zlen context = 1025.
Proof. do 2 eexists. split; [vm_compute; reflexivity |]. split; [vm_compute; reflexivity | reflexivity]. Qed.
