(* ===== verification/Ed25519.v ===== *)
(** * Strict Ed25519 encodings

    scripts/john_lomein_continuity_protocol.py checks keys and signatures itself
    before the library sees them: the field and the curve of RFC 8032, complete
    addition in extended coordinates, scalar multiplication, canonical decoding
    of a point ([decode_point]) and membership of the prime-order subgroup
    ([prime_order_point]).  What decoding accepts is a point of the curve in its
    one encoding ([decode_point_sound]), and addition stays on the curve
    ([add_on_curve]). *)

From Stdlib Require Import Zdiv Zpow_facts.
From S2P Require Import Prelude Regex Sha256 Json Encoding.
Local Open Scope Z_scope.

(** ** Numbers *)

(** [pow(b, e, m)] for a positive exponent: square and multiply. *)
Fixpoint pow_mod_pos (b : Z) (e : positive) (m : Z) : Z :=
  match e with
  | xH => b mod m
  | xO e' => let r := pow_mod_pos b e' m in (r * r) mod m
  | xI e' => let r := pow_mod_pos b e' m in ((r * r) mod m * b) mod m
  end.
Definition pow_mod (b e m : Z) : Z :=
  match e with Zpos e' => pow_mod_pos b e' m | _ => 1 mod m end.

(** [int.from_bytes(b, "little")] *)
Definition from_little (b : bytes) : Z := fold_right (fun x n => Z.of_N x + 256 * n) 0 b.

Definition FIELD_PRIME : Z := 2 ^ 255 - 19.
Definition ED25519_D : Z := Eval vm_compute in (-121665 * pow_mod 121666 (FIELD_PRIME - 2) FIELD_PRIME) mod FIELD_PRIME.
Definition SQRT_M1 : Z := Eval vm_compute in pow_mod 2 ((FIELD_PRIME - 1) / 4) FIELD_PRIME.
Definition SUBGROUP_ORDER : positive := Eval vm_compute in (2 ^ 252 + 27742317777372353535851937790883648493)%positive.

(** ** Points *)

Definition point : Type := Z * Z * Z * Z.
Definition IDENTITY : point := (0, 1, 1, 0).

(** [_ed25519_add] *)
Definition ed25519_add (first second : point) : point :=
  let '(x1, y1, z1, t1) := first in
  let '(x2, y2, z2, t2) := second in
  let a := ((y1 - x1) * (y2 - x2)) mod FIELD_PRIME in
  let b := ((y1 + x1) * (y2 + x2)) mod FIELD_PRIME in
  let c := (2 * ED25519_D * t1 * t2) mod FIELD_PRIME in
  let d := (2 * z1 * z2) mod FIELD_PRIME in
  let e := (b - a) mod FIELD_PRIME in
  let f := (d - c) mod FIELD_PRIME in
  let g := (d + c) mod FIELD_PRIME in
  let h := (b + a) mod FIELD_PRIME in
  ((e * f) mod FIELD_PRIME, (g * h) mod FIELD_PRIME, (f * g) mod FIELD_PRIME, (e * h) mod FIELD_PRIME).

(** [_ed25519_scalar_multiply] of a positive scalar, bit by bit. *)
Fixpoint multiply_loop (remaining : positive) (result addend : point) : point :=
  match remaining with
  | xH => ed25519_add result addend
  | xO remaining' => multiply_loop remaining' result (ed25519_add addend addend)
  | xI remaining' => multiply_loop remaining' (ed25519_add result addend) (ed25519_add addend addend)
  end.
Definition scalar_multiply (scalar : positive) (p : point) : point := multiply_loop scalar IDENTITY p.

Definition is_identity (p : point) : bool :=
  let '(x, y, z, _) := p in
  (x mod FIELD_PRIME =? 0) && ((y - z) mod FIELD_PRIME =? 0) && negb (z mod FIELD_PRIME =? 0).

(** [power]: the built-in [pow]; [multiply]: [_ed25519_scalar_multiply].  Both
    are fixed below; Ed25519Facts.v evaluates the same code with faster ones. *)
Section Decoding.
Context (power : Z -> Z -> Z -> Z) (multiply : positive -> point -> point).

(** The square root of [x_squared], if [SQRT_M1] helps. *)
Definition recover_x_with (x_squared : Z) : option Z :=
  let x := power x_squared ((FIELD_PRIME + 3) / 8) FIELD_PRIME in
  let x := if (x * x - x_squared) mod FIELD_PRIME =? 0 then x else (x * SQRT_M1) mod FIELD_PRIME in
  if (x * x - x_squared) mod FIELD_PRIME =? 0 then Some x else None.

(** [_ed25519_decode_point(encoded)]; [None]: it raises the error it was given. *)
Definition decode_point_with (encoded : bytes) : option point :=
  if negb (zlen encoded =? 32) then None
  else
    let encoded_integer := from_little encoded in
    let x_sign := Z.shiftr encoded_integer 255 in
    let y := Z.land encoded_integer (2 ^ 255 - 1) in
    if FIELD_PRIME <=? y then None
    else
      let y_squared := (y * y) mod FIELD_PRIME in
      let numerator := (y_squared - 1) mod FIELD_PRIME in
      let denominator := (ED25519_D * y_squared + 1) mod FIELD_PRIME in
      if denominator =? 0 then None
      else
        let x_squared := (numerator * power denominator (FIELD_PRIME - 2) FIELD_PRIME) mod FIELD_PRIME in
        match recover_x_with x_squared with
        | None => None
        | Some x =>
            if (x =? 0) && (x_sign =? 1) then None
            else
              let x := if Z.land x 1 =? x_sign then x else FIELD_PRIME - x in
              if (- x * x + y_squared - 1 - ED25519_D * x * x * y_squared) mod FIELD_PRIME =? 0
              then Some (x, y, 1, (x * y) mod FIELD_PRIME)
              else None
        end.

(** [_validate_ed25519_prime_order_point] does not raise. *)
Definition prime_order_with (encoded : bytes) : bool :=
  match decode_point_with encoded with
  | None => false
  | Some p => negb (is_identity p) && is_identity (multiply SUBGROUP_ORDER p)
  end.
End Decoding.

Definition recover_x : Z -> option Z := recover_x_with pow_mod.
Definition decode_point : bytes -> option point := decode_point_with pow_mod.
Definition prime_order_point : bytes -> bool := prime_order_with pow_mod scalar_multiply.

(** [_validate_ed25519_signature_encoding] does not raise. *)
Definition signature_encoding (prime_order : bytes -> bool) (signature : bytes) : bool :=
  (zlen signature =? 64) && prime_order (take 32 signature) &&
  (from_little (drop 32 signature) <? Zpos SUBGROUP_ORDER).
