(* ===== verification/Ed25519Facts.v ===== *)
(** * Points on the curve

    The curve is [- x^2 + y^2 = 1 + d x^2 y^2] over the field of
    [FIELD_PRIME] elements.  Strict decoding accepts points of the curve only,
    each in one encoding ([decode_point_sound]); the complete addition keeps
    extended coordinates on it, and so does multiplication ([multiply_on_curve]).
    At the end the same checks on the machine-word integers of Bignums:
    [prime_order_fast] decides what [prime_order_point] of Ed25519.v decides
    ([prime_order_fast_spec]), fast enough to evaluate the protocol on concrete
    keys. *)

From Stdlib Require Import Zdiv FunctionalExtensionality.
From Bignums Require Import BigZ.
From S2P Require Import Prelude Regex Sha256 Json Encoding Ed25519.
Local Open Scope Z_scope.

#[local] Notation p := FIELD_PRIME.

(** Congruence modulo the prime. *)
Definition congruent (a b : Z) : Prop := a mod p = b mod p.

#[local] Infix "==" := congruent (at level 70).

#[export] Instance congruent_equiv : Equivalence congruent.
Proof. split; unfold congruent; repeat intro; congruence. Qed.

#[export] Instance congruent_add : Proper (congruent ==> congruent ==> congruent) Z.add.
Proof. intros a b H c d K. unfold congruent in *. rewrite Zplus_mod, H, K. symmetry. apply Zplus_mod. Qed.
#[export] Instance congruent_sub : Proper (congruent ==> congruent ==> congruent) Z.sub.
Proof. intros a b H c d K. unfold congruent in *. rewrite Zminus_mod, H, K. symmetry. apply Zminus_mod. Qed.
#[export] Instance congruent_mul : Proper (congruent ==> congruent ==> congruent) Z.mul.
Proof. intros a b H c d K. unfold congruent in *. rewrite Zmult_mod, H, K. symmetry. apply Zmult_mod. Qed.

Lemma congruent_mod a : a mod p == a.
Proof. apply Zmod_mod. Qed.

Lemma congruent_zero a : a mod p = 0 <-> a == 0.
Proof. unfold congruent. by rewrite Zmod_0_l. Qed.

(** Extended coordinates of a point of the curve. *)
Definition on_curve (q : point) : Prop :=
  let '(x, y, z, t) := q in
  y * y - x * x == z * z + ED25519_D * t * t /\ x * y == z * t.

Lemma congruent_eq a b : a = b -> a == b.
Proof. by intros ->. Qed.

Lemma identity_on_curve : on_curve IDENTITY.
Proof. by vm_compute. Qed.

(** The addition law before its terms are reduced, for any coefficient [d]. *)
Lemma addition_law d x1 y1 z1 t1 x2 y2 z2 t2 :
  y1 * y1 - x1 * x1 == z1 * z1 + d * t1 * t1 -> x1 * y1 == z1 * t1 ->
  y2 * y2 - x2 * x2 == z2 * z2 + d * t2 * t2 -> x2 * y2 == z2 * t2 ->
  let e := (y1 + x1) * (y2 + x2) - (y1 - x1) * (y2 - x2) in
  let h := (y1 + x1) * (y2 + x2) + (y1 - x1) * (y2 - x2) in
  let f := 2 * z1 * z2 - 2 * d * t1 * t2 in
  let g := 2 * z1 * z2 + 2 * d * t1 * t2 in
  (g * h) * (g * h) - (e * f) * (e * f) == (f * g) * (f * g) + d * (e * h) * (e * h).
Proof.
  intros C1 T1 C2 T2 e h f g. subst e h f g.
  transitivity (16 * ((z1 * z1 * z2 * z2 + d * d * t1 * t1 * t2 * t2) *
      ((y1 * y1 - x1 * x1) * (y2 * y2 - x2 * x2)) +
    2 * d * z1 * z2 * t1 * t2 * ((y1 * y1 + x1 * x1) * (y2 * y2 + x2 * x2) + 4 * ((x1 * y1) * (x2 * y2))))).
  { apply congruent_eq. ring. }
  symmetry.
  transitivity (16 * ((z1 * z1 * z2 * z2 - d * d * t1 * t1 * t2 * t2) *
      (z1 * z1 * z2 * z2 - d * d * t1 * t1 * t2 * t2) +
    d * ((x2 * y2) * (x2 * y2) * ((y1 * y1 - x1 * x1) * (y1 * y1 - x1 * x1) + 4 * ((x1 * y1) * (x1 * y1))) +
         (x1 * y1) * (x1 * y1) * ((y2 * y2 - x2 * x2) * (y2 * y2 - x2 * x2) + 4 * ((x2 * y2) * (x2 * y2))) +
         2 * (x1 * y1) * (x2 * y2) * ((y1 * y1 + x1 * x1) * (y2 * y2 + x2 * x2))))).
  { apply congruent_eq. ring. }
  generalize ((y1 * y1 + x1 * x1) * (y2 * y2 + x2 * x2)). intros n.
  rewrite C1, C2, T1, T2. apply congruent_eq. ring.
Qed.

(** Replaces reduced terms by what they are congruent to. *)
Ltac unreduce :=
  repeat match goal with
  | |- context [?a mod p] =>
      lazymatch a with context [_ mod _] => fail | _ => idtac end;
      let K := fresh "K" in
      pose proof (congruent_mod a) as K; revert K; generalize (a mod p); intros ? K
  end;
  repeat match goal with K : ?v == _ |- _ => is_var v; rewrite K; clear K end.

Lemma add_on_curve q r : on_curve q -> on_curve r -> on_curve (ed25519_add q r).
Proof.
  destruct q as [[[x1 y1] z1] t1], r as [[[x2 y2] z2] t2]. intros [C1 T1] [C2 T2].
  pose proof (addition_law _ _ _ _ _ _ _ _ _ C1 T1 C2 T2) as A. cbv zeta in A. clear C1 T1 C2 T2.
  unfold ed25519_add. cbv zeta. split; unreduce; [exact A | apply congruent_eq; ring].
Qed.

Lemma loop_on_curve n : forall q r, on_curve q -> on_curve r -> on_curve (multiply_loop n q r).
Proof. induction n as [n IH|n IH|]; intros q r Hq Hr; cbn [multiply_loop]; auto using add_on_curve. Qed.

(** Multiples of points of the curve are on the curve. *)
Lemma multiply_on_curve n q : on_curve q -> on_curve (scalar_multiply n q).
Proof. apply loop_on_curve, identity_on_curve. Qed.

(** ** Decoding *)

Lemma from_little_range b : Forall (fun x => (x < 256)%N) b -> 0 <= from_little b < 256 ^ zlen b.
Proof.
  induction 1 as [|x b Hx _ IH]; [by vm_compute |]. cbn [from_little fold_right].
  change (fold_right (fun x n => Z.of_N x + 256 * n) 0 b) with (from_little b).
  assert (zlen (x :: b) = 1 + zlen b) as -> by (unfold zlen; simpl; lia).
  rewrite Z.pow_add_r by (unfold zlen; lia). lia.
Qed.

Lemma from_little_inj b b' :
  Forall (fun x => (x < 256)%N) b -> Forall (fun x => (x < 256)%N) b' -> length b = length b' ->
  from_little b = from_little b' -> b = b'.
Proof.
  intros Hb. revert b'. induction Hb as [|x b Hx Hb IH]; intros [|y b'] Hb' Hl He; try done.
  apply List.Forall_cons_iff in Hb' as [Hy Hb']. cbn [from_little fold_right] in He.
  fold (from_little b) (from_little b') in He. injection Hl as Hl.
  assert (Z.of_N x = Z.of_N y /\ from_little b = from_little b') as [Hxy Hr] by lia.
  f_equal; [lia | by apply IH].
Qed.

Lemma prime_odd : p mod 2 = 1.
Proof. by vm_compute. Qed.

Lemma prime_pos : 0 < p.
Proof. by vm_compute. Qed.

Lemma pow_mod_range b e m : 0 < m -> 0 <= pow_mod b e m < m.
Proof.
  intros Hm. unfold pow_mod. destruct e as [|e|e]; [by apply Z.mod_pos_bound | | by apply Z.mod_pos_bound].
  destruct e; cbn [pow_mod_pos]; cbv zeta; by apply Z.mod_pos_bound.
Qed.

Lemma recover_range s x : recover_x s = Some x -> 0 <= x < p.
Proof.
  unfold recover_x, recover_x_with. cbv zeta. pose proof prime_pos as Hp.
  pose proof (pow_mod_range s ((p + 3) / 8) p Hp) as Hx. revert Hx.
  generalize (pow_mod s ((p + 3) / 8) p). intros r Hr.
  destruct ((r * r - s) mod p =? 0); destruct (_ =? 0); intros [= <-]; [done |].
  by apply Z.mod_pos_bound.
Qed.

(** The sign bit chooses between [x] and [p - x]. *)
Lemma signed_root x sign :
  0 <= x < p -> 0 <= sign < 2 -> (x =? 0) && (sign =? 1) = false ->
  let x' := if Z.land x 1 =? sign then x else p - x in 0 <= x' < p /\ x' mod 2 = sign.
Proof.
  intros Hx Hs Hz. change 1 with (Z.ones 1) at 1. rewrite Z.land_ones by lia. change (2 ^ 1) with 2.
  pose proof prime_odd as Hp. revert Hx Hp Hz. generalize p. intros q Hx Hp Hz.
  destruct (Z.eqb_spec (x mod 2) sign) as [|Hne]; [done |]. cbv zeta.
  assert (x <> 0).
  { intros ->. apply andb_false_iff in Hz as [Hz|Hz]; [done |]. apply Z.eqb_neq in Hz.
    change (0 mod 2) with 0 in Hne. lia. }
  split; [lia |]. rewrite Zminus_mod, Hp. pose proof (Z.mod_pos_bound x 2 ltac:(lia)) as Hm. revert Hne Hm.
  generalize (x mod 2). intros m Hne Hm. assert (m = 0 \/ m = 1) as [->| ->] by lia;
    [change ((1 - 0) mod 2) with 1 | change ((1 - 1) mod 2) with 0]; lia.
Qed.

(** The equation of the curve, as the code checks it. *)
Lemma checked_on_curve x y :
  (- x * x + (y * y) mod p - 1 - ED25519_D * x * x * ((y * y) mod p)) mod p = 0 ->
  on_curve (x, y, 1, (x * y) mod p).
Proof.
  intros H. apply (proj1 (congruent_zero _)) in H. split; [|unreduce; apply congruent_eq; ring]. revert H. unreduce. intros H.
  transitivity (- x * x + y * y - 1 - ED25519_D * x * x * (y * y) + (1 * 1 + ED25519_D * (x * y) * (x * y))).
  { apply congruent_eq. ring. }
  rewrite H. apply congruent_eq. ring.
Qed.

(** What strict decoding accepts is on the curve and in reduced coordinates,
    and its coordinates give the encoding back: 255 bits of [y] and the lowest
    bit of [x]. *)
Lemma decode_point_ok encoded q :
  Forall (fun x => (x < 256)%N) encoded -> decode_point encoded = Some q ->
  exists x y, q = (x, y, 1, (x * y) mod p) /\ on_curve q /\ 0 <= x < p /\ 0 <= y < p /\ zlen encoded = 32 /\
    from_little encoded = y + 2 ^ 255 * (x mod 2).
Proof.
  intros Hb. unfold decode_point, decode_point_with.
  destruct (Z.eqb_spec (zlen encoded) 32) as [Hl|]; [|done]. cbn [negb].
  pose proof (from_little_range _ Hb) as Hr. rewrite Hl in Hr. change (256 ^ 32) with (2 ^ 255 * 2) in Hr.
  revert Hr. generalize (from_little encoded). intros n Hr.
  rewrite Z.shiftr_div_pow2 by lia. replace (2 ^ 255 - 1) with (Z.ones 255) by by vm_compute.
  rewrite Z.land_ones by lia. cbv zeta.
  assert (H255 : 0 < 2 ^ 255) by by vm_compute.
  assert (Hs : 0 <= n / 2 ^ 255 < 2).
  { split; [apply Z.div_pos; lia | apply Z.div_lt_upper_bound; lia]. }
  pose proof (Z.div_mod n (2 ^ 255) ltac:(lia)) as Hn. pose proof (Z.mod_pos_bound n (2 ^ 255) H255) as Hm.
  revert Hs Hn Hm. generalize (n / 2 ^ 255) (n mod 2 ^ 255). intros sign y Hs Hn Hm.
  destruct (Z.leb_spec p y) as [|Hy]; [done |].
  destruct ((ED25519_D * ((y * y) mod p) + 1) mod p =? 0); [done |].
  destruct (recover_x_with pow_mod _) as [x|] eqn:Ex; [|done]. apply recover_range in Ex.
  destruct ((x =? 0) && (sign =? 1)) eqn:Ez; [done |].
  destruct (signed_root x sign Ex Hs Ez) as [Hx' Hpar]. revert Hx' Hpar.
  generalize (if Z.land x 1 =? sign then x else p - x). intros x' Hx' Hpar.
  destruct (Z.eqb_spec ((- x' * x' + (y * y) mod p - 1 - ED25519_D * x' * x' * ((y * y) mod p)) mod p) 0) as [Hc|]; [|done].
  intros [= <-]. exists x', y. split_and!; try done; [by apply checked_on_curve | lia | lia | lia |]. lia.
Qed.

(** C24: a key or a signature's first half that passes the strict check is the
    only encoding of a point of the curve: its integer is the reduced [y] and the
    parity of the reduced [x], the point is not the identity, and its multiple by
    the subgroup's order, a point of the curve too, is. *)
Theorem prime_order_sound key :
  Forall (fun x => (x < 256)%N) key -> prime_order_point key = true ->
  exists x y, decode_point key = Some (x, y, 1, (x * y) mod FIELD_PRIME) /\
    on_curve (x, y, 1, (x * y) mod FIELD_PRIME) /\ 0 <= x < FIELD_PRIME /\ 0 <= y < FIELD_PRIME /\
    zlen key = 32 /\ from_little key = y + 2 ^ 255 * (x mod 2) /\
    is_identity (x, y, 1, (x * y) mod FIELD_PRIME) = false /\
    on_curve (scalar_multiply SUBGROUP_ORDER (x, y, 1, (x * y) mod FIELD_PRIME)) /\
    is_identity (scalar_multiply SUBGROUP_ORDER (x, y, 1, (x * y) mod FIELD_PRIME)) = true /\
    forall key', Forall (fun x => (x < 256)%N) key' -> decode_point key' = decode_point key -> key' = key.
Proof.
  intros Hb. unfold prime_order_point, prime_order_with.
  destruct (decode_point_with pow_mod key) as [q|] eqn:E; [|done]. intros [Hi%negb_true_iff Hm]%andb_true_iff.
  destruct (decode_point_ok _ _ Hb E) as (x & y & -> & Hc & Hx & Hy & Hl & Hn).
  exists x, y. pose proof (multiply_on_curve SUBGROUP_ORDER _ Hc) as Hmc.
  refine (conj E (conj Hc (conj Hx (conj Hy (conj Hl (conj Hn (conj Hi (conj Hmc (conj Hm _))))))))).
  intros key' Hb' E'. rewrite (E : decode_point key = _) in E'.
  destruct (decode_point_ok _ _ Hb' E') as (x' & y' & Hq & _ & _ & _ & Hl' & Hn').
  assert (x = x') as <- by exact (f_equal (fun q : point => fst (fst (fst q))) Hq).
  assert (y = y') as <- by exact (f_equal (fun q : point => snd (fst (fst q))) Hq).
  apply from_little_inj; [done | done | unfold zlen in *; lia |]. by rewrite Hn, Hn'.
Qed.

(** ** Evaluating the curve *)

Definition big : Type := BigZ.t.
Definition big_point : Type := big * big * big * big.

Definition big_prime : big := Eval vm_compute in BigZ.of_Z FIELD_PRIME.
Definition big_d : big := Eval vm_compute in BigZ.of_Z ED25519_D.

Definition bmul (x y : big) : big := BigZ.modulo (BigZ.mul x y) big_prime.

Definition to_point (p : big_point) : point :=
  let '(x, y, z, t) := p in (BigZ.to_Z x, BigZ.to_Z y, BigZ.to_Z z, BigZ.to_Z t).
Definition of_point (p : point) : big_point :=
  let '(x, y, z, t) := p in (BigZ.of_Z x, BigZ.of_Z y, BigZ.of_Z z, BigZ.of_Z t).

Definition big_add (first second : big_point) : big_point :=
  let '(x1, y1, z1, t1) := first in
  let '(x2, y2, z2, t2) := second in
  let a := bmul (BigZ.sub y1 x1) (BigZ.sub y2 x2) in
  let b := bmul (BigZ.add y1 x1) (BigZ.add y2 x2) in
  let c := bmul (BigZ.mul (BigZ.mul BigZ.two big_d) t1) t2 in
  let d := bmul (BigZ.mul BigZ.two z1) z2 in
  let e := BigZ.modulo (BigZ.sub b a) big_prime in
  let f := BigZ.modulo (BigZ.sub d c) big_prime in
  let g := BigZ.modulo (BigZ.add d c) big_prime in
  let h := BigZ.modulo (BigZ.add b a) big_prime in
  (bmul e f, bmul g h, bmul f g, bmul e h).

Fixpoint big_loop (remaining : positive) (result addend : big_point) : big_point :=
  match remaining with
  | xH => big_add result addend
  | xO remaining' => big_loop remaining' result (big_add addend addend)
  | xI remaining' => big_loop remaining' (big_add result addend) (big_add addend addend)
  end.

Fixpoint big_pow (b : big) (e : positive) : big :=
  match e with
  | xH => BigZ.modulo b big_prime
  | xO e' => let r := big_pow b e' in bmul r r
  | xI e' => let r := big_pow b e' in bmul (bmul r r) b
  end.

(** ** It is the same *)

Lemma big_prime_spec : BigZ.to_Z big_prime = FIELD_PRIME.
Proof. by vm_compute. Qed.

Lemma big_d_spec : BigZ.to_Z big_d = ED25519_D.
Proof. by vm_compute. Qed.

Lemma bmul_spec x y : BigZ.to_Z (bmul x y) = (BigZ.to_Z x * BigZ.to_Z y) mod FIELD_PRIME.
Proof. unfold bmul. by rewrite BigZ.spec_modulo, BigZ.spec_mul, big_prime_spec. Qed.

Lemma of_to_point p : to_point (of_point p) = p.
Proof. destruct p as [[[x y] z] t]. cbn. by rewrite !BigZ.spec_of_Z. Qed.

Lemma big_add_spec p q : to_point (big_add p q) = ed25519_add (to_point p) (to_point q).
Proof.
  destruct p as [[[x1 y1] z1] t1], q as [[[x2 y2] z2] t2]. unfold big_add, to_point, ed25519_add.
  rewrite !bmul_spec, !BigZ.spec_modulo, !BigZ.spec_sub, !BigZ.spec_add, !bmul_spec.
  rewrite !BigZ.spec_sub, !BigZ.spec_add, !BigZ.spec_mul, big_prime_spec, big_d_spec.
  by change (BigZ.to_Z BigZ.two) with 2.
Qed.

Lemma big_loop_spec n : forall p q, to_point (big_loop n p q) = multiply_loop n (to_point p) (to_point q).
Proof. induction n as [n IH|n IH|]; intros p q; cbn [big_loop multiply_loop]; by rewrite ?IH, ?big_add_spec. Qed.

Lemma big_pow_spec b e : BigZ.to_Z (big_pow b e) = pow_mod_pos (BigZ.to_Z b) e FIELD_PRIME.
Proof.
  induction e as [e IH|e IH|]; cbn [big_pow pow_mod_pos]; cbv zeta.
  - by rewrite !bmul_spec, IH.
  - by rewrite bmul_spec, IH.
  - by rewrite BigZ.spec_modulo, big_prime_spec.
Qed.

(** ** The decision *)

Definition fast_pow (b e m : Z) : Z :=
  match e with
  | Zpos e' => if m =? FIELD_PRIME then BigZ.to_Z (big_pow (BigZ.of_Z b) e') else pow_mod_pos b e' m
  | _ => 1 mod m
  end.

Definition fast_multiply (n : positive) (p : point) : point :=
  to_point (big_loop n (of_point IDENTITY) (of_point p)).

Lemma fast_pow_spec b e m : fast_pow b e m = pow_mod b e m.
Proof.
  destruct e; cbn [fast_pow pow_mod]; [done | | done]. destruct (Z.eqb_spec m FIELD_PRIME) as [->|]; [|done].
  by rewrite big_pow_spec, BigZ.spec_of_Z.
Qed.

Lemma fast_multiply_spec n p : fast_multiply n p = scalar_multiply n p.
Proof. unfold fast_multiply, scalar_multiply. by rewrite big_loop_spec, !of_to_point. Qed.

Definition prime_order_fast : bytes -> bool := prime_order_with fast_pow fast_multiply.

Lemma prime_order_fast_spec : prime_order_fast = prime_order_point.
Proof.
  unfold prime_order_fast, prime_order_point.
  assert (fast_pow = pow_mod) as ->.
  { do 3 (apply functional_extensionality; intros ?). apply fast_pow_spec. }
  assert (fast_multiply = scalar_multiply) as ->; [|done].
  do 2 (apply functional_extensionality; intros ?). apply fast_multiply_spec.
Qed.
