(* ===== verification/ContinuityPolicy.v ===== *)
(** * Who may sign continuity writes

    scripts/john_lomein_continuity_protocol.py: the error codes, the one JSON
    encoding that is signed, and the importer's configuration with its key
    policies.  A normalised policy or configuration is a record; [policy_dict]
    and [config_dict] are the mappings the source returns.  Leading underscores
    of the source's names are dropped; [now] and the like are seconds. *)

From S2P Require Import Prelude Regex Sha256 PyTime PyUrl PyText Json Protocol Encoding Screening Continuity.
Local Open Scope Z_scope.

(** ** Constants *)

Definition CONFIG_SCHEMA : string := "john-lomein.continuity-import-config.v1".
Definition KEY_POLICY_SCHEMA : string := "john-lomein.continuity-key-policy.v1".
Definition ERROR_SCHEMA : string := "john-lomein.continuity-protocol-error.v1".
Definition SIGNATURE_ALGORITHM : string := "Ed25519".
(** A domain ends in a null byte. *)
Definition domain (s : string) : bytes := str s ++ [0%N].
Definition POLICY_DOMAIN : bytes := domain "JOHN-LOMEIN-CONTINUITY-KEY-POLICY-V1".

Definition MAX_CONFIG_BYTES : Z := 64 * 1024.
Definition MAX_KEYS : Z := 16.
Definition PROTOCOL_JSON_DEPTH : Z := 24.
Definition MIN_TTL_SECONDS : Z := 60.
Definition MAX_TTL_SECONDS : Z := 900.
Definition PROTOCOL_CLOCK_SKEW : Z := 30.

Definition OPERATIONS : list pystr := map str ["put"; "suppress"].
Definition PRIVACY_ORDER : list pystr := map str ["private"; "public"].
Definition OWNER_KINDS : list pystr := map str ["user_correction"; "user_preference"].
Definition EXTERNAL_KINDS : list pystr := map str ["verified_outcome"].

(** [^[a-z][a-z0-9_.-]{0,63}$] *)
Definition COMMITMENT_KIND_RE : re :=
  RSeq (RCls lower) (RRep (RCls (fun a => lower a || digit a || one_of "_.-" a)) 0 63).

(** ** Errors *)

Definition PUBLIC_MESSAGES : list (string * string) :=
  [("malformed_json", "signed continuity JSON is malformed");
   ("duplicate_field", "signed continuity JSON contains duplicate fields");
   ("noncanonical_json", "signed continuity JSON is not canonical");
   ("size_exceeded", "signed continuity input exceeds its size limit");
   ("schema_invalid", "signed continuity schema is invalid");
   ("unsupported_schema", "signed continuity schema is unsupported");
   ("unsupported_algorithm", "signed continuity algorithm is unsupported");
   ("importer_disabled", "signed continuity admission is disabled");
   ("key_unknown", "signed continuity key is not configured");
   ("key_material_invalid", "signed continuity public key is invalid");
   ("key_fingerprint_mismatch", "signed continuity key fingerprint differs");
   ("signature_invalid", "signed continuity signature is invalid");
   ("policy_mismatch", "signed continuity policy binding differs");
   ("instance_mismatch", "signed continuity instance binding differs");
   ("ledger_mismatch", "signed continuity ledger binding differs");
   ("authority_mismatch", "signed continuity authority binding differs");
   ("operation_denied", "signed continuity operation is not authorized");
   ("kind_denied", "signed continuity record kind is not authorized");
   ("scope_denied", "signed continuity scope is not authorized");
   ("source_commitment_invalid", "signed continuity source commitment differs");
   ("time_invalid", "signed continuity time binding is invalid");
   ("not_yet_valid", "signed continuity envelope is not yet valid");
   ("expired", "signed continuity envelope has expired");
   ("key_retired", "signed continuity key is retired");
   ("key_revoked", "signed continuity key is revoked");
   ("replay_digest_mismatch", "signed continuity replay binding differs")].

Definition fault {A} (code : string) : res A := Raise (ContinuityProtocolError code).

Definition message_of_code (code : string) : option string :=
  option_map snd (List.find (fun kv => bool_decide (kv.1 = code)) PUBLIC_MESSAGES).

(** [public_error] *)
Definition public_error (e : exn) : dict :=
  let code := match e with
    | ContinuityProtocolError code => if is_some (message_of_code code) then code else "schema_invalid"
    | _ => "schema_invalid"
    end in
  fields [("schema_version", vstr ERROR_SCHEMA); ("ok", VBool false); ("error_code", vstr code);
          ("message", vstr (default "" (message_of_code code)))].

(** ** JSON *)

Fixpoint validate_canonical_value (depth : Z) (v : value) : res unit :=
  raise_if PROTOCOL_JSON_DEPTH <? depth with (ContinuityProtocolError "schema_invalid") ;;
  match v with
  | VNone | VBool _ | VStr _ => Ok tt
  | VInt z =>
      raise_if (z <? I64_MIN) || (I64_MAX <? z) with (ContinuityProtocolError "schema_invalid") ;;
      Ok tt
  | VFloat _ => fault "noncanonical_json"
  | VList l =>
      (fix go l := match l with
         | [] => Ok tt
         | x :: l' => let* _ := validate_canonical_value (depth + 1) x in go l'
         end) l
  | VDict d =>
      (fix go d := match d with
         | [] => Ok tt
         | (_, x) :: d' => let* _ := validate_canonical_value (depth + 1) x in go d'
         end) d
  end.

(** The only exceptions are the protocol's own, so that the boundary around it
    changes nothing. *)
Definition canonical_json (v : value) : res bytes :=
  let* _ := validate_canonical_value 0 v in Ok (utf8 (dumps v)).

Definition sha256_domain (domain : bytes) (v : value) : res pystr :=
  let* raw := canonical_json v in Ok (sha256_hex (domain ++ raw)).

(** The number hooks: [int] and [_reject_float]. *)
Definition protocol_number (neg : bool) (s : pystr) : res (value * pystr) :=
  let* (v, r) := pnumber neg s in
  match v with VInt _ => Ok (v, r) | _ => fault "noncanonical_json" end.

(** [raw.decode("utf-8", errors="strict")] *)
Definition decode_strict (raw : bytes) : res pystr :=
  let* text := utf8_decode raw in
  raise_if negb (encodable text) with UnicodeDecodeError ;; Ok text.

Definition parse_json (raw : bytes) (maximum_bytes : Z) : res value :=
  let malformed := ContinuityProtocolError "malformed_json" in
  raise_if bool_decide (raw = []) with malformed ;;
  raise_if maximum_bytes <? zlen raw with (ContinuityProtocolError "size_exceeded") ;;
  let* text := reraise (fun _ => true) (fun _ => malformed) (decode_strict raw) in
  reraise (fun e => match e with JSONDecodeError => true | _ => false end) (fun _ => malformed)
    (loads_with protocol_number (ContinuityProtocolError "duplicate_field")
       (ContinuityProtocolError "noncanonical_json") text).

(** ** Fields *)

Definition protocol_mapping (v : value) : res dict :=
  match v with VDict d => Ok d | _ => fault "schema_invalid" end.

(** [_strict_keys(value, required)]: the mapping. *)
Definition strict_mapping (v : value) (required : list string) : res dict :=
  let* d := protocol_mapping v in
  raise_if negb (same_keys d required) with (ContinuityProtocolError "schema_invalid") ;;
  Ok d.

Definition as_text (v : value) : option pystr := match v with VStr s => Some s | _ => None end.

(** [type(v) is str and v == s] *)
Definition is_exactly (v : value) (s : string) : bool := bool_decide (as_text v = Some (str s)).

(** [_text(value, pattern)] *)
Definition text_in (r : re) (v : value) : res pystr :=
  match as_text v with
  | Some s => raise_if negb (fullmatch r s) with (ContinuityProtocolError "schema_invalid") ;; Ok s
  | None => fault "schema_invalid"
  end.
Definition token_text : value -> res pystr := text_in Continuity.TOKEN_RE.
Definition digest_text : value -> res pystr := text_in SHA256_RE.

Definition integer (v : value) (minimum maximum : Z) : res Z :=
  match v with
  | VInt z => raise_if (z <? minimum) || (maximum <? z) with (ContinuityProtocolError "schema_invalid") ;; Ok z
  | _ => fault "schema_invalid"
  end.

(** [_utc] *)
Definition utc (v : value) : res Z :=
  match v with
  | VStr s => match strptime s with Some t => Ok t | None => fault "time_invalid" end
  | _ => fault "time_invalid"
  end.

(** A list of exact strings. *)
Definition texts (v : value) : option (list pystr) :=
  match v with VList l => mapM as_text l | _ => None end.

Definition vtexts (l : list pystr) : value := VList (map VStr l).

(** [sorted(set(raw), key=order.__getitem__)], when all are in [order]. *)
Definition in_order (order raw : list pystr) : list pystr :=
  List.filter (fun x => bool_decide (x ∈ raw)) order.

Definition known_unique (raw : list pystr) (order : list pystr) : res (list pystr) :=
  raise_if negb (forallb (fun x => bool_decide (x ∈ order)) raw)
    with (ContinuityProtocolError "schema_invalid") ;;
  let normalized := in_order order raw in
  raise_if negb (zlen normalized =? zlen raw) with (ContinuityProtocolError "schema_invalid") ;;
  Ok normalized.

Definition ordered_unique (raw : value) (order : list pystr) : res (list pystr) :=
  match texts raw with
  | Some ((_ :: _) as l) => known_unique l order
  | _ => fault "schema_invalid"
  end.

(** ** Authority *)

Inductive AuthorityClass := Owner | ExternalObserver.

Record Authority := {
  au_class : AuthorityClass; au_source_kind : pystr; au_source_trust : pystr; au_actor : pystr }.

#[export] Instance authority_class_eq_dec : EqDecision AuthorityClass.
Proof. solve_decision. Defined.
#[export] Instance authority_eq_dec : EqDecision Authority.
Proof. solve_decision. Defined.

Definition class_text (c : AuthorityClass) : pystr :=
  match c with Owner => str "owner" | ExternalObserver => str "external_observer" end.

Definition authority_dict (a : Authority) : dict :=
  fields [("class", VStr (class_text a.(au_class))); ("source_kind", VStr a.(au_source_kind));
          ("source_trust", VStr a.(au_source_trust)); ("source_actor", VStr a.(au_actor))].

Definition AUTHORITY_KEYS : list string := ["class"; "source_kind"; "source_trust"; "source_actor"].

(** The class of an authority whose source fits it. *)
Definition authority_class (c kind trust : pystr) : option AuthorityClass :=
  if bool_decide (c = str "owner") then
    if bool_decide (kind = str "owner") && bool_decide (trust = str "owner_asserted") then Some Owner else None
  else if bool_decide (c = str "external_observer") then
    if bool_decide (kind ∈ EXTERNAL_SOURCES) && bool_decide (trust = str "externally_verified")
    then Some ExternalObserver else None
  else None.

Definition normalize_authority (v : value) : res Authority :=
  let* authority := strict_mapping v AUTHORITY_KEYS in
  match as_text (get authority "class"), as_text (get authority "source_kind"),
        as_text (get authority "source_trust") with
  | Some c, Some kind, Some trust =>
      match authority_class c kind trust with
      | None => fault "authority_mismatch"
      | Some class =>
          let* actor := token_text (get authority "source_actor") in
          Ok {| au_class := class; au_source_kind := kind; au_source_trust := trust;
                au_actor := actor |}
      end
  | _, _, _ => fault "authority_mismatch"
  end.

(** The kinds a class of authority may ever write. *)
Definition intrinsic_kinds (c : AuthorityClass) : list pystr :=
  match c with Owner => OWNER_KINDS | ExternalObserver => EXTERNAL_KINDS end.

(** ** Permissions *)

Record Permissions := {
  pm_operations : list pystr; pm_entry_kinds : list pystr; pm_commitment_kinds : list pystr;
  pm_privacy : list pystr; pm_roles : list pystr }.

#[export] Instance permissions_eq_dec : EqDecision Permissions.
Proof. solve_decision. Defined.

Definition permissions_dict (p : Permissions) : dict :=
  fields [("operations", vtexts p.(pm_operations)); ("entry_kinds", vtexts p.(pm_entry_kinds));
          ("source_commitment_kinds", vtexts p.(pm_commitment_kinds));
          ("privacy", vtexts p.(pm_privacy)); ("visible_to_roles", vtexts p.(pm_roles))].

Definition PERMISSION_KEYS : list string :=
  ["operations"; "entry_kinds"; "source_commitment_kinds"; "privacy"; "visible_to_roles"].

(** [entry_order] *)
Definition ENTRY_ORDER : list pystr :=
  map str ["user_correction"; "user_preference"; "verified_outcome"].

Definition entry_kinds_of (v : value) (intrinsic : list pystr) : res (list pystr) :=
  match texts v with
  | None => fault "schema_invalid"
  | Some raw =>
      raise_if negb (forallb (fun x => bool_decide (x ∈ intrinsic)) raw)
        with (ContinuityProtocolError "schema_invalid") ;;
      let kinds := in_order ENTRY_ORDER raw in
      raise_if negb (zlen kinds =? zlen raw) with (ContinuityProtocolError "schema_invalid") ;;
      Ok kinds
  end.

(** At most eight kinds of commitment, sorted. *)
Definition commitment_kinds_of (v : value) : res (list pystr) :=
  match texts v with
  | Some ((_ :: _) as raw) =>
      raise_if (8 <? zlen raw) || negb (forallb (fullmatch COMMITMENT_KIND_RE) raw)
        with (ContinuityProtocolError "schema_invalid") ;;
      let kinds := sort_strings (remove_dups raw) in
      raise_if negb (zlen kinds =? zlen raw) with (ContinuityProtocolError "schema_invalid") ;;
      Ok kinds
  | _ => fault "schema_invalid"
  end.

Definition normalize_permissions (v : value) (class : AuthorityClass) : res Permissions :=
  let* permissions := strict_mapping v PERMISSION_KEYS in
  let* operations := ordered_unique (get permissions "operations") OPERATIONS in
  let* entry_kinds := entry_kinds_of (get permissions "entry_kinds") (intrinsic_kinds class) in
  raise_if negb (Bool.eqb (bool_decide (str "put" ∈ operations)) (any entry_kinds))
    with (ContinuityProtocolError "schema_invalid") ;;
  raise_if bool_decide (class = ExternalObserver) && bool_decide (str "suppress" ∈ operations)
    with (ContinuityProtocolError "operation_denied") ;;
  let* commitment_kinds := commitment_kinds_of (get permissions "source_commitment_kinds") in
  let* privacy := ordered_unique (get permissions "privacy") PRIVACY_ORDER in
  let* roles := ordered_unique (get permissions "visible_to_roles") OPERATIONAL_ROLES in
  Ok {| pm_operations := operations; pm_entry_kinds := entry_kinds;
        pm_commitment_kinds := commitment_kinds; pm_privacy := privacy; pm_roles := roles |}.

(** ** Key policies *)

Inductive KeyState := Active | Retired | Revoked.

#[export] Instance key_state_eq_dec : EqDecision KeyState.
Proof. solve_decision. Defined.

Definition state_text (s : KeyState) : pystr :=
  match s with Active => str "active" | Retired => str "retired" | Revoked => str "revoked" end.

(** [KEY_STATES] *)
Definition key_state (v : value) : res KeyState :=
  match List.find (fun s => bool_decide (as_text v = Some (state_text s))) [Active; Retired; Revoked] with
  | Some s => Ok s
  | None => fault "schema_invalid"
  end.

Record KeyPolicy := {
  kp_policy_id : pystr; kp_key_id : pystr; kp_public_key_sha256 : pystr; kp_state : KeyState;
  kp_valid_from : pystr; kp_valid_until : pystr; kp_authority : Authority;
  kp_permissions : Permissions }.

#[export] Instance key_policy_eq_dec : EqDecision KeyPolicy.
Proof. solve_decision. Defined.

(** [_policy_authorization_projection]: the policy without its state. *)
Definition policy_projection_fields (p : KeyPolicy) : list (string * value) :=
  [("schema_version", vstr KEY_POLICY_SCHEMA); ("policy_id", VStr p.(kp_policy_id));
   ("key_id", VStr p.(kp_key_id)); ("algorithm", vstr SIGNATURE_ALGORITHM);
   ("public_key_sha256", VStr p.(kp_public_key_sha256)); ("valid_from", VStr p.(kp_valid_from));
   ("valid_until", VStr p.(kp_valid_until)); ("authority", VDict (authority_dict p.(kp_authority)));
   ("permissions", VDict (permissions_dict p.(kp_permissions)))].

Definition policy_projection (p : KeyPolicy) : dict := fields (policy_projection_fields p).

Definition policy_dict (p : KeyPolicy) : dict :=
  fields (policy_projection_fields p ++ [("state", VStr (state_text p.(kp_state)))]).

Definition POLICY_KEYS : list string :=
  ["schema_version"; "policy_id"; "key_id"; "algorithm"; "public_key_sha256"; "state";
   "valid_from"; "valid_until"; "authority"; "permissions"].

Definition normalize_key_policy (v : value) : res KeyPolicy :=
  let* policy := strict_mapping v POLICY_KEYS in
  raise_if negb (is_exactly (get policy "schema_version") KEY_POLICY_SCHEMA)
    with (ContinuityProtocolError "unsupported_schema") ;;
  raise_if negb (is_exactly (get policy "algorithm") SIGNATURE_ALGORITHM)
    with (ContinuityProtocolError "unsupported_algorithm") ;;
  let* state := key_state (get policy "state") in
  let* authority := normalize_authority (get policy "authority") in
  let* permissions := normalize_permissions (get policy "permissions") authority.(au_class) in
  let* valid_from := utc (get policy "valid_from") in
  let* valid_until := utc (get policy "valid_until") in
  raise_if valid_until <=? valid_from with (ContinuityProtocolError "time_invalid") ;;
  let* policy_id := token_text (get policy "policy_id") in
  let* key_id := token_text (get policy "key_id") in
  let* fingerprint := digest_text (get policy "public_key_sha256") in
  Ok {| kp_policy_id := policy_id; kp_key_id := key_id; kp_public_key_sha256 := fingerprint;
        kp_state := state; kp_valid_from := utc_text valid_from;
        kp_valid_until := utc_text valid_until; kp_authority := authority;
        kp_permissions := permissions |}.

Definition policy_authorization_sha256 (v : value) : res pystr :=
  let* policy := normalize_key_policy v in
  sha256_domain POLICY_DOMAIN (VDict (policy_projection policy)).

(** ** The configuration *)

Record ImportConfig := {
  ic_enabled : bool; ic_instance_id : pystr; ic_repository : pystr; ic_ledger_id : pystr;
  ic_maximum_ttl : Z; ic_maximum_skew : Z; ic_key_policies : list KeyPolicy }.

#[export] Instance import_config_eq_dec : EqDecision ImportConfig.
Proof. solve_decision. Defined.

Definition import_config_dict (c : ImportConfig) : dict :=
  fields [("schema_version", vstr CONFIG_SCHEMA); ("enabled", VBool c.(ic_enabled));
          ("instance_id", VStr c.(ic_instance_id)); ("repository", VStr c.(ic_repository));
          ("ledger_id", VStr c.(ic_ledger_id)); ("maximum_ttl_seconds", VInt c.(ic_maximum_ttl));
          ("maximum_clock_skew_seconds", VInt c.(ic_maximum_skew));
          ("key_policies", VList (map (fun p => VDict (policy_dict p)) c.(ic_key_policies)))].

Definition IMPORT_CONFIG_KEYS : list string :=
  ["schema_version"; "enabled"; "instance_id"; "repository"; "ledger_id"; "maximum_ttl_seconds";
   "maximum_clock_skew_seconds"; "key_policies"].

(** [policies.sort(key=lambda item: item["key_id"])]: stable. *)
Fixpoint policy_insert (p : KeyPolicy) (l : list KeyPolicy) : list KeyPolicy :=
  match l with
  | [] => [p]
  | q :: l' => if str_leb p.(kp_key_id) q.(kp_key_id) then p :: l else q :: policy_insert p l'
  end.
Definition sort_policies (l : list KeyPolicy) : list KeyPolicy := fold_right policy_insert [] l.

(** Distinct key ids, policy ids and fingerprints. *)
Definition distinct_policies (l : list KeyPolicy) : bool :=
  bool_decide (NoDup (map kp_key_id l)) && bool_decide (NoDup (map kp_policy_id l)) &&
  bool_decide (NoDup (map kp_public_key_sha256 l)).

Definition normalize_policies (v : value) : res (list KeyPolicy) :=
  match v with
  | VList ((_ :: _) as l) =>
      raise_if MAX_KEYS <? zlen l with (ContinuityProtocolError "schema_invalid") ;;
      let* policies := res_map normalize_key_policy l in
      let sorted := sort_policies policies in
      raise_if negb (distinct_policies sorted) with (ContinuityProtocolError "schema_invalid") ;;
      Ok sorted
  | _ => fault "schema_invalid"
  end.

Definition normalize_import_config (v : value) : res ImportConfig :=
  let* config := strict_mapping v IMPORT_CONFIG_KEYS in
  raise_if negb (is_exactly (get config "schema_version") CONFIG_SCHEMA)
    with (ContinuityProtocolError "unsupported_schema") ;;
  match get config "enabled" with
  | VBool enabled =>
      let* policies := normalize_policies (get config "key_policies") in
      let* instance_id := token_text (get config "instance_id") in
      let* repository := text_in REPO_RE (get config "repository") in
      let* ledger_id := text_in LEDGER_ID_RE (get config "ledger_id") in
      let* ttl := integer (get config "maximum_ttl_seconds") MIN_TTL_SECONDS MAX_TTL_SECONDS in
      let* skew := integer (get config "maximum_clock_skew_seconds") 0 PROTOCOL_CLOCK_SKEW in
      Ok {| ic_enabled := enabled; ic_instance_id := instance_id; ic_repository := repository;
            ic_ledger_id := ledger_id; ic_maximum_ttl := ttl; ic_maximum_skew := skew;
            ic_key_policies := policies |}
  | _ => fault "schema_invalid"
  end.

(** [parse_config] *)
Definition parse_import_config (raw : bytes) : res ImportConfig :=
  let* parsed := parse_json raw MAX_CONFIG_BYTES in
  let* normalized := normalize_import_config parsed in
  let* expected := canonical_json (VDict (import_config_dict normalized)) in
  raise_if negb (bool_decide (raw = expected)) with (ContinuityProtocolError "noncanonical_json") ;;
  Ok normalized.
