(* ===== verification/ContinuityProtocol.v ===== *)
(** * Signed continuity writes

    scripts/john_lomein_continuity_protocol.py: effects, their binding to a
    source commitment, unsigned and signed envelopes, and the three ways to
    verify an envelope against a configuration and the public keys.  The
    library's Ed25519 is the class [SignatureLibrary]; the strict checks of keys
    and signatures before it are those of Ed25519.v.  Leading underscores of the
    source's names are dropped. *)

From S2P Require Import Prelude Regex Sha256 PyTime PyUrl PyText Json Protocol Encoding Screening Continuity Ledger Ed25519 ContinuityPolicy.
Local Open Scope Z_scope.

(** ** Constants *)

Definition ENVELOPE_SCHEMA : string := "john-lomein.continuity-signed-envelope.v1".
Definition EFFECT_SCHEMA : string := "john-lomein.continuity-effect.v1".
Definition SOURCE_COMMITMENT_SCHEMA : string := "john-lomein.continuity-source-commitment.v1".
Definition VERIFICATION_SCHEMA : string := "john-lomein.continuity-verification.v1".
Definition COMMITMENT_ALGORITHM : string := "SHA-256".
Definition SIGNING_DOMAIN : bytes := domain "JOHN-LOMEIN-CONTINUITY-SIGNED-ENVELOPE-V1".
Definition SOURCE_COMMITMENT_DOMAIN : bytes := domain "JOHN-LOMEIN-CONTINUITY-SOURCE-COMMITMENT-V1".
Definition SALTED_SOURCE_COMMITMENT_DOMAIN : bytes := domain "JOHN-LOMEIN-CONTINUITY-SALTED-SOURCE-V1".
Definition ENTRY_ID_DOMAIN : bytes := domain "JOHN-LOMEIN-CONTINUITY-ENTRY-ID-V1".
Definition ENVELOPE_DIGEST_DOMAIN : bytes := domain "JOHN-LOMEIN-CONTINUITY-ENVELOPE-DIGEST-V1".
Definition MAX_ENVELOPE_BYTES : Z := 4 * 1024.
Definition SUPPRESSION_REASONS : list string := ["owner_request"; "privacy_request"; "superseded"; "expired"].

(** [^jlcw-[0-9a-f]{32}$], [^[A-Za-z0-9_-]{86}$] *)
Definition WRITE_ID_RE : re := RSeq (rlit "jlcw-") (RRep (RCls hexdig) 32 32).
Definition SIGNATURE_RE : re := RRep (RCls (alnum_or "_-")) 86 86.

(** ** Parts of an effect *)

(** [_normalize_scope]: exact fields, unlike the scope of a plain write. *)
Definition normalize_signed_scope (v : value) : res Scope :=
  let* scope := strict_mapping v ["privacy"; "visible_to_roles"; "repository"] in
  match as_text (get scope "privacy") with
  | None => fault "schema_invalid"
  | Some privacy =>
      raise_if negb (bool_decide (privacy ∈ PRIVACY_ORDER)) with (ContinuityProtocolError "schema_invalid") ;;
      let* roles := ordered_unique (get scope "visible_to_roles") OPERATIONAL_ROLES in
      raise_if bool_decide (privacy = str "private") && bool_decide (str "guide" ∈ roles)
        with (ContinuityProtocolError "scope_denied") ;;
      let* repository := optional (get scope "repository") (text_in REPO_RE) in
      Ok {| sc_privacy := privacy; sc_roles := roles; sc_repository := repository |}
  end.

(** The entry id of a write id that was checked. *)
Definition entry_id_of (write_id : pystr) : pystr :=
  str "jlce-" ++ take 24 (sha256_hex (ENTRY_ID_DOMAIN ++ write_id)).

Definition entry_id_for_write_id (write_id : value) : res pystr :=
  let* normalized := text_in WRITE_ID_RE write_id in Ok (entry_id_of normalized).

(** [except continuity.ContinuityError: raise _error("schema_invalid")] *)
Definition as_schema_invalid {A} (r : res A) : res A :=
  reraise (fun e => match e with ContinuityError _ _ => true | _ => false end)
    (fun _ => ContinuityProtocolError "schema_invalid") r.

Definition normalize_expected_head (v : value) : res Head :=
  let* head := strict_mapping v HEAD_KEYS in
  let* _ := validate_canonical_value 0 (VDict head) in
  as_schema_invalid (validate_head (VDict head)).

(** A write, its kind being the payload's. *)
Record Put := {
  pu_subject : pystr; pu_summary : pystr; pu_payload : Payload;
  pu_memory_expires_at : option pystr; pu_supersedes : option pystr }.

Record Suppression := { su_target_id : pystr; su_target_sha256 : pystr; su_reason : pystr }.

#[export] Instance put_eq_dec : EqDecision Put.
Proof. solve_decision. Defined.
#[export] Instance suppression_eq_dec : EqDecision Suppression.
Proof. solve_decision. Defined.

Definition put_dict (p : Put) : dict :=
  fields [("kind", VStr (payload_kind p.(pu_payload))); ("subject", VStr p.(pu_subject));
          ("summary", VStr p.(pu_summary)); ("payload", VDict (payload_dict p.(pu_payload)));
          ("memory_expires_at", vopt VStr p.(pu_memory_expires_at));
          ("supersedes_entry_id", vopt VStr p.(pu_supersedes))].

Definition PUT_KEYS : list string :=
  ["kind"; "subject"; "summary"; "payload"; "memory_expires_at"; "supersedes_entry_id"].

Definition suppression_dict (s : Suppression) : dict :=
  fields [("target_entry_id", VStr s.(su_target_id)); ("target_entry_sha256", VStr s.(su_target_sha256));
          ("reason", VStr s.(su_reason))].

(** The memory's expiry: after the effect was issued. *)
Definition memory_expiry (v : value) (issued_at : Z) : res (option pystr) :=
  optional v (fun v =>
    let* expiry := utc v in
    raise_if expiry <=? issued_at with (ContinuityProtocolError "time_invalid") ;;
    Ok (utc_text expiry)).

Section Texts.
Context `{!Unicode}.

(** Subject, summary and payload; a [UnicodeError] is caught as well. *)
Definition put_texts (kind : pystr) (put : dict) : res (pystr * pystr * Payload) :=
  reraise (fun e => match e with ContinuityError _ _ | ValueError _ => true | _ => false end)
    (fun _ => ContinuityProtocolError "schema_invalid")
    (let* subject := safe_text (get put "subject") "subject" 192 false in
     let* summary := safe_text (get put "summary") "summary" MAX_SUMMARY_BYTES false in
     let* payload := normalize_payload kind (get put "payload") in
     Ok (subject, summary, payload)).

Definition is_dict (v : value) : bool := match v with VDict _ => true | _ => false end.

Definition normalize_put (v : value) (class : AuthorityClass) (issued_at : Z) : res Put :=
  let* put := strict_mapping v PUT_KEYS in
  match as_text (get put "kind") with
  | None => fault "kind_denied"
  | Some kind =>
      raise_if negb (bool_decide (kind ∈ intrinsic_kinds class))
        with (ContinuityProtocolError "kind_denied") ;;
      raise_if negb (is_text (get put "subject")) || negb (is_text (get put "summary")) ||
               negb (is_dict (get put "payload"))
        with (ContinuityProtocolError "schema_invalid") ;;
      let* _ := validate_canonical_value 0 (get put "payload") in
      let* (subject, summary, payload) := put_texts kind put in
      let* expires := memory_expiry (get put "memory_expires_at") issued_at in
      let* supersedes := optional (get put "supersedes_entry_id") (text_in ENTRY_ID_RE) in
      raise_if bool_decide (kind = str "verified_outcome") && is_some supersedes
        with (ContinuityProtocolError "kind_denied") ;;
      Ok {| pu_subject := subject; pu_summary := summary; pu_payload := payload;
            pu_memory_expires_at := expires; pu_supersedes := supersedes |}
  end.

Definition normalize_suppression (v : value) : res Suppression :=
  let* suppression := strict_mapping v ["target_entry_id"; "target_entry_sha256"; "reason"] in
  match as_text (get suppression "reason") with
  | None => fault "schema_invalid"
  | Some reason =>
      raise_if negb (bool_decide (reason ∈ map str SUPPRESSION_REASONS))
        with (ContinuityProtocolError "schema_invalid") ;;
      let* target := text_in ENTRY_ID_RE (get suppression "target_entry_id") in
      let* digest := digest_text (get suppression "target_entry_sha256") in
      Ok {| su_target_id := target; su_target_sha256 := digest; su_reason := reason |}
  end.

(** ** Effects *)

Inductive Operation := OpPut (p : Put) | OpSuppress (s : Suppression).

Definition operation_text (o : Operation) : pystr :=
  match o with OpPut _ => str "put" | OpSuppress _ => str "suppress" end.

Record EffectBody := {
  eb_instance_id : pystr; eb_repository : pystr; eb_ledger_id : pystr; eb_expected_head : Head;
  eb_policy_id : pystr; eb_policy_sha256 : pystr; eb_write_id : pystr; eb_issued_at : pystr;
  eb_expires_at : pystr; eb_authority : Authority; eb_scope : Scope; eb_operation : Operation }.

Definition put_of (o : Operation) : option Put := match o with OpPut p => Some p | OpSuppress _ => None end.
Definition suppression_of (o : Operation) : option Suppression :=
  match o with OpPut _ => None | OpSuppress s => Some s end.

Definition effect_body_fields (e : EffectBody) : list (string * value) :=
  [("schema_version", vstr EFFECT_SCHEMA); ("instance_id", VStr e.(eb_instance_id));
   ("repository", VStr e.(eb_repository)); ("ledger_id", VStr e.(eb_ledger_id));
   ("expected_head", VDict (head_dict e.(eb_expected_head))); ("policy_id", VStr e.(eb_policy_id));
   ("policy_sha256", VStr e.(eb_policy_sha256)); ("write_id", VStr e.(eb_write_id));
   ("issued_at", VStr e.(eb_issued_at)); ("expires_at", VStr e.(eb_expires_at));
   ("authority", VDict (authority_dict e.(eb_authority)));
   ("operation", VStr (operation_text e.(eb_operation)));
   ("scope", VDict (scope_dict e.(eb_scope)));
   ("put", vopt (fun p => VDict (put_dict p)) (put_of e.(eb_operation)));
   ("suppression", vopt (fun s => VDict (suppression_dict s)) (suppression_of e.(eb_operation)))].

Definition effect_body_dict (e : EffectBody) : dict := fields (effect_body_fields e).

(** [_EFFECT_BODY_FIELDS] *)
Definition EFFECT_BODY_FIELDS : list string :=
  ["schema_version"; "instance_id"; "repository"; "ledger_id"; "expected_head"; "policy_id";
   "policy_sha256"; "write_id"; "issued_at"; "expires_at"; "authority"; "operation"; "scope";
   "put"; "suppression"].

Definition is_none (v : value) : bool := match v with VNone => true | _ => false end.

(** The two operations; only an owner may suppress. *)
Definition normalize_operation (effect : dict) (operation : pystr) (class : AuthorityClass) (issued : Z) :
    res Operation :=
  if bool_decide (operation = str "put") then
    raise_if negb (is_none (get effect "suppression")) with (ContinuityProtocolError "schema_invalid") ;;
    let* put := normalize_put (get effect "put") class issued in
    Ok (OpPut put)
  else
    raise_if negb (bool_decide (class = Owner)) || negb (is_none (get effect "put"))
      with (ContinuityProtocolError "operation_denied") ;;
    let* suppression := normalize_suppression (get effect "suppression") in
    Ok (OpSuppress suppression).

Definition normalize_effect_body (v : value) : res EffectBody :=
  let* effect := strict_mapping v EFFECT_BODY_FIELDS in
  raise_if negb (is_exactly (get effect "schema_version") EFFECT_SCHEMA)
    with (ContinuityProtocolError "unsupported_schema") ;;
  let* instance_id := token_text (get effect "instance_id") in
  let* repository := text_in REPO_RE (get effect "repository") in
  let* ledger_id := text_in LEDGER_ID_RE (get effect "ledger_id") in
  let* expected_head := normalize_expected_head (get effect "expected_head") in
  raise_if negb (bool_decide (expected_head.(hd_ledger_id) = ledger_id))
    with (ContinuityProtocolError "ledger_mismatch") ;;
  let* policy_id := token_text (get effect "policy_id") in
  let* policy_sha256 := digest_text (get effect "policy_sha256") in
  let* write_id := text_in WRITE_ID_RE (get effect "write_id") in
  let* issued := utc (get effect "issued_at") in
  let* expires := utc (get effect "expires_at") in
  raise_if (expires - issued <? MIN_TTL_SECONDS) || (MAX_TTL_SECONDS <? expires - issued)
    with (ContinuityProtocolError "time_invalid") ;;
  let* updated := utc (VStr expected_head.(hd_updated_at)) in
  raise_if issued <? updated with (ContinuityProtocolError "time_invalid") ;;
  let* authority := normalize_authority (get effect "authority") in
  match as_text (get effect "operation") with
  | None => fault "schema_invalid"
  | Some operation =>
      raise_if negb (bool_decide (operation ∈ OPERATIONS)) with (ContinuityProtocolError "schema_invalid") ;;
      let* scope := normalize_signed_scope (get effect "scope") in
      raise_if negb (bool_decide (scope.(sc_repository) = Some repository))
        with (ContinuityProtocolError "scope_denied") ;;
      let* op := normalize_operation effect operation authority.(au_class) issued in
      Ok {| eb_instance_id := instance_id; eb_repository := repository; eb_ledger_id := ledger_id;
            eb_expected_head := expected_head; eb_policy_id := policy_id;
            eb_policy_sha256 := policy_sha256; eb_write_id := write_id;
            eb_issued_at := utc_text issued; eb_expires_at := utc_text expires;
            eb_authority := authority; eb_scope := scope; eb_operation := op |}
  end.

Definition effect_binding_sha256 (v : value) : res pystr :=
  let* effect := protocol_mapping v in
  let* body := normalize_effect_body (VDict (without "source_commitment" effect)) in
  sha256_domain SOURCE_COMMITMENT_DOMAIN (VDict (effect_body_dict body)).

(** ** Source commitments *)

Record SourceCommitment := { sm_kind : pystr; sm_binding : pystr; sm_sha256 : pystr }.

Definition source_commitment_dict (c : SourceCommitment) : dict :=
  fields [("schema_version", vstr SOURCE_COMMITMENT_SCHEMA); ("kind", VStr c.(sm_kind));
          ("effect_binding_sha256", VStr c.(sm_binding)); ("commitment_sha256", VStr c.(sm_sha256))].

Definition build_source_commitment (effect kind commitment_sha256 : value) : res SourceCommitment :=
  let* commitment_kind := text_in COMMITMENT_KIND_RE kind in
  let* binding := effect_binding_sha256 effect in
  let* digest := digest_text commitment_sha256 in
  Ok {| sm_kind := commitment_kind; sm_binding := binding; sm_sha256 := digest |}.

(** [salt]: [None] if it is not a [bytes] object. *)
Definition salted_source_commitment_sha256 (kind binding source_event_sha256 : value)
    (salt : option bytes) : res pystr :=
  let* commitment_kind := text_in COMMITMENT_KIND_RE kind in
  let* effect_binding := digest_text binding in
  let* source_digest := digest_text source_event_sha256 in
  match salt with
  | None => fault "source_commitment_invalid"
  | Some salt =>
      raise_if negb (zlen salt =? 32) with (ContinuityProtocolError "source_commitment_invalid") ;;
      sha256_domain SALTED_SOURCE_COMMITMENT_DOMAIN
        (obj [("schema_version", vstr SOURCE_COMMITMENT_SCHEMA); ("algorithm", vstr COMMITMENT_ALGORITHM);
              ("kind", VStr commitment_kind); ("effect_binding_sha256", VStr effect_binding);
              ("source_event_sha256", VStr source_digest); ("salt", VStr (base64url salt))])
  end.

Definition normalize_source_commitment (v : value) : res SourceCommitment :=
  let* commitment := strict_mapping v
    ["schema_version"; "kind"; "effect_binding_sha256"; "commitment_sha256"] in
  raise_if negb (is_exactly (get commitment "schema_version") SOURCE_COMMITMENT_SCHEMA)
    with (ContinuityProtocolError "unsupported_schema") ;;
  let* kind := text_in COMMITMENT_KIND_RE (get commitment "kind") in
  let* binding := digest_text (get commitment "effect_binding_sha256") in
  let* digest := digest_text (get commitment "commitment_sha256") in
  Ok {| sm_kind := kind; sm_binding := binding; sm_sha256 := digest |}.

Record Effect := { ef_body : EffectBody; ef_commitment : SourceCommitment }.

Definition effect_fields (e : Effect) : list (string * value) :=
  effect_body_fields e.(ef_body) ++
  [("source_commitment", VDict (source_commitment_dict e.(ef_commitment)))].
Definition effect_dict (e : Effect) : dict := fields (effect_fields e).

Definition normalize_effect (v : value) : res Effect :=
  let* effect := strict_mapping v (EFFECT_BODY_FIELDS ++ ["source_commitment"]) in
  let* body := normalize_effect_body
    (VDict (fields (map (fun k => (k, get effect k)) EFFECT_BODY_FIELDS))) in
  let* commitment := normalize_source_commitment (get effect "source_commitment") in
  let* expected := effect_binding_sha256 (VDict (effect_body_dict body)) in
  raise_if negb (bool_decide (commitment.(sm_binding) = expected))
    with (ContinuityProtocolError "source_commitment_invalid") ;;
  Ok {| ef_body := body; ef_commitment := commitment |}.

(** ** Envelopes *)

Record Unsigned := { un_key_id : pystr; un_effect : Effect }.

Definition unsigned_fields (u : Unsigned) : list (string * value) :=
  [("schema_version", vstr ENVELOPE_SCHEMA); ("algorithm", vstr SIGNATURE_ALGORITHM);
   ("key_id", VStr u.(un_key_id)); ("effect", VDict (effect_dict u.(un_effect)))].
Definition unsigned_dict (u : Unsigned) : dict := fields (unsigned_fields u).

(** The envelope with a signature's text. *)
Definition signed_dict (u : Unsigned) (signature : pystr) : dict :=
  fields (unsigned_fields u ++ [("signature", VStr signature)]).

(** [_ensure_unsigned_envelope_capacity] *)
Definition within_capacity (envelope : dict) : res unit :=
  let* raw := canonical_json (VDict envelope) in
  raise_if MAX_ENVELOPE_BYTES <? zlen raw with (ContinuityProtocolError "size_exceeded") ;;
  Ok tt.

Definition prepare_unsigned_envelope (key_id effect : value) : res Unsigned :=
  let* key_id := token_text key_id in
  let* effect := normalize_effect effect in
  let unsigned := {| un_key_id := key_id; un_effect := effect |} in
  let* _ := within_capacity (signed_dict unsigned (replicate 86 65%N)) in
  Ok unsigned.

Definition normalize_unsigned_envelope (v : value) : res Unsigned :=
  let* envelope := strict_mapping v ["schema_version"; "algorithm"; "key_id"; "effect"] in
  raise_if negb (is_exactly (get envelope "schema_version") ENVELOPE_SCHEMA)
    with (ContinuityProtocolError "unsupported_schema") ;;
  raise_if negb (is_exactly (get envelope "algorithm") SIGNATURE_ALGORITHM)
    with (ContinuityProtocolError "unsupported_algorithm") ;;
  prepare_unsigned_envelope (get envelope "key_id") (get envelope "effect").

Definition signing_bytes (v : value) : res bytes :=
  let* unsigned := normalize_unsigned_envelope v in
  let* raw := canonical_json (VDict (unsigned_dict unsigned)) in
  Ok (SIGNING_DOMAIN ++ raw).
End Texts.
