(* ===== verification/ContinuityVerify.v ===== *)
(** * Verification of signed continuity writes

    scripts/john_lomein_continuity_protocol.py, the rest: signatures, signed
    envelopes, the bindings of an effect to the configuration and to the policy
    of its key, and [verify_for_new_admission], [verify_for_replay] and
    [verify_historical_envelope].  [prime_order] is
    [_validate_ed25519_prime_order_point], a parameter here so that the protocol
    can be evaluated with a fast equivalent; the program is the instance
    [prime_order_point] of Ed25519.v. *)

From S2P Require Import Prelude Regex Sha256 PyTime PyUrl PyText Json Protocol Encoding Screening Continuity Ledger Ed25519 ContinuityPolicy ContinuityProtocol.
Local Open Scope Z_scope.

(** [cryptography]: [Ed25519PublicKey.from_public_bytes] accepts the key, and
    [verify] the signature over the message. *)
Class SignatureLibrary := {
  from_public_bytes : bytes -> bool;
  library_verify : bytes -> bytes -> bytes -> bool }.

Record Envelope := { ev_unsigned : Unsigned; ev_signature : pystr }.
Definition envelope_dict (e : Envelope) : dict := signed_dict e.(ev_unsigned) e.(ev_signature).

Definition ENVELOPE_KEYS : list string := ["schema_version"; "algorithm"; "key_id"; "effect"; "signature"].

(** The standard alphabet instead of the one for URLs. *)
Definition standard (c : N) : N := if (c =? 45)%N then 43%N else if (c =? 95)%N then 47%N else c.

(** ** Policy bindings *)

(** [_selected_policy] *)
Definition selected_policy (config : ImportConfig) (key_id : pystr) : res KeyPolicy :=
  match List.filter (fun p => bool_decide (p.(kp_key_id) = key_id)) config.(ic_key_policies) with
  | [p] => Ok p
  | _ => fault "key_unknown"
  end.

(** The policy permits the operation, its kind, its source and its scope. *)
Definition permitted (config : ImportConfig) (permissions : Permissions) (effect : Effect) : res unit :=
  let body := effect.(ef_body) in
  raise_if negb (bool_decide (operation_text body.(eb_operation) ∈ permissions.(pm_operations)))
    with (ContinuityProtocolError "operation_denied") ;;
  raise_if match body.(eb_operation) with
           | OpPut p => negb (bool_decide (payload_kind p.(pu_payload) ∈ permissions.(pm_entry_kinds)))
           | OpSuppress _ => false
           end with (ContinuityProtocolError "kind_denied") ;;
  raise_if negb (bool_decide (effect.(ef_commitment).(sm_kind) ∈ permissions.(pm_commitment_kinds)))
    with (ContinuityProtocolError "source_commitment_invalid") ;;
  let scope := body.(eb_scope) in
  raise_if negb (bool_decide (scope.(sc_privacy) ∈ permissions.(pm_privacy))) ||
           negb (forallb (fun r => bool_decide (r ∈ permissions.(pm_roles))) scope.(sc_roles)) ||
           negb (bool_decide (scope.(sc_repository) = Some config.(ic_repository)))
    with (ContinuityProtocolError "scope_denied") ;;
  Ok tt.

(** The effect's times lie in the policy's, for a time the configuration allows. *)
Definition timely (config : ImportConfig) (policy : KeyPolicy) (body : EffectBody) : res unit :=
  let* issued := utc (VStr body.(eb_issued_at)) in
  let* expires := utc (VStr body.(eb_expires_at)) in
  let* policy_start := utc (VStr policy.(kp_valid_from)) in
  let* policy_end := utc (VStr policy.(kp_valid_until)) in
  let ttl := expires - issued in
  raise_if (issued <? policy_start) || (policy_end <? expires) || (ttl <? MIN_TTL_SECONDS) ||
           (config.(ic_maximum_ttl) <? ttl)
    with (ContinuityProtocolError "time_invalid") ;;
  Ok tt.

(** [_verify_policy_bindings] *)
Definition verify_policy_bindings (config : ImportConfig) (policy : KeyPolicy) (effect : Effect) : res unit :=
  let body := effect.(ef_body) in
  raise_if negb (bool_decide (body.(eb_instance_id) = config.(ic_instance_id)))
    with (ContinuityProtocolError "instance_mismatch") ;;
  raise_if negb (bool_decide (body.(eb_repository) = config.(ic_repository)))
    with (ContinuityProtocolError "scope_denied") ;;
  raise_if negb (bool_decide (body.(eb_ledger_id) = config.(ic_ledger_id)))
    with (ContinuityProtocolError "ledger_mismatch") ;;
  raise_if negb (bool_decide (body.(eb_policy_id) = policy.(kp_policy_id)))
    with (ContinuityProtocolError "policy_mismatch") ;;
  let* digest := policy_authorization_sha256 (VDict (policy_dict policy)) in
  raise_if negb (bool_decide (body.(eb_policy_sha256) = digest))
    with (ContinuityProtocolError "policy_mismatch") ;;
  raise_if negb (bool_decide (body.(eb_authority) = policy.(kp_authority)))
    with (ContinuityProtocolError "authority_mismatch") ;;
  let* _ := permitted config policy.(kp_permissions) effect in
  timely config policy body.

Section Verification.
Context `{!Unicode, !SignatureLibrary} (prime_order : bytes -> bool).

(** ** Signatures and envelopes *)

(** [_decode_signature] *)
Definition decode_signature (v : value) : res bytes :=
  let invalid := ContinuityProtocolError "signature_invalid" in
  match as_text v with
  | None => Raise invalid
  | Some s =>
      raise_if negb (fullmatch SIGNATURE_RE s) with invalid ;;
      let* raw := reraise isa_value (fun _ => invalid) (b64decode (map standard s ++ str "==")) in
      raise_if negb (zlen raw =? 64) || negb (bool_decide (base64url raw = s)) with invalid ;;
      raise_if negb (signature_encoding prime_order raw) with invalid ;;
      Ok raw
  end.

Definition normalize_envelope (v : value) : res Envelope :=
  let* envelope := strict_mapping v ENVELOPE_KEYS in
  let* unsigned := normalize_unsigned_envelope
    (obj (map (fun k => (k, get envelope k)) ["schema_version"; "algorithm"; "key_id"; "effect"])) in
  let* signature := decode_signature (get envelope "signature") in
  let normalized := {| ev_unsigned := unsigned; ev_signature := base64url signature |} in
  let* _ := within_capacity (envelope_dict normalized) in
  Ok normalized.

Definition parse_envelope (raw : bytes) : res Envelope :=
  let* parsed := parse_json raw MAX_ENVELOPE_BYTES in
  let* normalized := normalize_envelope parsed in
  let* expected := canonical_json (VDict (envelope_dict normalized)) in
  raise_if negb (bool_decide (raw = expected)) with (ContinuityProtocolError "noncanonical_json") ;;
  Ok normalized.

(** [public_key_fingerprint]; [None]: not a [bytes] object. *)
Definition public_key_fingerprint (key : option bytes) : res pystr :=
  match key with
  | Some key =>
      raise_if negb (zlen key =? 32) with (ContinuityProtocolError "key_material_invalid") ;;
      raise_if negb (prime_order key) with (ContinuityProtocolError "key_material_invalid") ;;
      Ok (sha256_hex key)
  | None => fault "key_material_invalid"
  end.

Definition envelope_sha256 (v : value) : res pystr :=
  let* normalized := normalize_envelope v in
  sha256_domain ENVELOPE_DIGEST_DOMAIN (VDict (envelope_dict normalized)).

(** ** The history *)

(** Every key of the dictionary, a list of its items. *)
Fixpoint check_public_keys (keys : list (pystr * bytes)) : res unit :=
  match keys with
  | [] => Ok tt
  | (key_id, key) :: keys' =>
      raise_if negb (fullmatch Continuity.TOKEN_RE key_id) || negb (zlen key =? 32)
        with (ContinuityProtocolError "key_material_invalid") ;;
      raise_if negb (prime_order key) with (ContinuityProtocolError "key_material_invalid") ;;
      check_public_keys keys'
  end.

(** [public_keys.get(key_id)] *)
Definition key_of (public_keys : list (pystr * bytes)) (key_id : pystr) : option bytes :=
  option_map snd (List.find (fun kv => bool_decide (kv.1 = key_id)) public_keys).

(** [_verify_cryptographic_history] *)
Definition verify_cryptographic_history (raw_envelope : bytes) (config : value)
    (public_keys : list (pystr * bytes)) : res (ImportConfig * Envelope * KeyPolicy) :=
  let* config := normalize_import_config config in
  let* envelope := parse_envelope raw_envelope in
  let unsigned := envelope.(ev_unsigned) in
  let* policy := selected_policy config unsigned.(un_key_id) in
  raise_if bool_decide (public_keys = []) || (MAX_KEYS <? zlen public_keys)
    with (ContinuityProtocolError "key_material_invalid") ;;
  let* _ := check_public_keys public_keys in
  let key := key_of public_keys policy.(kp_key_id) in
  let* fingerprint := public_key_fingerprint key in
  raise_if negb (bool_decide (fingerprint = policy.(kp_public_key_sha256)))
    with (ContinuityProtocolError "key_fingerprint_mismatch") ;;
  let key := default [] key in
  raise_if negb (from_public_bytes key) with (ContinuityProtocolError "key_material_invalid") ;;
  let* signature := decode_signature (VStr envelope.(ev_signature)) in
  let* message := signing_bytes (VDict (unsigned_dict unsigned)) in
  raise_if negb (library_verify key signature message)
    with (ContinuityProtocolError "signature_invalid") ;;
  let* _ := verify_policy_bindings config policy unsigned.(un_effect) in
  Ok (config, envelope, policy).

(** [_derive_continuity_write] *)
Definition derived_request (u : Unsigned) (put : Put) : dict :=
  let body := u.(un_effect).(ef_body) in
  fields
    [("schema_version", vstr WRITE_SCHEMA); ("entry_id", VStr (entry_id_of body.(eb_write_id)));
     ("kind", VStr (payload_kind put.(pu_payload))); ("subject", VStr put.(pu_subject));
     ("summary", VStr put.(pu_summary)); ("payload", VDict (payload_dict put.(pu_payload)));
     ("source", obj [("kind", VStr body.(eb_authority).(au_source_kind));
        ("trust", VStr body.(eb_authority).(au_source_trust));
        ("actor", VStr body.(eb_authority).(au_actor));
        ("locator", VStr (str "signed-continuity:" ++ u.(un_key_id) ++ str ":" ++ body.(eb_write_id)));
        ("sha256", VStr u.(un_effect).(ef_commitment).(sm_sha256))]);
     ("scope", VDict (scope_dict body.(eb_scope)));
     ("expires_at", vopt VStr put.(pu_memory_expires_at));
     ("supersedes_entry_id", vopt VStr put.(pu_supersedes))].

Definition derive_continuity_write (u : Unsigned) : res (option WriteRequest) :=
  match u.(un_effect).(ef_body).(eb_operation) with
  | OpSuppress _ => Ok None
  | OpPut put =>
      let* _ := entry_id_for_write_id (VStr u.(un_effect).(ef_body).(eb_write_id)) in
      let* request := as_schema_invalid (normalize_typed_write_request (VDict (derived_request u put))) in
      Ok (Some request)
  end.

(** ** Results *)

Record Verified := {
  ve_mode : string; ve_envelope_sha256 : pystr; ve_key_id : pystr; ve_key_state : KeyState;
  ve_entry_id : pystr; ve_write : option WriteRequest; ve_effect : Effect }.

(** The mapping that is returned. *)
Definition verification_dict (v : Verified) : dict :=
  let body := v.(ve_effect).(ef_body) in
  fields
    [("schema_version", vstr VERIFICATION_SCHEMA); ("mode", vstr v.(ve_mode));
     ("envelope_sha256", VStr v.(ve_envelope_sha256)); ("key_id", VStr v.(ve_key_id));
     ("key_state", VStr (state_text v.(ve_key_state))); ("source_authentication", vstr "not_proven");
     ("derived_entry_id", VStr v.(ve_entry_id));
     ("expected_head", VDict (head_dict body.(eb_expected_head)));
     ("continuity_write", vopt (fun r => VDict (request_dict r)) v.(ve_write));
     ("suppression", vopt (fun s => VDict (suppression_dict s)) (suppression_of body.(eb_operation)));
     ("effect", VDict (effect_dict v.(ve_effect)))].

(** [_verification_result] *)
Definition verification_result (mode : string) (envelope : Envelope) (policy : KeyPolicy) : res Verified :=
  let unsigned := envelope.(ev_unsigned) in
  let* digest := envelope_sha256 (VDict (envelope_dict envelope)) in
  let* entry_id := entry_id_for_write_id (VStr unsigned.(un_effect).(ef_body).(eb_write_id)) in
  let* write := derive_continuity_write unsigned in
  Ok {| ve_mode := mode; ve_envelope_sha256 := digest; ve_key_id := unsigned.(un_key_id);
        ve_key_state := policy.(kp_state); ve_entry_id := entry_id; ve_write := write;
        ve_effect := unsigned.(un_effect) |}.

Definition not_revoked (policy : KeyPolicy) : res unit :=
  raise_if bool_decide (policy.(kp_state) = Revoked) with (ContinuityProtocolError "key_revoked") ;;
  Ok tt.

Definition verify_historical_envelope (raw_envelope : bytes) (config : value)
    (public_keys : list (pystr * bytes)) : res Verified :=
  let* (_, envelope, policy) := verify_cryptographic_history raw_envelope config public_keys in
  let* _ := not_revoked policy in
  verification_result "historical" envelope policy.

Definition verify_for_replay (raw_envelope : bytes) (config : value)
    (public_keys : list (pystr * bytes)) (expected_envelope_sha256 : value) : res Verified :=
  let* (_, envelope, policy) := verify_cryptographic_history raw_envelope config public_keys in
  let* _ := not_revoked policy in
  let* expected := digest_text expected_envelope_sha256 in
  let* observed := envelope_sha256 (VDict (envelope_dict envelope)) in
  raise_if negb (bool_decide (expected = observed))
    with (ContinuityProtocolError "replay_digest_mismatch") ;;
  verification_result "replay" envelope policy.

(** [now] in microseconds. *)
Definition in_window (config : ImportConfig) (body : EffectBody) (now : Z) : res unit :=
  let* issued := utc (VStr body.(eb_issued_at)) in
  let* expires := utc (VStr body.(eb_expires_at)) in
  raise_if (now <? issued * 1000000) && (config.(ic_maximum_skew) * 1000000 <? issued * 1000000 - now)
    with (ContinuityProtocolError "not_yet_valid") ;;
  raise_if expires * 1000000 <=? now with (ContinuityProtocolError "expired") ;;
  Ok tt.

Definition verify_for_new_admission (raw_envelope : bytes) (config : value)
    (public_keys : list (pystr * bytes)) (now : Z) : res Verified :=
  let* (config, envelope, policy) := verify_cryptographic_history raw_envelope config public_keys in
  raise_if negb config.(ic_enabled) with (ContinuityProtocolError "importer_disabled") ;;
  raise_if bool_decide (policy.(kp_state) = Retired) with (ContinuityProtocolError "key_retired") ;;
  let* _ := not_revoked policy in
  let* _ := in_window config envelope.(ev_unsigned).(un_effect).(ef_body) now in
  verification_result "new_admission" envelope policy.
End Verification.
