(* ===== verification/Importer.v ===== *)
(** * The signed continuity importer: records, journal, transactions

    scripts/john_lomein_continuity_importer.py, the part that computes: the
    importer's head and its records, the verification of a journal against the
    ledger, the projection that omits tombstones, the entry a signed write adds
    and the transaction that announces it.  ImporterStore.v runs them on the
    store.  Leading underscores of the source's names are dropped. *)

From S2P Require Import Prelude Regex Sha256 PyTime PyUrl PyText Json Protocol Encoding Screening Continuity Ledger ContinuityStore Ed25519 ContinuityPolicy ContinuityProtocol ContinuityVerify.
Local Open Scope Z_scope.

Definition IMPORT_RECORD_SCHEMA : string := "john-lomein.continuity-import-record.v2".
Definition IMPORT_HEAD_SCHEMA : string := "john-lomein.continuity-import-head.v2".
Definition IMPORT_TRANSACTION_SCHEMA : string := "john-lomein.continuity-import-transaction.v2".
Definition IMPORT_RESULT_SCHEMA : string := "john-lomein.continuity-import-result.v2".
Definition IMPORT_ERROR_SCHEMA : string := "john-lomein.continuity-import-error.v2".

Definition MAX_JOURNAL_BYTES : Z := MAX_LEDGER_BYTES.
Definition MAX_JOURNAL_RECORDS : Z := MAX_ENTRIES.
Definition MAX_RECORD_BYTES : Z := MAX_LINE_BYTES.

(** ** Errors *)

(** [_PUBLIC_MESSAGES]; every code that is raised is one of them. *)
Definition IMPORT_MESSAGES : list (string * string) :=
  [("configuration_missing", "signed continuity import is not configured");
   ("configuration_invalid", "signed continuity import configuration is invalid");
   ("importer_disabled", "signed continuity admission is disabled");
   ("key_material_invalid", "signed continuity public-key material is invalid");
   ("envelope_invalid", "signed continuity envelope is invalid");
   ("expected_head_mismatch", "signed continuity expected head differs");
   ("replay_conflict", "signed continuity replay binding conflicts");
   ("target_missing", "signed continuity suppression target is missing");
   ("target_mismatch", "signed continuity suppression target differs");
   ("target_suppressed", "signed continuity target is already suppressed");
   ("transaction_pending", "signed continuity recovery is pending");
   ("state_invalid", "signed continuity importer state is invalid");
   ("state_unsafe", "signed continuity importer filesystem state is unsafe");
   ("size_exceeded", "signed continuity importer size limit was exceeded");
   ("store_busy", "signed continuity store is busy");
   ("store_invalid", "signed continuity store is invalid");
   ("io_error", "signed continuity importer storage failed")].

Definition import_message (code : string) : option string :=
  option_map snd (List.find (fun kv => String.eqb kv.1 code) IMPORT_MESSAGES).

(** What [public_error] tells of an exception. *)
Definition import_error_code (e : exn) : string :=
  match e with
  | ContinuityImporterError code => if is_some (import_message code) then code else "state_invalid"
  | ContinuityProtocolError code =>
      if String.eqb code "importer_disabled" then "importer_disabled"
      else if existsb (String.eqb code) ["key_unknown"; "key_material_invalid"; "key_fingerprint_mismatch"]
      then "key_material_invalid" else "envelope_invalid"
  | ContinuityError code _ =>
      if String.eqb code "store_busy" then "store_busy"
      else if String.eqb code "store_unsafe" then "state_unsafe" else "store_invalid"
  | _ => "state_invalid"
  end.

Definition import_public_error (e : exn) : dict :=
  let code := import_error_code e in
  fields [("schema_version", vstr IMPORT_ERROR_SCHEMA); ("ok", VBool false); ("error_code", vstr code);
          ("message", vstr (default "" (import_message code)))].

Definition state_invalid : exn := ContinuityImporterError "state_invalid".
Definition size_exceeded : exn := ContinuityImporterError "size_exceeded".

Definition isa_signed (e : exn) : bool := match e with ContinuityProtocolError _ => true | _ => false end.

(** [except continuity.ContinuityError: raise _error("state_invalid")], and so
    for [protocol.ContinuityProtocolError] and for both. *)
Definition if_store {A} : res A -> res A := reraise isa_continuity (fun _ => state_invalid).
Definition if_signed {A} : res A -> res A := reraise isa_signed (fun _ => state_invalid).
Definition if_either {A} : res A -> res A :=
  reraise (fun e => isa_continuity e || isa_signed e) (fun _ => state_invalid).

(** [type(v) is str and r.fullmatch(v)], or the state is invalid. *)
Definition text_form (r : re) (v : value) : res pystr :=
  match as_text v with
  | Some s => raise_if negb (fullmatch r s) with state_invalid ;; Ok s
  | None => Raise state_invalid
  end.

(** ** The head of the journal *)

Record ImportHead := {
  ih_ledger_id : pystr; ih_sequence : Z; ih_record_sha256 : pystr; ih_size : Z;
  ih_updated_at : pystr; ih_sha256 : pystr }.

#[export] Instance import_head_eq_dec : EqDecision ImportHead.
Proof. solve_decision. Defined.

Definition import_head_fields (ledger_id : pystr) (sequence : Z) (record_sha256 : pystr) (size : Z)
    (updated_at : pystr) : list (string * value) :=
  [("schema_version", vstr IMPORT_HEAD_SCHEMA); ("ledger_id", VStr ledger_id);
   ("sequence", VInt sequence); ("head_record_sha256", VStr record_sha256);
   ("journal_size_bytes", VInt size); ("updated_at", VStr updated_at)].

Definition import_head_dict (h : ImportHead) : dict :=
  fields (import_head_fields h.(ih_ledger_id) h.(ih_sequence) h.(ih_record_sha256) h.(ih_size)
            h.(ih_updated_at)) ++ fields [("head_sha256", VStr h.(ih_sha256))].

Definition new_import_head (ledger_id : pystr) (sequence : Z) (record_sha256 : pystr) (size : Z)
    (updated_at : pystr) : res ImportHead :=
  let* digest := sha256_json (obj (import_head_fields ledger_id sequence record_sha256 size updated_at)) in
  Ok {| ih_ledger_id := ledger_id; ih_sequence := sequence; ih_record_sha256 := record_sha256;
        ih_size := size; ih_updated_at := updated_at; ih_sha256 := digest |}.

Definition IMPORT_HEAD_KEYS : list string :=
  ["schema_version"; "ledger_id"; "sequence"; "head_record_sha256"; "journal_size_bytes";
   "updated_at"; "head_sha256"].

(** [type(value) is dict and set(value) == keys], or the state is invalid. *)
Definition exact_dict (v : value) (keys : list string) : res dict :=
  match v with
  | VDict d => raise_if negb (same_keys d keys) with state_invalid ;; Ok d
  | _ => Raise state_invalid
  end.

Definition validate_import_head (v : value) : res ImportHead :=
  let* d := exact_dict v IMPORT_HEAD_KEYS in
  raise_if negb (py_eq (get d "schema_version") (vstr IMPORT_HEAD_SCHEMA)) with state_invalid ;;
  let* ledger_id := text_form LEDGER_ID_RE (get d "ledger_id") in
  match exact_int (get d "sequence"), exact_int (get d "journal_size_bytes") with
  | Some sequence, Some size =>
      raise_if (sequence <? 0) || (size <? 0) || (MAX_JOURNAL_BYTES <? size) with state_invalid ;;
      let* record_sha256 := text_form SHA256_RE (get d "head_record_sha256") in
      let* observed := text_form SHA256_RE (get d "head_sha256") in
      let* _ := if_store (parse_utc (get d "updated_at") "import head") in
      let* digest := sha256_json (VDict (without "head_sha256" d)) in
      raise_if negb (bool_decide (observed = digest)) with state_invalid ;;
      raise_if (sequence =? 0) && negb (bool_decide (record_sha256 = ZERO_HASH)) with state_invalid ;;
      Ok {| ih_ledger_id := ledger_id; ih_sequence := sequence; ih_record_sha256 := record_sha256;
            ih_size := size; ih_updated_at := default [] (as_text (get d "updated_at"));
            ih_sha256 := observed |}
  | _, _ => Raise state_invalid
  end.

(** [_read_import_head] *)
Definition import_head_of (content : option bytes) : res ImportHead :=
  let* raw := read_regular content "continuity import head" 4096 in
  raise_if negb (one_line raw) with state_invalid ;;
  let* v := if_store (Continuity.parse_json raw "continuity import head") in
  let* head := validate_import_head v in
  let* expected := canonical_line v in
  raise_if negb (bool_decide (raw = expected)) with state_invalid ;;
  Ok head.

(** ** Records *)

Inductive ImportResult :=
| ResultPut (entry_id entry_sha256 : pystr) (entry_sequence : Z)
| Tombstone (target_entry_id target_entry_sha256 reason : pystr).

Definition result_dict (r : ImportResult) : dict :=
  match r with
  | ResultPut entry_id entry_sha256 entry_sequence =>
      fields [("kind", vstr "put"); ("entry_id", VStr entry_id); ("entry_sha256", VStr entry_sha256);
              ("entry_sequence", VInt entry_sequence)]
  | Tombstone target_entry_id target_entry_sha256 reason =>
      fields [("kind", vstr "suppression_tombstone"); ("target_entry_id", VStr target_entry_id);
              ("target_entry_sha256", VStr target_entry_sha256); ("reason", VStr reason)]
  end.

(** [ir_sequence] is the value itself: the source compares it with a number and
    does not look at its type. *)
Record ImportRecord := {
  ir_sequence : value; ir_previous : pystr; ir_envelope_sha256 : pystr; ir_recorded_at : pystr;
  ir_write_id : pystr; ir_envelope : Envelope; ir_result : ImportResult; ir_sha256 : pystr }.

Definition ir_operation (r : ImportRecord) : pystr :=
  match r.(ir_result) with ResultPut _ _ _ => str "put" | Tombstone _ _ _ => str "suppress" end.

Definition record_base_fields (r : ImportRecord) : list (string * value) :=
  [("schema_version", vstr IMPORT_RECORD_SCHEMA); ("sequence", r.(ir_sequence));
   ("previous_record_sha256", VStr r.(ir_previous)); ("envelope_sha256", VStr r.(ir_envelope_sha256));
   ("recorded_at", VStr r.(ir_recorded_at)); ("write_id", VStr r.(ir_write_id));
   ("operation", VStr (ir_operation r)); ("envelope", VDict (envelope_dict r.(ir_envelope)));
   ("result", VDict (result_dict r.(ir_result)))].

Definition record_dict (r : ImportRecord) : dict :=
  fields (record_base_fields r ++ [("record_sha256", VStr r.(ir_sha256))]).

Definition RECORD_KEYS : list string :=
  ["schema_version"; "sequence"; "previous_record_sha256"; "envelope_sha256"; "recorded_at";
   "write_id"; "operation"; "envelope"; "result"; "record_sha256"].

(** [_result_for_record] *)
Definition result_for_record (v : Verified) (candidate_entry : option Entry) : res ImportResult :=
  match v.(ve_effect).(ef_body).(eb_operation), candidate_entry with
  | OpPut _, Some e => Ok (ResultPut e.(en_id) e.(en_sha256) e.(en_sequence))
  | OpSuppress s, None => Ok (Tombstone s.(su_target_id) s.(su_target_sha256) s.(su_reason))
  | _, _ => Raise state_invalid
  end.

Definition new_import_record (pre_head : ImportHead) (envelope : Envelope) (v : Verified)
    (candidate_entry : option Entry) : res ImportRecord :=
  let body := v.(ve_effect).(ef_body) in
  let* result := result_for_record v candidate_entry in
  let r digest := {| ir_sequence := VInt (pre_head.(ih_sequence) + 1);
    ir_previous := pre_head.(ih_record_sha256); ir_envelope_sha256 := v.(ve_envelope_sha256);
    ir_recorded_at := body.(eb_issued_at); ir_write_id := body.(eb_write_id);
    ir_envelope := envelope; ir_result := result; ir_sha256 := digest |} in
  let* digest := sha256_json (VDict (fields (record_base_fields (r [])))) in
  Ok (r digest).

(** The result of a put: [_validate_import_record_structure], its middle. *)
Definition put_result (v : value) : res ImportResult :=
  let* d := exact_dict v ["kind"; "entry_id"; "entry_sha256"; "entry_sequence"] in
  raise_if negb (py_eq (get d "kind") (vstr "put")) with state_invalid ;;
  let* entry_id := text_form ENTRY_ID_RE (get d "entry_id") in
  let* entry_sha256 := text_form SHA256_RE (get d "entry_sha256") in
  match exact_int (get d "entry_sequence") with
  | Some sequence => raise_if sequence <? 1 with state_invalid ;; Ok (ResultPut entry_id entry_sha256 sequence)
  | None => Raise state_invalid
  end.

(** [v not in SUPPRESSION_REASONS]: a set cannot be asked for a list or a dict. *)
Definition reason_of (v : value) : res pystr :=
  match v with
  | VStr s => raise_if negb (bool_decide (s ∈ map str SUPPRESSION_REASONS)) with state_invalid ;; Ok s
  | VList _ | VDict _ => Raise (TypeError "unhashable type")
  | _ => Raise state_invalid
  end.

Definition tombstone_result (v : value) : res ImportResult :=
  let* d := exact_dict v ["kind"; "target_entry_id"; "target_entry_sha256"; "reason"] in
  raise_if negb (py_eq (get d "kind") (vstr "suppression_tombstone")) with state_invalid ;;
  let* target := text_form ENTRY_ID_RE (get d "target_entry_id") in
  let* digest := text_form SHA256_RE (get d "target_entry_sha256") in
  let* reason := reason_of (get d "reason") in
  Ok (Tombstone target digest reason).

Section Journal.
Context `{!Unicode, !SignatureLibrary} (prime_order : bytes -> bool).

(** [_validate_import_record_structure] *)
Definition validate_import_record (v : value) (expected_sequence : Z) (expected_previous : pystr) :
    res ImportRecord :=
  let* d := exact_dict v RECORD_KEYS in
  raise_if negb (py_eq (get d "schema_version") (vstr IMPORT_RECORD_SCHEMA)) ||
           negb (py_eq (get d "sequence") (VInt expected_sequence)) ||
           negb (py_eq (get d "previous_record_sha256") (VStr expected_previous))
    with state_invalid ;;
  let* envelope_sha256 := text_form SHA256_RE (get d "envelope_sha256") in
  let* write_id := text_form WRITE_ID_RE (get d "write_id") in
  match as_text (get d "operation") with
  | None => Raise state_invalid
  | Some operation =>
      raise_if negb (bool_decide (operation ∈ OPERATIONS)) with state_invalid ;;
      let* observed := text_form SHA256_RE (get d "record_sha256") in
      let* _ := if_either (parse_utc (get d "recorded_at") "import record") in
      let* envelope := if_either (normalize_envelope prime_order (get d "envelope")) in
      raise_if negb (py_eq (VDict (envelope_dict envelope)) (get d "envelope")) with state_invalid ;;
      let* result := (if bool_decide (operation = str "put") then put_result (get d "result")
                      else tombstone_result (get d "result")) in
      let* digest := sha256_json (VDict (without "record_sha256" d)) in
      raise_if negb (bool_decide (observed = digest)) with state_invalid ;;
      Ok {| ir_sequence := get d "sequence"; ir_previous := expected_previous;
            ir_envelope_sha256 := envelope_sha256;
            ir_recorded_at := default [] (as_text (get d "recorded_at")); ir_write_id := write_id;
            ir_envelope := envelope; ir_result := result; ir_sha256 := observed |}
  end.

(** ** Records and the ledger *)

(** [_ledger_prefix_heads]: the heads the ledger had, after [size] bytes. *)
Fixpoint ledger_prefix_heads (size : Z) (entries : list Entry) : res (list Head) :=
  match entries with
  | [] => Ok []
  | e :: entries' =>
      let* line := canonical_line (VDict (entry_dict e)) in
      let size' := size + zlen line in
      let* h := new_head e.(en_ledger_id) e.(en_sequence) e.(en_sha256) size' e.(en_recorded_at) in
      let* heads := ledger_prefix_heads size' entries' in
      Ok (h :: heads)
  end.

(** [_heads_match] *)
Definition heads_match (first second : Head) : res bool :=
  let* a := Continuity.canonical_json (VDict (head_dict first)) in
  let* b := Continuity.canonical_json (VDict (head_dict second)) in
  Ok (bool_decide (a = b)).

(** [_expected_head_is_ledger_prefix]; of two heads with one number the
    dictionary keeps the later one. *)
Definition is_ledger_prefix (expected_head : Head) (heads : list Head) : res bool :=
  if expected_head.(hd_sequence) =? 0 then
    Ok (bool_decide (expected_head.(hd_entry_sha256) = ZERO_HASH) && (expected_head.(hd_size) =? 0))
  else
    match List.find (fun h => h.(hd_sequence) =? expected_head.(hd_sequence)) (rev heads) with
    | Some derived => heads_match expected_head derived
    | None => Ok false
    end.

Definition BOUND_FIELDS : list string :=
  ["entry_id"; "kind"; "subject"; "summary"; "payload"; "source"; "scope"; "expires_at";
   "supersedes_entry_id"].

(** The ledger's entry is the write that was signed. *)
Definition entry_of_write (e : Entry) (w : WriteRequest) : bool :=
  forallb (fun k => py_eq (get (entry_dict e) k) (get (request_dict w) k)) BOUND_FIELDS.

(** [_verify_record_binding]; the identifiers of [entries] are distinct, so
    that the dictionary by identifier finds what [find_entry] finds. *)
Definition verify_record_binding (config : ImportConfig) (public_keys : list (pystr * bytes))
    (entries : list Entry) (heads : list Head) (r : ImportRecord) : res Verified :=
  let* envelope_raw := ContinuityPolicy.canonical_json (VDict (envelope_dict r.(ir_envelope))) in
  let* v := if_signed (verify_for_replay prime_order envelope_raw (VDict (import_config_dict config))
                         public_keys (VStr r.(ir_envelope_sha256))) in
  let body := v.(ve_effect).(ef_body) in
  let expected_head := body.(eb_expected_head) in
  raise_if negb (bool_decide (body.(eb_write_id) = r.(ir_write_id))) ||
           negb (bool_decide (operation_text body.(eb_operation) = ir_operation r)) ||
           negb (bool_decide (body.(eb_issued_at) = r.(ir_recorded_at)))
    with state_invalid ;;
  let* prefix := is_ledger_prefix expected_head heads in
  raise_if negb prefix with state_invalid ;;
  match body.(eb_operation), r.(ir_result) with
  | OpPut _, ResultPut entry_id entry_sha256 entry_sequence =>
      match find_entry entry_id entries, v.(ve_write) with
      | Some e, Some w =>
          raise_if negb (bool_decide (entry_id = v.(ve_entry_id))) ||
                   negb (bool_decide (entry_sha256 = e.(en_sha256))) ||
                   negb (entry_sequence =? e.(en_sequence)) ||
                   negb (bool_decide (e.(en_ledger_id) = expected_head.(hd_ledger_id))) ||
                   negb (e.(en_sequence) =? expected_head.(hd_sequence) + 1) ||
                   negb (bool_decide (e.(en_previous) = expected_head.(hd_entry_sha256))) ||
                   negb (bool_decide (e.(en_recorded_at) = body.(eb_issued_at))) ||
                   negb (entry_of_write e w)
            with state_invalid ;;
          Ok v
      | _, _ => Raise state_invalid
      end
  | OpSuppress s, Tombstone target_id target_sha256 reason =>
      match find_entry target_id entries with
      | Some target =>
          raise_if negb (bool_decide (target_id = s.(su_target_id))) ||
                   negb (bool_decide (target_sha256 = s.(su_target_sha256))) ||
                   negb (bool_decide (reason = s.(su_reason))) ||
                   negb (bool_decide (target.(en_sha256) = target_sha256)) ||
                   negb (bool_decide (target.(en_body).(bo_scope) = body.(eb_scope))) ||
                   (expected_head.(hd_sequence) <? target.(en_sequence))
            with state_invalid ;;
          Ok v
      | None => Raise state_invalid
      end
  | _, _ => Raise state_invalid
  end.

(** ** The journal *)

(** [_suppressed_ids] *)
Definition tombstone_target (r : ImportRecord) : option pystr :=
  match r.(ir_result) with Tombstone target _ _ => Some target | ResultPut _ _ _ => None end.
Definition suppressed_ids (records : list ImportRecord) : list pystr := omap tombstone_target records.

(** What the loop carries; its three sets are read off the records. *)
Record JournalProgress := {
  jp_records : list ImportRecord; jp_previous : pystr; jp_time : pystr }.

Definition journal_start : JournalProgress := {| jp_records := []; jp_previous := ZERO_HASH; jp_time := [] |}.

Definition read_record (sequence : Z) (line : bytes) (p : JournalProgress) : res ImportRecord :=
  raise_if negb (bool_decide (List.last line 0%N = 10%N)) || bool_decide (line = [10%N]) ||
           (MAX_RECORD_BYTES <? zlen line) with state_invalid ;;
  let* v := if_store (Continuity.parse_json line "continuity import record") in
  let* r := validate_import_record v sequence p.(jp_previous) in
  let* expected := canonical_line v in
  raise_if negb (bool_decide (line = expected)) with state_invalid ;;
  Ok r.

(** The record repeats nothing and its time does not go back. *)
Definition fresh_record (r : ImportRecord) (p : JournalProgress) : bool :=
  negb (bool_decide (r.(ir_envelope_sha256) ∈ map ir_envelope_sha256 p.(jp_records))) &&
  negb (bool_decide (r.(ir_write_id) ∈ map ir_write_id p.(jp_records))) &&
  negb (match tombstone_target r with
        | Some target => bool_decide (target ∈ suppressed_ids p.(jp_records)) | None => false end) &&
  negb (negb (bool_decide (p.(jp_time) = [])) && str_ltb r.(ir_recorded_at) p.(jp_time)).

Definition admit_record (config : ImportConfig) (public_keys : list (pystr * bytes))
    (entries : list Entry) (heads : list Head) (r : ImportRecord) (p : JournalProgress) : res JournalProgress :=
  raise_if negb (fresh_record r p) with state_invalid ;;
  let* _ := verify_record_binding config public_keys entries heads r in
  raise_if MAX_JOURNAL_RECORDS <? zlen p.(jp_records) + 1 with size_exceeded ;;
  Ok {| jp_records := p.(jp_records) ++ [r]; jp_previous := r.(ir_sha256); jp_time := r.(ir_recorded_at) |}.

Fixpoint verify_records (config : ImportConfig) (public_keys : list (pystr * bytes))
    (entries : list Entry) (heads : list Head) (sequence : Z) (lines : list bytes) (p : JournalProgress) :
    res JournalProgress :=
  match lines with
  | [] => Ok p
  | line :: lines' =>
      let* r := read_record sequence line p in
      let* p' := admit_record config public_keys entries heads r p in
      verify_records config public_keys entries heads (sequence + 1) lines' p'
  end.

Definition verify_journal_snapshot (raw : bytes) (head : ImportHead) (config : ImportConfig)
    (public_keys : list (pystr * bytes)) (entries : list Entry) : res (list ImportRecord) :=
  raise_if negb (zlen raw =? head.(ih_size)) with state_invalid ;;
  let* heads := ledger_prefix_heads 0 entries in
  let* p := verify_records config public_keys entries heads 1 (byte_lines [] raw) journal_start in
  raise_if negb (zlen p.(jp_records) =? head.(ih_sequence)) ||
           negb (bool_decide (p.(jp_previous) = head.(ih_record_sha256))) ||
           (any p.(jp_records) && negb (bool_decide (head.(ih_updated_at) = p.(jp_time))))
    with state_invalid ;;
  Ok p.(jp_records).

(** ** The projection *)

(** Superseded entries are computed from the whole ledger, before tombstones. *)
Definition effective_entries (entries : list Entry) (records : list ImportRecord) : list Entry :=
  let invisible := suppressed_ids records ++ superseded_ids entries in
  List.filter (fun e => negb (bool_decide (e.(en_id) ∈ invisible))) entries.

(** ** A new write *)

(** [_candidate_entry] *)
Definition candidate_entry (v : Verified) (pre_head : Head) (entries : list Entry) : res (option Entry) :=
  match v.(ve_effect).(ef_body).(eb_operation), v.(ve_write) with
  | OpSuppress _, _ => Ok None
  | OpPut _, None => Raise state_invalid
  | OpPut _, Some write =>
      let* normalized := if_store (normalize_typed_write_request (VDict (request_dict write))) in
      match normalized.(wr_entry_id) with
      | None => Raise state_invalid
      | Some entry_id =>
          raise_if negb (py_eq (VDict (request_dict normalized)) (VDict (request_dict write)))
            with state_invalid ;;
          raise_if MAX_ENTRIES <=? zlen entries with size_exceeded ;;
          raise_if is_some (find_entry entry_id entries) with (ContinuityImporterError "replay_conflict") ;;
          let* _ := if_store (validate_supersession normalized.(wr_body) entries (superseded_ids entries)) in
          let* (candidate, line) :=
            new_entry pre_head entry_id v.(ve_effect).(ef_body).(eb_issued_at) normalized in
          raise_if (MAX_LINE_BYTES <? zlen line) || (MAX_LEDGER_BYTES <? pre_head.(hd_size) + zlen line)
            with size_exceeded ;;
          Ok (Some candidate)
      end
  end.

Definition validate_suppression_target (v : Verified) (entries : list Entry) (records : list ImportRecord) :
    res unit :=
  match v.(ve_effect).(ef_body).(eb_operation) with
  | OpPut _ => Ok tt
  | OpSuppress s =>
      match find_entry s.(su_target_id) entries with
      | None => Raise (ContinuityImporterError "target_missing")
      | Some target =>
          raise_if negb (bool_decide (target.(en_sha256) = s.(su_target_sha256))) ||
                   negb (bool_decide (target.(en_body).(bo_scope) = v.(ve_effect).(ef_body).(eb_scope)))
            with (ContinuityImporterError "target_mismatch") ;;
          raise_if bool_decide (s.(su_target_id) ∈ suppressed_ids records)
            with (ContinuityImporterError "target_suppressed") ;;
          Ok tt
      end
  end.

(** ** Transactions *)

Record ImportTransaction := {
  it_envelope_sha256 : pystr; it_pre_head : Head; it_entry : option Entry; it_entry_line : option bytes;
  it_post_head : Head; it_pre_import : ImportHead; it_record : ImportRecord; it_record_line : bytes;
  it_post_import : ImportHead; it_sha256 : pystr }.

Definition import_transaction_fields (t : ImportTransaction) : list (string * value) :=
  [("schema_version", vstr IMPORT_TRANSACTION_SCHEMA); ("envelope_sha256", VStr t.(it_envelope_sha256));
   ("pre_continuity_head", VDict (head_dict t.(it_pre_head)));
   ("candidate_entry", vopt (fun e => VDict (entry_dict e)) t.(it_entry));
   ("candidate_entry_canonical_line", vopt VStr t.(it_entry_line));
   ("post_continuity_head", VDict (head_dict t.(it_post_head)));
   ("pre_import_head", VDict (import_head_dict t.(it_pre_import)));
   ("candidate_record", VDict (record_dict t.(it_record)));
   ("candidate_record_canonical_line", VStr t.(it_record_line));
   ("post_import_head", VDict (import_head_dict t.(it_post_import)))].

Definition import_transaction_dict (t : ImportTransaction) : dict :=
  fields (import_transaction_fields t ++ [("transaction_sha256", VStr t.(it_sha256))]).

Definition IMPORT_TRANSACTION_KEYS : list string :=
  ["schema_version"; "envelope_sha256"; "pre_continuity_head"; "candidate_entry";
   "candidate_entry_canonical_line"; "post_continuity_head"; "pre_import_head"; "candidate_record";
   "candidate_record_canonical_line"; "post_import_head"; "transaction_sha256"].

(** The ledger's part: the entry's line and the head after it. *)
Definition planned_entry_of (pre_head : Head) (candidate : option Entry) : res (option bytes * Head) :=
  match candidate with
  | None => Ok (None, pre_head)
  | Some e =>
      let* line := canonical_line (VDict (entry_dict e)) in
      let* post := new_head pre_head.(hd_ledger_id) e.(en_sequence) e.(en_sha256)
        (pre_head.(hd_size) + zlen line) e.(en_recorded_at) in
      Ok (Some line, post)
  end.

(** [_new_transaction]; the lines are ASCII, their text is the lines themselves. *)
Definition new_import_transaction (v : Verified) (envelope : Envelope) (pre_head : Head)
    (candidate : option Entry) (pre_import : ImportHead) : res ImportTransaction :=
  let* (entry_line, post_head) := planned_entry_of pre_head candidate in
  let* record := new_import_record pre_import envelope v candidate in
  let* record_line := canonical_line (VDict (record_dict record)) in
  raise_if (MAX_RECORD_BYTES <? zlen record_line) ||
           (MAX_JOURNAL_BYTES <? pre_import.(ih_size) + zlen record_line) ||
           (MAX_JOURNAL_RECORDS <=? pre_import.(ih_sequence))
    with size_exceeded ;;
  let* post_import := new_import_head pre_import.(ih_ledger_id) (pre_import.(ih_sequence) + 1)
    record.(ir_sha256) (pre_import.(ih_size) + zlen record_line) record.(ir_recorded_at) in
  let t digest := {| it_envelope_sha256 := v.(ve_envelope_sha256); it_pre_head := pre_head;
    it_entry := candidate; it_entry_line := entry_line; it_post_head := post_head;
    it_pre_import := pre_import; it_record := record; it_record_line := record_line;
    it_post_import := post_import; it_sha256 := digest |} in
  let* digest := sha256_json (VDict (fields (import_transaction_fields (t [])))) in
  Ok (t digest).

(** [_parse_transaction_raw] *)
Definition parse_transaction_raw (raw : bytes) : res dict :=
  raise_if negb (one_line raw) || (MAX_TRANSACTION_BYTES <? zlen raw) with state_invalid ;;
  let* v := if_store (Continuity.parse_json raw "continuity import transaction") in
  match v with
  | VDict d =>
      let* expected := if_store (canonical_line v) in
      raise_if negb (bool_decide (raw = expected)) with state_invalid ;;
      Ok d
  | _ => Raise state_invalid
  end.

Inductive TransactionKind := Import | Ordinary.

#[export] Instance transaction_kind_eq_dec : EqDecision TransactionKind.
Proof. solve_decision. Defined.

(** [_transaction_kind] *)
Definition transaction_kind (raw : bytes) : res TransactionKind :=
  let* d := parse_transaction_raw raw in
  let schema := get d "schema_version" in
  if py_eq schema (vstr IMPORT_TRANSACTION_SCHEMA) then Ok Import
  else if py_eq schema (vstr TRANSACTION_SCHEMA) then Ok Ordinary
  else Raise state_invalid.

(** [_validate_transaction].  The rebuilt transaction is returned: it equals the
    given one, digest included. *)
Definition validate_import_transaction (d : dict) (config : ImportConfig)
    (public_keys : list (pystr * bytes)) (pre_entries : list Entry) (pre_records : list ImportRecord) :
    res ImportTransaction :=
  raise_if negb (same_keys d IMPORT_TRANSACTION_KEYS) with state_invalid ;;
  raise_if negb (py_eq (get d "schema_version") (vstr IMPORT_TRANSACTION_SCHEMA)) with state_invalid ;;
  let* observed := text_form SHA256_RE (get d "transaction_sha256") in
  let* digest := sha256_json (VDict (without "transaction_sha256" d)) in
  raise_if negb (bool_decide (observed = digest)) with state_invalid ;;
  let* pre_head := validate_head (get d "pre_continuity_head") in
  let* post_head := validate_head (get d "post_continuity_head") in
  let* pre_import := validate_import_head (get d "pre_import_head") in
  let* post_import := validate_import_head (get d "post_import_head") in
  let* record := validate_import_record (get d "candidate_record") (pre_import.(ih_sequence) + 1)
    pre_import.(ih_record_sha256) in
  raise_if negb (py_eq (VStr record.(ir_envelope_sha256)) (get d "envelope_sha256")) with state_invalid ;;
  let* envelope_raw := if_signed (ContinuityPolicy.canonical_json (VDict (envelope_dict record.(ir_envelope)))) in
  let* v := if_signed (verify_for_replay prime_order envelope_raw (VDict (import_config_dict config))
                         public_keys (get d "envelope_sha256")) in
  let body := v.(ve_effect).(ef_body) in
  let* same_head := heads_match body.(eb_expected_head) pre_head in
  raise_if negb same_head || negb (bool_decide (pre_import.(ih_ledger_id) = pre_head.(hd_ledger_id))) ||
           str_ltb body.(eb_issued_at) pre_import.(ih_updated_at)
    with state_invalid ;;
  let* candidate := candidate_entry v pre_head pre_entries in
  let* _ := validate_suppression_target v pre_entries pre_records in
  raise_if negb (py_eq (vopt (fun e => VDict (entry_dict e)) candidate) (get d "candidate_entry"))
    with state_invalid ;;
  let* expected := new_import_transaction v record.(ir_envelope) pre_head candidate pre_import in
  raise_if negb (py_eq (VDict (import_transaction_dict expected)) (VDict d)) with state_invalid ;;
  raise_if negb (bool_decide (post_head = expected.(it_post_head))) ||
           negb (bool_decide (post_import = expected.(it_post_import))) with state_invalid ;;
  Ok expected.
End Journal.
