(* ===== verification/ImporterStore.v ===== *)
(** * The signed continuity importer on the store

    scripts/john_lomein_continuity_importer.py, its operations: admission of a
    signed envelope, recovery, the verified projection, status and inspection.
    They share the directory and the transaction file of ContinuityStore.v; the
    journal and its head are its slots [imports].  The configuration and the
    public keys are files nobody here writes: [Material]. *)

From S2P Require Import Prelude Regex Sha256 PyTime PyUrl PyText Json Protocol Encoding Screening Continuity Ledger ContinuityStore Ed25519 ContinuityPolicy ContinuityProtocol ContinuityVerify Importer.
Local Open Scope Z_scope.
Local Open Scope io_scope.

Definition IMPORT_STATUS_SCHEMA : string := "john-lomein.continuity-import-status.v2".
Definition IMPORT_VERIFY_SCHEMA : string := "john-lomein.continuity-import-verify.v2".
Definition IMPORT_INSPECTION_SCHEMA : string := "john-lomein.continuity-import-inspection.v2".
Definition PROJECTION_INSPECTION_SCHEMA : string := "john-lomein.continuity-projection-inspection.v1".
Definition MAX_OUTPUT_BYTES : Z := 16 * 1024.
Definition MAX_INSPECTION_RECORDS : Z := 32.

Definition refuse {A} (code : string) : io A := lift (Raise (ContinuityImporterError code)).

(** [try: m except <catch>: raise e'] around system calls *)
Definition rescue {A} (catch : exn -> bool) (e' : exn) (m : io A) : io A := fun s =>
  let '(t, (s1, r)) := m s in (t, (s1, reraise catch (fun _ => e') r)).

(** ** Configuration and keys *)

(** The configuration file and the directory of public keys, if they exist. *)
Record Material := { mt_config : option bytes; mt_keys : option (list (pystr * bytes)) }.

Definition public_key_filename (key_id : pystr) : res pystr :=
  raise_if negb (fullmatch Continuity.TOKEN_RE key_id) with (ContinuityImporterError "configuration_invalid") ;;
  Ok (sha256_hex key_id ++ str ".ed25519.pub").

(** [expected_names[name] = key_id] *)
Fixpoint put_name (name key_id : pystr) (l : list (pystr * pystr)) : list (pystr * pystr) :=
  match l with
  | [] => [(name, key_id)]
  | (n, k) :: l' => if bool_decide (n = name) then (n, key_id) :: l' else (n, k) :: put_name name key_id l'
  end.

Fixpoint expected_names (policies : list KeyPolicy) (l : list (pystr * pystr)) : res (list (pystr * pystr)) :=
  match policies with
  | [] => Ok l
  | p :: policies' =>
      let* name := public_key_filename p.(kp_key_id) in
      expected_names policies' (put_name name p.(kp_key_id) l)
  end.

(** Equal as sets. *)
Definition same_names (l m : list pystr) : bool :=
  forallb (fun n => bool_decide (n ∈ m)) l && forallb (fun n => bool_decide (n ∈ l)) m.

Section Keys.
Variable prime_order : bytes -> bool.

(** One key file: its size, its fingerprint and the policy's. *)
Definition load_key (files : list (pystr * bytes)) (policies : list KeyPolicy) (name_id : pystr * pystr) :
    res (pystr * bytes) :=
  let '(name, key_id) := name_id in
  let material := ContinuityImporterError "key_material_invalid" in
  let content := option_map snd (List.find (fun f => bool_decide (f.1 = name)) files) in
  let* raw_key := read_regular content "continuity import public key" 32 in
  raise_if negb (zlen raw_key =? 32) with material ;;
  let* fingerprint := reraise isa_signed (fun _ => material) (public_key_fingerprint prime_order (Some raw_key)) in
  let policy := List.find (fun p => bool_decide (p.(kp_key_id) = key_id)) policies in
  raise_if negb (bool_decide (Some fingerprint = option_map kp_public_key_sha256 policy)) with material ;;
  Ok (key_id, raw_key).

(** [_load_protocol_material] *)
Definition load_protocol_material (m : Material) : res (ImportConfig * list (pystr * bytes) * pystr) :=
  match m.(mt_config) with
  | None => Raise (ContinuityImporterError "configuration_missing")
  | Some content =>
      let* raw_config := read_regular (Some content) "continuity import config" MAX_CONFIG_BYTES in
      let* config := reraise isa_signed (fun _ => ContinuityImporterError "configuration_invalid")
        (parse_import_config raw_config) in
      match m.(mt_keys) with
      | None => Raise (ContinuityImporterError "configuration_missing")
      | Some files =>
          let* names := expected_names config.(ic_key_policies) [] in
          raise_if negb (same_names (map fst files) (map fst names))
            with (ContinuityImporterError "key_material_invalid") ;;
          let* keys := res_map (load_key files config.(ic_key_policies)) names in
          Ok (config, keys, sha256_hex raw_config)
      end
  end.
End Keys.

(** ** Journal files *)

(** [_journal_presence] *)
Definition journal_presence : io (bool * bool) :=
  look (fun s => (s.(imports).(im_name).(seen), is_some s.(imports).(im_head).(seen))).

Definition journal_content (s : Store) : option bytes :=
  if s.(imports).(im_name).(seen) then Some s.(imports).(im_journal).(seen) else None.

Definition read_journal : io bytes :=
  let! content := look journal_content in
  lift (read_regular content "continuity import journal" MAX_JOURNAL_BYTES).

Definition read_import_head : io ImportHead :=
  let! content := look (fun s => s.(imports).(im_head).(seen)) in lift (import_head_of content).

(** [_atomic_write] of the journal's head *)
Definition atomic_write_import_head (raw : bytes) : io unit :=
  let! _ := mutate (fun s => set_imports (set_im_head (now_seen (Some raw) s.(imports).(im_head)) s.(imports)) s) in
  fsync_directory.

Definition write_import_head (h : ImportHead) : io unit :=
  let! raw := lift (canonical_line (VDict (import_head_dict h))) in atomic_write_import_head raw.

(** [os.open(..., O_CREAT | O_EXCL)], [os.fsync] and the directory's sync *)
Definition create_journal : io unit :=
  let! _ := mutate (fun s => set_imports
    {| im_name := now_seen true s.(imports).(im_name); im_journal := Slot [] [];
       im_head := s.(imports).(im_head) |} s) in
  fsync_directory.

(** [_ensure_journal_unlocked] *)
Definition ensure_journal (continuity_head : Head) : io unit :=
  let! (journal_present, head_present) := journal_presence in
  if journal_present && head_present then ret tt
  else if head_present && negb journal_present then refuse "state_invalid"
  else
    let! _ := (if journal_present then ret tt else create_journal) in
    let! raw := read_journal in
    require bool_decide (raw = []) else (refuse "state_invalid") ;;
    if head_present then ret tt
    else
      let! head := lift (new_import_head continuity_head.(hd_ledger_id) 0 ZERO_HASH 0
                           continuity_head.(hd_updated_at)) in
      write_import_head head.

(** ** Appending *)

(** The two files that are appended to. *)
Inductive log := LedgerLog | JournalLog.

Definition log_content (f : log) : Store -> option bytes :=
  match f with LedgerLog => ledger_content | JournalLog => journal_content end.

Definition log_slot (f : log) (s : Store) : slot bytes :=
  match f with LedgerLog => s.(ledger) | JournalLog => s.(imports).(im_journal) end.

Definition set_log (f : log) (x : slot bytes) (s : Store) : Store :=
  match f with LedgerLog => set_ledger x s | JournalLog => set_imports (set_im_journal x s.(imports)) s end.

Definition log_field (f : log) : string :=
  match f with LedgerLog => "continuity ledger" | JournalLog => "continuity import journal" end.

(** Both limits are the same number. *)
Definition log_limit (f : log) : Z :=
  match f with LedgerLog => MAX_LEDGER_BYTES | JournalLog => MAX_JOURNAL_BYTES end.

(** [_write_all]: whatever the sizes of the single writes, every prefix may be seen. *)
Fixpoint write_log (f : log) (raw : bytes) : io unit :=
  match raw with
  | [] => ret tt
  | b :: raw' =>
      let! _ := mutate (fun s => set_log f (now_seen ((log_slot f s).(seen) ++ [b]) (log_slot f s)) s) in
      write_log f raw'
  end.

Definition fsync_log (f : log) : io unit := mutate (fun s => set_log f (settled (log_slot f s)) s).

Definition append_exact (f : log) (line : bytes) (expected_size : Z) : io unit :=
  let! content := look (log_content f) in
  match content with
  | None => refuse "io_error"
  | Some raw =>
      require zlen raw <=? log_limit f else (refuse "state_unsafe") ;;
      require zlen raw =? expected_size else (refuse "state_invalid") ;;
      require expected_size + zlen line <=? log_limit f else (refuse "size_exceeded") ;;
      let! _ := write_log f line in
      fsync_log f
  end.

Definition fsync_exact (f : log) (expected_raw : bytes) : io unit :=
  let! content := look (log_content f) in
  match content with
  | None => refuse "io_error"
  | Some raw =>
      require zlen raw <=? log_limit f else (refuse "state_unsafe") ;;
      require zlen raw =? zlen expected_raw else (refuse "state_invalid") ;;
      let! _ := fsync_log f in
      let! content' := look (log_content f) in
      let! observed := lift (read_regular content' (log_field f) (log_limit f)) in
      require bool_decide (observed = expected_raw) else (refuse "state_invalid") ;;
      ret tt
  end.

(** [_read_pending_raw] *)
Definition read_pending : io (option bytes) :=
  let! content := look (fun s => s.(transaction).(seen)) in
  match content with
  | None => ret None
  | Some raw =>
      let! raw := lift (read_regular (Some raw) "continuity transaction" MAX_TRANSACTION_BYTES) in
      ret (Some raw)
  end.

(** [_clear_transaction] *)
Definition clear_import_transaction (expected_raw : bytes) : io unit :=
  rescue isa_continuity state_invalid (clear_transaction expected_raw).

(** ** Committing *)

(** [_commit_new_transaction_unlocked] *)
Definition commit_import (t : ImportTransaction) (transaction_raw : bytes) : io ImportRecord :=
  let! _ := (match t.(it_entry_line) with
    | None => ret tt
    | Some line =>
        let! _ := append_exact LedgerLog line t.(it_pre_head).(hd_size) in
        let! raw := lift (canonical_line (VDict (head_dict t.(it_post_head)))) in
        atomic_write_head raw
    end) in
  let! _ := append_exact JournalLog t.(it_record_line) t.(it_pre_import).(ih_size) in
  let! _ := write_import_head t.(it_post_import) in
  let! _ := clear_import_transaction transaction_raw in
  ret t.(it_record).

(** How far a file and its head have come. *)
Inductive progress := Untouched | Tail | Complete.

#[export] Instance progress_eq_dec : EqDecision progress.
Proof. solve_decision. Defined.

(** [at_pre], [at_post]: the head is the one before, the one after; [pre],
    [post]: the content before, after. *)
Definition progress_of (at_pre at_post : bool) (raw pre post : bytes) : res progress :=
  if at_pre && bool_decide (raw = pre) then Ok Untouched
  else if at_pre && bool_decide (raw = post) then Ok Tail
  else if at_post && bool_decide (raw = post) then Ok Complete
  else Raise state_invalid.

(** The ledger's progress; a suppression leaves the ledger alone. *)
Definition ledger_progress (t : ImportTransaction) (current : Head) (ledger_raw : bytes) : res progress :=
  let pre := take (Z.to_nat t.(it_pre_head).(hd_size)) ledger_raw in
  match t.(it_entry_line) with
  | None =>
      raise_if negb (bool_decide (current = t.(it_pre_head))) || negb (bool_decide (ledger_raw = pre))
        with state_invalid ;;
      Ok Complete
  | Some line =>
      progress_of (bool_decide (current = t.(it_pre_head))) (bool_decide (current = t.(it_post_head)))
        ledger_raw pre (pre ++ line)
  end.

Definition journal_progress (t : ImportTransaction) (current : ImportHead) (journal_raw : bytes) : res progress :=
  let pre := take (Z.to_nat t.(it_pre_import).(ih_size)) journal_raw in
  progress_of (bool_decide (current = t.(it_pre_import))) (bool_decide (current = t.(it_post_import)))
    journal_raw pre (pre ++ t.(it_record_line)).

Section Operations.
Context `{!Unicode, !SignatureLibrary} (prime_order : bytes -> bool).

(** What the recovery of an import finds. *)
Record Found := { fo_transaction : ImportTransaction; fo_ledger : progress; fo_journal : progress }.

(** The computations of [_recover_import_transaction_unlocked] before it writes. *)
Definition examine_import (value : dict) (config : ImportConfig) (public_keys : list (pystr * bytes))
    (pre_head : Head) (pre_import : ImportHead) (current : Head) (current_import : ImportHead)
    (ledger_raw journal_raw : bytes) : res Found :=
  raise_if (zlen ledger_raw <? pre_head.(hd_size)) || (zlen journal_raw <? pre_import.(ih_size))
    with state_invalid ;;
  let* pre_entries := verify_ledger_snapshot (take (Z.to_nat pre_head.(hd_size)) ledger_raw) pre_head in
  let* pre_records := verify_journal_snapshot prime_order (take (Z.to_nat pre_import.(ih_size)) journal_raw)
    pre_import config public_keys pre_entries in
  let* t := validate_import_transaction prime_order value config public_keys pre_entries pre_records in
  let* on_ledger := ledger_progress t current ledger_raw in
  let* on_journal := journal_progress t current_import journal_raw in
  raise_if negb (bool_decide (on_ledger = Complete)) && negb (bool_decide (on_journal = Untouched))
    with state_invalid ;;
  Ok {| fo_transaction := t; fo_ledger := on_ledger; fo_journal := on_journal |}.

(** [_recover_import_transaction_unlocked] *)
Definition recover_import (raw : bytes) (config : ImportConfig) (public_keys : list (pystr * bytes)) :
    io (option ImportRecord) :=
  let! value := lift (parse_transaction_raw raw) in
  let! pre_head := lift (validate_head (get value "pre_continuity_head")) in
  let! pre_import := lift (validate_import_head (get value "pre_import_head")) in
  let! current := read_head in
  let! current_import := read_import_head in
  let! ledger_raw := read_ledger in
  let! journal_raw := read_journal in
  let! f := lift (examine_import value config public_keys pre_head pre_import current current_import
                    ledger_raw journal_raw) in
  let t := f.(fo_transaction) in
  if bool_decide (f.(fo_ledger) = Untouched) ||
     (negb (is_some t.(it_entry_line)) && bool_decide (f.(fo_journal) = Untouched)) then
    let! _ := clear_import_transaction raw in ret None
  else
    let! _ := (if bool_decide (f.(fo_ledger) = Tail) then
        let! _ := fsync_exact LedgerLog ledger_raw in
        let! head_raw := lift (canonical_line (VDict (head_dict t.(it_post_head)))) in
        atomic_write_head head_raw
      else ret tt) in
    let! _ := (if bool_decide (f.(fo_journal) = Untouched)
               then append_exact JournalLog t.(it_record_line) pre_import.(ih_size) else ret tt) in
    let! _ := (if bool_decide (f.(fo_journal) = Complete) then ret tt
      else
        let! _ := fsync_exact JournalLog
          (take (Z.to_nat pre_import.(ih_size)) journal_raw ++ t.(it_record_line)) in
        write_import_head t.(it_post_import)) in
    let! _ := clear_import_transaction raw in
    ret (Some t.(it_record)).

(** [continuity._recover_transaction_unlocked(root)], its error hidden *)
Definition recover_ordinary : io unit :=
  rescue isa_continuity (ContinuityImporterError "store_invalid")
    (let! _ := recover_transaction None in ret tt).

(** [_recover_any_unlocked] *)
Definition recover_any (config : ImportConfig) (public_keys : list (pystr * bytes)) :
    io (option ImportRecord) :=
  let! pending := read_pending in
  match pending with
  | None => ret None
  | Some raw =>
      let! kind := lift (transaction_kind raw) in
      match kind with
      | Ordinary => let! _ := recover_ordinary in ret None
      | Import => recover_import raw config public_keys
      end
  end.

(** [_read_verified_import_state_unlocked]; [None]: the journal was never
    initialised. *)
Definition read_import_state (config : ImportConfig) (public_keys : list (pystr * bytes))
    (entries : list Entry) (continuity_head : Head) (allow_uninitialized : bool) :
    io (list ImportRecord * option ImportHead) :=
  let! (journal_present, head_present) := journal_presence in
  if negb journal_present && negb head_present && allow_uninitialized then ret ([], None)
  else
    require journal_present && head_present else (refuse "state_invalid") ;;
    let! head := read_import_head in
    require bool_decide (head.(ih_ledger_id) = continuity_head.(hd_ledger_id)) else (refuse "state_invalid") ;;
    let! raw := read_journal in
    let! records := lift (verify_journal_snapshot prime_order raw head config public_keys entries) in
    ret (records, Some head).

(** ** Admission *)

(** The mapping [_public_record_result] returns. *)
Definition public_record_result (r : ImportRecord) (replayed : bool) : dict :=
  fields ([("schema_version", vstr IMPORT_RESULT_SCHEMA); ("ok", VBool true);
    ("disposition", vstr (if replayed then "replayed" else "committed"));
    ("operation", VStr (ir_operation r)); ("write_id", VStr r.(ir_write_id));
    ("envelope_sha256", VStr r.(ir_envelope_sha256)); ("journal_sequence", r.(ir_sequence));
    ("record_sha256", VStr r.(ir_sha256))] ++
    match r.(ir_result) with
    | ResultPut entry_id entry_sha256 _ =>
        [("entry_id", VStr entry_id); ("entry_sha256", VStr entry_sha256)]
    | Tombstone target_id target_sha256 reason =>
        [("target_entry_id", VStr target_id); ("target_entry_sha256", VStr target_sha256);
         ("reason", VStr reason)]
    end).

(** The same envelope was admitted before. *)
Definition replay_record (config : ImportConfig) (public_keys : list (pystr * bytes)) (raw_envelope : bytes)
    (envelope : Envelope) (existing : ImportRecord) : res dict :=
  let* replay := verify_for_replay prime_order raw_envelope (VDict (import_config_dict config)) public_keys
    (VStr existing.(ir_envelope_sha256)) in
  let* ours := ContinuityPolicy.canonical_json (VDict (envelope_dict envelope)) in
  let* theirs := ContinuityPolicy.canonical_json (VDict (envelope_dict existing.(ir_envelope))) in
  raise_if negb (bool_decide (replay.(ve_effect).(ef_body).(eb_write_id) = existing.(ir_write_id))) ||
           negb (bool_decide (ours = theirs))
    with (ContinuityImporterError "replay_conflict") ;;
  Ok (public_record_result existing true).

(** The checks of a new write, and the entry it adds. *)
Definition plan_admission (config : ImportConfig) (public_keys : list (pystr * bytes)) (raw_envelope : bytes)
    (now : Z) (entries : list Entry) (continuity_head : Head) (records : list ImportRecord) :
    res (Verified * option Entry) :=
  let* v := verify_for_new_admission prime_order raw_envelope (VDict (import_config_dict config)) public_keys now in
  let* at_head := heads_match v.(ve_effect).(ef_body).(eb_expected_head) continuity_head in
  raise_if negb at_head with (ContinuityImporterError "expected_head_mismatch") ;;
  let* _ := validate_suppression_target v entries records in
  let* candidate := candidate_entry v continuity_head entries in
  Ok (v, candidate).

(** Intent, then commit. *)
Definition commit_new (v : Verified) (envelope : Envelope) (continuity_head : Head)
    (candidate : option Entry) (import_head : ImportHead) : io dict :=
  require negb (str_ltb v.(ve_effect).(ef_body).(eb_issued_at) import_head.(ih_updated_at))
    else (refuse "state_invalid") ;;
  let! t := lift (new_import_transaction v envelope continuity_head candidate import_head) in
  let! transaction_raw := lift (canonical_line (VDict (import_transaction_dict t))) in
  require zlen transaction_raw <=? MAX_TRANSACTION_BYTES else (refuse "size_exceeded") ;;
  let! pending := read_pending in
  require negb (is_some pending) else (refuse "transaction_pending") ;;
  let! _ := atomic_write_transaction transaction_raw in
  let! record := commit_import t transaction_raw in
  ret (public_record_result record false).

(** [admit_envelope] once the store is recovered, verified and read. *)
Definition admit_unlocked (config : ImportConfig) (public_keys : list (pystr * bytes)) (raw_envelope : bytes)
    (now : Z) : io dict :=
  let! (entries, continuity_head) := verify_store_unlocked in
  require bool_decide (config.(ic_ledger_id) = continuity_head.(hd_ledger_id))
    else (refuse "configuration_invalid") ;;
  let! envelope := lift (parse_envelope prime_order raw_envelope) in
  let! envelope_digest := lift (envelope_sha256 prime_order (VDict (envelope_dict envelope))) in
  let! (journal_present, head_present) := journal_presence in
  require Bool.eqb journal_present head_present else (refuse "state_invalid") ;;
  let! (records, import_head) := (if journal_present
    then read_import_state config public_keys entries continuity_head false else ret ([], None)) in
  match List.find (fun r => bool_decide (r.(ir_envelope_sha256) = envelope_digest)) records with
  | Some existing => lift (replay_record config public_keys raw_envelope envelope existing)
  | None =>
      let write_id := envelope.(ev_unsigned).(un_effect).(ef_body).(eb_write_id) in
      require negb (existsb (fun r => bool_decide (r.(ir_write_id) = write_id)) records)
        else (refuse "replay_conflict") ;;
      let! (v, candidate) :=
        lift (plan_admission config public_keys raw_envelope now entries continuity_head records) in
      match import_head with
      | Some h => commit_new v envelope continuity_head candidate h
      | None =>
          let! _ := ensure_journal continuity_head in
          let! (records, import_head) := read_import_state config public_keys entries continuity_head false in
          match records, import_head with
          | [], Some h => commit_new v envelope continuity_head candidate h
          | _, _ => refuse "state_invalid"
          end
      end
  end.

(** [admit_envelope(runtime_home, raw_envelope, now=now)], [now] in microseconds *)
Definition admit_envelope (m : Material) (raw_envelope : bytes) (now : Z) : io dict :=
  locked (
    let! (config, public_keys, _) := lift (load_protocol_material prime_order m) in
    let! _ := recover_any config public_keys in
    admit_unlocked config public_keys raw_envelope now).

(** ** Recovery and reading *)

(** [_repair_empty_import_initialization_unlocked] *)
Definition repair_empty_initialization : io bool :=
  let! (journal_present, head_present) := journal_presence in
  require negb (head_present && negb journal_present) else (refuse "state_invalid") ;;
  if negb journal_present || head_present then ret false
  else
    let! raw := read_journal in
    require bool_decide (raw = []) else (refuse "state_invalid") ;;
    let! (entries, continuity_head) := verify_store_unlocked in
    require zlen entries =? continuity_head.(hd_sequence) else (refuse "state_invalid") ;;
    let! _ := ensure_journal continuity_head in
    ret true.

Definition disposition (s : string) : dict :=
  fields [("schema_version", vstr IMPORT_RESULT_SCHEMA); ("ok", VBool true); ("disposition", vstr s)].

Definition recover_runtime (m : Material) : io dict :=
  locked (
    let! (config, public_keys, _) := lift (load_protocol_material prime_order m) in
    let! pending := read_pending in
    match pending with
    | None =>
        let! repaired := repair_empty_initialization in
        ret (disposition (if repaired then "repaired_empty_import_state" else "no_recovery_needed"))
    | Some raw =>
        let! kind := lift (transaction_kind raw) in
        match kind with
        | Ordinary =>
            let! _ := recover_ordinary in
            let! _ := repair_empty_initialization in
            ret (disposition "ordinary_transaction_reconciled")
        | Import =>
            let! recovered := recover_import raw config public_keys in
            match recovered with
            | None => ret (disposition "abandoned_unstarted_intent")
            | Some r => ret (public_record_result r true)
            end
        end
    end).

(** [projection_state] *)
Definition projection_state (m : Material) : io (list Entry * Head) :=
  locked (
    let! pending := read_pending in
    match m.(mt_config) with
    | None =>
        let! _ := (match pending with
          | None => ret tt
          | Some raw =>
              let! kind := lift (transaction_kind raw) in
              require bool_decide (kind = Ordinary) else (refuse "configuration_missing") ;;
              recover_ordinary
          end) in
        let! (journal_present, head_present) := journal_presence in
        require negb (journal_present || head_present) else (refuse "configuration_missing") ;;
        verify_store_unlocked
    | Some _ =>
        let! (config, public_keys, _) := lift (load_protocol_material prime_order m) in
        let! _ := recover_any config public_keys in
        let! (entries, head) := verify_store_unlocked in
        require bool_decide (config.(ic_ledger_id) = head.(hd_ledger_id))
          else (refuse "configuration_invalid") ;;
        let! (records, _) := read_import_state config public_keys entries head true in
        ret (effective_entries entries records, head)
    end).

(** What the read-only operations verify. *)
Record RuntimeState := {
  rs_config : ImportConfig; rs_keys : list (pystr * bytes); rs_config_sha256 : pystr;
  rs_entries : list Entry; rs_head : Head; rs_records : list ImportRecord;
  rs_import_head : option ImportHead }.

(** The state once the transaction is known to be absent. *)
Definition runtime_state (m : Material) : io RuntimeState :=
  let! (config, keys, config_sha256) := lift (load_protocol_material prime_order m) in
  let! (entries, head) := verify_store_unlocked in
  require bool_decide (config.(ic_ledger_id) = head.(hd_ledger_id)) else (refuse "configuration_invalid") ;;
  let! (records, import_head) := read_import_state config keys entries head true in
  ret {| rs_config := config; rs_keys := keys; rs_config_sha256 := config_sha256; rs_entries := entries;
         rs_head := head; rs_records := records; rs_import_head := import_head |}.

(** [_verified_runtime_state(paths, allow_uninitialized=True)] *)
Definition verified_runtime_state (m : Material) : io RuntimeState :=
  locked (
    let! pending := read_pending in
    require negb (is_some pending) else (refuse "transaction_pending") ;;
    runtime_state m).

(** [len(effective_entries(...))], [len(_suppressed_ids(...))]: the latter is a set. *)
Definition effective_count (st : RuntimeState) : Z := zlen (effective_entries st.(rs_entries) st.(rs_records)).
Definition suppressed_count (st : RuntimeState) : Z := zlen (remove_dups (suppressed_ids st.(rs_records))).

Definition inspect_projection_state (m : Material) : io dict :=
  let report configured enabled sequence effective initialized imports suppressed :=
    fields [("schema_version", vstr PROJECTION_INSPECTION_SCHEMA); ("configured", VBool configured);
            ("enabled", VBool enabled); ("continuity_sequence", VInt sequence);
            ("effective_entry_count", VInt effective); ("import_state_initialized", VBool initialized);
            ("import_sequence", VInt imports); ("suppressed_entry_count", VInt suppressed)] in
  locked (
    let! pending := read_pending in
    require negb (is_some pending) else (refuse "transaction_pending") ;;
    match m.(mt_config) with
    | None =>
        let! (journal_present, head_present) := journal_presence in
        require negb (journal_present || head_present) else (refuse "configuration_missing") ;;
        let! (entries, head) := verify_store_unlocked in
        ret (report false false head.(hd_sequence) (zlen entries) false 0 0)
    | Some _ =>
        let! st := runtime_state m in
        ret (report true st.(rs_config).(ic_enabled) st.(rs_head).(hd_sequence) (effective_count st)
               (is_some st.(rs_import_head)) (zlen st.(rs_records)) (suppressed_count st))
    end).

Definition status_fields (configured enabled pending : bool) : list (string * value) :=
  [("schema_version", vstr IMPORT_STATUS_SCHEMA); ("ok", VBool true); ("configured", VBool configured);
   ("enabled", VBool enabled); ("recovery_pending", VBool pending)].

(** The first critical section of [status]: an answer, unless the importer is
    configured and nothing is pending. *)
Definition status_first (m : Material) : io (option dict) :=
  locked (
    let! pending := read_pending in
    match m.(mt_config), pending with
    | None, Some _ => ret (Some (fields (status_fields false false true)))
    | None, None =>
        let! (entries, head) := verify_store_unlocked in
        let! (journal_present, head_present) := journal_presence in
        ret (Some (fields (status_fields false false false ++
          [("continuity_sequence", VInt head.(hd_sequence)); ("continuity_head_sha256", VStr head.(hd_sha256));
           ("import_state_initialized", VBool (journal_present || head_present));
           ("import_sequence", VInt 0); ("effective_entry_count", VInt (zlen entries))])))
    | Some _, Some _ =>
        let! (config, _, _) := lift (load_protocol_material prime_order m) in
        ret (Some (fields (status_fields true config.(ic_enabled) true)))
    | Some _, None => ret None
    end).

Definition status (m : Material) : io dict :=
  let! first := status_first m in
  match first with
  | Some d => ret d
  | None =>
      let! st := verified_runtime_state m in
      ret (fields (status_fields true st.(rs_config).(ic_enabled) false ++
        [("public_key_count", VInt (zlen st.(rs_keys)));
         ("active_key_count", VInt (zlen (List.filter (fun p => bool_decide (p.(kp_state) = Active))
            st.(rs_config).(ic_key_policies))));
         ("continuity_sequence", VInt st.(rs_head).(hd_sequence));
         ("continuity_head_sha256", VStr st.(rs_head).(hd_sha256));
         ("import_state_initialized", VBool (is_some st.(rs_import_head)));
         ("import_sequence", VInt (zlen st.(rs_records)));
         ("effective_entry_count", VInt (effective_count st));
         ("suppressed_entry_count", VInt (suppressed_count st))]))
  end.

Definition verify_runtime (m : Material) : io dict :=
  let! st := verified_runtime_state m in
  ret (fields
    [("schema_version", vstr IMPORT_VERIFY_SCHEMA); ("ok", VBool true);
     ("enabled", VBool st.(rs_config).(ic_enabled)); ("config_sha256", VStr st.(rs_config_sha256));
     ("public_key_count", VInt (zlen st.(rs_keys)));
     ("continuity_sequence", VInt st.(rs_head).(hd_sequence));
     ("continuity_head_sha256", VStr st.(rs_head).(hd_sha256));
     ("import_state_initialized", VBool (is_some st.(rs_import_head)));
     ("import_sequence", VInt (zlen st.(rs_records)));
     ("import_head_sha256", vopt (fun h => VStr h.(ih_sha256)) st.(rs_import_head));
     ("effective_entry_count", VInt (effective_count st));
     ("suppressed_entry_count", VInt (suppressed_count st))]).

(** What [inspect_runtime] shows of a record: no text of the memory. *)
Definition record_projection (r : ImportRecord) : dict :=
  let body := r.(ir_envelope).(ev_unsigned).(un_effect).(ef_body) in
  fields ([("sequence", r.(ir_sequence)); ("recorded_at", VStr r.(ir_recorded_at));
    ("write_id", VStr r.(ir_write_id)); ("operation", VStr (ir_operation r));
    ("envelope_sha256", VStr r.(ir_envelope_sha256)); ("record_sha256", VStr r.(ir_sha256));
    ("privacy", VStr body.(eb_scope).(sc_privacy))] ++
    match r.(ir_result), body.(eb_operation) with
    | ResultPut entry_id entry_sha256 _, OpPut put =>
        [("entry_id", VStr entry_id); ("entry_sha256", VStr entry_sha256);
         ("entry_kind", VStr (payload_kind put.(pu_payload)))]
    | Tombstone target_id target_sha256 reason, _ =>
        [("target_entry_id", VStr target_id); ("target_entry_sha256", VStr target_sha256);
         ("reason", VStr reason)]
    | ResultPut _ _ _, OpSuppress _ => []
    end).

(** [records[-limit:]] *)
Definition last_records (limit : Z) (records : list ImportRecord) : list ImportRecord :=
  drop (length records - Z.to_nat limit) records.

Definition inspect_runtime (m : Material) (limit : Z) : io dict :=
  require (1 <=? limit) && (limit <=? MAX_INSPECTION_RECORDS) else (refuse "state_invalid") ;;
  let! st := verified_runtime_state m in
  let output := fields
    [("schema_version", vstr IMPORT_INSPECTION_SCHEMA); ("ok", VBool true);
     ("enabled", VBool st.(rs_config).(ic_enabled));
     ("continuity_head_sha256", VStr st.(rs_head).(hd_sha256));
     ("import_sequence", VInt (zlen st.(rs_records))); ("effective_entry_count", VInt (effective_count st));
     ("records", VList (map (fun r => VDict (record_projection r)) (last_records limit st.(rs_records))));
     ("redacted", VBool true)] in
  let! raw := lift (Continuity.canonical_json (VDict output)) in
  require zlen raw <=? MAX_OUTPUT_BYTES else (refuse "size_exceeded") ;;
  ret output.

(** ** The command line *)

(** The parsed commands; [envelope]: the file's content, if it exists. *)
Inductive Command := Status | Verify | Inspect (limit : Z) | Admit (envelope : option bytes) | Recover.

Definition run_command (m : Material) (c : Command) (now : Z) : io dict :=
  match c with
  | Status => status m
  | Verify => verify_runtime m
  | Inspect limit => inspect_runtime m limit
  | Admit envelope =>
      let! raw := lift (read_regular envelope "signed continuity envelope" MAX_ENVELOPE_BYTES) in
      admit_envelope m raw now
  | Recover => recover_runtime m
  end.

(** [_write_output]: the bytes it writes *)
Definition output_of (d : dict) : res bytes :=
  let* raw := canonical_line (VDict d) in
  raise_if MAX_OUTPUT_BYTES <? zlen raw with size_exceeded ;;
  Ok raw.

Definition reported (e : exn) : bool :=
  match e with
  | ContinuityImporterError _ | ContinuityProtocolError _ | ContinuityError _ _ => true
  | _ => isa_os e
  end.

(** [main]: what is written and the exit code *)
Definition main (m : Material) (c : Command) (now : Z) : io (bytes * Z) := fun s =>
  let '(t, (s1, r)) := (let! d := run_command m c now in lift (output_of d)) s in
  match r with
  | Ok raw => (t, (s1, Ok (raw, 0)))
  | Raise e =>
      if reported e then (t, (s1, let* raw := output_of (import_public_error e) in Ok (raw, 1)))
      else (t, (s1, Raise e))
  end.
End Operations.
