(* ===== verification/EnvelopeFacts.v ===== *)
(** * The bytes of a signed envelope

    The protocol reads an envelope up to key order ([normalize_envelope_sim]) and
    compares the bytes with the canonical text of what it read; hence what it
    accepts is its own normal form ([envelope_again]): what is signed, what the
    effect's binding commits to and what the envelope's digest hashes are the
    canonical texts of the accepted record and its parts. *)

From S2P Require Import Prelude Regex Sha256 PyTime PyUrl PyText Json JsonFacts JsonSize JsonWf JsonSim Protocol Encoding Screening ScreeningFacts Continuity ContinuityFacts Normalised Ledger LedgerFacts Ed25519 ContinuityPolicy ContinuityProtocol ContinuityVerify.
Local Open Scope Z_scope.

(** ** Canonical JSON *)

Lemma norm_ok_mono v d d' : d <= d' -> norm_ok d' v = true -> norm_ok d v = true.
Proof.
  revert d d'. induction v as [|b|z|t|s|l IH|m IH] using value_nested_ind; intros d d' Hd; simpl;
    destruct (Z.leb_spec d' MAX_JSON_DEPTH), (Z.leb_spec d MAX_JSON_DEPTH); try lia; simpl; try done.
  - rewrite !forallb_forall. intros Hl x Hx. rewrite Forall_forall in IH.
    apply (IH x (proj2 (list_elem_of_In _ _) Hx) (d + 1) (d' + 1)); [lia | auto].
  - rewrite !forallb_forall. intros Hl x Hx. rewrite Forall_forall in IH.
    apply (IH x (proj2 (list_elem_of_In _ _) Hx) (d + 1) (d' + 1)); [lia | auto].
Qed.

(** The protocol's limit of depth is eight less than the store's. *)
Lemma validate_protocol_spec v depth :
  validate_canonical_value depth v = Ok tt <-> norm_ok (depth + 8) v = true.
Proof.
  revert depth. induction v as [|b|z|t|s|l IH|d IH] using value_nested_ind; intros depth; simpl;
    change MAX_JSON_DEPTH with 32; change PROTOCOL_JSON_DEPTH with 24;
    destruct (Z.leb_spec (depth + 8) 32), (Z.ltb_spec 24 depth); try lia; simpl; try done.
  - destruct (Z.leb_spec I64_MIN z), (Z.ltb_spec z I64_MIN), (Z.leb_spec z I64_MAX),
      (Z.ltb_spec I64_MAX z); try lia; simpl; done.
  - induction IH as [|x l Hx _ IHl]; [done |]. simpl.
    replace (depth + 8 + 1) with (depth + 1 + 8) in * by lia. rewrite andb_true_iff, <- IHl, <- Hx.
    destruct (validate_canonical_value (depth + 1) x) as [[]|]; [tauto |]. split; [done | by intros [? _]].
  - induction IH as [|[k x] d Hx _ IHd]; [done |]. simpl in *.
    replace (depth + 8 + 1) with (depth + 1 + 8) in * by lia. rewrite andb_true_iff, <- IHd, <- Hx.
    destruct (validate_canonical_value (depth + 1) x) as [[]|]; [tauto |]. split; [done | by intros [? _]].
Qed.

Lemma protocol_canonical v raw :
  canonical_json v = Ok raw <-> norm_ok 8 v = true /\ raw = utf8 (dumps v).
Proof.
  unfold canonical_json. pose proof (validate_protocol_spec v 0) as H. change (0 + 8) with 8 in H.
  destruct (validate_canonical_value 0 v) as [[]|].
  - rewrite (proj1 H eq_refl). split; [by intros [= <-] | by intros [_ ->]].
  - split; [done | intros [Hn _]]. by apply H in Hn.
Qed.

Lemma norm_ok_8_sim v w : sim v w -> norm_ok 8 v = norm_ok 8 w.
Proof. intros (_ & _ & E). by rewrite <- (norm_ok_canon v), E, norm_ok_canon. Qed.

Lemma protocol_canonical_sim v w raw : sim v w -> canonical_json v = Ok raw -> canonical_json w = Ok raw.
Proof.
  intros H [Hn ->]%protocol_canonical. apply protocol_canonical. rewrite <- (norm_ok_8_sim v w H).
  split; [done |]. unfold dumps. by rewrite (proj2 (proj2 H)).
Qed.

Lemma validate_protocol_sim v w : sim v w -> validate_canonical_value 0 v = Ok tt -> validate_canonical_value 0 w = Ok tt.
Proof. intros H. rewrite !validate_protocol_spec. change (0 + 8) with 8. by rewrite (norm_ok_8_sim v w H). Qed.

Lemma sha256_domain_sim dom v w h : sim v w -> sha256_domain dom v = Ok h -> sha256_domain dom w = Ok h.
Proof.
  unfold sha256_domain. intros H. destruct (canonical_json v) as [raw|] eqn:E; [|done].
  by rewrite (protocol_canonical_sim v w raw).
Qed.

(** The canonical text of a well-formed value reads back. *)
Lemma parse_protocol_canonical v raw maximum :
  wf v -> canonical_json v = Ok raw -> raw <> [] -> zlen raw <= maximum -> parse_json raw maximum = Ok (canon v).
Proof.
  intros Hw [Hn ->]%protocol_canonical Hne Hl. apply (norm_ok_mono _ 0) in Hn; [|lia].
  pose proof (dumps_printable v Hn) as Hp. rewrite printable_utf8 in * by done.
  unfold parse_json. rewrite bool_decide_false by done. destruct (Z.ltb_spec maximum (zlen (dumps v))); [lia |].
  unfold decode_strict. rewrite utf8_decode_ascii by (eapply Forall_impl; [exact Hp |]; simpl; lia).
  assert (encodable (dumps v) = true) as ->.
  { unfold encodable. apply forallb_forall. intros c Hc%list_elem_of_In. unfold printable in Hp. rewrite Forall_forall in Hp.
    specialize (Hp c Hc). rewrite orb_true_iff, N.ltb_lt. simpl in Hp. lia. }
  cbn [negb reraise]. rewrite <- (app_nil_r (dumps v)). unfold dumps.
  rewrite loads_with_text; [done | | by apply good_canon | done].
  intros neg n t H0 Hz Ht. unfold protocol_number. by rewrite pnumber_i64.
Qed.

(** ** Fields up to key order *)

Lemma as_text_sim v w : sim v w -> as_text v = as_text w.
Proof. intros H%sim_view. destruct v, w; try done. simpl in *. by subst. Qed.

Lemma text_in_sim r v w : sim v w -> text_in r v = text_in r w.
Proof. intros H. unfold text_in. by rewrite (as_text_sim v w). Qed.

Lemma token_text_sim v w : sim v w -> token_text v = token_text w.
Proof. apply text_in_sim. Qed.

Lemma digest_text_sim v w : sim v w -> digest_text v = digest_text w.
Proof. apply text_in_sim. Qed.

Lemma is_exactly_sim v w s : sim v w -> is_exactly v s = is_exactly w s.
Proof. intros H. unfold is_exactly. by rewrite (as_text_sim v w). Qed.

Lemma utc_sim v w : sim v w -> utc v = utc w.
Proof. intros H%sim_view. destruct v, w; try done. simpl in *. by subst. Qed.

Lemma is_none_sim v w : sim v w -> is_none v = is_none w.
Proof. intros H%sim_view. by destruct v, w. Qed.

Lemma is_text_sim v w : sim v w -> is_text v = is_text w.
Proof. intros H%sim_view. by destruct v, w. Qed.

Lemma is_dict_sim v w : sim v w -> is_dict v = is_dict w.
Proof. intros H%sim_view. by destruct v, w. Qed.

Lemma texts_sim v w : sim v w -> texts v = texts w.
Proof.
  intros H%sim_view. destruct v as [| | | | |l|], w as [| | | | |m|]; try done. simpl in H |- *.
  induction H as [|x y l m Hx _ IH]; [done |]. simpl. by rewrite (as_text_sim x y Hx), IH.
Qed.

Lemma ordered_unique_sim v w order : sim v w -> ordered_unique v order = ordered_unique w order.
Proof. intros H. unfold ordered_unique. by rewrite (texts_sim v w). Qed.

(** A mapping is read through its members. *)
Lemma strict_sim {A} v w required (k l : dict -> res A) a :
  sim v w -> (forall d e, sim (VDict d) (VDict e) -> k d = Ok a -> l e = Ok a) ->
  (let* d := strict_mapping v required in k d) = Ok a -> (let* e := strict_mapping w required in l e) = Ok a.
Proof.
  intros H Hk. pose proof (sim_view _ _ H) as Hv. destruct v as [| | | | | |d], w as [| | | | | |e]; try done.
  simpl in Hv. unfold strict_mapping, protocol_mapping. rewrite (same_keys_sim _ _ _ Hv).
  destruct (same_keys e required); [|done]. cbn [negb]. by apply Hk.
Qed.

Ltac members H :=
  let M := fresh "M" in
  pose proof (sim_dict _ _ H) as M;
  rewrite ?(as_text_sim _ _ (get_sim _ _ _ M)), ?(text_in_sim _ _ _ (get_sim _ _ _ M)),
    ?(token_text_sim _ _ (get_sim _ _ _ M)), ?(digest_text_sim _ _ (get_sim _ _ _ M)),
    ?(is_exactly_sim _ _ _ (get_sim _ _ _ M)), ?(utc_sim _ _ (get_sim _ _ _ M)),
    ?(is_none_sim _ _ (get_sim _ _ _ M)), ?(is_text_sim _ _ (get_sim _ _ _ M)),
    ?(is_dict_sim _ _ (get_sim _ _ _ M)), ?(ordered_unique_sim _ _ _ (get_sim _ _ _ M)),
    ?(optional_sim _ _ _ (get_sim _ _ _ M) (text_in_sim _)).

(** Goes through the checks of both sides together. *)
Ltac step_with L H Hok :=
  let E := fresh "E" in
  match type of Hok with
  | (match ?x with _ => _ end) = _ => destruct x eqn:E; [|discriminate Hok];
      eapply L in E; [rewrite E | apply get_sim, sim_dict, H]
  end.

Lemma normalize_authority_sim v w : sim v w -> normalize_authority v = normalize_authority w.
Proof.
  intros H. pose proof (sim_view _ _ H) as Hv. destruct v as [| | | | | |d], w as [| | | | | |e]; try done.
  unfold normalize_authority, strict_mapping, protocol_mapping. simpl in Hv. rewrite (same_keys_sim _ _ _ Hv).
  destruct (same_keys e AUTHORITY_KEYS); [|done]. cbn [negb]. by members H.
Qed.

Lemma normalize_signed_scope_sim v w : sim v w -> normalize_signed_scope v = normalize_signed_scope w.
Proof.
  intros H. pose proof (sim_view _ _ H) as Hv. destruct v as [| | | | | |d], w as [| | | | | |e]; try done.
  unfold normalize_signed_scope, strict_mapping, protocol_mapping. simpl in Hv. rewrite (same_keys_sim _ _ _ Hv).
  destruct (same_keys e _); [|done]. cbn [negb]. by members H.
Qed.

Lemma normalize_head_sim v w h : sim v w -> normalize_expected_head v = Ok h -> normalize_expected_head w = Ok h.
Proof.
  intros Hs. apply strict_sim; [done |]. intros d e H Hok.
  destruct (validate_canonical_value 0 (VDict d)) as [[]|] eqn:E; [|done].
  rewrite (validate_protocol_sim _ _ H E). unfold as_schema_invalid, reraise in *.
  destruct (validate_head (VDict d)) as [h'|x] eqn:Eh; [|by destruct x]. by rewrite (validate_head_sim _ _ _ H Eh).
Qed.

Lemma text_in_ok r v s : text_in r v = Ok s -> v = VStr s /\ fullmatch r s = true.
Proof.
  unfold text_in. intros H. destruct v as [| | | |t| |]; try done. cbn [as_text] in H. inv_ok H. done.
Qed.

Ltac text_facts := unfold token_text, digest_text in *;
  repeat match goal with Hf : text_in _ _ = Ok _ |- _ => apply text_in_ok in Hf as [_ Hf] end.

Section Envelopes.
Context `{U : !Unicode}.

Lemma put_texts_sim kind d e : sim (VDict d) (VDict e) -> put_texts kind d = put_texts kind e.
Proof.
  intros H%sim_dict. unfold put_texts.
  rewrite (safe_text_sim _ _ _ _ _ (get_sim _ _ "subject" H)), (safe_text_sim _ _ _ _ _ (get_sim _ _ "summary" H)).
  by rewrite (normalize_payload_sim kind _ _ (get_sim _ _ "payload" H)).
Qed.

Lemma normalize_put_sim v w class issued p :
  sim v w -> normalize_put v class issued = Ok p -> normalize_put w class issued = Ok p.
Proof.
  intros Hs. apply strict_sim; [done |]. intros d e H. members H.
  destruct (as_text (get e "kind")) as [kind|]; [|done]. rewrite (put_texts_sim _ _ _ H). unfold memory_expiry.
  rewrite (optional_sim _ _ _ (get_sim _ _ "memory_expires_at" M)) by (intros x y Hx; by rewrite (utc_sim x y)).
  intros Hok.
  destruct (negb (bool_decide (kind ∈ intrinsic_kinds class))); [done |].
  destruct (negb _ || negb _ || negb _); [done |].
  destruct (validate_canonical_value 0 (get d "payload")) as [[]|] eqn:E; [|done].
  by rewrite (validate_protocol_sim _ _ (get_sim _ _ _ M) E).
Qed.

Lemma normalize_suppression_sim v w s : sim v w -> normalize_suppression v = Ok s -> normalize_suppression w = Ok s.
Proof. intros Hs. apply strict_sim; [done |]. intros d e H. by members H. Qed.

Lemma normalize_operation_sim d e operation class issued o :
  sim (VDict d) (VDict e) -> normalize_operation d operation class issued = Ok o ->
  normalize_operation e operation class issued = Ok o.
Proof.
  intros H. unfold normalize_operation. members H. intros Hok. case_bool_decide.
  - destruct (negb (is_none _)); [done |]. step_with normalize_put_sim H Hok; done.
  - destruct (negb _ || _); [done |]. step_with normalize_suppression_sim H Hok; done.
Qed.

Lemma normalize_effect_body_sim v w b : sim v w -> normalize_effect_body v = Ok b -> normalize_effect_body w = Ok b.
Proof.
  intros Hs. apply strict_sim; [done |]. intros d e H. members H.
  rewrite (normalize_authority_sim _ _ (get_sim _ _ "authority" M)), (normalize_signed_scope_sim _ _ (get_sim _ _ "scope" M)).
  intros Hok. case_res Hok. do 3 case_res Hok. step_with normalize_head_sim H Hok.
  repeat case_res Hok.
  match goal with Ho : normalize_operation d _ _ _ = Ok _ |- _ => by rewrite (normalize_operation_sim _ _ _ _ _ _ H Ho) end.
Qed.

(** Members picked out of a mapping. *)
Lemma picked_sim ks d e :
  bool_decide (NoDup (map str ks)) = true -> forallb (fun k => forallb plainb (str k)) ks = true ->
  sim (VDict d) (VDict e) ->
  sim (VDict (fields (map (fun k => (k, get d k)) ks))) (VDict (fields (map (fun k => (k, get e k)) ks))).
Proof.
  intros Hn Hp H. pose proof (sim_dict _ _ H) as M. destruct H as (Hd & He & _).
  assert (Hk : forall d : dict, keys (fields (map (fun k => (k, get d k)) ks)) = map str ks).
  { intros d'. unfold keys, fields. rewrite !map_map. done. }
  assert (Hw : forall d, wf (VDict d) -> wf (VDict (fields (map (fun k => (k, get d k)) ks)))).
  { intros d' Hd'. apply wf_fields; [by rewrite Hk | |].
    - rewrite forallb_forall in Hp |- *. intros kv (k & <- & Hk')%in_map_iff. by apply Hp.
    - rewrite Forall_fmap. apply Forall_forall. intros k _. by apply wf_get. }
  apply bool_decide_eq_true in Hn.
  apply (same_dict _ _ ks); [by apply Hw | by apply Hw | intros k; by rewrite Hk.. |].
  intros k Hin.
  assert (Hg : forall d : dict, get (fields (map (fun k => (k, get d k)) ks)) k = get d k).
  { intros d'. apply get_fields_elem; [by rewrite Hk |]. apply list_elem_of_fmap. by exists k. }
  rewrite !Hg. apply (get_sim _ _ k M).
Qed.

Lemma effect_binding_sim v w h : sim v w -> effect_binding_sha256 v = Ok h -> effect_binding_sha256 w = Ok h.
Proof.
  intros H. pose proof (sim_view _ _ H) as Hv. destruct v as [| | | | | |d], w as [| | | | | |e]; try done.
  unfold effect_binding_sha256, protocol_mapping.
  destruct (normalize_effect_body (VDict (without _ d))) as [b|] eqn:E; [|done].
  by rewrite (normalize_effect_body_sim _ _ _ (without_sim "source_commitment" _ _ H) E).
Qed.

Lemma normalize_commitment_sim v w c :
  sim v w -> normalize_source_commitment v = Ok c -> normalize_source_commitment w = Ok c.
Proof. intros Hs. apply strict_sim; [done |]. intros d e H. by members H. Qed.

Lemma normalize_effect_sim v w e : sim v w -> normalize_effect v = Ok e -> normalize_effect w = Ok e.
Proof.
  intros Hs. apply strict_sim; [done |]. intros d d' H Hok.
  destruct (normalize_effect_body _) as [b|] eqn:E; [|done].
  rewrite (normalize_effect_body_sim _ _ _ (picked_sim EFFECT_BODY_FIELDS _ _ eq_refl eq_refl H) E).
  step_with normalize_commitment_sim H Hok. exact Hok.
Qed.

Lemma prepare_unsigned_sim v w k u :
  sim v w -> prepare_unsigned_envelope k v = Ok u -> prepare_unsigned_envelope k w = Ok u.
Proof.
  intros H. unfold prepare_unsigned_envelope. destruct (token_text k); [|done].
  destruct (normalize_effect v) as [e|] eqn:E; [|done]. by rewrite (normalize_effect_sim v w e).
Qed.

Lemma normalize_unsigned_sim v w u :
  sim v w -> normalize_unsigned_envelope v = Ok u -> normalize_unsigned_envelope w = Ok u.
Proof.
  intros Hs. apply strict_sim; [done |]. intros d e H. members H.
  destruct (negb _); [done |]. destruct (negb _); [done |]. unfold prepare_unsigned_envelope.
  rewrite (token_text_sim _ _ (get_sim _ _ "key_id" M)). destruct (token_text _); [|done].
  destruct (normalize_effect (get d "effect")) as [f|] eqn:E; [|done].
  by rewrite (normalize_effect_sim _ _ f (get_sim _ _ "effect" M)).
Qed.

Lemma decode_signature_sim prime_order v w : sim v w -> decode_signature prime_order v = decode_signature prime_order w.
Proof. intros H. unfold decode_signature. by rewrite (as_text_sim v w). Qed.

Lemma normalize_envelope_sim prime_order v w e :
  sim v w -> normalize_envelope prime_order v = Ok e -> normalize_envelope prime_order w = Ok e.
Proof.
  intros Hs. apply strict_sim; [done |]. intros d d' H. pose proof (sim_dict _ _ H) as M.
  rewrite (decode_signature_sim _ _ _ (get_sim _ _ "signature" M)).
  destruct (normalize_unsigned_envelope _) as [u|] eqn:E; [|done]. unfold obj in *.
  by rewrite (normalize_unsigned_sim _ _ _ (picked_sim ["schema_version"; "algorithm"; "key_id"; "effect"] _ _ eq_refl eq_refl H) E).
Qed.

(** ** The records are well-formed values *)

Lemma optional_text_ok r v s : optional v (text_in r) = Ok (Some s) -> fullmatch r s = true.
Proof.
  unfold optional. destruct v as [| | | |t| |]; try done. destruct (text_in r (VStr t)) as [x|] eqn:E; [|done].
  intros [= ->]. by apply text_in_ok in E as [_ E].
Qed.

Lemma plain_re_good r s : cls_within plain r -> fullmatch r s = true -> good_str s.
Proof. intros Hr H. by apply plain_good, (fullmatch_within plain r). Qed.

Lemma write_id_good s : fullmatch WRITE_ID_RE s = true -> good_str s.
Proof. apply plain_re_good. split; [apply lit_plain; by apply plain_str | apply hex_plain]. Qed.

Lemma repo_good s : fullmatch REPO_RE s = true -> good_str s.
Proof. intros H. by apply plain_good, repo_plain. Qed.

Lemma commitment_kind_good s : fullmatch COMMITMENT_KIND_RE s = true -> good_str s.
Proof.
  apply plain_re_good. split.
  - intros a Ha. apply alnum_plain. unfold alnum. by rewrite Ha.
  - intros a. rewrite !orb_true_iff. intros [[Ha|Ha]|Ha].
    + apply alnum_plain. unfold alnum. by rewrite Ha.
    + apply alnum_plain. unfold alnum. by rewrite Ha, orb_true_r.
    + apply (alnum_or_plain "_.-"); [done |]. unfold alnum_or. by rewrite Ha, orb_true_r.
Qed.

Lemma utc_text_good t : good_str (utc_text t).
Proof. apply plain_good, utc_text_plain. Qed.

#[local] Hint Resolve write_id_good repo_good commitment_kind_good utc_text_good ledger_id_good : good_text.

Lemma normalize_authority_wf v a : normalize_authority v = Ok a -> wf (VDict (authority_dict a)).
Proof.
  unfold normalize_authority. intros H. destruct (strict_mapping _ _) as [d|]; [|done].
  destruct (as_text (get d "class")) as [c|]; [|done].
  destruct (as_text (get d "source_kind")) as [kind|]; [|done].
  destruct (as_text (get d "source_trust")) as [trust|]; [|done].
  destruct (authority_class c kind trust) as [class|] eqn:E; [|done]. inv_ok H. text_facts.
  assert (good_str kind /\ good_str trust) as [Hk Ht].
  { unfold authority_class in E. repeat case_bool_decide; try done; subst.
    - split; by apply str_good.
    - split; [eapply str_choice_good; [eassumption | by vm_compute] | by apply str_good]. }
  assert (good_str (class_text class)) by (by destruct class; apply str_good).
  wf_display; eauto with good_text.
Qed.

Lemma in_order_within order raw : Forall (fun x => x ∈ order) (in_order order raw).
Proof. apply Forall_forall. intros x [Hx _]%list_elem_of_In%filter_In. by apply list_elem_of_In. Qed.

Lemma ordered_unique_within v order l : ordered_unique v order = Ok l -> Forall (fun x => x ∈ order) l.
Proof.
  unfold ordered_unique, known_unique. intros H. destruct (texts v) as [[|x raw]|]; try done.
  case_res H. cbv zeta in H. case_res H. injection H as <-. apply in_order_within.
Qed.

Lemma normalize_signed_scope_wf v s : normalize_signed_scope v = Ok s -> wf (VDict (scope_dict s)).
Proof.
  unfold normalize_signed_scope. intros H. destruct (strict_mapping _ _) as [d|]; [|done].
  destruct (as_text (get d "privacy")) as [privacy|]; [|done]. case_res H. split_bools.
  destruct (ordered_unique _ _) as [roles|] eqn:Er; [|done]. inv_ok H.
  wf_display; [eauto with good_text | apply wf_list | apply wf_vopt].
  - rewrite Forall_fmap. eapply Forall_impl; [by eapply ordered_unique_within |].
    intros r Hr. constructor. by apply role_good.
  - cbn [sc_repository]. intros r ->.
    match goal with Hf : optional _ _ = Ok _ |- _ => apply optional_text_ok in Hf end. eauto with good_text.
Qed.

Lemma put_wf v class issued p : normalize_put v class issued = Ok p -> wf (VDict (put_dict p)).
Proof.
  unfold normalize_put. intros H. destruct (strict_mapping _ _) as [d|]; [|done].
  destruct (as_text (get d "kind")) as [kind|]; [|done]. do 3 case_res H.
  destruct (put_texts kind d) as [[[subject summary] payload]|] eqn:Et; [|done].
  inv_ok H. unfold put_texts, reraise in Et.
  destruct (safe_text (get d "subject") _ _ _) as [s1|x] eqn:Hs1; [|by destruct x].
  destruct (safe_text (get d "summary") _ _ _) as [s2|x] eqn:Hs2; [|by destruct x].
  destruct (normalize_payload kind _) as [p|x] eqn:Hp; [|by destruct x]. injection Et as -> -> ->.
  apply safe_text_good in Hs1, Hs2. apply normalize_payload_again in Hp as (<- & Hp & _).
  unfold put_dict. cbn [pu_payload pu_subject pu_summary pu_memory_expires_at pu_supersedes].
  wf_display; [|apply wf_vopt; intros s ->..].
  - split_bools. destruct class; eapply str_choice_good; [done | by vm_compute | done | by vm_compute].
  - match goal with Hf : memory_expiry ?x _ = Ok _ |- _ => unfold memory_expiry, optional in Hf; destruct x; try done; inv_ok Hf end.
    inv_oks. apply utc_text_good.
  - match goal with Hf : optional _ _ = Ok _ |- _ => apply optional_text_ok in Hf end. eauto with good_text.
Qed.

Lemma suppression_wf v s : normalize_suppression v = Ok s -> wf (VDict (suppression_dict s)).
Proof.
  unfold normalize_suppression. intros H. destruct (strict_mapping _ _) as [d|]; [|done].
  destruct (as_text _) as [reason|]; [|done]. inv_ok H. text_facts. wf_display; eauto with good_text.
Qed.

Lemma operation_wf d operation class issued o :
  normalize_operation d operation class issued = Ok o ->
  good_str (operation_text o) /\ wf (vopt (fun p => VDict (put_dict p)) (put_of o)) /\
  wf (vopt (fun s => VDict (suppression_dict s)) (suppression_of o)).
Proof.
  unfold normalize_operation. intros H. case_bool_decide; inv_ok H.
  - split_and!; [by apply str_good | by eapply put_wf | constructor].
  - split_and!; [by apply str_good | constructor | by eapply suppression_wf].
Qed.

Lemma effect_body_wf v b : wf v -> normalize_effect_body v = Ok b -> wf (VDict (effect_body_dict b)).
Proof.
  unfold normalize_effect_body. intros Hw H. destruct (strict_mapping v _) as [d|] eqn:Ed; [|done].
  assert (v = VDict d) as ->.
  { unfold strict_mapping, protocol_mapping in Ed. destruct v; try done. inv_ok Ed. done. }
  case_res H. repeat case_res H. injection H as <-. text_facts.
  match goal with Hh : normalize_expected_head _ = Ok ?h |- _ => assert (wf (VDict (head_dict h))) end.
  { match goal with Hh : normalize_expected_head (get d ?k) = Ok _ |- _ =>
      pose proof (wf_get k d Hw) as Hwh; unfold normalize_expected_head in Hh;
      destruct (get d k) as [| | | | | |hd]; try done end.
    unfold strict_mapping, protocol_mapping, as_schema_invalid, reraise in *.
    destruct (negb (same_keys hd HEAD_KEYS)); [done |]. destruct (validate_canonical_value _ _); [|done].
    destruct (validate_head (VDict hd)) as [h|x] eqn:Eh; [|by destruct x]. simplify_eq.
    by apply (validate_head_again _ _ Hwh). }
  match goal with Ho : normalize_operation _ _ _ _ = Ok _ |- _ => apply operation_wf in Ho as (? & ? & ?) end.
  match goal with Ha : normalize_authority _ = Ok _ |- _ => apply normalize_authority_wf in Ha end.
  match goal with Hs : normalize_signed_scope _ = Ok _ |- _ => apply normalize_signed_scope_wf in Hs end.
  unfold effect_body_dict, effect_body_fields.
  cbn [eb_instance_id eb_repository eb_ledger_id eb_expected_head eb_policy_id eb_policy_sha256 eb_write_id
       eb_issued_at eb_expires_at eb_authority eb_scope eb_operation].
  wf_display; eauto with good_text.
Qed.

Lemma commitment_wf v c : normalize_source_commitment v = Ok c -> wf (VDict (source_commitment_dict c)).
Proof.
  unfold normalize_source_commitment. intros H. destruct (strict_mapping _ _) as [d|]; [|done]. inv_ok H. text_facts.
  wf_display; eauto with good_text.
Qed.

Lemma strict_wf v ks d : wf v -> strict_mapping v ks = Ok d -> wf (VDict d).
Proof. intros Hw H. unfold strict_mapping, protocol_mapping in H. destruct v; try done. by inv_ok H. Qed.

Lemma picked_wf ks d :
  bool_decide (NoDup (map str ks)) = true -> forallb (fun k => forallb plainb (str k)) ks = true ->
  wf (VDict d) -> wf (VDict (fields (map (fun k => (k, get d k)) ks))).
Proof. intros Hn Hp Hw. by apply (picked_sim ks d d Hn Hp (sim_refl _ Hw)). Qed.

Lemma effect_wf v e : wf v -> normalize_effect v = Ok e -> wf (VDict (effect_dict e)).
Proof.
  unfold normalize_effect. intros Hw H. destruct (strict_mapping v _) as [d|] eqn:Ed; [|done].
  apply (strict_wf v) in Ed; [|done]. destruct (normalize_effect_body _) as [b|] eqn:Eb; [|done].
  apply effect_body_wf in Eb; [|by apply picked_wf].
  destruct (normalize_source_commitment _) as [c|] eqn:Ec; [|done]. apply commitment_wf in Ec. inv_ok H.
  unfold effect_dict, effect_fields. cbn [ef_body ef_commitment]. rewrite <- fields_app.
  apply wf_snoc; [done | | by apply str_good | done]. apply (bool_decide_unpack _). by vm_compute.
Qed.

Lemma unsigned_wf v u : wf v -> normalize_unsigned_envelope v = Ok u -> wf (VDict (unsigned_dict u)).
Proof.
  unfold normalize_unsigned_envelope, prepare_unsigned_envelope. intros Hw H.
  destruct (strict_mapping v _) as [d|] eqn:Ed; [|done]. apply (strict_wf v) in Ed; [|done]. inv_ok H.
  inv_oks. text_facts. match goal with He : normalize_effect _ = Ok _ |- _ => apply effect_wf in He; [|by apply wf_get] end.
  wf_display; eauto with good_text.
Qed.

Lemma signature_text prime_order v s : decode_signature prime_order v = Ok s -> v = VStr (base64url s) /\
  fullmatch SIGNATURE_RE (base64url s) = true /\ zlen s = 64 /\ signature_encoding prime_order s = true.
Proof.
  unfold decode_signature. intros H. destruct v as [| | | |t| |]; try done. cbn [as_text] in H.
  inv_ok H. subst t. split_and!; [done | done | by apply Z.eqb_eq | done].
Qed.

Lemma signature_good s : fullmatch SIGNATURE_RE s = true -> good_str s.
Proof. apply plain_re_good. intros a. by apply (alnum_or_plain "_-"). Qed.

Lemma envelope_wf prime_order v e : wf v -> normalize_envelope prime_order v = Ok e -> wf (VDict (envelope_dict e)).
Proof.
  unfold normalize_envelope. intros Hw H. destruct (strict_mapping v _) as [d|] eqn:Ed; [|done].
  apply (strict_wf v) in Ed; [|done]. destruct (normalize_unsigned_envelope _) as [u|] eqn:Eu; [|done].
  apply unsigned_wf in Eu; [|by apply (picked_wf ["schema_version"; "algorithm"; "key_id"; "effect"])].
  inv_ok H. match goal with Hs : decode_signature _ _ = Ok _ |- _ => apply signature_text in Hs as (_ & Hs & _) end.
  unfold envelope_dict, signed_dict. cbn [ev_unsigned ev_signature]. rewrite <- fields_app.
  apply wf_snoc; [done | | by apply str_good | constructor; by apply signature_good].
  apply (bool_decide_unpack _). by vm_compute.
Qed.

(** ** What is accepted is normal *)

Lemma parse_protocol_wf raw maximum v :
  ascii_text raw -> parse_json raw maximum = Ok v -> wf v.
Proof.
  intros Hr. unfold parse_json. do 2 (destruct (_ : bool); [done |]).
  unfold decode_strict. rewrite utf8_decode_ascii by done. destruct (encodable raw); [|done]. cbn [negb reraise].
  intros H. destruct (loads_with _ _ _ raw) as [w|x] eqn:E; [|by destruct x]. injection H as <-.
  eapply loads_with_wf; [|exact Hr | exact E]. intros neg s Hs. unfold protocol_number.
  pose proof (pnumber_yields neg s Hs) as H. destruct (pnumber neg s) as [[v r]|x]; [|done]. by destruct v.
Qed.

Lemma canonical_nonempty d raw : canonical_json (VDict d) = Ok raw -> raw <> [].
Proof.
  intros [Hn ->]%protocol_canonical. apply (norm_ok_mono _ 0) in Hn; [|lia].
  rewrite printable_utf8 by by apply dumps_printable. unfold dumps. rewrite canon_dict. cbn [dumps_raw]. done.
Qed.

(** An accepted envelope passes again, and its bytes are its canonical text. *)
Lemma envelope_again prime_order raw e :
  parse_envelope prime_order raw = Ok e ->
  canonical_json (VDict (envelope_dict e)) = Ok raw /\ wf (VDict (envelope_dict e)) /\
  normalize_envelope prime_order (VDict (envelope_dict e)) = Ok e.
Proof.
  unfold parse_envelope. intros H. destruct (parse_json raw MAX_ENVELOPE_BYTES) as [v|] eqn:Ev; [|done].
  destruct (normalize_envelope prime_order v) as [e'|] eqn:En; [|done].
  destruct (canonical_json _) as [expected|] eqn:Ec; [|done]. inv_ok H. subst expected.
  pose proof (proj1 (protocol_canonical _ _) Ec) as [Hn Hraw]. apply (norm_ok_mono _ 0) in Hn; [|lia].
  assert (Hp : printable raw) by (rewrite Hraw, printable_utf8; by apply dumps_printable).
  assert (Hwv : wf v).
  { eapply parse_protocol_wf; [|exact Ev]. eapply Forall_impl; [exact Hp |]. simpl. lia. }
  pose proof (envelope_wf _ _ _ Hwv En) as Hw. split_and!; [done | done |].
  apply (normalize_envelope_sim _ v); [|done].
  assert (Hl : zlen raw <= MAX_ENVELOPE_BYTES).
  { unfold parse_json in Ev. destruct (bool_decide _); [done |].
    destruct (Z.ltb_spec MAX_ENVELOPE_BYTES (zlen raw)); [done | lia]. }
  rewrite (parse_protocol_canonical _ _ _ Hw Ec (canonical_nonempty _ _ Ec) Hl) in Ev.
  injection Ev as <-. symmetry. by apply sim_canon.
Qed.
End Envelopes.
