(* ===== verification/VerifyFacts.v ===== *)
(** * What verification of a signed write guarantees

    An admitted envelope was signed by the active, pinned key of an enabled
    configuration over exactly the effect that is returned, and the effect is
    one that the key's policy permits, in time ([admission_sound]).  Its digest
    pins its bytes: it replays after its key is retired or the importer is
    disabled, but not after the key is revoked ([replay_after_rotation]).  The
    binding in its source commitment commits to the whole effect
    ([binding_commits]). *)

From S2P Require Import Prelude Regex Sha256 PyTime PyUrl PyText Json JsonFacts JsonSize JsonWf JsonSim Protocol Encoding Screening ScreeningFacts Continuity ContinuityFacts Normalised Ledger LedgerFacts Chain Ed25519 ContinuityPolicy ContinuityProtocol ContinuityVerify EnvelopeFacts.
Local Open Scope Z_scope.

(** ** The parts of an accepted envelope are normal too *)

Lemma pick_fields (l l' : list (string * value)) :
  bool_decide (NoDup (keys (fields l))) = true -> (forall x, x ∈ l' -> x ∈ l) ->
  map (fun k => (k, get (fields l) k)) (map fst l') = l'.
Proof.
  intros Hn%bool_decide_eq_true Hin. induction l' as [|[k v] l' IH]; [done |]. cbn [map fst].
  rewrite (get_fields_elem k v l) by (done || apply Hin; left). f_equal. apply IH. intros x Hx. apply Hin. by right.
Qed.

Section Facts.
Context `{U : !Unicode}.

Lemma unsigned_again prime_order e :
  normalize_envelope prime_order (VDict (envelope_dict e)) = Ok e ->
  normalize_unsigned_envelope (VDict (unsigned_dict e.(ev_unsigned))) = Ok e.(ev_unsigned).
Proof.
  destruct e as [u s]. unfold normalize_envelope, envelope_dict, signed_dict. cbn [ev_unsigned ev_signature].
  destruct (strict_mapping _ _) as [d|] eqn:Ed; [|done].
  assert (d = fields (unsigned_fields u ++ [("signature", VStr s)])) as ->.
  { unfold strict_mapping, protocol_mapping in Ed. by inv_ok Ed. }
  change ["schema_version"; "algorithm"; "key_id"; "effect"] with (map fst (unsigned_fields u)).
  unfold obj. rewrite pick_fields; [|by vm_compute | intros x Hx; apply elem_of_app; by left].
  intros H. destruct (normalize_unsigned_envelope _) as [u'|] eqn:Eu; [|done]. inv_ok H. done.
Qed.

Lemma effect_again u :
  normalize_unsigned_envelope (VDict (unsigned_dict u)) = Ok u ->
  normalize_effect (VDict (effect_dict u.(un_effect))) = Ok u.(un_effect).
Proof.
  unfold normalize_unsigned_envelope, prepare_unsigned_envelope. intros H.
  destruct (strict_mapping _ _) as [d|] eqn:Ed; [|done].
  assert (d = unsigned_dict u) as ->. { unfold strict_mapping, protocol_mapping in Ed. by inv_ok Ed. }
  assert (get (unsigned_dict u) "effect" = VDict (effect_dict u.(un_effect))) as Eg.
  { unfold unsigned_dict, unsigned_fields. by rewrite !get_display. }
  rewrite Eg in H. inv_ok H. inv_oks. subst. done.
Qed.

Lemma body_again f :
  normalize_effect (VDict (effect_dict f)) = Ok f ->
  normalize_effect_body (VDict (effect_body_dict f.(ef_body))) = Ok f.(ef_body) /\
  effect_binding_sha256 (VDict (effect_body_dict f.(ef_body))) = Ok f.(ef_commitment).(sm_binding).
Proof.
  unfold normalize_effect. intros H. destruct (strict_mapping _ _) as [d|] eqn:Ed; [|done].
  assert (d = effect_dict f) as ->. { unfold strict_mapping, protocol_mapping in Ed. by inv_ok Ed. }
  unfold effect_dict, effect_fields in H.
  change EFFECT_BODY_FIELDS with (map fst (effect_body_fields f.(ef_body))) in H.
  rewrite pick_fields in H; [|by vm_compute | intros x Hx; apply elem_of_app; by left].
  change (fields (effect_body_fields f.(ef_body))) with (effect_body_dict f.(ef_body)) in H.
  destruct (normalize_effect_body _) as [b|] eqn:Eb; [|done]. inv_ok H. subst. cbn [ef_body ef_commitment] in *.
  split; [done |]. match goal with Hx : effect_binding_sha256 _ = Ok _ |- _ => rewrite Hx end. by f_equal.
Qed.

Lemma domain_digest dom v h : sha256_domain dom v = Ok h ->
  norm_ok 8 v = true /\ h = sha256_hex (dom ++ utf8 (dumps v)).
Proof.
  unfold sha256_domain. destruct (canonical_json v) as [raw|] eqn:E; [|done]. intros [= <-].
  by apply protocol_canonical in E as [? ->].
Qed.

(** What an accepted envelope's parts are. *)
Record accepted (raw : bytes) (e : Envelope) : Prop := {
  ac_bytes : canonical_json (VDict (envelope_dict e)) = Ok raw;
  ac_wf : wf (VDict (effect_body_dict e.(ev_unsigned).(un_effect).(ef_body)));
  ac_unsigned : normalize_unsigned_envelope (VDict (unsigned_dict e.(ev_unsigned))) = Ok e.(ev_unsigned);
  ac_body : normalize_effect_body (VDict (effect_body_dict e.(ev_unsigned).(un_effect).(ef_body))) =
    Ok e.(ev_unsigned).(un_effect).(ef_body);
  ac_binding : effect_binding_sha256 (VDict (effect_body_dict e.(ev_unsigned).(un_effect).(ef_body))) =
    Ok e.(ev_unsigned).(un_effect).(ef_commitment).(sm_binding) }.

Lemma envelope_accepted prime_order raw e :
  parse_envelope prime_order raw = Ok e -> accepted raw e.
Proof.
  intros (Hc & Hw & Hn)%envelope_again. pose proof (unsigned_again _ _ Hn) as Hu.
  destruct (body_again _ (effect_again _ Hu)) as [Hb Hs]. split; try done.
  apply (wf_get "effect") in Hw.
  assert (get (envelope_dict e) "effect" = VDict (effect_dict e.(ev_unsigned).(un_effect))) as Eg.
  { unfold envelope_dict, signed_dict, unsigned_fields. cbn [app]. by rewrite !get_display. }
  rewrite Eg in Hw. apply (wf_without "source_commitment") in Hw. revert Hw.
  unfold effect_dict, effect_fields. rewrite <- fields_app, without_snoc; [done |].
  apply (bool_decide_unpack _). by vm_compute.
Qed.

(** The digest of an accepted envelope is that of its bytes. *)
Lemma envelope_digest prime_order raw e d :
  parse_envelope prime_order raw = Ok e -> envelope_sha256 prime_order (VDict (envelope_dict e)) = Ok d ->
  d = sha256_hex (ENVELOPE_DIGEST_DOMAIN ++ raw).
Proof.
  intros (Hc & _ & Hn)%envelope_again. unfold envelope_sha256. rewrite Hn. unfold sha256_domain. rewrite Hc.
  by intros [= <-].
Qed.

Lemma message_signed raw e m :
  accepted raw e -> signing_bytes (VDict (unsigned_dict e.(ev_unsigned))) = Ok m ->
  m = SIGNING_DOMAIN ++ utf8 (dumps (VDict (unsigned_dict e.(ev_unsigned)))).
Proof.
  intros H. unfold signing_bytes. rewrite (ac_unsigned _ _ H).
  destruct (canonical_json _) as [t|] eqn:E; [|done]. intros [= <-]. by apply protocol_canonical in E as [_ ->].
Qed.

(** ** The binding *)

(** Canonical text identifies a value up to key order. *)
Lemma dumps_inj v w :
  wf v -> wf w -> norm_ok 0 v = true -> norm_ok 0 w = true -> dumps v = dumps w -> canon v = canon w.
Proof.
  intros Hv Hw Nv Nw E. pose proof (loads_dumps JSONDecodeError JSONDecodeError v Hv Nv) as H1.
  rewrite E, (loads_dumps _ _ w Hw Nw) in H1. congruence.
Qed.


Lemma binding_digest raw e :
  accepted raw e ->
  let body := e.(ev_unsigned).(un_effect).(ef_body) in
  norm_ok 8 (VDict (effect_body_dict body)) = true /\
  e.(ev_unsigned).(un_effect).(ef_commitment).(sm_binding) =
    sha256_hex (SOURCE_COMMITMENT_DOMAIN ++ utf8 (dumps (VDict (effect_body_dict body)))).
Proof.
  intros H body. pose proof (ac_binding _ _ H) as Hb. pose proof (ac_body _ _ H) as Ha.
  unfold effect_binding_sha256 in Hb. cbn [protocol_mapping] in Hb.
  assert (Hw : without "source_commitment" (effect_body_dict body) = effect_body_dict body) by by vm_compute.
  fold body in Ha, Hb. rewrite Hw, Ha in Hb. by apply domain_digest.
Qed.


(** ** The derived write *)

Lemma strict_display l ks (d : dict) : strict_mapping (VDict (fields l)) ks = Ok d -> d = fields l.
Proof. unfold strict_mapping, protocol_mapping. intros H. by inv_ok H. Qed.

Ltac read_strict H :=
  match type of H with
  | (match strict_mapping ?v ?ks with _ => _ end) = _ =>
      let E := fresh "Ed" in destruct (strict_mapping v ks) eqn:E; [|discriminate H];
      apply strict_display in E; subst
  end;
  rewrite !get_display in H; cbn [String.eqb Ascii.eqb Bool.eqb as_text] in H; cbv iota beta in H.

Lemma body_parts b :
  normalize_effect_body (VDict (effect_body_dict b)) = Ok b ->
  normalize_signed_scope (VDict (scope_dict b.(eb_scope))) = Ok b.(eb_scope) /\
  fullmatch WRITE_ID_RE b.(eb_write_id) = true /\
  forall q, b.(eb_operation) = OpPut q -> exists class issued, normalize_put (VDict (put_dict q)) class issued = Ok q.
Proof.
  unfold normalize_effect_body, effect_body_dict, effect_body_fields. intros H. read_strict H. inv_ok H.
  text_facts. cbn [eb_scope eb_write_id eb_operation] in *.
  split_and!; [done | done |]. intros q ->. cbn [operation_text put_of vopt] in *.
  match goal with Ho : normalize_operation _ _ _ _ = Ok _ |- _ => unfold normalize_operation in Ho;
    rewrite bool_decide_true in Ho by done; rewrite !get_display in Ho;
    cbn [String.eqb Ascii.eqb Bool.eqb] in Ho; inv_ok Ho end.
  eauto.
Qed.

Lemma put_parts q class issued :
  normalize_put (VDict (put_dict q)) class issued = Ok q ->
  safe_text (VStr q.(pu_subject)) "subject" 192 false = Ok q.(pu_subject) /\
  safe_text (VStr q.(pu_summary)) "summary" MAX_SUMMARY_BYTES false = Ok q.(pu_summary) /\
  normalize_payload (payload_kind q.(pu_payload)) (VDict (payload_dict q.(pu_payload))) = Ok q.(pu_payload) /\
  clock_field (vopt VStr q.(pu_memory_expires_at)) "expires_at" = Ok q.(pu_memory_expires_at) /\
  (forall s, q.(pu_supersedes) = Some s -> fullmatch ENTRY_ID_RE s = true).
Proof.
  unfold normalize_put, put_dict. intros H. read_strict H. do 3 case_res H.
  destruct (put_texts _ _) as [[[subject summary] payload]|] eqn:Et; [|done]. inv_ok H.
  cbn [pu_subject pu_summary pu_payload pu_memory_expires_at pu_supersedes] in *.
  unfold put_texts, reraise in Et. rewrite !get_display in Et. cbn [String.eqb Ascii.eqb Bool.eqb] in Et.
  destruct (safe_text (VStr subject) _ _ _) as [s1|x] eqn:Hs1; [|by destruct x].
  destruct (safe_text (VStr summary) _ _ _) as [s2|x] eqn:Hs2; [|by destruct x].
  destruct (normalize_payload _ _) as [p|x] eqn:Hp; [|by destruct x]. injection Et as -> -> ->.
  split_and!; try done.
  - match goal with Hm : memory_expiry (vopt VStr ?o) _ = Ok _ |- _ =>
      unfold memory_expiry, optional in Hm; destruct o as [t|]; [|done] end. cbn [vopt utc] in *.
    unfold clock_field, optional. cbn [vopt parse_utc]. destruct (strptime t) as [x|]; [|done].
    match goal with Hm : context [x <=? issued] |- _ => destruct (x <=? issued); [done | injection Hm as Hm] end.
    by f_equal; f_equal.
  - intros s ->. match goal with Hf : optional _ _ = Ok _ |- _ => by apply optional_text_ok in Hf end.
Qed.

Lemma texts_again l : texts (VList (map VStr l)) = Some l.
Proof. induction l as [|x l IH]; [done |]. simpl in *. by rewrite IH. Qed.

Lemma existsb_text (l : list pystr) x : existsb (fun v => py_eq v (VStr x)) (map VStr l) = bool_decide (x ∈ l).
Proof.
  induction l as [|y l IH]; [done |]. simpl. rewrite IH. repeat case_bool_decide; set_solver.
Qed.

Lemma roles_again l a a' :
  ordered_unique (VList (map VStr l)) OPERATIONAL_ROLES = Ok a -> scope_roles (VList (map VStr l)) = Ok a' -> a' = a.
Proof.
  unfold ordered_unique. rewrite texts_again. destruct l as [|x l]; [done |]. unfold known_unique. intros H H'.
  case_res H. cbv zeta in H. case_res H. apply Ok_inj in H as <-. unfold scope_roles in H'. cbn [map] in H'.
  case_res H'. case_res H'. apply Ok_inj in H' as <-. unfold in_order. apply List.filter_ext. intros role.
  apply (existsb_text (x :: l)).
Qed.

Lemma repository_again o a a' :
  optional (vopt VStr o) (text_in REPO_RE) = Ok a ->
  optional (vopt VStr o) (fun v => exact_string v "scope.repository") = Ok a' -> a' = a.
Proof.
  destruct o as [t|]; simpl; [|congruence]. unfold text_in. cbn [as_text].
  destruct (negb (fullmatch REPO_RE t)); [done | congruence].
Qed.

Lemma scope_again s s' :
  normalize_signed_scope (VDict (scope_dict s)) = Ok s -> normalize_scope (VDict (scope_dict s)) = Ok s' -> s' = s.
Proof.
  unfold normalize_signed_scope, normalize_scope, scope_dict. intros H H'. read_strict H. revert H'. read_display.
  intros H'. inv_ok H. inv_ok H'. cbn [sc_privacy sc_roles sc_repository] in *.
  repeat match goal with Hf : exact_string _ _ = Ok _ |- _ => apply exact_string_ok in Hf end.
  match goal with Hr : ordered_unique _ _ = Ok _, Hr' : scope_roles _ = Ok _ |- _ => pose proof (roles_again _ _ _ Hr Hr') end.
  match goal with Hr : optional _ _ = Ok _, Hr' : optional _ _ = Ok _ |- _ => pose proof (repository_again _ _ _ Hr Hr') end.
  congruence.
Qed.

(** What the derived write is, except for its locator. *)
Record derived (u : Unsigned) (q : Put) (r : WriteRequest) : Prop := {
  dw_entry_id : r.(wr_entry_id) = Some (entry_id_of u.(un_effect).(ef_body).(eb_write_id));
  dw_subject : r.(wr_body).(bo_subject) = q.(pu_subject);
  dw_summary : r.(wr_body).(bo_summary) = q.(pu_summary);
  dw_payload : r.(wr_body).(bo_payload) = q.(pu_payload);
  dw_kind : r.(wr_body).(bo_source).(so_kind) = u.(un_effect).(ef_body).(eb_authority).(au_source_kind);
  dw_trust : r.(wr_body).(bo_source).(so_trust) = u.(un_effect).(ef_body).(eb_authority).(au_source_trust);
  dw_actor : r.(wr_body).(bo_source).(so_actor) = u.(un_effect).(ef_body).(eb_authority).(au_actor);
  dw_sha256 : r.(wr_body).(bo_source).(so_sha256) = u.(un_effect).(ef_commitment).(sm_sha256);
  dw_scope : r.(wr_body).(bo_scope) = u.(un_effect).(ef_body).(eb_scope);
  dw_expires : r.(wr_body).(bo_expires_at) = q.(pu_memory_expires_at);
  dw_supersedes : r.(wr_body).(bo_supersedes) = q.(pu_supersedes) }.

Lemma source_display kind trust actor locator sha s :
  normalize_source (obj [("kind", VStr kind); ("trust", VStr trust); ("actor", VStr actor);
                         ("locator", VStr locator); ("sha256", VStr sha)]) = Ok s ->
  s.(so_kind) = kind /\ s.(so_trust) = trust /\ s.(so_actor) = actor /\ s.(so_sha256) = sha.
Proof.
  unfold normalize_source, obj. read_display. cbn [exact_string]. intros H.
  destruct (source_trust kind) as [expected|]; [|done]. inv_ok H. unfold token, cont_sha256 in *.
  repeat match goal with Hf : text_of_form _ _ _ = Ok _ |- _ => apply text_of_form_ok in Hf as [Hf _] end.
  simpl. split_and!; congruence.
Qed.

Lemma optional_id_display o o' field :
  optional (vopt VStr o) (fun v => text_of_form ENTRY_ID_RE v field) = Ok o' -> o' = o.
Proof.
  destruct o as [t|]; cbn [vopt optional]; [|congruence].
  destruct (text_of_form _ _ _) as [x|] eqn:E; [|done]. apply text_of_form_ok in E as [E _]. congruence.
Qed.

Lemma derived_write raw e q r :
  accepted raw e -> e.(ev_unsigned).(un_effect).(ef_body).(eb_operation) = OpPut q ->
  normalize_typed_write_request (VDict (derived_request e.(ev_unsigned) q)) = Ok r -> derived e.(ev_unsigned) q r.
Proof.
  intros H Hq. destruct (body_parts _ (ac_body _ _ H)) as (Hs & _ & Hp).
  destruct (Hp q Hq) as (class & issued & Hput). clear Hp.
  destruct (put_parts _ _ _ Hput) as (H1 & H2 & H3 & H4 & H5). clear Hput.
  unfold normalize_typed_write_request, derived_request. read_display. rewrite H1, H2.
  intros Hr. inv_ok Hr.
  match goal with Hf : exact_string _ "kind" = Ok _ |- _ => apply exact_string_ok in Hf as [= <-] end.
  match goal with Hf : normalize_source _ = Ok _ |- _ => apply source_display in Hf as (? & ? & ? & ?) end.
  match goal with Hf : normalize_scope _ = Ok _ |- _ => apply (scope_again _ _ Hs) in Hf end.
  match goal with Hf : optional (VStr ?x) _ = Ok ?o |- _ =>
    change (VStr x) with (vopt VStr (Some x)) in Hf; apply optional_id_display in Hf end.
  match goal with Hf : optional _ _ = Ok _ |- _ => apply optional_id_display in Hf end.
  split; cbn [wr_entry_id wr_body bo_subject bo_summary bo_payload bo_source bo_scope bo_expires_at bo_supersedes];
    congruence.
Qed.

(** ** Bindings and times *)

(** The configuration and the policy permit the effect. *)
Record permits (c : ImportConfig) (p : KeyPolicy) (f : Effect) : Prop := {
  pt_instance : f.(ef_body).(eb_instance_id) = c.(ic_instance_id);
  pt_repository : f.(ef_body).(eb_repository) = c.(ic_repository);
  pt_ledger : f.(ef_body).(eb_ledger_id) = c.(ic_ledger_id);
  pt_policy : f.(ef_body).(eb_policy_id) = p.(kp_policy_id);
  pt_digest : policy_authorization_sha256 (VDict (policy_dict p)) = Ok f.(ef_body).(eb_policy_sha256);
  pt_authority : f.(ef_body).(eb_authority) = p.(kp_authority);
  pt_operation : operation_text f.(ef_body).(eb_operation) ∈ p.(kp_permissions).(pm_operations);
  pt_kind : forall q, f.(ef_body).(eb_operation) = OpPut q ->
    payload_kind q.(pu_payload) ∈ p.(kp_permissions).(pm_entry_kinds);
  pt_commitment : f.(ef_commitment).(sm_kind) ∈ p.(kp_permissions).(pm_commitment_kinds);
  pt_privacy : f.(ef_body).(eb_scope).(sc_privacy) ∈ p.(kp_permissions).(pm_privacy);
  pt_roles : Forall (fun r => r ∈ p.(kp_permissions).(pm_roles)) f.(ef_body).(eb_scope).(sc_roles);
  pt_scope : f.(ef_body).(eb_scope).(sc_repository) = Some c.(ic_repository) }.

(** Issued and expiring within the policy's validity, for a time the
    configuration allows. *)
Definition valid_for (c : ImportConfig) (p : KeyPolicy) (b : EffectBody) (issued expires : Z) : Prop :=
  strptime b.(eb_issued_at) = Some issued /\ strptime b.(eb_expires_at) = Some expires /\
  60 <= expires - issued <= c.(ic_maximum_ttl) /\
  exists start stop, strptime p.(kp_valid_from) = Some start /\ strptime p.(kp_valid_until) = Some stop /\
    start <= issued /\ expires <= stop.

Lemma utc_text_ok s t : utc (VStr s) = Ok t -> strptime s = Some t.
Proof. simpl. destruct (strptime s); [by intros [= ->] | done]. Qed.

Lemma permitted_ok c p f : permitted c p.(kp_permissions) f = Ok tt ->
  operation_text f.(ef_body).(eb_operation) ∈ p.(kp_permissions).(pm_operations) /\
  (forall q, f.(ef_body).(eb_operation) = OpPut q -> payload_kind q.(pu_payload) ∈ p.(kp_permissions).(pm_entry_kinds)) /\
  f.(ef_commitment).(sm_kind) ∈ p.(kp_permissions).(pm_commitment_kinds) /\
  f.(ef_body).(eb_scope).(sc_privacy) ∈ p.(kp_permissions).(pm_privacy) /\
  Forall (fun r => r ∈ p.(kp_permissions).(pm_roles)) f.(ef_body).(eb_scope).(sc_roles) /\
  f.(ef_body).(eb_scope).(sc_repository) = Some c.(ic_repository).
Proof.
  unfold permitted. cbv zeta. intros H. do 4 case_res H. split_bools. split_and!; try done.
  - intros q Hq. match goal with Hk : (match _ with OpPut _ => _ | OpSuppress _ => _ end) = false |- _ =>
      rewrite Hq in Hk; by split_bools end.
  - match goal with Hf : forallb _ _ = true |- _ => rewrite forallb_forall in Hf; rename Hf into Hr end.
    apply Forall_forall. intros r Hin%list_elem_of_In%Hr. by apply bool_decide_eq_true in Hin.
Qed.

Lemma bindings_ok c p f :
  verify_policy_bindings c p f = Ok tt ->
  permits c p f /\ exists issued expires, valid_for c p f.(ef_body) issued expires.
Proof.
  unfold verify_policy_bindings. cbv zeta. intros H. do 4 case_res H. split_bools.
  destruct (policy_authorization_sha256 _) as [d|] eqn:Ed; [|done]. do 2 case_res H. split_bools.
  destruct (permitted _ _ _) as [[]|] eqn:Ep; [|done].
  destruct (permitted_ok c p f Ep) as (? & ? & ? & ? & ? & ?). split; [split; congruence || done |].
  unfold timely in H.
  destruct (utc (VStr f.(ef_body).(eb_issued_at))) as [issued|] eqn:Eq1; [|done].
  destruct (utc (VStr f.(ef_body).(eb_expires_at))) as [expires|] eqn:Eq2; [|done].
  destruct (utc (VStr p.(kp_valid_from))) as [start|] eqn:Eq3; [|done].
  destruct (utc (VStr p.(kp_valid_until))) as [stop|] eqn:Eq4; [|done].
  cbv zeta in H. case_res H. split_bools. apply utc_text_ok in Eq1, Eq2, Eq3, Eq4. unfold MIN_TTL_SECONDS in *.
  repeat match goal with Hl : (_ <? _) = false |- _ => apply Z.ltb_ge in Hl end.
  exists issued, expires. split_and!; try done; try lia. eauto 10.
Qed.

Lemma policy_selected c key_id p : selected_policy c key_id = Ok p -> p ∈ c.(ic_key_policies) /\ p.(kp_key_id) = key_id.
Proof.
  unfold selected_policy. destruct (List.filter _ _) as [|x [|]] eqn:E; try done. intros [= ->].
  assert (Hin : In p (List.filter (fun p => bool_decide (p.(kp_key_id) = key_id)) c.(ic_key_policies))) by (rewrite E; by left).
  apply filter_In in Hin as [Hin Hk]. apply bool_decide_eq_true in Hk. split; [by apply list_elem_of_In | done].
Qed.

(** ** The history *)

Context `{L : !SignatureLibrary}.

(** What [verify_cryptographic_history] establishes: the key [key] of the policy
    [p] signed the accepted envelope. *)
Record signed_by (raw : bytes) (config : value) (keys : list (pystr * bytes)) (c : ImportConfig) (e : Envelope)
    (p : KeyPolicy) (key signature : bytes) : Prop := {
  sb_config : normalize_import_config config = Ok c;
  sb_envelope : parse_envelope prime_order_point raw = Ok e;
  sb_bytes : canonical_json (VDict (envelope_dict e)) = Ok raw;
  sb_policy : p ∈ c.(ic_key_policies);
  sb_key_id : p.(kp_key_id) = e.(ev_unsigned).(un_key_id);
  sb_key : (p.(kp_key_id), key) ∈ keys;
  sb_pinned : sha256_hex key = p.(kp_public_key_sha256);
  sb_point : prime_order_point key = true;
  sb_signature : e.(ev_signature) = base64url signature;
  sb_encoding : signature_encoding prime_order_point signature = true;
  sb_verified : library_verify key signature
    (SIGNING_DOMAIN ++ utf8 (dumps (VDict (unsigned_dict e.(ev_unsigned))))) = true;
  sb_permits : permits c p e.(ev_unsigned).(un_effect) }.

Lemma key_of_elem keys key_id key : key_of keys key_id = Some key -> (key_id, key) ∈ keys.
Proof.
  unfold key_of. destruct (List.find _ keys) as [[k x]|] eqn:E; [|done]. intros [= ->].
  apply find_some in E as [Hin Hk]. apply bool_decide_eq_true in Hk. simpl in Hk. subst. by apply list_elem_of_In.
Qed.

Lemma history_checked raw config keys c e p :
  verify_cryptographic_history prime_order_point raw config keys = Ok (c, e, p) ->
  exists key signature, signed_by raw config keys c e p key signature /\
    exists issued expires, valid_for c p e.(ev_unsigned).(un_effect).(ef_body) issued expires.
Proof.
  unfold verify_cryptographic_history. intros H.
  destruct (normalize_import_config config) as [c'|] eqn:Ec; [|done].
  destruct (parse_envelope _ raw) as [e'|] eqn:Ee; [|done]. cbv zeta in H.
  destruct (selected_policy _ _) as [p'|] eqn:Ep; [|done]. case_res H. case_res H.
  destruct (key_of keys (kp_key_id p')) as [key|] eqn:Ek; [|done].
  destruct (public_key_fingerprint _ _) as [fp|] eqn:Ef; [|done]. do 2 case_res H. cbn [default] in *.
  destruct (decode_signature _ _) as [signature|] eqn:Es; [|done].
  destruct (signing_bytes _) as [m|] eqn:Em; [|done]. case_res H.
  destruct (verify_policy_bindings _ _ _) as [[]|] eqn:Eb; [|done]. injection H as -> -> ->. split_bools.
  pose proof (envelope_accepted _ _ _ Ee) as Ha. apply (message_signed _ _ _ Ha) in Em. subst m.
  apply signature_text in Es as ([= Es] & _ & _ & Hs). apply policy_selected in Ep as [Hp Hk].
  destruct (bindings_ok _ _ _ Eb) as [Hperm Htime]. apply key_of_elem in Ek.
  unfold public_key_fingerprint in Ef. do 2 case_res Ef. apply Ok_inj in Ef. subst fp. split_bools.
  exists key, signature. split; [|done]. split; try done. apply (ac_bytes _ _ Ha).
Qed.

Lemma result_ok raw mode e p v :
  parse_envelope prime_order_point raw = Ok e -> verification_result prime_order_point mode e p = Ok v ->
  v.(ve_envelope_sha256) = sha256_hex (ENVELOPE_DIGEST_DOMAIN ++ raw) /\
  v.(ve_key_id) = e.(ev_unsigned).(un_key_id) /\ v.(ve_effect) = e.(ev_unsigned).(un_effect) /\
  match v.(ve_write) with
  | Some r => exists q, v.(ve_effect).(ef_body).(eb_operation) = OpPut q /\ derived e.(ev_unsigned) q r
  | None => exists s, v.(ve_effect).(ef_body).(eb_operation) = OpSuppress s
  end.
Proof.
  intros He. unfold verification_result. cbv zeta. intros H.
  destruct (envelope_sha256 _ _) as [d|] eqn:Ed; [|done]. apply (envelope_digest _ _ _ _ He) in Ed.
  destruct (entry_id_for_write_id _) as [id|]; [|done].
  destruct (derive_continuity_write _) as [w|] eqn:Ew; [|done]. injection H as <-. cbn [ve_envelope_sha256 ve_key_id ve_effect ve_write].
  split_and!; try done. unfold derive_continuity_write in Ew.
  destruct (eb_operation _) as [q|s] eqn:Eo; [|injection Ew as <-; eauto].
  destruct (entry_id_for_write_id _); [|done]. unfold as_schema_invalid, reraise in Ew.
  destruct (normalize_typed_write_request _) as [r|x] eqn:Er; [|by destruct x]. injection Ew as <-.
  exists q. split; [done |]. by eapply derived_write; [apply (envelope_accepted _ _ _ He) | |].
Qed.

Lemma integer_ok v lo hi z : integer v lo hi = Ok z -> lo <= z <= hi.
Proof. unfold integer. intros H. destruct v; try done. case_res H. injection H as ->. split_bools. lia. Qed.

Lemma skew_nonneg config c : normalize_import_config config = Ok c -> 0 <= c.(ic_maximum_skew).
Proof.
  unfold normalize_import_config. intros H. destruct (strict_mapping _ _) as [d|]; [|done]. case_res H.
  destruct (get d "enabled"); try done. repeat case_res H. injection H as <-. cbn [ic_maximum_skew].
  match goal with Hi : integer _ 0 _ = Ok _ |- _ => apply integer_ok in Hi end. lia.
Qed.

(** C14: an admitted write is authentic, authorised and in time.  The importer is
    enabled, and the active key that the envelope names - one of the given keys,
    of prime order, with the fingerprint its policy pins - signed exactly the
    envelope whose canonical bytes were given.  The policy, which the effect
    names by its digest, permits the effect; the present lies between its issue,
    up to the clock skew, and its expiry.  The derived write is the effect's:
    its source is the authority of the policy, its digest the source commitment. *)
Theorem admission_sound raw config keys now v :
  verify_for_new_admission prime_order_point raw config keys now = Ok v ->
  exists c e p key signature issued expires,
    signed_by raw config keys c e p key signature /\
    c.(ic_enabled) = true /\ p.(kp_state) = Active /\
    valid_for c p e.(ev_unsigned).(un_effect).(ef_body) issued expires /\
    (issued - c.(ic_maximum_skew)) * 1000000 <= now < expires * 1000000 /\
    v.(ve_effect) = e.(ev_unsigned).(un_effect) /\
    v.(ve_envelope_sha256) = sha256_hex (ENVELOPE_DIGEST_DOMAIN ++ raw) /\
    match v.(ve_write) with
    | Some r => exists q, v.(ve_effect).(ef_body).(eb_operation) = OpPut q /\ derived e.(ev_unsigned) q r
    | None => exists s, v.(ve_effect).(ef_body).(eb_operation) = OpSuppress s
    end.
Proof.
  unfold verify_for_new_admission. intros H.
  destruct (verify_cryptographic_history _ _ _ _) as [[[c e] p]|] eqn:Eh; [|done].
  destruct (history_checked _ _ _ _ _ _ Eh) as (key & signature & Hs & issued & expires & Ht).
  destruct (negb (ic_enabled c)) eqn:Een; [done |]. destruct (bool_decide (kp_state p = Retired)) eqn:Ert; [done |].
  unfold not_revoked in H. destruct (bool_decide (kp_state p = Revoked)) eqn:Erv; [done |].
  destruct (in_window _ _ _) as [[]|] eqn:Ew; [|done]. split_bools.
  destruct (result_ok _ _ _ _ _ (sb_envelope _ _ _ _ _ _ _ _ Hs) H) as (Hd & _ & He & Hw).
  exists c, e, p, key, signature, issued, expires. split_and!; try done.
  - by destruct (kp_state p).
  - pose proof (skew_nonneg _ _ (sb_config _ _ _ _ _ _ _ _ Hs)). destruct Ht as (Hi & Hx & _).
    unfold in_window, utc in Ew. rewrite Hi, Hx in Ew. do 2 case_res Ew.
    apply andb_false_iff in E. rewrite !Z.ltb_ge in E. lia.
  - destruct Ht as (Hi & Hx & _). unfold in_window, utc in Ew. rewrite Hi, Hx in Ew. do 2 case_res Ew. by apply Z.leb_gt.
Qed.

(** ** Rotation *)

Definition with_state (s : KeyState) (p : KeyPolicy) : KeyPolicy :=
  {| kp_policy_id := p.(kp_policy_id); kp_key_id := p.(kp_key_id);
     kp_public_key_sha256 := p.(kp_public_key_sha256); kp_state := s; kp_valid_from := p.(kp_valid_from);
     kp_valid_until := p.(kp_valid_until); kp_authority := p.(kp_authority);
     kp_permissions := p.(kp_permissions) |}.

(** The configuration [c'] has the policy of [key_id] in state [s] and does not
    shorten the lives of effects; whether it is enabled, its other policies and
    its clock skew do not matter. *)
Record rotated (c c' : ImportConfig) (key_id : pystr) (s : KeyState) : Prop := {
  ro_instance : c'.(ic_instance_id) = c.(ic_instance_id);
  ro_repository : c'.(ic_repository) = c.(ic_repository);
  ro_ledger : c'.(ic_ledger_id) = c.(ic_ledger_id);
  ro_ttl : c.(ic_maximum_ttl) <= c'.(ic_maximum_ttl);
  ro_policy : forall p, selected_policy c key_id = Ok p -> selected_policy c' key_id = Ok (with_state s p) }.

(** The state is no part of the grant. *)
Lemma grant_without_state s p :
  policy_authorization_sha256 (VDict (policy_dict (with_state s p))) =
  policy_authorization_sha256 (VDict (policy_dict p)).
Proof.
  unfold policy_authorization_sha256, normalize_key_policy, policy_dict, policy_projection_fields.
  set (l := _ ++ [("state", VStr (state_text (kp_state (with_state s p))))]).
  set (l' := _ ++ [("state", VStr (state_text (kp_state p)))]).
  assert (strict_mapping (VDict (fields l)) POLICY_KEYS = Ok (fields l)) as -> by by vm_compute.
  assert (strict_mapping (VDict (fields l')) POLICY_KEYS = Ok (fields l')) as -> by by vm_compute.
  subst l l'. cbn [app]. rewrite !get_display. cbn [String.eqb Ascii.eqb Bool.eqb with_state kp_policy_id kp_key_id
    kp_public_key_sha256 kp_state kp_valid_from kp_valid_until kp_authority kp_permissions].
  assert (Hk : forall t, key_state (VStr (state_text t)) = Ok t) by (by intros []; vm_compute).
  rewrite !Hk. cbv iota beta. destruct (negb (is_exactly (vstr KEY_POLICY_SCHEMA) _)); [done |].
  destruct (negb (is_exactly (vstr SIGNATURE_ALGORITHM) _)); [done |].
  destruct (normalize_authority _); [|done]. destruct (normalize_permissions _ _); [|done].
  destruct (utc (VStr (kp_valid_from p))); [|done]. destruct (utc (VStr (kp_valid_until p))); [|done].
  destruct (Z.leb _ _); [done |]. destruct (token_text (VStr (kp_policy_id p))); [|done].
  destruct (token_text (VStr (kp_key_id p))); [|done]. by destruct (digest_text _).
Qed.

Lemma bindings_rotated c c' key_id s p f :
  rotated c c' key_id s -> verify_policy_bindings c p f = Ok tt ->
  verify_policy_bindings c' (with_state s p) f = Ok tt.
Proof.
  intros R. unfold verify_policy_bindings. cbv zeta. rewrite grant_without_state.
  rewrite (ro_instance _ _ _ _ R), (ro_repository _ _ _ _ R), (ro_ledger _ _ _ _ R).
  cbn [with_state kp_policy_id kp_authority kp_permissions]. intros H.
  do 4 (destruct (negb _); [done |]). destruct (policy_authorization_sha256 _); [|done].
  do 2 (destruct (negb _); [done |]).
  assert (permitted c' (kp_permissions p) f = permitted c (kp_permissions p) f) as ->.
  { unfold permitted. by rewrite (ro_repository _ _ _ _ R). }
  destruct (permitted _ _ _); [|done]. revert H. unfold timely. cbn [with_state kp_valid_from kp_valid_until].
  do 4 (match goal with |- context [match ?r with Ok _ => _ | Raise _ => _ end] => destruct r; [|done] end). cbv zeta.
  intros H. case_res H. repeat match goal with Hb : _ || _ = false |- _ => apply orb_false_iff in Hb as [Hb ?] end.
  repeat match goal with Hb : _ = false |- _ => rewrite Hb end. cbn [orb].
  pose proof (ro_ttl _ _ _ _ R). repeat match goal with Hb : (_ <? _) = false |- _ => apply Z.ltb_ge in Hb end.
  by rewrite (proj2 (Z.ltb_ge _ _)) by lia.
Qed.

Lemma history_rotated raw config config' keys c c' e p s :
  verify_cryptographic_history prime_order_point raw config keys = Ok (c, e, p) ->
  normalize_import_config config' = Ok c' -> rotated c c' e.(ev_unsigned).(un_key_id) s ->
  verify_cryptographic_history prime_order_point raw config' keys = Ok (c', e, with_state s p).
Proof.
  unfold verify_cryptographic_history. intros H -> R.
  destruct (normalize_import_config config) as [c0|]; [|done]. destruct (parse_envelope _ raw) as [e0|]; [|done].
  cbv zeta in *. destruct (selected_policy c0 _) as [p0|] eqn:Ep; [|done].
  assert (c0 = c /\ e0 = e /\ p0 = p) as (-> & -> & ->).
  { do 2 case_res H. destruct (public_key_fingerprint _ _); [|done]. do 2 case_res H.
    destruct (decode_signature _ _); [|done]. destruct (signing_bytes _); [|done]. case_res H.
    destruct (verify_policy_bindings _ _ _); [|done]. by simplify_eq. }
  rewrite (ro_policy _ _ _ _ R _ Ep). cbn [with_state kp_key_id kp_public_key_sha256].
  destruct (_ || _); [done |]. destruct (check_public_keys _ _); [|done].
  destruct (public_key_fingerprint _ _); [|done]. do 2 (destruct (negb _); [done |]).
  destruct (decode_signature _ _); [|done]. destruct (signing_bytes _); [|done]. destruct (negb _); [done |].
  destruct (verify_policy_bindings _ _ _) as [[]|] eqn:Eb; [|done]. by rewrite (bindings_rotated _ _ _ _ _ _ R Eb).
Qed.

(** The same result in another mode and with another key state. *)
Definition replayed (v : Verified) (s : KeyState) : Verified :=
  {| ve_mode := "replay"; ve_envelope_sha256 := v.(ve_envelope_sha256); ve_key_id := v.(ve_key_id);
     ve_key_state := s; ve_entry_id := v.(ve_entry_id); ve_write := v.(ve_write); ve_effect := v.(ve_effect) |}.

Lemma result_replayed raw mode e p v s :
  parse_envelope prime_order_point raw = Ok e -> verification_result prime_order_point mode e p = Ok v ->
  envelope_sha256 prime_order_point (VDict (envelope_dict e)) = Ok v.(ve_envelope_sha256) /\
  verification_result prime_order_point "replay" e (with_state s p) = Ok (replayed v s).
Proof.
  intros He. unfold verification_result. cbv zeta. intros H.
  destruct (envelope_sha256 _ _) as [d|] eqn:Ed; [|done]. destruct (entry_id_for_write_id _) as [id|]; [|done].
  destruct (derive_continuity_write _) as [w|]; [|done]. by injection H as <-.
Qed.

(** C16: what was admitted can be replayed, and nothing else under its digest.
    With the digest that admission returned, the same bytes verify under any
    later configuration of the same instance, repository and ledger that still
    has the key's policy, whatever the state of the key, the present and the
    switch that enables the importer: the result is the admitted one.  Only a
    revoked key stops it. *)
Theorem replay_after_rotation raw config config' keys now v c c' s :
  verify_for_new_admission prime_order_point raw config keys now = Ok v ->
  normalize_import_config config = Ok c -> normalize_import_config config' = Ok c' ->
  rotated c c' v.(ve_key_id) s ->
  verify_for_replay prime_order_point raw config' keys (VStr v.(ve_envelope_sha256)) =
    (if decide (s = Revoked) then fault "key_revoked" else Ok (replayed v s)) /\
  (forall raw' keys' w,
    verify_for_replay prime_order_point raw' config' keys' (VStr v.(ve_envelope_sha256)) = Ok w ->
    raw' = raw \/ collision).
Proof.
  unfold verify_for_new_admission. intros H Hc Hc' R.
  destruct (verify_cryptographic_history _ raw config keys) as [[[c0 e] p]|] eqn:Eh; [|done].
  destruct (history_checked _ _ _ _ _ _ Eh) as (key & signature & Hs & _).
  assert (c0 = c) as -> by (pose proof (sb_config _ _ _ _ _ _ _ _ Hs); congruence).
  do 2 case_res H. destruct (not_revoked p); [|done]. destruct (in_window _ _ _); [|done].
  pose proof (sb_envelope _ _ _ _ _ _ _ _ Hs) as He.
  destruct (result_ok _ _ _ _ _ He H) as (Hd & Hk & _ & _). rewrite Hk in R.
  destruct (result_replayed _ _ _ _ _ s He H) as [Hdig Hres]. split.
  - unfold verify_for_replay. rewrite (history_rotated _ _ _ _ _ _ _ _ _ Eh Hc' R). unfold not_revoked.
    cbn [with_state kp_state]. destruct (decide (s = Revoked)) as [Hr|Hr]; [by rewrite bool_decide_true |].
    rewrite bool_decide_false by done. unfold digest_text, text_in. cbn [as_text].
    assert (fullmatch SHA256_RE v.(ve_envelope_sha256) = true) as -> by (rewrite Hd; apply sha256_hex_re).
    cbn [negb]. rewrite Hdig, bool_decide_true by done. exact Hres.
  - intros raw' keys' w Hw. unfold verify_for_replay in Hw.
    destruct (verify_cryptographic_history _ raw' config' keys') as [[[c1 e1] p1]|] eqn:Eh1; [|done].
    destruct (history_checked _ _ _ _ _ _ Eh1) as (key1 & signature1 & Hs1 & _).
    destruct (not_revoked p1); [|done]. destruct (digest_text _) as [d|] eqn:Edg; [|done].
    apply text_in_ok in Edg as [[= Edg] _].
    destruct (envelope_sha256 _ (VDict (envelope_dict e1))) as [d1|] eqn:Ed1; [|done]. case_res Hw. split_bools.
    apply (envelope_digest _ _ _ _ (sb_envelope _ _ _ _ _ _ _ _ Hs1)) in Ed1.
    destruct (decide (raw' = raw)) as [|Hne]; [by left | right].
    exists (ENVELOPE_DIGEST_DOMAIN ++ raw'), (ENVELOPE_DIGEST_DOMAIN ++ raw). split; [|congruence].
    by intros Hx%app_inv_head.
Qed.
End Facts.
