(* ===== verification/VerifyDemo.v ===== *)
(** * A concrete signed write

    A configuration with one key, the encoding of the curve's base point, and an
    owner's correction signed by it: the witnesses of VerifyFacts.v and
    Ed25519Facts.v, and two observations on key names and early policies.  The
    strict checks are evaluated with Ed25519Facts.v. *)

From S2P Require Import Prelude Regex Sha256 PyTime PyUrl PyText Json JsonFacts JsonSim Protocol Encoding Screening ScreeningFacts Continuity ContinuityFacts Ledger Chain ContinuityDemo Ed25519 Ed25519Facts ContinuityPolicy ContinuityProtocol ContinuityVerify EnvelopeFacts VerifyFacts.
Local Open Scope Z_scope.

#[local] Existing Instance plain_unicode.

(** The base point: [y = 4/5], even [x]. *)
Definition base_point : bytes := 88%N :: replicate 31 102%N.

Lemma base_point_prime : prime_order_point base_point = true.
Proof. rewrite <- prime_order_fast_spec. vm_compute. reflexivity. Qed.

(** A library that knows one key. *)
Definition one_key : SignatureLibrary := {|
  from_public_bytes := fun key => bool_decide (key = base_point);
  library_verify := fun key signature message => bool_decide (key = base_point) && (zlen signature =? 64) |}.
#[local] Existing Instance one_key.

Definition hash (c : N) : pystr := replicate 64 c.
Definition T : pystr := str "2026-01-01T00:00:00Z".

Definition demo_policy (key_id : string) (from : string) (state : KeyState) : KeyPolicy := {|
  kp_policy_id := str "owner-policy"; kp_key_id := str key_id;
  kp_public_key_sha256 := sha256_hex base_point; kp_state := state;
  kp_valid_from := str from; kp_valid_until := str "2027-01-01T00:00:00Z";
  kp_authority := {| au_class := Owner; au_source_kind := str "owner";
    au_source_trust := str "owner_asserted"; au_actor := str "ana" |};
  kp_permissions := {| pm_operations := map str ["put"; "suppress"];
    pm_entry_kinds := map str ["user_correction"; "user_preference"];
    pm_commitment_kinds := [str "dashboard"]; pm_privacy := map str ["private"; "public"];
    pm_roles := map str ["maintainer"; "guide"] |} |}.

Definition demo_ledger : pystr := str "jlcl-" ++ replicate 24 49%N.

Definition demo_config (enabled : bool) (p : KeyPolicy) : value := VDict (import_config_dict {|
  ic_enabled := enabled; ic_instance_id := str "home"; ic_repository := str "o/r";
  ic_ledger_id := demo_ledger; ic_maximum_ttl := 600; ic_maximum_skew := 10;
  ic_key_policies := [p] |}).

Definition or_else {A} (d : A) (r : res A) : A := match r with Ok a => a | Raise _ => d end.

Definition demo_head : Head := Eval vm_compute in
  or_else {| hd_ledger_id := []; hd_sequence := 0; hd_entry_sha256 := []; hd_size := 0;
             hd_updated_at := []; hd_sha256 := [] |}
    (new_head demo_ledger 0 (hash 48%N) 0 (str "2025-12-31T00:00:00Z")).

Definition demo_put : Put := {|
  pu_subject := str "tone"; pu_summary := str "Prefers short answers."; pu_payload := UserCorrection (str "requirement");
  pu_memory_expires_at := None; pu_supersedes := None |}.

Definition demo_body (p : KeyPolicy) : EffectBody := {|
  eb_instance_id := str "home"; eb_repository := str "o/r"; eb_ledger_id := demo_ledger;
  eb_expected_head := demo_head; eb_policy_id := str "owner-policy";
  eb_policy_sha256 := or_else [] (policy_authorization_sha256 (VDict (policy_dict p)));
  eb_write_id := str "jlcw-" ++ replicate 32 50%N; eb_issued_at := T;
  eb_expires_at := str "2026-01-01T00:05:00Z"; eb_authority := p.(kp_authority);
  eb_scope := {| sc_privacy := str "public"; sc_roles := map str ["maintainer"; "guide"];
                 sc_repository := Some (str "o/r") |};
  eb_operation := OpPut demo_put |}.

Definition demo_unsigned (p : KeyPolicy) : Unsigned := {|
  un_key_id := p.(kp_key_id);
  un_effect := {| ef_body := demo_body p;
    ef_commitment := {| sm_kind := str "dashboard";
      sm_binding := or_else [] (effect_binding_sha256 (VDict (effect_body_dict (demo_body p))));
      sm_sha256 := hash 99%N |} |} |}.

(** R is the base point and S is zero. *)
Definition demo_raw (p : KeyPolicy) : bytes :=
  or_else [] (canonical_json (VDict (signed_dict (demo_unsigned p) (base64url (base_point ++ replicate 32 0%N))))).

Definition keys_of (p : KeyPolicy) : list (pystr * bytes) := [(p.(kp_key_id), base_point)].

Definition owner (s : KeyState) : KeyPolicy := demo_policy "owner-1" "2025-01-01T00:00:00Z" s.
Definition owner_raw : bytes := Eval vm_compute in demo_raw (owner Active).

(** A minute after it was issued. *)
Definition NOW : Z := Eval vm_compute in (default 0 (strptime T) + 60) * 1000000.

Definition admit_with (prime_order : bytes -> bool) : res Verified :=
  verify_for_new_admission prime_order owner_raw (demo_config true (owner Active)) (keys_of (owner Active)) NOW.

Definition admitted : Verified := Eval vm_compute in
  or_else {| ve_mode := ""; ve_envelope_sha256 := []; ve_key_id := []; ve_key_state := Revoked; ve_entry_id := [];
             ve_write := None; ve_effect := un_effect (demo_unsigned (owner Active)) |} (admit_with prime_order_fast).

Lemma demo_admitted :
  verify_for_new_admission prime_order_point owner_raw (demo_config true (owner Active)) (keys_of (owner Active)) NOW =
    Ok admitted.
Proof. rewrite <- prime_order_fast_spec. vm_compute. reflexivity. Qed.

(** ** Witnesses *)

Example prime_order_sound_witness :
  exists x y, decode_point base_point = Some (x, y, 1, (x * y) mod FIELD_PRIME) /\
    on_curve (x, y, 1, (x * y) mod FIELD_PRIME) /\ 0 <= x < FIELD_PRIME /\ 0 <= y < FIELD_PRIME /\
    zlen base_point = 32 /\ from_little base_point = y + 2 ^ 255 * (x mod 2) /\
    is_identity (x, y, 1, (x * y) mod FIELD_PRIME) = false /\
    on_curve (scalar_multiply SUBGROUP_ORDER (x, y, 1, (x * y) mod FIELD_PRIME)) /\
    is_identity (scalar_multiply SUBGROUP_ORDER (x, y, 1, (x * y) mod FIELD_PRIME)) = true /\
    forall key', Forall (fun x => (x < 256)%N) key' -> decode_point key' = decode_point base_point -> key' = base_point.
Proof. apply prime_order_sound; [|exact base_point_prime]. repeat constructor. Defined.

Example admission_sound_witness :
  exists c e p key signature issued expires,
    signed_by owner_raw (demo_config true (owner Active)) (keys_of (owner Active)) c e p key signature /\
    c.(ic_enabled) = true /\ p.(kp_state) = Active /\
    valid_for c p e.(ev_unsigned).(un_effect).(ef_body) issued expires /\
    (issued - c.(ic_maximum_skew)) * 1000000 <= NOW < expires * 1000000 /\
    admitted.(ve_effect) = e.(ev_unsigned).(un_effect) /\
    admitted.(ve_envelope_sha256) = sha256_hex (ENVELOPE_DIGEST_DOMAIN ++ owner_raw) /\
    match admitted.(ve_write) with
    | Some r => exists q, admitted.(ve_effect).(ef_body).(eb_operation) = OpPut q /\ derived e.(ev_unsigned) q r
    | None => exists s, admitted.(ve_effect).(ef_body).(eb_operation) = OpSuppress s
    end.
Proof.
  exact (admission_sound owner_raw (demo_config true (owner Active)) (keys_of (owner Active)) NOW admitted demo_admitted).
Defined.

Definition config_of (enabled : bool) (p : KeyPolicy) : ImportConfig := {|
  ic_enabled := enabled; ic_instance_id := str "home"; ic_repository := str "o/r";
  ic_ledger_id := demo_ledger; ic_maximum_ttl := 600; ic_maximum_skew := 10; ic_key_policies := [p] |}.

Lemma config_normal enabled s :
  normalize_import_config (demo_config enabled (owner s)) = Ok (config_of enabled (owner s)).
Proof. destruct enabled, s; vm_compute; reflexivity. Qed.

(** The importer is disabled and the key retired. *)
Lemma owner_rotated s :
  rotated (config_of true (owner Active)) (config_of false (owner s)) admitted.(ve_key_id) s.
Proof.
  split; [done | done | done | vm_compute; discriminate |]. intros p Hp.
  assert (p = owner Active) as ->.
  { change (Ok (owner Active) = Ok p) in Hp. congruence. }
  by destruct s.
Qed.

Example replay_after_rotation_witness :
  verify_for_replay prime_order_point owner_raw (demo_config false (owner Retired)) (keys_of (owner Active))
      (VStr admitted.(ve_envelope_sha256)) =
    (if decide (Retired = Revoked) then fault "key_revoked" else Ok (replayed admitted Retired)) /\
  (forall raw' keys' w,
    verify_for_replay prime_order_point raw' (demo_config false (owner Retired)) keys'
      (VStr admitted.(ve_envelope_sha256)) = Ok w -> raw' = owner_raw \/ collision).
Proof.
  exact (replay_after_rotation owner_raw (demo_config true (owner Active)) (demo_config false (owner Retired))
    (keys_of (owner Active)) NOW admitted (config_of true (owner Active)) (config_of false (owner Retired)) Retired
    demo_admitted (config_normal true Active)
    (config_normal false Retired) (owner_rotated Retired)).
Defined.

(** The same effect signed twice. *)
Definition second_raw : bytes := Eval vm_compute in
  or_else [] (canonical_json (VDict (signed_dict (demo_unsigned (owner Active))
    (base64url (base_point ++ 1%N :: replicate 31 0%N))))).

Definition parsed (signature : bytes) : Envelope := {|
  ev_unsigned := demo_unsigned (owner Active); ev_signature := base64url signature |}.

Lemma both_parsed :
  parse_envelope prime_order_point owner_raw = Ok (parsed (base_point ++ replicate 32 0%N)) /\
  parse_envelope prime_order_point second_raw = Ok (parsed (base_point ++ 1%N :: replicate 31 0%N)).
Proof. rewrite <- prime_order_fast_spec. split; vm_compute; reflexivity. Qed.

Lemma parsed_unsigned signature : ev_unsigned (parsed signature) = demo_unsigned (owner Active).
Proof. reflexivity. Qed.


(** ** Observations *)

(** A key whose name ends in a word that names credentials: the envelope is
    accepted, but its write cannot be derived. *)
Definition secret_owner : KeyPolicy := demo_policy "owner-secret" "2025-01-01T00:00:00Z" Active.
Definition secret_raw : bytes := Eval vm_compute in demo_raw secret_owner.

Example credential_key :
  is_ok (parse_envelope prime_order_fast secret_raw) = true /\
  derive_continuity_write (demo_unsigned secret_owner) = fault "schema_invalid".
Proof. split; vm_compute; reflexivity. Qed.

(** A policy that starts before the year 1000 is accepted, but its normal form
    is not, so that no effect can name its digest. *)
Definition early_owner : KeyPolicy := demo_policy "owner-1" "0900-01-01T00:00:00Z" Active.

Example early_policy :
  match normalize_key_policy (VDict (policy_dict early_owner)) with
  | Ok q => policy_authorization_sha256 (VDict (policy_dict q)) = fault "time_invalid"
  | Raise _ => False
  end.
Proof. vm_compute. reflexivity. Qed.
